(* ===== verification/_CoqProject ===== *)
-Q . S2P
Prelude.v
Mq.v
Ntt.v
MqTables.v
MqPoly.v
Bits.v
Codec.v
Util.v
Verify.v
Flr.v
FgmTable.v
Fpoly.v
Sampler.v
FpolyFacts.v
Sign.v
FlrEmu.v
EmuFacts.v
EmuAdd.v
EmuRound.v
FlrNative.v
NativeFacts.v
FloatProps.v
Examples.v
Signature.v
Precomputed.v
SamplerFacts.v
Mp31Tables.v
Mp31.v
Zint31.v
Zint31Facts.v
ZintCrt.v
ZintGcd.v
ZintScaled.v
FxrTable.v
Fxr.v
Kpoly.v
Ntru.v
NtruMem.v
NtruFacts.v
FxrFacts.v
NtruProps.v
KeyGen.v
Text.v
Json.v
JsonFacts.v
Claims.v
JwtParser.v
JwtFacts.v
JwtMethods.v
JwtUtil.v
JwtUtilFacts.v
Store.v
Tasks.v
TasksFacts.v
Users.v
Demo.v
JwtProps.v
CryptoMethods.v
KeyLoad.v
Startup.v
MethodProps.v
KeyProps.v
GenFndsa.v
GenKeys.v
GenPq.v
KeyDemo.v
GenDemo.v
Bench.v
BenchProps.v
Request.v
TokenProps.v
TaskProps.v
AuthProps.v
ServiceProps.v
