(* ===== verification/Prelude.v ===== *)
(** A verification of Tasktify: a task manager whose services authenticate with
    JSON Web Tokens signed by FN-DSA (Falcon), from the arithmetic of the
    signature scheme to the HTTP routes.

    The program, under src/backend/:

      gateway            HTTP in front: routes, middleware, handlers
      auth-service       users, sign-in, access and refresh tokens
      todo-service       tasks of users, behind an interceptor
      pkg/utils/jwtutils the tokens of the services
      pkg/jwt            the token library: claims, parser, signing methods
      pkg/fndsa          the signature scheme: codecs, arithmetic modulo q,
                         floating-point sampler, signer, verifier, key generation

    A request to /api/tasks carries a bearer token; the middleware has it parsed
    by jwtutils, which asks pkg/jwt, which asks the method named in the header,
    pkg/fndsa for FN-DSA; the verified user travels as metadata to the task
    service, whose interceptor and server put it in place of the one in the
    request, and whose repository restricts every query to it.  Sign-in goes the
    other way: auth-service checks the password and has jwtutils issue a pair of
    tokens.

    Files, in the order they build on each other, with what they model:

      Signature scheme (pkg/fndsa)
        Mq, Ntt, MqTables, MqPoly   mq.go: scalars, transform, polynomials
        Bits, Codec                 codec.go
        Util                        util.go: sizes, hash_to_point, SHAKE256 generator
        Verify                      vrfy.go
        Flr, FlrEmu                 the floating-point interface; sign_flr_emu.go
        EmuFacts, EmuAdd, EmuRound  its operations are correctly rounded
        FlrNative, NativeFacts      sign_flr_native.go and the files of its build;
                                    it agrees with the emulation
        FloatProps                  theorems on both builds
        FgmTable, Fpoly             sign_fpoly.go
        Sampler                     sign_sampler.go
        Sign                        sign.go, sign_core.go
        Precomputed                 sign_precomputed.go
        Mp31Tables, Mp31            kgen_mp31.go: arithmetic modulo 31-bit primes
        Zint31                      kgen_zint31.go: integers in 31-bit words
        Zint31Facts, ZintCrt,
        ZintGcd, ZintScaled         what its routines compute
        FxrTable, Fxr, FxrFacts     kgen_fxr.go: fixed point and its transform
        Kpoly                       kgen_poly.go
        Ntru                        kgen_ntru.go: the solver of f G - g F = q
        NtruMem, NtruFacts, NtruProps   its scratch array, theorems
        KeyGen                      kgen.go, kgen_gauss.go
        FpolyFacts, Signature, SamplerFacts, Examples   theorems and inputs
      Token library (pkg/jwt)
        Text, Json, JsonFacts       what it uses of Go's strings, utf8, base64
                                    and encoding/json
        Claims                      errors, types, claims, map_claims,
                                    registered_claims, validator
        JwtParser, JwtFacts         token, signing_method, parser, parser_option
        JwtMethods                  none, hmac, fndsa_alg, fndsa_original,
                                    fndsa_precomputed
        CryptoMethods, MethodProps  ecdsa, ed25519, rsa, rsa_pss, mldsa, slhdsa;
                                    the registry of all methods
        Request                     request: tokens in HTTP requests
      Services
        JwtUtil, JwtUtilFacts       pkg/utils/jwtutils/jwt.go
        KeyLoad, KeyProps           pkg/jwt/*_utils.go, jwtutils/loader.go, the
                                    configurations of internal/config/app.go
        GenFndsa, GenKeys           cmd/keygen/main.go: the key files of the services
        GenPq                       keys/genkey.go: those of ML-DSA and SLH-DSA
        Startup                     internal/config/app.go of gateway and
                                    auth-service, exception/exception.go
        Store                       the database behind gorm, and gRPC status
        Tasks, TasksFacts           todo-service; gateway middleware and tasks
        Users                       auth-service; gateway sign-in and users
        Bench, BenchProps           gateway benchmark_handler.go
        Demo, KeyDemo, GenDemo      a small world the services run in
        JwtProps, TokenProps, TaskProps, AuthProps   their properties
        ServiceProps                the services as they are wired, with the
                                    utility for several algorithms

    State and operations.  A Go function is a definition of the same name, or
    one prefixed with its receiver ([service_Update], [jwtUtil_Parse]); a loop is
    a [Fixpoint] on what bounds it.  Integers are [Z] with their wrap-around
    written out; arrays are lists, updated in place by returning the new one.
    The signer's source of bits is a state monad over the generator; the database
    is threaded through the handlers, and a transaction is [Store.in_tx].  Errors
    are the [result] and [option] types; the error values of the token library
    are the trees [Claims.error].  A call that panics, in the code or in a library
    that documents it (a number too long for its bytes, an Ed25519 private key of
    the wrong length), is [None].  Keys are not nil pointers: the loaders return
    none.

    Interfaces.  [F64] lists the floating-point operations the signer needs, and
    the signer's theorems hold for every instance; [MontRing] states what scalar
    operations owe the transform; [Claims] and [ClaimsCodec] are the claims
    types of the token library; [Gorm] with [GormLaws] is the database; [UUID],
    [Hmac], [Bcrypt], [Timestamps], [Crypto] with [KeyTypes], [KeyParsers], [Pem],
    [KeyFiles], [KeyMakers], [PqMakers], [Float64] and [Shake] stand for what is not
    part of the repository, with the documented behaviour that is relied on in
    [UUIDLaws], [BcryptLaws], [TimestampsLaws], [CryptoLaws], [KeyMakersLaws],
    [PqLaws] and [ShakeLaws]; [OutOfRange] is what a processor makes of a float that
    does not fit the integer it is converted to, which Go leaves open.  Each has a
    concrete instance (in FlrEmu, Demo, Examples, Util or beside the witness that
    uses it), on which the theorems are run.

    Theorems.
      Scheme.  A signature the signer emits is well-formed and short, and
      verifies if the sampled point is on the lattice ([sign_then_verify],
      [sign_emits_short]); the precomputed signer returns the same bytes and the
      same errors as the plain one ([precomputed_signs_alike]); the verifier
      accepts exactly the canonical encodings within the norm bound
      ([verify_inner_accepts], [comp_decode_iff], [modq_decode_iff]);
      hash_to_point is rejection sampling on an injective encoding of its
      inputs, and where it refuses its parameters the verifier answers without
      the message ([verify_unhashed_accepts]); the polynomial routines compute in
      Z_q[X]/(X^n + 1); the integer samplers compute the distributions of their
      tables and stay in range; and the polynomials of a key pair of [KeyGen] solve
      the NTRU equation, and the signer loads them where they fit the fields of the
      private key, at every degree but 64 ([KeyGen_keys_usable]).
      Floating point.  Every operation of the emulation is the exact one rounded
      once, to nearest even, on zeros and normal numbers ([emu_correctly_rounded],
      [emu_conversions_exact]), and so gives the numbers of the native build, and
      its integers below 2^31 in absolute value ([builds_agree]).
      Key generation.  The solver always answers, and what it reports as a
      solution is one over the integers ([solve_NTRU_correct]): the code checks
      its result modulo a prime, and the norm bounds make that enough.  Below it,
      each layer computes what it stands for: residues and back
      ([zint_rebuild_CRT_exact]), Bezout coefficients ([zint_bezout_correct]),
      scaled subtraction ([zint_scaled_exact]), products modulo a prime
      ([mp_poly_product], [mp_div_correct]), fixed point ([fxr_ops_exact],
      [fxr_div_rounds]).
      Tokens.  Exactly which tokens are accepted, at each layer
      ([validator_accepts_iff], [parser_accepts_iff], [util_accepts_iff]); what
      is issued is accepted with the claims it was issued for
      ([issued_token_accepted]); no algorithm confusion, no unsigned token
      ([accepted_token_is_signed], [none_never_accepted]); with several
      algorithms, each accepted token is signed under the key file of the
      algorithm it names ([gateway_token_is_signed]), since a key verifies under
      its own family only ([keys_verify_in_family]) and the loader keeps the
      families apart ([loaded_config_fits]); what one service signs the other
      accepts ([services_agree], [library_method_verifies]); on the files the key
      tool writes both services start, and agree on tokens, under FN-DSA as far as
      the sampler is accurate ([generated_keys_serve], [genkey_serves]); access and
      refresh tokens cannot stand in for each other ([token_separation] for the
      utility with one algorithm, [services_tokens_apart] for the one the services
      are wired with).
      Services.  A request touches the tasks of the user its token names and of
      no one else, in every history of requests ([tasks_isolated],
      [tasks_invariant], [task_owner_kept]); the table after an answered request is
      known row by row ([task_writes_exact], [created_task_listed]), and after a
      refused one it is the same ([foreign_task_refused]); a registered user signs
      in under the algorithms that are loaded and is let through
      ([registered_user_signs_in]); and anybody is, with a token of the
      benchmark endpoint ([benchmark_token_admits]), whose runs account for their
      iterations ([issuance_accounts]).

    Fuel.  The rejection loops of the sampler, of hash_to_point and of the signer
    have no bound in the code: they take fuel and return [None] when it is used
    up.  [hash_to_point_rejection] says when the fuel is enough; the signer's,
    the verifier's and the key generator's theorems hold at any fuel.  The loop of
    the solver that reduces (F,G) has a bound, one turn for each bit of scale, and
    31 * 308 turns are enough at every level ([reduction_terminates],
    [solve_NTRU_total]).  The JSON parser takes fuel too, and [document_fuel] of it is
    always enough ([value_fuel_enough]); the loop of the duplicate check ends
    within one turn per byte ([duplicate_check_terminates]).

    Not modelled.  A slice out of range, which panics in Go: in the model it
    reads 0 and writes nothing, and the theorems say where the ranges are kept.
    The three routines of the floating point written in assembly.  The jwt
    command, which is commented out as a whole; configuration files, logging, the
    wiring of the servers and the generated gRPC stubs: input and output, or code
    without influence on a decision of the services.
    The scheduling of concurrent requests: a request is one
    step, and what runs at the same time is taken one after the other. *)
From Stdlib Require Import ZArith Lia.
From stdpp Require Import base numbers list strings option.

(** ** Machine integers

    A Go integer of width [w] is the [Z] it denotes.  Unsigned arithmetic wraps
    with [u8] ... [u64], signed conversion with [i8] ... [i64]. *)

Declare Scope go_scope.
Delimit Scope go_scope with go.

Local Open Scope Z_scope.

Definition u8 (x : Z) : Z := Z.land x 255.
Definition u16 (x : Z) : Z := Z.land x 65535.
Definition u32 (x : Z) : Z := Z.land x 4294967295.
Definition u64 (x : Z) : Z := Z.land x 18446744073709551615.

(** Two's complement reading of the low [w] bits, as a Go conversion to
    [int8], [int16], [int32] and [int64] does it. *)
Definition i8 (x : Z) : Z := u8 (x + 128) - 128.
Definition i16 (x : Z) : Z := u16 (x + 32768) - 32768.
Definition i32 (x : Z) : Z := u32 (x + 2147483648) - 2147483648.
Definition i64 (x : Z) : Z := u64 (x + 9223372036854775808) - 9223372036854775808.

(** Bit operations, written the way the code has them. *)
Notation "x .& y" := (Z.land x y) (at level 45, left associativity) : go_scope.
Notation "x .| y" := (Z.lor x y) (at level 52, left associativity) : go_scope.
Notation "x .^ y" := (Z.lxor x y) (at level 51, left associativity) : go_scope.
Notation "x .>> y" := (Z.shiftr x y) (at level 40, left associativity) : go_scope.
Notation "x .<< y" := (Z.shiftl x y) (at level 40, left associativity) : go_scope.

Open Scope go_scope.

(** [uint32] arithmetic: the operations of most of the code. *)
Notation "x +% y" := (u32 (x + y)) (at level 50, left associativity) : go_scope.
Notation "x -% y" := (u32 (x - y)) (at level 50, left associativity) : go_scope.
Notation "x *% y" := (u32 (x * y)) (at level 40, left associativity) : go_scope.
Notation "-% x" := (u32 (- x)) (at level 35, right associativity) : go_scope.

Lemma u8_mod x : u8 x = x mod 2 ^ 8.
Proof. exact (Z.land_ones x 8 ltac:(lia)). Qed.
Lemma u16_mod x : u16 x = x mod 2 ^ 16.
Proof. exact (Z.land_ones x 16 ltac:(lia)). Qed.
Lemma u32_mod x : u32 x = x mod 2 ^ 32.
Proof. exact (Z.land_ones x 32 ltac:(lia)). Qed.
Lemma u64_mod x : u64 x = x mod 2 ^ 64.
Proof. exact (Z.land_ones x 64 ltac:(lia)). Qed.

Create Rewrite HintDb wrap.
Create HintDb go.
Create Rewrite HintDb go.

Lemma u8_range x : 0 <= u8 x < 256.
Proof. rewrite u8_mod. apply Z.mod_pos_bound; lia. Qed.
Lemma u16_range x : 0 <= u16 x < 65536.
Proof. rewrite u16_mod. apply Z.mod_pos_bound; lia. Qed.
Lemma u32_range x : 0 <= u32 x < 4294967296.
Proof. rewrite u32_mod. apply Z.mod_pos_bound; lia. Qed.
Lemma u64_range x : 0 <= u64 x < 18446744073709551616.
Proof. rewrite u64_mod. apply Z.mod_pos_bound; lia. Qed.
Lemma i8_range x : -128 <= i8 x < 128.
Proof. unfold i8. pose proof (u8_range (x + 128)). lia. Qed.
Lemma i16_range x : -32768 <= i16 x < 32768.
Proof. unfold i16. pose proof (u16_range (x + 32768)). lia. Qed.
Lemma i32_range x : -2147483648 <= i32 x < 2147483648.
Proof. unfold i32. pose proof (u32_range (x + 2147483648)). lia. Qed.

Lemma u8_small x : 0 <= x < 256 -> u8 x = x.
Proof. intros. rewrite u8_mod. apply Z.mod_small. lia. Qed.
Lemma u16_small x : 0 <= x < 65536 -> u16 x = x.
Proof. intros. rewrite u16_mod. apply Z.mod_small. lia. Qed.
Lemma u32_small x : 0 <= x < 4294967296 -> u32 x = x.
Proof. intros. rewrite u32_mod. apply Z.mod_small. lia. Qed.
Lemma u64_small x : 0 <= x < 18446744073709551616 -> u64 x = x.
Proof. intros. rewrite u64_mod. apply Z.mod_small. lia. Qed.
Lemma i8_small x : -128 <= x < 128 -> i8 x = x.
Proof. intros. unfold i8. rewrite u8_small; lia. Qed.
Lemma i16_small x : -32768 <= x < 32768 -> i16 x = x.
Proof. intros. unfold i16. rewrite u16_small; lia. Qed.
Lemma i32_small x : -2147483648 <= x < 2147483648 -> i32 x = x.
Proof. intros. unfold i32. rewrite u32_small; lia. Qed.
Lemma i64_small x : - 2 ^ 63 <= x < 2 ^ 63 -> i64 x = x.
Proof. intros. unfold i64. rewrite u64_small; lia. Qed.

(** A negative value within one modulus of zero wraps upwards once. *)
Lemma u32_neg x : -4294967296 <= x < 0 -> u32 x = x + 4294967296.
Proof.
  intros. rewrite u32_mod. symmetry. apply (Z.mod_unique_pos _ _ (-1)); lia.
Qed.

#[export] Hint Rewrite u8_mod u16_mod u32_mod u64_mod : wrap.

(** Shifts as division and multiplication by a power of two. *)
Lemma shr_div x n : 0 <= n -> x .>> n = x / 2 ^ n.
Proof. apply Z.shiftr_div_pow2. Qed.
Lemma shl_mul x n : 0 <= n -> x .<< n = x * 2 ^ n.
Proof. apply Z.shiftl_mul_pow2. Qed.

(** A shifted value and a value below it do not overlap. *)
Lemma lor_shifted a b n : 0 <= n -> 0 <= b < 2 ^ n -> a * 2 ^ n .| b = a * 2 ^ n + b.
Proof.
  intros Hn Hb. assert (Hand : (a * 2 ^ n) .& b = 0).
  { apply Z.bits_inj'. intros i Hi. rewrite Z.land_spec, Z.testbit_0_l.
    destruct (decide (i < n)).
    - by rewrite Z.mul_pow2_bits_low by lia.
    - rewrite <- (Z.mod_small b (2 ^ n)) by lia. rewrite Z.mod_pow2_bits_high by lia. apply andb_false_r. }
  pose proof (Z.add_lor_land (a * 2 ^ n) b) as Ha. rewrite Hand in Ha. lia.
Qed.

Lemma lxor_range x y w : 0 <= w -> 0 <= x < 2 ^ w -> 0 <= y < 2 ^ w -> 0 <= x .^ y < 2 ^ w.
Proof.
  intros Hw Hx Hy. split; [apply Z.lxor_nonneg; lia|].
  rewrite <- (Z.mod_small x (2 ^ w)), <- (Z.mod_small y (2 ^ w)) by done.
  rewrite <- !Z.land_ones by done.
  assert (Z.lxor (x .& Z.ones w) (y .& Z.ones w) = (x .^ y) .& Z.ones w) as ->.
  { apply Z.bits_inj'. intros n Hn. rewrite Z.lxor_spec, !Z.land_spec, Z.lxor_spec.
    by destruct (Z.testbit x n), (Z.testbit y n), (Z.testbit (Z.ones w) n). }
  rewrite Z.land_ones by done. apply Z.mod_pos_bound. lia.
Qed.

(** The complement of a word. *)
Lemma lxor_ones64 x : 0 <= x < 2 ^ 64 -> x .^ Z.ones 64 = Z.ones 64 - x.
Proof.
  intros Hx. assert (Z.ones 64 = x + (Z.ones 64 - x)) as E by lia.
  assert (Z.ldiff (Z.ones 64) x = Z.ones 64 - x) as Hd.
  { symmetry. apply Z.sub_nocarry_ldiff. apply Z.bits_inj'. intros i Hi. rewrite Z.ldiff_spec, Z.testbit_0_l.
    destruct (decide (i < 64)).
    - rewrite Z.ones_spec_low by lia. apply andb_false_r.
    - rewrite <- (Z.mod_small x (2 ^ 64)) by exact Hx. by rewrite Z.mod_pow2_bits_high by lia. }
  rewrite <- Hd. apply Z.bits_inj'. intros i Hi. rewrite Z.lxor_spec, Z.ldiff_spec. destruct (decide (i < 64)).
  - rewrite Z.ones_spec_low by lia. by destruct (Z.testbit x i).
  - rewrite Z.ones_spec_high by lia. rewrite <- (Z.mod_small x (2 ^ 64)) by exact Hx. by rewrite Z.mod_pow2_bits_high by lia.
Qed.

(** The two values of a mask: a borrow bit [x >> 16] (or [x >> 31]) is all
    ones on the relevant width or zero. *)
Lemma land_lt_pow2 (a b w : Z) : 0 <= w -> 0 <= a < 2 ^ w -> 0 <= a .& b < 2 ^ w.
Proof.
  intros Hw Ha. rewrite <- (Z.mod_small a (2 ^ w)) by done.
  rewrite <- Z.land_ones, <- Z.land_assoc, (Z.land_comm (Z.ones w)), Z.land_assoc by lia.
  rewrite Z.land_ones by lia. apply Z.mod_pos_bound. lia.
Qed.

Lemma land_ones_small a w : 0 <= w -> 0 <= a < 2 ^ w -> a .& Z.ones w = a.
Proof. intros. rewrite Z.land_ones by lia. by apply Z.mod_small. Qed.

Lemma shr31_bit x : 0 <= x < 2 ^ 32 -> x .>> 31 = if decide (x < 2 ^ 31) then 0 else 1.
Proof.
  intros Hx. rewrite shr_div by lia. case_decide; [apply Z.div_small; lia|].
  symmetry. apply (Z.div_unique_pos _ _ _ (x - 2 ^ 31)); lia.
Qed.

Lemma lor_lt_pow2 x y w : 0 <= w -> 0 <= x < 2 ^ w -> 0 <= y < 2 ^ w -> 0 <= x .| y < 2 ^ w.
Proof.
  intros Hw Hx Hy. split; [apply Z.lor_nonneg; lia|].
  destruct (decide (x .| y = 0)) as [->|Hne]; [lia|].
  assert (0 < x .| y) by (assert (0 <= x .| y) by (apply Z.lor_nonneg; lia); lia).
  apply Z.log2_lt_pow2; [done|]. rewrite Z.log2_lor by lia.
  assert (0 < w).
  { destruct (decide (w = 0)) as [->|]; [|lia]. change (2 ^ 0) with 1 in *.
    replace x with 0 in Hne by lia. by replace y with 0 in Hne by lia. }
  apply Z.max_lub_lt; [destruct (decide (x = 0)) as [->|]|destruct (decide (y = 0)) as [->|]];
    try done; apply Z.log2_lt_pow2; lia.
Qed.

Lemma lor_all_ones x w : 0 <= w -> 0 <= x < 2 ^ w -> x .| Z.ones w = Z.ones w.
Proof.
  intros Hw Hx. apply Z.bits_inj'. intros n Hn. rewrite Z.lor_spec.
  destruct (decide (n < w)).
  - rewrite Z.ones_spec_low by lia. apply orb_true_r.
  - rewrite Z.ones_spec_high by lia. rewrite orb_false_r.
    rewrite <- (Z.mod_small x (2 ^ w)) by done. apply Z.mod_pow2_bits_high. lia.
Qed.

(** [goarith] turns wraps and constant shifts into [mod] and [/] and lets
    [lia] decide. *)
Ltac shifts_to_div :=
  repeat match goal with
  | |- context [Z.shiftr ?x ?n] => rewrite (shr_div x n) by lia
  | |- context [Z.shiftl ?x ?n] => rewrite (shl_mul x n) by lia
  | H : context [Z.shiftr ?x ?n] |- _ => rewrite (shr_div x n) in H by lia
  | H : context [Z.shiftl ?x ?n] |- _ => rewrite (shl_mul x n) in H by lia
  end.
Ltac goarith :=
  autorewrite with wrap in *; shifts_to_div;
  Z.to_euclidean_division_equations; lia.

(** ** Arrays

    A Go slice or array is the list of its elements.  The theorems give the
    lengths under which every access is in range; outside, Go panics, which no
    theorem covers. *)

Class GoZero (A : Type) := go_zero : A.
#[export] Instance go_zero_Z : GoZero Z := 0.

Definition get {A} `{GoZero A} (a : list A) (i : nat) : A := default go_zero (a !! i).
Definition set {A} (a : list A) (i : nat) (v : A) : list A := <[i := v]> a.
Notation "a .[ i ]" := (get a i) (at level 1, left associativity, format "a .[ i ]") : go_scope.
Notation "a .[ i <- v ]" := (set a i v)
  (at level 1, left associativity, format "a .[ i <- v ]") : go_scope.

Section Arrays.
Context {A : Type} `{GoZero A}.
Implicit Types a : list A.

Lemma length_set a i v : length (set a i v) = length a.
Proof. apply length_insert. Qed.

Lemma get_set_eq a i v : (i < length a)%nat -> get (set a i v) i = v.
Proof. intros. unfold get, set. by rewrite list_lookup_insert_eq. Qed.

Lemma get_set_ne a i j v : i <> j -> get (set a i v) j = get a j.
Proof. intros. unfold get, set. by rewrite list_lookup_insert_ne. Qed.

Lemma get_set a i j v :
  (i < length a)%nat -> get (set a i v) j = if decide (i = j) then v else get a j.
Proof. intros. case_decide; subst; [by apply get_set_eq | by apply get_set_ne]. Qed.

Lemma get_lookup a i x : a !! i = Some x -> get a i = x.
Proof. unfold get. by intros ->. Qed.

Lemma lookup_get a i : (i < length a)%nat -> a !! i = Some (get a i).
Proof. intros Hi. unfold get. by destruct (lookup_lt_is_Some_2 a i Hi) as [x ->]. Qed.

Lemma get_ext a b :
  length a = length b -> (forall i, (i < length a)%nat -> get a i = get b i) -> a = b.
Proof.
  intros Hl He. apply list_eq. intros i.
  destruct (decide (i < length a)%nat) as [Hi|Hi].
  - rewrite !lookup_get by lia. by rewrite He.
  - by rewrite !lookup_ge_None_2 by lia.
Qed.

Lemma get_Forall (P : A -> Prop) a i : Forall P a -> (i < length a)%nat -> P (get a i).
Proof. intros HP Hi. eapply Forall_lookup_1; [done|]. by apply lookup_get. Qed.

Lemma Forall_get (P : A -> Prop) a :
  (forall i, (i < length a)%nat -> P (get a i)) -> Forall P a.
Proof.
  intros HP. apply Forall_lookup_2. intros i x Hx.
  rewrite <- (get_lookup _ _ _ Hx). apply HP. by eapply lookup_lt_Some.
Qed.

Lemma get_drop a n i : get (drop n a) i = get a (n + i).
Proof. unfold get. by rewrite lookup_drop. Qed.
Lemma get_take a n i : (i < n)%nat -> get (take n a) i = get a i.
Proof. intros. unfold get. by rewrite lookup_take_lt. Qed.
Lemma get_app_l a b i : (i < length a)%nat -> get (a ++ b) i = get a i.
Proof. intros. unfold get. by rewrite lookup_app_l. Qed.
Lemma get_app_r a b i : (length a <= i)%nat -> get (a ++ b) i = get b (i - length a).
Proof. intros. unfold get. by rewrite lookup_app_r. Qed.
End Arrays.
#[export] Hint Rewrite @length_set : go.

(** ** Loops

    [for i := 0; i < n; i++ { body }] over a loop state. *)

Fixpoint for_from {S : Type} (k i : nat) (body : nat -> S -> S) (s : S) : S :=
  match k with
  | O => s
  | Datatypes.S k' => for_from k' (Datatypes.S i) body (body i s)
  end.
Definition for_ {S : Type} (n : nat) (body : nat -> S -> S) (s : S) : S := for_from n 0 body s.

Lemma for_from_ind {S} (P : nat -> S -> Prop) k i body (s : S) :
  P i s ->
  (forall j s, (i <= j < i + k)%nat -> P j s -> P (Datatypes.S j) (body j s)) ->
  P (i + k)%nat (for_from k i body s).
Proof.
  revert i s. induction k as [|k IH]; intros i s Hs Hb; simpl.
  - by rewrite Nat.add_0_r.
  - rewrite <- Nat.add_succ_comm. apply IH; [apply Hb; [lia|done]|].
    intros. apply Hb; [lia|done].
Qed.

(** The invariant rule for counting loops. *)
Lemma for_ind {S} (P : nat -> S -> Prop) n body (s : S) :
  P 0%nat s ->
  (forall i s, (i < n)%nat -> P i s -> P (Datatypes.S i) (body i s)) ->
  P n (for_ n body s).
Proof. intros H0 Hs. apply (for_from_ind P n 0); [done|]. intros; apply Hs; [lia|done]. Qed.

(** Two loops in lockstep. *)
Lemma for_sim {S T} (R : nat -> S -> T -> Prop) n b1 b2 (s : S) (t : T) :
  R 0%nat s t ->
  (forall i s t, (i < n)%nat -> R i s t -> R (Datatypes.S i) (b1 i s) (b2 i t)) ->
  R n (for_ n b1 s) (for_ n b2 t).
Proof.
  intros H0 Hs. unfold for_.
  enough (forall k i s t, (i + k <= n)%nat -> R i s t ->
            R (i + k)%nat (for_from k i b1 s) (for_from k i b2 t)) as He
    by exact (He n 0%nat s t ltac:(lia) H0).
  induction k as [|k IH]; intros i s' t' Hk HR; simpl.
  - by rewrite Nat.add_0_r.
  - rewrite <- Nat.add_succ_comm. apply IH; [lia|]. apply Hs; [lia|done].
Qed.

Lemma for_ext {S} n (b1 b2 : nat -> S -> S) s :
  (forall i s, (i < n)%nat -> b1 i s = b2 i s) -> for_ n b1 s = for_ n b2 s.
Proof.
  intros He. apply (for_sim (fun _ x y => x = y)); [done|].
  intros i ? ? Hi ->. by apply He.
Qed.

Lemma for_S {S} n (b : nat -> S -> S) s : for_ (Datatypes.S n) b s = b n (for_ n b s).
Proof.
  unfold for_. enough (forall i s, for_from (Datatypes.S n) i b s = b (i + n)%nat (for_from n i b s))
    as He by apply (He 0%nat).
  induction n as [|n IH]; intros i s'; [simpl; by rewrite Nat.add_0_r|].
  change (for_from (Datatypes.S n) (Datatypes.S i) b (b i s') =
          b (i + Datatypes.S n)%nat (for_from n (Datatypes.S i) b (b i s'))).
  rewrite IH. f_equal. lia.
Qed.

(** A loop that rewrites each of the first [n] cells from its old value. *)
Lemma for_map_get {A} `{GoZero A} (F : nat -> A -> A) n (a : list A) :
  (n <= length a)%nat ->
  let b := for_ n (fun i a => a.[i <- F i a.[i]]) a in
  length b = length a /\
  (forall j, (j < n)%nat -> b.[j] = F j a.[j]) /\
  (forall j, (n <= j)%nat -> b.[j] = a.[j]).
Proof.
  intros Hn. cbv zeta. apply (for_ind (fun c b =>
    length b = length a /\ (forall j, (j < c)%nat -> b.[j] = F j a.[j]) /\
    (forall j, (c <= j)%nat -> b.[j] = a.[j]))).
  { repeat split; intros; lia. }
  intros c b Hc (IL & IH & IU). rewrite length_set. split; [done|].
  split; intros j Hj; [|rewrite get_set_ne by lia; apply IU; lia].
  destruct (decide (j = c)) as [->|].
  - by rewrite get_set_eq, IU by lia.
  - rewrite get_set_ne by lia. apply IH. lia.
Qed.

Lemma for_map_length {A} `{GoZero A} (F : nat -> A -> A) n (a : list A) :
  length (for_ n (fun i a => a.[i <- F i a.[i]]) a) = length a.
Proof.
  apply (for_ind (fun _ b => length b = length a)); [done|].
  intros. by rewrite length_set.
Qed.

Lemma get_fmap {A B} `{GoZero A} `{GoZero B} (f : A -> B) (a : list A) i :
  (i < length a)%nat -> (f <$> a).[i] = f a.[i].
Proof. intros Hi. unfold get. rewrite list_lookup_fmap. by rewrite (lookup_get a i Hi). Qed.

(** ... which is the map of a function when the whole array is rewritten. *)
Lemma for_map_fmap {A B} `{GoZero A} `{GoZero B} (F : nat -> A -> A) (f : B -> A) n
    (a : list A) (b : list B) :
  length a = n -> length b = n -> (forall i, (i < n)%nat -> F i a.[i] = f b.[i]) ->
  for_ n (fun i a => a.[i <- F i a.[i]]) a = f <$> b.
Proof.
  intros Ha Hb HF. destruct (for_map_get F n a ltac:(lia)) as (HL & HG & _).
  apply get_ext; [by rewrite length_fmap, HL, Ha, Hb|].
  intros i Hi. rewrite HL, Ha in Hi. rewrite HG, HF, get_fmap by lia. done.
Qed.

(** ** Errors *)

Inductive result (E A : Type) : Type :=
| Ok (a : A)
| Err (e : E).
Arguments Ok {E A} a.
Arguments Err {E A} e.

#[export] Instance result_ret {E} : MRet (result E) := fun A => Ok.
#[export] Instance result_bind {E} : MBind (result E) := fun A B f m =>
  match m with Ok a => f a | Err e => Err e end.

Definition is_ok {E A} (r : result E A) : bool := match r with Ok _ => true | Err _ => false end.

(** A counting loop whose body may fail, the error ending the loop. *)
Fixpoint try_from {E S : Type} (k i : nat) (body : nat -> S -> result E S) (s : S) : result E S :=
  match k with
  | O => Ok s
  | Datatypes.S k' =>
      match body i s with
      | Ok s' => try_from k' (Datatypes.S i) body s'
      | Err e => Err e
      end
  end.
Definition try_ {E S : Type} (n : nat) (body : nat -> S -> result E S) (s : S) : result E S :=
  try_from n 0 body s.

Lemma try_from_ok {E S} (P : nat -> S -> Prop) k i (body : nat -> S -> result E S) s s' :
  P i s ->
  (forall j s s', (i <= j < i + k)%nat -> P j s -> body j s = Ok s' -> P (Datatypes.S j) s') ->
  try_from k i body s = Ok s' -> P (i + k)%nat s'.
Proof.
  revert i s. induction k as [|k IH]; intros i s Hs Hb; simpl.
  - intros [= <-]. by rewrite Nat.add_0_r.
  - destruct (body i s) as [s1|e] eqn:E1; [|done]. intros Ht.
    rewrite <- Nat.add_succ_comm. eapply IH; [|intros; eapply (Hb j); eauto; lia|done].
    eapply Hb; [|done..]. lia.
Qed.

(** Partial correctness: an invariant of the successful iterations. *)
Lemma try_ok {E S} (P : nat -> S -> Prop) n (body : nat -> S -> result E S) s s' :
  P 0%nat s ->
  (forall i s s', (i < n)%nat -> P i s -> body i s = Ok s' -> P (Datatypes.S i) s') ->
  try_ n body s = Ok s' -> P n s'.
Proof.
  intros H0 Hs Ht. eapply (try_from_ok P n 0); [done| |done].
  intros. eapply Hs; [|done..]. lia.
Qed.

Lemma try_from_total {E S} (P : nat -> S -> Prop) k i (body : nat -> S -> result E S) s :
  P i s ->
  (forall j s, (i <= j < i + k)%nat -> P j s -> exists s', body j s = Ok s' /\ P (Datatypes.S j) s') ->
  exists s', try_from k i body s = Ok s' /\ P (i + k)%nat s'.
Proof.
  revert i s. induction k as [|k IH]; intros i s Hs Hb; simpl.
  - exists s. by rewrite Nat.add_0_r.
  - destruct (Hb i s ltac:(lia) Hs) as (s1 & -> & H1).
    destruct (IH (Datatypes.S i) s1 H1) as (s' & -> & H').
    { intros. apply Hb; [lia|done]. }
    exists s'. split; [done|]. by rewrite <- Nat.add_succ_comm.
Qed.

(** The rule for both outcomes: [P] on success, [Q] of the error otherwise. *)
Lemma try_spec {E S} (P : nat -> S -> Prop) (Q : E -> Prop) n (body : nat -> S -> result E S) s :
  P 0%nat s ->
  (forall i s, (i < n)%nat -> P i s ->
     match body i s with Ok s' => P (Datatypes.S i) s' | Err e => Q e end) ->
  match try_ n body s with Ok s' => P n s' | Err e => Q e end.
Proof.
  intros H0 Hs. unfold try_.
  enough (forall k i s, (i + k <= n)%nat -> P i s ->
            match try_from k i body s with Ok s' => P (i + k)%nat s' | Err e => Q e end) as He
    by exact (He n 0%nat s ltac:(lia) H0).
  induction k as [|k IH]; intros i s' Hk HP; simpl; [by rewrite Nat.add_0_r|].
  specialize (Hs i s' ltac:(lia) HP). destruct (body i s') as [s1|e]; [|done].
  rewrite <- Nat.add_succ_comm. apply IH; [lia|done].
Qed.

(** [feed_loop H]: the two premises of a loop rule become goals. *)
Ltac feed_loop H :=
  match type of H with
  | ?A -> ?B -> _ =>
      let HA := fresh in let HB := fresh in
      assert A as HA; [clear H|assert B as HB; [clear H HA|specialize (H HA HB); clear HA HB]]
  end.

(** Total correctness: every iteration succeeds. *)
Lemma try_total {E S} (P : nat -> S -> Prop) n (body : nat -> S -> result E S) s :
  P 0%nat s ->
  (forall i s, (i < n)%nat -> P i s -> exists s', body i s = Ok s' /\ P (Datatypes.S i) s') ->
  exists s', try_ n body s = Ok s' /\ P n s'.
Proof.
  intros H0 Hs. destruct (try_from_total P n 0 body s H0) as (s' & ? & ?); [|by exists s'].
  intros. apply Hs; [lia|done].
Qed.

(** ** Congruences

    [x ==[m] y]: equality modulo [m], a rewritable equivalence for which sums,
    differences, products and powers are morphisms. *)

Record cong (m x y : Z) : Prop := Cong { cong_mod : x mod m = y mod m }.
Notation "x ==[ m ] y" := (cong m x y)
  (at level 70, m at level 200, no associativity, format "x  ==[ m ]  y") : go_scope.

#[export] Instance cong_equiv m : Equivalence (cong m).
Proof. split; [by split|by intros ?? [?]|intros ??? [H1] [H2]; split; congruence]. Qed.
#[export] Instance cong_add m : Proper (cong m ==> cong m ==> cong m) Z.add.
Proof. intros ?? [H1] ?? [H2]. split. by rewrite Zplus_mod, H1, H2, <- Zplus_mod. Qed.
#[export] Instance cong_sub m : Proper (cong m ==> cong m ==> cong m) Z.sub.
Proof. intros ?? [H1] ?? [H2]. split. by rewrite Zminus_mod, H1, H2, <- Zminus_mod. Qed.
#[export] Instance cong_mul m : Proper (cong m ==> cong m ==> cong m) Z.mul.
Proof. intros ?? [H1] ?? [H2]. split. by rewrite Zmult_mod, H1, H2, <- Zmult_mod. Qed.
#[export] Instance cong_opp m : Proper (cong m ==> cong m) Z.opp.
Proof. intros x y Hxy. rewrite <- (Z.sub_0_l x), <- (Z.sub_0_l y). by rewrite Hxy. Qed.

Lemma cong_of_eq m x y : x = y -> x ==[m] y.
Proof. by intros ->. Qed.

Lemma mod_cong m x : x mod m ==[m] x.
Proof. split. apply Zmod_mod. Qed.

Lemma cong_iff_divide m x y : x ==[m] y <-> (m | x - y).
Proof.
  destruct (decide (m = 0)) as [->|].
  - split; [intros [H]|intros [c ?]; apply cong_of_eq; lia].
    rewrite !Z.mod_0_r in H. exists 0. lia.
  - split.
    + intros [H]. apply Z.mod_divide; [done|]. by rewrite Zminus_mod, H, Z.sub_diag, Z.mod_0_l.
    + intros [c Hc]. split. replace x with (y + c * m) by lia. by apply Z.mod_add.
Qed.

Lemma cong_mul_modulus m x k : x + k * m ==[m] x.
Proof. apply cong_iff_divide. exists k. ring. Qed.

#[export] Instance cong_pow m : Proper (cong m ==> eq ==> cong m) Z.pow.
Proof.
  intros x y Hxy n ? <-. destruct (decide (0 <= n)) as [Hn|Hn]; cycle 1.
  { by rewrite !Z.pow_neg_r by lia. }
  revert n Hn. apply natlike_ind; [done|].
  intros n Hn IH. rewrite !Z.pow_succ_r by done. by rewrite IH, Hxy.
Qed.

Lemma cong_small m x y : 0 <= x < m -> 0 <= y < m -> x ==[m] y -> x = y.
Proof. intros ?? [H]. by rewrite !Z.mod_small in H. Qed.

(** The only multiple of [m] strictly between [-m] and [m] is zero. *)
Lemma small_multiple m c d : d = c * m -> - m < d < m -> d = 0.
Proof. intros -> Hd. destruct (Z.lt_trichotomy c 0) as [?|[->|?]]; nia. Qed.

(** [cong_ring]: an equation that holds in the ring of integers. *)
Ltac cong_ring := apply cong_of_eq; ring.

(** *** Sums over an initial segment *)

Fixpoint zsum (n : nat) (f : nat -> Z) : Z :=
  match n with
  | O => 0
  | S n' => zsum n' f + f n'
  end.

Lemma zsum_ext n f g : (forall i, (i < n)%nat -> f i = g i) -> zsum n f = zsum n g.
Proof.
  induction n as [|n IH]; intros He; simpl; [done|].
  rewrite IH, He by (try intros; try apply He; lia). done.
Qed.

Lemma zsum_cong m n f g : (forall i, (i < n)%nat -> f i ==[m] g i) -> zsum n f ==[m] zsum n g.
Proof.
  induction n as [|n IH]; intros He; simpl; [done|].
  rewrite IH by (intros; apply He; lia). by rewrite He by lia.
Qed.

Lemma zsum_0 n f : (forall i, (i < n)%nat -> f i = 0) -> zsum n f = 0.
Proof.
  induction n as [|n IH]; intros He; simpl; [done|].
  rewrite IH, He; [done|lia|intros; apply He; lia].
Qed.

Lemma zsum_first n f :
  (0 < n)%nat -> (forall i, (0 < i < n)%nat -> f i = 0) -> zsum n f = f 0%nat.
Proof.
  induction n as [|[|n] IH]; intros Hn Hf; [lia|done|].
  change (zsum (S n) f + f (S n) = f 0%nat).
  rewrite IH, (Hf (S n)) by (try intros; try apply Hf; lia). lia.
Qed.

Lemma zsum_plus n f g : zsum n (fun i => f i + g i) = zsum n f + zsum n g.
Proof. induction n as [|n IH]; simpl; [done|]. rewrite IH. ring. Qed.

Lemma zsum_mul_l n c f : zsum n (fun i => c * f i) = c * zsum n f.
Proof. induction n as [|n IH]; simpl; [ring|]. rewrite IH. ring. Qed.

Lemma zsum_mul_r n c f : zsum n (fun i => f i * c) = zsum n f * c.
Proof. induction n as [|n IH]; simpl; [ring|]. rewrite IH. ring. Qed.

Lemma zsum_opp n f : zsum n (fun i => - f i) = - zsum n f.
Proof. induction n as [|n IH]; simpl; [ring|]. rewrite IH. ring. Qed.

Lemma zsum_app n k f : zsum (n + k) f = zsum n f + zsum k (fun i => f (n + i)%nat).
Proof.
  induction k as [|k IH]; simpl; [rewrite Nat.add_0_r; ring|].
  rewrite Nat.add_succ_r. simpl. rewrite IH. ring.
Qed.

Lemma zsum_swap n k (f : nat -> nat -> Z) :
  zsum n (fun i => zsum k (f i)) = zsum k (fun j => zsum n (fun i => f i j)).
Proof.
  induction n as [|n IH]; simpl.
  - symmetry. by apply zsum_0.
  - rewrite IH. symmetry. apply (zsum_plus k (fun j => zsum n (fun i => f i j)) (f n)).
Qed.

Lemma zsum_nonneg n f : (forall i, (i < n)%nat -> 0 <= f i) -> 0 <= zsum n f.
Proof.
  induction n as [|n IH]; intros Hf; simpl; [done|].
  specialize (IH ltac:(intros; apply Hf; lia)). specialize (Hf n ltac:(lia)). lia.
Qed.

Lemma zsum_le_const n f c : (forall i, (i < n)%nat -> f i <= c) -> zsum n f <= Z.of_nat n * c.
Proof.
  induction n as [|n IH]; intros Hf; simpl; [lia|].
  specialize (IH ltac:(intros; apply Hf; lia)). specialize (Hf n ltac:(lia)). lia.
Qed.

Lemma zsum_le n f g : (forall i, (i < n)%nat -> f i <= g i) -> zsum n f <= zsum n g.
Proof.
  induction n as [|n IH]; intros Hf; simpl; [lia|].
  specialize (IH ltac:(intros; apply Hf; lia)). specialize (Hf n ltac:(lia)). lia.
Qed.

(** Primality by trial division up to the square root. *)
Lemma prime_trial p b :
  1 < p -> p < b * b -> 0 <= b ->
  forallb (fun d => negb (p mod d =? 0)) (seqZ 2 (b - 2)) = true -> Z.prime p.
Proof.
  intros Hp Hb Hb0 Hall. split; [done|]. intros n Hn Hd.
  assert (Hsmall : forall d, 1 < d < b -> ~ (d | p)).
  { intros d Hd' Hdp. rewrite forallb_forall in Hall.
    specialize (Hall d). rewrite <- list_elem_of_In, elem_of_seqZ in Hall.
    specialize (Hall ltac:(lia)). apply Z.mod_divide in Hdp; [|lia].
    by rewrite Hdp in Hall. }
  destruct Hd as [c Hc]. destruct (decide (n < b)).
  - apply (Hsmall n); [lia|]. by exists c.
  - apply (Hsmall c); [nia|]. exists n. lia.
Qed.

(** [each tac]: a property of every element of a concrete list. *)
Ltac each tac := repeat (apply List.Forall_cons; [tac|]); apply List.Forall_nil.
