(* ===== verification/Mq.v ===== *)
(** Arithmetic modulo q = 12289 ([pkg/fndsa/mq.go], scalar part).

    Values modulo q are held in the "internal" representation [1, q] (zero is
    q).  The operations are the branch-free 32-bit code; the theorems say that
    they are the field operations, Montgomery multiplication dividing by
    2^32. *)
From Stdlib Require Import ZArith Lia.
From Stdlib Require ZmodInv.
From stdpp Require Import base numbers list.
From S2P Require Import Prelude.
Local Open Scope Z_scope.

Definition q : Z := 12289.
(** -1/q mod 2^32 *)
Definition q1i : Z := 4143984639.
(** 2^64 mod q *)
Definition r2 : Z := 5664.

Definition mq_add (x y : Z) : Z :=
  let a := q -% (x +% y) in
  let b := a +% (q .& (a .>> 16)) in
  q -% b.

Definition mq_sub (x y : Z) : Z :=
  let a := y -% x in
  let b := a +% (q .& (a .>> 16)) in
  q -% b.

Definition mq_half (x : Z) : Z :=
  (x +% (q .& (-% (x .& 1)))) .>> 1.

Definition mq_mred (x : Z) : Z :=
  let b := x *% q1i in
  let c := (b .>> 16) *% q in
  (c .>> 16) +% 1.

Definition mq_mmul (x y : Z) : Z := mq_mred (x *% y).

(** 1/y by the addition chain for the exponent q - 2; the result keeps the
    Montgomery factor, so that the last product is a plain quotient. *)
Definition mq_div (x y : Z) : Z :=
  let y := mq_mmul y r2 in
  let y2 := mq_mmul y y in
  let y3 := mq_mmul y2 y in
  let y5 := mq_mmul y3 y2 in
  let y10 := mq_mmul y5 y5 in
  let y20 := mq_mmul y10 y10 in
  let y40 := mq_mmul y20 y20 in
  let y80 := mq_mmul y40 y40 in
  let y160 := mq_mmul y80 y80 in
  let y163 := mq_mmul y160 y3 in
  let y323 := mq_mmul y163 y160 in
  let y646 := mq_mmul y323 y323 in
  let y1292 := mq_mmul y646 y646 in
  let y1455 := mq_mmul y1292 y163 in
  let y2910 := mq_mmul y1455 y1455 in
  let y5820 := mq_mmul y2910 y2910 in
  let y6143 := mq_mmul y5820 y323 in
  let y12286 := mq_mmul y6143 y6143 in
  let iy := mq_mmul y12286 y in
  mq_mmul x iy.

(** ** The internal representation *)

Definition rep (x : Z) : Prop := 1 <= x <= q.

(** The representative of a residue class. *)
Definition norm_q (x : Z) : Z := (x - 1) mod q + 1.

Lemma norm_q_rep x : rep (norm_q x).
Proof. unfold rep, norm_q, q. pose proof (Z.mod_pos_bound (x - 1) 12289). lia. Qed.

Lemma norm_q_mod x : norm_q x mod q = x mod q.
Proof. unfold norm_q. rewrite Zplus_mod_idemp_l. f_equal. lia. Qed.

Lemma rep_unique x y : rep x -> rep y -> x mod q = y mod q -> x = y.
Proof. unfold rep, q. intros ? ? He. Z.to_euclidean_division_equations. lia. Qed.

Lemma norm_q_id x : rep x -> norm_q x = x.
Proof. intros. apply rep_unique; [apply norm_q_rep|done|apply norm_q_mod]. Qed.

(** ** Correctness of the branch-free code *)

(** The mask [q & (a >> 16)]: all of q when [a] wrapped below zero. *)
Lemma mask_q_pos a : 0 <= a < 65536 -> q .& (a .>> 16) = 0.
Proof. intros. rewrite shr_div, Z.div_small by lia. done. Qed.

Lemma mask_q_neg a : 4294901760 <= a < 4294967296 -> q .& (a .>> 16) = q.
Proof.
  intros. replace (a .>> 16) with 65535; [done|]. rewrite shr_div by lia.
  apply (Z.div_unique_pos _ _ _ (a - 4294901760)); lia.
Qed.

(** [q - (a mod 2^32 made nonnegative by adding q)] for a small signed [a]. *)
Lemma wrap_add_q a :
  - q <= a < q -> u32 a +% (q .& (u32 a .>> 16)) = if decide (a < 0) then a + q else a.
Proof.
  intros Ha. assert (q = 12289) as Hq by done. case_decide.
  - rewrite (u32_neg a), (mask_q_neg (a + 4294967296)) by lia.
    rewrite u32_mod. Z.to_euclidean_division_equations. lia.
  - rewrite (u32_small a), (mask_q_pos a), Z.add_0_r by lia. apply u32_small. lia.
Qed.

Lemma mq_add_spec x y : rep x -> rep y -> mq_add x y = norm_q (x + y).
Proof.
  unfold rep. intros Hx Hy. unfold mq_add.
  rewrite (u32_small (x + y)) by (unfold q in *; lia).
  rewrite wrap_add_q by lia. unfold norm_q, q in *.
  case_decide; rewrite u32_small by lia; Z.to_euclidean_division_equations; lia.
Qed.

Lemma mq_sub_spec x y : rep x -> rep y -> mq_sub x y = norm_q (x - y).
Proof.
  unfold rep. intros Hx Hy. unfold mq_sub.
  rewrite wrap_add_q by (unfold q in *; lia). unfold norm_q, q in *.
  case_decide; rewrite u32_small by lia; Z.to_euclidean_division_equations; lia.
Qed.

Lemma land_1 x : x .& 1 = x mod 2.
Proof. exact (Z.land_ones x 1 ltac:(lia)). Qed.

Lemma mq_half_spec x : rep x -> rep (mq_half x) /\ 2 * mq_half x = if decide (x mod 2 = 0) then x else x + q.
Proof.
  unfold rep. intros Hx. unfold mq_half. rewrite land_1.
  pose proof (Z.mod_pos_bound x 2 ltac:(lia)).
  case_decide as Hp.
  - rewrite Hp. change (-% 0) with 0. rewrite Z.land_0_r, Z.add_0_r.
    rewrite u32_small by (unfold q in *; lia). rewrite shr_div by lia.
    unfold q in *. Z.to_euclidean_division_equations. lia.
  - replace (x mod 2) with 1 by lia. change (q .& (-% 1)) with q.
    rewrite u32_small by (unfold q in *; lia). rewrite shr_div by lia.
    unfold q in *. Z.to_euclidean_division_equations. lia.
Qed.

(** ** Montgomery multiplication *)

(** 2^-32 mod q *)
Definition mq_Rinv : Z := 11857.

Lemma mq_mred_spec x :
  1 <= x <= q * q -> rep (mq_mred x) /\ (mq_mred x * 2 ^ 32) mod q = x mod q.
Proof.
  intros Hx. unfold mq_mred. rewrite (u32_mod (x * q1i)).
  set (b := (x * q1i) mod 2 ^ 32).
  set (t := (x * q1i) / 2 ^ 32).
  assert (Hb : x * q1i = 2 ^ 32 * t + b) by (apply Z.div_mod; lia).
  assert (Hr : 0 <= b < 2 ^ 32) by (apply Z.mod_pos_bound; lia).
  clearbody b t.
  set (m := x * 11857 - t * q).
  assert (Hm : b * q + x = m * 2 ^ 32) by (unfold m, q, q1i in *; lia).
  clearbody m. rewrite (shr_div b 16) by lia.
  set (h := b / 2 ^ 16). set (l := b mod 2 ^ 16).
  assert (Hh : b = 2 ^ 16 * h + l) by (apply Z.div_mod; lia).
  assert (Hl : 0 <= l < 2 ^ 16) by (apply Z.mod_pos_bound; lia).
  clearbody h l. unfold q in *.
  rewrite (u32_small (h * 12289)) by lia. rewrite shr_div by lia.
  assert (h * 12289 / 2 ^ 16 = m - 1) as ->.
  { symmetry. apply (Z.div_unique_pos _ _ _ (h * 12289 - 2 ^ 16 * (m - 1))); lia. }
  rewrite u32_small by lia. replace (m - 1 + 1) with m by lia.
  split; [unfold rep, q; lia|].
  rewrite <- Hm. rewrite Z.add_comm, Z.mod_add by lia. done.
Qed.

Lemma mq_mmul_spec x y : rep x -> rep y -> mq_mmul x y = norm_q (x * y * mq_Rinv).
Proof.
  unfold rep. intros Hx Hy. unfold mq_mmul. rewrite u32_small by (unfold q in *; nia).
  destruct (mq_mred_spec (x * y)) as [Hr Hm]; [unfold q in *; nia|].
  apply rep_unique; [done|apply norm_q_rep|]. rewrite norm_q_mod.
  rewrite <- (Zmult_mod_idemp_l (x * y)), <- Hm, Zmult_mod_idemp_l, <- Z.mul_assoc.
  rewrite <- Zmult_mod_idemp_r. by rewrite Z.mul_1_r.
Qed.

Lemma mq_mmul_rep x y : rep x -> rep y -> rep (mq_mmul x y).
Proof. intros. rewrite mq_mmul_spec by done. apply norm_q_rep. Qed.


(** The same facts as congruences. *)
Lemma norm_q_cong x : norm_q x ==[q] x.
Proof. split. apply norm_q_mod. Qed.

Lemma rep_cong_eq x y : rep x -> rep y -> x ==[q] y -> x = y.
Proof. intros ?? [?]. by apply rep_unique. Qed.

Lemma mq_mmul_cong x y : rep x -> rep y -> mq_mmul x y ==[q] x * y * mq_Rinv.
Proof. intros. rewrite mq_mmul_spec by done. apply norm_q_cong. Qed.

(** ** Division

    The addition chain raises the Montgomery form of [y] to the power q - 2,
    and Fermat's little theorem makes that the inverse. *)

Lemma prime_q : Z.prime q.
Proof. apply (prime_trial q 111); [unfold q; lia..|vm_compute; reflexivity]. Qed.

Lemma fermat_q y : ~ y ==[q] 0 -> y ^ (q - 1) ==[q] 1.
Proof.
  intros Hy. split. rewrite (ZmodInv.Z.fermat_nz q y prime_q); [done|].
  intros H0. apply Hy. by split.
Qed.

(** [z] is the Montgomery form of the [k]-th power of [y]. *)
Definition mont_pow (y : Z) (k : Z) (z : Z) : Prop :=
  rep z /\ z ==[q] y ^ k * 2 ^ 32.

Lemma mont_pow_mul y j k a b :
  0 <= j -> 0 <= k -> mont_pow y j a -> mont_pow y k b -> mont_pow y (j + k) (mq_mmul a b).
Proof.
  intros ?? [Ha Ha'] [Hb Hb']. split; [by apply mq_mmul_rep|].
  rewrite mq_mmul_cong, Ha', Hb', Z.pow_add_r by done.
  transitivity (y ^ j * y ^ k * 2 ^ 32 * (2 ^ 32 * mq_Rinv)); [cong_ring|].
  assert (2 ^ 32 * mq_Rinv ==[q] 1) as -> by (split; reflexivity). cong_ring.
Qed.

Lemma mont_pow_1 y : rep y -> mont_pow y 1 (mq_mmul y r2).
Proof.
  intros Hy. assert (rep r2) by (unfold rep, r2, q; lia).
  split; [by apply mq_mmul_rep|]. rewrite mq_mmul_cong, Z.pow_1_r by done.
  rewrite <- Z.mul_assoc. f_equiv. split; reflexivity.
Qed.

(** [mq_div x y] multiplies [x] by the Montgomery form of y^(q-2). *)
Lemma mq_div_chain x y :
  rep y -> exists iy, mq_div x y = mq_mmul x iy /\ mont_pow y (q - 2) iy.
Proof.
  intros Hy. eexists. split; [reflexivity|].
  pose proof (mont_pow_1 y Hy) as H1. revert H1. generalize (mq_mmul y r2). intros z H1.
  pose proof (fun j k a b Hj Hk => mont_pow_mul y j k a b Hj Hk) as M.
  assert (H2 := M 1 1 _ _ ltac:(lia) ltac:(lia) H1 H1).
  assert (H3 := M 2 1 _ _ ltac:(lia) ltac:(lia) H2 H1).
  assert (H5 := M 3 2 _ _ ltac:(lia) ltac:(lia) H3 H2).
  assert (H10 := M 5 5 _ _ ltac:(lia) ltac:(lia) H5 H5).
  assert (H20 := M 10 10 _ _ ltac:(lia) ltac:(lia) H10 H10).
  assert (H40 := M 20 20 _ _ ltac:(lia) ltac:(lia) H20 H20).
  assert (H80 := M 40 40 _ _ ltac:(lia) ltac:(lia) H40 H40).
  assert (H160 := M 80 80 _ _ ltac:(lia) ltac:(lia) H80 H80).
  assert (H163 := M 160 3 _ _ ltac:(lia) ltac:(lia) H160 H3).
  assert (H323 := M 163 160 _ _ ltac:(lia) ltac:(lia) H163 H160).
  assert (H646 := M 323 323 _ _ ltac:(lia) ltac:(lia) H323 H323).
  assert (H1292 := M 646 646 _ _ ltac:(lia) ltac:(lia) H646 H646).
  assert (H1455 := M 1292 163 _ _ ltac:(lia) ltac:(lia) H1292 H163).
  assert (H2910 := M 1455 1455 _ _ ltac:(lia) ltac:(lia) H1455 H1455).
  assert (H5820 := M 2910 2910 _ _ ltac:(lia) ltac:(lia) H2910 H2910).
  assert (H6143 := M 5820 323 _ _ ltac:(lia) ltac:(lia) H5820 H323).
  assert (H12286 := M 6143 6143 _ _ ltac:(lia) ltac:(lia) H6143 H6143).
  exact (M 12286 1 _ _ ltac:(lia) ltac:(lia) H12286 H1).
Qed.

Lemma mq_div_spec x y :
  rep x -> rep y -> rep (mq_div x y) /\ (y <> q -> mq_div x y * y ==[q] x).
Proof.
  intros Hx Hy. destruct (mq_div_chain x y Hy) as (iy & -> & Hiy & Hp).
  split; [by apply mq_mmul_rep|]. intros Hne.
  assert (~ y ==[q] 0) as Hy0.
  { intros [H0]. unfold rep, q in *. rewrite Z.mod_small in H0 by lia. change (0 mod 12289) with 0 in H0. lia. }
  rewrite mq_mmul_cong, Hp by done.
  transitivity (x * y ^ (q - 2 + 1) * (2 ^ 32 * mq_Rinv)).
  { rewrite Z.pow_add_r, Z.pow_1_r by (unfold q; lia). cong_ring. }
  replace (q - 2 + 1) with (q - 1) by lia. rewrite (fermat_q y Hy0).
  assert (2 ^ 32 * mq_Rinv ==[q] 1) as -> by (split; reflexivity). cong_ring.
Qed.

(** A quotient by zero is zero. *)
Lemma mq_div_zero x : rep x -> mq_div x q = q.
Proof.
  intros Hx. destruct (mq_div_chain x q) as (iy & -> & Hiy & Hp); [unfold rep, q; lia|].
  apply rep_cong_eq; [by apply mq_mmul_rep|unfold rep, q; lia|].
  rewrite mq_mmul_cong, Hp by done. apply cong_iff_divide.
  exists (x * (q ^ (q - 3) * 2 ^ 32) * mq_Rinv - 1).
  replace (q - 2) with (q - 3 + 1) by lia.
  rewrite Z.pow_add_r, Z.pow_1_r by (unfold q; lia).
  generalize (q ^ (q - 3)). intros z. ring.
Qed.

(** * The contracts *)

(** Addition, subtraction, halving and Montgomery multiplication on the
    representatives 1 .. q are the operations of the field Z/qZ, and none
    leaves the representatives: the masked corrections of the 32-bit code
    never wrap the wrong way. *)
Theorem mq_ring_operations x y :
  rep x -> rep y ->
  (rep (mq_add x y) /\ mq_add x y ==[q] x + y) /\
  (rep (mq_sub x y) /\ mq_sub x y ==[q] x - y) /\
  (rep (mq_half x) /\ 2 * mq_half x ==[q] x) /\
  (rep (mq_mmul x y) /\ 2 ^ 32 * mq_mmul x y ==[q] x * y).
Proof.
  intros Hx Hy. rewrite mq_add_spec, mq_sub_spec by done.
  split; [split; [apply norm_q_rep|apply norm_q_cong]|].
  split; [split; [apply norm_q_rep|apply norm_q_cong]|]. split.
  - destruct (mq_half_spec x Hx) as [Hr ->]. split; [done|].
    case_decide; [done|]. rewrite <- (Z.mul_1_l q) at 2. apply cong_mul_modulus.
  - split; [by apply mq_mmul_rep|]. rewrite mq_mmul_cong by done.
    transitivity (x * y * (2 ^ 32 * mq_Rinv)); [cong_ring|].
    assert (2 ^ 32 * mq_Rinv ==[q] 1) as -> by (split; reflexivity). cong_ring.
Qed.

(** [mq_div] is division in the field: for a divisor other than zero
    (represented by q) the addition chain yields the quotient, and a zero
    divisor yields zero. *)
Theorem mq_div_correct x y :
  rep x -> rep y ->
  rep (mq_div x y) /\ (y <> q -> mq_div x y * y ==[q] x) /\ (y = q -> mq_div x y = q).
Proof.
  intros Hx Hy. destruct (mq_div_spec x y Hx Hy) as [Hr Hd]. split; [done|]. split; [done|].
  intros ->. by apply mq_div_zero.
Qed.

Lemma mq_ring_operations_witness : 12000 + 500 >= q /\ mq_add 12000 500 ==[q] 12500.
Proof.
  split; [vm_compute; discriminate|].
  apply (mq_ring_operations 12000 500); unfold rep, q; lia.
Defined.

Lemma mq_div_correct_witness : mq_div 5 7 * 7 ==[q] 5.
Proof. apply (mq_div_correct 5 7); unfold rep, q; lia. Defined.
