(* ===== verification/Ntt.v ===== *)
(** The number-theoretic transform, once for both rings it is used in.

    [pkg/fndsa/mq.go] (modulo q) and [pkg/fndsa/kgen_mp31.go] (modulo a 31-bit
    prime) run the same in-place butterfly loops over different scalar
    operations.  The loops are defined here over a record of operations; the
    class [MontRing] states what the scalar operations owe the loops; and the
    theorems are proved once: the inverse loop undoes the forward loop, the
    forward loop evaluates the polynomial at the odd powers of a root of unity,
    and pointwise products are products modulo X^n + 1. *)
From Stdlib Require Import ZArith Lia.
From stdpp Require Import base numbers list.
From S2P Require Import Prelude.
Local Open Scope Z_scope.

(** ** The loops *)

Record ntt_ops := NttOps {
  op_add : Z -> Z -> Z;
  op_sub : Z -> Z -> Z;
  op_half : Z -> Z;
  op_mmul : Z -> Z -> Z;
  op_store : Z -> Z  (* the conversion done when a result is stored *)
}.

Section Loops.
Context (o : ntt_ops).

(** The butterflies of one block: pairs [j0 + j] and [j0 + j + ht]. *)
Definition ntt_block (ht j0 : nat) (s : Z) (a : list Z) : list Z :=
  for_ ht (fun j a =>
    let j1 := (j0 + j)%nat in
    let j2 := (j1 + ht)%nat in
    let x1 := a.[j1] in
    let x2 := op_mmul o a.[j2] s in
    a.[j1 <- op_store o (op_add o x1 x2)].[j2 <- op_store o (op_sub o x1 x2)]) a.

(** One layer: [m] blocks of [t = 2 ht] values, block [i] using [gm[i + m]]. *)
Definition ntt_layer (gm : list Z) (m t : nat) (a : list Z) : list Z :=
  let ht := (t / 2)%nat in
  fst (for_ m (fun i '(a, j0) =>
    let s := gm.[i + m] in
    (ntt_block ht j0 s a, (j0 + t)%nat)) (a, 0%nat)).

Definition ntt_loop (gm : list Z) (logn : nat) (a : list Z) : list Z :=
  fst (for_ logn (fun lm '(a, t) =>
    let m := (2 ^ lm)%nat in
    (ntt_layer gm m t a, (t / 2)%nat)) (a, (2 ^ logn)%nat)).

Definition intt_block (t j0 : nat) (s : Z) (a : list Z) : list Z :=
  for_ t (fun j a =>
    let j1 := (j0 + j)%nat in
    let j2 := (j1 + t)%nat in
    let x1 := a.[j1] in
    let x2 := a.[j2] in
    a.[j1 <- op_store o (op_half o (op_add o x1 x2))]
     .[j2 <- op_store o (op_mmul o (op_sub o x1 x2) s)]) a.

Definition intt_layer (igm : list Z) (hm t : nat) (a : list Z) : list Z :=
  let dt := (2 * t)%nat in
  fst (for_ hm (fun i '(a, j0) =>
    let s := igm.[i + hm] in
    (intt_block t j0 s a, (j0 + dt)%nat)) (a, 0%nat)).

Definition intt_loop (igm : list Z) (logn : nat) (a : list Z) : list Z :=
  fst (for_ logn (fun lm '(a, t) =>
    let hm := (2 ^ (logn - 1 - lm))%nat in
    (intt_layer igm hm t a, (2 * t)%nat)) (a, 1%nat)).
End Loops.

(** ** The specification: evaluation and products modulo X^n + 1 *)

Definition peval (f : nat -> Z) (n : nat) (x : Z) : Z :=
  zsum n (fun j => f j * x ^ Z.of_nat j).

(** Coefficient [k] of the product of two polynomials of degree below [n]
    modulo X^n + 1: the terms that wrap around change sign. *)
Definition nega_coeff (n : nat) (f g : nat -> Z) (k : nat) : Z :=
  zsum n (fun i => if (i <=? k)%nat then f i * g (k - i)%nat else - (f i * g (n + k - i)%nat)).

Lemma pow_nat_add x i j : x ^ Z.of_nat (i + j) = x ^ Z.of_nat i * x ^ Z.of_nat j.
Proof. rewrite Nat2Z.inj_add, Z.pow_add_r by lia. done. Qed.

Lemma pow_nat_mul x i j : x ^ Z.of_nat (i * j) = (x ^ Z.of_nat i) ^ Z.of_nat j.
Proof. rewrite Nat2Z.inj_mul, Z.pow_mul_r by lia. done. Qed.

Lemma peval_app f n k x :
  peval f (n + k) x = peval f n x + x ^ Z.of_nat n * peval (fun j => f (n + j)%nat) k x.
Proof.
  unfold peval. rewrite zsum_app, <- zsum_mul_l. f_equal. apply zsum_ext.
  intros i _. rewrite pow_nat_add. ring.
Qed.

Lemma peval_double f h x :
  peval f (2 * h) x = peval f h x + x ^ Z.of_nat h * peval (fun j => f (h + j)%nat) h x.
Proof. replace (2 * h)%nat with (h + h)%nat by lia. apply peval_app. Qed.

(** Multiplying by X^i rotates the coefficients and negates those that wrap. *)
Lemma peval_rotate m g n i x :
  (i < n)%nat -> x ^ Z.of_nat n ==[m] -1 ->
  zsum n (fun k => (if (i <=? k)%nat then g (k - i)%nat else - g (n + k - i)%nat) * x ^ Z.of_nat k)
    ==[m] x ^ Z.of_nat i * peval g n x.
Proof.
  intros Hi Hx. assert (exists d, n = i + d)%nat as [d ->] by (exists (n - i)%nat; lia).
  rewrite zsum_app.
  transitivity (x ^ Z.of_nat (i + d) * peval (fun j => g (d + j)%nat) i x +
                x ^ Z.of_nat i * peval g d x).
  - rewrite Hx. apply cong_of_eq. f_equal.
    + unfold peval. rewrite <- zsum_mul_l. apply zsum_ext. intros k Hk.
      destruct (Nat.leb_spec i k); [lia|]. replace (i + d + k - i)%nat with (d + k)%nat by lia. ring.
    + unfold peval. rewrite <- zsum_mul_l. apply zsum_ext. intros k Hk.
      destruct (Nat.leb_spec i (i + k)); [|lia]. rewrite pow_nat_add.
      replace (i + k - i)%nat with k by lia. ring.
  - apply cong_of_eq. rewrite (Nat.add_comm i d), peval_app, pow_nat_add. ring.
Qed.

Lemma peval_nega m f g n x :
  x ^ Z.of_nat n ==[m] -1 ->
  peval (nega_coeff n f g) n x ==[m] peval f n x * peval g n x.
Proof.
  intros Hx. unfold peval at 1, nega_coeff.
  transitivity (zsum n (fun i => f i * zsum n (fun k =>
    (if (i <=? k)%nat then g (k - i)%nat else - g (n + k - i)%nat) * x ^ Z.of_nat k))).
  - apply cong_of_eq.
    rewrite (zsum_ext n _ (fun k => zsum n (fun i => f i *
      ((if (i <=? k)%nat then g (k - i)%nat else - g (n + k - i)%nat) * x ^ Z.of_nat k)))).
    + rewrite zsum_swap. apply zsum_ext. intros i _. by rewrite zsum_mul_l.
    + intros k _. rewrite <- zsum_mul_r. apply zsum_ext. intros i _.
      destruct (i <=? k)%nat; ring.
  - unfold peval at 1. rewrite <- zsum_mul_r. apply zsum_cong. intros i Hi.
    rewrite peval_rotate by done. cong_ring.
Qed.

Lemma peval_cong m f g n x :
  (forall i, (i < n)%nat -> f i ==[m] g i) -> peval f n x ==[m] peval g n x.
Proof. intros Hfg. apply zsum_cong. intros i Hi. by rewrite Hfg. Qed.

Lemma nega_coeff_cong m n f g f' g' k :
  (k < n)%nat -> (forall i, (i < n)%nat -> f i ==[m] f' i) -> (forall i, (i < n)%nat -> g i ==[m] g' i) ->
  nega_coeff n f g k ==[m] nega_coeff n f' g' k.
Proof.
  intros Hk Hf Hg. apply zsum_cong. intros i Hi.
  destruct (Nat.leb_spec i k); by rewrite Hf, Hg by lia.
Qed.

(** A coefficient of the product is a sum of [n] products of coefficients. *)
Lemma nega_coeff_bound n f g A B k :
  0 <= A -> 0 <= B -> (k < n)%nat -> (forall i, (i < n)%nat -> Z.abs (f i) <= A /\ Z.abs (g i) <= B) ->
  Z.abs (nega_coeff n f g k) <= Z.of_nat n * (A * B).
Proof.
  intros HA HB Hk H.
  assert (forall i, (i < n)%nat -> - (A * B) <= (if (i <=? k)%nat then f i * g (k - i)%nat else - (f i * g (n + k - i)%nat)) <= A * B) as Ht.
  { intros i Hi. destruct (H i Hi) as [Hf _]. destruct (Nat.leb_spec i k).
    - destruct (H (k - i)%nat) as [_ Hg]; [lia|]. nia.
    - destruct (H (n + k - i)%nat) as [_ Hg]; [lia|]. nia. }
  unfold nega_coeff. apply Z.abs_le. split.
  - apply Z.opp_le_mono. rewrite Z.opp_involutive, <- zsum_opp.
    apply zsum_le_const. intros i Hi. specialize (Ht i Hi). lia.
  - apply zsum_le_const. intros i Hi. specialize (Ht i Hi). lia.
Qed.

(** ** What the scalar operations owe the loops *)

Class MontRing (o : ntt_ops) := {
  mr_Q : Z;          (* the modulus *)
  mr_Rinv : Z;       (* the inverse of the Montgomery factor *)
  mr_rep : Z -> Prop; (* canonical representatives *)
  mr_Q_odd : exists h, mr_Q = 2 * h + 1;
  mr_unique x y : mr_rep x -> mr_rep y -> x ==[mr_Q] y -> x = y;
  mr_store x : mr_rep x -> op_store o x = x;
  mr_add_rep x y : mr_rep x -> mr_rep y -> mr_rep (op_add o x y);
  mr_add x y : mr_rep x -> mr_rep y -> op_add o x y ==[mr_Q] x + y;
  mr_sub_rep x y : mr_rep x -> mr_rep y -> mr_rep (op_sub o x y);
  mr_sub x y : mr_rep x -> mr_rep y -> op_sub o x y ==[mr_Q] x - y;
  mr_half_rep x : mr_rep x -> mr_rep (op_half o x);
  mr_half x : mr_rep x -> 2 * op_half o x ==[mr_Q] x;
  mr_mmul_rep x y : mr_rep x -> mr_rep y -> mr_rep (op_mmul o x y);
  mr_mmul x y : mr_rep x -> mr_rep y -> op_mmul o x y ==[mr_Q] x * y * mr_Rinv
}.
#[export] Hint Resolve mr_add_rep mr_sub_rep mr_half_rep mr_mmul_rep : go.

(** Sizes of blocks. *)
Lemma pow2_split logn l : (l <= logn)%nat -> (2 ^ logn = 2 ^ l * 2 ^ (logn - l))%nat.
Proof. intros. rewrite <- Nat.pow_add_r. f_equal. lia. Qed.
Lemma pow2_half logn l : (l < logn)%nat -> (2 ^ (logn - l) = 2 * 2 ^ (logn - S l))%nat.
Proof. intros. rewrite <- Nat.pow_succ_r'. f_equal. lia. Qed.
Lemma pow2_le nmax logn l :
  (2 ^ logn <= nmax)%nat -> (l < logn)%nat -> (1 <= 2 ^ l /\ 2 * 2 ^ l <= nmax)%nat.
Proof.
  intros Hn Hlt. split; [apply Nat.neq_0_le_1, Nat.pow_nonzero; lia|].
  rewrite <- Nat.pow_succ_r'. etransitivity; [|exact Hn]. apply Nat.pow_le_mono_r; lia.
Qed.

(** ** Effect of a layer on each coefficient

    Both directions run disjoint pairs of cells through a two-output function. *)

Definition pair_loop (f g : Z -> Z -> Z) (h j0 : nat) (a : list Z) : list Z :=
  for_ h (fun j a =>
    let j1 := (j0 + j)%nat in
    let j2 := (j1 + h)%nat in
    a.[j1 <- f a.[j1] a.[j2]].[j2 <- g a.[j1] a.[j2]]) a.

Definition pair_layer (f g : nat -> Z -> Z -> Z) (m h : nat) (a : list Z) : list Z :=
  fst (for_ m (fun i '(a, j0) =>
    (pair_loop (f i) (g i) h j0 a, (j0 + 2 * h)%nat)) (a, 0%nat)).

(** [b] is [a] after the first [c] pairs starting at [j0], at distance [h]. *)
Definition paired (f g : Z -> Z -> Z) (h j0 c : nat) (a b : list Z) : Prop :=
  length b = length a /\
  (forall j, (j < c)%nat -> b.[j0 + j] = f a.[j0 + j] a.[j0 + j + h] /\
                      b.[j0 + j + h] = g a.[j0 + j] a.[j0 + j + h]) /\
  (forall k, (k < j0 \/ j0 + c <= k < j0 + h \/ j0 + h + c <= k)%nat -> b.[k] = a.[k]).

Lemma pair_loop_spec f g h j0 a :
  (j0 + 2 * h <= length a)%nat -> paired f g h j0 h a (pair_loop f g h j0 a).
Proof.
  intros Hlen. unfold pair_loop. apply (for_ind (fun c b => paired f g h j0 c a b)).
  { split; [done|]. split; [intros; lia|done]. }
  intros c b Hc (IL & IH & IU). unfold paired. rewrite !length_set.
  split; [done|]. rewrite (IU (j0 + c)%nat), (IU (j0 + c + h)%nat) by lia.
  split; [intros j Hj|intros k Hk; rewrite !get_set_ne by lia; apply IU; lia].
  destruct (decide (j = c)) as [->|].
  - split; [rewrite get_set_ne by lia|]; by rewrite get_set_eq by (rewrite ?length_set; lia).
  - rewrite !get_set_ne by lia. apply IH. lia.
Qed.

Lemma pair_layer_spec f g m h a :
  (length a = m * (2 * h))%nat ->
  length (pair_layer f g m h a) = length a /\
  forall i j, (i < m)%nat -> (j < h)%nat ->
    let lo := (i * (2 * h) + j)%nat in
    (pair_layer f g m h a).[lo] = f i a.[lo] a.[lo + h] /\
    (pair_layer f g m h a).[lo + h] = g i a.[lo] a.[lo + h].
Proof.
  intros Hlen. unfold pair_layer.
  enough (forall st, st = for_ m (fun i '(a, j0) =>
            (pair_loop (f i) (g i) h j0 a, (j0 + 2 * h)%nat)) (a, 0%nat) ->
    snd st = (m * (2 * h))%nat /\ length (fst st) = length a /\
    (forall i j, (i < m)%nat -> (j < h)%nat ->
      (fst st).[i * (2 * h) + j] = f i a.[i * (2 * h) + j] a.[i * (2 * h) + j + h] /\
      (fst st).[i * (2 * h) + j + h] = g i a.[i * (2 * h) + j] a.[i * (2 * h) + j + h]) /\
    (forall k, (m * (2 * h) <= k)%nat -> (fst st).[k] = a.[k])) as He.
  { destruct (He _ eq_refl) as (_ & ? & ? & _). done. }
  intros st ->. apply (for_ind (fun c st =>
    snd st = (c * (2 * h))%nat /\ length (fst st) = length a /\
    (forall i j, (i < c)%nat -> (j < h)%nat ->
      (fst st).[i * (2 * h) + j] = f i a.[i * (2 * h) + j] a.[i * (2 * h) + j + h] /\
      (fst st).[i * (2 * h) + j + h] = g i a.[i * (2 * h) + j] a.[i * (2 * h) + j + h]) /\
    (forall k, (c * (2 * h) <= k)%nat -> (fst st).[k] = a.[k]))).
  { repeat split; intros; lia. }
  intros c [b j0] Hc H. cbn [fst snd] in *. destruct H as (-> & IL & IH & IU).
  destruct (pair_loop_spec (f c) (g c) h (c * (2 * h)) b) as (PL & PH & PU); [nia|].
  split; [lia|]. split; [lia|]. split.
  - intros i j Hi Hj. destruct (decide (i = c)) as [->|].
    + destruct (PH j Hj) as [-> ->]. rewrite !IU by lia. done.
    + assert ((i * (2 * h) + j + h < c * (2 * h))%nat) by nia.
      rewrite !PU by lia. apply IH; lia.
  - intros k Hk. rewrite PU by lia. apply IU. lia.
Qed.

Section Layers.
Context (o : ntt_ops).

Definition fwd_lo (s x1 x2 : Z) : Z := op_store o (op_add o x1 (op_mmul o x2 s)).
Definition fwd_hi (s x1 x2 : Z) : Z := op_store o (op_sub o x1 (op_mmul o x2 s)).
Definition inv_lo (x1 x2 : Z) : Z := op_store o (op_half o (op_add o x1 x2)).
Definition inv_hi (s x1 x2 : Z) : Z := op_store o (op_mmul o (op_sub o x1 x2) s).

Lemma ntt_layer_pairs gm m h a :
  ntt_layer o gm m (2 * h) a =
  pair_layer (fun i => fwd_lo gm.[i + m]) (fun i => fwd_hi gm.[i + m]) m h a.
Proof.
  unfold ntt_layer. rewrite (Nat.mul_comm 2 h), Nat.div_mul, (Nat.mul_comm h 2) by lia.
  reflexivity.
Qed.

Lemma intt_layer_pairs igm m h a :
  intt_layer o igm m h a =
  pair_layer (fun _ => inv_lo) (fun i => inv_hi igm.[i + m]) m h a.
Proof. reflexivity. Qed.
End Layers.

(** Every index of an array of [m] blocks of [2 h] cells is a low or a high one. *)
Lemma block_index m h k :
  (k < m * (2 * h))%nat ->
  exists i j, (i < m)%nat /\ (j < h)%nat /\
    (k = i * (2 * h) + j \/ k = i * (2 * h) + j + h)%nat.
Proof.
  intros Hk. assert (h <> 0%nat) by lia.
  exists (k / (2 * h))%nat.
  pose proof (Nat.div_mod_eq k (2 * h)) as Hd.
  pose proof (Nat.mod_upper_bound k (2 * h) ltac:(lia)) as Hr.
  assert (k / (2 * h) < m)%nat by (apply Nat.Div0.div_lt_upper_bound; lia).
  destruct (decide (k mod (2 * h) < h)%nat).
  - exists (k mod (2 * h))%nat. lia.
  - exists (k mod (2 * h) - h)%nat. lia.
Qed.

(** ** Roots of unity

    [omega k] is the twiddle factor [gm[k]] without its Montgomery factor, and
    [rho k] the value that X^t takes in block [k - m] of the layer of [m]
    blocks of size [t]: block 1 is X^n = -1, and block [k] splits into the two
    square roots [omega k] and [- omega k] of [rho k]. *)

Definition omega (o : ntt_ops) `{MontRing o} (gm : list Z) (k : nat) : Z := gm.[k] * mr_Rinv.
Definition rho (o : ntt_ops) `{MontRing o} (gm : list Z) (k : nat) : Z :=
  if (k <=? 1)%nat then -1
  else if Nat.even k then omega o gm (k / 2) else - omega o gm (k / 2).

Class NttRoots (o : ntt_ops) `{MontRing o} (gm igm : list Z) (n : nat) := {
  nr_gm k : (1 <= k < n)%nat -> mr_rep gm.[k];
  nr_igm k : (1 <= k < n)%nat -> mr_rep igm.[k];
  nr_sq k : (1 <= k < n)%nat -> omega o gm k * omega o gm k ==[mr_Q] rho o gm k;
  nr_inv k : (1 <= k < n)%nat -> 2 * gm.[k] * igm.[k] * (mr_Rinv * mr_Rinv) ==[mr_Q] 1
}.

Section Correct.
Context (o : ntt_ops) `{MR : MontRing o} (gm igm : list Z) (nmax : nat)
        `{NR : !NttRoots o gm igm nmax}.
Local Abbreviation Q := (mr_Q (o := o)).
Local Abbreviation rep := (mr_rep (o := o)).
Local Abbreviation Rinv := (mr_Rinv (o := o)).
Local Abbreviation omega := (omega o gm).
Local Abbreviation rho := (rho o gm).

Lemma half_cancel x y : 2 * x ==[Q] 2 * y -> x ==[Q] y.
Proof.
  intros Hxy. destruct (mr_Q_odd (o := o)) as [h Hh].
  transitivity ((h + 1) * (2 * x)).
  - transitivity (x + x * Q); [by rewrite cong_mul_modulus|rewrite Hh; cong_ring].
  - rewrite Hxy. transitivity (y + y * Q); [rewrite Hh; cong_ring|by rewrite cong_mul_modulus].
Qed.

(** A butterfly and its inverse cancel, in both orders. *)
Lemma butterfly_inv s si x1 x2 :
  rep s -> rep si -> rep x1 -> rep x2 -> 2 * s * si * (Rinv * Rinv) ==[Q] 1 ->
  inv_lo o (fwd_lo o s x1 x2) (fwd_hi o s x1 x2) = x1 /\
  inv_hi o si (fwd_lo o s x1 x2) (fwd_hi o s x1 x2) = x2.
Proof.
  intros Hs Hi H1 H2 Hinv. unfold inv_lo, inv_hi, fwd_lo, fwd_hi.
  rewrite !(mr_store (op_add _ _ _)), !(mr_store (op_sub _ x1 _)) by eauto 10 with go.
  rewrite !mr_store by eauto 10 with go. split; apply mr_unique; eauto 10 with go.
  - apply half_cancel. rewrite mr_half, mr_add, mr_add, mr_sub by eauto 10 with go. cong_ring.
  - rewrite mr_mmul, mr_sub, mr_add, mr_sub, mr_mmul by eauto 10 with go.
    transitivity (2 * s * si * (Rinv * Rinv) * x2); [cong_ring|]. rewrite Hinv. cong_ring.
Qed.

Lemma butterfly_inv' s si y1 y2 :
  rep s -> rep si -> rep y1 -> rep y2 -> 2 * s * si * (Rinv * Rinv) ==[Q] 1 ->
  fwd_lo o s (inv_lo o y1 y2) (inv_hi o si y1 y2) = y1 /\
  fwd_hi o s (inv_lo o y1 y2) (inv_hi o si y1 y2) = y2.
Proof.
  intros Hs Hi H1 H2 Hinv. unfold inv_lo, inv_hi, fwd_lo, fwd_hi.
  rewrite !(mr_store (op_half _ _)), !(mr_store (op_mmul _ _ _)) by eauto 10 with go.
  rewrite !mr_store by eauto 10 with go.
  assert (Hlo : 2 * op_half o (op_add o y1 y2) ==[Q] y1 + y2)
    by (rewrite mr_half, mr_add by eauto 10 with go; done).
  assert (Hhi : 2 * op_mmul o (op_mmul o (op_sub o y1 y2) si) s ==[Q] y1 - y2).
  { rewrite !mr_mmul, mr_sub by eauto 10 with go.
    transitivity (2 * s * si * (Rinv * Rinv) * (y1 - y2)); [cong_ring|].
    rewrite Hinv. cong_ring. }
  split; apply mr_unique; eauto 10 with go; apply half_cancel.
  - rewrite mr_add, Z.mul_add_distr_l, Hlo, Hhi by eauto 10 with go. cong_ring.
  - rewrite mr_sub, Z.mul_sub_distr_l, Hlo, Hhi by eauto 10 with go. cong_ring.
Qed.

Lemma fwd_rep s x1 x2 :
  rep s -> rep x1 -> rep x2 -> rep (fwd_lo o s x1 x2) /\ rep (fwd_hi o s x1 x2).
Proof. intros. unfold fwd_lo, fwd_hi. rewrite !mr_store by eauto 10 with go. eauto 10 with go. Qed.

Lemma inv_rep si x1 x2 :
  rep si -> rep x1 -> rep x2 -> rep (inv_lo o x1 x2) /\ rep (inv_hi o si x1 x2).
Proof. intros. unfold inv_lo, inv_hi. rewrite !mr_store by eauto 10 with go. eauto 10 with go. Qed.

(** *** Layers *)

Lemma pair_layer_rep f g m h a :
  (length a = m * (2 * h))%nat -> Forall rep a ->
  (forall i x1 x2, (i < m)%nat -> rep x1 -> rep x2 -> rep (f i x1 x2) /\ rep (g i x1 x2)) ->
  Forall rep (pair_layer f g m h a).
Proof.
  intros Hl Ha Hfg. destruct (pair_layer_spec f g m h a Hl) as [Hpl Hp].
  apply Forall_get. intros k Hk. rewrite Hpl, Hl in Hk.
  destruct (block_index m h k Hk) as (i & j & Hi & Hj & Hij).
  assert ((i * (2 * h) + j + h < m * (2 * h))%nat) by nia.
  destruct (Hp i j Hi Hj) as [Hlo Hhi].
  destruct (Hfg i a.[i * (2 * h) + j] a.[i * (2 * h) + j + h] Hi) as [? ?];
    [apply get_Forall; [done|lia]..|].
  destruct Hij as [-> | ->]; [by rewrite Hlo|by rewrite Hhi].
Qed.

(** Two layers on the same pairs that cancel pair by pair. *)
Lemma pair_layer_cancel f g f' g' m h a :
  (length a = m * (2 * h))%nat -> Forall rep a ->
  (forall i x1 x2, (i < m)%nat -> rep x1 -> rep x2 ->
     f' i (f i x1 x2) (g i x1 x2) = x1 /\ g' i (f i x1 x2) (g i x1 x2) = x2) ->
  pair_layer f' g' m h (pair_layer f g m h a) = a.
Proof.
  intros Hl Ha Hc. destruct (pair_layer_spec f g m h a Hl) as [Hl1 H1].
  destruct (pair_layer_spec f' g' m h (pair_layer f g m h a)) as [Hl2 H2]; [lia|].
  apply get_ext; [lia|]. intros k Hk. rewrite Hl2, Hl1, Hl in Hk.
  destruct (block_index m h k Hk) as (i & j & Hi & Hj & Hij).
  assert ((i * (2 * h) + j + h < m * (2 * h))%nat) by nia.
  destruct (H1 i j Hi Hj) as [Elo Ehi]. destruct (H2 i j Hi Hj) as [Elo' Ehi'].
  destruct (Hc i a.[i * (2 * h) + j] a.[i * (2 * h) + j + h] Hi) as [C1 C2];
    [apply get_Forall; [done|lia]..|].
  rewrite Elo, Ehi, C1 in Elo'. rewrite Elo, Ehi, C2 in Ehi'.
  by destruct Hij as [-> | ->].
Qed.

Section Layer.
Context (m h : nat) (a : list Z).
Context (Hm : (1 <= m)%nat) (Hn : (2 * m <= nmax)%nat).
Context (Hl : (length a = m * (2 * h))%nat) (Ha : Forall rep a).

Lemma ntt_layer_ok :
  Forall rep (ntt_layer o gm m (2 * h) a) /\ length (ntt_layer o gm m (2 * h) a) = length a.
Proof.
  rewrite ntt_layer_pairs. split; [|by apply pair_layer_spec].
  apply pair_layer_rep; [done..|]. intros. apply fwd_rep; [|done..]. apply nr_gm. lia.
Qed.

Lemma intt_layer_ok :
  Forall rep (intt_layer o igm m h a) /\ length (intt_layer o igm m h a) = length a.
Proof.
  rewrite intt_layer_pairs. split; [|by apply pair_layer_spec].
  apply pair_layer_rep; [done..|]. intros. apply inv_rep; [|done..]. apply nr_igm. lia.
Qed.

Lemma intt_ntt_layer : intt_layer o igm m h (ntt_layer o gm m (2 * h) a) = a.
Proof.
  rewrite ntt_layer_pairs, intt_layer_pairs. apply pair_layer_cancel; [done..|].
  intros. apply butterfly_inv; try done; [apply nr_gm; lia|apply nr_igm; lia|apply nr_inv; lia].
Qed.

Lemma ntt_intt_layer : ntt_layer o gm m (2 * h) (intt_layer o igm m h a) = a.
Proof.
  rewrite ntt_layer_pairs, intt_layer_pairs. apply pair_layer_cancel; [done..|].
  intros. apply butterfly_inv'; try done; [apply nr_gm; lia|apply nr_igm; lia|apply nr_inv; lia].
Qed.
End Layer.

(** *** Whole transforms *)

Section Whole.
Context (logn : nat) (a : list Z).
Context (Hn : (2 ^ logn <= nmax)%nat) (Hl : length a = (2 ^ logn)%nat) (Ha : Forall rep a).

(** The first [l] layers of either direction. *)
Definition ntt_prefix (l : nat) : list Z :=
  for_ l (fun lm a => ntt_layer o gm (2 ^ lm) (2 ^ (logn - lm)) a) a.
Definition intt_prefix (l : nat) : list Z :=
  for_ l (fun lm a => intt_layer o igm (2 ^ (logn - 1 - lm)) (2 ^ lm) a) a.

Lemma ntt_prefix_S l : ntt_prefix (S l) = ntt_layer o gm (2 ^ l) (2 ^ (logn - l)) (ntt_prefix l).
Proof. unfold ntt_prefix, intt_prefix. by rewrite for_S. Qed.
Lemma intt_prefix_S l :
  intt_prefix (S l) = intt_layer o igm (2 ^ (logn - 1 - l)) (2 ^ l) (intt_prefix l).
Proof. unfold ntt_prefix, intt_prefix. by rewrite for_S. Qed.

Lemma ntt_prefix_ok l :
  (l <= logn)%nat -> Forall rep (ntt_prefix l) /\ length (ntt_prefix l) = (2 ^ logn)%nat.
Proof.
  induction l as [|l IH]; intros Hlt; [done|]. destruct IH as [IH IL]; [lia|].
  rewrite ntt_prefix_S, pow2_half by lia. pose proof (pow2_le nmax logn l Hn ltac:(lia)).
  rewrite <- IL. apply ntt_layer_ok; [lia..| |done].
  rewrite IL, <- pow2_half, <- pow2_split; lia.
Qed.

Lemma intt_prefix_ok l :
  (l <= logn)%nat -> Forall rep (intt_prefix l) /\ length (intt_prefix l) = (2 ^ logn)%nat.
Proof.
  induction l as [|l IH]; intros Hlt; [done|]. destruct IH as [IH IL]; [lia|].
  rewrite intt_prefix_S. pose proof (pow2_le nmax logn (logn - 1 - l) Hn ltac:(lia)).
  rewrite <- IL. apply intt_layer_ok; [lia..| |done].
  rewrite IL, <- Nat.pow_succ_r', <- Nat.pow_add_r. f_equal. lia.
Qed.

Lemma ntt_loop_prefix : ntt_loop o gm logn a = ntt_prefix logn.
Proof.
  unfold ntt_loop, ntt_prefix.
  enough (for_ logn (fun lm '(a0, t) =>
    (ntt_layer o gm (2 ^ lm) t a0, (t / 2)%nat)) (a, (2 ^ logn)%nat) =
    (for_ logn (fun lm a0 => ntt_layer o gm (2 ^ lm) (2 ^ (logn - lm)) a0) a, (2 ^ (logn - logn))%nat))
    as -> by done.
  apply (for_sim (fun l st b => st = (b, (2 ^ (logn - l))%nat))).
  - by rewrite Nat.sub_0_r.
  - intros i st b Hi ->. f_equal. rewrite pow2_half by done.
    rewrite Nat.mul_comm, Nat.div_mul by lia. done.
Qed.

Lemma intt_loop_prefix : intt_loop o igm logn a = intt_prefix logn.
Proof.
  unfold intt_loop, intt_prefix.
  enough (for_ logn (fun lm '(a0, t) =>
    (intt_layer o igm (2 ^ (logn - 1 - lm)) t a0, (2 * t)%nat)) (a, 1%nat) =
    (for_ logn (fun lm a0 => intt_layer o igm (2 ^ (logn - 1 - lm)) (2 ^ lm) a0) a, (2 ^ logn)%nat))
    as -> by done.
  apply (for_sim (fun l st b => st = (b, (2 ^ l)%nat))); [done|].
  intros i st b Hi ->. f_equal.
Qed.

Lemma ntt_loop_ok : Forall rep (ntt_loop o gm logn a) /\ length (ntt_loop o gm logn a) = length a.
Proof. rewrite ntt_loop_prefix, Hl. by apply ntt_prefix_ok. Qed.
Lemma intt_loop_ok : Forall rep (intt_loop o igm logn a) /\ length (intt_loop o igm logn a) = length a.
Proof. rewrite intt_loop_prefix, Hl. by apply intt_prefix_ok. Qed.

Lemma intt_ntt_loop : intt_loop o igm logn (ntt_loop o gm logn a) = a.
Proof.
  unfold intt_loop.
  enough (for_ logn (fun lm '(a0, t) =>
    (intt_layer o igm (2 ^ (logn - 1 - lm)) t a0, (2 * t)%nat))
    (ntt_loop o gm logn a, 1%nat) = (ntt_prefix (logn - logn), (2 ^ logn)%nat)) as ->
    by (by rewrite Nat.sub_diag).
  apply (for_ind (fun l st => st = (ntt_prefix (logn - l), (2 ^ l)%nat))).
  { by rewrite ntt_loop_prefix, Nat.sub_0_r. }
  intros l st Hlt ->. f_equal.
  replace (logn - l)%nat with (S (logn - S l)) by lia.
  rewrite ntt_prefix_S. replace (logn - 1 - l)%nat with (logn - S l)%nat by lia.
  replace (logn - (logn - S l))%nat with (S l) by lia. rewrite Nat.pow_succ_r'.
  destruct (ntt_prefix_ok (logn - S l)) as [HF HL]; [lia|].
  pose proof (pow2_le nmax logn (logn - S l) Hn ltac:(lia)).
  apply intt_ntt_layer; [lia..| |done].
  rewrite HL, <- Nat.pow_succ_r', <- Nat.pow_add_r. f_equal. lia.
Qed.

Lemma ntt_intt_loop : ntt_loop o gm logn (intt_loop o igm logn a) = a.
Proof.
  unfold ntt_loop.
  enough (for_ logn (fun lm '(a0, t) =>
    (ntt_layer o gm (2 ^ lm) t a0, (t / 2)%nat))
    (intt_loop o igm logn a, (2 ^ logn)%nat) =
    (intt_prefix (logn - logn), (2 ^ (logn - logn))%nat)) as -> by (by rewrite Nat.sub_diag).
  apply (for_ind (fun l st => st = (intt_prefix (logn - l), (2 ^ (logn - l))%nat))).
  { by rewrite intt_loop_prefix, Nat.sub_0_r. }
  intros l st Hlt ->. rewrite (pow2_half logn l) by done.
  replace (2 * 2 ^ (logn - S l) / 2)%nat with (2 ^ (logn - S l))%nat
    by (rewrite Nat.mul_comm, Nat.div_mul; lia). f_equal.
  replace (logn - l)%nat with (S (logn - S l)) by lia.
  rewrite intt_prefix_S. replace (logn - 1 - (logn - S l))%nat with l by lia.
  destruct (intt_prefix_ok (logn - S l)) as [HF HL]; [lia|].
  pose proof (pow2_le nmax logn l Hn ltac:(lia)).
  apply ntt_intt_layer; [lia..| |done].
  rewrite HL, <- pow2_half, <- pow2_split; lia.
Qed.
End Whole.

(** *** Evaluation at the roots *)

Lemma rho_double k b :
  (1 <= k)%nat -> rho (2 * k + Nat.b2n b) = if b then - omega k else omega k.
Proof.
  intros Hk. unfold Ntt.rho. destruct (Nat.leb_spec (2 * k + Nat.b2n b) 1); [lia|].
  replace ((2 * k + Nat.b2n b) / 2)%nat with k.
  - rewrite Nat.even_add, Nat.even_mul. by destruct b.
  - apply (Nat.div_unique _ _ _ (Nat.b2n b)); destruct b; simpl; lia.
Qed.

Lemma rho_sq k b :
  (1 <= k < nmax)%nat -> rho (2 * k + Nat.b2n b) * rho (2 * k + Nat.b2n b) ==[Q] rho k.
Proof.
  intros Hk. rewrite rho_double by lia. rewrite <- (nr_sq k Hk).
  destruct b; cong_ring.
Qed.

Lemma index_split l i :
  (i < 2 ^ S l)%nat -> exists i' b, (i' < 2 ^ l)%nat /\ i = (2 * i' + Nat.b2n b)%nat.
Proof.
  intros Hi. exists (i / 2)%nat, (Nat.odd i). split.
  - apply Nat.Div0.div_lt_upper_bound. by rewrite <- Nat.pow_succ_r'.
  - rewrite <- Nat.div2_div. apply Nat.div2_odd.
Qed.

Lemma rho_pow l i :
  (2 ^ l <= nmax)%nat -> (i < 2 ^ l)%nat -> rho (2 ^ l + i) ^ Z.of_nat (2 ^ l) ==[Q] -1.
Proof.
  revert i. induction l as [|l IH]; intros i Hn Hi.
  - simpl in Hi. replace i with 0%nat by lia. done.
  - destruct (index_split l i Hi) as (i' & b & Hi' & ->).
    assert (0 < 2 ^ l)%nat by (apply Nat.neq_0_lt_0, Nat.pow_nonzero; lia).
    rewrite Nat.pow_succ_r' in *.
    replace (2 * 2 ^ l + (2 * i' + Nat.b2n b))%nat with (2 * (2 ^ l + i') + Nat.b2n b)%nat by lia.
    rewrite pow_nat_mul. change (Z.of_nat 2) with 2. rewrite Z.pow_2_r, rho_sq by lia.
    apply IH; lia.
Qed.

(** After [l] layers, block [i] holds the polynomial modulo X^t - rho. *)
Lemma ntt_prefix_eval logn a l i x :
  (2 ^ logn <= nmax)%nat -> length a = (2 ^ logn)%nat -> Forall rep a -> (l <= logn)%nat ->
  (i < 2 ^ l)%nat -> x ^ Z.of_nat (2 ^ (logn - l)) ==[Q] rho (2 ^ l + i) ->
  peval (get a) (2 ^ logn) x ==[Q]
  peval (fun j => (ntt_prefix logn a l).[i * 2 ^ (logn - l) + j]) (2 ^ (logn - l)) x.
Proof.
  intros Hn Hl Ha. revert i. induction l as [|l IH]; intros i Hlt Hi Hx.
  { simpl in Hi. replace i with 0%nat by lia. by rewrite Nat.sub_0_r. }
  destruct (index_split l i Hi) as (i' & b & Hi' & ->).
  pose proof (pow2_le nmax logn l Hn ltac:(lia)) as [Hm Hm'].
  destruct (ntt_prefix_ok logn a Hn Hl Ha l) as [HF HL]; [lia|].
  set (h := (2 ^ (logn - S l))%nat) in *.
  assert (Ht : (2 ^ (logn - l) = 2 * h)%nat) by (apply (pow2_half logn); lia).
  rewrite Nat.pow_succ_r' in Hx.
  replace (2 * 2 ^ l + (2 * i' + Nat.b2n b))%nat with (2 * (2 ^ l + i') + Nat.b2n b)%nat in Hx by lia.
  rewrite (IH i' ltac:(lia) Hi'); cycle 1.
  { rewrite Ht, (Nat.mul_comm 2), pow_nat_mul. change (Z.of_nat 2) with 2.
    rewrite Z.pow_2_r, Hx. apply rho_sq. lia. }
  rewrite rho_double in Hx by lia.
  rewrite ntt_prefix_S, Ht, ntt_layer_pairs.
  set (c := ntt_prefix logn a l) in *.
  assert (Hlc : (length c = 2 ^ l * (2 * h))%nat)
    by (rewrite HL, <- Ht; apply pow2_split; lia).
  match goal with |- context [pair_layer ?f ?g ?m ?h ?c] =>
    destruct (pair_layer_spec f g m h c Hlc) as [_ HP] end.
  rewrite peval_double, Hx.
  unfold peval. rewrite <- zsum_mul_l, <- zsum_plus. apply zsum_cong. intros j Hj.
  destruct (HP i' j Hi' Hj) as [Plo Phi].
  assert (rep c.[i' * (2 * h) + j] /\ rep c.[i' * (2 * h) + j + h]) as [R1 R2]
    by (split; apply get_Forall; try done; nia).
  assert (rep gm.[i' + 2 ^ l]) as Rg by (apply nr_gm; lia).
  replace (i' * (2 * h) + (h + j))%nat with (i' * (2 * h) + j + h)%nat by lia.
  destruct b; simpl Nat.b2n.
  - replace ((2 * i' + 1) * h + j)%nat with (i' * (2 * h) + j + h)%nat by lia.
    rewrite Phi. unfold fwd_hi. rewrite mr_store by eauto 10 with go.
    rewrite mr_sub, mr_mmul by eauto 10 with go.
    unfold Ntt.omega. rewrite (Nat.add_comm i'). cong_ring.
  - replace ((2 * i' + 0) * h + j)%nat with (i' * (2 * h) + j)%nat by lia.
    rewrite Plo. unfold fwd_lo. rewrite mr_store by eauto 10 with go.
    rewrite mr_add, mr_mmul by eauto 10 with go.
    unfold Ntt.omega. rewrite (Nat.add_comm i'). cong_ring.
Qed.

Section Product.
Context (logn : nat) (Hn : (2 ^ logn <= nmax)%nat).

(** The transform is evaluation at the roots of X^n = -1. *)
Lemma ntt_loop_eval a i :
  length a = (2 ^ logn)%nat -> Forall rep a -> (i < 2 ^ logn)%nat ->
  (ntt_loop o gm logn a).[i] ==[Q] peval (get a) (2 ^ logn) (rho (2 ^ logn + i)).
Proof.
  intros Hl Ha Hi. rewrite (ntt_prefix_eval logn a logn i) by
    (try done; rewrite Nat.sub_diag; simpl; by rewrite Z.pow_1_r).
  rewrite ntt_loop_prefix by done. rewrite Nat.sub_diag. apply cong_of_eq.
  unfold peval. simpl. rewrite Nat.mul_1_r, Nat.add_0_r, Z.pow_0_r. ring.
Qed.

(** The transform of a product modulo X^n + 1 is the pointwise product. *)
Lemma ntt_loop_product a b c d :
  length a = (2 ^ logn)%nat -> length b = (2 ^ logn)%nat ->
  length c = (2 ^ logn)%nat -> length d = (2 ^ logn)%nat ->
  Forall rep a -> Forall rep b -> Forall rep c -> Forall rep d ->
  (forall k, (k < 2 ^ logn)%nat -> c.[k] ==[Q] nega_coeff (2 ^ logn) (get a) (get b) k) ->
  (forall i, (i < 2 ^ logn)%nat ->
     d.[i] ==[Q] (ntt_loop o gm logn a).[i] * (ntt_loop o gm logn b).[i]) ->
  ntt_loop o gm logn c = d.
Proof.
  intros La Lb Lc Ld Ra Rb Rc Rd Hc Hd.
  destruct (ntt_loop_ok logn c Hn Lc Rc) as [HF HL].
  apply get_ext; [lia|]. intros i Hi. rewrite HL, Lc in Hi.
  apply mr_unique; [apply get_Forall; [done|lia]..|].
  rewrite Hd, !ntt_loop_eval by done.
  rewrite <- peval_nega by (apply rho_pow; done).
  by apply peval_cong.
Qed.
End Product.
End Correct.

(** ** Longer arrays *)

(** The butterflies stay within the first [2^logn] words, whatever is behind. *)
Section Prefix.
Context (o : ntt_ops).

Lemma set_app_l (a r : list Z) i v : (i < length a)%nat -> (a ++ r).[i <- v] = a.[i <- v] ++ r.
Proof. intros Hi. unfold set. by rewrite insert_app_l. Qed.

Lemma ntt_block_app ht j0 s a r :
  (j0 + 2 * ht <= length a)%nat ->
  ntt_block o ht j0 s (a ++ r) = ntt_block o ht j0 s a ++ r /\ length (ntt_block o ht j0 s a) = length a.
Proof.
  intros Hj. unfold ntt_block.
  apply (for_sim (fun _ x y => x = y ++ r /\ length y = length a)); [done|].
  intros j x y Hlt [-> Hy]. rewrite !get_app_l, !set_app_l by (rewrite ?length_set; lia). by rewrite !length_set.
Qed.

Lemma intt_block_app t j0 s a r :
  (j0 + 2 * t <= length a)%nat ->
  intt_block o t j0 s (a ++ r) = intt_block o t j0 s a ++ r /\ length (intt_block o t j0 s a) = length a.
Proof.
  intros Hj. unfold intt_block.
  apply (for_sim (fun _ x y => x = y ++ r /\ length y = length a)); [done|].
  intros j x y Hlt [-> Hy]. rewrite !get_app_l, !set_app_l by (rewrite ?length_set; lia). by rewrite !length_set.
Qed.

Lemma ntt_layer_app gm m h a r :
  length a = (m * (2 * h))%nat ->
  ntt_layer o gm m (2 * h) (a ++ r) = ntt_layer o gm m (2 * h) a ++ r /\ length (ntt_layer o gm m (2 * h) a) = length a.
Proof.
  intros Ha. unfold ntt_layer. rewrite (Nat.mul_comm 2 h), Nat.div_mul, (Nat.mul_comm h 2) by lia.
  assert (forall x y : list Z * nat, fst x = fst y ++ r /\ snd x = snd y /\ snd y = (m * (2 * h))%nat /\ length (fst y) = length a ->
    fst x = fst y ++ r /\ length (fst y) = length a) as Hout by (intros x y H; split; apply H).
  apply Hout. apply (for_sim (fun c x y => fst x = fst y ++ r /\ snd x = snd y /\ snd y = (c * (2 * h))%nat /\ length (fst y) = length a)).
  { done. }
  intros c [x jx] [y jy] Hc. cbn [fst snd]. intros (-> & -> & -> & Hy).
  destruct (ntt_block_app h (c * (2 * h)) gm.[c + m] y r) as [E L]; [nia|]. rewrite E. split; [done|]. split; [done|]. split; [lia|lia].
Qed.

Lemma intt_layer_app igm m h a r :
  length a = (m * (2 * h))%nat ->
  intt_layer o igm m h (a ++ r) = intt_layer o igm m h a ++ r /\ length (intt_layer o igm m h a) = length a.
Proof.
  intros Ha. unfold intt_layer.
  assert (forall x y : list Z * nat, fst x = fst y ++ r /\ snd x = snd y /\ snd y = (m * (2 * h))%nat /\ length (fst y) = length a ->
    fst x = fst y ++ r /\ length (fst y) = length a) as Hout by (intros x y H; split; apply H).
  apply Hout. apply (for_sim (fun c x y => fst x = fst y ++ r /\ snd x = snd y /\ snd y = (c * (2 * h))%nat /\ length (fst y) = length a)).
  { done. }
  intros c [x jx] [y jy] Hc. cbn [fst snd]. intros (-> & -> & -> & Hy).
  destruct (intt_block_app h (c * (2 * h)) igm.[c + m] y r) as [E L]; [nia|]. rewrite E. split; [done|]. split; [done|]. split; [lia|lia].
Qed.

Lemma ntt_loop_app gm logn a r :
  length a = (2 ^ logn)%nat ->
  ntt_loop o gm logn (a ++ r) = ntt_loop o gm logn a ++ r /\ length (ntt_loop o gm logn a) = length a.
Proof.
  intros Ha. unfold ntt_loop.
  set (R := fun (c : nat) (x y : list Z * nat) =>
    fst x = fst y ++ r /\ snd x = snd y /\ snd y = (2 ^ (logn - c))%nat /\ length (fst y) = length a).
  enough (forall x y, R logn x y -> fst x = fst y ++ r /\ length (fst y) = length a) as Hout.
  { apply Hout. apply (for_sim R); [unfold R; cbn [fst snd]; by rewrite Nat.sub_0_r|].
    intros c [x tx] [y ty] Hc. unfold R. cbn [fst snd]. intros (-> & -> & -> & Hy).
    rewrite (pow2_half logn c Hc).
    destruct (ntt_layer_app gm (2 ^ c) (2 ^ (logn - S c)) y r) as [E L].
    { rewrite Hy, Ha, <- (pow2_half logn c Hc). apply pow2_split. lia. }
    rewrite E. split; [done|]. split; [done|]. split; [rewrite Nat.mul_comm; apply Nat.div_mul; lia|lia]. }
  intros x y H. split; apply H.
Qed.

Lemma intt_loop_app igm logn a r :
  length a = (2 ^ logn)%nat ->
  intt_loop o igm logn (a ++ r) = intt_loop o igm logn a ++ r /\ length (intt_loop o igm logn a) = length a.
Proof.
  intros Ha. unfold intt_loop.
  set (R := fun (c : nat) (x y : list Z * nat) =>
    fst x = fst y ++ r /\ snd x = snd y /\ snd y = (2 ^ c)%nat /\ length (fst y) = length a).
  enough (forall x y, R logn x y -> fst x = fst y ++ r /\ length (fst y) = length a) as Hout.
  { apply Hout. apply (for_sim R); [done|].
    intros c [x tx] [y ty] Hc. unfold R. cbn [fst snd]. intros (-> & -> & -> & Hy).
    destruct (intt_layer_app igm (2 ^ (logn - 1 - c)) (2 ^ c) y r) as [E L].
    { rewrite Hy, Ha, <- Nat.pow_succ_r', <- Nat.pow_add_r. f_equal. lia. }
    rewrite E. split; [done|]. split; [done|]. split; [by rewrite Nat.pow_succ_r'|lia]. }
  intros x y H. split; apply H.
Qed.

(** What every stored value satisfies, the result satisfies. *)
Lemma ntt_loop_stored (P : Z -> Prop) gm logn a :
  (forall x y, P (op_store o (op_add o x y))) -> (forall x y, P (op_store o (op_sub o x y))) ->
  Forall P a -> Forall P (ntt_loop o gm logn a).
Proof.
  intros Hadd Hsub Ha. unfold ntt_loop.
  apply (for_ind (fun _ (st : list Z * nat) => Forall P (fst st))); [done|].
  intros l [b t] _ Hb. cbn [fst] in *. unfold ntt_layer.
  apply (for_ind (fun _ (st : list Z * nat) => Forall P (fst st))); [done|].
  intros i [c j0] _ Hc. cbn [fst] in *. unfold ntt_block.
  apply (for_ind (fun _ c => Forall P c)); [done|].
  intros j d _ Hd. unfold set. by repeat apply Forall_insert.
Qed.
End Prefix.
