(* ===== verification/MqPoly.v ===== *)
(** Polynomials modulo q and X^n + 1 ([pkg/fndsa/mq.go], polynomial part).

    A polynomial is the list of its n = 2^logn coefficients.  Representations:
    "ext" has coefficients in [0, q-1], "int" in [1, q], "ntt" is the transform
    of an "int" polynomial.  The in-place routines return the new array. *)
From Stdlib Require Import ZArith Lia.
From stdpp Require Import base numbers list.
From S2P Require Import Prelude Mq Ntt MqTables.
Local Open Scope Z_scope.

(** ** Conversions *)

Definition mqpoly_small_to_int (logn : nat) (f d : list Z) : list Z :=
  let n := (2 ^ logn)%nat in
  for_ n (fun i d =>
    let x := -% (u32 f.[i]) in
    let x := x +% (q .& (x .>> 16)) in
    d.[i <- u16 (q -% x)]) d.

Definition mqpoly_int_to_small (logn : nat) (d f : list Z) : list Z * bool :=
  let n := (2 ^ logn)%nat in
  let '(f, ov) := for_ n (fun i '(f, ov) =>
    let x := mq_add d.[i] 128 in
    let ov := ov .| (x .>> 8) in
    (f.[i <- i8 (x -% 128)], ov)) (f, 0) in
  (f, ov =? 0).

Definition mqpoly_signed_to_int (logn : nat) (f d : list Z) : list Z :=
  let n := (2 ^ logn)%nat in
  for_ n (fun i d =>
    let x := -% (u32 f.[i]) in
    let x := x +% (q .& (x .>> 16)) in
    d.[i <- u16 (q -% x)]) d.

Definition mqpoly_ext_to_int (logn : nat) (a : list Z) : list Z :=
  let n := (2 ^ logn)%nat in
  for_ n (fun i a =>
    let x := a.[i] in
    a.[i <- u16 (x +% (q .& ((x -% 1) .>> 16)))]) a.

Definition mqpoly_int_to_ext (logn : nat) (a : list Z) : list Z :=
  let n := (2 ^ logn)%nat in
  for_ n (fun i a =>
    let x := a.[i] -% q in
    a.[i <- u16 (x +% (q .& (x .>> 16)))]) a.

(** ** Transforms *)

(** The scalar operations of the transform; results are stored as [uint16]. *)
Definition mq_ops : ntt_ops := NttOps mq_add mq_sub mq_half mq_mmul u16.

Definition mqpoly_int_to_ntt (logn : nat) (a : list Z) : list Z :=
  if (logn =? 0)%nat then a else ntt_loop mq_ops mqgm logn a.

Definition mqpoly_ntt_to_int (logn : nat) (a : list Z) : list Z :=
  if (logn =? 0)%nat then a else intt_loop mq_ops mqigm logn a.

(** ** Arithmetic *)

Definition mqpoly_mul_ntt (logn : nat) (a b : list Z) : list Z :=
  let n := (2 ^ logn)%nat in
  for_ n (fun i a => a.[i <- u16 (mq_mmul (mq_mmul a.[i] b.[i]) r2)]) a.

Definition mqpoly_div_ntt (logn : nat) (a b : list Z) : list Z * bool :=
  let n := (2 ^ logn)%nat in
  let '(a, r) := for_ n (fun i '(a, r) =>
    let r := r .& (b.[i] -% q) in
    (a.[i <- u16 (mq_div a.[i] b.[i])], r)) (a, 4294967295) in
  (a, negb (r .>> 31 =? 0)).

Definition mqpoly_sub_int (logn : nat) (a b : list Z) : list Z :=
  let n := (2 ^ logn)%nat in
  for_ n (fun i a => a.[i <- u16 (mq_sub a.[i] b.[i])]) a.

Definition mqpoly_is_invertible (logn : nat) (f tmp : list Z) : bool :=
  let n := (2 ^ logn)%nat in
  let tmp := mqpoly_small_to_int logn f tmp in
  let tmp := mqpoly_int_to_ntt logn tmp in
  let r := for_ n (fun i r => r .& (tmp.[i] -% q)) 4294967295 in
  negb (r .>> 16 =? 0).

(** ** Norms *)

Definition mqpoly_sqnorm (logn : nat) (a : list Z) : Z :=
  let n := (2 ^ logn)%nat in
  let '(s, sat) := for_ n (fun i '(s, sat) =>
    let x := a.[i] in
    let m := (((q - 1) .>> 1) -% x) .>> 16 in
    let y := i32 (x -% (m .& q)) in
    let s := s +% u32 (i32 (y * y)) in
    (s, sat .| s)) (0, 0) in
  s .| (-% (sat .>> 31)).

Definition signed_poly_sqnorm (logn : nat) (a : list Z) : Z :=
  let n := (2 ^ logn)%nat in
  for_ n (fun i s =>
    let x := a.[i] in
    s +% u32 (i32 (x * x))) 0.

Definition sqbeta : list Z := [
  0; (* unused *)
  101498; 208714; 428865; 892039; 1852696; 3842630; 7959734; 16468416; 34034726; 70265242
].

Definition mqpoly_sqnorm_is_acceptable (logn : nat) (norm : Z) : bool :=
  norm <=? sqbeta.[logn].

(** ** The scalar operations form a Montgomery ring *)

#[export] Instance mq_ring : MontRing mq_ops.
Proof.
  refine {| mr_Q := q; mr_Rinv := mq_Rinv; mr_rep := rep |}.
  - by exists 6144.
  - apply rep_cong_eq.
  - intros x Hx. apply u16_small. unfold rep, q in Hx. lia.
  - intros x y Hx Hy. simpl. rewrite mq_add_spec by done. apply norm_q_rep.
  - intros x y Hx Hy. simpl. rewrite mq_add_spec by done. apply norm_q_cong.
  - intros x y Hx Hy. simpl. rewrite mq_sub_spec by done. apply norm_q_rep.
  - intros x y Hx Hy. simpl. rewrite mq_sub_spec by done. apply norm_q_cong.
  - intros x Hx. by apply mq_half_spec.
  - intros x Hx. simpl. rewrite (proj2 (mq_half_spec x Hx)). case_decide; [done|].
    transitivity (x + 1 * q); [cong_ring|apply cong_mul_modulus].
  - intros x y. apply mq_mmul_rep.
  - intros x y. apply mq_mmul_cong.
Defined.

(** The relations between the table entries, decided by computation. *)
Definition roots_ok (k : nat) : bool :=
  let g := mqgm.[k] in
  let ig := mqigm.[k] in
  (1 <=? g) && (g <=? q) && (1 <=? ig) && (ig <=? q) &&
  ((omega mq_ops mqgm k * omega mq_ops mqgm k) mod q =? rho mq_ops mqgm k mod q) &&
  ((2 * g * ig * (mq_Rinv * mq_Rinv)) mod q =? 1).

Lemma roots_all_ok : forallb roots_ok (seq 1 1023) = true.
Proof. vm_compute. reflexivity. Qed.

Lemma roots_ok_k k : (1 <= k < 1024)%nat -> roots_ok k = true.
Proof.
  intros Hk. pose proof (proj1 (forallb_forall _ _) roots_all_ok k) as H. apply H.
  apply in_seq. lia.
Qed.

#[export] Instance mq_roots : NttRoots mq_ops mqgm mqigm 1024.
Proof.
  split; intros k Hk; pose proof (roots_ok_k k Hk) as H; unfold roots_ok in H;
    repeat rewrite andb_true_iff in H; destruct H as [[[[[? ?] ?] ?] H1] H2];
    simpl; unfold rep.
  - lia.
  - lia.
  - split. by apply Z.eqb_eq.
  - split. apply Z.eqb_eq in H2. by rewrite H2.
Qed.

(** ** Correctness of the conversions *)

(** A polynomial of the given degree whose coefficients satisfy [P]. *)
Definition poly (logn : nat) (P : Z -> Prop) (a : list Z) : Prop :=
  length a = (2 ^ logn)%nat /\ Forall P a.

Definition is_ext (x : Z) : Prop := 0 <= x < q.

Lemma poly_get logn P a i : poly logn P a -> (i < 2 ^ logn)%nat -> P a.[i].
Proof. intros [Hl Ha] Hi. apply get_Forall; [done|lia]. Qed.

Lemma poly_fmap logn P Q f a :
  poly logn P a -> (forall x, P x -> Q (f x)) -> poly logn Q (f <$> a).
Proof.
  intros [Hl Ha] Hf. split; [by rewrite length_fmap|].
  apply Forall_fmap. by eapply Forall_impl; [exact Ha|].
Qed.

(** The negation-and-mask sequence of the conversions from signed values. *)
Lemma signed_to_int_cell x :
  - q < x < q -> u16 (q -% (-% (u32 x) +% (q .& ((-% (u32 x)) .>> 16)))) = norm_q x.
Proof.
  intros Hx.
  assert (u32 (- u32 x) = u32 (- x)) as ->.
  { rewrite !u32_mod, <- (Z.sub_0_l (x mod _)), Zminus_mod_idemp_r. f_equal. }
  rewrite wrap_add_q by lia. unfold norm_q, q in *.
  case_decide; rewrite u32_small, u16_small by lia; Z.to_euclidean_division_equations; lia.
Qed.

Lemma mqpoly_small_to_int_spec logn f d :
  poly logn (fun x => - q < x < q) f -> length d = (2 ^ logn)%nat ->
  mqpoly_small_to_int logn f d = norm_q <$> f.
Proof.
  intros Hf Hd. unfold mqpoly_small_to_int.
  apply (for_map_fmap (fun i _ => u16 (q -% (-% (u32 f.[i]) +% (q .& ((-% (u32 f.[i])) .>> 16))))));
    [done|apply Hf|].
  intros i Hi. apply signed_to_int_cell. exact (poly_get logn _ f i Hf Hi).
Qed.

Lemma mqpoly_signed_to_int_spec logn f d :
  poly logn (fun x => - q < x < q) f -> length d = (2 ^ logn)%nat ->
  mqpoly_signed_to_int logn f d = norm_q <$> f.
Proof. apply mqpoly_small_to_int_spec. Qed.

Lemma mqpoly_ext_to_int_spec logn a :
  poly logn is_ext a -> mqpoly_ext_to_int logn a = norm_q <$> a.
Proof.
  intros Ha. unfold mqpoly_ext_to_int.
  apply (for_map_fmap (fun _ x => u16 (x +% (q .& ((x -% 1) .>> 16))))); [apply Ha..|].
  intros i Hi. pose proof (poly_get logn _ a i Ha Hi) as Hx. revert Hx.
  generalize a.[i]. unfold is_ext. intros x Hx.
  destruct (decide (x = 0)) as [->|]; [done|].
  rewrite (u32_small (x - 1)), mask_q_pos by (unfold q in *; lia).
  rewrite Z.add_0_r, u32_small, u16_small by (unfold q in *; lia).
  symmetry. apply norm_q_id. unfold rep. lia.
Qed.

Lemma mqpoly_int_to_ext_spec logn a :
  poly logn rep a -> mqpoly_int_to_ext logn a = (fun x => x mod q) <$> a.
Proof.
  intros Ha. unfold mqpoly_int_to_ext.
  apply (for_map_fmap (fun _ x => u16 (x -% q +% (q .& ((x -% q) .>> 16))))); [apply Ha..|].
  intros i Hi. pose proof (poly_get logn _ a i Ha Hi) as Hx. revert Hx.
  generalize a.[i]. unfold rep. intros x Hx. rewrite wrap_add_q by lia.
  unfold q in *. case_decide; rewrite u16_small by lia; Z.to_euclidean_division_equations; lia.
Qed.

(** ext and int are inverse of each other. *)
Lemma mqpoly_ext_int_ext logn a :
  poly logn is_ext a -> mqpoly_int_to_ext logn (mqpoly_ext_to_int logn a) = a.
Proof.
  intros Ha. rewrite mqpoly_ext_to_int_spec by done.
  rewrite mqpoly_int_to_ext_spec by (apply (poly_fmap logn is_ext); [done|intros; apply norm_q_rep]).
  rewrite <- list_fmap_compose.
  transitivity (id <$> a); [|by rewrite list_fmap_id].
  apply Forall_fmap_ext. eapply Forall_impl; [apply Ha|].
  intros x Hx. unfold is_ext in Hx. simpl. rewrite norm_q_mod. by apply Z.mod_small.
Qed.

(** On words in 1..q it changes nothing. *)
Lemma mqpoly_ext_to_int_rep logn a : poly logn rep a -> mqpoly_ext_to_int logn a = a.
Proof.
  intros Ha. transitivity (id <$> a); [|by rewrite list_fmap_id]. unfold mqpoly_ext_to_int.
  apply (for_map_fmap (fun _ x => u16 (x +% (q .& ((x -% 1) .>> 16))))); [apply Ha..|].
  intros i Hi. pose proof (poly_get logn _ a i Ha Hi) as Hx. revert Hx. generalize a.[i]. unfold rep. intros x Hx.
  rewrite (u32_small (x - 1)), mask_q_pos by (unfold q in *; lia). rewrite Z.add_0_r, u32_small, u16_small by (unfold q in *; lia). done.
Qed.

Lemma mqpoly_int_ext_int logn a :
  poly logn rep a -> mqpoly_ext_to_int logn (mqpoly_int_to_ext logn a) = a.
Proof.
  intros Ha. rewrite mqpoly_int_to_ext_spec by done.
  rewrite mqpoly_ext_to_int_spec by
    (apply (poly_fmap logn rep); [done|intros; apply Z.mod_pos_bound; unfold q; lia]).
  rewrite <- list_fmap_compose.
  transitivity (id <$> a); [|by rewrite list_fmap_id].
  apply Forall_fmap_ext. eapply Forall_impl; [apply Ha|].
  intros x Hx. simpl. apply rep_unique; [apply norm_q_rep|done|].
  by rewrite norm_q_mod, Zmod_mod.
Qed.

(** ** Correctness of the transforms *)

Lemma pow2_le_1024 logn : (logn <= 10)%nat -> (2 ^ logn <= 1024)%nat.
Proof. intros. change 1024%nat with (2 ^ 10)%nat. apply Nat.pow_le_mono_r; lia. Qed.

Lemma for_0 {S} (b : nat -> S -> S) s : for_ 0 b s = s.
Proof. done. Qed.

(** The early return for [logn = 0] is the empty loop. *)
Lemma int_to_ntt_loop logn a : mqpoly_int_to_ntt logn a = ntt_loop mq_ops mqgm logn a.
Proof. unfold mqpoly_int_to_ntt. by destruct logn. Qed.
Lemma ntt_to_int_loop logn a : mqpoly_ntt_to_int logn a = intt_loop mq_ops mqigm logn a.
Proof. unfold mqpoly_ntt_to_int. by destruct logn. Qed.

Lemma int_to_ntt_poly logn a :
  (logn <= 10)%nat -> poly logn rep a -> poly logn rep (mqpoly_int_to_ntt logn a).
Proof.
  intros Hn [Hl Ha]. rewrite int_to_ntt_loop. split.
  - rewrite <- Hl. exact (proj2 (ntt_loop_ok mq_ops mqgm mqigm 1024 logn a (pow2_le_1024 _ Hn) Hl Ha)).
  - exact (proj1 (ntt_loop_ok mq_ops mqgm mqigm 1024 logn a (pow2_le_1024 _ Hn) Hl Ha)).
Qed.

Lemma ntt_to_int_poly logn a :
  (logn <= 10)%nat -> poly logn rep a -> poly logn rep (mqpoly_ntt_to_int logn a).
Proof.
  intros Hn [Hl Ha]. rewrite ntt_to_int_loop. split.
  - rewrite <- Hl. exact (proj2 (intt_loop_ok mq_ops mqgm mqigm 1024 logn a (pow2_le_1024 _ Hn) Hl Ha)).
  - exact (proj1 (intt_loop_ok mq_ops mqgm mqigm 1024 logn a (pow2_le_1024 _ Hn) Hl Ha)).
Qed.

Lemma ntt_to_int_to_ntt logn a :
  (logn <= 10)%nat -> poly logn rep a ->
  mqpoly_ntt_to_int logn (mqpoly_int_to_ntt logn a) = a.
Proof.
  intros Hn [Hl Ha]. rewrite int_to_ntt_loop, ntt_to_int_loop.
  exact (intt_ntt_loop mq_ops mqgm mqigm 1024 logn a (pow2_le_1024 _ Hn) Hl Ha).
Qed.

Lemma int_to_ntt_to_int logn a :
  (logn <= 10)%nat -> poly logn rep a ->
  mqpoly_int_to_ntt logn (mqpoly_ntt_to_int logn a) = a.
Proof.
  intros Hn [Hl Ha]. rewrite int_to_ntt_loop, ntt_to_int_loop.
  exact (ntt_intt_loop mq_ops mqgm mqigm 1024 logn a (pow2_le_1024 _ Hn) Hl Ha).
Qed.

(** The product of two polynomials modulo q and X^n + 1, in [1, q]. *)
Definition nega_mul (logn : nat) (a b : list Z) : list Z :=
  (fun k => norm_q (nega_coeff (2 ^ logn) (get a) (get b) k)) <$> seq 0 (2 ^ logn).

Lemma get_fmap_seq (f : nat -> Z) n i : (i < n)%nat -> (f <$> seq 0 n).[i] = f i.
Proof. intros Hi. unfold get. rewrite list_lookup_fmap, lookup_seq_lt by done. done. Qed.

Lemma nega_mul_poly logn a b : poly logn rep (nega_mul logn a b).
Proof.
  unfold nega_mul. split; [by rewrite length_fmap, length_seq|].
  apply Forall_fmap, Forall_forall. intros; apply norm_q_rep.
Qed.

Lemma mul_ntt_cell x y : rep x -> rep y -> u16 (mq_mmul (mq_mmul x y) r2) = norm_q (x * y).
Proof.
  intros Hx Hy. assert (rep r2) by (unfold rep, r2, q; lia).
  assert (rep (mq_mmul (mq_mmul x y) r2)) as Hr by eauto using mq_mmul_rep.
  rewrite u16_small by (unfold rep, q in Hr; lia).
  apply rep_cong_eq; [done|apply norm_q_rep|].
  rewrite !mq_mmul_cong, norm_q_cong by eauto using mq_mmul_rep.
  transitivity (x * y * (mq_Rinv * r2 * mq_Rinv)); [cong_ring|].
  assert (mq_Rinv * r2 * mq_Rinv ==[q] 1) as -> by (split; reflexivity). cong_ring.
Qed.

Lemma mul_ntt_get logn a b :
  poly logn rep a -> poly logn rep b ->
  poly logn rep (mqpoly_mul_ntt logn a b) /\
  forall i, (i < 2 ^ logn)%nat -> (mqpoly_mul_ntt logn a b).[i] = norm_q (a.[i] * b.[i]).
Proof.
  intros Ha Hb. unfold mqpoly_mul_ntt.
  destruct (for_map_get (fun i x => u16 (mq_mmul (mq_mmul x b.[i]) r2)) (2 ^ logn) a)
    as (HL & HG & _); [destruct Ha; lia|].
  assert (HG' : forall i, (i < 2 ^ logn)%nat ->
    (for_ (2 ^ logn) (fun i a => a.[i <- u16 (mq_mmul (mq_mmul a.[i] b.[i]) r2)]) a).[i] =
    norm_q (a.[i] * b.[i])).
  { intros i Hi. rewrite HG by done. by apply mul_ntt_cell; [apply (poly_get logn _ a)|apply (poly_get logn _ b)]. }
  split; [split|done].
  - rewrite HL. apply Ha.
  - apply Forall_get. intros i Hi. rewrite HL, (proj1 Ha) in Hi. rewrite HG' by done. apply norm_q_rep.
Qed.

(** The transform of the product is the pointwise product of the transforms. *)
Lemma mul_ntt_product logn a b :
  (logn <= 10)%nat -> poly logn rep a -> poly logn rep b ->
  mqpoly_mul_ntt logn (mqpoly_int_to_ntt logn a) (mqpoly_int_to_ntt logn b) =
  mqpoly_int_to_ntt logn (nega_mul logn a b).
Proof.
  intros Hn Ha Hb.
  pose proof (int_to_ntt_poly logn a Hn Ha) as HA. pose proof (int_to_ntt_poly logn b Hn Hb) as HB.
  destruct (mul_ntt_get logn _ _ HA HB) as [Hp Hg]. pose proof (nega_mul_poly logn a b) as Hc.
  rewrite (int_to_ntt_loop logn (nega_mul _ _ _)). symmetry.
  apply (ntt_loop_product mq_ops mqgm mqigm 1024 logn (pow2_le_1024 _ Hn) a b);
    try apply Ha; try apply Hb; try apply Hc; try apply Hp.
  - intros k Hk. unfold nega_mul. rewrite get_fmap_seq by done. apply norm_q_cong.
  - intros i Hi. rewrite Hg by done. rewrite !int_to_ntt_loop. apply norm_q_cong.
Qed.

(** ** Division and invertibility *)

(** A difference [b - q] has its high half all ones, or is zero for b = q. *)
Lemma sub_q_mask b : rep b -> b <> q -> (b -% q) .>> 16 = 65535.
Proof.
  unfold rep. intros Hb Hne. rewrite u32_neg by (unfold q in *; lia). rewrite shr_div by lia.
  symmetry. apply (Z.div_unique_pos _ _ _ (b - q + 65536)); unfold q in *; lia.
Qed.

(** The accumulated mask tells whether some value was zero modulo q. *)
Definition mask_inv (n : nat) (b : list Z) (r : Z) : Prop :=
  (forall i, (i < n)%nat -> b.[i] <> q) /\ r .>> 16 = 65535 \/
  (exists i, (i < n)%nat /\ b.[i] = q) /\ r = 0.

Lemma mask_inv_0 b : mask_inv 0 b 4294967295.
Proof. left. split; [intros; lia|done]. Qed.

Lemma mask_inv_S n b r : rep b.[n] -> mask_inv n b r -> mask_inv (S n) b (r .& (b.[n] -% q)).
Proof.
  intros Hb [[Hall Hr]|[(i & Hi & Hz) ->]]; [|right; split; [exists i; lia|done]].
  destruct (decide (b.[n] = q)) as [Hq|Hq].
  - right. split; [exists n; lia|]. rewrite Hq, Z.sub_diag. apply Z.land_0_r.
  - left. split.
    + intros i Hi. destruct (decide (i = n)) as [->|]; [done|apply Hall; lia].
    + by rewrite Z.shiftr_land, Hr, sub_q_mask.
Qed.

Lemma mask_inv_bits n b r :
  mask_inv n b r ->
  (r .>> 16 <> 0 <-> forall i, (i < n)%nat -> b.[i] <> q) /\
  (r .>> 31 <> 0 <-> forall i, (i < n)%nat -> b.[i] <> q).
Proof.
  assert (r .>> 31 = (r .>> 16) .>> 15) as -> by (by rewrite Z.shiftr_shiftr by lia).
  intros [[Hall Hr]|[(i & Hi & Hz) Hr]].
  - rewrite Hr. by repeat split.
  - rewrite Hr. split; split; [done| |done|]; intros H; by destruct (H i Hi).
Qed.

Lemma mqpoly_div_ntt_spec logn a b :
  poly logn rep a -> poly logn rep b ->
  let '(c, ok) := mqpoly_div_ntt logn a b in
  poly logn rep c /\
  (forall i, (i < 2 ^ logn)%nat -> b.[i] <> q -> c.[i] * b.[i] ==[q] a.[i]) /\
  (ok = true <-> forall i, (i < 2 ^ logn)%nat -> b.[i] <> q).
Proof.
  intros Ha Hb. unfold mqpoly_div_ntt.
  set (F := fun (i : nat) (x : Z) => u16 (mq_div x b.[i])).
  assert (Hr : forall i x, (i < 2 ^ logn)%nat -> rep x -> rep (mq_div x b.[i]) /\ F i x = mq_div x b.[i]).
  { intros i x Hi Hx. destruct (mq_div_spec x b.[i] Hx) as [Hd _]; [by apply (poly_get logn _ b)|].
    split; [done|]. apply u16_small. unfold rep, q in Hd. lia. }
  assert (Hl : forall st, st = for_ (2 ^ logn) (fun i '(a, r) =>
      let r := r .& (b.[i] -% q) in (a.[i <- u16 (mq_div a.[i] b.[i])], r)) (a, 4294967295) ->
    fst st = for_ (2 ^ logn) (fun i a => a.[i <- F i a.[i]]) a /\ mask_inv (2 ^ logn) b (snd st)).
  { intros st ->. apply (for_sim (fun c st t => fst st = t /\ mask_inv c b (snd st))
      (2 ^ logn) _ (fun i a => a.[i <- F i a.[i]]) (a, 4294967295) a).
    - split; [done|apply mask_inv_0].
    - intros i [x r] t Hi [Hx Hm]. simpl in Hx, Hm. subst x. split; [done|].
      apply mask_inv_S; [by apply (poly_get logn _ b)|done]. }
  destruct (for_ _ _ _) as [c r]. destruct (Hl _ eq_refl) as [Hc Hm]. simpl in Hc, Hm. subst c.
  destruct (for_map_get F (2 ^ logn) a) as (HL & HG & _); [destruct Ha; lia|].
  split; [|split].
  - split; [rewrite HL; apply Ha|]. apply Forall_get. intros i Hi.
    rewrite HL, (proj1 Ha) in Hi. rewrite HG by done.
    destruct (Hr i a.[i] Hi) as [? ->]; [by apply (poly_get logn _ a)|done].
  - intros i Hi Hne. rewrite HG by done.
    destruct (Hr i a.[i] Hi) as [_ ->]; [by apply (poly_get logn _ a)|].
    apply mq_div_spec; [by apply (poly_get logn _ a)|by apply (poly_get logn _ b)|done].
  - rewrite negb_true_iff, Z.eqb_neq. apply (mask_inv_bits _ _ _ Hm).
Qed.

Lemma mqpoly_is_invertible_spec logn f tmp :
  (logn <= 10)%nat -> poly logn (fun x => - q < x < q) f -> length tmp = (2 ^ logn)%nat ->
  mqpoly_is_invertible logn f tmp = true <->
  forall i, (i < 2 ^ logn)%nat -> (mqpoly_int_to_ntt logn (norm_q <$> f)).[i] <> q.
Proof.
  intros Hn Hf Ht. unfold mqpoly_is_invertible. rewrite mqpoly_small_to_int_spec by done.
  assert (Hp : poly logn rep (mqpoly_int_to_ntt logn (norm_q <$> f))).
  { apply int_to_ntt_poly; [done|]. apply (poly_fmap logn _ _ _ f Hf). intros; apply norm_q_rep. }
  revert Hp. generalize (mqpoly_int_to_ntt logn (norm_q <$> f)). intros b Hp.
  rewrite negb_true_iff, Z.eqb_neq. set (r := for_ _ _ _).
  assert (Hm : mask_inv (2 ^ logn) b r).
  { unfold r. apply (for_ind (fun c r => mask_inv c b r)); [apply mask_inv_0|].
    intros i x Hi Hx. apply mask_inv_S; [by apply (poly_get logn _ _ i Hp)|done]. }
  exact (proj1 (mask_inv_bits _ _ _ Hm)).
Qed.

(** Only the first [2^logn] words of the scratch array count. *)
Lemma mqpoly_is_invertible_take logn f tmp :
  (2 ^ logn <= length tmp)%nat -> mqpoly_is_invertible logn f tmp = mqpoly_is_invertible logn f (take (2 ^ logn) tmp).
Proof.
  intros Ht. unfold mqpoly_is_invertible. pose proof (length_take tmp (2 ^ logn)%nat) as Lb. rewrite Nat.min_l in Lb by lia.
  assert (tmp = take (2 ^ logn) tmp ++ drop (2 ^ logn) tmp) as E by (by rewrite take_drop).
  set (b := take (2 ^ logn) tmp) in *. set (r := drop (2 ^ logn) tmp) in *. clearbody b r. clear Ht. subst tmp. set (a := mqpoly_small_to_int logn f b).
  assert (length a = (2 ^ logn)%nat /\ mqpoly_small_to_int logn f (b ++ r) = a ++ r) as [La ->].
  { unfold a, mqpoly_small_to_int. apply (for_sim (fun _ x y => length y = (2 ^ logn)%nat /\ x = y ++ r)); [done|].
    intros i x y Hi [Ly ->]. cbv zeta. rewrite length_set. split; [done|]. by rewrite set_app_l by lia. }
  assert (length (mqpoly_int_to_ntt logn a) = (2 ^ logn)%nat /\
    mqpoly_int_to_ntt logn (a ++ r) = mqpoly_int_to_ntt logn a ++ r) as [L ->].
  { unfold mqpoly_int_to_ntt. destruct (logn =? 0)%nat; [done|].
    destruct (ntt_loop_app mq_ops mqgm logn a r La) as [-> ->]. done. }
  f_equal. f_equal. f_equal. apply for_ext. intros i x Hi. by rewrite get_app_l by lia.
Qed.

(** Dividing transforms and going back: h with h f = g in the ring. *)
Lemma div_ntt_product logn f g :
  (logn <= 10)%nat -> poly logn rep f -> poly logn rep g ->
  let '(c, ok) := mqpoly_div_ntt logn (mqpoly_int_to_ntt logn g) (mqpoly_int_to_ntt logn f) in
  ok = true -> nega_mul logn (mqpoly_ntt_to_int logn c) f = g.
Proof.
  intros Hn Hf Hg.
  pose proof (int_to_ntt_poly logn f Hn Hf) as HF. pose proof (int_to_ntt_poly logn g Hn Hg) as HG.
  pose proof (mqpoly_div_ntt_spec logn _ _ HG HF) as Hs.
  destruct (mqpoly_div_ntt _ _ _) as [c ok]. destruct Hs as (Hc & Hd & Hok). intros ->.
  assert (Hne := proj1 Hok eq_refl).
  pose proof (ntt_to_int_poly logn c Hn Hc) as Hh. set (h := mqpoly_ntt_to_int logn c) in *.
  assert (Hhc : mqpoly_int_to_ntt logn h = c) by (by apply int_to_ntt_to_int).
  rewrite <- (ntt_to_int_to_ntt logn g), <- (ntt_to_int_to_ntt logn (nega_mul logn h f))
    by eauto using nega_mul_poly.
  f_equal. rewrite <- mul_ntt_product, Hhc by done.
  destruct (mul_ntt_get logn c _ Hc HF) as [Hp Hg'].
  apply get_ext; [by rewrite (proj1 Hp), (proj1 HG)|].
  intros i Hi. rewrite (proj1 Hp) in Hi. rewrite Hg' by done.
  apply rep_cong_eq; [apply norm_q_rep|by apply (poly_get logn)|].
  rewrite norm_q_cong. apply Hd; [done|]. by apply Hne.
Qed.

(** ** Subtraction and small output *)

Lemma mqpoly_sub_int_spec logn a b :
  poly logn rep a -> poly logn rep b ->
  poly logn rep (mqpoly_sub_int logn a b) /\
  forall i, (i < 2 ^ logn)%nat -> (mqpoly_sub_int logn a b).[i] = norm_q (a.[i] - b.[i]).
Proof.
  intros Ha Hb. unfold mqpoly_sub_int.
  destruct (for_map_get (fun i x => u16 (mq_sub x b.[i])) (2 ^ logn) a) as (HL & HG & _);
    [destruct Ha; lia|].
  assert (HG' : forall i, (i < 2 ^ logn)%nat ->
    (for_ (2 ^ logn) (fun i a => a.[i <- u16 (mq_sub a.[i] b.[i])]) a).[i] = norm_q (a.[i] - b.[i])).
  { intros i Hi. rewrite HG, mq_sub_spec by (try done; by apply (poly_get logn)).
    pose proof (norm_q_rep (a.[i] - b.[i])) as Hr. apply u16_small. unfold rep, q in Hr. lia. }
  split; [split|done].
  - rewrite HL. apply Ha.
  - apply Forall_get. intros i Hi. rewrite HL, (proj1 Ha) in Hi. rewrite HG' by done. apply norm_q_rep.
Qed.

(** The signed representative of smallest absolute value. *)
Definition center (x : Z) : Z := if x <=? 6144 then x else x - q.

Lemma lor_zero x y : 0 <= x -> 0 <= y -> (x .| y = 0 <-> x = 0 /\ y = 0).
Proof. intros. apply Z.lor_eq_0_iff. Qed.

Lemma small_cell d :
  rep d -> let x := mq_add d 128 in
  (x .>> 8 = 0 <-> -127 <= center d <= 127) /\
  (-127 <= center d <= 127 -> i8 (x -% 128) = center d).
Proof.
  intros Hd. cbv zeta. rewrite mq_add_spec by (try done; unfold rep, q; lia).
  pose proof (norm_q_rep (d + 128)) as Hr. unfold rep, norm_q, center in *.
  rewrite shr_div by lia. change (2 ^ 8) with 256.
  assert (((d + 128 - 1) mod q + 1) = if decide (d + 128 <= q) then d + 128 else d + 128 - q) as ->.
  { case_decide.
    - rewrite Z.mod_small by (unfold q in *; lia). lia.
    - rewrite <- (Z.mod_unique_pos _ q 1 (d + 127 - q)); unfold q in *; lia. }
  unfold q in *. destruct (Z.leb_spec d 6144).
  - rewrite decide_True by lia. split; [Z.to_euclidean_division_equations; lia|].
    intros. rewrite u32_small, i8_small by lia. lia.
  - case_decide.
    + split; [Z.to_euclidean_division_equations; lia|lia].
    + split; [Z.to_euclidean_division_equations; lia|]. intros.
      unfold i8, u8. rewrite u32_mod.
      replace (d + 128 - 12289 - 128) with (d - 12289) by lia.
      change 255 with (Z.ones 8). rewrite Z.land_ones by lia.
      Z.to_euclidean_division_equations. lia.
Qed.

(** Success exactly when every coefficient is in [-127, 127], and then the
    output is the centred polynomial. *)
Lemma mqpoly_int_to_small_spec logn d f :
  poly logn rep d -> length f = (2 ^ logn)%nat ->
  let '(g, ok) := mqpoly_int_to_small logn d f in
  length g = (2 ^ logn)%nat /\
  (ok = true <-> forall i, (i < 2 ^ logn)%nat -> -127 <= center d.[i] <= 127) /\
  (ok = true -> g = center <$> d).
Proof.
  intros Hd Hf. unfold mqpoly_int_to_small.
  set (F := fun (i : nat) (_ : Z) => i8 (mq_add d.[i] 128 -% 128)).
  assert (Hl : forall st, st = for_ (2 ^ logn) (fun i '(f, ov) =>
      let x := mq_add d.[i] 128 in let ov := ov .| (x .>> 8) in
      (f.[i <- i8 (x -% 128)], ov)) (f, 0) ->
    fst st = for_ (2 ^ logn) (fun i a => a.[i <- F i a.[i]]) f /\
    0 <= snd st /\
    (snd st = 0 <-> forall i, (i < 2 ^ logn)%nat -> -127 <= center d.[i] <= 127)).
  { intros st ->. apply (for_sim (fun c st t => fst st = t /\ 0 <= snd st /\
      (snd st = 0 <-> forall i, (i < c)%nat -> -127 <= center d.[i] <= 127))
      (2 ^ logn) _ (fun i a => a.[i <- F i a.[i]]) (f, 0) f).
    - simpl. repeat split; intros; lia.
    - intros i [x ov] t Hi (Hx & Hp & Ho). simpl in Hx, Hp, Ho. subst x.
      pose proof (poly_get logn _ d i Hd Hi) as Hdi.
      destruct (small_cell d.[i] Hdi) as [Hc _].
      assert (0 <= mq_add d.[i] 128 .>> 8).
      { apply Z.shiftr_nonneg. rewrite mq_add_spec by (try done; unfold rep, q; lia).
        pose proof (norm_q_rep (d.[i] + 128)) as Hr. unfold rep in Hr. lia. }
      split; [done|]. simpl. split; [by apply Z.lor_nonneg|].
      rewrite lor_zero, Ho, Hc by done. split.
      + intros [H1 H2] j Hj. destruct (decide (j = i)) as [->|]; [done|]. apply H1. lia.
      + intros H1. split; [intros; apply H1; lia|apply H1; lia]. }
  destruct (for_ _ _ (f, 0)) as [g ov]. destruct (Hl _ eq_refl) as (Hg & Hp & Ho).
  simpl in Hg, Hp, Ho. subst g.
  split; [by rewrite for_map_length|]. split; [by rewrite Z.eqb_eq|].
  rewrite Z.eqb_eq, Ho. intros Hs. apply for_map_fmap; [done|apply Hd|].
  intros i Hi. apply small_cell; [by apply (poly_get logn _ d)|by apply Hs].
Qed.

(** ** Norms *)

Definition sqnorm (a : list Z) : Z := foldr (fun x s => x * x + s) 0 a.

Lemma sqnorm_nonneg a : 0 <= sqnorm a.
Proof. induction a as [|x a IH]; simpl; nia. Qed.

Lemma sqnorm_app a b : sqnorm (a ++ b) = sqnorm a + sqnorm b.
Proof. induction a as [|x a IH]; simpl; lia. Qed.

Lemma sqnorm_take_S a n :
  (n < length a)%nat -> sqnorm (take (S n) a) = sqnorm (take n a) + a.[n] * a.[n].
Proof.
  intros Hn. rewrite (take_S_r a n a.[n]) by (by apply lookup_get).
  rewrite sqnorm_app. simpl. lia.
Qed.

Lemma sqnorm_take_le a n : sqnorm (take n a) <= sqnorm a.
Proof.
  rewrite <- (take_drop n a) at 2. rewrite sqnorm_app.
  pose proof (sqnorm_nonneg (drop n a)). lia.
Qed.

Lemma center_bound x : 0 <= x <= q -> -6144 <= center x <= 6144.
Proof. unfold center, q. intros. destruct (Z.leb_spec x 6144); lia. Qed.

Lemma sqnorm_cell x :
  0 <= x <= q ->
  i32 (x -% (((((q - 1) .>> 1) -% x) .>> 16) .& q)) = center x.
Proof.
  intros Hx. change ((q - 1) .>> 1) with 6144. rewrite Z.land_comm. unfold center.
  destruct (Z.leb_spec x 6144).
  - rewrite (u32_small (6144 - x)), mask_q_pos by lia. rewrite Z.sub_0_r, u32_small, i32_small; lia.
  - rewrite (u32_neg (6144 - x)), mask_q_neg by (unfold q in *; lia).
    unfold q in *. unfold i32, u32. change 4294967295 with (Z.ones 32). rewrite !Z.land_ones by lia.
    Z.to_euclidean_division_equations. lia.
Qed.

(** A 32-bit sum [s] of squares with the disjunction [sat] of its values: below
    2^31 it is the true sum, and bit 31 of [sat] records that it was reached. *)
Record norm_inv (sum s sat : Z) : Prop := NormInv {
  ni_sum : 0 <= sum;
  ni_s : 0 <= s < 2 ^ 32;
  ni_sat : 0 <= sat < 2 ^ 32;
  ni_small : sum < 2 ^ 31 -> s = sum /\ sat .>> 31 = 0;
  ni_big : 2 ^ 31 <= sum -> sat .>> 31 = 1;
}.

Lemma norm_inv_0 : norm_inv 0 0 0.
Proof. by split. Qed.

Lemma norm_inv_step sum s sat d :
  norm_inv sum s sat -> 0 <= d <= 2 ^ 30 -> norm_inv (sum + d) (s +% d) (sat .| (s +% d)).
Proof.
  intros [H0 Hs Hsat Hlt Hge] Hd. pose proof (u32_range (s + d)) as Hr.
  assert (sum < 2 ^ 31 -> s +% d = sum + d) as Hs'.
  { intros Hc. destruct (Hlt Hc) as [-> _]. apply u32_small. lia. }
  set (s' := u32 _) in *. clearbody s'.
  pose proof (lor_lt_pow2 sat s' 32 ltac:(lia) Hsat ltac:(lia)) as Hlor.
  assert (sum < 2 ^ 31 -> sat .>> 31 = 0) as Hz by (intros; by apply Hlt).
  split; [lia|lia|done|..]; intros Hc; rewrite Z.shiftr_lor, (shr31_bit s') by lia.
  - rewrite Hz by lia. rewrite Hs' in * by lia. split; [done|]. by rewrite decide_True by lia.
  - destruct (decide (sum < 2 ^ 31)).
    + rewrite Hz by lia. rewrite Hs' in * by lia. by rewrite decide_False by lia.
    + rewrite Hge by lia. by case_decide.
Qed.

(** The norm of a polynomial modulo q, saturated above 2^31 - 1; coefficients
    may be in either representation. *)
Lemma mqpoly_sqnorm_spec logn a :
  poly logn (fun x => 0 <= x <= q) a ->
  mqpoly_sqnorm logn a =
    let s := sqnorm (center <$> a) in if decide (s < 2 ^ 31) then s else 2 ^ 32 - 1.
Proof.
  intros Ha. unfold mqpoly_sqnorm. set (ca := center <$> a).
  assert (Hca : length ca = (2 ^ logn)%nat) by (unfold ca; rewrite length_fmap; apply Ha).
  match goal with |- context [for_ ?n ?b ?s0] =>
    pose proof (for_ind (fun c st => norm_inv (sqnorm (take c ca)) (fst st) (snd st)) n b s0) as Hl end.
  feed_loop Hl; [exact norm_inv_0| |].
  - intros i [s sat] Hi Hinv. cbv zeta.
    pose proof (poly_get logn _ a i Ha Hi) as Hx. cbv beta in Hx.
    rewrite sqnorm_cell by done. pose proof (center_bound _ Hx) as Hb.
    rewrite sqnorm_take_S by lia.
    assert (ca.[i] = center a.[i]) as -> by (apply get_fmap; destruct Ha; lia).
    assert (0 <= center a.[i] * center a.[i] <= 37748736) by nia.
    rewrite (i32_small (_ * _)), (u32_small (_ * _)) by lia. by apply norm_inv_step; [|lia].
  - destruct (for_ _ _ _) as [s sat]. rewrite <- Hca, firstn_all in Hl.
    destruct Hl as [_ Hs _ Hlt Hge]. cbn [fst snd] in *. cbv zeta. case_decide as Hc.
    + destruct (Hlt Hc) as [-> ->]. change (-% 0) with 0. apply Z.lor_0_r.
    + rewrite Hge by lia. change (-% 1) with (Z.ones 32).
      by rewrite lor_all_ones by lia.
Qed.

(** The norm of a signed polynomial does not overflow for the degrees in use. *)
Lemma signed_poly_sqnorm_spec logn a :
  (logn <= 10)%nat -> poly logn (fun x => -2047 <= x <= 2047) a ->
  signed_poly_sqnorm logn a = sqnorm a /\ sqnorm a < 2 ^ 32.
Proof.
  intros Hn Ha. unfold signed_poly_sqnorm. pose proof (pow2_le_1024 logn Hn) as Hmax.
  assert (H : forall r, r = for_ (2 ^ logn) (fun i s => let x := a.[i] in s +% u32 (i32 (x * x))) 0 ->
    r = sqnorm (take (2 ^ logn) a) /\ r <= Z.of_nat (2 ^ logn) * 4190209).
  { intros r ->. apply (for_ind (fun c r => r = sqnorm (take c a) /\ r <= Z.of_nat c * 4190209)).
    { done. }
    intros i s Hi [-> Hs]. cbv zeta. pose proof (poly_get logn _ a i Ha Hi) as Hx. simpl in Hx.
    rewrite sqnorm_take_S by (destruct Ha; lia). pose proof (sqnorm_nonneg (take i a)).
    assert (0 <= a.[i] * a.[i] <= 4190209) by nia.
    rewrite (i32_small (_ * _)), (u32_small (_ * _)), u32_small by lia. lia. }
  destruct (H _ eq_refl) as [H1 H2]. rewrite <- (proj1 Ha), firstn_all, (proj1 Ha) in H1.
  rewrite <- H1. split; [done|lia].
Qed.

(** * The contracts *)

(** The unit polynomial. *)
Definition mq_one (logn : nat) : list Z := 1 :: replicate (2 ^ logn - 1) q.

Lemma mq_one_poly logn : poly logn rep (mq_one logn).
Proof.
  pose proof (Nat.pow_nonzero 2 logn). split.
  - simpl. rewrite length_replicate. lia.
  - constructor; [unfold rep, q; lia|]. apply Forall_replicate. unfold rep, q; lia.
Qed.

Lemma mq_one_get logn i : (i < 2 ^ logn)%nat -> (mq_one logn).[i] = if (i =? 0)%nat then 1 else q.
Proof.
  intros Hi. unfold mq_one. destruct i as [|i]; [done|]. cbn [Nat.eqb]. apply get_lookup. simpl.
  apply lookup_replicate_2. lia.
Qed.

(** Its transform is one everywhere. *)
Lemma mq_one_ntt logn i : (logn <= 10)%nat -> (i < 2 ^ logn)%nat ->
  (mqpoly_int_to_ntt logn (mq_one logn)).[i] = 1.
Proof.
  intros Hn Hi. destruct (mq_one_poly logn) as [Hl Hf].
  apply rep_cong_eq; [|unfold rep, q; lia|].
  { apply (poly_get logn); [apply int_to_ntt_poly; [done|by split]|done]. }
  rewrite int_to_ntt_loop.
  pose proof (ntt_loop_eval mq_ops mqgm mqigm 1024 logn (pow2_le_1024 _ Hn)
    (mq_one logn) i Hl Hf Hi) as He. cbn [mr_Q mq_ring] in He. rewrite He. unfold peval.
  rewrite (zsum_cong q _ _ (fun j => if (j =? 0)%nat then 1 else 0)).
  - by rewrite zsum_first by (lia || intros [|j] ?; done || lia).
  - intros j Hj. rewrite mq_one_get by done. destruct j as [|j]; [done|]. cbn [Nat.eqb].
    apply cong_iff_divide. exists (rho mq_ops mqgm (2 ^ logn + i) ^ Z.of_nat (S j)). ring.
Qed.

(** The transform and its inverse undo each other, at every degree up to
    1024, on all arrays of representatives. *)
Theorem mqpoly_ntt_roundtrip logn a :
  (logn <= 10)%nat -> poly logn rep a ->
  mqpoly_ntt_to_int logn (mqpoly_int_to_ntt logn a) = a /\
  mqpoly_int_to_ntt logn (mqpoly_ntt_to_int logn a) = a.
Proof. intros. split; [by apply ntt_to_int_to_ntt|by apply int_to_ntt_to_int]. Qed.

(** The in-place butterflies compute the values of the polynomial at the n
    roots of X^n = -1, in the order of the table [mqgm]. *)
Theorem mqpoly_ntt_evaluates logn a i :
  (logn <= 10)%nat -> poly logn rep a -> (i < 2 ^ logn)%nat ->
  let x := rho mq_ops mqgm (2 ^ logn + i) in
  x ^ Z.of_nat (2 ^ logn) ==[q] -1 /\
  (mqpoly_int_to_ntt logn a).[i] ==[q] zsum (2 ^ logn) (fun j => a.[j] * x ^ Z.of_nat j).
Proof.
  intros Hn [Hl Ha] Hi. cbv zeta. rewrite int_to_ntt_loop. split.
  - pose proof (rho_pow mq_ops mqgm mqigm 1024 logn i (pow2_le_1024 _ Hn) Hi) as Hp.
    cbn [mr_Q mq_ring] in Hp. exact Hp.
  - pose proof (ntt_loop_eval mq_ops mqgm mqigm 1024 logn (pow2_le_1024 _ Hn) a i Hl Ha Hi) as He.
    cbn [mr_Q mq_ring] in He. exact He.
Qed.

(** (C38) Transforming, multiplying point by point and transforming back is the
    product modulo X^n + 1 and modulo q: every coefficient of the result is the
    negacyclic convolution sum. *)
Theorem mqpoly_product logn a b :
  (logn <= 10)%nat -> poly logn rep a -> poly logn rep b ->
  let c := mqpoly_ntt_to_int logn
             (mqpoly_mul_ntt logn (mqpoly_int_to_ntt logn a) (mqpoly_int_to_ntt logn b)) in
  poly logn rep c /\
  forall k, (k < 2 ^ logn)%nat ->
    c.[k] ==[q] zsum (2 ^ logn) (fun i =>
      if (i <=? k)%nat then a.[i] * b.[k - i] else - (a.[i] * b.[2 ^ logn + k - i])).
Proof.
  intros Hn Ha Hb. cbv zeta. rewrite mul_ntt_product by done.
  pose proof (nega_mul_poly logn a b) as Hc. rewrite ntt_to_int_to_ntt by done.
  split; [done|]. intros k Hk. unfold nega_mul. rewrite get_fmap_seq by done. apply norm_q_cong.
Qed.

(** [mqpoly_div_ntt] divides in the ring when the divisor has no zero in
    its transform, and reports exactly that: the quotient [h] of [g] by [f]
    satisfies [h f = g]. *)
Theorem mqpoly_quotient logn f g :
  (logn <= 10)%nat -> poly logn rep f -> poly logn rep g ->
  let F := mqpoly_int_to_ntt logn f in
  let '(c, ok) := mqpoly_div_ntt logn (mqpoly_int_to_ntt logn g) F in
  (ok = true <-> forall i, (i < 2 ^ logn)%nat -> F.[i] <> q) /\
  (ok = true -> nega_mul logn (mqpoly_ntt_to_int logn c) f = g).
Proof.
  intros Hn Hf Hg. cbv zeta.
  pose proof (mqpoly_div_ntt_spec logn _ _ (int_to_ntt_poly logn g Hn Hg)
    (int_to_ntt_poly logn f Hn Hf)) as Hs.
  pose proof (div_ntt_product logn f g Hn Hf Hg) as Hp.
  destruct (mqpoly_div_ntt _ _ _) as [c ok]. split; [apply Hs|done].
Qed.

(** [mqpoly_is_invertible] decides invertibility in Z_q[X]/(X^n+1): it is
    true exactly when some polynomial multiplies [f] to one. *)
Theorem mqpoly_is_invertible_iff logn f tmp :
  (logn <= 10)%nat -> poly logn (fun x => -128 <= x < 128) f -> length tmp = (2 ^ logn)%nat ->
  mqpoly_is_invertible logn f tmp = true <->
  exists h, poly logn rep h /\ nega_mul logn h (norm_q <$> f) = mq_one logn.
Proof.
  intros Hn Hf Ht.
  assert (poly logn (fun x => - q < x < q) f) as Hf'.
  { destruct Hf as [Hl Hf]. split; [done|]. eapply Forall_impl; [exact Hf|].
    intros x Hx. cbv beta in *. unfold q. lia. }
  rewrite mqpoly_is_invertible_spec by done.
  assert (poly logn rep (norm_q <$> f)) as Hr
    by (apply (poly_fmap logn _ _ _ f Hf'); intros; apply norm_q_rep).
  revert Hr. generalize (norm_q <$> f). clear f Hf Hf' Ht. intros f Hf. split.
  - intros Hne. pose proof (mq_one_poly logn) as Hone.
    pose proof (mqpoly_div_ntt_spec logn _ _ (int_to_ntt_poly logn _ Hn Hone)
      (int_to_ntt_poly logn f Hn Hf)) as Hs.
    pose proof (div_ntt_product logn f (mq_one logn) Hn Hf Hone) as Hp.
    destruct (mqpoly_div_ntt _ _ _) as [c ok]. destruct Hs as (Hc & _ & Hok).
    apply Hok in Hne. exists (mqpoly_ntt_to_int logn c). split; [by apply ntt_to_int_poly|by apply Hp].
  - intros (h & Hh & He) i Hi Hz.
    pose proof (mul_ntt_product logn h f Hn Hh Hf) as Hm. rewrite He in Hm.
    pose proof (mq_one_ntt logn i Hn Hi) as H1. rewrite <- Hm in H1.
    rewrite (proj2 (mul_ntt_get logn _ _ (int_to_ntt_poly logn h Hn Hh) (int_to_ntt_poly logn f Hn Hf)) i Hi)
      in H1. rewrite Hz in H1.
    assert (1 ==[q] 0) as [H0]; [|done].
    rewrite <- H1, norm_q_cong. apply cong_iff_divide. eexists. rewrite Z.sub_0_r. done.
Qed.

(** Centring and reducing undo each other on representatives. *)
Lemma norm_center d : Forall rep d -> norm_q <$> (center <$> d) = d.
Proof.
  intros Hd. rewrite <- list_fmap_compose. transitivity (id <$> d); [|apply list_fmap_id].
  apply list_fmap_ext. intros i x Hx.
  assert (rep x) as Hrx by (by eapply (Forall_lookup_1 rep)).
  simpl. unfold center. case_match; [by apply norm_q_id|].
  apply rep_unique; [apply norm_q_rep|done|]. rewrite norm_q_mod. unfold id.
  rewrite <- (Z.mod_add (x - q) 1) by done. f_equal. unfold q. lia.
Qed.

(** Rounding back to small coefficients succeeds exactly when every
    coefficient, taken in -6144 .. 6144, lies in -127 .. 127, and then yields
    these coefficients: the check that rejects a key whose G is out of range. *)
Theorem mqpoly_int_to_small_correct logn d f :
  poly logn rep d -> length f = (2 ^ logn)%nat ->
  let '(g, ok) := mqpoly_int_to_small logn d f in
  (ok = true <-> forall i, (i < 2 ^ logn)%nat -> -127 <= center d.[i] <= 127) /\
  (ok = true -> g = center <$> d /\ mqpoly_small_to_int logn g f = d).
Proof.
  intros Hd Hf. pose proof (mqpoly_int_to_small_spec logn d f Hd Hf) as Hs.
  destruct (mqpoly_int_to_small logn d f) as [g ok]. destruct Hs as (Hl & Hok & Hg).
  split; [done|]. intros Hk. specialize (Hg Hk). split; [done|]. subst g.
  rewrite mqpoly_small_to_int_spec; [|split; [done|]|done].
  - apply norm_center, Hd.
  - apply Forall_fmap. destruct Hd as [_ Hd]. eapply Forall_impl; [exact Hd|].
    intros x Hx. unfold rep in Hx. simpl. pose proof (center_bound x). unfold q in *. lia.
Qed.

(** The squared norm of a polynomial modulo q, coefficients centred, is
    exact below 2^31 and saturates to 2^32 - 1 at and above it, although the sum
    is accumulated in 32 bits and wraps. *)
Theorem mqpoly_sqnorm_saturates logn a :
  poly logn (fun x => 0 <= x <= q) a ->
  mqpoly_sqnorm logn a =
    let s := sqnorm (center <$> a) in if decide (s < 2 ^ 31) then s else 2 ^ 32 - 1.
Proof. apply mqpoly_sqnorm_spec. Qed.

(** * The contracts at concrete polynomials *)

Lemma poly2 (P : Z -> Prop) (a b c d : Z) : P a -> P b -> P c -> P d -> poly 2 P [a; b; c; d].
Proof. intros. split; [done|]. by repeat constructor. Qed.

Ltac poly2 := apply poly2; unfold rep, q; lia.

Lemma mqpoly_ntt_roundtrip_witness :
  mqpoly_int_to_ntt 2 [1; 2; 3; 12289] <> [1; 2; 3; 12289] /\
  mqpoly_ntt_to_int 2 (mqpoly_int_to_ntt 2 [1; 2; 3; 12289]) = [1; 2; 3; 12289].
Proof.
  split; [vm_compute; discriminate|].
  apply (mqpoly_ntt_roundtrip 2 [1; 2; 3; 12289]); [lia|poly2].
Defined.

Lemma mqpoly_ntt_evaluates_witness :
  let x := rho mq_ops mqgm 6 in
  (mqpoly_int_to_ntt 2 [1; 2; 3; 4]).[2] ==[q] zsum 4 (fun j => [1; 2; 3; 4].[j] * x ^ Z.of_nat j).
Proof. apply (mqpoly_ntt_evaluates 2 [1; 2; 3; 4] 2); [lia|poly2|simpl; lia]. Defined.

Lemma mqpoly_product_witness :
  (mqpoly_ntt_to_int 2 (mqpoly_mul_ntt 2 (mqpoly_int_to_ntt 2 [1; 2; 3; 4])
     (mqpoly_int_to_ntt 2 [5; 6; 7; 8]))).[0] ==[q] - 56.
Proof.
  destruct (mqpoly_product 2 [1; 2; 3; 4] [5; 6; 7; 8]) as [_ H]; [lia|poly2|poly2|].
  exact (H 0%nat ltac:(simpl; lia)).
Defined.

Lemma mqpoly_quotient_witness :
  let '(c, ok) := mqpoly_div_ntt 2 (mqpoly_int_to_ntt 2 [1; 2; 3; 4]) (mqpoly_int_to_ntt 2 [3; 1; 5; 1]) in
  ok = true /\ nega_mul 2 (mqpoly_ntt_to_int 2 c) [3; 1; 5; 1] = [1; 2; 3; 4].
Proof.
  pose proof (mqpoly_quotient 2 [3; 1; 5; 1] [1; 2; 3; 4] ltac:(lia) ltac:(poly2) ltac:(poly2)) as H.
  cbv zeta in H.
  destruct (mqpoly_div_ntt 2 (mqpoly_int_to_ntt 2 [1; 2; 3; 4]) (mqpoly_int_to_ntt 2 [3; 1; 5; 1]))
    as [c ok] eqn:E.
  assert (ok = true) as -> by (apply (f_equal snd) in E; vm_compute in E; congruence).
  split; [reflexivity|]. apply H. reflexivity.
Defined.

Lemma mqpoly_is_invertible_iff_witness :
  exists h, poly 2 rep h /\ nega_mul 2 h (norm_q <$> [3; -1; 5; 0]) = mq_one 2.
Proof.
  apply (mqpoly_is_invertible_iff 2 [3; -1; 5; 0] [0; 0; 0; 0]);
    [lia|apply poly2; lia|reflexivity|vm_compute; reflexivity].
Defined.

Lemma mqpoly_int_to_small_correct_witness :
  let '(g, ok) := mqpoly_int_to_small 2 [12289; 12288; 127; 12162] [0; 0; 0; 0] in
  ok = true /\ g = [0; -1; 127; -127].
Proof.
  pose proof (mqpoly_int_to_small_correct 2 [12289; 12288; 127; 12162] [0; 0; 0; 0]
    ltac:(poly2) eq_refl) as H.
  destruct (mqpoly_int_to_small 2 [12289; 12288; 127; 12162] [0; 0; 0; 0]) as [g ok] eqn:E.
  assert (ok = true) as -> by (apply (f_equal snd) in E; vm_compute in E; congruence).
  split; [reflexivity|]. exact (proj1 (proj2 H eq_refl)).
Defined.

Lemma mqpoly_sqnorm_saturates_witness :
  sqnorm (center <$> [12289; 12288; 12280; 127]) = 16211 /\
  mqpoly_sqnorm 2 [12289; 12288; 12280; 127] = 16211.
Proof.
  split; [reflexivity|].
  exact (mqpoly_sqnorm_saturates 2 [12289; 12288; 12280; 127] ltac:(poly2)).
Defined.
