(* ===== verification/Bits.v ===== *)
(** Bit strings: the common reading of the encoders and decoders.

    The codecs move coefficients through an accumulator register; what they
    write or read is a sequence of bits, most significant first.  [zbits k x] is
    the low [k] bits of [x] in that order and [bytes_bits] the bits of a byte
    sequence. *)
From Stdlib Require Import ZArith Lia.
From stdpp Require Import base numbers list.
From S2P Require Import Prelude.
Local Open Scope Z_scope.

Fixpoint zbits (k : nat) (x : Z) : list bool :=
  match k with
  | O => []
  | S k' => Z.testbit x (Z.of_nat k') :: zbits k' x
  end.

Definition bytes_bits (l : list Z) : list bool := concat (zbits 8 <$> l).

Definition is_byte (x : Z) : Prop := 0 <= x < 256.

Definition byteb (x : Z) : bool := (0 <=? x) && (x <? 256).
Lemma bytes_dec l : forallb byteb l = true -> Forall is_byte l.
Proof.
  intros Hl. apply Forall_forall. intros x Hx. rewrite forallb_forall in Hl.
  specialize (Hl x ltac:(by apply list_elem_of_In)). unfold byteb, is_byte in *. lia.
Qed.

Lemma length_zbits k x : length (zbits k x) = k.
Proof. induction k as [|k IH]; simpl; congruence. Qed.

Lemma zbits_ext k x y :
  (forall i, 0 <= i < Z.of_nat k -> Z.testbit x i = Z.testbit y i) -> zbits k x = zbits k y.
Proof.
  induction k as [|k IH]; intros He; simpl; [done|]. f_equal; [apply He; lia|].
  apply IH. intros; apply He; lia.
Qed.

Lemma zbits_testbit k x y :
  zbits k x = zbits k y -> forall i, 0 <= i < Z.of_nat k -> Z.testbit x i = Z.testbit y i.
Proof.
  induction k as [|k IH]; simpl; [intros; lia|]. intros [= Hb Ht] i Hi.
  destruct (decide (i = Z.of_nat k)) as [->|]; [done|]. apply IH; [done|lia].
Qed.

Lemma zbits_mod k x w : (k <= w)%nat -> zbits k (x mod 2 ^ Z.of_nat w) = zbits k x.
Proof. intros. apply zbits_ext. intros. apply Z.mod_pow2_bits_low. lia. Qed.

Lemma zbits_inj_mod k x y : zbits k x = zbits k y <-> x mod 2 ^ Z.of_nat k = y mod 2 ^ Z.of_nat k.
Proof.
  split.
  - intros He. apply Z.bits_inj'. intros i Hi.
    destruct (decide (i < Z.of_nat k)).
    + rewrite !Z.mod_pow2_bits_low by lia. eapply zbits_testbit; [done|lia].
    + rewrite !Z.mod_pow2_bits_high by lia. done.
  - intros He. rewrite <- (zbits_mod k x k), <- (zbits_mod k y k), He by lia. done.
Qed.

Lemma zbits_inj k x y :
  0 <= x < 2 ^ Z.of_nat k -> 0 <= y < 2 ^ Z.of_nat k -> zbits k x = zbits k y -> x = y.
Proof. intros Hx Hy He. apply zbits_inj_mod in He. by rewrite !Z.mod_small in He. Qed.

Lemma zbits_app a b x : zbits (a + b) x = zbits a (x .>> Z.of_nat b) ++ zbits b x.
Proof.
  induction a as [|a IH]; simpl; [done|]. rewrite IH. f_equal.
  rewrite Z.shiftr_spec by lia. f_equal. lia.
Qed.

(** Pushing [b] bits into a register. *)
Lemma zbits_push a b x y :
  0 <= y < 2 ^ Z.of_nat b -> zbits (a + b) ((x .<< Z.of_nat b) .| y) = zbits a x ++ zbits b y.
Proof.
  intros Hy. rewrite zbits_app. f_equal.
  - f_equal. rewrite Z.shiftr_lor, Z.shiftr_shiftl_l, Z.sub_diag, Z.shiftl_0_r by lia.
    rewrite (shr_div y), Z.div_small by lia. apply Z.lor_0_r.
  - apply zbits_ext. intros i Hi. rewrite Z.lor_spec, Z.shiftl_spec_low by lia. done.
Qed.

Lemma zbits_u32 k x : (k <= 32)%nat -> zbits k (u32 x) = zbits k x.
Proof. intros. rewrite u32_mod. exact (zbits_mod k x 32 ltac:(lia)). Qed.

Lemma zbits_u8 k x : (k <= 8)%nat -> zbits k (u8 x) = zbits k x.
Proof. intros. rewrite u8_mod. exact (zbits_mod k x 8 ltac:(lia)). Qed.

Lemma zbits_lor_u32 k x y : (k <= 32)%nat -> zbits k (u32 x .| y) = zbits k (x .| y).
Proof.
  intros. apply zbits_ext. intros i Hi. rewrite !Z.lor_spec, u32_mod.
  by rewrite Z.mod_pow2_bits_low by lia.
Qed.

Lemma zbits_zero k : zbits k 0 = replicate k false.
Proof. induction k as [|k IH]; simpl; [done|]. by rewrite Z.testbit_0_l, IH. Qed.

Lemma zbits_one k : zbits (S k) 1 = replicate k false ++ [true].
Proof.
  induction k as [|k IH]; [done|].
  change (zbits (S (S k)) 1) with (Z.testbit 1 (Z.of_nat (S k)) :: zbits (S k) 1).
  rewrite IH. replace (Z.testbit 1 (Z.of_nat (S k))) with false; [done|].
  symmetry. apply Z.testbit_false; [lia|]. rewrite Z.div_small; [done|].
  pose proof (Z.pow_gt_1 2 (Z.of_nat (S k))). lia.
Qed.

Lemma zbits_all_false k x : zbits k x = replicate k false -> x mod 2 ^ Z.of_nat k = 0.
Proof.
  intros He. rewrite <- zbits_zero in He. apply zbits_inj_mod in He. rewrite He.
  apply Z.mod_0_l. pose proof (Z.pow_pos_nonneg 2 (Z.of_nat k)). lia.
Qed.

(** ** Bytes *)

Lemma bytes_bits_nil : bytes_bits [] = [].
Proof. done. Qed.
Lemma bytes_bits_cons x l : bytes_bits (x :: l) = zbits 8 x ++ bytes_bits l.
Proof. done. Qed.
Lemma bytes_bits_app l k : bytes_bits (l ++ k) = bytes_bits l ++ bytes_bits k.
Proof. unfold bytes_bits. by rewrite fmap_app, concat_app. Qed.

Lemma length_bytes_bits l : length (bytes_bits l) = (8 * length l)%nat.
Proof.
  induction l as [|x l IH]; [done|].
  rewrite bytes_bits_cons, length_app, length_zbits, IH. simpl. lia.
Qed.

Lemma bytes_bits_inj l k :
  Forall is_byte l -> Forall is_byte k -> length l = length k -> bytes_bits l = bytes_bits k -> l = k.
Proof.
  intros Hl. revert k. induction Hl as [|x l Hx _ IH]; intros [|y k] Hk He Hb; try done.
  inversion Hk as [|?? Hy Hk']; subst. rewrite !bytes_bits_cons in Hb.
  apply app_inj_1 in Hb as [Hxy Hb]; [|by rewrite !length_zbits].
  apply (zbits_inj 8) in Hxy as ->; [|done..].
  simpl in He. by rewrite (IH k) by (done || lia).
Qed.

Lemma bytes_bits_replicate n : bytes_bits (replicate n 0) = replicate (8 * n) false.
Proof.
  induction n as [|n IH]; [done|]. simpl replicate at 1. rewrite bytes_bits_cons, IH, zbits_zero.
  rewrite <- replicate_add. f_equal. lia.
Qed.

Lemma take_S_get {A} `{GoZero A} (l : list A) n :
  (n < length l)%nat -> take (S n) l = take n l ++ [l.[n]].
Proof. intros. apply take_S_r. by apply lookup_get. Qed.

Lemma bytes_bits_take_S l n :
  (n < length l)%nat -> bytes_bits (take (S n) l) = bytes_bits (take n l) ++ zbits 8 l.[n].
Proof.
  intros. rewrite take_S_get, bytes_bits_app by done.
  by rewrite (bytes_bits_cons l.[n] []), bytes_bits_nil, app_nil_r.
Qed.

Lemma drop_S_get {A} `{GoZero A} (l : list A) n :
  (n < length l)%nat -> drop n l = l.[n] :: drop (S n) l.
Proof. intros. apply drop_S. by apply lookup_get. Qed.

Lemma take_set_S {A} `{GoZero A} (l : list A) n v :
  (n < length l)%nat -> take (S n) (l.[n <- v]) = take n l ++ [v].
Proof.
  intros. rewrite take_S_get by (by rewrite length_set). rewrite get_set_eq by done.
  f_equal. unfold set. by rewrite take_insert_ge.
Qed.

Lemma drop_set {A} (l : list A) n k v : (n < k)%nat -> drop k (l.[n <- v]) = drop k l.
Proof. intros. unfold set. by rewrite drop_insert_lt. Qed.

Lemma drop_more {A} (l k : list A) n m : (n <= m)%nat -> drop n l = drop n k -> drop m l = drop m k.
Proof. intros Hn He. replace m with (n + (m - n))%nat by lia. by rewrite <- !drop_drop, He. Qed.

(** ** Streams of fixed-size fields *)

Definition fields (k : nat) (l : list Z) : list bool := concat (zbits k <$> l).

Lemma fields_app k l1 l2 : fields k (l1 ++ l2) = fields k l1 ++ fields k l2.
Proof. unfold fields. by rewrite fmap_app, concat_app. Qed.
Lemma fields_single k x : fields k [x] = zbits k x.
Proof. unfold fields. simpl. by rewrite app_nil_r. Qed.
Lemma fields_cons k x l : fields k (x :: l) = zbits k x ++ fields k l.
Proof. done. Qed.
Lemma length_fields k l : length (fields k l) = (k * length l)%nat.
Proof.
  induction l as [|x l IH]; simpl; [unfold fields; simpl; lia|].
  rewrite fields_cons, length_app, length_zbits, IH. lia.
Qed.

(** Equal field streams are equal fields, bit for bit. *)
Lemma fields_inj k l1 l2 :
  length l1 = length l2 -> fields k l1 = fields k l2 ->
  forall i, (i < length l1)%nat -> zbits k l1.[i] = zbits k l2.[i].
Proof.
  revert l2. induction l1 as [|x l1 IH]; intros [|y l2] Hl He i Hi; simpl in *; try lia.
  rewrite !fields_cons in He. apply app_inj_1 in He as [Hx He]; [|by rewrite !length_zbits].
  destruct i as [|i]; [done|]. apply (IH l2); [lia|done|lia].
Qed.

(** A prefix of one bit string that is also a prefix of another. *)
Lemma prefix_step {A} (p q p' q' : list A) :
  p ++ q = p' ++ q' -> length p = length p' -> p = p' /\ q = q'.
Proof. intros He Hl. by apply app_inj_1. Qed.
