(* ===== verification/Codec.v ===== *)
(** The coefficient codecs of [codec.go].

    Each encoder moves coefficients through a 32-bit accumulator into bytes and
    each decoder the other way; [flush_bytes] is the byte loop that ends the
    encoders' iterations.  The results are read as bit strings (file Bits):
    [trim_i8] and [modq] write fixed-size fields, [comp] the Golomb-Rice code
    [comp_bits].

    A decoder that returns an error leaves its output array half written; no
    caller reads it then, and the model returns the error alone. *)
From Stdlib Require Import ZArith Lia.
From stdpp Require Import base numbers list strings.
From S2P Require Import Prelude Mq Bits.
Local Open Scope Z_scope.

Definition degree (logn : nat) : nat := Nat.pow 2 logn.

(** The locals of an encoder. *)
Record writer := Writer { w_dst : list Z; w_j : nat; w_acc : Z; w_acc_len : nat }.

(** [for acc_len >= 8 { acc_len -= 8; dst[j] = uint8(acc >> acc_len); j++ }];
    [acc_len] iterations are more than enough. *)
Fixpoint flush_bytes (fuel : nat) (w : writer) : writer :=
  match fuel with
  | O => w
  | S fuel' =>
      if (8 <=? w.(w_acc_len))%nat then
        let acc_len := (w.(w_acc_len) - 8)%nat in
        flush_bytes fuel'
          (Writer (w.(w_dst).[w.(w_j) <- u8 (w.(w_acc) .>> Z.of_nat acc_len)])
                  (S w.(w_j)) w.(w_acc) acc_len)
      else w
  end.

Definition trim_i8_encode (logn : nat) (f : list Z) (nbits : nat) (dst : list Z) : list Z * nat :=
  let mask := u32 (1 .<< Z.of_nat nbits) -% 1 in
  let w := for_ (degree logn) (fun i w =>
    let acc := u32 (w.(w_acc) .<< Z.of_nat nbits) .| (u32 f.[i] .& mask) in
    let acc_len := (w.(w_acc_len) + nbits)%nat in
    flush_bytes acc_len (Writer w.(w_dst) w.(w_j) acc acc_len))
    (Writer dst 0 0 0) in
  (w.(w_dst), w.(w_j)).

(** The locals of [trim_i8_decode]. *)
Record trim_reader := TrimReader { t_f : list Z; t_j : nat; t_acc : Z; t_acc_len : nat }.

(** One field: [acc_len -= nbits; w := ...; f[j] = int8(w); j++]. *)
Definition trim_i8_field (nbits : nat) (r : trim_reader) : result string trim_reader :=
  let mask1 := u32 (1 .<< Z.of_nat nbits) -% 1 in
  let mask2 := u32 (1 .<< Z.of_nat (nbits - 1)) in
  let acc_len := (r.(t_acc_len) - nbits)%nat in
  let w := (r.(t_acc) .>> Z.of_nat acc_len) .& mask1 in
  let w := w .| (-% (w .& mask2)) in
  if w =? -% mask2 then Err "Invalid coefficient value"%string
  else Ok (TrimReader (r.(t_f).[r.(t_j) <- i8 w]) (S r.(t_j)) r.(t_acc) acc_len).

(** [for acc_len >= nbits { ... }], left early when the polynomial is full;
    [acc_len] iterations are more than enough. *)
Fixpoint trim_i8_take (fuel n nbits : nat) (r : trim_reader) : result string trim_reader :=
  match fuel with
  | O => Ok r
  | S fuel' =>
      if (nbits <=? r.(t_acc_len))%nat then
        r ← trim_i8_field nbits r;
        if (n <=? r.(t_j))%nat then Ok r else trim_i8_take fuel' n nbits r
      else Ok r
  end.

(** One source byte. *)
Definition trim_i8_byte (n nbits : nat) (src : list Z) (i : nat) (r : trim_reader)
    : result string trim_reader :=
  let acc := u32 (r.(t_acc) .<< 8) .| src.[i] in
  let acc_len := (r.(t_acc_len) + 8)%nat in
  trim_i8_take acc_len n nbits (TrimReader r.(t_f) r.(t_j) acc acc_len).

Definition trim_i8_decode (logn : nat) (src f : list Z) (nbits : nat) : result string (nat * list Z) :=
  let needed := ((nbits * degree logn + 7) / 8)%nat in
  if (length src <? needed)%nat then Err "Truncated source"%string
  else
    r ← try_ needed (trim_i8_byte (degree logn) nbits src) (TrimReader f 0 0 0);
    if r.(t_acc) .& (u32 (1 .<< Z.of_nat r.(t_acc_len)) -% 1) =? 0
    then Ok (needed, r.(t_f)) else Err "Non-zero padding bits"%string.

(** [for i := 0; i < n; i += 4]: iteration [c] has [i = 4 c]. *)
Definition modq_encode_chunk (h : list Z) (c : nat) '((dst, j) : list Z * nat) : list Z * nat :=
  let i := (4 * c)%nat in
  let x0 := h.[i + 0] in
  let x1 := h.[i + 1] in
  let x2 := h.[i + 2] in
  let x3 := h.[i + 3] in
  let x := u64 (x0 .<< 42) .| u64 (x1 .<< 28) .| u64 (x2 .<< 14) .| x3 in
  for_ 7 (fun k '(dst, j) => (dst.[j <- u8 (x .>> (48 - 8 * Z.of_nat k))], S j)) (dst, j).

Definition modq_encode (logn : nat) (h dst : list Z) : list Z * nat :=
  for_ ((degree logn + 3) / 4) (modq_encode_chunk h) (dst, 0%nat).

Definition modq_decode_chunk (src : list Z) (c : nat) '((i, h) : nat * list Z)
    : result string (nat * list Z) :=
  let j := (4 * c)%nat in
  let x := for_ 7 (fun k x => u64 (x .<< 8) .| src.[i + k]) 0 in
  let h0 := u32 ((x .>> 42) .& 16383) in
  let h1 := u32 ((x .>> 28) .& 16383) in
  let h2 := u32 ((x .>> 14) .& 16383) in
  let h3 := u32 (x .& 16383) in
  if (q <=? h0) || (q <=? h1) || (q <=? h2) || (q <=? h3)
  then Err "Invalid coefficient value"%string
  else Ok ((i + 7)%nat,
           h.[j + 0 <- u16 h0].[j + 1 <- u16 h1].[j + 2 <- u16 h2].[j + 3 <- u16 h3]).

Definition modq_decode (logn : nat) (src h : list Z) : result string (nat * list Z) :=
  let needed := if (logn <? 2)%nat then 0%nat else (7 * Nat.pow 2 (logn - 2))%nat in
  if (length src <? needed)%nat then Err "Truncated input"%string
  else
    '(_, h) ← try_ ((degree logn + 3) / 4) (modq_decode_chunk src) (0%nat, h);
    Ok (needed, h).

(** The flushing loop of [comp_encode], which stops when [dst] is full.  The
    error carries the destination as the encoder leaves it. *)
Fixpoint comp_flush (fuel : nat) (w : writer) : result (list Z) writer :=
  match fuel with
  | O => Ok w
  | S fuel' =>
      if (8 <=? w.(w_acc_len))%nat then
        let acc_len := (w.(w_acc_len) - 8)%nat in
        if (length w.(w_dst) <=? w.(w_j))%nat then Err w.(w_dst)
        else comp_flush fuel'
          (Writer (w.(w_dst).[w.(w_j) <- u8 (w.(w_acc) .>> Z.of_nat acc_len)])
                  (S w.(w_j)) w.(w_acc) acc_len)
      else Ok w
  end.

(** One coefficient [x] ([int16]). *)
Definition comp_encode_coeff (x : Z) (w : writer) : result (list Z) writer :=
  if (x <? -2047) || (2047 <? x) then Err w.(w_dst)
  else
    let sw := u32 (x .>> 16) in
    let v := (u32 x .^ sw) -% sw in
    let acc := u32 (w.(w_acc) .<< 8) in
    let acc := acc .| (sw .& 128) in
    let acc := acc .| (v .& 127) in
    let acc_len := (w.(w_acc_len) + 8)%nat in
    let v := (v .>> 7) +% 1 in
    let acc := u32 (acc .<< v) .| 1 in
    let acc_len := (acc_len + Z.to_nat v)%nat in
    comp_flush acc_len (Writer w.(w_dst) w.(w_j) acc acc_len).

(** The bits that remain in the accumulator go to the top of one more byte. *)
Definition comp_encode_last (w : writer) : result (list Z) writer :=
  if (0 <? w.(w_acc_len))%nat then
    if (length w.(w_dst) <=? w.(w_j))%nat then Err w.(w_dst)
    else Ok (Writer
           (w.(w_dst).[w.(w_j) <- u8 (u32 (w.(w_acc) .<< Z.of_nat (8 - w.(w_acc_len))))])
           (S w.(w_j)) w.(w_acc) w.(w_acc_len))
  else Ok w.

(** [for j < len(dst) { dst[j] = 0; j++ }] *)
Definition comp_encode_pad (w : writer) : list Z :=
  for_ (length w.(w_dst) - w.(w_j)) (fun k d => d.[w.(w_j) + k <- u8 0]) w.(w_dst).

Definition comp_encode (logn : nat) (s dst : list Z) : list Z * bool :=
  let r :=
    w ← try_ (degree logn) (fun i w => comp_encode_coeff s.[i] w) (Writer dst 0 0 0);
    comp_encode_last w in
  match r with
  | Ok w => (comp_encode_pad w, true)
  | Err d => (d, false)
  end.

(** The locals of [comp_decode]: index of the next source byte, accumulator. *)
Record reader := Reader { r_i : nat; r_acc : Z; r_acc_len : nat }.

(** [if acc_len == 0 { ... }]: one more source byte when the register is empty. *)
Definition comp_refill (src : list Z) (r : reader) : result string reader :=
  if (r.(r_acc_len) =? 0)%nat then
    if (length src <=? r.(r_i))%nat then Err "Truncated input"%string
    else Ok (Reader (S r.(r_i)) (u32 (r.(r_acc) .<< 8) .| src.[r.(r_i)]) 8)
  else Ok r.

(** The unary part: [for { ... m += 0x80 ... }].  From [m < 128] the bound 2047
    ends the loop within 16 iterations. *)
Fixpoint comp_unary (fuel : nat) (src : list Z) (m : Z) (r : reader) : result string (Z * reader) :=
  match fuel with
  | O => Err "out of fuel"%string
  | S fuel' =>
      r ← comp_refill src r;
      let acc_len := (r.(r_acc_len) - 1)%nat in
      let r' := Reader r.(r_i) r.(r_acc) acc_len in
      if negb ((r.(r_acc) .>> Z.of_nat acc_len) .& 1 =? 0) then Ok (m, r')
      else
        let m := m +% 128 in
        if 2047 <? m then Err "Out-of-range coefficient"%string
        else comp_unary fuel' src m r'
  end.

Definition comp_decode_coeff (src : list Z) (r : reader) : result string (Z * reader) :=
  if (length src <=? r.(r_i))%nat then Err "Truncated input"%string
  else
    let acc := u32 (r.(r_acc) .<< 8) .| src.[r.(r_i)] in
    let s := (acc .>> Z.of_nat (r.(r_acc_len) + 7)) .& 1 in
    let m := (acc .>> Z.of_nat r.(r_acc_len)) .& 127 in
    '(m, r) ← comp_unary 17 src m (Reader (S r.(r_i)) acc r.(r_acc_len));
    if negb (s .& ((m -% 1) .>> 31) =? 0) then Err "Invalid minus zero encoding"%string
    else Ok (i16 ((m .^ (-% s)) +% s), r).

(** The unused bits: those of the register, then the bytes not read. *)
Definition comp_decode_end (src : list Z) (r : reader) : result string unit :=
  if (0 <? r.(r_acc_len))%nat &&
     negb (r.(r_acc) .& (u32 (1 .<< Z.of_nat r.(r_acc_len)) -% 1) =? 0)
  then Err "Non-zero padding bits"%string
  else
    try_ (length src - r.(r_i)) (fun k _ =>
      if negb (src.[r.(r_i) + k] =? 0) then Err "Non-zero padding bits"%string else Ok tt) tt.

Definition comp_decode (logn : nat) (src f : list Z) : result string (list Z) :=
  '(f, r) ← try_ (degree logn) (fun j '(f, r) =>
      '(x, r) ← comp_decode_coeff src r; Ok (f.[j <- x], r))
    (f, Reader 0 0 0);
  _ ← comp_decode_end src r;
  Ok f.

(** * The encoders' byte loop *)

(** What an encoder has written so far, register included. *)
Definition written (w : writer) : list bool :=
  bytes_bits (take w.(w_j) w.(w_dst)) ++ zbits w.(w_acc_len) w.(w_acc).

(** The part of the destination behind a writer is bytes; the rest is as in
    the destination [d] it started from. *)
Record writer_ok (d : list Z) (w : writer) : Prop := WriterOk {
  wo_len : length w.(w_dst) = length d;
  wo_drop : drop w.(w_j) w.(w_dst) = drop w.(w_j) d;
  wo_bytes : Forall is_byte (take w.(w_j) w.(w_dst));
}.

Lemma writer_step d w acc_len :
  writer_ok d w -> (w.(w_j) < length d)%nat -> w.(w_acc_len) = (8 + acc_len)%nat ->
  let w' := Writer (w.(w_dst).[w.(w_j) <- u8 (w.(w_acc) .>> Z.of_nat acc_len)])
                   (S w.(w_j)) w.(w_acc) acc_len in
  writer_ok d w' /\ written w' = written w.
Proof.
  intros [Hl Hd Hb] Hj Ha. cbv zeta. split.
  - split; simpl.
    + by rewrite length_set.
    + rewrite drop_set by lia. by apply (drop_more _ _ (w_j w)); [lia|].
    + rewrite take_set_S by lia. apply Forall_app. split; [done|].
      constructor; [apply u8_range|constructor].
  - unfold written. cbn [w_dst w_j w_acc w_acc_len].
    rewrite take_set_S, bytes_bits_app, bytes_bits_cons, bytes_bits_nil, app_nil_r by lia.
    rewrite zbits_u8 by lia. rewrite Ha, zbits_app. by rewrite app_assoc.
Qed.

Lemma flush_bytes_spec d fuel w :
  writer_ok d w -> (w.(w_acc_len) <= 8 * fuel + 7)%nat ->
  (w.(w_j) + w.(w_acc_len) / 8 <= length d)%nat ->
  let w' := flush_bytes fuel w in
  writer_ok d w' /\ written w' = written w /\
  w'.(w_acc_len) = (w.(w_acc_len) mod 8)%nat /\ w'.(w_j) = (w.(w_j) + w.(w_acc_len) / 8)%nat.
Proof.
  revert w. induction fuel as [|fuel IH]; intros w Hw Hf Hj; cbn [flush_bytes]; cbv zeta.
  - rewrite Nat.mod_small, Nat.div_small by lia. repeat split; try apply Hw; lia.
  - destruct (Nat.leb_spec 8 w.(w_acc_len)) as [Hge|Hlt].
    + pose proof (Nat.Div0.div_mod (w_acc_len w) 8) as Hdm.
      pose proof (Nat.mod_upper_bound (w_acc_len w) 8 ltac:(lia)) as Hmb.
      assert (Hq : (w_acc_len w / 8 = 1 + (w_acc_len w - 8) / 8)%nat).
      { rewrite <- (Nat.div_add_l 1 8 (w_acc_len w - 8)) by lia. f_equal. lia. }
      assert (Hr : (w_acc_len w mod 8 = (w_acc_len w - 8) mod 8)%nat).
      { pose proof (Nat.Div0.div_mod (w_acc_len w - 8) 8). lia. }
      destruct (writer_step d w (w_acc_len w - 8) Hw ltac:(lia) ltac:(lia)) as [Hw' He].
      set (w1 := Writer _ _ _ _) in *.
      destruct (IH w1 Hw') as (I1 & I2 & I3 & I4);
        [subst w1; cbn [w_acc_len w_j]; lia..|].
      split; [done|]. split; [congruence|].
      rewrite I3, I4. subst w1. cbn [w_acc_len w_j]. split; lia.
    + rewrite Nat.mod_small, Nat.div_small by lia. repeat split; try apply Hw; lia.
Qed.

(** * Fixed-size fields: [trim_i8] *)

(** The range [trim_i8_encode] represents without truncation. *)
Definition trim_range (nbits : nat) (x : Z) : Prop :=
  - (2 ^ (Z.of_nat nbits - 1)) < x < 2 ^ (Z.of_nat nbits - 1).
#[export] Instance trim_range_dec nbits x : Decision (trim_range nbits x).
Proof. apply _. Defined.

Lemma mask_bits k x : (k <= 31)%nat -> x .& (u32 (1 .<< Z.of_nat k) -% 1) = x mod 2 ^ Z.of_nat k.
Proof.
  intros Hk. pose proof (Z.pow_pos_nonneg 2 (Z.of_nat k)).
  pose proof (Z.pow_le_mono_r 2 (Z.of_nat k) 31 ltac:(lia) ltac:(lia)).
  rewrite shl_mul, Z.mul_1_l by lia. rewrite (u32_small (2 ^ _)), u32_small by lia.
  rewrite <- Z.land_ones by lia. f_equal. rewrite Z.ones_equiv. lia.
Qed.

Lemma acc_push k acc y :
  (k <= 32)%nat -> forall a, (a + k <= 32)%nat -> 0 <= y < 2 ^ Z.of_nat k ->
  zbits (a + k) (u32 (acc .<< Z.of_nat k) .| y) = zbits a acc ++ zbits k y.
Proof. intros Hk a Ha Hy. rewrite zbits_lor_u32 by lia. by apply zbits_push. Qed.

Section TrimEncode.
Context (logn nbits : nat) (Hn : (1 <= nbits <= 8)%nat).

Lemma trim_i8_encode_spec f dst :
  length f = degree logn -> (nbits * degree logn mod 8 = 0)%nat ->
  (nbits * degree logn / 8 <= length dst)%nat ->
  exists bytes,
    trim_i8_encode logn f nbits dst = (bytes ++ drop (length bytes) dst, length bytes) /\
    Forall is_byte bytes /\ bytes_bits bytes = fields nbits f.
Proof.
  intros Hf Hm Hd. unfold trim_i8_encode.
  match goal with |- context [for_ (degree logn) ?b ?s] =>
    assert (let w := for_ (degree logn) b s in
      writer_ok dst w /\ written w = fields nbits (take (degree logn) f) /\
      w_acc_len w = (nbits * degree logn mod 8)%nat /\
      w_j w = (nbits * degree logn / 8)%nat) as Hw end.
  { cbv zeta. apply (for_ind (fun c w =>
      writer_ok dst w /\ written w = fields nbits (take c f) /\
      w_acc_len w = (nbits * c mod 8)%nat /\ w_j w = (nbits * c / 8)%nat)).
    { repeat split; simpl; rewrite ?Nat.mul_0_r; done || constructor. }
    intros c w Hc ([W1 W2 W3] & IW & IA & IJ).
    set (y := u32 f.[c] .& _).
    assert (Hy : y = u32 f.[c] mod 2 ^ Z.of_nat nbits) by (apply mask_bits; lia).
    pose proof (Z.mod_pos_bound (u32 f.[c]) (2 ^ Z.of_nat nbits)
      ltac:(apply Z.pow_pos_nonneg; lia)) as Hyr.
    rewrite <- Hy in Hyr.
    pose proof (Nat.Div0.div_mod (nbits * c) 8) as Hdm.
    pose proof (Nat.mod_upper_bound (nbits * c) 8 ltac:(lia)) as Hmb.
    assert (Hs : (nbits * S c = nbits * c / 8 * 8 + (nbits * c mod 8 + nbits))%nat) by lia.
    assert (HD : (nbits * S c / 8 = nbits * c / 8 + (nbits * c mod 8 + nbits) / 8)%nat)
      by (rewrite Hs, Nat.div_add_l by lia; done).
    assert (HM : (nbits * S c mod 8 = (nbits * c mod 8 + nbits) mod 8)%nat)
      by (rewrite Hs, Nat.add_comm, Nat.Div0.mod_add; done).
    match goal with |- context [flush_bytes ?k ?w1] =>
      destruct (flush_bytes_spec dst k w1) as (F1 & F2 & F3 & F4) end;
      cbn [w_dst w_j w_acc w_acc_len] in *.
    - by split.
    - lia.
    - rewrite IA, IJ, <- HD. transitivity (nbits * degree logn / 8)%nat; [|done].
      apply Nat.Div0.div_le_mono. nia.
    - split; [done|]. rewrite F3, F4, F2, IA, IJ, HD, HM.
      split; [|done]. rewrite take_S_get by lia.
      rewrite fields_app, fields_single, <- IW. unfold written.
      cbn [w_dst w_j w_acc w_acc_len].
      rewrite acc_push by lia. rewrite <- app_assoc, <- IA, <- IJ. do 2 f_equal.
      rewrite Hy, zbits_mod by lia. apply zbits_u32. lia. }
  cbv zeta in Hw. destruct Hw as ([W1 W2 W3] & IW & IA & IJ).
  set (w := for_ _ _ _) in *. exists (take (w_j w) (w_dst w)).
  assert (length (take (w_j w) (w_dst w)) = w_j w) as Hl by (rewrite length_take; lia).
  rewrite Hl. split; [|split; [done|]].
  - rewrite <- W2. by rewrite take_drop.
  - unfold written in IW. rewrite IA, Hm in IW. simpl in IW.
    by rewrite app_nil_r, (take_ge f) in IW by lia.
Qed.
End TrimEncode.

(** The sign extension [w |= -(w & mask2)] of a field value. *)
Definition trim_cell (nbits : nat) (w : Z) : bool :=
  let mask2 := 2 ^ (Z.of_nat nbits - 1) in
  let w' := w .| (-% (w .& mask2)) in
  if w =? mask2 then w' =? -% mask2
  else negb (w' =? -% mask2) && ((- mask2 <? i8 w') && (i8 w' <? mask2)) &&
       (i8 w' mod 2 ^ Z.of_nat nbits =? w).

Lemma trim_cell_table :
  forallb (fun k => forallb (trim_cell k) (seqZ 0 (2 ^ Z.of_nat k))) [5; 6; 7; 8]%nat = true.
Proof. vm_compute. reflexivity. Qed.

Lemma trim_cell_ok nbits w :
  (5 <= nbits <= 8)%nat -> 0 <= w < 2 ^ Z.of_nat nbits -> trim_cell nbits w = true.
Proof.
  intros Hn Hw. pose proof trim_cell_table as Ha. rewrite forallb_forall in Ha.
  specialize (Ha nbits). cbn [In] in Ha. specialize (Ha ltac:(lia)).
  rewrite forallb_forall in Ha. apply Ha. rewrite <- list_elem_of_In, elem_of_seqZ. lia.
Qed.

Section TrimDecode.
Context (nbits : nat) (Hn : (5 <= nbits <= 8)%nat).

Lemma pow_nbits : 2 ^ Z.of_nat nbits = 2 * 2 ^ (Z.of_nat nbits - 1).
Proof using Hn. rewrite <- Z.pow_succ_r by lia. f_equal. lia. Qed.

Lemma trim_range_inj x y :
  trim_range nbits x -> trim_range nbits y -> zbits nbits x = zbits nbits y -> x = y.
Proof.
  intros Hx Hy He. apply zbits_inj_mod in He. unfold trim_range in *.
  assert ((2 ^ Z.of_nat nbits | x - y)) as [c Hc] by (apply cong_iff_divide; by split).
  rewrite pow_nbits in Hc. apply small_multiple in Hc; lia.
Qed.

(** One field out of the register: it fails on the one value that is not the
    truncation of a value in range, and otherwise yields the value. *)
Lemma trim_i8_field_spec r a :
  r.(t_acc_len) = (nbits + a)%nat ->
  match trim_i8_field nbits r with
  | Ok r' => exists x, trim_range nbits x /\
      zbits (t_acc_len r) (t_acc r) = zbits nbits x ++ zbits a (t_acc r) /\
      r' = TrimReader (r.(t_f).[r.(t_j) <- x]) (S r.(t_j)) r.(t_acc) a
  | Err _ => forall x, trim_range nbits x -> zbits nbits (t_acc r .>> Z.of_nat a) <> zbits nbits x
  end.
Proof.
  intros Ha. unfold trim_i8_field. cbv zeta. rewrite mask_bits by lia.
  replace (t_acc_len r - nbits)%nat with a by lia.
  set (v := (t_acc r .>> Z.of_nat a)). set (w := v mod _).
  assert (0 <= w < 2 ^ Z.of_nat nbits) as Hw
    by (apply Z.mod_pos_bound, Z.pow_pos_nonneg; lia).
  replace (u32 (1 .<< Z.of_nat (nbits - 1))) with (2 ^ (Z.of_nat nbits - 1)).
  2:{ rewrite shl_mul, Z.mul_1_l by lia. rewrite u32_small; [f_equal; lia|].
      pose proof (Z.pow_le_mono_r 2 (Z.of_nat (nbits - 1)) 31 ltac:(lia) ltac:(lia)).
      pose proof (Z.pow_pos_nonneg 2 (Z.of_nat (nbits - 1))). lia. }
  pose proof (trim_cell_ok nbits w Hn Hw) as Hc. unfold trim_cell in Hc. cbv zeta in Hc.
  rewrite Ha, zbits_app. fold v.
  destruct (Z.eqb_spec w (2 ^ (Z.of_nat nbits - 1))) as [E|E].
  - rewrite Hc. intros x Hx He.
    apply zbits_inj_mod in He. fold w in He. rewrite E in He. symmetry in He.
    unfold trim_range in Hx.
    assert ((2 ^ Z.of_nat nbits | x - 2 ^ (Z.of_nat nbits - 1))) as [c Hd].
    { apply cong_iff_divide. split. rewrite He. symmetry. apply Z.mod_small. lia. }
    rewrite pow_nbits in Hd. apply small_multiple in Hd; lia.
  - apply andb_prop in Hc as [Hc H3]. apply andb_prop in Hc as [H1 H2].
    apply negb_true_iff in H1. rewrite H1. apply andb_prop in H2 as [H2 H2']. apply Z.ltb_lt in H2, H2'.
    apply Z.eqb_eq in H3. eexists. split; [by split|]. split; [|done]. f_equal.
    apply zbits_inj_mod. fold w. by rewrite H3.
Qed.
(** The state of the decoder after the source bits [bits]. *)
Record trim_inv (n : nat) (bits : list bool) (r : trim_reader) : Prop := TrimInv {
  ti_len : length r.(t_f) = n;
  ti_j : (r.(t_j) <= n)%nat;
  ti_range : Forall (trim_range nbits) (take r.(t_j) r.(t_f));
  ti_bits : fields nbits (take r.(t_j) r.(t_f)) ++ zbits r.(t_acc_len) r.(t_acc) = bits;
}.

Definition trim_rejects (n : nat) (bits : list bool) : Prop :=
  forall s R, length s = n -> Forall (trim_range nbits) s -> bits ++ R <> fields nbits s.

Lemma trim_i8_field_inv n bits r :
  trim_inv n bits r -> (t_j r < n)%nat -> (nbits <= t_acc_len r)%nat ->
  match trim_i8_field nbits r with
  | Ok r' => trim_inv n bits r' /\ t_acc_len r' = (t_acc_len r - nbits)%nat
  | Err _ => trim_rejects n bits
  end.
Proof using Hn.
  intros [Hl Hj Hr Hb] Hlt Ha. pose (a := (t_acc_len r - nbits)%nat).
  pose proof (trim_i8_field_spec r a ltac:(lia)) as Hf.
  destruct (trim_i8_field nbits r) as [r'|].
  - destruct Hf as (x & Hx & Hz & ->). split; [|done].
    split; cbn [t_f t_j t_acc t_acc_len]; [by rewrite length_set|lia|..].
    + rewrite take_set_S by lia. apply Forall_app. by split; [|constructor].
    + rewrite take_set_S, fields_app, fields_single by lia.
      by rewrite <- app_assoc, <- Hz.
  - intros s R Hs Hrs He. rewrite <- Hb in He. rewrite <- (take_drop (t_j r) s), fields_app in He.
    rewrite <- app_assoc in He. apply app_inj_1 in He as [_ He].
    2:{ rewrite !length_fields, !length_take. lia. }
    rewrite (drop_S_get s), fields_cons in He by lia.
    replace (t_acc_len r) with (nbits + a)%nat in He by lia.
    rewrite zbits_app, <- app_assoc in He. apply app_inj_1 in He as [He _].
    2:{ by rewrite !length_zbits. }
    revert He. apply Hf. apply get_Forall; [done|lia].
Qed.

Lemma trim_i8_take_inv n bits fuel r :
  trim_inv n bits r -> (t_j r < n)%nat -> (t_acc_len r <= fuel)%nat ->
  match trim_i8_take fuel n nbits r with
  | Ok r' => trim_inv n bits r' /\ (t_acc_len r' < nbits \/ t_j r' = n)%nat
  | Err _ => trim_rejects n bits
  end.
Proof using Hn.
  revert r. induction fuel as [|fuel IH]; intros r Hr Hj Hf; simpl; [split; [done|lia]|].
  destruct (Nat.leb_spec nbits (t_acc_len r)); [|split; [done|lia]].
  pose proof (trim_i8_field_inv n bits r Hr Hj ltac:(done)) as Hs.
  destruct (trim_i8_field nbits r) as [r'|]; simpl; [|done]. destruct Hs as [Hr' Ha].
  destruct (Nat.leb_spec n (t_j r')).
  - split; [done|]. right. pose proof (ti_j _ _ _ Hr'). lia.
  - apply IH; [done|lia..].
Qed.

Lemma trim_i8_byte_inv n src i r :
  Forall is_byte src -> (i < length src)%nat -> (8 * i < nbits * n)%nat ->
  trim_inv n (bytes_bits (take i src)) r -> (t_acc_len r < nbits \/ t_j r = n)%nat ->
  match trim_i8_byte n nbits src i r with
  | Ok r' => trim_inv n (bytes_bits (take (S i) src)) r' /\
             (t_acc_len r' < nbits \/ t_j r' = n)%nat
  | Err _ => trim_rejects n (bytes_bits (take (S i) src))
  end.
Proof using Hn.
  intros Hsrc Hi Hin [Hl Hj Hr Hb] Ha. pose proof (f_equal length Hb) as Hlen.
  rewrite length_app, length_fields, length_zbits, length_bytes_bits, !length_take in Hlen.
  apply trim_i8_take_inv; cbn [t_f t_j t_acc t_acc_len]; [|nia|done].
  split; cbn [t_f t_j t_acc t_acc_len]; [done..|].
  pose proof (get_Forall _ src i Hsrc Hi) as Hy.
  rewrite (acc_push 8) by (done || nia). rewrite app_assoc, Hb. by rewrite bytes_bits_take_S.
Qed.

Lemma trim_rejects_prefix n bits more : trim_rejects n bits -> trim_rejects n (bits ++ more).
Proof. intros Hr s R Hs Hrs. rewrite <- app_assoc. by apply Hr. Qed.

Lemma trim_i8_bytes_inv n needed src f :
  length f = n -> (8 * needed = nbits * n)%nat -> (needed <= length src)%nat ->
  Forall is_byte src ->
  match try_ needed (trim_i8_byte n nbits src) (TrimReader f 0 0 0) with
  | Ok r => trim_inv n (bytes_bits (take needed src)) r /\ (t_acc_len r < nbits \/ t_j r = n)%nat
  | Err _ => trim_rejects n (bytes_bits (take needed src))
  end.
Proof using Hn.
  intros Hf Hnn Hge Hb.
  apply (try_spec (fun i r => trim_inv n (bytes_bits (take i src)) r /\
                          (t_acc_len r < nbits \/ t_j r = n)%nat)).
  { split; [split|]; simpl; done || lia || constructor. }
  intros i r Hi [Hr Ha].
  pose proof (trim_i8_byte_inv n src i r Hb ltac:(lia) ltac:(lia) Hr Ha) as Hs.
  destruct (trim_i8_byte n nbits src i r); [done|].
  rewrite <- (take_drop (S i) (take needed src)), take_take, Nat.min_l, bytes_bits_app by lia.
  by apply trim_rejects_prefix.
Qed.

(** Decoding succeeds exactly on the field streams of values in range, and
    yields those values. *)
Lemma trim_i8_decode_spec logn src f :
  length f = degree logn -> (nbits * degree logn mod 8 = 0)%nat -> Forall is_byte src ->
  let needed := (nbits * degree logn / 8)%nat in
  match trim_i8_decode logn src f nbits with
  | Ok (k, s) => k = needed /\ (needed <= length src)%nat /\ length s = degree logn /\
      Forall (trim_range nbits) s /\ bytes_bits (take needed src) = fields nbits s
  | Err _ => forall s, length s = degree logn -> Forall (trim_range nbits) s ->
      bytes_bits (take needed src) <> fields nbits s
  end.
Proof using Hn.
  intros Hf Hm Hb. cbv zeta. unfold trim_i8_decode. set (n := degree logn) in *.
  assert (Hnd : ((nbits * n + 7) / 8 = nbits * n / 8)%nat).
  { pose proof (Nat.Div0.div_mod (nbits * n) 8) as Hdm. rewrite Hm, Nat.add_0_r in Hdm.
    rewrite Hdm, (Nat.mul_comm 8), Nat.div_add_l, Nat.div_mul by lia. simpl. lia. }
  rewrite Hnd. set (needed := (nbits * n / 8)%nat) in *.
  assert (8 * needed = nbits * n)%nat as Hnn by (pose proof (Nat.Div0.div_mod (nbits * n) 8); lia).
  destruct (Nat.ltb_spec (length src) needed) as [Hlt|Hge].
  { intros s Hs _ He. apply (f_equal length) in He.
    rewrite length_fields, length_bytes_bits, length_take in He. nia. }
  pose proof (trim_i8_bytes_inv n needed src f Hf Hnn Hge Hb) as Ht.
  destruct (try_ _ _ _) as [r|]; simpl.
  2:{ intros s Hs Hrs. rewrite <- (app_nil_r (bytes_bits _)). by apply Ht. }
  destruct Ht as [[Hl Hj Hr Hbits] Ha]. pose proof (f_equal length Hbits) as Hlen.
  rewrite length_app, length_fields, length_zbits, length_bytes_bits, !length_take in Hlen.
  assert (t_j r = n /\ t_acc_len r = 0)%nat as [Hjn Hz] by nia.
  rewrite Hz in *. rewrite mask_bits, Z.mod_1_r by lia. simpl.
  rewrite Hjn, take_ge in Hr, Hbits by lia. rewrite app_nil_r in Hbits. by repeat split.
Qed.
End TrimDecode.

(** * Values modulo [q]: [modq] *)

Definition is_modq (x : Z) : Prop := 0 <= x < q.

Lemma degree_4 logn : (2 <= logn)%nat ->
  degree logn = (4 * Nat.pow 2 (logn - 2))%nat /\ ((degree logn + 3) / 4 = Nat.pow 2 (logn - 2))%nat.
Proof.
  intros Hl. assert (degree logn = 4 * Nat.pow 2 (logn - 2))%nat as He.
  { unfold degree. replace logn with (2 + (logn - 2))%nat at 1 by lia. apply Nat.pow_add_r. }
  split; [done|]. rewrite He, Nat.mul_comm, Nat.div_add_l by lia. simpl. lia.
Qed.

(** The four fields of a 56-bit chunk. *)
Lemma chunk_bits x0 x1 x2 x3 :
  is_modq x0 -> is_modq x1 -> is_modq x2 -> is_modq x3 ->
  zbits 56 (u64 (x0 .<< 42) .| u64 (x1 .<< 28) .| u64 (x2 .<< 14) .| x3)
  = zbits 14 x0 ++ zbits 14 x1 ++ zbits 14 x2 ++ zbits 14 x3.
Proof.
  unfold is_modq, q. intros. rewrite !u64_small by (shifts_to_div; lia).
  replace (x0 .<< 42 .| x1 .<< 28 .| x2 .<< 14 .| x3)
    with ((((((x0 .<< 14) .| x1) .<< 14) .| x2) .<< 14) .| x3).
  2:{ rewrite !Z.shiftl_lor, !Z.shiftl_shiftl by lia. done. }
  change 14 with (Z.of_nat 14). rewrite (zbits_push 42 14) by (simpl; lia).
  rewrite (zbits_push 28 14), (zbits_push 14 14) by (simpl; lia). by rewrite <- !app_assoc.
Qed.

Lemma chunk_split x :
  zbits 56 x = zbits 14 (x .>> 42) ++ zbits 14 (x .>> 28) ++ zbits 14 (x .>> 14) ++ zbits 14 x.
Proof.
  change 56%nat with (42 + 14)%nat. rewrite zbits_app.
  change 42%nat with (28 + 14)%nat at 1. rewrite zbits_app.
  change 28%nat with (14 + 14)%nat at 1. rewrite zbits_app.
  rewrite !Z.shiftr_shiftr by lia. by rewrite <- !app_assoc.
Qed.

(** The seven bytes of a chunk. *)
Lemma modq_bytes_spec x dst j :
  (j + 7 <= length dst)%nat -> Forall is_byte (take j dst) ->
  let '(d, j') := for_ 7 (fun k '(dst, j) =>
      (dst.[j <- u8 (x .>> (48 - 8 * Z.of_nat k))], S j)) (dst, j) in
  j' = (j + 7)%nat /\ length d = length dst /\ drop j' d = drop j' dst /\
  Forall is_byte (take j' d) /\ bytes_bits (take j' d) = bytes_bits (take j dst) ++ zbits 56 x.
Proof.
  intros Hj Hb.
  apply (for_ind (fun k '(d, j') => j' = (j + k)%nat /\ length d = length dst /\
    drop j' d = drop j' dst /\ Forall is_byte (take j' d) /\
    bytes_bits (take j' d) = bytes_bits (take j dst) ++ zbits (8 * k) (x .>> (56 - 8 * Z.of_nat k)))).
  { rewrite Nat.add_0_r, app_nil_r. repeat split; done. }
  intros k [d j'] Hk (-> & Hl & Hd & Hf & Hbits). split; [lia|]. split; [by rewrite length_set|].
  split; [rewrite drop_set by lia; by apply (drop_more _ _ (j + k)); [lia|]|].
  rewrite take_set_S, bytes_bits_app, bytes_bits_cons, bytes_bits_nil, app_nil_r by lia. split.
  - apply Forall_app. split; [done|]. constructor; [apply u8_range|constructor].
  - rewrite Hbits, <- app_assoc. f_equal. replace (8 * S k)%nat with (8 * k + 8)%nat by lia.
    rewrite zbits_app, Z.shiftr_shiftr, zbits_u8 by lia. do 3 f_equal; lia.
Qed.

Lemma modq_encode_spec logn h dst :
  (2 <= logn)%nat -> length h = degree logn -> Forall is_modq h ->
  (7 * Nat.pow 2 (logn - 2) <= length dst)%nat ->
  exists bytes,
    modq_encode logn h dst = (bytes ++ drop (length bytes) dst, length bytes) /\
    length bytes = (7 * Nat.pow 2 (logn - 2))%nat /\
    Forall is_byte bytes /\ bytes_bits bytes = fields 14 h.
Proof.
  intros Hlogn Hh Hr Hd. destruct (degree_4 logn Hlogn) as [Hn Hc].
  unfold modq_encode. rewrite Hc. set (m := Nat.pow 2 (logn - 2)) in *.
  pose proof (for_ind (fun c '(d, j) => j = (7 * c)%nat /\ length d = length dst /\
    drop j d = drop j dst /\ Forall is_byte (take j d) /\
    bytes_bits (take j d) = fields 14 (take (4 * c) h)) m (modq_encode_chunk h) (dst, 0%nat)) as Hloop.
  cbv beta in Hloop. destruct (for_ m _ _) as [d j].
  destruct Hloop as (-> & Hl & Hdr & Hf & Hb).
  - rewrite Nat.mul_0_r. repeat split; done || constructor.
  - intros c [d' j'] Hcm (-> & Hl & Hdr & Hf & Hb). unfold modq_encode_chunk.
    cbv zeta. rewrite Nat.add_0_r.
    match goal with |- context [u8 (?x .>> _)] =>
      pose proof (modq_bytes_spec x d' (7 * c) ltac:(lia) Hf) as Hs end.
    destruct (for_ 7 _ _) as [d2 j2]. destruct Hs as (-> & Hl2 & Hd2 & Hf2 & Hb2).
    split; [lia|]. split; [lia|]. split; [rewrite Hd2; by apply (drop_more _ _ (7 * c)); [lia|]|]. split; [done|].
    rewrite Hb2, Hb. rewrite chunk_bits by (apply get_Forall; [done|lia]).
    replace (4 * S c)%nat with (S (S (S (S (4 * c))))) by lia.
    rewrite !take_S_get, !fields_app, !fields_single by lia. rewrite <- !app_assoc.
    do 4 (f_equal; try (f_equal; f_equal; lia)).
  - exists (take (7 * m) d). rewrite length_take, Nat.min_l by lia.
    rewrite <- Hdr, take_drop. split; [done|]. split; [done|]. split; [done|].
    by rewrite Hb, take_ge by lia.
Qed.

(** The accumulation of seven bytes. *)
Lemma modq_acc_spec src i :
  Forall is_byte src -> (i + 7 <= length src)%nat ->
  let x := for_ 7 (fun k x => u64 (x .<< 8) .| src.[i + k]) 0 in
  zbits 56 x ++ bytes_bits (drop (i + 7) src) = bytes_bits (drop i src).
Proof.
  intros Hb Hi. cbv zeta.
  pose proof (for_ind (fun k x => 0 <= x < 2 ^ (8 * Z.of_nat k) /\
      zbits (8 * k) x ++ bytes_bits (drop (i + k) src) = bytes_bits (drop i src)) 7
    (fun k x => u64 (x .<< 8) .| src.[i + k]) 0) as Hloop.
  cbv beta in Hloop. apply Hloop; clear Hloop.
  { rewrite Nat.add_0_r. split; [simpl; lia|done]. }
  intros k x Hk [Hx He]. pose proof (get_Forall _ src (i + k) Hb ltac:(lia)) as Hy.
  unfold is_byte in Hy.
  assert (2 ^ (8 * Z.of_nat k + 8) = 256 * 2 ^ (8 * Z.of_nat k)) as Hp
    by (rewrite Z.pow_add_r by lia; lia).
  assert (2 ^ (8 * Z.of_nat k + 8) <= 2 ^ 64) by (apply Z.pow_le_mono_r; lia).
  rewrite u64_small by (shifts_to_div; lia).
  replace (8 * Z.of_nat (S k)) with (8 * Z.of_nat k + 8) by lia. split.
  - split; [apply Z.lor_nonneg; shifts_to_div; lia|].
    rewrite shl_mul by lia. apply lor_lt_pow2; lia.
  - replace (8 * S k)%nat with (8 * k + 8)%nat by lia.
    change 8 with (Z.of_nat 8) at 1. rewrite zbits_push by (simpl; lia).
    rewrite <- He. rewrite (drop_S_get src (i + k)), bytes_bits_cons by lia.
    rewrite <- app_assoc. do 4 f_equal. lia.
Qed.

Definition modq_rejects (n : nat) (bits : list bool) : Prop :=
  forall s R, length s = n -> Forall is_modq s -> bits ++ R <> fields 14 s.

Lemma field14 y : u32 (y .& 16383) = y mod 2 ^ 14 /\ u16 (y mod 2 ^ 14) = y mod 2 ^ 14 /\
  0 <= y mod 2 ^ 14 < 2 ^ 14 /\ zbits 14 (y mod 2 ^ 14) = zbits 14 y.
Proof.
  pose proof (Z.mod_pos_bound y (2 ^ 14) ltac:(lia)).
  split; [change 16383 with (Z.ones 14); rewrite Z.land_ones by lia; apply u32_small; lia|].
  split; [apply u16_small; lia|]. split; [done|]. by apply (zbits_mod 14 y 14).
Qed.

Lemma modq_chunk_inv src m c h :
  Forall is_byte src -> length h = (4 * m)%nat -> (c < m)%nat -> (7 * m <= length src)%nat ->
  Forall is_modq (take (4 * c) h) ->
  fields 14 (take (4 * c) h) ++ bytes_bits (drop (7 * c) src) = bytes_bits src ->
  match modq_decode_chunk src c ((7 * c)%nat, h) with
  | Ok (i, h') => i = (7 * S c)%nat /\ length h' = (4 * m)%nat /\
      Forall is_modq (take (4 * S c) h') /\
      fields 14 (take (4 * S c) h') ++ bytes_bits (drop (7 * S c) src) = bytes_bits src
  | Err _ => forall s rest, length s = (4 * m)%nat -> Forall is_modq s ->
      bytes_bits src <> fields 14 s ++ rest
  end.
Proof.
  intros Hb Hh Hc Hs Hr He. unfold modq_decode_chunk.
  pose proof (modq_acc_spec src (7 * c) Hb ltac:(lia)) as Hx. cbv zeta in *.
  set (x := for_ 7 _ 0) in *. clearbody x. rewrite chunk_split in Hx.
  destruct (field14 (x .>> 42)) as (-> & E0 & R0 & Z0), (field14 (x .>> 28)) as (-> & E1 & R1 & Z1).
  destruct (field14 (x .>> 14)) as (-> & E2 & R2 & Z2), (field14 x) as (-> & E3 & R3 & Z3).
  rewrite E0, E1, E2, E3. rewrite <- Z0, <- Z1, <- Z2, <- Z3 in Hx. clear E0 E1 E2 E3 Z0 Z1 Z2 Z3.
  set (h0 := (x .>> 42) mod _) in *. set (h1 := (x .>> 28) mod _) in *.
  set (h2 := (x .>> 14) mod _) in *. set (h3 := x mod _) in *. clearbody h0 h1 h2 h3.
  destruct ((q <=? h0) || (q <=? h1) || (q <=? h2) || (q <=? h3)) eqn:Eb.
  - intros s rest Hls Hrs Heq. rewrite <- He in Heq.
    rewrite <- (take_drop (4 * c) s), fields_app, <- app_assoc in Heq.
    apply app_inj_1 in Heq as [_ Heq]; [|rewrite !length_fields, !length_take; lia].
    rewrite <- Hx, <- !app_assoc in Heq.
    assert (4 <= length (drop (4 * c) s))%nat as Hl4 by (rewrite length_drop; lia).
    apply (Forall_drop _ (4 * c)) in Hrs.
    destruct (drop (4 * c) s) as [|y0 [|y1 [|y2 [|y3 s']]]]; simpl in Hl4; try lia.
    rewrite !fields_cons, <- !app_assoc in Heq.
    repeat match goal with H : Forall is_modq (_ :: _) |- _ => inversion_clear H end.
    unfold is_modq, q in *.
    do 4 (apply app_inj_1 in Heq as [?%zbits_inj Heq]; [|simpl; lia..|by rewrite !length_zbits]).
    lia.
  - split; [lia|]. split; [by rewrite !length_set|].
    replace (4 * S c)%nat with (S (4 * c + 3))%nat by lia. unfold q in *.
    rewrite !Nat.add_0_r, take_set_S by (rewrite ?length_set; lia).
    replace (4 * c + 3)%nat with (S (4 * c + 2))%nat by lia.
    rewrite take_set_S by (rewrite ?length_set; lia).
    replace (4 * c + 2)%nat with (S (4 * c + 1))%nat by lia.
    rewrite take_set_S by (rewrite ?length_set; lia).
    replace (4 * c + 1)%nat with (S (4 * c))%nat by lia.
    rewrite take_set_S by (rewrite ?length_set; lia). split.
    + repeat (apply Forall_app; split); try done; constructor; try constructor; unfold is_modq, q; lia.
    + rewrite !fields_app, !fields_single, <- !app_assoc.
      replace (7 * S c)%nat with (7 * c + 7)%nat by lia.
      rewrite <- !app_assoc in Hx. by rewrite Hx.
Qed.

Lemma modq_decode_spec logn src h :
  (2 <= logn)%nat -> length h = degree logn -> Forall is_byte src ->
  let needed := (7 * Nat.pow 2 (logn - 2))%nat in
  match modq_decode logn src h with
  | Ok (k, s) => k = needed /\ (needed <= length src)%nat /\ length s = degree logn /\
      Forall is_modq s /\ bytes_bits (take needed src) = fields 14 s
  | Err _ => forall s, length s = degree logn -> Forall is_modq s ->
      bytes_bits (take needed src) <> fields 14 s
  end.
Proof.
  intros Hlogn Hh Hb. cbv zeta. destruct (degree_4 logn Hlogn) as [Hn Hc]. unfold modq_decode.
  destruct (Nat.ltb_spec logn 2); [lia|]. rewrite Hc, Hn in *. clear Hn Hc.
  set (m := Nat.pow 2 (logn - 2)) in *. clearbody m.
  destruct (Nat.ltb_spec (length src) (7 * m)) as [Hlt|Hge].
  { intros s Hs _ He. apply (f_equal length) in He.
    rewrite length_fields, length_bytes_bits, length_take in He. lia. }
  pose proof (try_spec (fun c '(i, h') => i = (7 * c)%nat /\ length h' = (4 * m)%nat /\
      Forall is_modq (take (4 * c) h') /\
      fields 14 (take (4 * c) h') ++ bytes_bits (drop (7 * c) src) = bytes_bits src)
    (fun _ => forall s rest, length s = (4 * m)%nat -> Forall is_modq s ->
      bytes_bits src <> fields 14 s ++ rest) m (modq_decode_chunk src) (0%nat, h)) as Ht.
  cbv beta in Ht.
  assert (bytes_bits src = bytes_bits (take (7 * m) src) ++ bytes_bits (drop (7 * m) src)) as Hsplit
    by (by rewrite <- bytes_bits_app, take_drop).
  feed_loop Ht.
  { simpl. repeat split; done || constructor. }
  { intros c [i' h'] Hcm (-> & ? & ? & ?). by apply (modq_chunk_inv src m). }
  destruct (try_ _ _ _) as [[i s]|]; cbn [mbind result_bind].
  - destruct Ht as (-> & Hl & Hr & He).
    rewrite take_ge in Hr, He by lia. rewrite Hsplit in He.
    apply app_inj_1 in He as [He _].
    2:{ rewrite length_fields, length_bytes_bits, length_take. lia. }
    by repeat split.
  - intros s Hs Hrs He. apply (Ht s (bytes_bits (drop (7 * m) src)) Hs Hrs).
    by rewrite Hsplit, He.
Qed.

(** * The compressed format *)

(** The code of [x]: the sign, the low seven bits of [|x|], the rest in unary. *)
Definition comp_bits (x : Z) : list bool :=
  (x <? 0) :: zbits 7 (Z.abs x) ++ replicate (Z.to_nat (Z.abs x / 128)) false ++ [true].
Definition comp_stream (s : list Z) : list bool := concat (comp_bits <$> s).

Definition comp_range (x : Z) : Prop := -2047 <= x <= 2047.
#[export] Instance comp_range_dec x : Decision (comp_range x).
Proof. apply _. Defined.

Lemma comp_stream_cons x s : comp_stream (x :: s) = comp_bits x ++ comp_stream s.
Proof. done. Qed.
Lemma comp_stream_app s t : comp_stream (s ++ t) = comp_stream s ++ comp_stream t.
Proof. unfold comp_stream. by rewrite fmap_app, concat_app. Qed.
Lemma comp_stream_snoc s x : comp_stream (s ++ [x]) = comp_stream s ++ comp_bits x.
Proof. rewrite comp_stream_app, comp_stream_cons. unfold comp_stream. by rewrite app_nil_r. Qed.

Lemma length_comp_bits x : length (comp_bits x) = (9 + Z.to_nat (Z.abs x / 128))%nat.
Proof. unfold comp_bits. cbn [length]. rewrite !length_app, length_zbits, length_replicate. simpl. lia. Qed.

Lemma length_written d w : writer_ok d w -> (w.(w_j) <= length d)%nat ->
  length (written w) = (8 * w.(w_j) + w.(w_acc_len))%nat.
Proof.
  intros [Hl _ _] Hj. unfold written.
  rewrite length_app, length_bytes_bits, length_zbits, length_take. lia.
Qed.

(** The flushing loop writes the same bits, or the destination is too short. *)
Lemma comp_flush_spec d fuel w :
  writer_ok d w -> (w.(w_acc_len) <= 8 * fuel + 7)%nat -> (w.(w_j) <= length d)%nat ->
  match comp_flush fuel w with
  | Ok w' => writer_ok d w' /\ (w'.(w_j) <= length d)%nat /\ written w' = written w /\
             (w'.(w_acc_len) < 8)%nat
  | Err d' => length d' = length d /\ (8 * length d < length (written w))%nat
  end.
Proof.
  revert w. induction fuel as [|fuel IH]; intros w Hw Hf Hj; cbn [comp_flush].
  - repeat split; try apply Hw; lia.
  - destruct (Nat.leb_spec 8 w.(w_acc_len)) as [Hge|Hlt].
    2:{ repeat split; try apply Hw; lia. }
    rewrite (wo_len d w) by done.
    destruct (Nat.leb_spec (length d) w.(w_j)) as [Hfull|Hroom].
    { split; [apply Hw|]. rewrite (length_written d) by done. lia. }
    destruct (writer_step d w (w_acc_len w - 8) Hw ltac:(lia) ltac:(lia)) as [Hw' He].
    rewrite <- He. apply IH; [done|cbn [w_acc_len w_j]; lia..].
Qed.

(** The absolute value and the sign mask of an [int16]. *)
Lemma comp_abs x : comp_range x ->
  u32 (x .>> 16) = (if x <? 0 then Z.ones 32 else 0) /\
  (u32 x .^ u32 (x .>> 16)) -% u32 (x .>> 16) = Z.abs x.
Proof.
  unfold comp_range. intros Hx. destruct (Z.ltb_spec x 0).
  - assert (x .>> 16 = -1) as -> by (rewrite shr_div by lia; symmetry;
      apply (Z.div_unique_pos _ _ _ (x + 65536)); lia).
    change (u32 (-1)) with (Z.ones 32). split; [done|].
    assert (u32 x .^ Z.ones 32 = u32 (- x - 1)) as ->.
    { unfold u32. change 4294967295 with (Z.ones 32).
      apply Z.bits_inj'. intros n Hn. replace (- x - 1) with (Z.lnot x) by (unfold Z.lnot; lia).
      rewrite Z.lxor_spec, !Z.land_spec, Z.lnot_spec by lia.
      destruct (Z.testbit x n), (Z.testbit (Z.ones 32) n); done. }
    change (Z.ones 32) with 4294967295. rewrite (u32_small (- x - 1)) by lia.
    rewrite u32_neg by lia. lia.
  - assert (x .>> 16 = 0) as -> by (rewrite shr_div by lia; apply Z.div_small; lia).
    change (u32 0) with 0. rewrite Z.lxor_0_r, Z.sub_0_r, !u32_small by (rewrite ?u32_small; lia).
    split; [done|lia].
Qed.

Lemma comp_head_bits x : comp_range x ->
  let y := (u32 (x .>> 16) .& 128) .| (Z.abs x .& 127) in
  0 <= y < 2 ^ 8 /\ zbits 8 y = (x <? 0) :: zbits 7 (Z.abs x).
Proof.
  intros Hx. cbv zeta. destruct (comp_abs x Hx) as [-> _]. split.
  - apply lor_lt_pow2; [lia|..]; rewrite Z.land_comm; apply land_lt_pow2; lia.
  - change (zbits 8 ?y) with (Z.testbit y 7 :: zbits 7 y). f_equal.
    + rewrite Z.lor_spec, !Z.land_spec. change (Z.testbit 127 7) with false.
      rewrite andb_false_r, orb_false_r. by destruct (x <? 0).
    + apply zbits_ext. intros i Hi. rewrite Z.lor_spec, !Z.land_spec.
      change 128 with (2 ^ 7). change 127 with (Z.ones 7).
      rewrite Z.pow2_bits_false, Z.ones_spec_low by lia.
      by rewrite andb_false_r, andb_true_r.
Qed.

Lemma comp_encode_coeff_spec d x w :
  writer_ok d w -> (w.(w_j) <= length d)%nat -> (w.(w_acc_len) < 8)%nat ->
  match comp_encode_coeff x w with
  | Ok w' => comp_range x /\ writer_ok d w' /\ (w'.(w_j) <= length d)%nat /\
      (w'.(w_acc_len) < 8)%nat /\ written w' = written w ++ comp_bits x
  | Err d' => length d' = length d /\
      (comp_range x -> (8 * length d < length (written w ++ comp_bits x))%nat)
  end.
Proof.
  intros Hw Hj Ha. unfold comp_encode_coeff. destruct ((x <? -2047) || (2047 <? x)) eqn:Eb.
  { split; [apply Hw|]. unfold comp_range. lia. }
  assert (Hx : comp_range x) by (unfold comp_range; lia).
  cbv zeta. destruct (comp_abs x Hx) as [_ ->]. destruct (comp_head_bits x Hx) as [Hy Hyb].
  rewrite <- Z.lor_assoc. set (y := _ .| (Z.abs x .& 127)) in *. clearbody y.
  assert (0 <= Z.abs x / 128 < 16) as Hv.
  { unfold comp_range in Hx. split; [apply Z.div_pos|apply Z.div_lt_upper_bound]; lia. }
  rewrite (shr_div _ 7) by lia. change (2 ^ 7) with 128. rewrite (u32_small (_ + 1)) by lia.
  set (u := Z.abs x / 128) in *. set (acc := u32 (_ .<< (u + 1)) .| 1).
  set (n := Z.to_nat u).
  assert (Z.to_nat (u + 1) = S n) as -> by lia.
  set (w1 := Writer _ _ acc _).
  assert (written w1 = written w ++ comp_bits x) as Hwr.
  { unfold w1, written. cbn [w_dst w_j w_acc w_acc_len]. unfold acc.
    replace (u + 1) with (Z.of_nat (S n)) by lia.
    rewrite acc_push; [|lia|lia|pose proof (Z.pow_gt_1 2 (Z.of_nat (S n))); lia].
    change 8 with (Z.of_nat 8). rewrite acc_push by lia. rewrite zbits_one, Hyb.
    unfold comp_bits. fold u. fold n. by rewrite <- !app_assoc. }
  pose proof (comp_flush_spec d (w_acc_len w1) w1) as Hs.
  destruct (comp_flush _ w1) as [w'|d'].
  - destruct Hs as (S1 & S2 & S3 & S4); [by destruct Hw; split|lia|done|].
    rewrite <- Hwr. done.
  - rewrite <- Hwr. destruct Hs as [S1 S2]; [by destruct Hw; split|lia|done|]. done.
Qed.

Lemma comp_encode_last_spec d w :
  writer_ok d w -> (w.(w_j) <= length d)%nat -> (w.(w_acc_len) < 8)%nat ->
  match comp_encode_last w with
  | Ok w' => writer_ok d w' /\ (w'.(w_j) <= length d)%nat /\
      exists k, bytes_bits (take w'.(w_j) w'.(w_dst)) = written w ++ replicate k false
  | Err d' => length d' = length d /\ (8 * length d < length (written w))%nat
  end.
Proof.
  intros Hw Hj Ha. pose proof (length_written d w Hw Hj) as Hlen. destruct Hw as [Hl Hd Hf].
  unfold comp_encode_last. destruct (Nat.ltb_spec 0 (w_acc_len w)) as [Hp|Hz].
  - rewrite Hl. destruct (Nat.leb_spec (length d) (w_j w)) as [Hfull|Hroom]; [lia|].
    cbn [w_dst w_j]. split; [split; cbn [w_dst w_j]|].
    + by rewrite length_set.
    + rewrite drop_set by lia. by apply (drop_more _ _ (w_j w)); [lia|].
    + rewrite take_set_S by lia. apply Forall_app. split; [done|].
      constructor; [apply u8_range|constructor].
    + split; [lia|]. exists (8 - w_acc_len w)%nat.
      rewrite take_set_S, bytes_bits_app, bytes_bits_cons, bytes_bits_nil, app_nil_r by lia.
      unfold written. rewrite <- app_assoc. f_equal. rewrite zbits_u8 by lia.
      rewrite <- zbits_zero. rewrite <- acc_push; [|lia|lia|].
      2:{ split; [done|]. apply Z.pow_pos_nonneg; lia. }
      rewrite Z.lor_0_r. f_equal. lia.
  - split; [by split|]. split; [done|]. exists 0%nat. rewrite app_nil_r. unfold written.
    replace (w_acc_len w) with 0%nat by lia. by rewrite app_nil_r.
Qed.

(** The rest of the destination becomes zero. *)
Lemma comp_encode_pad_spec w :
  (w.(w_j) <= length w.(w_dst))%nat ->
  comp_encode_pad w = take w.(w_j) w.(w_dst) ++ replicate (length w.(w_dst) - w.(w_j)) 0.
Proof.
  intros Hj. unfold comp_encode_pad. set (j := w_j w) in *. set (d := w_dst w) in *.
  pose proof (for_ind (fun k e => length e = length d /\ take (j + k) e = take j d ++ replicate k 0)
    (length d - j) (fun k e => e.[j + k <- u8 0]) d) as Hloop.
  cbv beta in Hloop. feed_loop Hloop.
  - rewrite Nat.add_0_r, app_nil_r. done.
  - intros k e Hk [He Ht]. rewrite length_set. split; [done|].
    replace (j + S k)%nat with (S (j + k)) by lia. rewrite take_set_S by lia.
    rewrite Ht, <- app_assoc. by rewrite replicate_S_end.
  - destruct Hloop as [He <-]. by rewrite take_ge by lia.
Qed.

Lemma comp_stream_take s c : (length (comp_stream (take c s)) <= length (comp_stream s))%nat.
Proof. rewrite <- (take_drop c s) at 2. rewrite comp_stream_app, length_app. lia. Qed.

Lemma comp_encode_spec logn s dst :
  length s = degree logn ->
  let '(d, ok) := comp_encode logn s dst in
  length d = length dst /\
  if ok then Forall comp_range s /\ Forall is_byte d /\
    exists k, bytes_bits d = comp_stream s ++ replicate k false
  else Forall comp_range s -> (8 * length dst < length (comp_stream s))%nat.
Proof.
  intros Hs. unfold comp_encode.
  pose proof (try_spec (fun c w => Forall comp_range (take c s) /\ writer_ok dst w /\
      (w.(w_j) <= length dst)%nat /\ (w.(w_acc_len) < 8)%nat /\ written w = comp_stream (take c s))
    (fun d => length d = length dst /\
      (Forall comp_range s -> (8 * length dst < length (comp_stream s))%nat))
    (degree logn) (fun i w => comp_encode_coeff s.[i] w) (Writer dst 0 0 0)) as Hloop.
  cbv beta in Hloop. feed_loop Hloop.
  - repeat split; simpl; lia || done || constructor.
  - intros c w Hc (Hr & Hw & Hj & Ha & He).
    pose proof (comp_encode_coeff_spec dst s.[c] w Hw Hj Ha) as Hx.
    destruct (comp_encode_coeff s.[c] w) as [w'|d'].
    + destruct Hx as (X1 & X2 & X3 & X4 & X5). rewrite take_S_get by lia.
      split; [apply Forall_app; split; [done|by constructor]|]. split; [done|]. split; [done|].
      split; [done|]. by rewrite comp_stream_snoc, X5, He.
    + destruct Hx as [X1 X2]. split; [done|]. intros Hall.
      specialize (X2 ltac:(apply get_Forall; [done|lia])).
      rewrite He, <- comp_stream_snoc, <- take_S_get in X2 by lia.
      pose proof (comp_stream_take s (S c)). lia.
  - destruct (try_ _ _ _) as [w|d]; cbn [mbind result_bind]; [|done].
    destruct Hloop as (Hr & Hw & Hj & Ha & He). rewrite take_ge in Hr, He by lia.
    pose proof (comp_encode_last_spec dst w Hw Hj Ha) as Hl.
    destruct (comp_encode_last w) as [w'|d];
      [|rewrite <- He; destruct Hl; split; [done|by intros _]].
    destruct Hl as ([L1 L2 L3] & L4 & k & L5). rewrite comp_encode_pad_spec by lia.
    split; [rewrite length_app, length_take, length_replicate; lia|]. split; [done|].
    split.
    + apply Forall_app. split; [done|]. apply Forall_replicate. unfold is_byte. lia.
    + rewrite bytes_bits_app, bytes_bits_replicate, L5, He, <- app_assoc, <- replicate_add. eauto.
Qed.

(** What a reader has still to consume. *)
Definition rest (src : list Z) (r : reader) : list bool :=
  zbits r.(r_acc_len) r.(r_acc) ++ bytes_bits (drop r.(r_i) src).

Lemma land1_testbit x n : 0 <= n -> (x .>> n) .& 1 = Z.b2z (Z.testbit x n).
Proof.
  intros Hn. change 1 with (Z.ones 1). rewrite Z.land_ones, shr_div by lia.
  by rewrite Z.testbit_spec'.
Qed.

Lemma b2z_eqb b : negb (Z.b2z b =? 0) = b.
Proof. by destruct b. Qed.

Lemma rest_push src i acc a :
  Forall is_byte src -> (i < length src)%nat -> (a <= 8)%nat ->
  rest src (Reader (S i) (u32 (acc .<< 8) .| src.[i]) (a + 8)) = rest src (Reader i acc a).
Proof.
  intros Hb Hi Ha. unfold rest. cbn [r_i r_acc r_acc_len].
  pose proof (get_Forall _ src i Hb Hi) as Hy. rewrite (acc_push 8) by (done || lia).
  rewrite (drop_S_get src i), bytes_bits_cons by done. by rewrite <- app_assoc.
Qed.

Lemma comp_refill_spec src r :
  Forall is_byte src -> (r.(r_acc_len) <= 8)%nat ->
  match comp_refill src r with
  | Ok r' => rest src r' = rest src r /\ (0 < r'.(r_acc_len) <= 8)%nat
  | Err _ => rest src r = []
  end.
Proof.
  intros Hb Ha. unfold comp_refill. destruct (Nat.eqb_spec (r_acc_len r) 0) as [Hz|]; [|split; [done|lia]].
  destruct (Nat.leb_spec (length src) (r_i r)).
  - unfold rest. rewrite Hz, drop_ge by lia. done.
  - split; [|simpl; lia]. destruct r as [i acc a]. simpl in Hz. subst a.
    exact (rest_push src i acc 0 Hb ltac:(done) ltac:(lia)).
Qed.

Lemma unary_inj t u (R R' : list bool) :
  replicate t false ++ true :: R = replicate u false ++ true :: R' -> t = u /\ R = R'.
Proof.
  revert u. induction t as [|t IH]; intros [|u]; simpl; try done.
  - by intros [= ->].
  - intros [= He]. apply IH in He as [-> ->]. done.
Qed.

(** The unary loop reads [t] zeros and a one, for every [t] that keeps the
    value in range; the fuel is never exhausted. *)
Lemma comp_unary_spec fuel src m r :
  Forall is_byte src -> (r.(r_acc_len) <= 8)%nat -> 0 <= m <= 2047 ->
  2047 - m < 128 * Z.of_nat fuel ->
  match comp_unary fuel src m r with
  | Ok (m', r') => exists t, m' = m + 128 * Z.of_nat t /\ m' <= 2047 /\
      rest src r = replicate t false ++ true :: rest src r' /\ (r'.(r_acc_len) < 8)%nat
  | Err _ => forall t R, m + 128 * Z.of_nat t <= 2047 ->
      rest src r <> replicate t false ++ true :: R
  end.
Proof.
  intros Hb. revert m r. induction fuel as [|fuel IH]; intros m r Ha Hm Hf; [lia|].
  cbn [comp_unary]. pose proof (comp_refill_spec src r Hb Ha) as Hr.
  destruct (comp_refill src r) as [r1|]; cbn [mbind result_bind].
  2:{ intros t R _. rewrite Hr. by destruct t. }
  destruct Hr as [Hr Ha1]. destruct r1 as [i acc [|a]]; cbn [r_acc_len r_i r_acc] in *; [lia|].
  rewrite Nat.sub_succ, Nat.sub_0_r, land1_testbit, b2z_eqb by lia.
  assert (rest src r = Z.testbit acc (Z.of_nat a) :: rest src (Reader i acc a)) as He by done.
  destruct (Z.testbit acc (Z.of_nat a)).
  { exists 0%nat. simpl. repeat split; [lia|lia|done|lia]. }
  destruct (decide (m + 128 <= 2047)) as [Hle|Hgt].
  - rewrite u32_small by lia. destruct (Z.ltb_spec 2047 (m + 128)); [lia|].
    specialize (IH (m + 128) (Reader i acc a) ltac:(simpl; lia) ltac:(lia) ltac:(lia)).
    destruct (comp_unary fuel src (m + 128) _) as [[m' r']|].
    + destruct IH as (t & -> & H1 & H2 & H3). exists (S t). simpl. rewrite He, H2.
      repeat split; [lia|lia|done].
    + intros [|t] R Ht; rewrite He; simpl; [done|]. intros [= Heq]. apply (IH t R); [lia|done].
  - rewrite u32_small by lia. destruct (Z.ltb_spec 2047 (m + 128)); [|lia].
    intros [|t] R Ht; rewrite He; simpl; [done|]. lia.
Qed.

(** The sign applied to the absolute value, and the test for "minus zero". *)
Lemma comp_sign b m : 0 <= m <= 2047 ->
  negb (Z.b2z b .& ((m -% 1) .>> 31) =? 0) = b && (m =? 0) /\
  (b && (m =? 0) = false -> i16 ((m .^ (-% Z.b2z b)) +% Z.b2z b) = if b then - m else m).
Proof.
  intros Hm. assert ((m -% 1) .>> 31 = if m =? 0 then 1 else 0) as ->.
  { destruct (Z.eqb_spec m 0) as [->|]; [done|].
    rewrite u32_small, shr_div by lia. apply Z.div_small. lia. }
  split; [by destruct b, (m =? 0)|]. intros Hz. destruct b; cbn [Z.b2z].
  - simpl in Hz. apply Z.eqb_neq in Hz. change (-% 1) with (Z.ones 32).
    assert (m .^ Z.ones 32 = Z.ones 32 - m) as ->.
    {
      rewrite Z.sub_nocarry_ldiff.
      - apply Z.bits_inj'. intros n Hn. rewrite Z.lxor_spec, Z.ldiff_spec.
        destruct (decide (n < 32)).
        + rewrite Z.ones_spec_low by lia. by destruct (Z.testbit m n).
        + rewrite Z.ones_spec_high by lia. rewrite xorb_false_r. simpl.
          rewrite <- (Z.mod_small m (2 ^ 32)) by lia. apply Z.mod_pow2_bits_high. lia.
      - apply Z.bits_inj'. intros n Hn. rewrite Z.ldiff_spec, Z.testbit_0_l.
        destruct (decide (n < 32)).
        + rewrite Z.ones_spec_low by lia. apply andb_false_r.
        + rewrite <- (Z.mod_small m (2 ^ 32)), Z.mod_pow2_bits_high by lia. done. }
    change (Z.ones 32) with 4294967295. rewrite u32_small by lia.
    unfold i16. rewrite u16_mod.
    rewrite <- (Z.mod_unique_pos _ (2 ^ 16) 65536 (32768 - m)); lia.
  - change (-% 0) with 0. rewrite Z.lxor_0_r, Z.add_0_r, u32_small by lia.
    apply i16_small. lia.
Qed.

Lemma comp_bits_app x R :
  comp_bits x ++ R =
  (x <? 0) :: zbits 7 (Z.abs x) ++ replicate (Z.to_nat (Z.abs x / 128)) false ++ true :: R.
Proof. unfold comp_bits. by rewrite <- app_comm_cons, <- !app_assoc. Qed.

(** The head of a code: sign, low bits, unary part. *)
Lemma comp_bits_inj x b m t (R R' : list bool) :
  0 <= m < 128 ->
  comp_bits x ++ R = b :: zbits 7 m ++ replicate t false ++ true :: R' ->
  (x <? 0) = b /\ Z.abs x = m + 128 * Z.of_nat t /\ R = R'.
Proof.
  intros Hm He. rewrite comp_bits_app in He. apply (prefix_step [_] _ [_]) in He as [[= Hs] He]; [|done].
  apply prefix_step in He as [H7 He]; [|by rewrite !length_zbits].
  apply unary_inj in He as [Ht ->]. apply zbits_inj_mod in H7.
  change (2 ^ Z.of_nat 7) with 128 in H7. rewrite (Z.mod_small m) in H7 by done.
  split; [done|]. split; [|done]. pose proof (Z.div_mod (Z.abs x) 128 ltac:(lia)).
  pose proof (Z.div_pos (Z.abs x) 128 ltac:(lia) ltac:(lia)). lia.
Qed.

Lemma comp_bits_intro b m t R :
  0 <= m < 128 -> b && (m + 128 * Z.of_nat t =? 0) = false ->
  comp_bits (if b then - (m + 128 * Z.of_nat t) else m + 128 * Z.of_nat t) ++ R
  = b :: zbits 7 m ++ replicate t false ++ true :: R.
Proof.
  intros Hm Hz. rewrite comp_bits_app. set (v := m + 128 * Z.of_nat t) in *.
  assert (Z.abs (if b then - v else v) = v) as -> by (destruct b; lia).
  assert (((if b then - v else v) <? 0) = b) as ->.
  { destruct b; [|apply Z.ltb_ge; lia]. apply Z.ltb_lt. simpl in Hz. apply Z.eqb_neq in Hz. lia. }
  f_equal. f_equal.
  - apply zbits_inj_mod. change (2 ^ Z.of_nat 7) with 128. unfold v.
    rewrite Z.mul_comm, Z.mod_add by lia. done.
  - do 2 f_equal. unfold v. rewrite Z.mul_comm, Z.div_add, Z.div_small by lia. lia.
Qed.

Lemma comp_decode_coeff_spec src r :
  Forall is_byte src -> (r.(r_acc_len) < 8)%nat ->
  match comp_decode_coeff src r with
  | Ok (x, r') => comp_range x /\ rest src r = comp_bits x ++ rest src r' /\
                  (r'.(r_acc_len) < 8)%nat
  | Err _ => forall x R, comp_range x -> rest src r <> comp_bits x ++ R
  end.
Proof.
  intros Hb Ha. destruct r as [i acc a]. cbn [r_acc_len] in Ha. unfold comp_decode_coeff.
  cbn [r_i r_acc r_acc_len]. destruct (Nat.leb_spec (length src) i) as [Hend|Hi].
  { intros x R _ He. apply (f_equal length) in He. unfold rest in He. cbn [r_i r_acc r_acc_len] in He.
    rewrite drop_ge in He by lia.
    rewrite !length_app, length_zbits, length_bytes_bits, length_comp_bits in He. simpl in He. lia. }
  set (acc' := u32 (acc .<< 8) .| src.[i]). cbv zeta.
  pose proof (rest_push src i acc a Hb Hi ltac:(lia)) as Hpush. fold acc' in Hpush.
  rewrite land1_testbit by lia.
  assert ((acc' .>> Z.of_nat a) .& 127 = (acc' .>> Z.of_nat a) mod 128) as ->.
  { change 127 with (Z.ones 7). by rewrite Z.land_ones by lia. }
  set (m := (acc' .>> Z.of_nat a) mod 128). set (b := Z.testbit acc' (Z.of_nat a + 7)).
  assert (0 <= m < 128) as Hm by (apply Z.mod_pos_bound; lia).
  assert (rest src (Reader i acc a) = b :: zbits 7 m ++ rest src (Reader (S i) acc' a)) as Hrest.
  { rewrite <- Hpush. unfold rest. cbn [r_i r_acc r_acc_len].
    rewrite (Nat.add_comm a 8), zbits_app, <- app_assoc.
    change (zbits 8 ?y) with (Z.testbit y 7 :: zbits 7 y). rewrite <- app_comm_cons. f_equal.
    - unfold b. rewrite Z.shiftr_spec by lia. f_equal. lia.
    - f_equal. symmetry. by apply (zbits_mod 7 _ 7). }
  replace (Z.of_nat (a + 7)) with (Z.of_nat a + 7) by lia. fold b. rewrite Hrest. clear Hrest Hpush.
  pose proof (comp_unary_spec 17 src m (Reader (S i) acc' a) Hb ltac:(simpl; lia) ltac:(lia)
    ltac:(lia)) as Hu.
  set (r1 := Reader (S i) acc' a) in *. clearbody m b r1. clear acc'.
  destruct (comp_unary 17 src m r1) as [[m' r']|]; cbn [mbind result_bind].
  - destruct Hu as (t & -> & Hle & -> & Hr').
    destruct (comp_sign b (m + 128 * Z.of_nat t) ltac:(lia)) as [-> Hval].
    destruct (b && (m + 128 * Z.of_nat t =? 0)) eqn:Ez.
    + intros x R Hx He. symmetry in He. apply comp_bits_inj in He as (Hs & Habs & _); [|done].
      destruct b; simpl in Ez; [|done]. lia.
    + rewrite Hval by done. split; [|split; [|done]].
      * unfold comp_range. destruct b; lia.
      * by rewrite comp_bits_intro.
  - intros x R Hx He. symmetry in He. rewrite comp_bits_app in He.
    apply (prefix_step [_] _ [_]) in He as [_ He]; [|done].
    apply prefix_step in He as [H7 He]; [|by rewrite !length_zbits].
    symmetry in He. revert He. apply Hu. apply zbits_inj_mod in H7.
    change (2 ^ Z.of_nat 7) with 128 in H7. rewrite (Z.mod_small m) in H7 by done.
    unfold comp_range in Hx. pose proof (Z.div_mod (Z.abs x) 128 ltac:(lia)).
    pose proof (Z.div_pos (Z.abs x) 128 ltac:(lia) ltac:(lia)). lia.
Qed.

(** The code is prefix free. *)
Lemma comp_bits_prefix x y (R R' : list bool) : comp_bits x ++ R = comp_bits y ++ R' -> x = y /\ R = R'.
Proof.
  intros He. rewrite (comp_bits_app y) in He.
  assert (zbits 7 (Z.abs y) = zbits 7 (Z.abs y mod 128)) as H7
    by (symmetry; by apply (zbits_mod 7 _ 7)).
  rewrite H7 in He. apply comp_bits_inj in He as (Hs & Ha & ->); [|apply Z.mod_pos_bound; lia].
  pose proof (Z.div_mod (Z.abs y) 128 ltac:(lia)).
  pose proof (Z.div_pos (Z.abs y) 128 ltac:(lia) ltac:(lia)). split; [lia|done].
Qed.

Lemma comp_stream_prefix s t (R R' : list bool) :
  length s = length t -> comp_stream s ++ R = comp_stream t ++ R' -> s = t /\ R = R'.
Proof.
  revert t. induction s as [|x s IH]; intros [|y t] Hl He; try done.
  rewrite !comp_stream_cons, <- !app_assoc in He. apply comp_bits_prefix in He as [-> He].
  apply IH in He as [-> ->]; [done|]. by injection Hl.
Qed.

Lemma comp_decode_end_spec src r :
  Forall is_byte src -> (r.(r_acc_len) < 8)%nat ->
  match comp_decode_end src r with
  | Ok _ => exists k, rest src r = replicate k false
  | Err _ => forall k, rest src r <> replicate k false
  end.
Proof.
  intros Hb Ha. unfold comp_decode_end. rewrite mask_bits by lia.
  destruct ((0 <? r_acc_len r)%nat && negb (r_acc r mod _ =? 0)) eqn:Eb.
  { intros k He. apply andb_prop in Eb as [_ Hne].
    unfold rest in He. pose proof (f_equal (take (r_acc_len r)) He) as Ht.
    rewrite take_app_length', take_replicate in Ht by (by rewrite length_zbits).
    pose proof (f_equal length Ht) as Hl. rewrite length_zbits, length_replicate in Hl.
    rewrite <- Hl in Ht. apply zbits_all_false in Ht. by rewrite Ht in Hne. }
  assert (zbits (r_acc_len r) (r_acc r) = replicate (r_acc_len r) false) as Hz.
  { rewrite <- zbits_zero. apply zbits_inj_mod. rewrite Z.mod_0_l by (apply Z.pow_nonzero; lia).
    destruct (Nat.ltb_spec 0 (r_acc_len r)) as [|Hle].
    - simpl in Eb. apply negb_false_iff, Z.eqb_eq in Eb. done.
    - replace (r_acc_len r) with 0%nat by lia. apply Z.mod_1_r. }
  set (n := (length src - r_i r)%nat).
  match goal with |- context [try_ n ?b tt] =>
    pose proof (try_spec (fun k _ => forall j, (j < k)%nat -> src.[r_i r + j] = 0)
      (fun _ => exists j, (j < n)%nat /\ src.[r_i r + j] <> 0) n b tt) as Hloop end.
  cbv beta in Hloop. feed_loop Hloop.
  - intros; lia.
  - intros k _ Hk IH. destruct (Z.eqb_spec src.[r_i r + k] 0); simpl; [|by exists k].
    intros j Hj. destruct (decide (j = k)) as [->|]; [done|apply IH; lia].
  - destruct (try_ n _ tt) as [[]|].
    + exists (r_acc_len r + 8 * n)%nat. unfold rest. rewrite Hz, replicate_add. f_equal.
      rewrite <- bytes_bits_replicate. f_equal. apply get_ext.
      * rewrite length_drop, length_replicate. done.
      * intros j Hj. rewrite length_drop in Hj. rewrite get_drop, Hloop by (unfold n; lia).
        symmetry. apply get_lookup. apply lookup_replicate_2. unfold n. lia.
    + destruct Hloop as (j & Hj & Hne). intros k He. apply Hne.
      unfold rest in He. pose proof (f_equal (drop (r_acc_len r)) He) as Hd.
      rewrite drop_app_length', drop_replicate in Hd by (by rewrite length_zbits).
      assert (bytes_bits (drop (r_i r) src) = bytes_bits (replicate n 0)) as Hbb.
      { rewrite bytes_bits_replicate. pose proof (f_equal length Hd) as Hl.
        rewrite length_bytes_bits, length_replicate, length_drop in Hl.
        rewrite Hd. f_equal. lia. }
      apply bytes_bits_inj in Hbb; [|by apply Forall_drop|apply Forall_replicate; unfold is_byte; lia|
        by rewrite length_drop, length_replicate].
      rewrite <- get_drop, Hbb. by apply get_lookup, lookup_replicate_2.
Qed.

(** Decoding succeeds exactly on the encodings of values in range followed by
    zero bits, and yields the values. *)
Lemma comp_decode_spec logn src f :
  length f = degree logn -> Forall is_byte src ->
  match comp_decode logn src f with
  | Ok s => length s = degree logn /\ Forall comp_range s /\
      exists k, bytes_bits src = comp_stream s ++ replicate k false
  | Err _ => forall s k, length s = degree logn -> Forall comp_range s ->
      bytes_bits src <> comp_stream s ++ replicate k false
  end.
Proof.
  intros Hf Hb. unfold comp_decode. set (n := degree logn) in *.
  match goal with |- context [try_ n ?b ?s0] =>
    pose proof (try_spec (fun j '(f, r) => length f = n /\ Forall comp_range (take j f) /\
        bytes_bits src = comp_stream (take j f) ++ rest src r /\ (r.(r_acc_len) < 8)%nat)
      (fun _ => forall s R, length s = n -> Forall comp_range s -> bytes_bits src <> comp_stream s ++ R)
      n b s0) as Hloop end.
  cbv beta in Hloop. feed_loop Hloop.
  - simpl. repeat split; done || lia || constructor.
  - intros j [g r] Hj (Hl & Hr & He & Ha).
    pose proof (comp_decode_coeff_spec src r Hb Ha) as Hc.
    destruct (comp_decode_coeff src r) as [[x r']|]; cbn [mbind result_bind].
    + destruct Hc as (Hx & Hrest & Ha'). split; [by rewrite length_set|].
      rewrite take_set_S by lia. split; [apply Forall_app; split; [done|by constructor]|].
      split; [|done]. by rewrite comp_stream_snoc, <- app_assoc, <- Hrest.
    + intros s R Hs Hrs Heq. rewrite He in Heq.
      rewrite <- (take_drop j s), comp_stream_app, <- app_assoc in Heq.
      apply comp_stream_prefix in Heq as [_ Heq]; [|rewrite !length_take; lia].
      rewrite (drop_S_get s), comp_stream_cons, <- app_assoc in Heq by lia.
      revert Heq. apply Hc. apply get_Forall; [done|lia].
  - destruct (try_ n _ _) as [[g r]|]; cbn [mbind result_bind].
    2:{ intros s k Hs Hrs. by apply Hloop. }
    destruct Hloop as (Hl & Hr & He & Ha). rewrite take_ge in Hr, He by lia.
    pose proof (comp_decode_end_spec src r Hb Ha) as Hend.
    destruct (comp_decode_end src r); cbn [mbind result_bind].
    + destruct Hend as [k Hk]. rewrite Hk in He. eauto.
    + intros s k Hs Hrs Heq. rewrite He in Heq.
      apply comp_stream_prefix in Heq as [_ Heq]; [|lia]. by apply (Hend k).
Qed.

(** * The contracts *)

(** A fixed-size field stream determines its fields. *)
Lemma fields_inj_Forall k (P : Z -> Prop) s t :
  (forall x y, P x -> P y -> zbits k x = zbits k y -> x = y) ->
  length s = length t -> Forall P s -> Forall P t -> fields k s = fields k t -> s = t.
Proof.
  intros Hinj Hl Hs Ht He. apply get_ext; [done|]. intros i Hi.
  apply Hinj; [by apply get_Forall|apply get_Forall; [done|lia]|]. by apply fields_inj.
Qed.

Lemma modq_inj x y : is_modq x -> is_modq y -> zbits 14 x = zbits 14 y -> x = y.
Proof. unfold is_modq, q. intros. apply (zbits_inj 14); [simpl; lia..|done]. Qed.

(** Two byte strings that start with the same bits and continue with zeros. *)
Lemma bytes_bits_padded a b (bits : list bool) k l :
  Forall is_byte a -> Forall is_byte b -> length a = length b ->
  bytes_bits a = bits ++ replicate k false -> bytes_bits b = bits ++ replicate l false -> a = b.
Proof.
  intros Ha Hb Hl Ea Eb. apply bytes_bits_inj; [done..|]. rewrite Ea, Eb. do 2 f_equal.
  pose proof (f_equal length Ea) as L1. pose proof (f_equal length Eb) as L2.
  rewrite length_app, length_replicate, length_bytes_bits in L1, L2. lia.
Qed.

Lemma modq_decode_encode logn src g k h dst :
  (2 <= logn)%nat -> length g = degree logn -> Forall is_byte src ->
  (7 * Nat.pow 2 (logn - 2) <= length dst)%nat ->
  modq_decode logn src g = Ok (k, h) <->
  k = (7 * Nat.pow 2 (logn - 2))%nat /\ (k <= length src)%nat /\
  length h = degree logn /\ Forall is_modq h /\
  modq_encode logn h dst = (take k src ++ drop k dst, k).
Proof.
  intros Hlogn Hg Hb Hdst. pose proof (modq_decode_spec logn src g Hlogn Hg Hb) as Hs.
  cbv zeta in Hs. split.
  - intros Hd. rewrite Hd in Hs. destruct Hs as (-> & Hle & Hl & Hr & He).
    repeat (split; [done|]).
    destruct (modq_encode_spec logn h dst Hlogn Hl Hr Hdst) as (bs & -> & Hlb & Hbs & Hbits).
    rewrite Hlb. do 2 f_equal. apply bytes_bits_inj; [done|by apply Forall_take| |congruence].
    rewrite length_take; lia.
  - intros (-> & Hle & Hl & Hr & He).
    destruct (modq_encode_spec logn h dst Hlogn Hl Hr Hdst) as (bs & He' & Hlb & Hbs & Hbits).
    rewrite He in He'. apply (f_equal fst) in He'. cbn [fst] in He'.
    apply app_inj_1 in He' as [Ht _]; [|rewrite length_take; lia]. rewrite Ht in Hs.
    destruct (modq_decode logn src g) as [[k s]|]; [|by destruct (Hs h Hl Hr)].
    destruct Hs as (-> & _ & Hls & Hrs & He'). do 2 f_equal.
    apply (fields_inj_Forall 14 is_modq); [by apply modq_inj|lia|done..|congruence].
Qed.

Lemma comp_decode_encode logn src f s dst :
  length f = degree logn -> Forall is_byte src -> length dst = length src ->
  comp_decode logn src f = Ok s <->
  length s = degree logn /\ comp_encode logn s dst = (src, true).
Proof.
  intros Hf Hb Hdst. pose proof (comp_decode_spec logn src f Hf Hb) as Hs. split.
  - intros Hd. rewrite Hd in Hs. destruct Hs as (Hl & Hr & k & He). split; [done|].
    pose proof (comp_encode_spec logn s dst Hl) as Henc.
    destruct (comp_encode logn s dst) as [d [|]]; destruct Henc as [Hld Henc].
    + destruct Henc as (_ & Hbd & l & Hed). f_equal.
      apply (bytes_bits_padded d src (comp_stream s) l k); [done|done|lia|done..].
    + specialize (Henc Hr). apply (f_equal length) in He.
      rewrite length_app, length_bytes_bits in He. lia.
  - intros [Hl Henc]. pose proof (comp_encode_spec logn s dst Hl) as Hse. rewrite Henc in Hse.
    destruct Hse as (_ & Hr & _ & k & Hbits).
    destruct (comp_decode logn src f) as [s'|]; [|by destruct (Hs s k Hl Hr)].
    destruct Hs as (Hl' & _ & k' & Hbits'). rewrite Hbits in Hbits'.
    apply comp_stream_prefix in Hbits' as [-> _]; [done|lia].
Qed.

(** [trim_i8_decode] inverts [trim_i8_encode]: for every field size the
    private-key format uses, the bytes the encoder writes decode to the
    coefficients it was given, whatever the two output arrays held before. *)
Theorem trim_i8_roundtrip logn nbits f dst g :
  (5 <= nbits <= 8)%nat -> (nbits * degree logn mod 8 = 0)%nat ->
  length f = degree logn -> Forall (trim_range nbits) f ->
  (nbits * degree logn / 8 <= length dst)%nat -> Forall is_byte dst -> length g = degree logn ->
  let '(d, k) := trim_i8_encode logn f nbits dst in
  trim_i8_decode logn d g nbits = Ok (k, f).
Proof.
  intros Hn Hm Hf Hr Hd Hb Hg.
  destruct (trim_i8_encode_spec logn nbits ltac:(lia) f dst Hf Hm Hd) as (bs & -> & Hbs & Hbits).
  pose proof (f_equal length Hbits) as Hl. rewrite length_bytes_bits, length_fields, Hf in Hl.
  assert ((nbits * degree logn / 8 = length bs)%nat) as Hk
    by (rewrite <- Hl, Nat.mul_comm; apply Nat.div_mul; lia).
  pose proof (trim_i8_decode_spec nbits Hn logn (bs ++ drop (length bs) dst) g Hg Hm) as Hs.
  cbv zeta in Hs. rewrite Hk, take_app_length in Hs.
  specialize (Hs ltac:(apply Forall_app; split; [done|by apply Forall_drop])).
  destruct (trim_i8_decode _ _ _ _) as [[k s]|]; [|by destruct (Hs f Hf Hr)].
  destruct Hs as (-> & _ & Hls & Hrs & He). do 2 f_equal.
  apply (fields_inj_Forall nbits (trim_range nbits)); [by apply trim_range_inj|lia|done..|congruence].
Qed.

(** The private-key fields have no second encoding: what [trim_i8_decode]
    accepts is what [trim_i8_encode] writes for the decoded values, and the
    values are in the symmetric range. *)
Theorem trim_i8_canonical logn nbits src g k f dst :
  (5 <= nbits <= 8)%nat -> (nbits * degree logn mod 8 = 0)%nat ->
  length g = degree logn -> Forall is_byte src ->
  trim_i8_decode logn src g nbits = Ok (k, f) -> (k <= length dst)%nat ->
  Forall (trim_range nbits) f /\
  trim_i8_encode logn f nbits dst = (take k src ++ drop k dst, k).
Proof.
  intros Hn Hm Hg Hb Hd Hk.
  pose proof (trim_i8_decode_spec nbits Hn logn src g Hg Hm Hb) as Hs. rewrite Hd in Hs.
  destruct Hs as (-> & Hle & Hls & Hrs & He). split; [done|].
  destruct (trim_i8_encode_spec logn nbits ltac:(lia) f dst Hls Hm Hk) as (bs & -> & Hbs & Hbits).
  pose proof (f_equal length Hbits) as Hl. rewrite length_bytes_bits, length_fields, Hls in Hl.
  assert ((nbits * degree logn / 8 = length bs)%nat) as Hkk
    by (rewrite <- Hl, Nat.mul_comm; apply Nat.div_mul; lia).
  rewrite Hkk in *. assert (bs = take (length bs) src) as <-; [|done].
  apply bytes_bits_inj; [done|by apply Forall_take|rewrite length_take; lia|congruence].
Qed.

(** Public-key polynomials: [modq_decode] accepts exactly the byte strings
    [modq_encode] writes for values in [0 .. q-1], and returns these values. *)
Theorem modq_decode_iff logn src g k h dst :
  (2 <= logn)%nat -> length g = degree logn -> Forall is_byte src ->
  (7 * Nat.pow 2 (logn - 2) <= length dst)%nat ->
  modq_decode logn src g = Ok (k, h) <->
  k = (7 * Nat.pow 2 (logn - 2))%nat /\ (k <= length src)%nat /\
  length h = degree logn /\ Forall is_modq h /\
  modq_encode logn h dst = (take k src ++ drop k dst, k).
Proof. apply modq_decode_encode. Qed.

(** (C31) Signatures are not malleable in their encoding: [comp_decode] accepts a
    byte string, and returns [s], exactly when [comp_encode] writes that very
    byte string for [s] (whatever the destination held). *)
Theorem comp_decode_iff logn src f s dst :
  length f = degree logn -> Forall is_byte src -> length dst = length src ->
  comp_decode logn src f = Ok s <->
  length s = degree logn /\ comp_encode logn s dst = (src, true).
Proof. apply comp_decode_encode. Qed.

(** When [comp_encode] fails: a value is out of range, or the code of the
    polynomial is longer than the destination.  The length of the code of [x]
    is [9 + |x| / 128] bits. *)
Theorem comp_encode_fails logn s dst :
  length s = degree logn -> Forall comp_range s ->
  snd (comp_encode logn s dst) = true <->
  zsum (length s) (fun i => 9 + Z.abs s.[i] / 128) <= 8 * Z.of_nat (length dst).
Proof.
  intros Hl Hr.
  assert (Z.of_nat (length (comp_stream s)) = zsum (length s) (fun i => 9 + Z.abs s.[i] / 128)) as <-.
  { clear Hl Hr. induction s as [|x s IH] using rev_ind; [done|].
    rewrite comp_stream_snoc, !length_app, length_comp_bits. simpl length. rewrite Nat.add_1_r.
    cbn [zsum]. rewrite get_app_r, Nat.sub_diag by lia. cbn [get].
    rewrite (zsum_ext _ _ (fun i => 9 + Z.abs s.[i] / 128)) by (intros; by rewrite get_app_l by lia).
    rewrite <- IH. change ([x].[0]) with x. pose proof (Z.div_pos (Z.abs x) 128 ltac:(lia) ltac:(lia)).
    lia. }
  pose proof (comp_encode_spec logn s dst Hl) as Henc.
  destruct (comp_encode logn s dst) as [d [|]]; destruct Henc as [Hld Henc]; cbn [snd].
  - destruct Henc as (_ & _ & k & He). apply (f_equal length) in He.
    rewrite length_app, length_bytes_bits in He. split; [lia|done].
  - specialize (Henc Hr). split; [done|lia].
Qed.

(** * The contracts at concrete inputs *)

Lemma trim_i8_roundtrip_witness :
  let '(d, k) := trim_i8_encode 3 [1; -1; 15; -15; 0; 7; -8; 3] 5 (replicate 6 255) in
  trim_i8_decode 3 d (replicate 8 0) 5 = Ok (k, [1; -1; 15; -15; 0; 7; -8; 3]).
Proof.
  apply (trim_i8_roundtrip 3 5 [1; -1; 15; -15; 0; 7; -8; 3] (replicate 6 255) (replicate 8 0));
    try reflexivity; try (vm_compute; lia).
  - each ltac:(unfold trim_range; simpl; lia).
  - each ltac:(unfold is_byte; lia).
Defined.

Lemma trim_i8_canonical_witness :
  Forall (trim_range 5) [1; -1; 15; -15; 0; 7; -8; 3] /\
  trim_i8_encode 3 [1; -1; 15; -15; 0; 7; -8; 3] 5 (replicate 5 0) = ([15; 223; 16; 31; 3], 5%nat).
Proof.
  apply (trim_i8_canonical 3 5 [15; 223; 16; 31; 3] (replicate 8 0) 5 _ (replicate 5 0));
    try reflexivity; try (simpl; lia).
  each ltac:(unfold is_byte; lia).
Defined.

Lemma modq_decode_iff_witness :
  modq_encode 2 [1; 12288; 0; 5] (replicate 7 0) = ([0; 7; 0; 0; 0; 0; 5], 7%nat) /\
  modq_decode 2 [0; 7; 0; 0; 0; 0; 5] (replicate 4 0) = Ok (7%nat, [1; 12288; 0; 5]).
Proof.
  split; [vm_compute; reflexivity|].
  apply (modq_decode_iff 2 [0; 7; 0; 0; 0; 0; 5] (replicate 4 0) 7 [1; 12288; 0; 5] (replicate 7 0)).
  - lia.
  - reflexivity.
  - each ltac:(unfold is_byte; lia).
  - vm_compute. lia.
  - split; [reflexivity|]. split; [simpl; lia|]. split; [reflexivity|].
    split; [each ltac:(unfold is_modq, q; lia)|vm_compute; reflexivity].
Defined.

Lemma comp_decode_iff_witness :
  comp_decode 2 [129; 128; 224; 160; 16] (replicate 4 0) = Ok [-1; 1; -2; 0].
Proof.
  apply (comp_decode_iff 2 [129; 128; 224; 160; 16] (replicate 4 0) [-1; 1; -2; 0] (replicate 5 7)).
  - reflexivity.
  - each ltac:(unfold is_byte; lia).
  - reflexivity.
  - split; vm_compute; reflexivity.
Defined.

Lemma comp_encode_fails_witness :
  snd (comp_encode 2 [-2047; 2047; 0; 1] (replicate 8 0)) = false /\
  snd (comp_encode 2 [-2047; 2047; 0; 1] (replicate 9 0)) = true.
Proof.
  split; [vm_compute; reflexivity|].
  apply (comp_encode_fails 2 [-2047; 2047; 0; 1] (replicate 9 0));
    [reflexivity|each ltac:(unfold comp_range; lia)|vm_compute; discriminate].
Defined.
