(* ===== verification/Util.v ===== *)
(** Sizes, hashing to a polynomial and the SHAKE256 generator ([util.go]).

    SHAKE256 itself (golang.org/x/crypto/sha3) is a parameter: [shake m i] is
    byte [i] of the output for the absorbed bytes [m].  A [sha3.ShakeHash] is
    what it has absorbed and how much of the output has been read. *)
From Stdlib Require Import ZArith Lia.
From stdpp Require Import base numbers list strings.
From S2P Require Import Prelude Mq Bits Codec.
Local Open Scope Z_scope.

(** ** Sizes *)

Definition nbits_fg (logn : nat) : nat :=
  match logn with
  | 2 | 3 | 4 | 5 => 8
  | 6 | 7 => 7
  | 8 | 9 => 6
  | _ => 5
  end%nat.

(** For [logn >= 2]; the shift counts of the code wrap below. *)
Definition SigningKeySize (logn : nat) : nat :=
  (1 + nbits_fg logn * 2 ^ (logn - 2) + 2 ^ logn)%nat.

Definition VerifyingKeySize (logn : nat) : nat := (1 + 7 * 2 ^ (logn - 2))%nat.

(** For [logn <= 10]; the differences are non-negative there. *)
Definition SignatureSize (logn : nat) : nat :=
  let sh k := Nat.shiftr k (10 - logn) in
  (44 + 3 * sh 256 + 2 * sh 128 + 3 * sh 64 + 2 * sh 16 - 2 * sh 2 - 8 * sh 1)%nat.

(** ** SHAKE256 *)

Class Shake := shake : list Z -> nat -> Z.
Class ShakeLaws `{Shake} := shake_byte m i : 0 <= shake m i < 256.

Record xof := Xof { xof_in : list Z; xof_pos : nat }.
Definition xof_new : xof := Xof [] 0.
Definition xof_write (x : xof) (data : list Z) : xof := Xof (x.(xof_in) ++ data) x.(xof_pos).
Definition xof_read `{Shake} (n : nat) (x : xof) : list Z * xof :=
  ((fun i => shake x.(xof_in) (x.(xof_pos) + i)) <$> seq 0 n, Xof x.(xof_in) (x.(xof_pos) + n)).

(** ** Hashing to a point *)

(** The numbers of [crypto.Hash] the code names. *)
Definition hash_ORIGINAL : Z := 4294967295.
Definition SHA256 : Z := 5.
Definition SHA384 : Z := 6.
Definition SHA512 : Z := 7.
Definition SHA3_256 : Z := 11.
Definition SHA3_384 : Z := 12.
Definition SHA3_512 : Z := 13.
Definition SHA512_256 : Z := 15.

Definition oid_NONE : list Z := [].
Definition oid_SHA256 : list Z := [6; 9; 96; 134; 72; 1; 101; 3; 4; 2; 1].
Definition oid_SHA384 : list Z := [6; 9; 96; 134; 72; 1; 101; 3; 4; 2; 2].
Definition oid_SHA512 : list Z := [6; 9; 96; 134; 72; 1; 101; 3; 4; 2; 3].
Definition oid_SHA512_256 : list Z := [6; 9; 96; 134; 72; 1; 101; 3; 4; 2; 6].
Definition oid_SHA3_256 : list Z := [6; 9; 96; 134; 72; 1; 101; 3; 4; 2; 8].
Definition oid_SHA3_384 : list Z := [6; 9; 96; 134; 72; 1; 101; 3; 4; 2; 9].
Definition oid_SHA3_512 : list Z := [6; 9; 96; 134; 72; 1; 101; 3; 4; 2; 10].

Definition hash_oid (id : Z) : option (list Z) :=
  if id =? 0 then Some oid_NONE
  else if id =? SHA256 then Some oid_SHA256
  else if id =? SHA384 then Some oid_SHA384
  else if id =? SHA512 then Some oid_SHA512
  else if id =? SHA512_256 then Some oid_SHA512_256
  else if id =? SHA3_256 then Some oid_SHA3_256
  else if id =? SHA3_384 then Some oid_SHA3_384
  else if id =? SHA3_512 then Some oid_SHA3_512
  else None.

(** What [hash_to_point] absorbs, or why it refuses. *)
Definition hash_to_point_input (nonce hashed_vrfy_key ctx : list Z) (id : Z) (data : list Z)
    : result string xof :=
  let sh := xof_write xof_new nonce in
  if id =? hash_ORIGINAL then Ok (xof_write sh data)
  else
    let sh := xof_write sh hashed_vrfy_key in
    let hb0 := if id =? 0 then 0 else 1 in
    if (255 <? length ctx)%nat then Err "Oversized domain separation context"%string
    else
      let hb1 := u8 (Z.of_nat (length ctx)) in
      let sh := xof_write sh [hb0; hb1] in
      let sh := xof_write sh ctx in
      match hash_oid id with
      | None => Err "Unknown pre-hash function identifier"%string
      | Some oid => Ok (xof_write (xof_write sh oid) data)
      end.

(** [for w >= q { w -= q }], for [w < 5 q]. *)
Fixpoint htp_reduce (fuel : nat) (w : Z) : Z :=
  match fuel with
  | O => w
  | S fuel' => if q <=? w then htp_reduce fuel' (w - q) else w
  end.

(** The rejection loop: [None] when [fuel] reads are not enough. *)
Fixpoint hash_to_point_loop `{Shake} (fuel n i : nat) (sh : xof) (c : list Z) : option (list Z) :=
  if (n <=? i)%nat then Some c
  else match fuel with
  | O => None
  | S fuel' =>
      let '(v, sh) := xof_read 2 sh in
      let w := (v.[0] .<< 8) .| v.[1] in
      if w <? 61445 then hash_to_point_loop fuel' n (S i) sh (c.[i <- u16 (htp_reduce 4 w)])
      else hash_to_point_loop fuel' n i sh c
  end.

(** [None]: still looping after [fuel] reads; an error leaves [c] as it is. *)
Definition hash_to_point `{Shake} (fuel logn : nat) (nonce hashed_vrfy_key ctx : list Z) (id : Z)
    (data c : list Z) : option (result string (list Z)) :=
  match hash_to_point_input nonce hashed_vrfy_key ctx id data with
  | Err e => Some (Err e)
  | Ok sh => Ok <$> hash_to_point_loop fuel (degree logn) 0 sh c
  end.

Definition hash_verifying_key `{Shake} (vkey : list Z) : list Z :=
  fst (xof_read 64 (xof_write xof_new vkey)).

(** ** The generator *)

Record shake256prng := Prng { state : xof; buf : list Z; ptr : nat }.

Definition newSHAKE256prng (seed : list Z) : shake256prng :=
  Prng (xof_write xof_new seed) (replicate 136 0) 136.

Definition next_u8 `{Shake} (r : shake256prng) : Z * shake256prng :=
  let '(r, ptr) :=
    if (r.(ptr) =? length r.(buf))%nat then
      let '(b, st) := xof_read (length r.(buf)) r.(state) in (Prng st b r.(ptr), 0%nat)
    else (r, r.(ptr)) in
  (r.(buf).[ptr], Prng r.(state) r.(buf) (ptr + 1)).

Definition next_u16 `{Shake} (r : shake256prng) : Z * shake256prng :=
  let p := r.(ptr) in
  if (length r.(buf) - 1 <=? p)%nat then
    let '(x, r) := next_u8 r in
    let '(y, r) := next_u8 r in
    (u16 (x + u16 (y .<< 8)), r)
  else
    (u16 (r.(buf).[p] + u16 (r.(buf).[p + 1] .<< 8)), Prng r.(state) r.(buf) (p + 2)).

Definition next_u64 `{Shake} (r : shake256prng) : Z * shake256prng :=
  let p := r.(ptr) in
  if (length r.(buf) - 7 <=? p)%nat then
    for_ 8 (fun i '(x, r) =>
      let '(y, r) := next_u8 r in (u64 (x + u64 (y .<< (Z.of_nat i * 8))), r)) (0, r)
  else
    (for_ 8 (fun i x => u64 (x + u64 (r.(buf).[p + i] .<< (Z.of_nat i * 8)))) 0,
     Prng r.(state) r.(buf) (p + 8)).

(** * Rejection sampling *)

Lemma htp_reduce_spec w : 0 <= w < 61445 -> htp_reduce 4 w = w mod q.
Proof.
  intros Hw. unfold htp_reduce, q.
  repeat match goal with |- context [?a <=? ?b] => destruct (Z.leb_spec a b) end; try lia;
    symmetry; Z.to_euclidean_division_equations; lia.
Qed.

Section HashToPoint.
Context `{Hsh : Shake} {Hlaws : ShakeLaws}.

(** The 16-bit words of an output, big-endian. *)
Definition xof_word (m : list Z) (k : nat) : Z := 256 * shake m (2 * k) + shake m (2 * k + 1).

Definition accepted (m : list Z) (k n : nat) : list Z :=
  (fun w => w mod q) <$> filter (fun w => w < 61445) (xof_word m <$> seq k n).

Lemma accepted_S m k n :
  accepted m k (S n) =
  (if decide (xof_word m k < 61445) then [xof_word m k mod q] else []) ++ accepted m (S k) n.
Proof using. unfold accepted. cbn [seq fmap list_fmap]. rewrite filter_cons. by case_decide. Qed.

Lemma xof_word_range m k : 0 <= xof_word m k < 65536.
Proof using Hlaws.
  unfold xof_word. pose proof (shake_byte m (2 * k)). pose proof (shake_byte m (2 * k + 1)). lia.
Qed.

Lemma xof_word_read m k :
  xof_read 2 (Xof m (2 * k)) = ([shake m (2 * k); shake m (2 * k + 1)], Xof m (2 * S k)) /\
  (shake m (2 * k) .<< 8) .| shake m (2 * k + 1) = xof_word m k.
Proof using Hlaws.
  split.
  - unfold xof_read. cbn [seq fmap list_fmap xof_in xof_pos]. rewrite Nat.add_0_r.
    do 2 f_equal. lia.
  - pose proof (shake_byte m (2 * k + 1)). rewrite shl_mul by lia. unfold xof_word.
    rewrite lor_shifted by lia. lia.
Qed.

Lemma hash_to_point_loop_spec fuel m k n i c :
  length c = n -> (i <= n)%nat ->
  hash_to_point_loop fuel n i (Xof m (2 * k)) c =
  if decide (n - i <= length (accepted m k fuel))%nat
  then Some (take i c ++ take (n - i) (accepted m k fuel)) else None.
Proof using Hlaws.
  intros Hc. revert k i c Hc. induction fuel as [|fuel IH]; intros k i c Hc Hi; cbn [hash_to_point_loop].
  - destruct (Nat.leb_spec n i).
    + replace i with n by lia. rewrite Nat.sub_diag. rewrite take_ge by lia.
      simpl. by rewrite app_nil_r.
    + case_decide as Hd; [|done]. unfold accepted in Hd. simpl in Hd. lia.
  - destruct (Nat.leb_spec n i).
    + replace i with n by lia. rewrite Nat.sub_diag, take_ge, decide_True by lia.
      simpl. by rewrite app_nil_r.
    + destruct (xof_word_read m k) as [-> Hw]. cbn [get]. rewrite accepted_S.
      change ([shake m (2 * k); shake m (2 * k + 1)].[0]) with (shake m (2 * k)).
      change ([shake m (2 * k); shake m (2 * k + 1)].[1]) with (shake m (2 * k + 1)).
      rewrite Hw. pose proof (xof_word_range m k) as Hr.
      destruct (Z.ltb_spec (xof_word m k) 61445) as [Hlt|Hge].
      * rewrite IH by (rewrite ?length_set; lia). rewrite (decide_True (P := xof_word m k < _)) by done.
        rewrite htp_reduce_spec by lia.
        pose proof (Z.mod_pos_bound (xof_word m k) q ltac:(unfold q; lia)) as Hm.
        rewrite u16_small by (unfold q in *; lia). cbn [app length].
        replace (n - i)%nat with (S (n - S i)) by lia. cbn [take].
        case_decide as D1; case_decide as D2; try lia; [|done].
        rewrite take_set_S by lia. by rewrite <- app_assoc.
      * rewrite IH by lia. rewrite (decide_False (P := xof_word m k < _)) by lia. done.
Qed.
End HashToPoint.

(** * The generator as a stream *)

Section Prng.
Context `{Hsh : Shake} {Hlaws : ShakeLaws}.

(** [prng_at m k r]: the next byte [r] yields is byte [k] of the output. *)
Record prng_at (m : list Z) (k : nat) (r : shake256prng) : Prop := PrngAt {
  pa_in : xof_in (state r) = m;
  pa_len : length (buf r) = 136%nat;
  pa_ptr : (ptr r <= 136)%nat;
  pa_pos : (xof_pos (state r) + ptr r = k + 136)%nat;
  pa_buf : (ptr r < 136)%nat -> buf r = (fun i => shake m (xof_pos (state r) - 136 + i)) <$> seq 0 136;
  pa_filled : (ptr r < 136)%nat -> (136 <= xof_pos (state r))%nat;
}.

Lemma prng_new m : prng_at m 0 (newSHAKE256prng m).
Proof using. split; simpl; done || lia. Qed.

Lemma prng_get m k r i :
  prng_at m k r -> (ptr r + i < 136)%nat -> (buf r).[ptr r + i] = shake m (k + i).
Proof using.
  intros [? ? ? Hp Hb Hf] Hi. rewrite Hb by lia. specialize (Hf ltac:(lia)).
  unfold get. rewrite list_lookup_fmap, lookup_seq_lt by lia. simpl. f_equal. lia.
Qed.

Lemma prng_skip m k r n :
  prng_at m k r -> (ptr r + n <= 136)%nat -> prng_at m (k + n) (Prng (state r) (buf r) (ptr r + n)).
Proof using.
  intros [? ? ? Hp Hb Hf] Hn.
  split; cbn [state buf ptr]; [done|done|done|lia| |]; intros; (apply Hb || apply Hf); lia.
Qed.

Lemma next_u8_spec m k r :
  prng_at m k r -> fst (next_u8 r) = shake m k /\ prng_at m (S k) (snd (next_u8 r)).
Proof using.
  intros Hr. unfold next_u8. destruct (Nat.eqb_spec (ptr r) (length (buf r))) as [He|Hne].
  - destruct Hr as [Hi Hl Hp Hpos Hb Hf].
    assert (prng_at m k (Prng (snd (xof_read 136 (state r))) (fst (xof_read 136 (state r))) 0)) as H'.
    { split; cbn [state buf ptr xof_read fst snd xof_in xof_pos];
        [done|by rewrite length_fmap, length_seq|lia..| |lia].
      intros _. rewrite Hi. apply list_fmap_ext. intros. f_equal. lia. }
    rewrite Hl. unfold xof_read at 1. cbn [fst snd state buf ptr]. split.
    + pose proof (prng_get m k _ 0 H' ltac:(simpl; lia)) as Hg. rewrite !Nat.add_0_r in Hg. exact Hg.
    + rewrite <- Nat.add_1_r. exact (prng_skip m k _ 1 H' ltac:(simpl; lia)).
  - pose proof (pa_len _ _ _ Hr). pose proof (pa_ptr _ _ _ Hr). cbn [fst snd]. split.
    + pose proof (prng_get m k r 0 Hr ltac:(lia)) as Hg. by rewrite !Nat.add_0_r in Hg.
    + rewrite <- (Nat.add_1_r k). apply prng_skip; [done|lia].
Qed.

Lemma next_u16_spec m k r :
  prng_at m k r ->
  fst (next_u16 r) = shake m k + 256 * shake m (k + 1) /\ prng_at m (k + 2) (snd (next_u16 r)).
Proof using Hlaws.
  intros Hr. unfold next_u16. pose proof (shake_byte m k). pose proof (shake_byte m (k + 1)).
  assert (u16 (shake m k + u16 (shake m (k + 1) .<< 8)) = shake m k + 256 * shake m (k + 1)) as Hv
    by (rewrite shl_mul, (u16_small (_ * _)), u16_small by lia; lia).
  rewrite (pa_len _ _ _ Hr). destruct (Nat.leb_spec (136 - 1) (ptr r)).
  - pose proof (next_u8_spec m k r Hr) as Hn1. destruct (next_u8 r) as [x r1]. cbn [fst snd] in Hn1.
    destruct Hn1 as [-> Hn1]. pose proof (next_u8_spec m (S k) r1 Hn1) as Hn2.
    destruct (next_u8 r1) as [y r2]. cbn [fst snd] in *. destruct Hn2 as [-> Hn2].
    rewrite <- (Nat.add_1_r k), Hv. split; [done|]. by replace (k + 2)%nat with (S (S k)) by lia.
  - cbn [fst snd]. split; [|apply prng_skip; [done|lia]].
    rewrite (prng_get m k r 1 Hr) by lia.
    pose proof (prng_get m k r 0 Hr ltac:(lia)) as H0'. rewrite !Nat.add_0_r in H0'. by rewrite H0'.
Qed.

(** Little-endian value of [n] bytes from position [k]. *)
Definition le_word (m : list Z) (k n : nat) : Z :=
  zsum n (fun i => shake m (k + i) * 2 ^ (8 * Z.of_nat i)).

Lemma le_word_range m k n : 0 <= le_word m k n < 2 ^ (8 * Z.of_nat n).
Proof using Hlaws.
  unfold le_word. induction n as [|n IH]; [done|]. cbn [zsum]. pose proof (shake_byte m (k + n)).
  replace (2 ^ (8 * Z.of_nat (S n))) with (256 * 2 ^ (8 * Z.of_nat n)).
  - nia.
  - replace (8 * Z.of_nat (S n)) with (8 + 8 * Z.of_nat n) by lia. by rewrite Z.pow_add_r by lia.
Qed.

Lemma le_word_step m k i :
  (i < 8)%nat ->
  u64 (le_word m k i + u64 (shake m (k + i) .<< (Z.of_nat i * 8))) = le_word m k (S i).
Proof using Hlaws.
  intros Hi. pose proof (le_word_range m k (S i)) as Hr. pose proof (le_word_range m k i) as Hr0.
  pose proof (Z.pow_le_mono_r 2 (8 * Z.of_nat (S i)) 64 ltac:(lia) ltac:(lia)).
  pose proof (shake_byte m (k + i)). unfold le_word in *. cbn [zsum] in Hr |- *.
  rewrite (Z.mul_comm (Z.of_nat i)), shl_mul by lia.
  rewrite (u64_small (_ * _)) by nia. apply u64_small. lia.
Qed.

Lemma next_u64_spec m k r :
  prng_at m k r -> fst (next_u64 r) = le_word m k 8 /\ prng_at m (k + 8) (snd (next_u64 r)).
Proof using Hlaws.
  intros Hr. unfold next_u64. rewrite (pa_len _ _ _ Hr).
  destruct (Nat.leb_spec (136 - 7) (ptr r)).
  - apply (for_ind (fun i st => fst st = le_word m k i /\ prng_at m (k + i) (snd st)) 8).
    + by rewrite Nat.add_0_r.
    + intros i [x r'] Hi [Hx Hr']. cbn [fst snd] in Hx, Hr'. subst x. pose proof (next_u8_spec m (k + i) r' Hr') as Hn1.
      destruct (next_u8 r') as [y r1]. cbn [fst snd] in Hn1. destruct Hn1 as [-> Hn1].
      cbn [fst snd]. split; [by apply le_word_step|]. by rewrite Nat.add_succ_r.
  - cbn [fst snd]. split; [|apply prng_skip; [done|lia]].
    apply (for_ind (fun i x => x = le_word m k i) 8); [done|].
    intros i x Hi ->. rewrite (prng_get m k r i Hr) by lia. by apply le_word_step.
Qed.
End Prng.

(** * The input of the hash *)

Lemma hash_oid_inj id id' o : hash_oid id = Some o -> hash_oid id' = Some o -> id = id'.
Proof.
  unfold hash_oid.
  repeat match goal with |- context [?a =? ?b] => destruct (Z.eqb_spec a b); [subst|] end;
    intros; simplify_eq; done.
Qed.

Lemma hash_oid_length id o : hash_oid id = Some o -> length o = if id =? 0 then 0%nat else 11%nat.
Proof.
  unfold hash_oid.
  repeat match goal with |- context [?a =? ?b] => destruct (Z.eqb_spec a b); [subst|] end;
    intros; simplify_eq; done.
Qed.

Lemma hash_to_point_input_bytes nonce hvk ctx id data sh :
  id <> hash_ORIGINAL -> hash_to_point_input nonce hvk ctx id data = Ok sh ->
  exists oid, hash_oid id = Some oid /\ (length ctx <= 255)%nat /\
    xof_in sh = nonce ++ hvk ++ [if id =? 0 then 0 else 1; Z.of_nat (length ctx)] ++ ctx ++ oid ++ data.
Proof.
  intros Hid. unfold hash_to_point_input. destruct (Z.eqb_spec id hash_ORIGINAL); [done|].
  destruct (Nat.ltb_spec 255 (length ctx)) as [|Hc]; [done|].
  destruct (hash_oid id) as [oid|]; [|done]. intros [= <-]. exists oid. split; [done|]. split; [done|].
  cbn [xof_in xof_write xof_new]. rewrite app_nil_l, u8_small by lia. by rewrite <- !app_assoc.
Qed.

Lemma hash_to_point_input_pos nonce hvk ctx id data sh :
  hash_to_point_input nonce hvk ctx id data = Ok sh -> xof_pos sh = 0%nat.
Proof.
  unfold hash_to_point_input. destruct (id =? hash_ORIGINAL); [by intros [= <-]|].
  destruct (255 <? length ctx)%nat; [done|]. by destruct (hash_oid id); intros [= <-].
Qed.

(** * The contracts *)

(** (C28) [hash_to_point] is rejection sampling on the SHAKE256 output: it
    returns after [fuel] reads exactly when at least [n] of the first [fuel]
    big-endian 16-bit words are below 61445 = 5 q, and the polynomial is then
    the first [n] such words reduced modulo q, whatever the output array held. *)
Theorem hash_to_point_rejection `{ShakeLaws} fuel logn nonce hvk ctx id data c sh :
  length c = degree logn -> hash_to_point_input nonce hvk ctx id data = Ok sh ->
  let words := (fun k => 256 * shake (xof_in sh) (2 * k) + shake (xof_in sh) (2 * k + 1)) <$> seq 0 fuel in
  let good := filter (fun w => w < 5 * q) words in
  hash_to_point fuel logn nonce hvk ctx id data c =
  if decide (degree logn <= length good)%nat
  then Some (Ok (take (degree logn) ((fun w => w mod q) <$> good))) else None.
Proof.
  intros Hc Hin. cbv zeta. unfold hash_to_point. rewrite Hin.
  pose proof (hash_to_point_input_pos _ _ _ _ _ _ Hin) as Hp.
  destruct sh as [m p]. cbn [xof_pos xof_in] in *. subst p.
  pose proof (hash_to_point_loop_spec fuel m 0 (degree logn) 0 c Hc ltac:(lia)) as Hl.
  change (2 * 0)%nat with 0%nat in Hl. rewrite Hl. rewrite Nat.sub_0_r, take_0. cbn [app].
  unfold accepted. rewrite length_fmap.
  change (fun k => 256 * shake m (2 * k) + shake m (2 * k + 1)) with (xof_word m).
  change (5 * q) with 61445. repeat case_decide; done || lia.
Qed.

(** (C29) The hashed input separates its fields: for nonces of 40 bytes and key
    hashes of 64, two inputs other than those of the original mode that absorb
    the same bytes have the same nonce, key hash, context, pre-hash identifier
    and data. *)
Theorem hash_to_point_input_injective nonce hvk ctx id data nonce' hvk' ctx' id' data' sh :
  length nonce = 40%nat -> length nonce' = 40%nat -> length hvk = 64%nat -> length hvk' = 64%nat ->
  id <> hash_ORIGINAL -> id' <> hash_ORIGINAL ->
  hash_to_point_input nonce hvk ctx id data = Ok sh ->
  hash_to_point_input nonce' hvk' ctx' id' data' = Ok sh ->
  nonce = nonce' /\ hvk = hvk' /\ ctx = ctx' /\ id = id' /\ data = data'.
Proof.
  intros Ln Ln' Lh Lh' Hid Hid' Hi Hi'.
  apply hash_to_point_input_bytes in Hi as (o & Ho & Hc & E); [|done].
  apply hash_to_point_input_bytes in Hi' as (o' & Ho' & Hc' & E'); [|done].
  rewrite E in E'. apply app_inj_1 in E' as [-> E']; [|lia]. apply app_inj_1 in E' as [-> E']; [|lia].
  apply app_inj_1 in E' as [Hb E']; [|done]. injection Hb as Hb Hl.
  apply app_inj_1 in E' as [-> E']; [|lia].
  apply app_inj_1 in E' as [-> ->].
  - by rewrite (hash_oid_inj _ _ _ Ho Ho').
  - rewrite (hash_oid_length _ _ Ho), (hash_oid_length _ _ Ho').
    by destruct (id =? 0), (id' =? 0).
Qed.

(** (C30) The buffered generator is the SHAKE256 output read in order: bytes,
    16-bit and 64-bit words (little-endian) come out of consecutive positions,
    across the boundary of the 136-byte buffer too. *)
Theorem shake256prng_stream `{ShakeLaws} seed k r :
  prng_at seed k r ->
  (fst (next_u8 r) = shake seed k /\ prng_at seed (k + 1) (snd (next_u8 r))) /\
  (fst (next_u16 r) = shake seed k + 256 * shake seed (k + 1) /\
   prng_at seed (k + 2) (snd (next_u16 r))) /\
  (fst (next_u64 r) = zsum 8 (fun i => shake seed (k + i) * 2 ^ (8 * Z.of_nat i)) /\
   prng_at seed (k + 8) (snd (next_u64 r))) /\
  prng_at seed 0 (newSHAKE256prng seed).
Proof.
  intros Hr. split; [rewrite Nat.add_1_r; by apply next_u8_spec|]. split; [by apply next_u16_spec|].
  split; [by apply next_u64_spec|apply prng_new].
Qed.

(** ** At a concrete output stream *)

(** A stand-in for the output: a counter that depends on the input's length. *)
Definition toy_shake : Shake := fun m i => Z.of_nat ((length m + i * 37) mod 256).
Lemma toy_shake_laws : @ShakeLaws toy_shake.
Proof.
  intros m i. unfold shake, toy_shake.
  pose proof (Nat.mod_upper_bound (length m + i * 37) 256 ltac:(lia)). lia.
Qed.

Lemma hash_to_point_rejection_witness :
  @hash_to_point toy_shake 3 2 [1] [] [] 0 [2] (replicate 4 0) = None /\
  @hash_to_point toy_shake 8 2 [1] [] [] 0 [2] (replicate 4 0) = Some (Ok [1065; 7794; 2234; 8707]).
Proof.
  split; [vm_compute; reflexivity|].
  etransitivity;
    [apply (@hash_to_point_rejection toy_shake toy_shake_laws 8 2 [1] [] [] 0 [2] (replicate 4 0)
       (Xof [1; 0; 0; 2] 0)); reflexivity|vm_compute; reflexivity].
Defined.

Lemma hash_to_point_input_injective_witness :
  let sh := Xof (replicate 40 1 ++ replicate 64 2 ++ [1; 1; 3] ++ oid_SHA256 ++ [4]) 0 in
  hash_to_point_input (replicate 40 1) (replicate 64 2) [3] SHA256 [4] = Ok sh /\
  (hash_to_point_input (replicate 40 1) (replicate 64 2) [] SHA512 [3; 4] = Ok sh -> SHA256 = SHA512).
Proof.
  cbv zeta. split; [vm_compute; reflexivity|]. intros H.
  apply (hash_to_point_input_injective (replicate 40 1) (replicate 64 2) [3] SHA256 [4]
    (replicate 40 1) (replicate 64 2) [] SHA512 [3; 4]
    (Xof (replicate 40 1 ++ replicate 64 2 ++ [1; 1; 3] ++ oid_SHA256 ++ [4]) 0));
    try exact H; vm_compute; reflexivity || discriminate.
Defined.

Lemma shake256prng_stream_witness :
  fst (@next_u64 toy_shake (newSHAKE256prng [9])) = zsum 8 (fun i => toy_shake [9] i * 2 ^ (8 * Z.of_nat i)).
Proof. apply (@shake256prng_stream toy_shake toy_shake_laws [9] 0). apply prng_new. Defined.
