(* ===== verification/Verify.v ===== *)
(** Signature verification ([vrfy.go]).

    [verify_inner] is the whole handler.  [hash_to_point] may still be looping
    after [fuel] reads of the output: [None].  The code drops the error
    [hash_to_point] returns, and so does the model: the array then keeps what
    it held. *)
From Stdlib Require Import ZArith Lia.
From stdpp Require Import base numbers list strings.
From S2P Require Import Prelude Mq Ntt MqTables MqPoly Bits Codec Util.
Local Open Scope Z_scope.

(** The computation after decoding: [t1] holds h ("ext"), [s2] the signature. *)
Definition verify_poly `{Shake} (fuel logn : nat) (nonce vkey ctx : list Z) (id : Z) (data : list Z)
    (t1 s2 : list Z) : option bool :=
  let t2 := replicate (degree logn) 0 in
  let norm2 := signed_poly_sqnorm logn s2 in
  let t1 := mqpoly_ext_to_int logn t1 in
  let t1 := mqpoly_int_to_ntt logn t1 in
  let t2 := mqpoly_signed_to_int logn s2 t2 in
  let t2 := mqpoly_int_to_ntt logn t2 in
  let t1 := mqpoly_mul_ntt logn t1 t2 in
  let t1 := mqpoly_ntt_to_int logn t1 in
  let hvk := hash_verifying_key vkey in
  match hash_to_point fuel logn nonce hvk ctx id data t2 with
  | None => None
  | Some r =>
      let t2 := match r with Ok c => c | Err _ => t2 end in
      let t2 := mqpoly_ext_to_int logn t2 in
      let t2 := mqpoly_sub_int logn t2 t1 in
      let norm1 := mqpoly_sqnorm logn t2 in
      Some ((norm1 <? -% norm2) && mqpoly_sqnorm_is_acceptable logn (norm1 +% norm2))
  end.

Definition verify_inner `{Shake} (fuel logn_min logn_max : nat) (vkey ctx : list Z) (id : Z)
    (data sig : list Z) : option bool :=
  if (length vkey =? 0)%nat || (length sig =? 0)%nat then Some false
  else
    let head1 := vkey.[0] in
    let head2 := sig.[0] in
    if negb (head1 .& 240 =? 0) || negb (head2 .& 240 =? 48) then Some false
    else
      let logn := Z.to_nat (head1 .& 15) in
      if negb (logn =? Z.to_nat (head2 .& 15))%nat then Some false
      else if (logn <? logn_min)%nat || (logn_max <? logn)%nat then Some false
      else if negb (length vkey =? VerifyingKeySize logn)%nat ||
              negb (length sig =? SignatureSize logn)%nat then Some false
      else
        let n := degree logn in
        match modq_decode logn (drop 1 vkey) (replicate n 0) with
        | Err _ => Some false
        | Ok (_, t1) =>
            match comp_decode logn (drop 41 sig) (replicate n 0) with
            | Err _ => Some false
            | Ok s2 => verify_poly fuel logn (take 40 (drop 1 sig)) vkey ctx id data t1 s2
            end
        end.

Definition Verify `{Shake} (fuel : nat) (vkey ctx : list Z) (id : Z) (data sig : list Z) : option bool :=
  verify_inner fuel 9 10 vkey ctx id data sig.

Definition VerifyWeak `{Shake} (fuel : nat) (vkey ctx : list Z) (id : Z) (data sig : list Z) : option bool :=
  verify_inner fuel 2 8 vkey ctx id data sig.

(** * Hashing, for the verifier *)

(** On success the previous content of the array does not matter. *)
Lemma hash_to_point_overwrites `{ShakeLaws} fuel logn nonce hvk ctx id data c c' sh :
  hash_to_point_input nonce hvk ctx id data = Ok sh ->
  length c = degree logn -> length c' = degree logn ->
  hash_to_point fuel logn nonce hvk ctx id data c = hash_to_point fuel logn nonce hvk ctx id data c'.
Proof.
  intros Hin Hc Hc'. unfold hash_to_point. rewrite Hin.
  assert (xof_pos sh = 0%nat) as Hp by (by eapply hash_to_point_input_pos).
  destruct sh as [m p]. simpl in Hp. subst p. change 0%nat with (2 * 0)%nat at 2 4.
  rewrite !hash_to_point_loop_spec by (done || lia). done.
Qed.

Lemma hash_to_point_ext `{ShakeLaws} fuel logn nonce hvk ctx id data c r :
  length c = degree logn ->
  hash_to_point fuel logn nonce hvk ctx id data c = Some (Ok r) -> poly logn is_ext r.
Proof.
  intros Hc. unfold hash_to_point. destruct (hash_to_point_input _ _ _ _ _) as [sh|] eqn:Hin; [|done].
  assert (xof_pos sh = 0%nat) as Hp by (by eapply hash_to_point_input_pos).
  destruct sh as [m p]. simpl in Hp. subst p. change 0%nat with (2 * 0)%nat at 2.
  rewrite hash_to_point_loop_spec by (done || lia). case_decide as Hd; [|done].
  rewrite take_0, Nat.sub_0_r in *. simpl. intros [= <-]. split; [rewrite length_take; unfold degree in *; lia|].
  apply Forall_take. unfold accepted. apply Forall_fmap, Forall_forall. intros x _.
  apply Z.mod_pos_bound. done.
Qed.

(** * What the verifier computes *)

(** Coefficient [i] of s1 = c - h s2, centred. *)
Definition s1_coeff (logn : nat) (c s2 h : list Z) (i : nat) : Z :=
  center ((c.[i] - nega_coeff (2 ^ logn) (get h) (get s2) i) mod q).

(** The squared norm of (s1, s2). *)
Definition sig_norm (logn : nat) (c s2 h : list Z) : Z :=
  zsum (2 ^ logn) (fun i => s1_coeff logn c s2 h i * s1_coeff logn c s2 h i) +
  zsum (2 ^ logn) (fun i => s2.[i] * s2.[i]).

Lemma norm_q_fmap_poly logn P a : poly logn P a -> poly logn rep (norm_q <$> a).
Proof. intros [Hl _]. split; [by rewrite length_fmap|]. apply Forall_fmap, Forall_forall. intros; apply norm_q_rep. Qed.

Lemma sqnorm_zsum a n : length a = n -> sqnorm a = zsum n (fun i => a.[i] * a.[i]).
Proof.
  intros <-. induction a as [|x a IH] using rev_ind; [done|].
  rewrite sqnorm_app, length_app. simpl length. rewrite Nat.add_1_r. cbn [zsum].
  rewrite get_app_r, Nat.sub_diag by lia. rewrite (zsum_ext _ _ (fun i => a.[i] * a.[i])), <- IH.
  - unfold sqnorm at 2. simpl. change ([x].[0]) with x. lia.
  - intros i Hi. by rewrite get_app_l by lia.
Qed.

Lemma center_norm_q x : center (norm_q x) = center (x mod q).
Proof.
  unfold norm_q. pose proof (Z.mod_pos_bound (x - 1) q ltac:(unfold q; lia)) as Hb.
  destruct (decide ((x - 1) mod q + 1 = q)) as [He|Hne].
  - assert (x mod q = 0) as ->.
    { apply Z.mod_divide; [done|]. exists ((x - 1) / q + 1).
      pose proof (Z.div_mod (x - 1) q ltac:(done)). lia. }
    rewrite He. done.
  - f_equal. apply (Z.mod_unique_pos _ _ ((x - 1) / q)); [unfold q in *; lia|].
    pose proof (Z.div_mod (x - 1) q ltac:(done)). lia.
Qed.

(** The polynomial part of the verifier, for a hashed point [c]. *)
Lemma verify_norms logn c h s2 :
  (logn <= 10)%nat -> poly logn is_ext c -> poly logn is_ext h -> poly logn comp_range s2 ->
  let t1 := mqpoly_int_to_ntt logn (mqpoly_ext_to_int logn h) in
  let t2 := mqpoly_int_to_ntt logn (mqpoly_signed_to_int logn s2 (replicate (degree logn) 0)) in
  let t1 := mqpoly_ntt_to_int logn (mqpoly_mul_ntt logn t1 t2) in
  let d := mqpoly_sub_int logn (mqpoly_ext_to_int logn c) t1 in
  poly logn rep d /\ sqnorm (center <$> d) + sqnorm s2 = sig_norm logn c s2 h.
Proof.
  intros Hn Hc Hh Hs. cbv zeta.
  assert (poly logn (fun x => - q < x < q) s2) as Hs'.
  { destruct Hs as [Hl Hs]. split; [done|]. eapply Forall_impl; [exact Hs|].
    intros x Hx. unfold comp_range, q in *. lia. }
  rewrite mqpoly_signed_to_int_spec by (done || by rewrite length_replicate).
  rewrite !mqpoly_ext_to_int_spec by done.
  pose proof (norm_q_fmap_poly _ _ _ Hc) as Hc2. pose proof (norm_q_fmap_poly _ _ _ Hh) as Hh2.
  pose proof (norm_q_fmap_poly _ _ _ Hs) as Hs2.
  rewrite mul_ntt_product by done. pose proof (nega_mul_poly logn (norm_q <$> h) (norm_q <$> s2)) as Hp.
  rewrite ntt_to_int_to_ntt by done.
  destruct (mqpoly_sub_int_spec logn _ _ Hc2 Hp) as [Hd Hget]. split; [done|].
  set (d := mqpoly_sub_int _ _ _) in *. unfold sig_norm. f_equal.
  - rewrite (sqnorm_zsum _ (2 ^ logn)) by (by rewrite length_fmap, (proj1 Hd)).
    apply zsum_ext. intros i Hi. rewrite get_fmap by (by rewrite (proj1 Hd)).
    assert (center d.[i] = s1_coeff logn c s2 h i) as ->; [|done].
    rewrite Hget, center_norm_q by done. unfold s1_coeff. f_equal.
    assert ((norm_q <$> c).[i] - (nega_mul logn (norm_q <$> h) (norm_q <$> s2)).[i]
      ==[q] c.[i] - nega_coeff (2 ^ logn) (get h) (get s2) i) as [He]; [|done].
    unfold nega_mul. rewrite get_fmap_seq, get_fmap, !norm_q_cong by (done || by rewrite (proj1 Hc)).
    rewrite (nega_coeff_cong q _ _ _ (get h) (get s2) i Hi); [done|..].
    + intros j Hj. rewrite get_fmap by (by rewrite (proj1 Hh)). apply norm_q_cong.
    + intros j Hj. rewrite get_fmap by (by rewrite (proj1 Hs)). apply norm_q_cong.
  - apply sqnorm_zsum, Hs.
Qed.

(** The final test: acceptance is "s2 is not zero and the norm is in bounds",
    in spite of the 32-bit sums. *)
Lemma norm_test logn a b n1 :
  (1 <= logn <= 10)%nat -> 0 <= a -> 0 <= b < 2 ^ 32 ->
  n1 = (if decide (a < 2 ^ 31) then a else 2 ^ 32 - 1) ->
  (n1 <? -% b) && mqpoly_sqnorm_is_acceptable logn (n1 +% b) = true <->
  0 < b /\ a + b <= sqbeta.[logn].
Proof.
  intros Hl Ha Hb ->. unfold mqpoly_sqnorm_is_acceptable.
  assert (0 < sqbeta.[logn] < 2 ^ 31) as Hbeta.
  { do 11 (destruct logn as [|logn]; [first [lia|split; reflexivity]|]). lia. }
  generalize dependent (sqbeta.[logn]). intros beta Hbeta.
  rewrite andb_true_iff, Z.ltb_lt, Z.leb_le.
  destruct (decide (b = 0)) as [->|Hb0].
  { change (-% 0) with 0. split; [|lia]. intros [H _]. case_decide; lia. }
  rewrite (u32_neg (- b)) by lia. case_decide.
  - destruct (decide (a + b < 2 ^ 32)).
    + rewrite u32_small by lia. lia.
    + split; [intros [? _]; lia|lia].
  - split; [intros [? _]; lia|lia].
Qed.

(** The verdict on a point [c]. *)
Lemma verdict_spec logn c h s2 :
  (1 <= logn <= 10)%nat -> poly logn is_ext c -> poly logn is_ext h -> poly logn comp_range s2 ->
  let t1 := mqpoly_int_to_ntt logn (mqpoly_ext_to_int logn h) in
  let t2 := mqpoly_int_to_ntt logn (mqpoly_signed_to_int logn s2 (replicate (degree logn) 0)) in
  let t1 := mqpoly_ntt_to_int logn (mqpoly_mul_ntt logn t1 t2) in
  let norm1 := mqpoly_sqnorm logn (mqpoly_sub_int logn (mqpoly_ext_to_int logn c) t1) in
  let norm2 := signed_poly_sqnorm logn s2 in
  (norm1 <? -% norm2) && mqpoly_sqnorm_is_acceptable logn (norm1 +% norm2) = true <->
  0 < sqnorm s2 /\ sig_norm logn c s2 h <= sqbeta.[logn].
Proof.
  intros Hn Hc Hh Hs. destruct (verify_norms logn c h s2 ltac:(lia) Hc Hh Hs) as [Hd Hnorm]. cbv zeta in *.
  rewrite <- Hnorm. destruct (signed_poly_sqnorm_spec logn s2 ltac:(lia) Hs) as [-> Hb2].
  set (d := mqpoly_sub_int _ _ _) in *.
  apply (norm_test logn (sqnorm (center <$> d)) (sqnorm s2) (mqpoly_sqnorm logn d)); [lia|apply sqnorm_nonneg|by split; [apply sqnorm_nonneg|]|].
  rewrite mqpoly_sqnorm_spec; [done|]. destruct Hd as [Hdl Hd]. split; [done|].
  eapply Forall_impl; [exact Hd|]. intros x Hx. unfold rep in Hx. cbv beta. lia.
Qed.

(** What the verifier leaves in the array of the point before it hashes: the
    transform of [s2]. *)
Lemma spare_array logn s2 : (logn <= 10)%nat -> poly logn comp_range s2 ->
  mqpoly_signed_to_int logn s2 (replicate (degree logn) 0) = norm_q <$> s2 /\
  poly logn rep (mqpoly_int_to_ntt logn (norm_q <$> s2)).
Proof.
  intros Hn Hs. assert (poly logn (fun x => - q < x < q) s2) as Hs'.
  { destruct Hs as [Hl Hs]. split; [done|]. eapply Forall_impl; [exact Hs|].
    intros x Hx. unfold comp_range, q in *. lia. }
  split; [apply mqpoly_signed_to_int_spec; by rewrite ?length_replicate|].
  apply int_to_ntt_poly; [done|]. by eapply norm_q_fmap_poly.
Qed.

Lemma verify_poly_spec `{ShakeLaws} fuel logn nonce vkey ctx id data h s2 :
  (1 <= logn <= 10)%nat -> poly logn is_ext h -> poly logn comp_range s2 ->
  is_ok (hash_to_point_input nonce (hash_verifying_key vkey) ctx id data) = true ->
  verify_poly fuel logn nonce vkey ctx id data h s2 = Some true <->
  exists c,
    hash_to_point fuel logn nonce (hash_verifying_key vkey) ctx id data (replicate (degree logn) 0)
      = Some (Ok c) /\
    0 < sqnorm s2 /\ sig_norm logn c s2 h <= sqbeta.[logn].
Proof.
  intros Hn Hh Hs Hok. unfold verify_poly.
  destruct (hash_to_point_input nonce (hash_verifying_key vkey) ctx id data) as [sh|] eqn:Hin; [|done].
  destruct (spare_array logn s2 ltac:(lia) Hs) as [Es [Ht2 _]].
  rewrite (hash_to_point_overwrites fuel logn nonce _ ctx id data _
    (replicate (degree logn) 0) sh Hin) by (by rewrite ?Es, ?length_replicate).
  destruct (hash_to_point fuel logn nonce _ ctx id data (replicate (degree logn) 0)) as [[c|e]|] eqn:Hc.
  - assert (poly logn is_ext c) as Hce
      by (eapply hash_to_point_ext; [|exact Hc]; by rewrite length_replicate).
    pose proof (verdict_spec logn c h s2 Hn Hce Hh Hs) as Hv. cbv zeta in Hv. split.
    + intros [= E]. apply Hv in E. by exists c.
    + intros (? & [= <-] & E). apply Hv in E. by rewrite E.
  - exfalso. unfold hash_to_point in Hc. rewrite Hin in Hc. by destruct (hash_to_point_loop _ _ _ _ _).
  - split; [done|]. by intros (? & ? & _).
Qed.

(** * The handler *)

(** The two halves of a header byte. *)
Lemma byte_halves x : is_byte x -> 0 <= x .& 15 < 16 /\ (x .& 240) + (x .& 15) = x.
Proof.
  unfold is_byte. intros Hx.
  assert (forallb (fun x => (0 <=? x .& 15) && (x .& 15 <? 16) && ((x .& 240) + (x .& 15) =? x))
    (seqZ 0 256) = true) as Ha by (vm_compute; reflexivity).
  rewrite forallb_forall in Ha. specialize (Ha x). rewrite <- list_elem_of_In, elem_of_seqZ in Ha.
  specialize (Ha ltac:(lia)). rewrite !andb_true_iff, Z.leb_le, Z.ltb_lt, Z.eqb_eq in Ha. lia.
Qed.

Lemma header_bits k n : (n < 16)%nat -> (k = 0 \/ k = 48 \/ k = 80) ->
  (k + Z.of_nat n) .& 240 = k /\ Z.to_nat ((k + Z.of_nat n) .& 15) = n.
Proof. intros Hn Hk. do 16 (destruct n as [|n]; [destruct Hk as [-> | [-> | ->]]; done|]). lia. Qed.

Lemma signature_size_ge logn : (logn <= 10)%nat -> (44 <= SignatureSize logn)%nat.
Proof. intros Hl. do 11 (destruct logn as [|logn]; [vm_compute; lia|]). lia. Qed.

Section Handler.
Context `{ShakeLaws} (fuel lmin lmax : nat) (Hlmin : (2 <= lmin)%nat) (Hlmax : (lmax <= 10)%nat).

(** A key and a signature that decode, at degree [logn]. *)
Definition decoded (logn : nat) (h s2 nonce vkey sig : list Z) : Prop :=
  (lmin <= logn <= lmax)%nat /\ poly logn is_ext h /\ poly logn comp_range s2 /\
  length nonce = 40%nat /\
  vkey = Z.of_nat logn :: fst (modq_encode logn h (replicate (VerifyingKeySize logn - 1) 0)) /\
  exists e, sig = (48 + Z.of_nat logn) :: nonce ++ e /\
    length e = (SignatureSize logn - 41)%nat /\
    comp_encode logn s2 (replicate (SignatureSize logn - 41) 0) = (e, true).

(** Decoding both inputs is a matter of their encodings. *)
Lemma verify_inner_decoded vkey ctx id data sig :
  Forall is_byte vkey -> Forall is_byte sig ->
  verify_inner fuel lmin lmax vkey ctx id data sig = Some true <->
  exists logn h s2 nonce, decoded logn h s2 nonce vkey sig /\
    verify_poly fuel logn nonce vkey ctx id data h s2 = Some true.
Proof using Hlmin Hlmax.
  intros Hv Hs. unfold verify_inner. split.
  - destruct vkey as [|hd1 vb]; [done|]. destruct sig as [|hd2 sb]; [done|].
    change ((length (hd1 :: vb) =? 0)%nat || (length (hd2 :: sb) =? 0)%nat) with false.
    cbn [length]. change ((hd1 :: vb).[0]) with hd1. change ((hd2 :: sb).[0]) with hd2.
    inversion_clear Hv as [|?? Hh1 Hvb]. inversion_clear Hs as [|?? Hh2 Hsb].
    destruct (byte_halves hd1 Hh1) as [R1 E1]. destruct (byte_halves hd2 Hh2) as [R2 E2].
    destruct (Z.eqb_spec (hd1 .& 240) 0) as [Z1|]; [|done].
    destruct (Z.eqb_spec (hd2 .& 240) 48) as [Z2|]; [|done]. cbn [negb orb].
    set (logn := Z.to_nat (hd1 .& 15)).
    destruct (Nat.eqb_spec logn (Z.to_nat (hd2 .& 15))) as [Hl|]; [|done]. cbn [negb].
    destruct (Nat.ltb_spec logn lmin); [done|]. destruct (Nat.ltb_spec lmax logn); [done|]. cbn [orb].
    destruct (Nat.eqb_spec (S (length vb)) (VerifyingKeySize logn)) as [Lv|]; [|done].
    destruct (Nat.eqb_spec (S (length sb)) (SignatureSize logn)) as [Ls|]; [|done]. cbn [negb orb].
    pose proof (signature_size_ge logn ltac:(lia)).
    change (drop 1 (hd1 :: vb)) with vb. change (drop 1 (hd2 :: sb)) with sb.
    change (drop 41 (hd2 :: sb)) with (drop 40 sb).
    destruct (modq_decode logn vb _) as [[k h]|] eqn:Hd; [|done].
    destruct (comp_decode logn (drop 40 sb) _) as [s2|] eqn:Hc; [|done]. intros Hp.
    apply (modq_decode_encode _ _ _ _ _ (replicate (VerifyingKeySize logn - 1) 0)) in Hd
      as (-> & Hk & Hlh & Hrh & He);
      [|lia|by rewrite length_replicate|done|rewrite length_replicate; unfold VerifyingKeySize; lia].
    pose proof (comp_decode_spec logn (drop 40 sb) (replicate (degree logn) 0)
      ltac:(by rewrite length_replicate) ltac:(by apply Forall_drop)) as Hcs.
    rewrite Hc in Hcs. destruct Hcs as (Hls & Hrs & _).
    apply (comp_decode_encode _ _ _ _ (replicate (SignatureSize logn - 41) 0)) in Hc as [_ Hc];
      [|by rewrite length_replicate|by apply Forall_drop|rewrite length_replicate, length_drop; lia].
    exists logn, h, s2, (take 40 sb). split; [|done].
    split; [lia|]. split; [by split|]. split; [by split|]. split; [rewrite length_take; lia|]. split.
    + rewrite He. cbn [fst]. unfold VerifyingKeySize in Lv.
      rewrite take_ge, drop_ge, app_nil_r by (rewrite ?length_replicate; unfold VerifyingKeySize; lia).
      f_equal. unfold logn. lia.
    + exists (drop 40 sb). rewrite take_drop, length_drop.
      split; [f_equal; rewrite Hl; lia|]. split; [lia|done].
  - intros (logn & h & s2 & nonce & (Hln & [Hlh Hrh] & [Hls Hrs] & Hno & -> & e & -> & Hle & He) & Hp).
    destruct (modq_encode_spec logn h (replicate (VerifyingKeySize logn - 1) 0) ltac:(lia) Hlh Hrh)
      as (bs & Hbs & Hlb & Hbb & _).
    { rewrite length_replicate. unfold VerifyingKeySize. lia. }
    rewrite Hbs in *. cbn [fst] in *.
    rewrite drop_ge, app_nil_r in * by (rewrite length_replicate; unfold VerifyingKeySize; lia).
    change ((length (Z.of_nat logn :: bs) =? 0)%nat ||
            (length ((48 + Z.of_nat logn)%Z :: nonce ++ e) =? 0)%nat) with false.
    cbn [length].
    change ((Z.of_nat logn :: bs).[0]) with (0 + Z.of_nat logn).
    change ((48 + Z.of_nat logn :: nonce ++ e).[0]) with (48 + Z.of_nat logn).
    destruct (header_bits 0 logn ltac:(lia) ltac:(auto)) as [-> ->].
    destruct (header_bits 48 logn ltac:(lia) ltac:(auto)) as [-> ->].
    rewrite !Z.eqb_refl, Nat.eqb_refl. cbn [negb orb].
    destruct (Nat.ltb_spec logn lmin); [lia|]. destruct (Nat.ltb_spec lmax logn); [lia|]. cbn [orb].
    pose proof (signature_size_ge logn ltac:(lia)).
    rewrite length_app, Hno, Hle, Hlb.
    rewrite (proj2 (Nat.eqb_eq _ _)) by (unfold VerifyingKeySize; lia).
    rewrite (proj2 (Nat.eqb_eq _ _)) by lia. cbn [negb orb].
    change (drop 1 (?x :: ?l)) with l.
    change (drop 41 (?x :: nonce ++ e)) with (drop 40 (nonce ++ e)).
    rewrite drop_app_length', take_app_length' by done.
    rewrite (proj2 (modq_decode_encode logn bs (replicate (degree logn) 0) (length bs) h
      (replicate (VerifyingKeySize logn - 1) 0) ltac:(lia) ltac:(by rewrite length_replicate) Hbb
      ltac:(rewrite length_replicate; unfold VerifyingKeySize; lia))).
    2:{ split; [done|]. split; [done|]. split; [done|]. split; [done|]. rewrite Hbs. f_equal.
        rewrite take_ge, drop_ge, app_nil_r by (rewrite ?length_replicate; unfold VerifyingKeySize; lia).
        done. }
    rewrite (proj2 (comp_decode_encode logn e (replicate (degree logn) 0) s2
      (replicate (SignatureSize logn - 41) 0) ltac:(by rewrite length_replicate)
      ltac:(by inversion Hs as [|?? _ Ht]; apply Forall_app in Ht as [_ Ht])
      ltac:(by rewrite length_replicate, Hle))) by done.
    done.
Qed.
End Handler.

(** * Unsupported hashing parameters *)

(** What [hash_to_point] accepts: the original mode, or a context of at most 255
    bytes and a pre-hash function it has an identifier for. *)
Definition supported (ctx : list Z) (id : Z) : Prop :=
  id = hash_ORIGINAL \/ (length ctx <= 255)%nat /\ is_Some (hash_oid id).
#[export] Instance supported_dec ctx id : Decision (supported ctx id).
Proof. unfold supported. apply _. Defined.

Lemma hash_to_point_input_ok nonce hvk ctx id data :
  is_ok (hash_to_point_input nonce hvk ctx id data) = true <-> supported ctx id.
Proof.
  unfold hash_to_point_input, supported. destruct (Z.eqb_spec id hash_ORIGINAL); [by split; auto|].
  destruct (Nat.ltb_spec 255 (length ctx)).
  { split; [done|]. intros [?|[? _]]; [done|lia]. }
  destruct (hash_oid id); simpl; split; try done.
  - intros _. right. split; [done|by eexists].
  - by intros [?|[_ [? ?]]].
Qed.

(** The point of a message that is not hashed: what the spare array holds. *)
Definition leftover (logn : nat) (s2 : list Z) : list Z := mqpoly_int_to_ext logn (mqpoly_int_to_ntt logn (norm_q <$> s2)).

Lemma verify_poly_unsupported `{Shake} fuel logn nonce vkey ctx id data h s2 :
  ~ supported ctx id -> (1 <= logn <= 10)%nat -> poly logn is_ext h -> poly logn comp_range s2 ->
  verify_poly fuel logn nonce vkey ctx id data h s2 = Some true <->
  0 < sqnorm s2 /\ sig_norm logn (leftover logn s2) s2 h <= sqbeta.[logn].
Proof.
  intros Hsup Hn Hh Hs. destruct (spare_array logn s2 ltac:(lia) Hs) as [Es Ht2].
  assert (poly logn is_ext (leftover logn s2)) as Hl.
  { unfold leftover. rewrite mqpoly_int_to_ext_spec by done.
    apply (poly_fmap logn rep); [done|]. intros; apply Z.mod_pos_bound; unfold q; lia. }
  rewrite <- (verdict_spec logn _ h s2 Hn Hl Hh Hs). cbv zeta. unfold leftover at 1 2. rewrite !mqpoly_int_ext_int by done.
  unfold verify_poly, hash_to_point.
  destruct (hash_to_point_input _ _ _ _ _) as [sh|e] eqn:E.
  { exfalso. apply Hsup. rewrite <- (hash_to_point_input_ok nonce (hash_verifying_key vkey) ctx id data). by rewrite E. }
  rewrite Es, mqpoly_ext_to_int_rep by done. split; [by intros [= ->]|by intros ->].
Qed.

Lemma verify_unsupported_total `{Shake} fuel lmin lmax vkey ctx id data sig :
  ~ supported ctx id -> is_Some (verify_inner fuel lmin lmax vkey ctx id data sig).
Proof.
  intros Hsup. unfold verify_inner. repeat case_match; try by eexists. unfold verify_poly, hash_to_point.
  destruct (hash_to_point_input _ _ _ _ _) as [sh|e'] eqn:E; [|by eexists].
  exfalso. apply Hsup. apply (hash_to_point_input_ok (take 40 (drop 1 sig)) (hash_verifying_key vkey) ctx id data). by rewrite E.
Qed.

(** * The contracts *)

(** (C23) What a valid signature is.  On byte strings, with supported hashing
    parameters, the verifier answers true exactly when the key is the encoding
    of a polynomial [h] at an admitted degree, the signature is the header, a
    40-byte nonce and the encoding of a polynomial [s2], the nonce and message
    hash to [c], [s2] is not zero, and the squared norm of (c - h s2, s2),
    centred modulo q, is at most the bound of the degree. *)
Theorem verify_inner_accepts `{ShakeLaws} fuel lmin lmax vkey ctx id data sig :
  (2 <= lmin)%nat -> (lmax <= 10)%nat ->
  Forall is_byte vkey -> Forall is_byte sig -> supported ctx id ->
  verify_inner fuel lmin lmax vkey ctx id data sig = Some true <->
  exists logn h s2 nonce e c,
    (lmin <= logn <= lmax)%nat /\
    poly logn is_ext h /\ poly logn comp_range s2 /\ length nonce = 40%nat /\
    vkey = Z.of_nat logn :: fst (modq_encode logn h (replicate (VerifyingKeySize logn - 1) 0)) /\
    sig = (48 + Z.of_nat logn) :: nonce ++ e /\ length sig = SignatureSize logn /\
    comp_encode logn s2 (replicate (SignatureSize logn - 41) 0) = (e, true) /\
    hash_to_point fuel logn nonce (hash_verifying_key vkey) ctx id data
      (replicate (degree logn) 0) = Some (Ok c) /\
    0 < sqnorm s2 /\ sig_norm logn c s2 h <= sqbeta.[logn].
Proof.
  intros Hlmin Hlmax Hv Hs Hsup. rewrite verify_inner_decoded by done. split.
  - intros (logn & h & s2 & nonce & (Hln & Hh & Hs2 & Hno & Hvk & e & Hsig & Hle & He) & Hp).
    pose proof (signature_size_ge logn ltac:(lia)).
    apply verify_poly_spec in Hp as (c & Hc & Hz & Hb);
      [|lia|done|done|by apply hash_to_point_input_ok].
    exists logn, h, s2, nonce, e, c. repeat (split; [done|]). split; [|done].
    rewrite Hsig. cbn [length]. rewrite length_app. lia.
  - intros (logn & h & s2 & nonce & e & c & Hln & Hh & Hs2 & Hno & Hvk & Hsig & Hl & He & Hc & Hz & Hb).
    exists logn, h, s2, nonce. split.
    + repeat (split; [done|]). exists e. split; [done|]. split; [|done].
      rewrite Hsig in Hl. cbn [length] in Hl. rewrite length_app in Hl. lia.
    + apply verify_poly_spec; [lia|done|done|by apply hash_to_point_input_ok|by exists c].
Qed.

(** (C27) When [hash_to_point] refuses its parameters (a context over 255 bytes, or a
    pre-hash identifier it does not know), the verifier drops the refusal and
    answers all the same, without the message: at every degree, for every key and
    every message it accepts exactly the encodings of an [s2] that is not zero and
    is short, with h s2, against the array the point should have been in, which
    still holds the transform of [s2] ([leftover]). *)
Theorem verify_unhashed_accepts `{ShakeLaws} fuel lmin lmax vkey ctx id sig :
  (2 <= lmin)%nat -> (lmax <= 10)%nat -> Forall is_byte vkey -> Forall is_byte sig -> ~ supported ctx id ->
  forall data, is_Some (verify_inner fuel lmin lmax vkey ctx id data sig) /\
    (verify_inner fuel lmin lmax vkey ctx id data sig = Some true <->
     exists logn h s2 nonce e,
       (lmin <= logn <= lmax)%nat /\
       poly logn is_ext h /\ poly logn comp_range s2 /\ length nonce = 40%nat /\
       vkey = Z.of_nat logn :: fst (modq_encode logn h (replicate (VerifyingKeySize logn - 1) 0)) /\
       sig = (48 + Z.of_nat logn) :: nonce ++ e /\ length e = (SignatureSize logn - 41)%nat /\
       comp_encode logn s2 (replicate (SignatureSize logn - 41) 0) = (e, true) /\
       0 < sqnorm s2 /\ sig_norm logn (leftover logn s2) s2 h <= sqbeta.[logn]).
Proof.
  intros Hlmin Hlmax Hv Hs Hsup data. split; [by apply verify_unsupported_total|]. rewrite verify_inner_decoded by done. split.
  - intros (logn & h & s2 & nonce & (Hln & Hh & Hs2 & Hno & Hvk & e & Hsig & Hle & He) & Hp).
    apply verify_poly_unsupported in Hp; [|done|lia|done|done]. by exists logn, h, s2, nonce, e.
  - intros (logn & h & s2 & nonce & e & Hln & Hh & Hs2 & Hno & Hvk & Hsig & Hle & He & Hp).
    exists logn, h, s2, nonce. split; [repeat (split; [done|]); by exists e|]. apply verify_poly_unsupported; [done|lia|done..].
Qed.

(** The key with h = 1 and the signature with s2 = 1. *)
Definition unit_key (logn : nat) : list Z :=
  Z.of_nat logn :: fst (modq_encode logn (replicate (degree logn) 1)
    (replicate (VerifyingKeySize logn - 1) 0)).
Definition unit_sig (logn : nat) : list Z :=
  (48 + Z.of_nat logn) :: replicate 40 0 ++
  fst (comp_encode logn (1 :: replicate (degree logn - 1) 0) (replicate (SignatureSize logn - 41) 0)).

(** ** At concrete inputs *)

Definition toy_shake0 : Shake := fun _ _ => 0.
Lemma toy_shake0_laws : @ShakeLaws toy_shake0.
Proof. intros m i. unfold shake, toy_shake0. lia. Qed.

Lemma verify_inner_accepts_witness :
  supported [1; 2] 0 /\
  exists logn h s2 nonce e c,
    (2 <= logn <= 10)%nat /\
    poly logn is_ext h /\ poly logn comp_range s2 /\ length nonce = 40%nat /\
    unit_key 2 = Z.of_nat logn :: fst (modq_encode logn h (replicate (VerifyingKeySize logn - 1) 0)) /\
    unit_sig 2 = (48 + Z.of_nat logn) :: nonce ++ e /\ length (unit_sig 2) = SignatureSize logn /\
    comp_encode logn s2 (replicate (SignatureSize logn - 41) 0) = (e, true) /\
    @hash_to_point toy_shake0 4 logn nonce (@hash_verifying_key toy_shake0 (unit_key 2)) [1; 2] 0 [7]
      (replicate (degree logn) 0) = Some (Ok c) /\
    0 < sqnorm s2 /\ sig_norm logn c s2 h <= sqbeta.[logn].
Proof.
  assert (supported [1; 2] 0) as Hs by (right; split; [simpl; lia|by eexists]).
  split; [exact Hs|].
  apply (@verify_inner_accepts toy_shake0 toy_shake0_laws 4 2 10 (unit_key 2) [1; 2] 0 [7] (unit_sig 2)).
  - lia.
  - lia.
  - apply bytes_dec. vm_compute. reflexivity.
  - apply bytes_dec. vm_compute. reflexivity.
  - exact Hs.
  - vm_compute. reflexivity.
Defined.

(** One signature for all messages: identifier 4 (SHA-224) is not known. *)
Lemma verify_unhashed_accepts_witness :
  ~ supported [] 4 /\ forall data, @verify_inner toy_shake0 0 2 10 (unit_key 2) [] 4 data (unit_sig 2) = Some true.
Proof.
  assert (~ supported [] 4) as Hs by (intros [H|[_ [o H]]]; vm_compute in H; discriminate).
  split; [exact Hs|]. intros data.
  apply (@verify_unhashed_accepts toy_shake0 toy_shake0_laws 0 2 10 (unit_key 2) [] 4 (unit_sig 2)).
  - lia.
  - lia.
  - apply bytes_dec. vm_compute. reflexivity.
  - apply bytes_dec. vm_compute. reflexivity.
  - exact Hs.
  - exists 2%nat, [1; 1; 1; 1], [1; 0; 0; 0], (replicate 40 0),
      (fst (comp_encode 2 [1; 0; 0; 0] (replicate (SignatureSize 2 - 41) 0))).
    split; [lia|]. repeat split; try (vm_compute; reflexivity); try (repeat constructor; unfold is_ext, comp_range, q; lia).
    vm_compute. congruence.
Defined.
