(* ===== verification/Flr.v ===== *)
(** The floating-point interface of the signer.

    The signer is written against the operations of [sign_flr_*.go]; which file
    provides them depends on the build (emulated on 64-bit integers, native, or
    assembly).  The class lists the operations; [FlrEmu.v] gives the emulation
    as an instance.  The theorems on the signer hold for any operations. *)
From Stdlib Require Import ZArith.
From S2P Require Import Prelude.

Class F64 := {
  f64 : Type;
  f64_ZERO : f64;
  f64_NZERO : f64;
  f64_ONE : f64;
  f64mk : Z -> Z -> f64;        (* i * 2^e *)
  f64_of : Z -> f64;            (* from int64 *)
  f64_of_i32 : Z -> f64;        (* from int32 *)
  f64_rint : f64 -> Z;          (* to int32 *)
  f64_floor : f64 -> Z;
  f64_trunc : f64 -> Z;
  f64_mtwop63 : f64 -> Z;       (* to uint64 *)
  f64_add : f64 -> f64 -> f64;
  f64_sub : f64 -> f64 -> f64;
  f64_neg : f64 -> f64;
  f64_half : f64 -> f64;
  f64_mul : f64 -> f64 -> f64;
  f64_sqr : f64 -> f64;
  f64_inv : f64 -> f64;
  f64_sqrt : f64 -> f64;
  f64_div2e : f64 -> Z -> f64;
  f64_eqb : f64 -> f64 -> bool; (* == *)
}.

#[export] Instance f64_zero `{F64} : GoZero f64 := f64_ZERO.
