(* ===== verification/FgmTable.v ===== *)
(** The table [fgm] of [sign_fpoly.go]: the constants as the code writes them,
    integer and exponent, from row 2 on ([Fpoly.fgm] adds the first two rows and
    builds the floating-point values).  Row [k] is the pair cos, sin of the angle
    of index [k]. *)
From Stdlib Require Import ZArith List.
Import ListNotations.
Local Open Scope Z_scope.

(** Lines 330 to 457. *)
Definition fgm_rows_1 : list (Z * Z * (Z * Z)) := [
  ((6369051672525773, -53), (6369051672525773, -53));
  ((-6369051672525773, -53), (6369051672525773, -53));
  ((8321567036706118, -53), (6893811853601123, -54));
  ((-6893811853601123, -54), (8321567036706118, -53));
  ((6893811853601123, -54), (8321567036706118, -53));
  ((-8321567036706118, -53), (6893811853601123, -54));
  ((8834128446708912, -53), (7028869612283403, -55));
  ((-7028869612283403, -55), (8834128446708912, -53));
  ((5004131788810440, -53), (7489212472271267, -53));
  ((-7489212472271267, -53), (5004131788810440, -53));
  ((7489212472271267, -53), (5004131788810440, -53));
  ((-5004131788810440, -53), (7489212472271267, -53));
  ((7028869612283403, -55), (8834128446708912, -53));
  ((-8834128446708912, -53), (7028869612283403, -55));
  ((8963827128411430, -53), (7062879306626092, -56));
  ((-7062879306626092, -56), (8963827128411430, -53));
  ((5714106716331478, -53), (6962659179435841, -53));
  ((-6962659179435841, -53), (5714106716331478, -53));
  ((7943640554978737, -53), (8491928673252923, -54));
  ((-8491928673252923, -54), (7943640554978737, -53));
  ((5229303857258246, -54), (8619352278838746, -53));
  ((-8619352278838746, -53), (5229303857258246, -54));
  ((8619352278838746, -53), (5229303857258246, -54));
  ((-5229303857258246, -54), (8619352278838746, -53));
  ((8491928673252923, -54), (7943640554978737, -53));
  ((-7943640554978737, -53), (8491928673252923, -54));
  ((6962659179435841, -53), (5714106716331478, -53));
  ((-5714106716331478, -53), (6962659179435841, -53));
  ((7062879306626092, -56), (8963827128411430, -53));
  ((-8963827128411430, -53), (7062879306626092, -56));
  ((8996349688769918, -53), (7071397114140692, -57));
  ((-7071397114140692, -57), (8996349688769918, -53));
  ((6048865317612704, -53), (6673894424096687, -53));
  ((-6673894424096687, -53), (6048865317612704, -53));
  ((8142411687315315, -53), (7702147837811904, -54));
  ((-7702147837811904, -54), (8142411687315315, -53));
  ((6068868072808413, -54), (8480675002222309, -53));
  ((-8480675002222309, -53), (6068868072808413, -54));
  ((8737264780849367, -53), (8754283581366043, -55));
  ((-8754283581366043, -55), (8737264780849367, -53));
  ((4630625854357486, -53), (7725732496764478, -53));
  ((-7725732496764478, -53), (4630625854357486, -53));
  ((7234650278954817, -53), (5365582331473973, -53));
  ((-5365582331473973, -53), (7234650278954817, -53));
  ((5286522480648506, -55), (8909709923362071, -53));
  ((-8909709923362071, -53), (5286522480648506, -55));
  ((8909709923362071, -53), (5286522480648506, -55));
  ((-5286522480648506, -55), (8909709923362071, -53));
  ((5365582331473973, -53), (7234650278954817, -53));
  ((-7234650278954817, -53), (5365582331473973, -53));
  ((7725732496764478, -53), (4630625854357486, -53));
  ((-4630625854357486, -53), (7725732496764478, -53));
  ((8754283581366043, -55), (8737264780849367, -53));
  ((-8737264780849367, -53), (8754283581366043, -55));
  ((8480675002222309, -53), (6068868072808413, -54));
  ((-6068868072808413, -54), (8480675002222309, -53));
  ((7702147837811904, -54), (8142411687315315, -53));
  ((-8142411687315315, -53), (7702147837811904, -54));
  ((6673894424096687, -53), (6048865317612704, -53));
  ((-6048865317612704, -53), (6673894424096687, -53));
  ((7071397114140692, -57), (8996349688769918, -53));
  ((-8996349688769918, -53), (7071397114140692, -57));
  ((9004486454725901, -53), (7073527528384126, -58));
  ((-7073527528384126, -58), (9004486454725901, -53));
  ((6210829080669407, -53), (6523437785808790, -53));
  ((-6523437785808790, -53), (6210829080669407, -53));
  ((8234469430249786, -53), (7300178522992010, -54));
  ((-7300178522992010, -54), (8234469430249786, -53));
  ((6483292609725855, -54), (8403652042342972, -53));
  ((-8403652042342972, -53), (6483292609725855, -54));
  ((8788343498532233, -53), (7893954108215139, -55));
  ((-7893954108215139, -55), (8788343498532233, -53));
  ((4818830163135267, -53), (7609764403282432, -53));
  ((-7609764403282432, -53), (4818830163135267, -53));
  ((7364149319706498, -53), (5186419112612575, -53));
  ((-5186419112612575, -53), (7364149319706498, -53));
  ((6159551188123590, -55), (8874592046238633, -53));
  ((-8874592046238633, -53), (6159551188123590, -55));
  ((8939460924383187, -53), (8820618739413774, -56));
  ((-8820618739413774, -56), (8939460924383187, -53));
  ((5541513524170937, -53), (7100793355396091, -53));
  ((-7100793355396091, -53), (5541513524170937, -53));
  ((7837046897874218, -53), (8879264459430586, -54));
  ((-8879264459430586, -54), (7837046897874218, -53));
  ((4804669900715639, -54), (8680923061569891, -53));
  ((-8680923061569891, -53), (4804669900715639, -54));
  ((8552589520593170, -53), (5650787876693505, -54));
  ((-5650787876693505, -54), (8552589520593170, -53));
  ((8099477666776158, -54), (8045449260044789, -53));
  ((-8045449260044789, -53), (8099477666776158, -54));
  ((6820330957936494, -53), (5883257944270313, -53));
  ((-5883257944270313, -53), (6820330957936494, -53));
  ((5300885459442166, -56), (8982793858156602, -53));
  ((-8982793858156602, -53), (5300885459442166, -56));
  ((8982793858156602, -53), (5300885459442166, -56));
  ((-5300885459442166, -56), (8982793858156602, -53));
  ((5883257944270313, -53), (6820330957936494, -53));
  ((-6820330957936494, -53), (5883257944270313, -53));
  ((8045449260044789, -53), (8099477666776158, -54));
  ((-8099477666776158, -54), (8045449260044789, -53));
  ((5650787876693505, -54), (8552589520593170, -53));
  ((-8552589520593170, -53), (5650787876693505, -54));
  ((8680923061569891, -53), (4804669900715639, -54));
  ((-4804669900715639, -54), (8680923061569891, -53));
  ((8879264459430586, -54), (7837046897874218, -53));
  ((-7837046897874218, -53), (8879264459430586, -54));
  ((7100793355396091, -53), (5541513524170937, -53));
  ((-5541513524170937, -53), (7100793355396091, -53));
  ((8820618739413774, -56), (8939460924383187, -53));
  ((-8939460924383187, -53), (8820618739413774, -56));
  ((8874592046238633, -53), (6159551188123590, -55));
  ((-6159551188123590, -55), (8874592046238633, -53));
  ((5186419112612575, -53), (7364149319706498, -53));
  ((-7364149319706498, -53), (5186419112612575, -53));
  ((7609764403282432, -53), (4818830163135267, -53));
  ((-4818830163135267, -53), (7609764403282432, -53));
  ((7893954108215139, -55), (8788343498532233, -53));
  ((-8788343498532233, -53), (7893954108215139, -55));
  ((8403652042342972, -53), (6483292609725855, -54));
  ((-6483292609725855, -54), (8403652042342972, -53));
  ((7300178522992010, -54), (8234469430249786, -53));
  ((-8234469430249786, -53), (7300178522992010, -54));
  ((6523437785808790, -53), (6210829080669407, -53));
  ((-6210829080669407, -53), (6523437785808790, -53));
  ((7073527528384126, -58), (9004486454725901, -53));
  ((-9004486454725901, -53), (7073527528384126, -58));
  ((9006521029202651, -53), (7074060192106372, -59));
  ((-7074060192106372, -59), (9006521029202651, -53))
].

(** Lines 458 to 585. *)
Definition fgm_rows_2 : list (Z * Z * (Z * Z)) := [
  ((6290414033205309, -53), (6446730156091567, -53));
  ((-6446730156091567, -53), (6290414033205309, -53));
  ((8278641599964811, -53), (7097529619223511, -54));
  ((-7097529619223511, -54), (8278641599964811, -53));
  ((6689055905271015, -54), (8363239276060827, -53));
  ((-8363239276060827, -53), (6689055905271015, -54));
  ((8811899492445997, -53), (7461973733147729, -55));
  ((-7461973733147729, -55), (8811899492445997, -53));
  ((4911850829306697, -53), (7550056943179025, -53));
  ((-7550056943179025, -53), (4911850829306697, -53));
  ((7427240153512674, -53), (5095659144473433, -53));
  ((-5095659144473433, -53), (7427240153512674, -53));
  ((6594706969509681, -55), (8855027013722231, -53));
  ((-8855027013722231, -53), (6594706969509681, -55));
  ((8952318119487099, -53), (7942347067146965, -56));
  ((-7942347067146965, -56), (8952318119487099, -53));
  ((5628233915913940, -53), (7032255783343117, -53));
  ((-7032255783343117, -53), (5628233915913940, -53));
  ((7890937899537737, -53), (8686250625038550, -54));
  ((-8686250625038550, -54), (7890937899537737, -53));
  ((5017364677319486, -54), (8650789058710388, -53));
  ((-8650789058710388, -53), (5017364677319486, -54));
  ((8586617456218381, -53), (5440455523270994, -54));
  ((-5440455523270994, -54), (8586617456218381, -53));
  ((8296327868244873, -54), (7995146927371163, -53));
  ((-7995146927371163, -53), (8296327868244873, -54));
  ((6892014024666815, -53), (5799118993295673, -53));
  ((-5799118993295673, -53), (6892014024666815, -53));
  ((6182347902460953, -56), (8973986217941769, -53));
  ((-8973986217941769, -53), (6182347902460953, -56));
  ((8990248722657709, -53), (8837249445142752, -57));
  ((-8837249445142752, -57), (8990248722657709, -53));
  ((5966510898238870, -53), (6747620774451057, -53));
  ((-6747620774451057, -53), (5966510898238870, -53));
  ((8094539977653340, -53), (7901407713763047, -54));
  ((-7901407713763047, -54), (8094539977653340, -53));
  ((5860269242247018, -54), (8517273596445054, -53));
  ((-8517273596445054, -53), (5860269242247018, -54));
  ((8709749749347266, -53), (4591251558497710, -54));
  ((-4591251558497710, -54), (8709749749347266, -53));
  ((4535470554627767, -53), (7781975665774802, -53));
  ((-7781975665774802, -53), (4535470554627767, -53));
  ((7168261574088514, -53), (5453958600874483, -53));
  ((-5453958600874483, -53), (7168261574088514, -53));
  ((4848781029471607, -55), (8925257479345985, -53));
  ((-8925257479345985, -53), (4848781029471607, -55));
  ((8892820597836187, -53), (5723467800985178, -55));
  ((-5723467800985178, -55), (8892820597836187, -53));
  ((5276398025110506, -53), (7299949472100244, -53));
  ((-7299949472100244, -53), (5276398025110506, -53));
  ((7668325860857618, -53), (4725083798866319, -53));
  ((-4725083798866319, -53), (7668325860857618, -53));
  ((8324745682830097, -55), (8763464012413658, -53));
  ((-8763464012413658, -53), (8324745682830097, -55));
  ((8442799249538603, -53), (6276552954161094, -54));
  ((-6276552954161094, -54), (8442799249538603, -53));
  ((7501728046727114, -54), (8189057179727324, -53));
  ((-8189057179727324, -53), (7501728046727114, -54));
  ((6599163009790561, -53), (6130308800119180, -53));
  ((-6130308800119180, -53), (6599163009790561, -53));
  ((5304479856743885, -57), (9001095837710173, -53));
  ((-9001095837710173, -53), (5304479856743885, -57));
  ((9001095837710173, -53), (5304479856743885, -57));
  ((-5304479856743885, -57), (9001095837710173, -53));
  ((6130308800119180, -53), (6599163009790561, -53));
  ((-6599163009790561, -53), (6130308800119180, -53));
  ((8189057179727324, -53), (7501728046727114, -54));
  ((-7501728046727114, -54), (8189057179727324, -53));
  ((6276552954161094, -54), (8442799249538603, -53));
  ((-8442799249538603, -53), (6276552954161094, -54));
  ((8763464012413658, -53), (8324745682830097, -55));
  ((-8324745682830097, -55), (8763464012413658, -53));
  ((4725083798866319, -53), (7668325860857618, -53));
  ((-7668325860857618, -53), (4725083798866319, -53));
  ((7299949472100244, -53), (5276398025110506, -53));
  ((-5276398025110506, -53), (7299949472100244, -53));
  ((5723467800985178, -55), (8892820597836187, -53));
  ((-8892820597836187, -53), (5723467800985178, -55));
  ((8925257479345985, -53), (4848781029471607, -55));
  ((-4848781029471607, -55), (8925257479345985, -53));
  ((5453958600874483, -53), (7168261574088514, -53));
  ((-7168261574088514, -53), (5453958600874483, -53));
  ((7781975665774802, -53), (4535470554627767, -53));
  ((-4535470554627767, -53), (7781975665774802, -53));
  ((4591251558497710, -54), (8709749749347266, -53));
  ((-8709749749347266, -53), (4591251558497710, -54));
  ((8517273596445054, -53), (5860269242247018, -54));
  ((-5860269242247018, -54), (8517273596445054, -53));
  ((7901407713763047, -54), (8094539977653340, -53));
  ((-8094539977653340, -53), (7901407713763047, -54));
  ((6747620774451057, -53), (5966510898238870, -53));
  ((-5966510898238870, -53), (6747620774451057, -53));
  ((8837249445142752, -57), (8990248722657709, -53));
  ((-8990248722657709, -53), (8837249445142752, -57));
  ((8973986217941769, -53), (6182347902460953, -56));
  ((-6182347902460953, -56), (8973986217941769, -53));
  ((5799118993295673, -53), (6892014024666815, -53));
  ((-6892014024666815, -53), (5799118993295673, -53));
  ((7995146927371163, -53), (8296327868244873, -54));
  ((-8296327868244873, -54), (7995146927371163, -53));
  ((5440455523270994, -54), (8586617456218381, -53));
  ((-8586617456218381, -53), (5440455523270994, -54));
  ((8650789058710388, -53), (5017364677319486, -54));
  ((-5017364677319486, -54), (8650789058710388, -53));
  ((8686250625038550, -54), (7890937899537737, -53));
  ((-7890937899537737, -53), (8686250625038550, -54));
  ((7032255783343117, -53), (5628233915913940, -53));
  ((-5628233915913940, -53), (7032255783343117, -53));
  ((7942347067146965, -56), (8952318119487099, -53));
  ((-8952318119487099, -53), (7942347067146965, -56));
  ((8855027013722231, -53), (6594706969509681, -55));
  ((-6594706969509681, -55), (8855027013722231, -53));
  ((5095659144473433, -53), (7427240153512674, -53));
  ((-7427240153512674, -53), (5095659144473433, -53));
  ((7550056943179025, -53), (4911850829306697, -53));
  ((-4911850829306697, -53), (7550056943179025, -53));
  ((7461973733147729, -55), (8811899492445997, -53));
  ((-8811899492445997, -53), (7461973733147729, -55));
  ((8363239276060827, -53), (6689055905271015, -54));
  ((-6689055905271015, -54), (8363239276060827, -53));
  ((7097529619223511, -54), (8278641599964811, -53));
  ((-8278641599964811, -53), (7097529619223511, -54));
  ((6446730156091567, -53), (6290414033205309, -53));
  ((-6290414033205309, -53), (6446730156091567, -53));
  ((7074060192106372, -59), (9006521029202651, -53));
  ((-9006521029202651, -53), (7074060192106372, -59));
  ((9007029696760466, -53), (7074193361797233, -60));
  ((-7074193361797233, -60), (9007029696760466, -53))
].

(** Lines 586 to 713. *)
Definition fgm_rows_3 : list (Z * Z * (Z * Z)) := [
  ((6329852010540816, -53), (6408011543315061, -53));
  ((-6408011543315061, -53), (6329852010540816, -53));
  ((8300260568395001, -53), (6995802430416048, -54));
  ((-6995802430416048, -54), (8300260568395001, -53));
  ((6791561728666308, -54), (8342560202721672, -53));
  ((-8342560202721672, -53), (6791561728666308, -54));
  ((8823180063448708, -53), (7245558068298598, -55));
  ((-7245558068298598, -55), (8823180063448708, -53));
  ((4958084643600824, -53), (7519776265388244, -53));
  ((-7519776265388244, -53), (4958084643600824, -53));
  ((7458366714537629, -53), (5049990531286555, -53));
  ((-5049990531286555, -53), (7458366714537629, -53));
  ((6811916523300038, -55), (8844744230026167, -53));
  ((-8844744230026167, -53), (6811916523300038, -55));
  ((8958241260309380, -53), (7502754424118275, -56));
  ((-7502754424118275, -56), (8958241260309380, -53));
  ((5671277076310961, -53), (6997589209028812, -53));
  ((-6997589209028812, -53), (5671277076310961, -53));
  ((7917438270796208, -53), (8589251339374868, -54));
  ((-8589251339374868, -54), (7917438270796208, -53));
  ((5123430714424177, -54), (8635233224599694, -53));
  ((-8635233224599694, -53), (5123430714424177, -54));
  ((8603146819336178, -53), (5334980119757703, -54));
  ((-5334980119757703, -54), (8603146819336178, -53));
  ((8394286290816088, -54), (7969543765584135, -53));
  ((-7969543765584135, -53), (8394286290816088, -54));
  ((6927467009660074, -53), (5756721223463751, -53));
  ((-5756721223463751, -53), (6927467009660074, -53));
  ((6622738275719969, -56), (8969075513488470, -53));
  ((-8969075513488470, -53), (6622738275719969, -56));
  ((8993468505216860, -53), (7954473020348387, -57));
  ((-7954473020348387, -57), (8993468505216860, -53));
  ((6007801203085623, -53), (6710883929767346, -53));
  ((-6710883929767346, -53), (6007801203085623, -53));
  ((8118628663374582, -53), (7801924644814081, -54));
  ((-7801924644814081, -54), (8118628663374582, -53));
  ((5964680940960804, -54), (8499134293134885, -53));
  ((-8499134293134885, -53), (5964680940960804, -54));
  ((8723671485748716, -53), (8968562179829241, -55));
  ((-8968562179829241, -55), (8723671485748716, -53));
  ((4583134480704026, -53), (7754000048129257, -53));
  ((-7754000048129257, -53), (4583134480704026, -53));
  ((7201591494446370, -53), (5409872305491543, -53));
  ((-5409872305491543, -53), (7201591494446370, -53));
  ((5067747153968079, -55), (8917651573624763, -53));
  ((-8917651573624763, -53), (5067747153968079, -55));
  ((8901432827556552, -53), (5505098772745492, -55));
  ((-5505098772745492, -55), (8901432827556552, -53));
  ((5321090346314263, -53), (7267436682969301, -53));
  ((-7267436682969301, -53), (5321090346314263, -53));
  ((7697174075937797, -53), (4677942887564769, -53));
  ((-4677942887564769, -53), (7697174075937797, -53));
  ((8539675389073947, -55), (8750529122869341, -53));
  ((-8750529122869341, -53), (8539675389073947, -55));
  ((8461896418689196, -53), (6172826715203219, -54));
  ((-6172826715203219, -54), (8461896418689196, -53));
  ((7602081049296905, -54), (8165888154058130, -53));
  ((-8165888154058130, -53), (7602081049296905, -54));
  ((6636653650073061, -53), (6089701695779408, -53));
  ((-6089701695779408, -53), (6636653650073061, -53));
  ((6188054973828419, -57), (8998892164841951, -53));
  ((-8998892164841951, -53), (6188054973828419, -57));
  ((9002960624407544, -53), (8841410057981697, -58));
  ((-8841410057981697, -58), (9002960624407544, -53));
  ((6170685101797492, -53), (6561423914750605, -53));
  ((-6561423914750605, -53), (6170685101797492, -53));
  ((8211917892022175, -53), (7401092608336357, -54));
  ((-7401092608336357, -54), (8211917892022175, -53));
  ((6380042884447767, -54), (8423384213768154, -53));
  ((-8423384213768154, -53), (6380042884447767, -54));
  ((8776068962491037, -53), (8109502554616454, -55));
  ((-8109502554616454, -55), (8776068962491037, -53));
  ((4772046813433470, -53), (7639188937642932, -53));
  ((-7639188937642932, -53), (4772046813433470, -53));
  ((7332187422259511, -53), (5231507050503336, -53));
  ((-5231507050503336, -53), (7332187422259511, -53));
  ((5941621343897074, -55), (8883873558446555, -53));
  ((-8883873558446555, -53), (5941621343897074, -55));
  ((8932527354167686, -53), (4629632351109917, -55));
  ((-4629632351109917, -55), (8932527354167686, -53));
  ((5497839557798690, -53), (7134661772733911, -53));
  ((-7134661772733911, -53), (5497839557798690, -53));
  ((7809658296434922, -53), (8975271741297168, -54));
  ((-8975271741297168, -54), (7809658296434922, -53));
  ((4698049169054608, -54), (8695500095790524, -53));
  ((-8695500095790524, -53), (4698049169054608, -54));
  ((8535092229218300, -53), (5755636907708500, -54));
  ((-5755636907708500, -54), (8535092229218300, -53));
  ((8000593299177483, -54), (8070146537076992, -53));
  ((-8070146537076992, -53), (8000593299177483, -54));
  ((6784103575026380, -53), (5924995957629083, -53));
  ((-5924995957629083, -53), (6784103575026380, -53));
  ((4859846576245171, -56), (8986690462315460, -53));
  ((-8986690462315460, -53), (4859846576245171, -56));
  ((8978559056886080, -53), (5741724767297686, -56));
  ((-5741724767297686, -56), (8978559056886080, -53));
  ((5841298429575172, -53), (6856301559240908, -53));
  ((-6856301559240908, -53), (5841298429575172, -53));
  ((8020449076395251, -53), (8198057093618523, -54));
  ((-8198057093618523, -54), (8020449076395251, -53));
  ((5545726096708791, -54), (8569764811806532, -53));
  ((-8569764811806532, -53), (5545726096708791, -54));
  ((8666019195502468, -53), (4911109739270519, -54));
  ((-4911109739270519, -54), (8666019195502468, -53));
  ((8782922878275687, -54), (7864140438927325, -53));
  ((-7864140438927325, -53), (8782922878275687, -54));
  ((7066657597201826, -53), (5584978855691076, -53));
  ((-5584978855691076, -53), (7066657597201826, -53));
  ((8381640685297609, -56), (8946057928947489, -53));
  ((-8946057928947489, -53), (8381640685297609, -56));
  ((8864976410656110, -53), (6377249128729266, -55));
  ((-6377249128729266, -55), (8864976410656110, -53));
  ((5141135908973599, -53), (7395833961093832, -53));
  ((-7395833961093832, -53), (5141135908973599, -53));
  ((7580053365593204, -53), (4865432086605035, -53));
  ((-4865432086605035, -53), (7580053365593204, -53));
  ((7678108458903330, -55), (8800287158407901, -53));
  ((-8800287158407901, -53), (7678108458903330, -55));
  ((8383603478168160, -53), (6586298242701558, -54));
  ((-6586298242701558, -54), (8383603478168160, -53));
  ((7198989590052351, -54), (8256710945357489, -53));
  ((-8256710945357489, -53), (7198989590052351, -54));
  ((6485206053121402, -53), (6250739225336809, -53));
  ((-6250739225336809, -53), (6485206053121402, -53));
  ((5305378684473085, -58), (9005673271218593, -53));
  ((-9005673271218593, -53), (5305378684473085, -58));
  ((9005673271218593, -53), (5305378684473085, -58));
  ((-5305378684473085, -58), (9005673271218593, -53))
].

(** Lines 714 to 841. *)
Definition fgm_rows_4 : list (Z * Z * (Z * Z)) := [
  ((6250739225336809, -53), (6485206053121402, -53));
  ((-6485206053121402, -53), (6250739225336809, -53));
  ((8256710945357489, -53), (7198989590052351, -54));
  ((-7198989590052351, -54), (8256710945357489, -53));
  ((6586298242701558, -54), (8383603478168160, -53));
  ((-8383603478168160, -53), (6586298242701558, -54));
  ((8800287158407901, -53), (7678108458903330, -55));
  ((-7678108458903330, -55), (8800287158407901, -53));
  ((4865432086605035, -53), (7580053365593204, -53));
  ((-7580053365593204, -53), (4865432086605035, -53));
  ((7395833961093832, -53), (5141135908973599, -53));
  ((-5141135908973599, -53), (7395833961093832, -53));
  ((6377249128729266, -55), (8864976410656110, -53));
  ((-8864976410656110, -53), (6377249128729266, -55));
  ((8946057928947489, -53), (8381640685297609, -56));
  ((-8381640685297609, -56), (8946057928947489, -53));
  ((5584978855691076, -53), (7066657597201826, -53));
  ((-7066657597201826, -53), (5584978855691076, -53));
  ((7864140438927325, -53), (8782922878275687, -54));
  ((-8782922878275687, -54), (7864140438927325, -53));
  ((4911109739270519, -54), (8666019195502468, -53));
  ((-8666019195502468, -53), (4911109739270519, -54));
  ((8569764811806532, -53), (5545726096708791, -54));
  ((-5545726096708791, -54), (8569764811806532, -53));
  ((8198057093618523, -54), (8020449076395251, -53));
  ((-8020449076395251, -53), (8198057093618523, -54));
  ((6856301559240908, -53), (5841298429575172, -53));
  ((-5841298429575172, -53), (6856301559240908, -53));
  ((5741724767297686, -56), (8978559056886080, -53));
  ((-8978559056886080, -53), (5741724767297686, -56));
  ((8986690462315460, -53), (4859846576245171, -56));
  ((-4859846576245171, -56), (8986690462315460, -53));
  ((5924995957629083, -53), (6784103575026380, -53));
  ((-6784103575026380, -53), (5924995957629083, -53));
  ((8070146537076992, -53), (8000593299177483, -54));
  ((-8000593299177483, -54), (8070146537076992, -53));
  ((5755636907708500, -54), (8535092229218300, -53));
  ((-8535092229218300, -53), (5755636907708500, -54));
  ((8695500095790524, -53), (4698049169054608, -54));
  ((-4698049169054608, -54), (8695500095790524, -53));
  ((8975271741297168, -54), (7809658296434922, -53));
  ((-7809658296434922, -53), (8975271741297168, -54));
  ((7134661772733911, -53), (5497839557798690, -53));
  ((-5497839557798690, -53), (7134661772733911, -53));
  ((4629632351109917, -55), (8932527354167686, -53));
  ((-8932527354167686, -53), (4629632351109917, -55));
  ((8883873558446555, -53), (5941621343897074, -55));
  ((-5941621343897074, -55), (8883873558446555, -53));
  ((5231507050503336, -53), (7332187422259511, -53));
  ((-7332187422259511, -53), (5231507050503336, -53));
  ((7639188937642932, -53), (4772046813433470, -53));
  ((-4772046813433470, -53), (7639188937642932, -53));
  ((8109502554616454, -55), (8776068962491037, -53));
  ((-8776068962491037, -53), (8109502554616454, -55));
  ((8423384213768154, -53), (6380042884447767, -54));
  ((-6380042884447767, -54), (8423384213768154, -53));
  ((7401092608336357, -54), (8211917892022175, -53));
  ((-8211917892022175, -53), (7401092608336357, -54));
  ((6561423914750605, -53), (6170685101797492, -53));
  ((-6170685101797492, -53), (6561423914750605, -53));
  ((8841410057981697, -58), (9002960624407544, -53));
  ((-9002960624407544, -53), (8841410057981697, -58));
  ((8998892164841951, -53), (6188054973828419, -57));
  ((-6188054973828419, -57), (8998892164841951, -53));
  ((6089701695779408, -53), (6636653650073061, -53));
  ((-6636653650073061, -53), (6089701695779408, -53));
  ((8165888154058130, -53), (7602081049296905, -54));
  ((-7602081049296905, -54), (8165888154058130, -53));
  ((6172826715203219, -54), (8461896418689196, -53));
  ((-8461896418689196, -53), (6172826715203219, -54));
  ((8750529122869341, -53), (8539675389073947, -55));
  ((-8539675389073947, -55), (8750529122869341, -53));
  ((4677942887564769, -53), (7697174075937797, -53));
  ((-7697174075937797, -53), (4677942887564769, -53));
  ((7267436682969301, -53), (5321090346314263, -53));
  ((-5321090346314263, -53), (7267436682969301, -53));
  ((5505098772745492, -55), (8901432827556552, -53));
  ((-8901432827556552, -53), (5505098772745492, -55));
  ((8917651573624763, -53), (5067747153968079, -55));
  ((-5067747153968079, -55), (8917651573624763, -53));
  ((5409872305491543, -53), (7201591494446370, -53));
  ((-7201591494446370, -53), (5409872305491543, -53));
  ((7754000048129257, -53), (4583134480704026, -53));
  ((-4583134480704026, -53), (7754000048129257, -53));
  ((8968562179829241, -55), (8723671485748716, -53));
  ((-8723671485748716, -53), (8968562179829241, -55));
  ((8499134293134885, -53), (5964680940960804, -54));
  ((-5964680940960804, -54), (8499134293134885, -53));
  ((7801924644814081, -54), (8118628663374582, -53));
  ((-8118628663374582, -53), (7801924644814081, -54));
  ((6710883929767346, -53), (6007801203085623, -53));
  ((-6007801203085623, -53), (6710883929767346, -53));
  ((7954473020348387, -57), (8993468505216860, -53));
  ((-8993468505216860, -53), (7954473020348387, -57));
  ((8969075513488470, -53), (6622738275719969, -56));
  ((-6622738275719969, -56), (8969075513488470, -53));
  ((5756721223463751, -53), (6927467009660074, -53));
  ((-6927467009660074, -53), (5756721223463751, -53));
  ((7969543765584135, -53), (8394286290816088, -54));
  ((-8394286290816088, -54), (7969543765584135, -53));
  ((5334980119757703, -54), (8603146819336178, -53));
  ((-8603146819336178, -53), (5334980119757703, -54));
  ((8635233224599694, -53), (5123430714424177, -54));
  ((-5123430714424177, -54), (8635233224599694, -53));
  ((8589251339374868, -54), (7917438270796208, -53));
  ((-7917438270796208, -53), (8589251339374868, -54));
  ((6997589209028812, -53), (5671277076310961, -53));
  ((-5671277076310961, -53), (6997589209028812, -53));
  ((7502754424118275, -56), (8958241260309380, -53));
  ((-8958241260309380, -53), (7502754424118275, -56));
  ((8844744230026167, -53), (6811916523300038, -55));
  ((-6811916523300038, -55), (8844744230026167, -53));
  ((5049990531286555, -53), (7458366714537629, -53));
  ((-7458366714537629, -53), (5049990531286555, -53));
  ((7519776265388244, -53), (4958084643600824, -53));
  ((-4958084643600824, -53), (7519776265388244, -53));
  ((7245558068298598, -55), (8823180063448708, -53));
  ((-8823180063448708, -53), (7245558068298598, -55));
  ((8342560202721672, -53), (6791561728666308, -54));
  ((-6791561728666308, -54), (8342560202721672, -53));
  ((6995802430416048, -54), (8300260568395001, -53));
  ((-8300260568395001, -53), (6995802430416048, -54));
  ((6408011543315061, -53), (6329852010540816, -53));
  ((-6329852010540816, -53), (6408011543315061, -53));
  ((7074193361797233, -60), (9007029696760466, -53));
  ((-9007029696760466, -53), (7074193361797233, -60));
  ((9007156865146114, -53), (7074226654454970, -61));
  ((-7074226654454970, -61), (9007156865146114, -53))
].

(** Lines 842 to 969. *)
Definition fgm_rows_5 : list (Z * Z * (Z * Z)) := [
  ((6349481723403377, -53), (6388561673708188, -53));
  ((-6388561673708188, -53), (6349481723403377, -53));
  ((8310952915477583, -53), (6944839825747268, -54));
  ((-6944839825747268, -54), (8310952915477583, -53));
  ((6842718994272319, -54), (8332102832176454, -53));
  ((-8332102832176454, -53), (6842718994272319, -54));
  ((8828695804602461, -53), (7137247429536506, -55));
  ((-7137247429536506, -55), (8828695804602461, -53));
  ((4981131658359743, -53), (7504529686575502, -53));
  ((-7504529686575502, -53), (4981131658359743, -53));
  ((7473824766646994, -53), (5027084818466930, -53));
  ((-5027084818466930, -53), (7473824766646994, -53));
  ((6920425636632580, -55), (8839477938633966, -53));
  ((-8839477938633966, -53), (6920425636632580, -55));
  ((8961076366892190, -53), (7282851139856476, -56));
  ((-7282851139856476, -56), (8961076366892190, -53));
  ((5692718687339392, -53), (6980157044180565, -53));
  ((-6980157044180565, -53), (5692718687339392, -53));
  ((7930576735691761, -53), (8540630200145957, -54));
  ((-8540630200145957, -54), (7930576735691761, -53));
  ((5176391646926010, -54), (8627333353592832, -53));
  ((-8627333353592832, -53), (5176391646926010, -54));
  ((8611290075458352, -53), (5282166847391008, -54));
  ((-5282166847391008, -54), (8611290075458352, -53));
  ((8443147217093086, -54), (7956629605695492, -53));
  ((-7956629605695492, -53), (8443147217093086, -54));
  ((6945095779491208, -53), (5735440961974946, -53));
  ((-5735440961974946, -53), (6945095779491208, -53));
  ((6842840994885793, -56), (8966493518975884, -53));
  ((-8966493518975884, -53), (6842840994885793, -56));
  ((8994951428947667, -53), (7512970424714007, -57));
  ((-7512970424714007, -57), (8994951428947667, -53));
  ((6028361630966943, -53), (6692420672738099, -53));
  ((-6692420672738099, -53), (6028361630966943, -53));
  ((8130558439301216, -53), (7752072724043411, -54));
  ((-7752072724043411, -54), (8130558439301216, -53));
  ((6016802823104436, -54), (8489944602974586, -53));
  ((-8489944602974586, -53), (6016802823104436, -54));
  ((8730509220737932, -53), (8861464584337410, -55));
  ((-8861464584337410, -55), (8730509220737932, -53));
  ((4606901848488119, -53), (7739902697902825, -53));
  ((-7739902697902825, -53), (4606901848488119, -53));
  ((7218154856711858, -53), (5387752674272799, -53));
  ((-5387752674272799, -53), (7218154856711858, -53));
  ((5177159182005257, -55), (8913722698169820, -53));
  ((-8913722698169820, -53), (5177159182005257, -55));
  ((8905613286971281, -53), (5395836020528807, -55));
  ((-5395836020528807, -55), (8905613286971281, -53));
  ((5343361485770773, -53), (7251077605914050, -53));
  ((-7251077605914050, -53), (5343361485770773, -53));
  ((7711489578089543, -53), (4654306275012748, -53));
  ((-4654306275012748, -53), (7711489578089543, -53));
  ((8647020179743560, -55), (8743938102497119, -53));
  ((-8743938102497119, -53), (8647020179743560, -55));
  ((8471325578127065, -53), (6120876200014774, -54));
  ((-6120876200014774, -54), (8471325578127065, -53));
  ((7652150456031602, -54), (8154188295849595, -53));
  ((-8154188295849595, -53), (7652150456031602, -54));
  ((6655305358219218, -53), (6069312070034399, -53));
  ((-6069312070034399, -53), (6655305358219218, -53));
  ((6629757244884614, -57), (8997663271522660, -53));
  ((-8997663271522660, -53), (6629757244884614, -57));
  ((9003765913003641, -53), (7957506242722589, -58));
  ((-7957506242722589, -58), (9003765913003641, -53));
  ((6190786226252304, -53), (6542461640350018, -53));
  ((-6542461640350018, -53), (6190786226252304, -53));
  ((8223232361233372, -53), (7350670159317696, -54));
  ((-7350670159317696, -54), (8223232361233372, -53));
  ((6431698015882422, -54), (8413557723860353, -53));
  ((-8413557723860353, -53), (6431698015882422, -54));
  ((8782247561441008, -53), (8001765989250269, -55));
  ((-8001765989250269, -55), (8782247561441008, -53));
  ((4795461056637271, -53), (7624512552870645, -53));
  ((-7624512552870645, -53), (4795461056637271, -53));
  ((7348202953025374, -53), (5208987596045498, -53));
  ((-5208987596045498, -53), (7348202953025374, -53));
  ((6050614741355486, -55), (8879274589899640, -53));
  ((-8879274589899640, -53), (6050614741355486, -55));
  ((8936036193963400, -53), (4519992132352091, -55));
  ((-4519992132352091, -55), (8936036193963400, -53));
  ((5519702517755945, -53), (7117761061603948, -53));
  ((-7117761061603948, -53), (5519702517755945, -53));
  ((7823389415514919, -53), (8927310113985246, -54));
  ((-8927310113985246, -54), (7823389415514919, -53));
  ((4751381895793102, -54), (8688252467250769, -53));
  ((-8688252467250769, -53), (4751381895793102, -54));
  ((8543881084037075, -53), (5703239232730864, -54));
  ((-5703239232730864, -54), (8543881084037075, -53));
  ((8050073368155017, -54), (8057835820270665, -53));
  ((-8057835820270665, -53), (8050073368155017, -54));
  ((6802249279161855, -53), (5904154737026182, -53));
  ((-5904154737026182, -53), (6802249279161855, -53));
  ((5080389927126093, -56), (8984784444342543, -53));
  ((-8984784444342543, -53), (5080389927126093, -56));
  ((8980718722493792, -53), (5521331097805465, -56));
  ((-5521331097805465, -56), (8980718722493792, -53));
  ((5862305776050047, -53), (6838348441158650, -53));
  ((-6838348441158650, -53), (5862305776050047, -53));
  ((8032986972986387, -53), (8148805730028833, -54));
  ((-8148805730028833, -54), (8032986972986387, -53));
  ((5598283333288561, -54), (8561217456919463, -53));
  ((-8561217456919463, -53), (5598283333288561, -54));
  ((8673511947735049, -53), (4857912682255224, -54));
  ((-4857912682255224, -54), (8673511947735049, -53));
  ((8831135229857187, -54), (7850630614963393, -53));
  ((-7850630614963393, -53), (8831135229857187, -54));
  ((7083758813816853, -53), (5563272371750168, -53));
  ((-5563272371750168, -53), (7083758813816853, -53));
  ((8601170191100479, -56), (8942801513192182, -53));
  ((-8942801513192182, -53), (8601170191100479, -56));
  ((8869825971537420, -53), (6268429658850061, -55));
  ((-6268429658850061, -55), (8869825971537420, -53));
  ((5163801812627728, -53), (7380026372209606, -53));
  ((-7380026372209606, -53), (5163801812627728, -53));
  ((7594944627693494, -53), (4842153912968527, -53));
  ((-4842153912968527, -53), (7594944627693494, -53));
  ((7786067926277549, -55), (8794356716387429, -53));
  ((-8794356716387429, -53), (7786067926277549, -55));
  ((8393667262452058, -53), (6534826180350098, -54));
  ((-6534826180350098, -54), (8393667262452058, -53));
  ((7249618174605810, -54), (8245628993303844, -53));
  ((-8245628993303844, -53), (7249618174605810, -54));
  ((6504352530186687, -53), (6230813476397823, -53));
  ((-6230813476397823, -53), (6504352530186687, -53));
  ((6189482235310630, -58), (9005122242792311, -53));
  ((-9005122242792311, -53), (6189482235310630, -58));
  ((9006139534818257, -53), (8842450394781643, -59));
  ((-8842450394781643, -59), (9006139534818257, -53))
].

(** Lines 970 to 1097. *)
Definition fgm_rows_6 : list (Z * Z * (Z * Z)) := [
  ((6270606139937627, -53), (6465998534826869, -53));
  ((-6465998534826869, -53), (6270606139937627, -53));
  ((8267715182103167, -53), (7148293245867151, -54));
  ((-7148293245867151, -54), (8267715182103167, -53));
  ((6637708312305582, -54), (8373460784215450, -53));
  ((-8373460784215450, -53), (6637708312305582, -54));
  ((8806134768774068, -53), (7570076722248107, -55));
  ((-7570076722248107, -55), (8806134768774068, -53));
  ((4888664464941756, -53), (7565090757143791, -53));
  ((-7565090757143791, -53), (4888664464941756, -53));
  ((7411571937572131, -53), (5118421614990306, -53));
  ((-5118421614990306, -53), (7411571937572131, -53));
  ((6486008573510911, -55), (8860043409240618, -53));
  ((-8860043409240618, -53), (6486008573510911, -55));
  ((8949230140998484, -53), (8162032288300481, -56));
  ((-8162032288300481, -56), (8949230140998484, -53));
  ((5606632771683968, -53), (7049489866514174, -53));
  ((-7049489866514174, -53), (5606632771683968, -53));
  ((7877576242606407, -53), (8734627858479102, -54));
  ((-8734627858479102, -54), (7877576242606407, -53));
  ((4964260571050563, -54), (8658444875396786, -53));
  ((-8658444875396786, -53), (4964260571050563, -54));
  ((8578231504803418, -53), (5493116661642923, -54));
  ((-5493116661642923, -54), (8578231504803418, -53));
  ((8247231293972637, -54), (8007835688282839, -53));
  ((-8007835688282839, -53), (8247231293972637, -54));
  ((6874190143201685, -53), (5820236102574833, -53));
  ((-5820236102574833, -53), (6874190143201685, -53));
  ((5962064393489674, -56), (8976314881661062, -53));
  ((-8976314881661062, -53), (5962064393489674, -56));
  ((8988511894135185, -53), (4639257482637412, -56));
  ((-4639257482637412, -56), (8988511894135185, -53));
  ((5945781409913510, -53), (6765894016324346, -53));
  ((-6765894016324346, -53), (5945781409913510, -53));
  ((8082381294590617, -53), (7951037925568809, -54));
  ((-7951037925568809, -54), (8082381294590617, -53));
  ((5807980408439539, -54), (8526223038860894, -53));
  ((-8526223038860894, -53), (5807980408439539, -54));
  ((8702665878971716, -53), (4644672222488094, -54));
  ((-4644672222488094, -54), (8702665878971716, -53));
  ((4511574444966625, -53), (7795853669876749, -53));
  ((-7795853669876749, -53), (4511574444966625, -53));
  ((7151495329710049, -53), (5475924850081677, -53));
  ((-5475924850081677, -53), (7151495329710049, -53));
  ((4739228994004870, -55), (8928934438022583, -53));
  ((-8928934438022583, -53), (4739228994004870, -55));
  ((8888388908592136, -53), (5832572021635720, -55));
  ((-5832572021635720, -55), (8888388908592136, -53));
  ((5253977264024408, -53), (7316102878153182, -53));
  ((-7316102878153182, -53), (5253977264024408, -53));
  ((7653793419459571, -53), (4748587653907638, -53));
  ((-4748587653907638, -53), (7653793419459571, -53));
  ((8217162790256110, -55), (8769807759837646, -53));
  ((-8769807759837646, -53), (8217162790256110, -55));
  ((8433131419575708, -53), (6328327701619659, -54));
  ((-6328327701619659, -54), (8433131419575708, -53));
  ((7451445395452699, -54), (8200526129112289, -53));
  ((-8200526129112289, -53), (7451445395452699, -54));
  ((6580324430530404, -53), (6150525896504412, -53));
  ((-6150525896504412, -53), (6580324430530404, -53));
  ((4862615327261055, -57), (9002070596517294, -53));
  ((-9002070596517294, -53), (4862615327261055, -57));
  ((9000036357160980, -53), (5746294458442105, -57));
  ((-5746294458442105, -57), (9000036357160980, -53));
  ((6110034002932808, -53), (6617939475215195, -53));
  ((-6617939475215195, -53), (6110034002932808, -53));
  ((8177511151817401, -53), (7551940088880137, -54));
  ((-7551940088880137, -54), (8177511151817401, -53));
  ((6224719129395714, -54), (8452387612659540, -53));
  ((-8452387612659540, -53), (6224719129395714, -54));
  ((8757037779928840, -53), (8432250219727258, -55));
  ((-8432250219727258, -55), (8757037779928840, -53));
  ((4701535469536748, -53), (7682786125052197, -53));
  ((-7682786125052197, -53), (4701535469536748, -53));
  ((7283727356142706, -53), (5298769122728888, -53));
  ((-5298769122728888, -53), (7283727356142706, -53));
  ((5614309708875923, -55), (8897168584465961, -53));
  ((-8897168584465961, -53), (5614309708875923, -55));
  ((8921496512746829, -53), (4958287426364647, -55));
  ((-4958287426364647, -55), (8921496512746829, -53));
  ((5431941016931809, -53), (7184960348059028, -53));
  ((-7184960348059028, -53), (5431941016931809, -53));
  ((7768024414754142, -53), (4559323974712726, -53));
  ((-4559323974712726, -53), (7768024414754142, -53));
  ((4537787679899090, -54), (8716751640241088, -53));
  ((-8716751640241088, -53), (4537787679899090, -54));
  ((8508243986206341, -53), (5912502916968520, -54));
  ((-5912502916968520, -54), (8508243986206341, -53));
  ((7851703130898649, -54), (8106622471823008, -53));
  ((-8106622471823008, -53), (7851703130898649, -54));
  ((6729284021401222, -53), (5987184227491324, -53));
  ((-5987184227491324, -53), (6729284021401222, -53));
  ((8395900745453257, -57), (8991900931535341, -53));
  ((-8991900931535341, -53), (8395900745453257, -57));
  ((8971573087646471, -53), (6402573220819241, -56));
  ((-6402573220819241, -56), (8971573087646471, -53));
  ((5777947300499967, -53), (6909773035871137, -53));
  ((-6909773035871137, -53), (5777947300499967, -53));
  ((7982382913091674, -53), (8345346354319577, -54));
  ((-8345346354319577, -54), (7982382913091674, -53));
  ((5387743177259695, -54), (8594922587119653, -53));
  ((-8594922587119653, -53), (5387743177259695, -54));
  ((8643051817502737, -53), (5070421558241214, -54));
  ((-5070421558241214, -54), (8643051817502737, -53));
  ((8637791633298976, -54), (7904225283956311, -53));
  ((-7904225283956311, -53), (8637791633298976, -54));
  ((7014955509902409, -53), (5649782085062796, -53));
  ((-5649782085062796, -53), (7014955509902409, -53));
  ((7722587089598028, -56), (8955321835348103, -53));
  ((-8955321835348103, -53), (7722587089598028, -56));
  ((8849927271317175, -53), (6703343293614876, -55));
  ((-6703343293614876, -55), (8849927271317175, -53));
  ((5072848711672022, -53), (7442838461440245, -53));
  ((-7442838461440245, -53), (5072848711672022, -53));
  ((7534952065202888, -53), (4934990961460965, -53));
  ((-4934990961460965, -53), (7534952065202888, -53));
  ((7353800509108698, -55), (8817581275163911, -53));
  ((-8817581275163911, -53), (7353800509108698, -55));
  ((8352939049913017, -53), (6740340538294756, -54));
  ((-6740340538294756, -54), (8352939049913017, -53));
  ((7046699187928017, -54), (8289490096098815, -53));
  ((-8289490096098815, -53), (7046699187928017, -54));
  ((6427401098276813, -53), (6310162718700422, -53));
  ((-6310162718700422, -53), (6427401098276813, -53));
  ((5305603405682435, -59), (9006817750781007, -53));
  ((-9006817750781007, -53), (5305603405682435, -59));
  ((9006817750781007, -53), (5305603405682435, -59));
  ((-5305603405682435, -59), (9006817750781007, -53))
].

(** Lines 1098 to 1225. *)
Definition fgm_rows_7 : list (Z * Z * (Z * Z)) := [
  ((6310162718700422, -53), (6427401098276813, -53));
  ((-6427401098276813, -53), (6310162718700422, -53));
  ((8289490096098815, -53), (7046699187928017, -54));
  ((-7046699187928017, -54), (8289490096098815, -53));
  ((6740340538294756, -54), (8352939049913017, -53));
  ((-8352939049913017, -53), (6740340538294756, -54));
  ((8817581275163911, -53), (7353800509108698, -55));
  ((-7353800509108698, -55), (8817581275163911, -53));
  ((4934990961460965, -53), (7534952065202888, -53));
  ((-7534952065202888, -53), (4934990961460965, -53));
  ((7442838461440245, -53), (5072848711672022, -53));
  ((-5072848711672022, -53), (7442838461440245, -53));
  ((6703343293614876, -55), (8849927271317175, -53));
  ((-8849927271317175, -53), (6703343293614876, -55));
  ((8955321835348103, -53), (7722587089598028, -56));
  ((-7722587089598028, -56), (8955321835348103, -53));
  ((5649782085062796, -53), (7014955509902409, -53));
  ((-7014955509902409, -53), (5649782085062796, -53));
  ((7904225283956311, -53), (8637791633298976, -54));
  ((-8637791633298976, -54), (7904225283956311, -53));
  ((5070421558241214, -54), (8643051817502737, -53));
  ((-8643051817502737, -53), (5070421558241214, -54));
  ((8594922587119653, -53), (5387743177259695, -54));
  ((-5387743177259695, -54), (8594922587119653, -53));
  ((8345346354319577, -54), (7982382913091674, -53));
  ((-7982382913091674, -53), (8345346354319577, -54));
  ((6909773035871137, -53), (5777947300499967, -53));
  ((-5777947300499967, -53), (6909773035871137, -53));
  ((6402573220819241, -56), (8971573087646471, -53));
  ((-8971573087646471, -53), (6402573220819241, -56));
  ((8991900931535341, -53), (8395900745453257, -57));
  ((-8395900745453257, -57), (8991900931535341, -53));
  ((5987184227491324, -53), (6729284021401222, -53));
  ((-6729284021401222, -53), (5987184227491324, -53));
  ((8106622471823008, -53), (7851703130898649, -54));
  ((-7851703130898649, -54), (8106622471823008, -53));
  ((5912502916968520, -54), (8508243986206341, -53));
  ((-8508243986206341, -53), (5912502916968520, -54));
  ((8716751640241088, -53), (4537787679899090, -54));
  ((-4537787679899090, -54), (8716751640241088, -53));
  ((4559323974712726, -53), (7768024414754142, -53));
  ((-7768024414754142, -53), (4559323974712726, -53));
  ((7184960348059028, -53), (5431941016931809, -53));
  ((-5431941016931809, -53), (7184960348059028, -53));
  ((4958287426364647, -55), (8921496512746829, -53));
  ((-8921496512746829, -53), (4958287426364647, -55));
  ((8897168584465961, -53), (5614309708875923, -55));
  ((-5614309708875923, -55), (8897168584465961, -53));
  ((5298769122728888, -53), (7283727356142706, -53));
  ((-7283727356142706, -53), (5298769122728888, -53));
  ((7682786125052197, -53), (4701535469536748, -53));
  ((-4701535469536748, -53), (7682786125052197, -53));
  ((8432250219727258, -55), (8757037779928840, -53));
  ((-8757037779928840, -53), (8432250219727258, -55));
  ((8452387612659540, -53), (6224719129395714, -54));
  ((-6224719129395714, -54), (8452387612659540, -53));
  ((7551940088880137, -54), (8177511151817401, -53));
  ((-8177511151817401, -53), (7551940088880137, -54));
  ((6617939475215195, -53), (6110034002932808, -53));
  ((-6110034002932808, -53), (6617939475215195, -53));
  ((5746294458442105, -57), (9000036357160980, -53));
  ((-9000036357160980, -53), (5746294458442105, -57));
  ((9002070596517294, -53), (4862615327261055, -57));
  ((-4862615327261055, -57), (9002070596517294, -53));
  ((6150525896504412, -53), (6580324430530404, -53));
  ((-6580324430530404, -53), (6150525896504412, -53));
  ((8200526129112289, -53), (7451445395452699, -54));
  ((-7451445395452699, -54), (8200526129112289, -53));
  ((6328327701619659, -54), (8433131419575708, -53));
  ((-8433131419575708, -53), (6328327701619659, -54));
  ((8769807759837646, -53), (8217162790256110, -55));
  ((-8217162790256110, -55), (8769807759837646, -53));
  ((4748587653907638, -53), (7653793419459571, -53));
  ((-7653793419459571, -53), (4748587653907638, -53));
  ((7316102878153182, -53), (5253977264024408, -53));
  ((-5253977264024408, -53), (7316102878153182, -53));
  ((5832572021635720, -55), (8888388908592136, -53));
  ((-8888388908592136, -53), (5832572021635720, -55));
  ((8928934438022583, -53), (4739228994004870, -55));
  ((-4739228994004870, -55), (8928934438022583, -53));
  ((5475924850081677, -53), (7151495329710049, -53));
  ((-7151495329710049, -53), (5475924850081677, -53));
  ((7795853669876749, -53), (4511574444966625, -53));
  ((-4511574444966625, -53), (7795853669876749, -53));
  ((4644672222488094, -54), (8702665878971716, -53));
  ((-8702665878971716, -53), (4644672222488094, -54));
  ((8526223038860894, -53), (5807980408439539, -54));
  ((-5807980408439539, -54), (8526223038860894, -53));
  ((7951037925568809, -54), (8082381294590617, -53));
  ((-8082381294590617, -53), (7951037925568809, -54));
  ((6765894016324346, -53), (5945781409913510, -53));
  ((-5945781409913510, -53), (6765894016324346, -53));
  ((4639257482637412, -56), (8988511894135185, -53));
  ((-8988511894135185, -53), (4639257482637412, -56));
  ((8976314881661062, -53), (5962064393489674, -56));
  ((-5962064393489674, -56), (8976314881661062, -53));
  ((5820236102574833, -53), (6874190143201685, -53));
  ((-6874190143201685, -53), (5820236102574833, -53));
  ((8007835688282839, -53), (8247231293972637, -54));
  ((-8247231293972637, -54), (8007835688282839, -53));
  ((5493116661642923, -54), (8578231504803418, -53));
  ((-8578231504803418, -53), (5493116661642923, -54));
  ((8658444875396786, -53), (4964260571050563, -54));
  ((-4964260571050563, -54), (8658444875396786, -53));
  ((8734627858479102, -54), (7877576242606407, -53));
  ((-7877576242606407, -53), (8734627858479102, -54));
  ((7049489866514174, -53), (5606632771683968, -53));
  ((-5606632771683968, -53), (7049489866514174, -53));
  ((8162032288300481, -56), (8949230140998484, -53));
  ((-8949230140998484, -53), (8162032288300481, -56));
  ((8860043409240618, -53), (6486008573510911, -55));
  ((-6486008573510911, -55), (8860043409240618, -53));
  ((5118421614990306, -53), (7411571937572131, -53));
  ((-7411571937572131, -53), (5118421614990306, -53));
  ((7565090757143791, -53), (4888664464941756, -53));
  ((-4888664464941756, -53), (7565090757143791, -53));
  ((7570076722248107, -55), (8806134768774068, -53));
  ((-8806134768774068, -53), (7570076722248107, -55));
  ((8373460784215450, -53), (6637708312305582, -54));
  ((-6637708312305582, -54), (8373460784215450, -53));
  ((7148293245867151, -54), (8267715182103167, -53));
  ((-8267715182103167, -53), (7148293245867151, -54));
  ((6465998534826869, -53), (6270606139937627, -53));
  ((-6270606139937627, -53), (6465998534826869, -53));
  ((8842450394781643, -59), (9006139534818257, -53));
  ((-9006139534818257, -53), (8842450394781643, -59));
  ((9005122242792311, -53), (6189482235310630, -58));
  ((-6189482235310630, -58), (9005122242792311, -53))
].

(** Lines 1226 to 1351. *)
Definition fgm_rows_8 : list (Z * Z * (Z * Z)) := [
  ((6230813476397823, -53), (6504352530186687, -53));
  ((-6504352530186687, -53), (6230813476397823, -53));
  ((8245628993303844, -53), (7249618174605810, -54));
  ((-7249618174605810, -54), (8245628993303844, -53));
  ((6534826180350098, -54), (8393667262452058, -53));
  ((-8393667262452058, -53), (6534826180350098, -54));
  ((8794356716387429, -53), (7786067926277549, -55));
  ((-7786067926277549, -55), (8794356716387429, -53));
  ((4842153912968527, -53), (7594944627693494, -53));
  ((-7594944627693494, -53), (4842153912968527, -53));
  ((7380026372209606, -53), (5163801812627728, -53));
  ((-5163801812627728, -53), (7380026372209606, -53));
  ((6268429658850061, -55), (8869825971537420, -53));
  ((-8869825971537420, -53), (6268429658850061, -55));
  ((8942801513192182, -53), (8601170191100479, -56));
  ((-8601170191100479, -56), (8942801513192182, -53));
  ((5563272371750168, -53), (7083758813816853, -53));
  ((-7083758813816853, -53), (5563272371750168, -53));
  ((7850630614963393, -53), (8831135229857187, -54));
  ((-8831135229857187, -54), (7850630614963393, -53));
  ((4857912682255224, -54), (8673511947735049, -53));
  ((-8673511947735049, -53), (4857912682255224, -54));
  ((8561217456919463, -53), (5598283333288561, -54));
  ((-5598283333288561, -54), (8561217456919463, -53));
  ((8148805730028833, -54), (8032986972986387, -53));
  ((-8032986972986387, -53), (8148805730028833, -54));
  ((6838348441158650, -53), (5862305776050047, -53));
  ((-5862305776050047, -53), (6838348441158650, -53));
  ((5521331097805465, -56), (8980718722493792, -53));
  ((-8980718722493792, -53), (5521331097805465, -56));
  ((8984784444342543, -53), (5080389927126093, -56));
  ((-5080389927126093, -56), (8984784444342543, -53));
  ((5904154737026182, -53), (6802249279161855, -53));
  ((-6802249279161855, -53), (5904154737026182, -53));
  ((8057835820270665, -53), (8050073368155017, -54));
  ((-8050073368155017, -54), (8057835820270665, -53));
  ((5703239232730864, -54), (8543881084037075, -53));
  ((-8543881084037075, -53), (5703239232730864, -54));
  ((8688252467250769, -53), (4751381895793102, -54));
  ((-4751381895793102, -54), (8688252467250769, -53));
  ((8927310113985246, -54), (7823389415514919, -53));
  ((-7823389415514919, -53), (8927310113985246, -54));
  ((7117761061603948, -53), (5519702517755945, -53));
  ((-5519702517755945, -53), (7117761061603948, -53));
  ((4519992132352091, -55), (8936036193963400, -53));
  ((-8936036193963400, -53), (4519992132352091, -55));
  ((8879274589899640, -53), (6050614741355486, -55));
  ((-6050614741355486, -55), (8879274589899640, -53));
  ((5208987596045498, -53), (7348202953025374, -53));
  ((-7348202953025374, -53), (5208987596045498, -53));
  ((7624512552870645, -53), (4795461056637271, -53));
  ((-4795461056637271, -53), (7624512552870645, -53));
  ((8001765989250269, -55), (8782247561441008, -53));
  ((-8782247561441008, -53), (8001765989250269, -55));
  ((8413557723860353, -53), (6431698015882422, -54));
  ((-6431698015882422, -54), (8413557723860353, -53));
  ((7350670159317696, -54), (8223232361233372, -53));
  ((-8223232361233372, -53), (7350670159317696, -54));
  ((6542461640350018, -53), (6190786226252304, -53));
  ((-6190786226252304, -53), (6542461640350018, -53));
  ((7957506242722589, -58), (9003765913003641, -53));
  ((-9003765913003641, -53), (7957506242722589, -58));
  ((8997663271522660, -53), (6629757244884614, -57));
  ((-6629757244884614, -57), (8997663271522660, -53));
  ((6069312070034399, -53), (6655305358219218, -53));
  ((-6655305358219218, -53), (6069312070034399, -53));
  ((8154188295849595, -53), (7652150456031602, -54));
  ((-7652150456031602, -54), (8154188295849595, -53));
  ((6120876200014774, -54), (8471325578127065, -53));
  ((-8471325578127065, -53), (6120876200014774, -54));
  ((8743938102497119, -53), (8647020179743560, -55));
  ((-8647020179743560, -55), (8743938102497119, -53));
  ((4654306275012748, -53), (7711489578089543, -53));
  ((-7711489578089543, -53), (4654306275012748, -53));
  ((7251077605914050, -53), (5343361485770773, -53));
  ((-5343361485770773, -53), (7251077605914050, -53));
  ((5395836020528807, -55), (8905613286971281, -53));
  ((-8905613286971281, -53), (5395836020528807, -55));
  ((8913722698169820, -53), (5177159182005257, -55));
  ((-5177159182005257, -55), (8913722698169820, -53));
  ((5387752674272799, -53), (7218154856711858, -53));
  ((-7218154856711858, -53), (5387752674272799, -53));
  ((7739902697902825, -53), (4606901848488119, -53));
  ((-4606901848488119, -53), (7739902697902825, -53));
  ((8861464584337410, -55), (8730509220737932, -53));
  ((-8730509220737932, -53), (8861464584337410, -55));
  ((8489944602974586, -53), (6016802823104436, -54));
  ((-6016802823104436, -54), (8489944602974586, -53));
  ((7752072724043411, -54), (8130558439301216, -53));
  ((-8130558439301216, -53), (7752072724043411, -54));
  ((6692420672738099, -53), (6028361630966943, -53));
  ((-6028361630966943, -53), (6692420672738099, -53));
  ((7512970424714007, -57), (8994951428947667, -53));
  ((-8994951428947667, -53), (7512970424714007, -57));
  ((8966493518975884, -53), (6842840994885793, -56));
  ((-6842840994885793, -56), (8966493518975884, -53));
  ((5735440961974946, -53), (6945095779491208, -53));
  ((-6945095779491208, -53), (5735440961974946, -53));
  ((7956629605695492, -53), (8443147217093086, -54));
  ((-8443147217093086, -54), (7956629605695492, -53));
  ((5282166847391008, -54), (8611290075458352, -53));
  ((-8611290075458352, -53), (5282166847391008, -54));
  ((8627333353592832, -53), (5176391646926010, -54));
  ((-5176391646926010, -54), (8627333353592832, -53));
  ((8540630200145957, -54), (7930576735691761, -53));
  ((-7930576735691761, -53), (8540630200145957, -54));
  ((6980157044180565, -53), (5692718687339392, -53));
  ((-5692718687339392, -53), (6980157044180565, -53));
  ((7282851139856476, -56), (8961076366892190, -53));
  ((-8961076366892190, -53), (7282851139856476, -56));
  ((8839477938633966, -53), (6920425636632580, -55));
  ((-6920425636632580, -55), (8839477938633966, -53));
  ((5027084818466930, -53), (7473824766646994, -53));
  ((-7473824766646994, -53), (5027084818466930, -53));
  ((7504529686575502, -53), (4981131658359743, -53));
  ((-4981131658359743, -53), (7504529686575502, -53));
  ((7137247429536506, -55), (8828695804602461, -53));
  ((-8828695804602461, -53), (7137247429536506, -55));
  ((8332102832176454, -53), (6842718994272319, -54));
  ((-6842718994272319, -54), (8332102832176454, -53));
  ((6944839825747268, -54), (8310952915477583, -53));
  ((-8310952915477583, -53), (6944839825747268, -54));
  ((6388561673708188, -53), (6349481723403377, -53));
  ((-6349481723403377, -53), (6388561673708188, -53));
  ((7074226654454970, -61), (9007156865146114, -53));
  ((-9007156865146114, -53), (7074226654454970, -61))
].

Definition fgm_rows : list (Z * Z * (Z * Z)) :=
  fgm_rows_1 ++
  fgm_rows_2 ++
  fgm_rows_3 ++
  fgm_rows_4 ++
  fgm_rows_5 ++
  fgm_rows_6 ++
  fgm_rows_7 ++
  fgm_rows_8.

(** The entries in the order of the code, cos and sin interleaved. *)
Definition fgm_consts : list (Z * Z) := flat_map (fun '(c, s) => [c; s]) fgm_rows.
