(* ===== verification/Fpoly.v ===== *)
(** Floating-point polynomials ([sign_fpoly.go]).

    A polynomial is the array of its 2^logn values; in FFT representation the
    first half holds real parts and the second half imaginary parts.  Routines
    that write several arrays return them together. *)
From Stdlib Require Import ZArith Lia.
From stdpp Require Import base numbers list.
From S2P Require Import Prelude Flr FgmTable.
Local Open Scope Z_scope.

Section Fpoly.
  Context `{F64}.
  Implicit Types f a b d : list f64.

Definition flc_mul (x_re x_im y_re y_im : f64) : f64 * f64 :=
  let z_re := f64_sub (f64_mul x_re y_re) (f64_mul x_im y_im) in
  let z_im := f64_add (f64_mul x_im y_re) (f64_mul x_re y_im) in
  (z_re, z_im).

Definition flc_mulconj (x_re x_im y_re y_im : f64) : f64 * f64 :=
  let z_re := f64_add (f64_mul x_re y_re) (f64_mul x_im y_im) in
  let z_im := f64_sub (f64_mul x_im y_re) (f64_mul x_re y_im) in
  (z_re, z_im).

(** The table of roots, real and imaginary parts interleaved, by index. *)
Definition fgm (k : nat) : f64 :=
  match k with
  | 0 | 1 => f64_ZERO
  | 2 => f64_NZERO
  | 3 => f64_ONE
  | S (S (S (S j))) => match fgm_consts !! j with Some (i, e) => f64mk i e | None => f64_ZERO end
  end%nat.

(** Windows into [f] are given by their start: [f[j1]] and [f[j1+hn]] are the
    two parts of one value. *)
Definition fpoly_FFT (logn : nat) (f : list f64) : list f64 :=
  let n := Nat.pow 2 logn in
  let hn := (n / 2)%nat in
  fst (for_ (logn - 1) (fun k '(f, t) =>
    let lm := (1 + k)%nat in
    let m := Nat.pow 2 lm in
    let hm := (m / 2)%nat in
    let ht := (t / 2)%nat in
    let '(f, _) := for_ hm (fun i '(f, j0) =>
      let s_re := fgm (2 * (m + i) + 0) in
      let s_im := fgm (2 * (m + i) + 1) in
      (for_ ht (fun j f =>
        let j1 := (j0 + j)%nat in
        let j2 := (j1 + ht)%nat in
        let x_re := f.[j1] in
        let x_im := f.[j1 + hn] in
        let y_re := f.[j2] in
        let y_im := f.[j2 + hn] in
        let '(z_re, z_im) := flc_mul y_re y_im s_re s_im in
        f.[j1 <- f64_add x_re z_re].[j1 + hn <- f64_add x_im z_im]
         .[j2 <- f64_sub x_re z_re].[j2 + hn <- f64_sub x_im z_im]) f, (j0 + t)%nat))
      (f, 0%nat) in
    (f, ht)) (f, hn)).

Definition fpoly_iFFT (logn : nat) (f : list f64) : list f64 :=
  let n := Nat.pow 2 logn in
  let hn := (n / 2)%nat in
  let '(f, _) := for_ (logn - 1) (fun k '(f, t) =>
    let lm := (1 + k)%nat in
    let hm := Nat.pow 2 (logn - lm) in
    let dt := (2 * t)%nat in
    let '(f, _) := for_ (hm / 2) (fun i '(f, j0) =>
      let s_re := fgm (2 * (hm + i) + 0) in
      let s_im := fgm (2 * (hm + i) + 1) in
      (for_ t (fun j f =>
        let j1 := (j0 + j)%nat in
        let j2 := (j1 + t)%nat in
        let x_re := f.[j1] in
        let x_im := f.[j1 + hn] in
        let y_re := f.[j2] in
        let y_im := f.[j2 + hn] in
        let f := f.[j1 <- f64_add x_re y_re].[j1 + hn <- f64_add x_im y_im] in
        let t_re := f64_sub x_re y_re in
        let t_im := f64_sub x_im y_im in
        let '(z_re, z_im) := flc_mulconj t_re t_im s_re s_im in
        f.[j2 <- z_re].[j2 + hn <- z_im]) f, (j0 + dt)%nat))
      (f, 0%nat) in
    (f, dt)) (f, 1%nat) in
  if (1 <? logn)%nat
  then for_ n (fun i f => f.[i <- f64_div2e f.[i] (Z.of_nat logn - 1)]) f
  else f.

Definition fpoly_set_small (logn : nat) (d : list f64) (f : list Z) : list f64 :=
  let n := Nat.pow 2 logn in for_ n (fun i d => d.[i <- f64_of f.[i]]) d.

Definition fpoly_add (logn : nat) (a b : list f64) : list f64 :=
  let n := Nat.pow 2 logn in for_ n (fun i a => a.[i <- f64_add a.[i] b.[i]]) a.

Definition fpoly_sub (logn : nat) (a b : list f64) : list f64 :=
  let n := Nat.pow 2 logn in for_ n (fun i a => a.[i <- f64_sub a.[i] b.[i]]) a.

Definition fpoly_neg (logn : nat) (a : list f64) : list f64 :=
  let n := Nat.pow 2 logn in for_ n (fun i a => a.[i <- f64_neg a.[i]]) a.

Definition fpoly_mulconst (logn : nat) (a : list f64) (x : f64) : list f64 :=
  let n := Nat.pow 2 logn in for_ n (fun i a => a.[i <- f64_mul a.[i] x]) a.

Definition fpoly_mul_fft (logn : nat) (a b : list f64) : list f64 :=
  let hn := Nat.pow 2 (logn - 1) in
  for_ hn (fun i a =>
    let '(d_re, d_im) := flc_mul a.[i] a.[i + hn] b.[i] b.[i + hn] in
    a.[i <- d_re].[i + hn <- d_im]) a.

(** Returns the new [g01] (l10) and [g11] (d11). *)
Definition fpoly_LDL_fft (logn : nat) (g00 g01 g11 : list f64) : list f64 * list f64 :=
  let hn := Nat.pow 2 (logn - 1) in
  for_ hn (fun i '(g01, g11) =>
    let g00_re := g00.[i] in
    let g01_re := g01.[i] in
    let g01_im := g01.[i + hn] in
    let g11_re := g11.[i] in
    let inv_g00_re := f64_inv g00_re in
    let mu_re := f64_mul g01_re inv_g00_re in
    let mu_im := f64_mul g01_im inv_g00_re in
    let zo_re := f64_add (f64_mul mu_re g01_re) (f64_mul mu_im g01_im) in
    let g11 := g11.[i <- f64_sub g11_re zo_re] in
    (g01.[i <- mu_re].[i + hn <- f64_neg mu_im], g11)) (g01, g11).

(** Returns [f0] and [f1]. *)
Definition fpoly_split_fft (logn : nat) (f0 f1 f : list f64) : list f64 * list f64 :=
  let hn := Nat.pow 2 (logn - 1) in
  let qn := (hn / 2)%nat in
  if (logn =? 1)%nat then (f0.[0 <- f.[0]], f1.[0 <- f.[hn]])
  else for_ qn (fun i '(f0, f1) =>
    let a_re := f.[2 * i + 0] in
    let a_im := f.[2 * i + 0 + hn] in
    let b_re := f.[2 * i + 1] in
    let b_im := f.[2 * i + 1 + hn] in
    let t_re := f64_add a_re b_re in
    let t_im := f64_add a_im b_im in
    let f0 := f0.[i <- f64_half t_re].[i + qn <- f64_half t_im] in
    let t_re := f64_sub a_re b_re in
    let t_im := f64_sub a_im b_im in
    let '(u_re, u_im) := flc_mulconj t_re t_im (fgm (2 * (i + hn) + 0)) (fgm (2 * (i + hn) + 1)) in
    (f0, f1.[i <- f64_half u_re].[i + qn <- f64_half u_im])) (f0, f1).

Definition fpoly_split_selfadj_fft (logn : nat) (f0 f1 f : list f64) : list f64 * list f64 :=
  let hn := Nat.pow 2 (logn - 1) in
  let qn := (hn / 2)%nat in
  if (logn =? 1)%nat then (f0.[0 <- f.[0]], f1.[0 <- f64_ZERO])
  else for_ qn (fun i '(f0, f1) =>
    let a_re := f.[2 * i + 0] in
    let b_re := f.[2 * i + 1] in
    let t_re := f64_add a_re b_re in
    let f0 := f0.[i <- f64_half t_re].[i + qn <- f64_ZERO] in
    let t_re := f64_half (f64_sub a_re b_re) in
    (f0, f1.[i <- f64_mul t_re (fgm (2 * (i + hn) + 0))]
           .[i + qn <- f64_mul t_re (f64_neg (fgm (2 * (i + hn) + 1)))])) (f0, f1).

Definition fpoly_merge_fft (logn : nat) (f f0 f1 : list f64) : list f64 :=
  let hn := Nat.pow 2 (logn - 1) in
  let qn := (hn / 2)%nat in
  if (logn =? 1)%nat then f.[0 <- f0.[0]].[hn <- f1.[0]]
  else for_ qn (fun i f =>
    let a_re := f0.[i] in
    let a_im := f0.[i + qn] in
    let b_re := f1.[i] in
    let b_im := f1.[i + qn] in
    let '(c_re, c_im) := flc_mul b_re b_im (fgm (2 * (i + hn) + 0)) (fgm (2 * (i + hn) + 1)) in
    f.[2 * i + 0 <- f64_add a_re c_re].[2 * i + 0 + hn <- f64_add a_im c_im]
     .[2 * i + 1 <- f64_sub a_re c_re].[2 * i + 1 + hn <- f64_sub a_im c_im]) f.

(** Returns the new [b00], [b01] and [b10]. *)
Definition fpoly_gram_fft (logn : nat) (b00 b01 b10 b11 : list f64)
    : list f64 * list f64 * list f64 :=
  let hn := Nat.pow 2 (logn - 1) in
  for_ hn (fun i '(b00, b01, b10) =>
    let b00_re := b00.[i] in
    let b00_im := b00.[i + hn] in
    let b01_re := b01.[i] in
    let b01_im := b01.[i + hn] in
    let b10_re := b10.[i] in
    let b10_im := b10.[i + hn] in
    let b11_re := b11.[i] in
    let b11_im := b11.[i + hn] in
    let g00_re := f64_add (f64_add (f64_sqr b00_re) (f64_sqr b00_im))
                          (f64_add (f64_sqr b01_re) (f64_sqr b01_im)) in
    let '(u_re, u_im) := flc_mulconj b00_re b00_im b10_re b10_im in
    let '(v_re, v_im) := flc_mulconj b01_re b01_im b11_re b11_im in
    let g01_re := f64_add u_re v_re in
    let g01_im := f64_add u_im v_im in
    let g11_re := f64_add (f64_add (f64_sqr b10_re) (f64_sqr b10_im))
                          (f64_add (f64_sqr b11_re) (f64_sqr b11_im)) in
    (b00.[i <- g00_re].[i + hn <- f64_ZERO], b01.[i <- g01_re].[i + hn <- g01_im],
     b10.[i <- g11_re].[i + hn <- f64_ZERO])) (b00, b01, b10).

Definition inv_q : f64 := f64mk 6004310871091074 (-66).
Definition minus_inv_q : f64 := f64mk (-6004310871091074) (-66).

(** Returns [t0] and [t1]. *)
Definition fpoly_apply_basis (logn : nat) (t0 t1 b01 b11 : list f64) (hm : list Z)
    : list f64 * list f64 :=
  let n := Nat.pow 2 logn in
  let t0 := for_ n (fun i t0 => t0.[i <- f64_of hm.[i]]) t0 in
  let t0 := fpoly_FFT logn t0 in
  let t1 := take n t0 ++ drop n t1 in
  let t1 := fpoly_mul_fft logn t1 b01 in
  let t1 := fpoly_mulconst logn t1 minus_inv_q in
  let t0 := fpoly_mul_fft logn t0 b11 in
  let t0 := fpoly_mulconst logn t0 inv_q in
  (t0, t1).
End Fpoly.
