(* ===== verification/Sampler.v ===== *)
(** The Gaussian sampler and fast Fourier sampling ([sign_sampler.go]).

    A computation that draws from the generator is a state monad over
    [shake256prng] with partiality: [None] when the fuel of a rejection loop is
    used up.  The scratch slices the code cuts from [tmp] are fresh arrays here:
    the lemmas [split_overwrites], [merge_overwrites] of file FpolyFacts show
    that what they held does not matter. *)
From Stdlib Require Import ZArith Lia.
From stdpp Require Import base numbers list.
From S2P Require Import Prelude Util Flr Fpoly.
Local Open Scope Z_scope.

(** ** The monad *)

Definition M (A : Type) : Type := shake256prng -> option (A * shake256prng).
#[export] Instance M_ret : MRet M := fun A a r => Some (a, r).
#[export] Instance M_bind : MBind M := fun A B f m r =>
  match m r with
  | Some (a, r) => f a r
  | None => None
  end.
(** A draw from the generator. *)
Definition draw {A} (f : shake256prng -> A * shake256prng) : M A := fun r => Some (f r).
Definition out_of_fuel {A} : M A := fun _ => None.

(** ** Constants *)

Section Constants.
Context `{F64}.

Definition inv_2sqrsigma0 : f64 := f64mk 5435486223186882 (-55).

Definition inv_sigma : list f64 := [
  f64_ZERO; (* unused *)
  f64mk 7961475618707097 (-60);
  f64mk 7851656902127320 (-60);
  f64mk 7746260754658859 (-60);
  f64mk 7595833604889141 (-60);
  f64mk 7453842886538220 (-60);
  f64mk 7319528409832599 (-60);
  f64mk 7192222552237877 (-60);
  f64mk 7071336252758509 (-60);
  f64mk 6956347512113097 (-60);
  f64mk 6846791885593314 (-60)
].

Definition sigma_min : list f64 := [
  f64_ZERO; (* unused *)
  f64mk 5028307297130123 (-52);
  f64mk 5098636688852518 (-52);
  f64mk 5168009084304506 (-52);
  f64mk 5270355833453349 (-52);
  f64mk 5370752584786614 (-52);
  f64mk 5469306724145091 (-52);
  f64mk 5566116128735780 (-52);
  f64mk 5661270305715104 (-52);
  f64mk 5754851361258101 (-52);
  f64mk 5846934829975396 (-52)
].

Definition log2 : f64 := f64mk 6243314768165359 (-53).
Definition inv_log2 : f64 := f64mk 6497320848556798 (-52).
End Constants.

Definition gaussian0_rcdt : list Z := [
  10745844; 3068844; 3741698;
  5559083; 1580863; 8248194;
  2260429; 13669192; 2736639;
  708981; 4421575; 10046180;
  169348; 7122675; 4136815;
  30538; 13063405; 7650655;
  4132; 14505003; 7826148;
  417; 16768101; 11363290;
  31; 8444042; 8086568;
  1; 12844466; 265321;
  0; 1232676; 13644283;
  0; 38047; 9111839;
  0; 870; 6138264;
  0; 14; 12545723;
  0; 0; 3104126;
  0; 0; 28824;
  0; 0; 198;
  0; 0; 1
].

Definition expm_coeffs : list Z := [
  0x00000004741183A3;
  0x00000036548CFC06;
  0x0000024FDCBF140A;
  0x0000171D939DE045;
  0x0000D00CF58F6F84;
  0x000680681CF796E3;
  0x002D82D8305B0FEA;
  0x011111110E066FD0;
  0x0555555555070F00;
  0x155555555581FF00;
  0x400000000002B400;
  0x7FFFFFFFFFFF4800;
  0x8000000000000000
].

(** ** Integer samplers *)

(** The scan of the table for the 72-bit value in the limbs [v0], [v1], [v2]. *)
Definition gaussian0_scan (v0 v1 v2 : Z) : Z :=
  for_ (length gaussian0_rcdt / 3) (fun k z =>
    let i := (3 * k)%nat in
    let cc := (v0 -% gaussian0_rcdt.[i + 2]) .>> 31 in
    let cc := (v1 -% gaussian0_rcdt.[i + 1] -% cc) .>> 31 in
    let cc := (v2 -% gaussian0_rcdt.[i + 0] -% cc) .>> 31 in
    i32 (z + i32 cc)) 0.

Definition gaussian0 `{Shake} : M Z :=
  lo ← draw next_u64;
  hi ← draw next_u8;
  let v0 := u32 lo .& 16777215 in
  let v1 := u32 (lo .>> 24) .& 16777215 in
  let v2 := u32 (lo .>> 48) .| u32 (hi .<< 16) in
  mret (gaussian0_scan v0 v1 v2).

(** The high half of a 64-bit product ([bits.Mul64]). *)
Definition mul64_hi (x y : Z) : Z := (x * y) .>> 64.

Section Sampler.
Context `{HF : F64}.

Definition expm_p63 (x ccs : f64) : Z :=
  let y := expm_coeffs.[0] in
  let z := u64 (f64_mtwop63 x .<< 1) in
  let w := u64 (f64_mtwop63 ccs .<< 1) in
  let y := for_ (length expm_coeffs - 1) (fun k y =>
    let i := (1 + k)%nat in
    let c := mul64_hi y z in
    u64 (expm_coeffs.[i] - c)) y in
  mul64_hi y w.

(** Byte by byte comparison of the next bytes with [z], from the top;
    [k] bytes remain. *)
Fixpoint ber_compare `{Shake} (k : nat) (z : Z) : M bool :=
  match k with
  | O => mret false
  | S k' =>
      let i := 8 * Z.of_nat k' in
      w ← draw next_u8;
      let bz := u8 (z .>> i) in
      if negb (w =? bz) then mret (w <? bz) else ber_compare k' z
  end.

Definition ber_exp_threshold (x ccs : f64) : Z :=
  let ti := f64_trunc (f64_mul x inv_log2) in
  let r := f64_sub x (f64_mul (f64_of_i32 ti) log2) in
  let t := u32 ti in
  let t := t .| ((63 -% t) .>> 26) in
  let t := t .& 63 in
  u64 (u64 (expm_p63 r ccs .<< 1) - 1) .>> t.

Definition ber_exp `{Shake} (x ccs : f64) : M bool := ber_compare 8 (ber_exp_threshold x ccs).

(** The rejection loop of [next]. *)
Fixpoint next_loop `{Shake} (fuel : nat) (t : Z) (r dss ccs : f64) : M Z :=
  match fuel with
  | O => out_of_fuel
  | S fuel' =>
      z0 ← gaussian0;
      b ← draw next_u8;
      let b := b .& 1 in
      let z := i32 (b + i32 (i32 ((b .<< 1) - 1) * z0)) in
      let x := f64_mul (f64_sqr (f64_sub (f64_of_i32 z) r)) dss in
      let x := f64_sub x (f64_mul (f64_of_i32 (i32 (z0 * z0))) inv_2sqrsigma0) in
      ok ← ber_exp x ccs;
      if (ok : bool) then mret (i32 (t + z)) else next_loop fuel' t r dss ccs
  end.

(** [s.next(mu, isigma)] for a sampler of degree [slogn]. *)
Definition next `{Shake} (fuel slogn : nat) (mu isigma : f64) : M Z :=
  let t := f64_floor mu in
  let r := f64_sub mu (f64_of_i32 t) in
  let dss := f64_half (f64_sqr isigma) in
  let ccs := f64_mul isigma sigma_min.[slogn] in
  next_loop fuel t r dss ccs.

(** ** Fast Fourier sampling *)

Definition scratch (n : nat) : list f64 := replicate n f64_ZERO.

(** The recursion bottom: degree 2. *)
Definition ffsamp_leaf `{Shake} (fuel slogn : nat) (t0 t1 g00 g01 g11 : list f64)
    : M (list f64 * list f64) :=
  let g00_re := g00.[0] in
  let g01_re := g01.[0] in
  let g01_im := g01.[1] in
  let g11_re := g11.[0] in
  let inv_g00_re := f64_inv g00_re in
  let mu_re := f64_mul g01_re inv_g00_re in
  let mu_im := f64_mul g01_im inv_g00_re in
  let zo_re := f64_add (f64_mul mu_re g01_re) (f64_mul mu_im g01_im) in
  let d00_re := g00_re in
  let l01_re := mu_re in
  let l01_im := f64_neg mu_im in
  let d11_re := f64_sub g11_re zo_re in
  let w0 := t1.[0] in
  let w1 := t1.[1] in
  let leaf := f64_mul (f64_sqrt d11_re) inv_sigma.[slogn] in
  y0 ← next fuel slogn w0 leaf;
  let y0 := f64_of_i32 y0 in
  y1 ← next fuel slogn w1 leaf;
  let y1 := f64_of_i32 y1 in
  let a_re := f64_sub w0 y0 in
  let a_im := f64_sub w1 y1 in
  let '(b_re, b_im) := flc_mul a_re a_im l01_re l01_im in
  let x0 := f64_add t0.[0] b_re in
  let x1 := f64_add t0.[1] b_im in
  let t1 := t1.[0 <- y0].[1 <- y1] in
  let leaf := f64_mul (f64_sqrt d00_re) inv_sigma.[slogn] in
  z0 ← next fuel slogn x0 leaf;
  z1 ← next fuel slogn x1 leaf;
  mret (t0.[0 <- f64_of_i32 z0].[1 <- f64_of_i32 z1], t1).

(** Returns the new [t0] and [t1]. *)
Fixpoint ffsamp_fft_inner `{Shake} (fuel slogn logn : nat) (t0 t1 g00 g01 g11 : list f64)
    : M (list f64 * list f64) :=
  match logn with
  | O => out_of_fuel (* not called: the recursion stops at 1 *)
  | 1%nat => ffsamp_leaf fuel slogn t0 t1 g00 g01 g11
  | S logn' =>
      let n := Nat.pow 2 logn in
      let hn := (n / 2)%nat in
      let '(g01, g11) := fpoly_LDL_fft logn g00 g01 g11 in
      let '(w0, w1) := fpoly_split_selfadj_fft logn (scratch hn) (scratch hn) g00 in
      let g00 := w0 ++ w1 in
      let '(w0, w1) := fpoly_split_selfadj_fft logn w0 w1 g11 in
      let g11 := w0 ++ w1 in
      let l10 := g01 in
      let g01 := take hn g00 ++ take hn g11 in
      let left_00 := take hn g00 in
      let left_01 := drop hn g00 in
      let right_00 := take hn g11 in
      let right_01 := drop hn g11 in
      let left_11 := take hn g01 in
      let right_11 := drop hn g01 in
      let '(w0, w1) := fpoly_split_fft logn (scratch hn) (scratch hn) t1 in
      '(w0, w1) ← ffsamp_fft_inner fuel slogn logn' w0 w1 right_00 right_01 right_11;
      let z1 := fpoly_merge_fft logn (scratch n) w0 w1 in
      let w := fpoly_sub logn t1 z1 in
      let t1 := z1 in
      let l10 := fpoly_mul_fft logn l10 w in
      let t0 := fpoly_add logn t0 l10 in
      let '(w0, w1) := fpoly_split_fft logn (scratch hn) (scratch hn) t0 in
      '(w0, w1) ← ffsamp_fft_inner fuel slogn logn' w0 w1 left_00 left_01 left_11;
      mret (fpoly_merge_fft logn t0 w0 w1, t1)
  end.

Definition ffsamp_fft `{Shake} (fuel slogn : nat) (t0 t1 g00 g01 g11 : list f64)
    : M (list f64 * list f64) :=
  ffsamp_fft_inner fuel slogn slogn t0 t1 g00 g01 g11.
End Sampler.
