(* ===== verification/FpolyFacts.v ===== *)
(** Structural facts on the floating-point routines, for any operations: they
    keep lengths, and the routines that fill a destination do not read it. *)
From Stdlib Require Import ZArith Lia.
From stdpp Require Import base numbers list.
From S2P Require Import Prelude Bits Flr FgmTable Fpoly Sampler.
Local Open Scope Z_scope.

Section FpolyFacts.
Context `{HF : F64}.
Implicit Types f a b d : list f64.

(** [keeps_length]: an in-place loop keeps the length of its array. *)
Ltac keeps_length n :=
  match goal with
  | |- context [for_ ?k ?b ?s] =>
      apply (for_ind (fun _ x => length x = n) k b s); [done|];
      intros; repeat case_match; rewrite ?length_set; done
  end.

Lemma length_fpoly_neg logn a : length (fpoly_neg logn a) = length a.
Proof. apply (for_map_length (fun _ y => f64_neg y)). Qed.
Lemma length_fpoly_mulconst logn a x : length (fpoly_mulconst logn a x) = length a.
Proof. unfold fpoly_mulconst. apply (for_map_length (fun _ y => f64_mul y x)). Qed.
Lemma length_fpoly_add logn a b : length (fpoly_add logn a b) = length a.
Proof. unfold fpoly_add. apply (for_map_length (fun i y => f64_add y b.[i])). Qed.
Lemma length_fpoly_sub logn a b : length (fpoly_sub logn a b) = length a.
Proof. unfold fpoly_sub. apply (for_map_length (fun i y => f64_sub y b.[i])). Qed.
Lemma length_fpoly_mul_fft logn a b : length (fpoly_mul_fft logn a b) = length a.
Proof. unfold fpoly_mul_fft. keeps_length (length a). Qed.
Lemma length_fpoly_merge logn f f0 f1 : length (fpoly_merge_fft logn f f0 f1) = length f.
Proof.
  unfold fpoly_merge_fft. case_match; [by rewrite !length_set|]. keeps_length (length f).
Qed.

(** Two arrays at once. *)
Ltac keeps_lengths n m :=
  match goal with
  | |- context [for_ ?k ?b ?s] =>
      apply (for_ind (fun _ x => length (fst x) = n /\ length (snd x) = m) k b s); [done|];
      intros ? [? ?] ? [? ?]; repeat case_match; cbn [fst snd] in *; rewrite ?length_set; done
  end.

Lemma length_fpoly_LDL logn g00 g01 g11 :
  length (fst (fpoly_LDL_fft logn g00 g01 g11)) = length g01 /\
  length (snd (fpoly_LDL_fft logn g00 g01 g11)) = length g11.
Proof. unfold fpoly_LDL_fft. keeps_lengths (length g01) (length g11). Qed.

Lemma length_fpoly_split logn f0 f1 f :
  length (fst (fpoly_split_fft logn f0 f1 f)) = length f0 /\
  length (snd (fpoly_split_fft logn f0 f1 f)) = length f1.
Proof.
  unfold fpoly_split_fft. case_match; [cbn [fst snd]; by rewrite !length_set|].
  keeps_lengths (length f0) (length f1).
Qed.

Lemma length_fpoly_split_selfadj logn f0 f1 f :
  length (fst (fpoly_split_selfadj_fft logn f0 f1 f)) = length f0 /\
  length (snd (fpoly_split_selfadj_fft logn f0 f1 f)) = length f1.
Proof.
  unfold fpoly_split_selfadj_fft. case_match; [cbn [fst snd]; by rewrite !length_set|].
  keeps_lengths (length f0) (length f1).
Qed.

Lemma length_fpoly_gram logn b00 b01 b10 b11 :
  let '(g00, g01, g11) := fpoly_gram_fft logn b00 b01 b10 b11 in
  length g00 = length b00 /\ length g01 = length b01 /\ length g11 = length b10.
Proof.
  unfold fpoly_gram_fft. match goal with |- context [for_ ?k ?b ?s] =>
    apply (for_ind (fun _ '(x, y, z) =>
      length x = length b00 /\ length y = length b01 /\ length z = length b10) k b s) end; [done|].
  intros i [[x y] z] Hi (? & ? & ?). repeat case_match. simplify_eq. by rewrite !length_set.
Qed.

Lemma length_fpoly_set_small logn d (f : list Z) : length (fpoly_set_small logn d f) = length d.
Proof. unfold fpoly_set_small. keeps_length (length d). Qed.

Lemma length_fpoly_FFT logn f : length (fpoly_FFT logn f) = length f.
Proof.
  unfold fpoly_FFT. match goal with |- context [for_ ?k ?b ?s] =>
    apply (for_ind (fun _ st => length (fst st) = length f) k b s) end; [done|].
  intros l [x t] Hl Hx. cbn [fst] in Hx.
  match goal with |- context [for_ ?k ?b (x, 0%nat)] =>
    pose proof (for_ind (fun _ st => length (fst st) = length f) k b (x, 0%nat)) as Hin end.
  feed_loop Hin; [done| |].
  - intros i [y j0] Hi Hy. cbn [fst] in *. rewrite <- Hy. keeps_length (length y).
  - destruct (for_ _ _ (x, 0%nat)) as [y j]. exact Hin.
Qed.

(** ** Destinations are overwritten *)

(** A loop that writes cell [i] at iteration [i] forgets the initial array. *)
Lemma fill_overwrites {A} `{GoZero A} n (F : nat -> A) (a b : list A) :
  length a = n -> length b = n ->
  for_ n (fun i x => x.[i <- F i]) a = for_ n (fun i x => x.[i <- F i]) b.
Proof.
  intros Ha Hb.
  destruct (for_map_get (fun i _ => F i) n a ltac:(lia)) as (La & Ga & _).
  destruct (for_map_get (fun i _ => F i) n b ltac:(lia)) as (Lb & Gb & _).
  apply get_ext; [congruence|]. intros i Hi. rewrite La, Ha in Hi. by rewrite Ga, Gb.
Qed.

Lemma set_small_overwrites logn d d' (f : list Z) :
  length d = Nat.pow 2 logn -> length d' = Nat.pow 2 logn ->
  fpoly_set_small logn d f = fpoly_set_small logn d' f.
Proof. apply (fill_overwrites _ (fun i => f64_of f.[i])). Qed.

Lemma apply_basis_overwrites logn t0 t1 t0' t1' b01 b11 hm :
  length t0 = Nat.pow 2 logn -> length t1 = Nat.pow 2 logn ->
  length t0' = Nat.pow 2 logn -> length t1' = Nat.pow 2 logn ->
  fpoly_apply_basis logn t0 t1 b01 b11 hm = fpoly_apply_basis logn t0' t1' b01 b11 hm.
Proof.
  intros H0 H1 H0' H1'. unfold fpoly_apply_basis.
  rewrite (fill_overwrites _ (fun i => f64_of hm.[i]) t0 t0') by done.
  by rewrite !drop_ge by lia.
Qed.

(** Two-cell writes: iteration [i] writes cells [i] and [i + h] of [2 h]. *)
Definition agree (h c : nat) (a b : list f64) : Prop :=
  length a = length b /\ forall i, (i < c)%nat -> a.[i] = b.[i] /\ a.[i + h] = b.[i + h].

Lemma agree_step h c a b u v :
  (c < h)%nat -> length a = (2 * h)%nat -> agree h c a b ->
  agree h (S c) (a.[c <- u].[c + h <- v]) (b.[c <- u].[c + h <- v]).
Proof.
  intros Hc Hl [Hab He]. split; [by rewrite !length_set|]. intros i Hi.
  destruct (decide (i = c)) as [->|].
  - split.
    + rewrite !(get_set_ne _ (c + h) c), !get_set_eq by lia. done.
    + rewrite !get_set_eq by (rewrite length_set; lia). done.
  - destruct (He i ltac:(lia)) as [E1 E2]. split.
    + by rewrite !(get_set_ne _ _ i) by lia.
    + by rewrite !(get_set_ne _ _ (i + h)) by lia.
Qed.

Lemma agree_all h a b : length a = (2 * h)%nat -> agree h h a b -> a = b.
Proof.
  intros Hl [Hab He]. apply get_ext; [done|]. intros i Hi.
  destruct (decide (i < h)%nat); [by apply He|].
  destruct (He (i - h)%nat ltac:(lia)) as [_ E]. by replace (i - h + h)%nat with i in E by lia.
Qed.

Lemma split_overwrites logn f0 f1 f0' f1' f :
  (1 <= logn)%nat ->
  length f0 = Nat.pow 2 (logn - 1) -> length f1 = Nat.pow 2 (logn - 1) ->
  length f0' = Nat.pow 2 (logn - 1) -> length f1' = Nat.pow 2 (logn - 1) ->
  fpoly_split_fft logn f0 f1 f = fpoly_split_fft logn f0' f1' f.
Proof.
  intros Hn L0 L1 L0' L1'. unfold fpoly_split_fft. destruct (Nat.eqb_spec logn 1) as [->|Hne].
  { simpl in *. destruct f0 as [|? [|]], f1 as [|? [|]], f0' as [|? [|]], f1' as [|? [|]];
      simpl in *; lia || done. }
  assert (exists h, Nat.pow 2 (logn - 1) = 2 * h)%nat as [h Hh].
  { exists (Nat.pow 2 (logn - 2)). rewrite <- Nat.pow_succ_r'. f_equal. lia. }
  rewrite Hh in *. rewrite (Nat.mul_comm 2 h), Nat.div_mul by lia. cbv zeta.
  match goal with |- for_ _ ?b (f0, f1) = for_ _ _ (f0', f1') =>
    pose proof (for_sim (fun c x y => length (fst x) = (2 * h)%nat /\ length (snd x) = (2 * h)%nat /\
      agree h c (fst x) (fst y) /\ agree h c (snd x) (snd y)) h b b (f0, f1) (f0', f1')) as Hs end.
  feed_loop Hs.
  - cbn [fst snd]. repeat split; done || lia.
  - intros i [x y] [x' y'] Hi (Lx & Ly & Hx & Hy). cbn [fst snd] in *.
    destruct (flc_mulconj _ _ _ _) as [u_re u_im]. cbn [fst snd].
    rewrite !length_set. split; [done|]. split; [done|]. split; by apply agree_step.
  - match goal with |- ?l = ?r => destruct l as [x y], r as [x' y'] end. cbn [fst snd] in Hs.
    destruct Hs as (Lx & Ly & Hx & Hy). f_equal; by apply (agree_all h).
Qed.

Lemma merge_overwrites logn f f' f0 f1 :
  (1 <= logn)%nat -> length f = Nat.pow 2 logn -> length f' = Nat.pow 2 logn ->
  fpoly_merge_fft logn f f0 f1 = fpoly_merge_fft logn f' f0 f1.
Proof.
  intros Hn L L'. unfold fpoly_merge_fft. destruct (Nat.eqb_spec logn 1) as [->|Hne].
  { destruct f as [|? [|? [|]]], f' as [|? [|? [|]]]; simpl in *; lia || done. }
  assert (exists h, Nat.pow 2 (logn - 1) = 2 * h)%nat as [h Hh].
  { exists (Nat.pow 2 (logn - 2)). rewrite <- Nat.pow_succ_r'. f_equal. lia. }
  assert (Nat.pow 2 logn = 2 * (2 * h))%nat as Hn2
    by (rewrite <- Hh, <- Nat.pow_succ_r'; f_equal; lia).
  rewrite Hn2 in *. rewrite Hh in *. cbv zeta.
  assert ((2 * h / 2)%nat = h) as -> by (rewrite Nat.mul_comm; apply Nat.div_mul; lia).
  match goal with |- for_ _ ?b f = for_ _ _ f' =>
    pose proof (for_sim (fun c x y => length x = (2 * (2 * h))%nat /\ agree (2 * h) (2 * c) x y)
      h b b f f') as Hs end.
  feed_loop Hs.
  - repeat split; done || lia.
  - intros i x y Hi (Lx & Hx). destruct (flc_mul _ _ _ _) as [c_re c_im].
    rewrite !length_set. split; [done|]. replace (2 * S i)%nat with (S (S (2 * i))) by lia.
    rewrite Nat.add_0_r. replace (2 * i + 1)%nat with (S (2 * i)) by lia.
    apply agree_step; [lia|by rewrite !length_set|]. by apply agree_step; [lia| |].
  - destruct Hs as [Lx Hx]. by apply (agree_all (2 * h)).
Qed.
End FpolyFacts.
