(* ===== verification/Sign.v ===== *)
(** Signing ([sign.go], [sign_core.go]).

    [sign_load] is the part of [sign_inner_seeded] that decodes the private key
    and recomputes the rest of it; [sign_core] is the signing loop.  The windows
    the code cuts from [tmp_f64] are fresh arrays; those it keeps from one
    iteration to the next ([hm], [s2], [sig]) are threaded.  [None]: the fuel of
    a rejection loop is used up. *)
From Stdlib Require Import ZArith Lia.
From stdpp Require Import base numbers list strings.
From S2P Require Import Prelude Mq Ntt MqTables MqPoly Bits Codec Util Verify Flr Fpoly Sampler.
Local Open Scope Z_scope.

(** What the signer knows of a key: degree, f, g, F, G, h ("ext") and the hash
    of the verifying key. *)
Record signing_key := SigningKey {
  sk_logn : nat;
  sk_f : list Z;
  sk_g : list Z;
  sk_F : list Z;
  sk_G : list Z;
  sk_h : list Z;
  sk_hashed_vk : list Z;
}.

(** From f, g and F: h = g/f, G = h F, and the verifying key's hash. *)
Definition sign_complete `{Shake} (logn : nat) (f g F : list Z) : result string signing_key :=
  let n := degree logn in
  let t0 := mqpoly_small_to_int logn g (replicate n 0) in
  let t1 := mqpoly_small_to_int logn f (replicate n 0) in
  let t0 := mqpoly_int_to_ntt logn t0 in
  let t1 := mqpoly_int_to_ntt logn t1 in
  let '(t0, ok) := mqpoly_div_ntt logn t0 t1 in
  if negb ok then Err "Invalid signing key (f not invertible)"%string
  else
    let t1 := mqpoly_small_to_int logn F t1 in
    let t1 := mqpoly_int_to_ntt logn t1 in
    let t1 := mqpoly_mul_ntt logn t1 t0 in
    let t1 := mqpoly_ntt_to_int logn t1 in
    let '(G, ok) := mqpoly_int_to_small logn t1 (replicate n 0) in
    if negb ok then Err "Invalid signing key (G is out-of-range)"%string
    else
      let t0 := mqpoly_ntt_to_int logn t0 in
      let t0 := mqpoly_int_to_ext logn t0 in
      let vrfy_key := u8 (Z.of_nat logn) ::
        fst (modq_encode logn t0 (replicate (VerifyingKeySize logn - 1) 0)) in
      let hashed_vk := fst (xof_read 64 (xof_write xof_new vrfy_key)) in
      Ok (SigningKey logn f g F G t0 hashed_vk).

Definition sign_load `{Shake} (logn_min logn_max : nat) (skey : list Z) : result string signing_key :=
  if (length skey =? 0)%nat then Err "Invalid private key"%string
  else
    let head1 := skey.[0] in
    if negb (head1 .& 240 =? 80) then Err "Invalid private key"%string
    else
      let logn := Z.to_nat (head1 .& 15) in
      if (logn <? logn_min)%nat || (logn_max <? logn)%nat then Err "Invalid private key"%string
      else if negb (length skey =? SigningKeySize logn)%nat then Err "Invalid private key"%string
      else
        let n := degree logn in
        let off := 1%nat in
        '(j, f) ← trim_i8_decode logn (drop off skey) (replicate n 0) (nbits_fg logn);
        let off := (off + j)%nat in
        '(j, g) ← trim_i8_decode logn (drop off skey) (replicate n 0) (nbits_fg logn);
        let off := (off + j)%nat in
        '(_, F) ← trim_i8_decode logn (drop off skey) (replicate n 0) 8;
        sign_complete logn f g F.

(** The nonce and the sampler's seed for one value of the loop counter. *)
Definition counter_bytes (counter : Z) : list Z :=
  [u8 counter; u8 (counter .>> 8); u8 (counter .>> 16); u8 (counter .>> 24)].
Definition sign_seeds `{Shake} (seed : list Z) (counter : Z) : list Z * list Z :=
  let sh := xof_write (xof_write xof_new seed) (counter_bytes counter) in
  let '(nonce, sh) := xof_read 40 sh in
  let '(subseed, sh) := xof_read 56 sh in
  (nonce, subseed).

Section Core.
Context `{HF : F64} `{Hsh : Shake}.

(** Returns b00, b01, b10 and b11, written over the four windows. *)
Definition basis_to_FFT (logn : nat) (f g F G : list Z) (b00 b01 b10 b11 : list f64)
    : list f64 * list f64 * list f64 * list f64 :=
  let b01 := fpoly_set_small logn b01 f in
  let b00 := fpoly_set_small logn b00 g in
  let b11 := fpoly_set_small logn b11 F in
  let b10 := fpoly_set_small logn b10 G in
  let b01 := fpoly_FFT logn b01 in
  let b00 := fpoly_FFT logn b00 in
  let b11 := fpoly_FFT logn b11 in
  let b10 := fpoly_FFT logn b10 in
  let b01 := fpoly_neg logn b01 in
  let b11 := fpoly_neg logn b11 in
  (b00, b01, b10, b11).

(** The lattice point of the sampled vector [t0], [t1]. *)
Definition lattice_point (logn : nat) (t0 t1 b00 b01 b10 b11 : list f64) : list f64 * list f64 :=
  let tx := t0 in
  let ty := t1 in
  let tx := fpoly_mul_fft logn tx b00 in
  let ty := fpoly_mul_fft logn ty b10 in
  let tx := fpoly_add logn tx ty in
  let ty := t0 in
  let ty := fpoly_mul_fft logn ty b01 in
  let t0 := tx in
  let t1 := fpoly_mul_fft logn t1 b11 in
  let t1 := fpoly_add logn t1 ty in
  (fpoly_iFFT logn t0, fpoly_iFFT logn t1).

(** The squared norm with its overflow flag, and s2; from the rounded values. *)
Definition signature_norm (logn : nat) (hm z0 z1 s2 : list Z) : Z * list Z :=
  let n := degree logn in
  let '(sqn, ng) := for_ n (fun i '(sqn, ng) =>
    let zu := u16 (hm.[i] - u16 z0.[i]) in
    let z := i16 zu in
    let sqn := sqn +% u32 (i32 (z * z)) in
    (sqn, ng .| sqn)) (0, 0) in
  let '(sqn, ng, s2) := for_ n (fun i '(sqn, ng, s2) =>
    let zu := u16 (- u16 z1.[i]) in
    let z := i16 zu in
    let sqn := sqn +% u32 (i32 (z * z)) in
    (sqn, ng .| sqn, s2.[i <- i16 z])) (sqn, ng, s2) in
  (sqn .| u32 (i32 ng .>> 31), s2).

(** Norm test and encoding: the new [s2] and [sig], and whether to stop. *)
Definition sign_emit (logn : nat) (nonce hm z0 z1 s2 sig : list Z) : bool * list Z * list Z :=
  let '(sqn, s2) := signature_norm logn hm z0 z1 s2 in
  if negb (mqpoly_sqnorm_is_acceptable logn sqn) then (false, s2, sig)
  else
    let '(d, ok) := comp_encode logn s2 (drop 41 sig) in
    let sig := take 41 sig ++ d in
    if ok then
      let sig := sig.[0 <- u8 (48 + Z.of_nat logn)] in
      (true, s2, take 1 sig ++ nonce ++ drop 41 sig)
    else (false, s2, sig).

(** Sampling a lattice point close to the target [hm]. *)
Definition sign_sample (fuel logn : nat) (f g F G hm : list Z) : M (list f64 * list f64) :=
  let n := degree logn in
  let '(b00, b01, b10, b11) :=
    basis_to_FFT logn f g F G (scratch n) (scratch n) (scratch n) (scratch n) in
  let t0 := b01 in
  let '(b00, b01, b10) := fpoly_gram_fft logn b00 b01 b10 b11 in
  let g00 := b00 in
  let g01 := b01 in
  let g11 := b10 in
  let b01 := t0 in
  let '(t0, t1) := fpoly_apply_basis logn (scratch n) (scratch n) b01 b11 hm in
  ffsamp_fft fuel logn t0 t1 g00 g01 g11.

(** One turn of the loop: an error, or whether the signature is done. *)
Definition sign_attempt (fuel logn : nat) (f g F G hashed_vk ctx : list Z) (id : Z)
    (data seed : list Z) (counter : Z) (hm s2 sig : list Z)
    : option (result string (bool * list Z * list Z * list Z)) :=
  let n := degree logn in
  let '(nonce, subseed) := sign_seeds seed counter in
  match hash_to_point fuel logn nonce hashed_vk ctx id data hm with
  | None => None
  | Some (Err e) => Some (Err e)
  | Some (Ok hm) =>
      match sign_sample fuel logn f g F G hm (newSHAKE256prng subseed) with
      | None => None
      | Some ((t0, t1), _) =>
          let '(b00, b01, b10, b11) :=
            basis_to_FFT logn f g F G (scratch n) (scratch n) (scratch n) (scratch n) in
          let '(t0, t1) := lattice_point logn t0 t1 b00 b01 b10 b11 in
          let '(done, s2, sig) :=
            sign_emit logn nonce hm (f64_rint <$> t0) (f64_rint <$> t1) s2 sig in
          Some (Ok (done, hm, s2, sig))
      end
  end.

Fixpoint sign_core_loop (turns fuel logn : nat) (f g F G hashed_vk ctx : list Z) (id : Z)
    (data seed : list Z) (counter : Z) (hm s2 sig : list Z) : option (result string (list Z)) :=
  match turns with
  | O => None
  | S turns' =>
      match sign_attempt fuel logn f g F G hashed_vk ctx id data seed counter hm s2 sig with
      | None => None
      | Some (Err e) => Some (Err e)
      | Some (Ok (done, hm, s2, sig)) =>
          if (done : bool) then Some (Ok sig)
          else sign_core_loop turns' fuel logn f g F G hashed_vk ctx id data seed (counter + 1) hm s2 sig
      end
  end.

Definition sign_core (fuel logn : nat) (f g F G hashed_vk ctx : list Z) (id : Z)
    (data seed sig tmp_i16 tmp_u16 : list Z) : option (result string (list Z)) :=
  sign_core_loop fuel fuel logn f g F G hashed_vk ctx id data seed 0 tmp_u16 tmp_i16 sig.

Definition sign_inner_seeded (fuel logn_min logn_max : nat) (seed skey ctx : list Z) (id : Z)
    (data : list Z) : option (result string (list Z)) :=
  match sign_load logn_min logn_max skey with
  | Err e => Some (Err e)
  | Ok k =>
      let logn := k.(sk_logn) in
      let tmp_i16 := replicate (degree logn) 0 in
      let tmp_u16 := k.(sk_h) in
      let sig := replicate (SignatureSize logn) 0 in
      sign_core fuel logn k.(sk_f) k.(sk_g) k.(sk_F) k.(sk_G) k.(sk_hashed_vk) ctx id data seed sig
        tmp_i16 tmp_u16
  end.

(** The random source delivers a seed of 40 bytes, or an error. *)
Definition sign_inner (fuel logn_min logn_max : nat) (rng : result string (list Z))
    (skey ctx : list Z) (id : Z) (data : list Z) : option (result string (list Z)) :=
  match rng with
  | Err e => Some (Err e)
  | Ok seed => sign_inner_seeded fuel logn_min logn_max seed skey ctx id data
  end.

Definition Sign (fuel : nat) (rng : result string (list Z)) (skey ctx : list Z) (id : Z) (data : list Z)
    : option (result string (list Z)) := sign_inner fuel 9 10 rng skey ctx id data.
Definition SignWeak (fuel : nat) (rng : result string (list Z)) (skey ctx : list Z) (id : Z) (data : list Z)
    : option (result string (list Z)) := sign_inner fuel 2 8 rng skey ctx id data.
End Core.

(** * Loading a key *)

Definition is_small (x : Z) : Prop := -128 < x < 128.

Lemma small_poly logn f : poly logn is_small f -> poly logn (fun x => - q < x < q) f.
Proof.
  intros [Hl Hf]. split; [done|]. eapply Forall_impl; [exact Hf|].
  intros x Hx. unfold is_small, q in *. lia.
Qed.

Lemma small_norm_poly logn f : poly logn is_small f -> poly logn rep (norm_q <$> f).
Proof.
  intros [Hl _]. split; [by rewrite length_fmap|].
  apply Forall_fmap, Forall_forall. intros; apply norm_q_rep.
Qed.

(** What the completed key satisfies: h f = g and G = h F in the ring, and the
    hash is that of the encoded h. *)
Record key_ok `{Shake} (logn : nat) (f g F : list Z) (k : signing_key) : Prop := KeyOk {
  ko_logn : sk_logn k = logn;
  ko_f : sk_f k = f;
  ko_g : sk_g k = g;
  ko_F : sk_F k = F;
  ko_h : poly logn is_ext (sk_h k);
  ko_hf : nega_mul logn (norm_q <$> sk_h k) (norm_q <$> f) = norm_q <$> g;
  ko_G : poly logn is_small (sk_G k);
  ko_FG : nega_mul logn (norm_q <$> F) (norm_q <$> sk_h k) = norm_q <$> sk_G k;
  ko_hash : sk_hashed_vk k = hash_verifying_key
    (Z.of_nat logn :: fst (modq_encode logn (sk_h k) (replicate (VerifyingKeySize logn - 1) 0)));
}.

Lemma sign_complete_spec `{Shake} logn f g F k :
  (logn <= 10)%nat -> poly logn is_small f -> poly logn is_small g -> poly logn is_small F ->
  sign_complete logn f g F = Ok k -> key_ok logn f g F k.
Proof.
  intros Hn Hf Hg HF. unfold sign_complete. cbv zeta.
  pose proof (small_norm_poly _ _ Hf) as Rf. pose proof (small_norm_poly _ _ Hg) as Rg.
  pose proof (small_norm_poly _ _ HF) as RF.
  rewrite (mqpoly_small_to_int_spec logn f), (mqpoly_small_to_int_spec logn g)
    by (first [apply small_poly; done | rewrite length_replicate; done]).
  pose proof (mqpoly_div_ntt_spec logn _ _ (int_to_ntt_poly logn _ Hn Rg) (int_to_ntt_poly logn _ Hn Rf)) as Hd.
  pose proof (div_ntt_product logn _ _ Hn Rf Rg) as Hp.
  destruct (mqpoly_div_ntt _ _ _) as [c ok]. destruct Hd as (Hc & _ & _).
  destruct ok; [|done]. cbn [negb]. specialize (Hp eq_refl).
  rewrite (mqpoly_small_to_int_spec logn F) by
    (first [apply small_poly; done | apply (int_to_ntt_poly logn _ Hn Rf)]).
  pose proof (ntt_to_int_poly logn c Hn Hc) as Rh. set (h := mqpoly_ntt_to_int logn c) in *.
  assert (c = mqpoly_int_to_ntt logn h) as Hch by (symmetry; by apply int_to_ntt_to_int).
  clearbody h. subst c.
  rewrite mul_ntt_product by done.
  pose proof (nega_mul_poly logn (norm_q <$> F) h) as Rp.
  rewrite !ntt_to_int_to_ntt by done.
  pose proof (mqpoly_int_to_small_spec logn _ (replicate (degree logn) 0) Rp
    ltac:(by rewrite length_replicate)) as HG.
  destruct (mqpoly_int_to_small _ _ _) as [G ok]. destruct HG as (LG & HG1 & HG2).
  destruct ok; [|done]. cbn [negb]. intros [= <-]. specialize (HG2 eq_refl).
  pose proof (mqpoly_int_to_ext_spec logn h Rh) as Hext.
  assert (norm_q <$> mqpoly_int_to_ext logn h = h) as Hnh.
  { rewrite Hext, <- list_fmap_compose. transitivity (id <$> h); [|apply list_fmap_id].
    apply list_fmap_ext. intros i x Hx.
    assert (rep x) as Hrx by (eapply (Forall_lookup_1 rep); [apply Rh|done]).
    apply rep_unique; [apply norm_q_rep|done|]. simpl. by rewrite norm_q_mod, Zmod_mod. }
  split; cbn [sk_logn sk_f sk_g sk_F sk_G sk_h sk_hashed_vk]; try done.
  - rewrite Hext. apply (poly_fmap logn _ _ _ h Rh). intros. by apply Z.mod_pos_bound.
  - by rewrite Hnh.
  - split; [done|]. apply Forall_get. intros i Hi. rewrite LG in Hi.
    rewrite HG2, get_fmap by (by rewrite (proj1 Rp)). unfold is_small.
    pose proof (proj1 HG1 eq_refl i Hi). lia.
  - rewrite Hnh, HG2. symmetry. apply norm_center, Rp.
  - unfold hash_verifying_key. rewrite u8_small by lia. done.
Qed.

Lemma trim_range_small nbits x : (5 <= nbits <= 8)%nat -> trim_range nbits x -> is_small x.
Proof.
  intros Hn. unfold trim_range, is_small.
  pose proof (Z.pow_le_mono_r 2 (Z.of_nat nbits - 1) 7 ltac:(lia) ltac:(lia)). lia.
Qed.

Lemma nbits_fg_range logn : (5 <= nbits_fg logn <= 8)%nat.
Proof. do 10 (destruct logn as [|logn]; [simpl; lia|]). simpl. lia. Qed.

(** The two polynomial fields take an integral number of bytes. *)
Lemma degree_bytes logn nbits :
  (2 <= logn)%nat -> (nbits = 8 \/ nbits = nbits_fg logn)%nat ->
  (nbits * degree logn mod 8 = 0)%nat.
Proof.
  intros Hl Hn. destruct (decide (logn <= 2)%nat).
  - replace logn with 2%nat in * by lia. destruct Hn as [-> | ->]; reflexivity.
  - unfold degree. replace logn with (3 + (logn - 3))%nat at 1 by lia. rewrite Nat.pow_add_r.
    change (2 ^ 3)%nat with 8%nat. 
    rewrite (Nat.mul_comm 8), Nat.mul_assoc. apply Nat.Div0.mod_mul.
Qed.

Lemma trim_decoded logn nb off skey j p :
  (2 <= logn <= 10)%nat -> (nb = 8 \/ nb = nbits_fg logn)%nat -> Forall is_byte skey ->
  trim_i8_decode logn (drop off skey) (replicate (degree logn) 0) nb = Ok (j, p) -> poly logn (trim_range nb) p.
Proof.
  intros Hl Hnb Hb Hd. assert (5 <= nb <= 8)%nat as Hr by (pose proof (nbits_fg_range logn); lia).
  pose proof (trim_i8_decode_spec nb Hr logn (drop off skey) (replicate (degree logn) 0)
    ltac:(by rewrite length_replicate) (degree_bytes logn nb ltac:(lia) Hnb)
    ltac:(by apply Forall_drop)) as Hs.
  cbv zeta in Hs. rewrite Hd in Hs. by destruct Hs as (_ & _ & Hll & Hf & _).
Qed.

Lemma sign_load_ok `{Shake} lmin lmax skey k :
  (2 <= lmin)%nat -> (lmax <= 10)%nat -> Forall is_byte skey ->
  sign_load lmin lmax skey = Ok k ->
  (lmin <= sk_logn k <= lmax)%nat /\
  poly (sk_logn k) is_small (sk_f k) /\ poly (sk_logn k) is_small (sk_g k) /\
  poly (sk_logn k) is_small (sk_F k) /\
  key_ok (sk_logn k) (sk_f k) (sk_g k) (sk_F k) k.
Proof.
  intros Hlmin Hlmax Hb. unfold sign_load.
  destruct (length skey =? 0)%nat; [done|]. destruct (negb (_ =? 80)); [done|].
  set (logn := Z.to_nat _). destruct (Nat.ltb_spec logn lmin); [done|].
  destruct (Nat.ltb_spec lmax logn); [done|]. cbn [orb].
  destruct (negb (length skey =? SigningKeySize logn)%nat); [done|]. cbv zeta.
  assert (forall off nb j p, (nb = 8 \/ nb = nbits_fg logn)%nat ->
    trim_i8_decode logn (drop off skey) (replicate (degree logn) 0) nb = Ok (j, p) ->
    poly logn is_small p) as Hdec.
  { intros off nb j p Hnb Hd%trim_decoded; [|lia|done|done]. destruct Hd as [Hl Hf]. split; [done|].
    eapply Forall_impl; [exact Hf|]. intros x. apply trim_range_small. pose proof (nbits_fg_range logn). lia. }
  destruct (trim_i8_decode _ _ _ (nbits_fg logn)) as [[j f]|] eqn:Ef; [|done]. cbn [mbind result_bind].
  destruct (trim_i8_decode _ (drop (1 + j) skey) _ (nbits_fg logn)) as [[j' g]|] eqn:Eg; [|done].
  cbn [mbind result_bind].
  destruct (trim_i8_decode _ _ _ 8) as [[j'' F]|] eqn:EF; [|done]. cbn [mbind result_bind].
  intros Hc. apply Hdec in Ef; [|by right]. apply Hdec in Eg; [|by right]. apply Hdec in EF; [|by left].
  pose proof (sign_complete_spec logn f g F k ltac:(lia) Ef Eg EF Hc) as Hk.
  rewrite (ko_logn _ _ _ _ _ Hk), (ko_f _ _ _ _ _ Hk), (ko_g _ _ _ _ _ Hk), (ko_F _ _ _ _ _ Hk).
  done.
Qed.

(** The coefficients of f and g fit the fields the private key has for them. *)
Definition fits (logn : nat) (f g : list Z) : Prop :=
  poly logn (trim_range (nbits_fg logn)) f /\ poly logn (trim_range (nbits_fg logn)) g.

Lemma sign_load_fits `{Shake} lmin lmax skey k :
  (2 <= lmin)%nat -> (lmax <= 10)%nat -> Forall is_byte skey ->
  sign_load lmin lmax skey = Ok k -> fits (sk_logn k) (sk_f k) (sk_g k).
Proof.
  intros Hlmin Hlmax Hb El. pose proof (sign_load_ok _ _ _ _ Hlmin Hlmax Hb El) as (Hl & _ & _ & _ & _). revert El. unfold sign_load.
  destruct (length skey =? 0)%nat; [done|]. destruct (negb (_ =? 80)); [done|].
  set (logn := Z.to_nat _). destruct (Nat.ltb_spec logn lmin); [done|].
  destruct (Nat.ltb_spec lmax logn); [done|]. cbn [orb].
  destruct (negb (length skey =? SigningKeySize logn)%nat); [done|]. cbv zeta.
  destruct (trim_i8_decode _ _ _ (nbits_fg logn)) as [[j f]|] eqn:Ef; [|done]. cbn [mbind result_bind].
  destruct (trim_i8_decode _ (drop (1 + j) skey) _ (nbits_fg logn)) as [[j' g]|] eqn:Eg; [|done].
  cbn [mbind result_bind]. destruct (trim_i8_decode _ _ _ 8) as [[j'' F]|]; [|done]. cbn [mbind result_bind].
  apply trim_decoded in Ef, Eg; [|lia|by right|done..|lia|by right|done].
  unfold sign_complete. cbv zeta. repeat case_match; try done. intros [= <-]. by split.
Qed.

(** * The norm test of the signer *)

(** The candidate (s1, s2) of rounded values [z0], [z1]: 16-bit differences. *)
Definition cand_s1 (hm z0 : list Z) (i : nat) : Z := i16 (hm.[i] - z0.[i]).
Definition cand_s2 (z1 : list Z) (i : nat) : Z := i16 (- z1.[i]).

Lemma u16_sub_u16 x y : i16 (u16 (x - u16 y)) = i16 (x - y).
Proof. unfold i16. rewrite !u16_mod. f_equal. Z.to_euclidean_division_equations. lia. Qed.

Lemma i16_square x : 0 <= i16 x * i16 x <= 2 ^ 30 /\
  u32 (i32 (i16 x * i16 x)) = i16 x * i16 x.
Proof.
  pose proof (i16_range x). assert (0 <= i16 x * i16 x <= 2 ^ 30) by nia. split; [done|].
  rewrite i32_small, u32_small by lia. done.
Qed.

Lemma i16_i16 x : i16 (i16 x) = i16 x.
Proof. apply i16_small, i16_range. Qed.

Lemma signature_norm_spec logn hm z0 z1 s2 :
  length s2 = degree logn ->
  let '(sqn, s2') := signature_norm logn hm z0 z1 s2 in
  let n := degree logn in
  let sum := zsum n (fun i => cand_s1 hm z0 i * cand_s1 hm z0 i) +
             zsum n (fun i => cand_s2 z1 i * cand_s2 z1 i) in
  length s2' = n /\ (forall i, (i < n)%nat -> s2'.[i] = cand_s2 z1 i) /\
  (sum < 2 ^ 31 -> sqn = sum) /\ (2 ^ 31 <= sum -> sqn = 2 ^ 32 - 1).
Proof.
  intros Hl. unfold signature_norm. cbv zeta. set (n := degree logn) in *.
  match goal with |- context [for_ n ?b (0, 0)] =>
    pose proof (for_ind (fun c st => norm_inv (zsum c (fun i => cand_s1 hm z0 i * cand_s1 hm z0 i))
      (fst st) (snd st)) n b (0, 0)) as H1 end.
  feed_loop H1; [exact norm_inv_0| |].
  { intros i [s sat] Hi Hinv. cbn [fst snd] in *. rewrite u16_sub_u16.
    destruct (i16_square (hm.[i] - z0.[i])) as [Hr Hu]. fold (cand_s1 hm z0 i) in Hr, Hu |- *. rewrite Hu.
    by apply norm_inv_step. }
  destruct (for_ n _ (0, 0)) as [s sat]. cbn [fst snd] in H1.
  set (S1 := zsum n (fun i => cand_s1 hm z0 i * cand_s1 hm z0 i)) in *.
  match goal with |- context [for_ n ?b (s, sat, s2)] =>
    pose proof (for_ind (fun c '(s, sat, x) =>
      norm_inv (S1 + zsum c (fun i => cand_s2 z1 i * cand_s2 z1 i)) s sat /\
      length x = n /\ forall i, (i < c)%nat -> x.[i] = cand_s2 z1 i) n b (s, sat, s2)) as H2 end.
  cbv beta in H2. feed_loop H2.
  { cbn [zsum]. rewrite Z.add_0_r. split; [done|]. split; [done|]. lia. }
  { intros i [[a b] x] Hi (Hinv & Lx & Hx).
    assert (i16 (u16 (- u16 z1.[i])) = cand_s2 z1 i) as ->
      by (rewrite <- (Z.sub_0_l (u16 _)), u16_sub_u16, Z.sub_0_l; done).
    destruct (i16_square (- z1.[i])) as [Hr Hu]. fold (cand_s2 z1 i) in Hr, Hu. rewrite Hu.
    assert (i16 (cand_s2 z1 i) = cand_s2 z1 i) as -> by apply i16_i16. cbn [zsum]. rewrite Z.add_assoc.
    split; [by apply norm_inv_step|]. split; [by rewrite length_set|].
    intros j Hj. destruct (decide (j = i)) as [->|].
    - by rewrite get_set_eq by lia.
    - rewrite get_set_ne by lia. apply Hx. lia. }
  destruct (for_ n _ (s, sat, s2)) as [[a b] x]. destruct H2 as ([_ Ha Hb Hlt Hge] & Lx & Hx).
  split; [done|]. split; [done|].
  set (sum := S1 + _) in *. clearbody sum. split; intros Hc.
  - destruct (Hlt Hc) as [-> Hz]. rewrite (shr31_bit b) in Hz by lia.
    rewrite i32_small by (case_decide; lia). rewrite shr_div, Z.div_small by (case_decide; lia).
    apply Z.lor_0_r.
  - specialize (Hge Hc). rewrite (shr31_bit b) in Hge by lia. case_decide as Hd; [done|].
    assert (i32 b .>> 31 = -1) as ->.
    { unfold i32. rewrite u32_mod. rewrite <- (Z.mod_unique_pos _ _ 1 (b - 2147483648)) by lia.
      rewrite shr_div by lia. symmetry.
      apply (Z.div_unique_pos _ _ _ (b - 2147483648)); lia. }
    change (u32 (-1)) with (Z.ones 32). rewrite lor_all_ones by lia. done.
Qed.

(** What an emitted signature is made of. *)
Lemma sign_emit_spec logn nonce hm z0 z1 s2 sig s2' sig' :
  (1 <= logn <= 10)%nat -> length s2 = degree logn -> length nonce = 40%nat ->
  length sig = SignatureSize logn ->
  sign_emit logn nonce hm z0 z1 s2 sig = (true, s2', sig') ->
  poly logn comp_range s2' /\ (forall i, (i < degree logn)%nat -> s2'.[i] = cand_s2 z1 i) /\
  zsum (degree logn) (fun i => cand_s1 hm z0 i * cand_s1 hm z0 i) + sqnorm s2' <= sqbeta.[logn] /\
  exists e, sig' = (48 + Z.of_nat logn) :: nonce ++ e /\ length e = (SignatureSize logn - 41)%nat /\
    Forall is_byte e /\
    comp_encode logn s2' (replicate (SignatureSize logn - 41) 0) = (e, true).
Proof.
  intros Hlogn Hl Hno Hsig. unfold sign_emit.
  pose proof (signature_norm_spec logn hm z0 z1 s2 Hl) as Hn.
  destruct (signature_norm logn hm z0 z1 s2) as [sqn s]. destruct Hn as (Ls & Hs & Hlt & Hge).
  unfold mqpoly_sqnorm_is_acceptable.
  assert (0 < sqbeta.[logn] < 2 ^ 31) as Hbeta.
  { clear - Hlogn. do 11 (destruct logn as [|logn]; [first [lia|split; reflexivity]|]). lia. }
  destruct (Z.leb_spec sqn sqbeta.[logn]) as [Hle|]; [|done]. cbn [negb].
  pose proof (signature_size_ge logn ltac:(lia)).
  pose proof (comp_encode_spec logn s (drop 41 sig) Ls) as He.
  destruct (comp_encode logn s (drop 41 sig)) as [e ok] eqn:Ee. destruct ok; [|done].
  destruct He as (Le & Hr & Hbe & k & Hbits). rewrite length_drop in Le.
  intros [= <- <-]. split; [by split|]. split; [done|]. split.
  { rewrite (sqnorm_zsum s (degree logn)) by done.
    rewrite (zsum_ext (degree logn) (fun i => s.[i] * s.[i]) (fun i => cand_s2 z1 i * cand_s2 z1 i))
      by (intros; by rewrite Hs).
    set (sum := _ + _) in *. destruct (decide (sum < 2 ^ 31)) as [Hc|Hc].
    - by rewrite <- Hlt.
    - rewrite Hge in Hle; lia. }
  exists e. split; [|split; [lia|split; [done|]]].
  - destruct sig as [|x sig]; [simpl in Hsig; lia|]. rewrite (u8_small (48 + _)) by lia.
    change ((take 41 (x :: sig) ++ e).[0 <- 48 + Z.of_nat logn])
      with ((48 + Z.of_nat logn) :: (take 40 sig ++ e)).
    cbn [take app]. change (drop 41 (?y :: ?l)) with (drop 40 l).
    rewrite drop_app_length'; [done|]. rewrite length_take. simpl in Hsig. lia.
  - assert (comp_decode logn e (replicate (degree logn) 0) = Ok s) as Hd.
    { apply (comp_decode_encode logn e _ s (drop 41 sig)); [by rewrite length_replicate|done| |done].
      rewrite length_drop. lia. }
    apply (comp_decode_encode logn e (replicate (degree logn) 0) s); [by rewrite length_replicate|done| |done].
    rewrite length_replicate. lia.
Qed.
