(* ===== verification/FlrEmu.v ===== *)
(** The emulated floating-point operations ([sign_flr_emu.go], constants and
    shifts of [sign_flr.go] and [sign_flr_shift64.go]): 64-bit IEEE-754 patterns
    handled as [uint64] values. *)
From Stdlib Require Import ZArith Lia.
From stdpp Require Import base numbers list.
From S2P Require Import Prelude Flr.
Local Open Scope Z_scope.

(** 64-bit wrap-around arithmetic. *)
Local Notation "x +! y" := (u64 (x + y)) (at level 50, left associativity).
Local Notation "x -! y" := (u64 (x - y)) (at level 50, left associativity).
Local Notation "-! x" := (u64 (- x)) (at level 35, right associativity).

Definition b52 : Z := 0x0010000000000000.
Definition b53 : Z := 0x0020000000000000.
Definition b62 : Z := 0x4000000000000000.
Definition b63 : Z := 0x8000000000000000.
Definition m50 : Z := 0x0003FFFFFFFFFFFF.
Definition m52 : Z := 0x000FFFFFFFFFFFFF.
Definition m62 : Z := 0x3FFFFFFFFFFFFFFF.
Definition m63 : Z := 0x7FFFFFFFFFFFFFFF.

Definition ursh (x n : Z) : Z := x .>> n.
Definition irsh (x n : Z) : Z := x .>> n.
Definition ulsh (x n : Z) : Z := u64 (x .<< n).

Definition emu_ZERO : Z := 0.
Definition emu_NZERO : Z := 0x8000000000000000.
Definition emu_ONE : Z := 1023 .<< 52.

Definition emu_mk (i e : Z) : Z :=
  let ee := u64 (((u32 e +% 1075) .& 0x7FF) .<< 52) in
  if i <? 0
  then ee +! (u64 (- i) .& 0x000FFFFFFFFFFFFF) +! 0x8000000000000000
  else ee +! (u64 i .& 0x000FFFFFFFFFFFFF).

(** [s], [m] are uint64, [e] is int32. *)
Definition f64_build (s e m : Z) : Z :=
  let eu := u32 (e + 1076) in
  let cc := (200 .>> (u32 m .& 7)) .& 1 in
  u64 (s .<< 63) +! u64 (eu .<< 52) +! (m .>> 2) +! cc.

Definition f64_build_z (s e m : Z) : Z :=
  let eu := u32 (e + 1076) .& (-% u32 (m .>> 54)) in
  let cc := (200 .>> (u32 m .& 7)) .& 1 in
  u64 (s .<< 63) +! u64 (eu .<< 52) +! (m .>> 2) +! cc.

Definition lzcnt_nonzero (x : Z) : Z :=
  let y5 := x .>> 32 in
  let m5 := u32 ((y5 -! 1) .>> 32) in
  let r := m5 .& 0x20 in
  let x4 := u32 y5 .| (m5 .& u32 x) in
  let y4 := x4 .>> 16 in
  let m4 := (y4 -% 1) .>> 16 in
  let r := r .| (m4 .& 0x10) in
  let x3 := y4 .| (m4 .& x4) in
  let y3 := x3 .>> 8 in
  let m3 := (y3 -% 1) .>> 8 in
  let r := r .| (m3 .& 0x08) in
  let x2 := y3 .| (m3 .& x3) in
  let y2 := x2 .>> 4 in
  let m2 := (y2 -% 1) .>> 4 in
  let r := r .| (m2 .& 0x04) in
  let x1 := y2 .| (m2 .& x2) in
  let y1 := x1 .>> 2 in
  let m1 := (y1 -% 1) .>> 2 in
  let r := r .| (m1 .& 0x02) in
  let x0 := y1 .| (m1 .& x1) in
  r +% 1 -% (x0 .>> 1).

Definition norm64 (m e : Z) : Z * Z :=
  let c := lzcnt_nonzero (m .| 1) in
  (ulsh m c, i32 (e - c)).

(** [i] is int64, [sc] int32. *)
Definition f64_scaled (i sc : Z) : Z :=
  let s := u64 (i .>> 63) in
  let m := (u64 i .^ s) -! s in
  let '(m, sc) := norm64 m sc in
  let sc := i32 (sc + 9) in
  let m := (m .| ((m .& 0x1FF) +! 0x1FF)) .>> 9 in
  f64_build_z s sc m.

Definition emu_of (i : Z) : Z := f64_scaled i 0.
Definition emu_of_i32 (i : Z) : Z := f64_scaled i 0.

(** [int64(x)] of a uint64 pattern: the sign bit extended. *)
Definition sign_mask (x : Z) : Z := u64 (i64 x .>> 63).
(** [int32(x>>52) & 0x7FF] *)
Definition exponent (x : Z) : Z := (x .>> 52) .& 0x7FF.

Definition emu_rint (x : Z) : Z :=
  let m := (u64 (x .<< 10) .| b62) .& m63 in
  let e := 1085 - exponent x in
  let m := m .& u64 ((e - 64) .>> 16) in
  let eu := u32 e .& 63 in
  let z := ulsh m (63 - eu) in
  let y := ((z .& m62) +! m62) .>> 1 in
  let cc := (200 .>> u32 ((z .| y) .>> 61)) .& 1 in
  let m := ursh m eu +! cc in
  let s := sign_mask x in
  i32 ((m .^ s) -! s).

(** The shift count [e], as uint32, saturated at 63. *)
Definition shift_sat (e : Z) : Z :=
  let eu := u32 e in
  (eu .| ((63 -% eu) .>> 16)) .& 63.

Definition emu_floor (x : Z) : Z :=
  let m := (u64 (x .<< 10) .| b62) .& m63 in
  let s := sign_mask x in
  let m := (m .^ s) -! s in
  let e := 1085 - exponent x in
  i32 (irsh (i64 m) (shift_sat e)).

Definition emu_trunc (x : Z) : Z :=
  let m := (u64 (x .<< 10) .| b62) .& m63 in
  let e := 1085 - exponent x in
  let m := u64 (irsh (i64 m) (shift_sat e)) in
  let s := sign_mask x in
  i32 ((m .^ s) -! s).

Definition emu_mtwop63 (v : Z) : Z :=
  let m := (u64 (v .<< 10) .| b62) .& m63 in
  let e := 1022 - exponent v in
  ursh m (shift_sat e).

Definition emu_add (x y : Z) : Z :=
  let za := (x .& m63) -! (y .& m63) in
  let za := za .| ((za -! 1) .& x) in
  let sw := (x .^ y) .& sign_mask za in
  let x := x .^ sw in
  let y := y .^ sw in
  let ex := u32 (x .>> 52) in
  let sx := ex .>> 11 in
  let ex := ex .& 0x7FF in
  let xu := u64 ((x .& m52) .<< 3) .| u64 (((ex +% 0x7FF) .>> 11) .<< 55) in
  let ex := ex -% 1078 in
  let ey := u32 (y .>> 52) in
  let sy := ey .>> 11 in
  let ey := ey .& 0x7FF in
  let yu := u64 ((y .& m52) .<< 3) .| u64 (((ey +% 0x7FF) .>> 11) .<< 55) in
  let ey := ey -% 1078 in
  let n := ex -% ey in
  let yu := yu .& u64 (i32 (i32 n - 60) .>> 16) in
  let n := n .& 63 in
  let m := ulsh 1 n -! 1 in
  let yu := ursh (yu .| ((yu .& m) +! m)) n in
  let dm := -! (sx .^ sy) in
  let zu := xu +! yu -! (dm .& u64 (yu .<< 1)) in
  let '(zu, e) := norm64 zu (i32 ex) in
  let zu := (zu .| ((zu .& 0x1FF) +! 0x1FF)) .>> 9 in
  let e := i32 (e + 9) in
  f64_build_z sx e zu.

Definition emu_sub (x y : Z) : Z := emu_add x (y .^ b63).
Definition emu_neg (x : Z) : Z := x .^ b63.

Definition emu_half (x : Z) : Z :=
  let y := x -! b52 in
  y +! (((x .^ y) .>> 11) .& b52).

Definition f64_double (x : Z) : Z :=
  let d := ((x .& 0x7FF0000000000000) +! 0x7FF0000000000000) .>> 11 in
  x +! (d .& b52).

Definition emu_mul (x y : Z) : Z :=
  let xu := (x .& m52) .| b52 in
  let yu := (y .& m52) .| b52 in
  let zhi := (xu * yu) .>> 64 in
  let zlo := u64 (xu * yu) in
  let zu := (zlo .>> 50) .| u64 (zhi .<< 14) in
  let zu := zu .| (((zlo .& m50) +! m50) .>> 50) in
  let es := u32 (zu .>> 55) in
  let zu := (zu .>> es) .| (zu .& 1) in
  let ex := u32 (x .>> 52) .& 0x7FF in
  let ey := u32 (y .>> 52) .& 0x7FF in
  let e := ex +% ey -% 2100 +% es in
  let s := (x .^ y) .>> 63 in
  let dzu := u32 (i32 ((ex -% 1) .| (ey -% 1)) .>> 31) in
  let e := e .^ (dzu .& (e .^ u32 (0x100000000 - 1076))) in
  let zu := zu .& ((dzu .& 1) -! 1) in
  f64_build s (i32 e) zu.

Definition emu_sqr (x : Z) : Z := emu_mul x x.

Definition f64_div (xv yv : Z) : Z :=
  let xu := (xv .& m52) .| b52 in
  let yu := (yv .& m52) .| b52 in
  let '(q, xu) := for_ 55 (fun _ '(q, xu) =>
    let b := ((xu -! yu) .>> 63) -! 1 in
    let xu := xu -! (b .& yu) in
    let q := q .| (b .& 1) in
    (u64 (q .<< 1), u64 (xu .<< 1))) (0, xu) in
  let q := q .| ((xu .| (-! xu)) .>> 63) in
  let es := u32 (q .>> 55) in
  let q := (q .>> es) .| (q .& 1) in
  let ex := u32 (xv .>> 52) .& 0x7FF in
  let ey := u32 (yv .>> 52) .& 0x7FF in
  let e := ex -% ey -% 55 +% es in
  let s := (xv .^ yv) .>> 63 in
  let dzu := u32 (i32 (ex -% 1) .>> 31) in
  let e := e .^ (dzu .& (e .^ u32 (0x100000000 - 1076))) in
  let dm := (dzu .& 1) -! 1 in
  let s := s .& dm in
  let q := q .& dm in
  f64_build s (i32 e) q.

Definition emu_inv (x : Z) : Z := f64_div emu_ONE x.

Definition emu_sqrt (x : Z) : Z :=
  let xu := (x .& m52) .| b52 in
  let ex := u32 (x .>> 52) .& 0x7FF in
  let e := i32 (ex - 1023) in
  let xu := xu +! (xu .& (-! (u32 e .& 1))) in
  let e := e .>> 1 in
  let xu := u64 (xu .<< 1) in
  let '(q, s, xu, r) := for_ 54 (fun _ '(q, s, xu, r) =>
    let t := s +! r in
    let b := ((xu -! t) .>> 63) -! 1 in
    let s := s +! (b .& u64 (r .<< 1)) in
    let xu := xu -! (t .& b) in
    let q := q +! (r .& b) in
    let xu := u64 (xu .<< 1) in
    let r := r .>> 1 in
    (q, s, xu, r)) (0, 0, xu, b53) in
  let q := u64 (q .<< 1) in
  let q := q .| ((xu .| (-! xu)) .>> 63) in
  let e := i32 (e - 54) in
  let q := q .& (-! ((ex +% 0x7FF) .>> 11)) in
  f64_build_z 0 e q.

Definition emu_div2e (x e : Z) : Z :=
  let ee := u64 (u64 e .<< 52) in
  let y := x -! ee in
  let ov := x .^ y in
  y +! (ee .& u64 (i64 ov .>> 11)).

Definition f64_mul2e (x : Z) : Z :=
  let d := u64 (i64 ((x .& 0x7FF0000000000000) -! b52) .>> 12) in
  x +! ((63 .<< 52) .& (0xFFFFFFFFFFFFFFFF .^ d)).

Definition f64_abs (x : Z) : Z := x .& m63.

#[export] Instance emu : F64 := {|
  f64 := Z;
  f64_ZERO := emu_ZERO;
  f64_NZERO := emu_NZERO;
  f64_ONE := emu_ONE;
  f64mk := emu_mk;
  f64_of := emu_of;
  f64_of_i32 := emu_of_i32;
  f64_rint := emu_rint;
  f64_floor := emu_floor;
  f64_trunc := emu_trunc;
  f64_mtwop63 := emu_mtwop63;
  f64_add := emu_add;
  f64_sub := emu_sub;
  f64_neg := emu_neg;
  f64_half := emu_half;
  f64_mul := emu_mul;
  f64_sqr := emu_sqr;
  f64_inv := emu_inv;
  f64_sqrt := emu_sqrt;
  f64_div2e := emu_div2e;
  f64_eqb := Z.eqb;
|}.
