(* ===== verification/EmuFacts.v ===== *)
(** The emulated floating-point operations are those of IEEE 754 binary64: each
    result is the exact one rounded to nearest, ties to even.

    A word of a number that is not zero is [pack s e m]: the sign [s], and the
    value m 2^e with 2^52 <= m < 2^53.  The encoding is such that m = 2^53 is the
    next exponent with the least significand, so a significand may be rounded up
    before it is packed. *)
From Stdlib Require Import ZArith Lia Znumtheory.
From stdpp Require Import base numbers list.
From S2P Require Import Prelude Flr FlrEmu.
Local Open Scope Z_scope.

(** * The reference *)

Definition pack (s e m : Z) : Z := s * 2 ^ 63 + (e + 1074) * 2 ^ 52 + m.

(** The integer nearest to a / b, the even one of two. *)
Definition rne (a b : Z) : Z :=
  let q := a / b in
  let r := a mod b in
  if 2 * r <? b then q else if b <? 2 * r then q + 1 else if Z.even q then q else q + 1.

(** The number (-1)^s (a / b) 2^e rounded to 53 bits, where a / b is at least 1. *)
Definition round_frac (s a b e : Z) : Z :=
  let k := Z.log2 (a / b) - 52 in
  pack s (e + k) (if k <=? 0 then rne (a * 2 ^ (- k)) b else rne a (b * 2 ^ k)).

(** The floor of a / d, with a last bit that says whether it is exact. *)
Definition sticky (a d : Z) : Z := a / d .| (if a mod d =? 0 then 0 else 1).

(** A word that holds a normal number. *)
Record normal (x s e m : Z) : Prop := Normal {
  nm_pack : x = pack s e m;
  nm_sign : s = 0 \/ s = 1;
  nm_exp : -1074 <= e <= 971;
  nm_sig : 2 ^ 52 <= m < 2 ^ 53
}.

Lemma pack_carry s e : pack s e (2 ^ 53) = pack s (e + 1) (2 ^ 52).
Proof. unfold pack. lia. Qed.

Lemma rne_spec a b : 0 <= a -> 0 < b ->
  Z.abs (2 * (a - rne a b * b)) <= b /\ (Z.abs (2 * (a - rne a b * b)) = b -> Z.even (rne a b) = true).
Proof.
  intros Ha Hb. unfold rne. pose proof (Z.div_mod a b) as D. pose proof (Z.mod_pos_bound a b Hb) as M.
  set (q := a / b) in *. set (r := a mod b) in *. clearbody q r.
  destruct (Z.ltb_spec (2 * r) b); [split; [lia|lia]|].
  destruct (Z.ltb_spec b (2 * r)); [split; [lia|intros; lia]|].
  destruct (Z.even q) eqn:E; (split; [lia|]); [done|]. intros _. by rewrite Z.even_add, E.
Qed.

(** A floor with a bit that says whether it is exact rounds like the number. *)
Lemma rne_sticky a d : 0 <= a -> 0 < d ->
  rne (sticky a d) 4 = rne a (4 * d).
Proof.
  intros Ha Hd. unfold sticky. pose proof (Z.div_mod a d ltac:(lia)) as D. pose proof (Z.mod_pos_bound a d Hd) as M.
  set (q := a / d) in *. set (r := a mod d) in *.
  assert (Hq : 0 <= q) by (apply Z.div_pos; lia).
  pose proof (Z.div_mod q 4 ltac:(lia)) as D4. pose proof (Z.mod_pos_bound q 4 ltac:(lia)) as M4.
  set (q4 := q / 4) in *. set (b := q mod 4) in *.
  assert (a / (4 * d) = q4 /\ a mod (4 * d) = b * d + r) as [E1 E2].
  { split; symmetry; [apply (Z.div_unique_pos a (4 * d) q4 (b * d + r)); nia|apply (Z.mod_unique_pos a (4 * d) q4 (b * d + r)); nia]. }
  unfold rne at 2. cbv zeta. rewrite E1, E2.
  set (z := q .| _). assert (z / 4 = q4 /\ z mod 4 = if r =? 0 then b else Z.lor b 1) as [F1 F2].
  { subst z. assert (forall t, 0 <= t < 2 -> q .| t = 4 * q4 + (b .| t)) as Hor.
    { intros t Ht. assert (0 <= b .| t < 2 ^ 2) as Hbt by (apply lor_lt_pow2; lia).
      replace q with (q4 * 2 ^ 2 .| b) at 1 by (rewrite lor_shifted; lia).
      rewrite <- Z.lor_assoc, lor_shifted by lia. lia. }
    destruct (Z.eqb_spec r 0) as [->|Hr].
    - rewrite Z.lor_0_r. split; [done|done].
    - rewrite Hor by lia. assert (0 <= b .| 1 < 2 ^ 2) as Hbt by (apply lor_lt_pow2; lia).
      split; [symmetry; apply (Z.div_unique_pos _ 4 q4 (b .| 1)); lia|symmetry; apply (Z.mod_unique_pos _ 4 q4 (b .| 1)); lia]. }
  unfold rne. cbv zeta. rewrite F1, F2.
  assert (b = 0 \/ b = 1 \/ b = 2 \/ b = 3) as [->|[->|[->| ->]]] by lia; destruct (Z.eqb_spec r 0) as [E|E];
    try rewrite E; cbn [Z.lor Pos.lor];
    repeat (match goal with |- context [?x <? ?y] => destruct (Z.ltb_spec x y) end); try lia; done.
Qed.

(** * Bits *)

Lemma pow2_52 : 2 ^ 52 = 4503599627370496. Proof. reflexivity. Qed.
Lemma pow2_53 : 2 ^ 53 = 9007199254740992. Proof. reflexivity. Qed.
Lemma pow2_63 : 2 ^ 63 = 9223372036854775808. Proof. reflexivity. Qed.
Lemma pow2_64 : 2 ^ 64 = 18446744073709551616. Proof. reflexivity. Qed.

Lemma lor_bit q b : 0 <= b < 2 -> q .| b = if Z.even q then q + b else q.
Proof.
  intros Hb. pose proof (Z.div_mod q 2 ltac:(lia)) as D. pose proof (Z.mod_pos_bound q 2 ltac:(lia)) as M.
  pose proof (Zmod_even q) as E. destruct (Z.even q); rewrite E in D; clear M E.
  - replace q with (q / 2 * 2 ^ 1) by lia. rewrite lor_shifted; lia.
  - assert (b = 0 \/ b = 1) as [->| ->] by lia; [apply Z.lor_0_r|].
    replace q with (q / 2 * 2 ^ 1 .| 1) by (rewrite lor_shifted; lia). by rewrite <- Z.lor_assoc.
Qed.

(** Adding 2^k - 1 carries into bit k exactly if there is something below it. *)
Lemma carry_bit a k : 0 <= k -> 0 <= a < 2 ^ k -> (a + (2 ^ k - 1)) .>> k = if a =? 0 then 0 else 1.
Proof.
  intros Hk Ha. rewrite shr_div by lia. destruct (Z.eqb_spec a 0) as [->|Hn].
  - apply Z.div_small. lia.
  - symmetry. apply (Z.div_unique_pos _ _ 1 (a - 1)); lia.
Qed.

Lemma land_low x k : 0 <= k -> x .& (2 ^ k - 1) = x mod 2 ^ k.
Proof. intros Hk. rewrite <- Z.land_ones by lia. by rewrite Z.ones_equiv. Qed.

(** The fields of a packed number. *)
Lemma normal_range x s e m : normal x s e m -> 0 <= x < 2 ^ 64.
Proof. intros [-> Hs He Hm]. unfold pack. rewrite pow2_52, pow2_53, pow2_63, pow2_64 in *. lia. Qed.

Lemma normal_low x s e m : normal x s e m -> x .& m52 = m - 2 ^ 52.
Proof.
  intros [-> Hs He Hm]. change m52 with (2 ^ 52 - 1). rewrite land_low by lia. unfold pack.
  rewrite pow2_52, pow2_53, pow2_63 in *.
  symmetry. apply (Z.mod_unique_pos _ _ (s * 2048 + e + 1075)); lia.
Qed.

Lemma normal_sig x s e m : normal x s e m -> (x .& m52) .| b52 = m.
Proof.
  intros H. rewrite (normal_low _ _ _ _ H). destruct H as [_ _ _ Hm].
  change b52 with (1 * 2 ^ 52). rewrite Z.lor_comm, lor_shifted; rewrite pow2_52, pow2_53 in *; lia.
Qed.

Lemma normal_top x s e m : normal x s e m -> x .>> 52 = s * 2048 + (e + 1075).
Proof.
  intros [-> Hs He Hm]. rewrite shr_div by lia. unfold pack. rewrite pow2_52, pow2_53, pow2_63 in *.
  symmetry. apply (Z.div_unique_pos _ _ _ (m - 4503599627370496)); lia.
Qed.

Lemma normal_exponent x s e m : normal x s e m -> exponent x = e + 1075.
Proof.
  intros H. unfold exponent. rewrite (normal_top _ _ _ _ H). destruct H as [_ Hs He Hm].
  change 0x7FF with (2 ^ 11 - 1). rewrite land_low by lia. symmetry. apply (Z.mod_unique_pos _ _ s); lia.
Qed.

Lemma normal_exponent32 x s e m : normal x s e m -> u32 (x .>> 52) .& 0x7FF = e + 1075.
Proof.
  intros H. rewrite (normal_top _ _ _ _ H). destruct H as [_ Hs He Hm]. rewrite u32_small by lia.
  change 0x7FF with (2 ^ 11 - 1). rewrite land_low by lia. symmetry. apply (Z.mod_unique_pos _ _ s); lia.
Qed.

Lemma normal_neg x s e m : normal x s e m -> x .>> 63 = s.
Proof.
  intros [-> Hs He Hm]. rewrite shr_div by lia. unfold pack. rewrite pow2_52, pow2_53, pow2_63 in *.
  symmetry. apply (Z.div_unique_pos _ _ _ ((e + 1074) * 4503599627370496 + m)); lia.
Qed.

Lemma xor_sign x y s1 e1 m1 s2 e2 m2 :
  normal x s1 e1 m1 -> normal y s2 e2 m2 -> (x .^ y) .>> 63 = s1 .^ s2.
Proof. intros Hx Hy. by rewrite Z.shiftr_lxor, (normal_neg _ _ _ _ Hx), (normal_neg _ _ _ _ Hy). Qed.

Lemma sign_xor s1 s2 : s1 = 0 \/ s1 = 1 -> s2 = 0 \/ s2 = 1 -> s1 .^ s2 = 0 \/ s1 .^ s2 = 1.
Proof. intros [->| ->] [->| ->]; cbn; tauto. Qed.

(** ** Rounding and packing *)

Lemma rne_shift c b r : 0 < b -> rne (2 * c * b + r) b = 2 * c + rne r b.
Proof.
  intros Hb. unfold rne. rewrite Z.div_add_l, (Z.add_comm (2 * c * b)), Z.mod_add by lia.
  rewrite Z.even_add, Z.even_mul. cbn [Z.even orb]. replace (eqb true (Z.even (r / b))) with (Z.even (r / b)) by (by destruct (Z.even (r / b))).
  repeat case_match; lia.
Qed.

Lemma round_bit m : 0 <= m -> (m .>> 2) + ((200 .>> (u32 m .& 7)) .& 1) = rne m 4.
Proof.
  intros Hm. assert (u32 m .& 7 = m mod 8) as ->.
  { rewrite u32_mod. change 7 with (2 ^ 3 - 1). rewrite land_low by lia.
    change (2 ^ 32) with (8 * 2 ^ 29). apply Z.mod_mod_divide. by exists (2 ^ 29). }
  pose proof (Z.div_mod m 8 ltac:(lia)) as D. pose proof (Z.mod_pos_bound m 8 ltac:(lia)) as M.
  rewrite D at 1 3. rewrite shr_div by lia. change (2 ^ 2) with 4.
  replace (8 * (m / 8)) with (2 * (m / 8) * 4) by lia. rewrite rne_shift, Z.div_add_l by lia.
  set (r := m mod 8) in *. clearbody r. clear D.
  enough (r / 4 + ((200 .>> r) .& 1) = rne r 4) by lia.
  assert (r = 0 \/ r = 1 \/ r = 2 \/ r = 3 \/ r = 4 \/ r = 5 \/ r = 6 \/ r = 7) as Hr by lia.
  destruct Hr as [->|[->|[->|[->|[->|[->|[->| ->]]]]]]]; reflexivity.
Qed.

Lemma rne_range m : 2 ^ 54 <= m < 2 ^ 55 -> 2 ^ 52 <= rne m 4 <= 2 ^ 53.
Proof.
  intros Hm. pose proof (rne_spec m 4 ltac:(lia) ltac:(lia)) as [H _].
  change (2 ^ 54) with (4 * 2 ^ 52) in Hm. change (2 ^ 55) with (4 * 2 ^ 53) in Hm. lia.
Qed.

Lemma f64_build_spec s e m :
  s = 0 \/ s = 1 -> -1076 <= e <= 969 -> 2 ^ 54 <= m < 2 ^ 55 -> f64_build s e m = pack s (e + 2) (rne m 4).
Proof.
  intros Hs He Hm. pose proof (rne_range m Hm) as Hr. unfold f64_build. cbv zeta. rewrite <- round_bit in Hr by lia. rewrite <- round_bit by lia.
  set (cc := (200 .>> _) .& 1) in *. set (t := m .>> 2) in *.
  assert (0 <= cc < 2) as Hc by (subst cc; rewrite Z.land_comm; apply (land_lt_pow2 1 _ 1); lia).
  assert (0 <= t) as Ht by (apply Z.shiftr_nonneg; lia). clearbody cc t.
  rewrite (u32_small (e + 1076)), !shl_mul by lia. unfold pack. rewrite pow2_52, pow2_53, pow2_63 in *.
  rewrite (u64_small (s * _)), (u64_small ((e + 1076) * _)), (u64_small (s * _ + _)) by lia.
  rewrite (u64_small (_ + t)), u64_small; lia.
Qed.

Lemma f64_build_z_spec s e m :
  s = 0 \/ s = 1 -> -1076 <= e <= 969 -> 2 ^ 54 <= m < 2 ^ 55 -> f64_build_z s e m = pack s (e + 2) (rne m 4).
Proof.
  intros Hs He Hm. rewrite <- f64_build_spec by done. unfold f64_build_z, f64_build. cbv zeta.
  assert (m .>> 54 = 1) as -> by (rewrite shr_div by lia; symmetry; apply (Z.div_unique_pos _ _ _ (m - 2 ^ 54)); lia).
  change (-% u32 1) with (2 ^ 32 - 1). by rewrite land_low, Z.mod_small by (rewrite ?u32_small; lia).
Qed.

Lemma f64_build_z_zero s e : s = 0 \/ s = 1 -> f64_build_z s e 0 = s * 2 ^ 63.
Proof. intros [->| ->]; unfold f64_build_z; cbv zeta; change (-% u32 (0 .>> 54)) with 0; by rewrite Z.land_0_r. Qed.

(** ** Sticky bits *)

Lemma sticky_half a d : 0 <= a -> 0 < d -> (sticky a d .>> 1) .| (sticky a d .& 1) = sticky a (2 * d).
Proof.
  intros Ha Hd. unfold sticky. pose proof (Z.div_mod a d ltac:(lia)) as D. pose proof (Z.mod_pos_bound a d Hd) as M.
  set (q := a / d) in *. set (r := a mod d) in *. clearbody q r.
  pose proof (Z.div_mod q 2 ltac:(lia)) as D2. pose proof (Z.mod_pos_bound q 2 ltac:(lia)) as M2.
  assert (a / (2 * d) = q / 2 /\ a mod (2 * d) = q mod 2 * d + r) as [-> ->].
  { split; symmetry; [apply (Z.div_unique_pos a _ _ (q mod 2 * d + r)); nia|apply (Z.mod_unique_pos a _ (q / 2)); nia]. }
  rewrite Z.shiftr_lor, Z.land_lor_distr_l, (shr_div q) by lia. change (2 ^ 1) with 2.
  assert (q .& 1 = q mod 2) as -> by (change 1 with (2 ^ 1 - 1); by rewrite land_low).
  assert (q mod 2 = 0 \/ q mod 2 = 1) as [->| ->] by lia; repeat case_match; cbn [Z.shiftr Z.shiftl Z.opp Z.div2 Pos.div2 Z.land Pos.land];
    rewrite ?Z.lor_0_r, ?Z.lor_0_l; try lia; try done.
Qed.

Lemma sticky_top a d l : 0 <= a -> 0 < d -> 0 < l -> sticky a d .>> l = a / (d * 2 ^ l).
Proof.
  intros Ha Hd Hl. unfold sticky. rewrite Z.shiftr_lor, shr_div, Z.div_div by lia.
  replace (_ .>> l) with 0; [apply Z.lor_0_r|]. case_match; [by rewrite Z.shiftr_0_l|].
  rewrite shr_div by lia. symmetry. apply Z.div_small. split; [lia|]. apply (Z.pow_gt_1 2 l); lia.
Qed.

Lemma sticky_range a d k : 0 <= a -> 0 < d -> 0 < k -> 2 ^ k <= a / d < 2 ^ (k + 1) -> 2 ^ k <= sticky a d < 2 ^ (k + 1).
Proof.
  intros Ha Hd Hk Hq. unfold sticky. assert (0 <= (if a mod d =? 0 then 0 else 1) < 2) by (case_match; lia).
  rewrite lor_bit by done. destruct (Z.even (a / d)) eqn:E; [|done].
  pose proof (Z.even_pow 2 (k + 1) ltac:(lia)) as E2. change (Z.even 2) with true in E2.
  enough (a / d + 1 <> 2 ^ (k + 1)) by (case_match; lia). intros Heq. rewrite <- Heq, Z.even_add, E in E2. done.
Qed.

Lemma round_frac_sticky s a b e l : 0 <= a -> 0 < b -> 0 <= l -> 2 ^ 54 <= a / (b * 2 ^ l) < 2 ^ 55 ->
  pack s (e + l + 2) (rne (sticky a (b * 2 ^ l)) 4) = round_frac s a b e.
Proof.
  intros Ha Hb Hl Hq. pose proof (Z.pow_pos_nonneg 2 l ltac:(lia) Hl). rewrite rne_sticky by nia.
  unfold round_frac. cbv zeta. assert (Z.log2 (a / b) = 54 + l) as ->.
  { rewrite <- Z.div_div in Hq by lia. apply Z.log2_unique; [lia|]. replace (Z.succ (54 + l)) with (55 + l) by lia. rewrite !Z.pow_add_r by lia.
    pose proof (Z.div_mod (a / b) (2 ^ l) ltac:(lia)). pose proof (Z.mod_pos_bound (a / b) (2 ^ l) ltac:(lia)).
    nia. }
  replace (54 + l - 52) with (l + 2) by lia. destruct (Z.leb_spec (l + 2) 0); [lia|].
  f_equal; [lia|]. f_equal. rewrite Z.pow_add_r by lia. lia.
Qed.

(** A sticky word of 55 or 56 bits brought to 55. *)
Lemma fold_top a d : 0 <= a -> 0 < d -> 2 ^ 54 <= a / d < 2 ^ 56 ->
  exists l, (l = 0 \/ l = 1) /\ u32 (sticky a d .>> 55) = l /\
    (sticky a d .>> l) .| (sticky a d .& 1) = sticky a (d * 2 ^ l) /\ 2 ^ 54 <= a / (d * 2 ^ l) < 2 ^ 55.
Proof.
  intros Ha Hd Hq. rewrite sticky_top, <- Z.div_div by lia.
  change (2 ^ 56) with (2 * 2 ^ 55) in Hq. pose proof (eq_refl : 2 ^ 55 = 2 * 2 ^ 54) as E55.
  destruct (Z.lt_ge_cases (a / d) (2 ^ 55)) as [H|H].
  - exists 0. rewrite (Z.div_small (a / d)) by lia. split; [by left|]. split; [done|]. rewrite Z.mul_1_r, Z.shiftr_0_r.
    split; [|lia]. apply Z.bits_inj'. intros n Hn. rewrite Z.lor_spec, Z.land_spec. by destruct (Z.testbit (sticky a d) n).
  - exists 1. assert (a / d / 2 ^ 55 = 1) as -> by (symmetry; apply (Z.div_unique_pos _ _ _ (a / d - 2 ^ 55)); lia).
    split; [by right|]. split; [done|]. change (2 ^ 1) with 2. rewrite sticky_half, (Z.mul_comm 2), <- Z.div_div by lia. split; [done|].
    split; [apply Z.div_le_lower_bound; lia|apply Z.div_lt_upper_bound; lia].
Qed.

(** ** Multiplication *)

Lemma mul_sticky p : 0 <= p < 2 ^ 106 ->
  let zlo := u64 p in
  ((zlo .>> 50) .| u64 ((p .>> 64) .<< 14)) .| ((u64 ((zlo .& m50) + m50)) .>> 50) = sticky p (2 ^ 50).
Proof.
  intros Hp. cbv zeta. unfold sticky. change m50 with (2 ^ 50 - 1). rewrite land_low by lia.
  assert (u64 p mod 2 ^ 50 = p mod 2 ^ 50) as ->.
  { rewrite u64_mod. apply Z.mod_mod_divide. by exists (2 ^ 14). }
  pose proof (Z.mod_pos_bound p (2 ^ 50) ltac:(lia)) as M. rewrite (u64_small (_ + _)), carry_bit by lia. f_equal.
  rewrite u64_mod, !shr_div by lia. pose proof (Z.div_mod p (2 ^ 64) ltac:(lia)) as D. pose proof (Z.mod_pos_bound p (2 ^ 64) ltac:(lia)) as M2.
  assert (0 <= p / 2 ^ 64 < 2 ^ 42) by (split; [apply Z.div_pos; lia|apply Z.div_lt_upper_bound; lia]).
  rewrite shl_mul, u64_small by lia. rewrite Z.lor_comm, lor_shifted.
  - rewrite D at 3. replace (2 ^ 64 * (p / 2 ^ 64)) with (p / 2 ^ 64 * 2 ^ 14 * 2 ^ 50) by lia. rewrite Z.div_add_l; lia.
  - lia.
  - split; [apply Z.div_pos; lia|apply Z.div_lt_upper_bound; lia].
Qed.

(** Wrapping inside a wrapped sum is void. *)
Lemma u32_add_l a b : u32 (u32 a + b) = u32 (a + b).
Proof. rewrite !u32_mod. apply Z.add_mod_idemp_l. lia. Qed.
Lemma u32_sub_l a b : u32 (u32 a - b) = u32 (a - b).
Proof. exact (u32_add_l a (- b)). Qed.
Lemma u32_sub_r a b : u32 (a - u32 b) = u32 (a - b).
Proof. rewrite !u32_mod. apply Zminus_mod_idemp_r. Qed.
Lemma i32_u32 a : i32 (u32 a) = i32 a.
Proof. unfold i32. by rewrite u32_add_l. Qed.
Lemma u64_add_l a b : u64 (u64 a + b) = u64 (a + b).
Proof. rewrite !u64_mod. apply Z.add_mod_idemp_l. lia. Qed.
Lemma u64_sub_l a b : u64 (u64 a - b) = u64 (a - b).
Proof. exact (u64_add_l a (- b)). Qed.
Lemma u64_sub_r a b : u64 (a - u64 b) = u64 (a - b).
Proof. rewrite !u64_mod. apply Zminus_mod_idemp_r. Qed.
Lemma i32_add_l a b : i32 (u32 a + b) = i32 (a + b).
Proof. unfold i32. by rewrite <- !Z.add_assoc, u32_add_l. Qed.
Lemma i32_sub_l a b : i32 (u32 a - b) = i32 (a - b).
Proof. exact (i32_add_l a (- b)). Qed.
Create Rewrite HintDb unwrap.
#[export] Hint Rewrite u32_add_l u32_sub_l u32_sub_r i32_u32 i32_add_l i32_sub_l u64_add_l u64_sub_l u64_sub_r : unwrap.

(** A mask made from a word without its top bit is 0. *)
Lemma mask_off z : 0 <= z < 2 ^ 31 -> u32 (i32 z .>> 31) = 0.
Proof. intros Hz. by rewrite i32_small, shr_div, Z.div_small by lia. Qed.

Lemma and_all z : 0 <= z < 2 ^ 64 -> z .& u64 ((0 .& 1) - 1) = z.
Proof. intros Hz. change (u64 _) with (2 ^ 64 - 1). by rewrite land_low, Z.mod_small by lia. Qed.

Lemma normal_product m1 m2 : 2 ^ 52 <= m1 < 2 ^ 53 -> 2 ^ 52 <= m2 < 2 ^ 53 -> 2 ^ 104 <= m1 * m2 < 2 ^ 106.
Proof. change (2 ^ 104) with (2 ^ 52 * 2 ^ 52). change (2 ^ 106) with (2 ^ 53 * 2 ^ 53). intros. nia. Qed.

Lemma emu_mul_rounds x y s1 e1 m1 s2 e2 m2 :
  normal x s1 e1 m1 -> normal y s2 e2 m2 -> -1126 <= e1 + e2 <= 918 ->
  emu_mul x y = round_frac (s1 .^ s2) (m1 * m2) 1 (e1 + e2).
Proof.
  intros Hx Hy He. pose proof (normal_product _ _ (nm_sig _ _ _ _ Hx) (nm_sig _ _ _ _ Hy)) as Hp.
  pose proof (nm_exp _ _ _ _ Hx). pose proof (nm_exp _ _ _ _ Hy).
  unfold emu_mul. cbv zeta.
  rewrite (normal_sig _ _ _ _ Hx), (normal_sig _ _ _ _ Hy), (normal_exponent32 _ _ _ _ Hx), (normal_exponent32 _ _ _ _ Hy).
  rewrite (xor_sign _ _ _ _ _ _ _ _ Hx Hy), mul_sticky by lia.
  destruct (fold_top (m1 * m2) (2 ^ 50)) as (l & Hl & -> & -> & Hr); [lia|lia| |].
  { split; [apply Z.div_le_lower_bound; lia|apply Z.div_lt_upper_bound; lia]. }
  rewrite mask_off. 2:{ apply lor_lt_pow2; [lia|split; rewrite u32_small; lia..]. }
  rewrite Z.land_0_l, Z.lxor_0_r, and_all.
  2:{ pose proof (sticky_range (m1 * m2) (2 ^ 50 * 2 ^ l) 54). lia. }
  rewrite <- (round_frac_sticky _ _ 1 _ (50 + l)); rewrite ?Z.mul_1_l, ?Z.pow_add_r; try lia.
  pose proof (sticky_range (m1 * m2) (2 ^ 50 * 2 ^ l) 54 ltac:(lia) ltac:(lia) ltac:(lia) Hr).
  autorewrite with unwrap. rewrite i32_small, f64_build_spec by (try apply (sign_xor _ _ (nm_sign _ _ _ _ Hx) (nm_sign _ _ _ _ Hy)); lia).
  f_equal. lia.
Qed.

(** ** Division *)

(** The borrow of a 64-bit difference, as the code tests it. *)
Lemma borrow64 a b : 0 <= a < 2 ^ 63 -> 0 <= b < 2 ^ 63 ->
  u64 ((u64 (a - b) .>> 63) - 1) = if b <=? a then 2 ^ 64 - 1 else 0.
Proof.
  intros Ha Hb. rewrite shr_div by lia. destruct (Z.leb_spec b a) as [H|H].
  - rewrite (u64_small (a - b)), Z.div_small by lia. reflexivity.
  - assert (u64 (a - b) = a - b + 2 ^ 64) as -> by (rewrite u64_mod; symmetry; apply (Z.mod_unique_pos _ _ (-1)); lia).
    replace ((a - b + 2 ^ 64) / 2 ^ 63) with 1 by (apply (Z.div_unique_pos _ _ _ (a - b + 2 ^ 63)); lia). reflexivity.
Qed.

Lemma mask64 (b : bool) y : 0 <= y < 2 ^ 64 -> (if b then 2 ^ 64 - 1 else 0) .& y = if b then y else 0.
Proof. intros Hy. destruct b; [rewrite Z.land_comm, land_low, Z.mod_small; lia|apply Z.land_0_l]. Qed.

Lemma mask64_r (b : bool) y : 0 <= y < 2 ^ 64 -> y .& (if b then 2 ^ 64 - 1 else 0) = if b then y else 0.
Proof. rewrite Z.land_comm. apply mask64. Qed.

Lemma nonzero_bit x : 0 <= x < 2 ^ 64 -> (x .| u64 (- x)) .>> 63 = if x =? 0 then 0 else 1.
Proof.
  intros Hx. destruct (Z.eqb_spec x 0) as [->|Hn]; [done|]. rewrite Z.shiftr_lor, !shr_div by lia.
  assert (u64 (- x) = 2 ^ 64 - x) as -> by (rewrite u64_mod; symmetry; apply (Z.mod_unique_pos _ _ (-1)); lia).
  assert (forall a, 0 <= a < 2 ^ 64 -> a / 2 ^ 63 = if a <? 2 ^ 63 then 0 else 1) as Ha.
  { intros a Hr. destruct (Z.ltb_spec a (2 ^ 63)); [apply Z.div_small; lia|]. symmetry. apply (Z.div_unique_pos _ _ _ (a - 2 ^ 63)); lia. }
  rewrite !Ha by lia. do 2 case_match; try done; lia.
Qed.

Definition div_inv (x y : Z) (i : nat) (st : Z * Z) : Prop :=
  let '(q, r) := st in q * y + r = 2 ^ Z.of_nat i * x /\ 0 <= r < 2 * y /\ 0 <= q /\ Z.even q = true.

Lemma div_loop x y : 2 ^ 52 <= x < 2 ^ 53 -> 2 ^ 52 <= y < 2 ^ 53 ->
  div_inv x y 55 (for_ 55 (fun _ '(q, xu) =>
    let b := u64 ((u64 (xu - y) .>> 63) - 1) in
    let xu := u64 (xu - (b .& y)) in
    let q := q .| (b .& 1) in
    (u64 (q .<< 1), u64 (xu .<< 1))) (0, x)).
Proof.
  intros Hx Hy. apply (for_ind (div_inv x y)); [cbn; lia|]. intros i [q r] Hi (He & Hr & Hq & Hev). cbv zeta.
  rewrite borrow64, !mask64, lor_bit, Hev by (try (destruct (y <=? r)); lia).
  assert (2 ^ Z.of_nat i <= 2 ^ 54) as Hp by (apply Z.pow_le_mono_r; lia).
  assert (q <= 2 ^ 55) by nia.
  rewrite (u64_small (r - _)), !shl_mul, !u64_small by (destruct (Z.leb_spec y r); lia). change (2 ^ 1) with 2.
  unfold div_inv. rewrite Nat2Z.inj_succ, Z.pow_succ_r, Z.even_mul, orb_true_r by lia.
  destruct (Z.leb_spec y r); lia.
Qed.

Lemma div_sticky x y q r : 0 < y -> 0 <= x -> div_inv x y 55 (q, r) -> q .| (if r =? 0 then 0 else 1) = sticky (2 ^ 55 * x) y.
Proof.
  intros Hy Hx (He & Hr & Hq & Hev). change (Z.of_nat 55) with 55 in He. unfold sticky. rewrite lor_bit, Hev by (case_match; lia).
  assert (Z.even (q + 1) = false) as Ho by (by rewrite Z.even_add, Hev).
  destruct (Z.lt_ge_cases r y) as [H|H].
  - assert (2 ^ 55 * x / y = q /\ (2 ^ 55 * x) mod y = r) as [-> ->].
    { split; symmetry; [apply (Z.div_unique_pos _ _ _ r)|apply (Z.mod_unique_pos _ _ q)]; lia. }
    by rewrite lor_bit, Hev by (case_match; lia).
  - assert (2 ^ 55 * x / y = q + 1) as -> by (symmetry; apply (Z.div_unique_pos _ _ _ (r - y)); lia).
    rewrite lor_bit, Ho by (case_match; lia). destruct (Z.eqb_spec r 0); lia.
Qed.

Lemma emu_div_rounds x y s1 e1 m1 s2 e2 m2 :
  normal x s1 e1 m1 -> normal y s2 e2 m2 -> -1021 <= e1 - e2 <= 1023 ->
  f64_div x y = round_frac (s1 .^ s2) (2 ^ 55 * m1) m2 (e1 - e2 - 55).
Proof.
  intros Hx Hy He. pose proof (nm_sig _ _ _ _ Hx) as Hm1. pose proof (nm_sig _ _ _ _ Hy) as Hm2.
  pose proof (nm_exp _ _ _ _ Hx). pose proof (nm_exp _ _ _ _ Hy).
  unfold f64_div. cbv zeta.
  rewrite (normal_sig _ _ _ _ Hx), (normal_sig _ _ _ _ Hy), (normal_exponent32 _ _ _ _ Hx), (normal_exponent32 _ _ _ _ Hy).
  rewrite (xor_sign _ _ _ _ _ _ _ _ Hx Hy).
  pose proof (div_loop m1 m2 Hm1 Hm2) as L. cbv zeta in L. destruct (for_ 55 _ (0, m1)) as [q r] eqn:E.
  clear E. assert (0 <= r < 2 ^ 64) as Hr by (destruct L as (_ & Hr & _); lia).
  rewrite nonzero_bit, (div_sticky m1 m2 q r ltac:(lia) ltac:(lia) L) by lia.
  destruct (fold_top (2 ^ 55 * m1) m2) as (l & Hl & -> & -> & Hq); [lia|lia| |].
  { rewrite pow2_52, pow2_53 in *. split; [apply Z.div_le_lower_bound; lia|apply Z.div_lt_upper_bound; lia]. }
  assert (0 < m2 * 2 ^ l) as Hd by (destruct Hl as [->| ->]; lia).
  pose proof (sticky_range (2 ^ 55 * m1) (m2 * 2 ^ l) 54 ltac:(lia) Hd ltac:(lia) Hq).
  rewrite mask_off, Z.land_0_l, Z.lxor_0_r by (rewrite u32_small; lia).
  assert (s1 .^ s2 = 0 \/ s1 .^ s2 = 1) as Hs by apply (sign_xor _ _ (nm_sign _ _ _ _ Hx) (nm_sign _ _ _ _ Hy)).
  rewrite !and_all by lia.
  rewrite <- (round_frac_sticky _ _ _ _ l) by lia.
  autorewrite with unwrap. rewrite i32_small, f64_build_spec by (try apply Hs; lia).
  f_equal. lia.
Qed.

(** ** Leading zeros *)

(** One step of the search halves the width. *)
Lemma lzcnt_step w x : 0 < w <= 16 -> 0 < x < 2 ^ (2 * w) ->
  let small := x <? 2 ^ w in
  let m := (x .>> w -% 1) .>> w in
  let x' := (x .>> w) .| (m .& x) in
  m .& w = (if small then w else 0) /\ x' = (if small then x else x / 2 ^ w) /\
  0 < x' < 2 ^ w /\ Z.log2 x = (if small then 0 else w) + Z.log2 x'.
Proof.
  intros Hw Hx. cbv zeta. assert (2 ^ (2 * w) = 2 ^ w * 2 ^ w) as E2 by (rewrite <- Z.pow_add_r by lia; f_equal; lia).
  assert (w < 2 ^ w <= 2 ^ 16) as Hp by (split; [apply Z.pow_gt_lin_r; lia|apply Z.pow_le_mono_r; lia]).
  assert (2 ^ 16 <= 2 ^ (32 - w)) as Hq by (apply Z.pow_le_mono_r; lia).
  rewrite !(shr_div _ w) by lia. destruct (Z.ltb_spec x (2 ^ w)) as [H|H].
  - rewrite (Z.div_small x) by lia. change (0 -% 1) with (2 ^ 32 - 1).
    assert ((2 ^ 32 - 1) / 2 ^ w = 2 ^ (32 - w) - 1) as ->.
    { symmetry. apply (Z.div_unique_pos _ _ _ (2 ^ w - 1)); [lia|]. replace 32 with (32 - w + w) at 1 by lia. rewrite Z.pow_add_r by lia. lia. }
    rewrite !(Z.land_comm (2 ^ (32 - w) - 1)), !land_low, !Z.mod_small, Z.lor_0_l by lia. lia.
  - assert (1 <= x / 2 ^ w < 2 ^ w) as Hd by (split; [apply Z.div_le_lower_bound; lia|apply Z.div_lt_upper_bound; lia]).
    rewrite (u32_small (_ - 1)), (Z.div_small (_ - 1)), !Z.land_0_l, Z.lor_0_r by lia. split; [done|]. split; [done|]. split; [lia|].
    rewrite <- shr_div, Z.log2_shiftr by lia. assert (w <= Z.log2 x) by (apply Z.log2_le_pow2; lia). lia.
Qed.

Lemma lor_steps (b5 b4 b3 b2 b1 : bool) :
  (if b5 then 32 else 0) .| (if b4 then 16 else 0) .| (if b3 then 8 else 0) .| (if b2 then 4 else 0) .| (if b1 then 2 else 0) =
  (if b5 then 32 else 0) + (if b4 then 16 else 0) + (if b3 then 8 else 0) + (if b2 then 4 else 0) + (if b1 then 2 else 0).
Proof. by destruct b5, b4, b3, b2, b1. Qed.

Lemma lzcnt_first x : 0 < x < 2 ^ 64 ->
  let small := x <? 2 ^ 32 in
  let m := u32 (u64 (x .>> 32 - 1) .>> 32) in
  let x' := u32 (x .>> 32) .| (m .& u32 x) in
  m .& 0x20 = (if small then 32 else 0) /\ 0 < x' < 2 ^ 32 /\ Z.log2 x = (if small then 0 else 32) + Z.log2 x'.
Proof.
  intros Hx. cbv zeta. rewrite !(shr_div _ 32) by lia. destruct (Z.ltb_spec x (2 ^ 32)) as [H|H].
  - rewrite (Z.div_small x) by lia. change (u32 (u64 (0 - 1) / 2 ^ 32)) with (2 ^ 32 - 1). rewrite (u32_small x) by lia.
    change (u32 0) with 0. rewrite Z.lor_0_l, (Z.land_comm _ x), land_low, Z.mod_small by lia. split; [done|lia].
  - assert (1 <= x / 2 ^ 32 < 2 ^ 32) as Hd by (split; [apply Z.div_le_lower_bound; lia|apply Z.div_lt_upper_bound; lia]).
    rewrite (u64_small (_ - 1)), (Z.div_small (_ - 1)), (u32_small (x / _)) by lia. change (u32 0) with 0.
    rewrite !Z.land_0_l, Z.lor_0_r. split; [done|]. split; [lia|].
    rewrite <- shr_div, Z.log2_shiftr by lia. assert (32 <= Z.log2 x) by (apply Z.log2_le_pow2; lia). lia.
Qed.

Lemma lzcnt_spec x : 0 < x < 2 ^ 64 -> lzcnt_nonzero x = 63 - Z.log2 x.
Proof.
  intros Hx. unfold lzcnt_nonzero. cbv zeta.
  destruct (lzcnt_first x Hx) as (-> & H4 & ->). cbv zeta in *. set (x4 := u32 (x .>> 32) .| _) in *. clearbody x4.
  destruct (lzcnt_step 16 x4 ltac:(lia) H4) as (-> & _ & H3 & ->). cbv zeta in *. set (x3 := (x4 .>> 16) .| _) in *. clearbody x3.
  destruct (lzcnt_step 8 x3 ltac:(lia) H3) as (-> & _ & H2 & ->). cbv zeta in *. set (x2 := (x3 .>> 8) .| _) in *. clearbody x2.
  destruct (lzcnt_step 4 x2 ltac:(lia) H2) as (-> & _ & H1 & ->). cbv zeta in *. set (x1 := (x2 .>> 4) .| _) in *. clearbody x1.
  destruct (lzcnt_step 2 x1 ltac:(lia) H1) as (-> & _ & H0 & ->). cbv zeta in *. set (x0 := (x1 .>> 2) .| _) in *. clearbody x0.
  rewrite lor_steps. assert (x0 .>> 1 = Z.log2 x0 /\ 0 <= Z.log2 x0 <= 1) as [-> Hl].
  { change (2 ^ 2) with 4 in H0. assert (x0 = 1 \/ x0 = 2 \/ x0 = 3) as [->|[->| ->]] by lia; (split; [done|split; vm_compute; discriminate]). }
  rewrite u32_sub_l, u32_small by (repeat case_match; lia). repeat case_match; lia.
Qed.

(** Normalisation keeps the value and brings the top bit to bit 63. *)
Lemma norm64_spec m e : 0 < m < 2 ^ 64 -> -2 ^ 30 <= e < 2 ^ 30 ->
  exists c, 0 <= c /\ c = 63 - Z.log2 m /\ norm64 m e = (m * 2 ^ c, e - c) /\ 2 ^ 63 <= m * 2 ^ c < 2 ^ 64.
Proof.
  intros Hm He. exists (63 - Z.log2 m). unfold norm64. cbv zeta.
  assert (0 <= Z.log2 m < 64) as Hl by (split; [apply Z.log2_nonneg|apply Z.log2_lt_pow2; lia]).
  assert (Z.log2 (m .| 1) = Z.log2 m) as Hlog by (rewrite Z.log2_lor by lia; change (Z.log2 1) with 0; lia).
  assert (0 < m .| 1 < 2 ^ 64) as Hor.
  { assert (0 <= m .| 1 < 2 ^ 64) by (apply lor_lt_pow2; lia). rewrite lor_bit in * by lia. case_match; lia. }
  rewrite lzcnt_spec, Hlog by done. pose proof (Z.log2_spec m ltac:(lia)) as [L1 L2]. rewrite Z.pow_succ_r in L2 by lia.
  assert (2 ^ Z.log2 m * 2 ^ (63 - Z.log2 m) = 2 ^ 63) as E by (rewrite <- Z.pow_add_r by lia; f_equal; lia).
  assert (0 < 2 ^ (63 - Z.log2 m)) by (apply Z.pow_pos_nonneg; lia).
  assert (2 ^ 63 <= m * 2 ^ (63 - Z.log2 m) < 2 ^ 64) as Hr by (change (2 ^ 64) with (2 * 2 ^ 63); rewrite <- E; nia).
  split; [lia|]. split; [done|]. split; [|done]. unfold ulsh. rewrite shl_mul, u64_small, i32_small by lia. done.
Qed.

Lemma norm64_zero e : -2 ^ 30 <= e < 2 ^ 30 -> norm64 0 e = (0, e - 63).
Proof. intros He. unfold norm64. cbv zeta. change (lzcnt_nonzero (0 .| 1)) with 63. rewrite i32_small by lia. done. Qed.

(** ** Scaling a fraction *)

Lemma rne_scale a b t : 0 < b -> 0 < t -> rne (a * t) (b * t) = rne a b.
Proof.
  intros Hb Ht. unfold rne. rewrite Z.div_mul_cancel_r, Z.mul_mod_distr_r by lia.
  assert (forall x y, (x * t <? y * t) = (x <? y)) as E by (intros x y; destruct (Z.ltb_spec (x * t) (y * t)), (Z.ltb_spec x y); try done; nia).
  by rewrite Z.mul_assoc, !E.
Qed.

Lemma log2_scale a b c : 0 < b -> 0 <= c -> 1 <= a / b -> Z.log2 (a * 2 ^ c / b) = Z.log2 (a / b) + c.
Proof.
  intros Hb Hc Hq. pose proof (Z.log2_spec (a / b) ltac:(lia)) as [L1 L2]. pose proof (Z.log2_nonneg (a / b)).
  pose proof (Z.div_mod a b ltac:(lia)). pose proof (Z.mod_pos_bound a b Hb). pose proof (Z.pow_pos_nonneg 2 c ltac:(lia) Hc).
  apply Z.log2_unique; [lia|]. rewrite <- Z.add_succ_l, !Z.pow_add_r by lia.
  set (P := 2 ^ Z.log2 (a / b)) in *. set (Q := 2 ^ Z.succ _) in *. clearbody P Q.
  assert (b * P <= a < b * Q) by nia. split; [apply Z.div_le_lower_bound; nia|apply Z.div_lt_upper_bound; nia].
Qed.

Lemma round_frac_scale s a b e c : 0 < b -> 0 <= c -> 1 <= a / b -> round_frac s (a * 2 ^ c) b (e - c) = round_frac s a b e.
Proof.
  intros Hb Hc Hq. unfold round_frac. cbv zeta. rewrite log2_scale by done. set (k := Z.log2 (a / b) - 52).
  replace (Z.log2 (a / b) + c - 52) with (k + c) by lia. f_equal; [lia|]. clearbody k.
  destruct (Z.leb_spec (k + c) 0), (Z.leb_spec k 0); try lia.
  - f_equal. rewrite <- Z.mul_assoc, <- Z.pow_add_r by lia. do 2 f_equal. lia.
  - pose proof (Z.pow_pos_nonneg 2 (k + c) ltac:(lia) ltac:(lia)). rewrite <- (rne_scale (a * 2 ^ (- k)) b (2 ^ (k + c))) by lia.
    f_equal. rewrite <- Z.mul_assoc, <- Z.pow_add_r by lia. do 2 f_equal. lia.
  - pose proof (Z.pow_pos_nonneg 2 k ltac:(lia) ltac:(lia)). pose proof (Z.pow_pos_nonneg 2 c ltac:(lia) ltac:(lia)).
    rewrite Z.pow_add_r, Z.mul_assoc, rne_scale by nia. done.
Qed.

(** ** Integers *)

Lemma low_sticky a k : 0 <= k <= 62 -> 0 <= a -> (a .| u64 ((a .& (2 ^ k - 1)) + (2 ^ k - 1))) .>> k = sticky a (2 ^ k).
Proof.
  intros Hk Ha. pose proof (Z.pow_pos_nonneg 2 k ltac:(lia) ltac:(lia)). assert (2 ^ k <= 2 ^ 62) by (apply Z.pow_le_mono_r; lia).
  rewrite land_low by lia. pose proof (Z.mod_pos_bound a (2 ^ k) ltac:(lia)).
  rewrite u64_small, Z.shiftr_lor, carry_bit, shr_div by lia. done.
Qed.

Lemma lxor_all x : 0 <= x < 2 ^ 64 -> x .^ (2 ^ 64 - 1) = 2 ^ 64 - 1 - x.
Proof. exact (lxor_ones64 x). Qed.

(** Conditional negation with a mask. *)
Lemma negate_if (b : bool) x : 0 <= x < 2 ^ 64 ->
  let s := if b then 2 ^ 64 - 1 else 0 in u64 ((x .^ s) - s) = if b then u64 (- x) else x.
Proof.
  intros Hx. cbv zeta. destruct b.
  - rewrite lxor_all by done. rewrite !u64_mod. replace (2 ^ 64 - 1 - x - (2 ^ 64 - 1)) with (- x) by lia. done.
  - by rewrite Z.lxor_0_r, Z.sub_0_r, u64_small.
Qed.

Lemma sign_word i : - 2 ^ 63 <= i < 2 ^ 63 -> u64 (i .>> 63) = if i <? 0 then 2 ^ 64 - 1 else 0.
Proof.
  intros Hi. rewrite shr_div by lia. destruct (Z.ltb_spec i 0).
  - replace (i / 2 ^ 63) with (-1) by (apply (Z.div_unique_pos _ _ _ (i + 2 ^ 63)); lia). done.
  - by rewrite Z.div_small by lia.
Qed.

Lemma abs_word i : - 2 ^ 63 < i < 2 ^ 63 ->
  let s := u64 (i .>> 63) in u64 ((u64 i .^ s) - s) = Z.abs i.
Proof.
  intros Hi. cbv zeta. rewrite sign_word, negate_if by (rewrite ?u64_mod; try apply Z.mod_pos_bound; lia).
  rewrite !u64_mod. destruct (Z.ltb_spec i 0).
  - rewrite Z.abs_neq by lia. replace (i mod 2 ^ 64) with (i + 2 ^ 64) by (apply (Z.mod_unique_pos _ _ (-1)); lia).
    symmetry. apply (Z.mod_unique_pos _ _ (-1)); lia.
  - rewrite Z.mod_small; lia.
Qed.

Definition sign_of (i : Z) : Z := if i <? 0 then 1 else 0.

Lemma build_z_sign i e m : - 2 ^ 63 <= i < 2 ^ 63 -> f64_build_z (u64 (i .>> 63)) e m = f64_build_z (sign_of i) e m.
Proof. intros Hi. rewrite sign_word by done. unfold sign_of. by destruct (i <? 0). Qed.

Lemma build_sticky s a e : s = 0 \/ s = 1 -> 2 ^ 63 <= a < 2 ^ 64 -> -1085 <= e <= 960 ->
  f64_build_z s (e + 9) ((a .| u64 ((a .& 0x1FF) + 0x1FF)) .>> 9) = round_frac s a 1 e.
Proof.
  intros Hs Ha He. change 0x1FF with (2 ^ 9 - 1). rewrite low_sticky by lia.
  assert (2 ^ 54 <= a / 2 ^ 9 < 2 ^ 55) as Hq by (split; [apply Z.div_le_lower_bound; lia|apply Z.div_lt_upper_bound; lia]).
  rewrite f64_build_z_spec; [|done|lia|apply (sticky_range a (2 ^ 9) 54); lia].
  rewrite <- (round_frac_sticky s a 1 e 9); rewrite ?Z.mul_1_l; try lia; done.
Qed.

(** Normalise, fold and build: the common end of conversion and addition. *)
Definition norm_build (s z e : Z) : Z :=
  let '(z, e) := norm64 z e in
  f64_build_z s (i32 (e + 9)) ((z .| u64 ((z .& 0x1FF) + 0x1FF)) .>> 9).

Lemma norm_build_rounds s z e : s = 0 \/ s = 1 -> 0 < z < 2 ^ 64 -> -1022 <= e -> e + Z.log2 z <= 1023 ->
  norm_build s z e = round_frac s z 1 e.
Proof.
  intros Hs Hz He Hl. unfold norm_build. pose proof (Z.log2_nonneg z).
  destruct (norm64_spec z e) as (c & Hc & Ec & -> & Hr); [lia|lia|].
  rewrite i32_small, build_sticky by (try done; lia). apply round_frac_scale; rewrite ?Z.div_1_r; lia.
Qed.

Lemma norm_build_zero s e : s = 0 \/ s = 1 -> -2 ^ 30 <= e < 2 ^ 30 -> norm_build s 0 e = s * 2 ^ 63.
Proof. intros Hs He. unfold norm_build. rewrite norm64_zero by done. by apply f64_build_z_zero. Qed.

Lemma f64_scaled_rounds i sc : - 2 ^ 63 < i < 2 ^ 63 -> i <> 0 -> -1022 <= sc <= 960 ->
  f64_scaled i sc = round_frac (sign_of i) (Z.abs i) 1 sc.
Proof.
  intros Hi H0 Hs. unfold f64_scaled. cbv zeta. rewrite abs_word by done.
  assert (Z.log2 (Z.abs i) < 63) by (apply Z.log2_lt_pow2; lia).
  rewrite <- norm_build_rounds by (try lia; unfold sign_of; case_match; tauto).
  unfold norm_build. destruct (norm64 _ sc) as [z e]. apply build_z_sign. lia.
Qed.

Lemma f64_scaled_zero sc : -2 ^ 30 <= sc < 2 ^ 30 -> f64_scaled 0 sc = 0.
Proof. intros Hs. unfold f64_scaled. cbv zeta. change (u64 (u64 0 .^ u64 (0 .>> 63) - u64 (0 .>> 63))) with 0. rewrite norm64_zero by done. by apply f64_build_z_zero; left. Qed.

(** ** Square root *)

(** The integer nearest to the square root of n. *)
Definition root (n : Z) : Z := let q := Z.sqrt n in if n - q * q <=? q then q else q + 1.

Lemma root_spec n : 0 < n -> (2 * root n - 1) * (2 * root n - 1) < 4 * n < (2 * root n + 1) * (2 * root n + 1).
Proof.
  intros Hn. unfold root. cbv zeta. pose proof (Z.sqrt_spec n ltac:(lia)) as [S1 S2]. pose proof (Z.sqrt_pos n) as [_ P].
  set (q := Z.sqrt n) in *. clearbody q. destruct (Z.leb_spec (n - q * q) q); nia.
Qed.

Lemma root_sticky n : 0 <= n ->
  let q := Z.sqrt (4 * n) in rne ((2 * q) .| (if 4 * n - q * q =? 0 then 0 else 1)) 4 = root n.
Proof.
  intros Hn. cbv zeta. pose proof (Z.sqrt_spec (4 * n) ltac:(lia)) as [S1 S2]. pose proof (Z.sqrt_nonneg (4 * n)).
  set (q := Z.sqrt (4 * n)) in *. clearbody q. unfold root. cbv zeta.
  rewrite lor_bit, Z.even_mul by (case_match; lia). cbn [Z.even orb].
  pose proof (Z.div_mod q 2 ltac:(lia)) as D. pose proof (Z.mod_pos_bound q 2 ltac:(lia)) as M.
  set (h := q / 2) in *. assert (q = 2 * h \/ q = 2 * h + 1) as Hq by lia. clearbody h. clear D M.
  assert (Z.sqrt n = h) as -> by (apply Z.sqrt_unique; destruct Hq; subst q; nia).
  unfold rne. cbv zeta. destruct Hq; subst q.
  - set (t := if 4 * n - _ =? 0 then 0 else 1). assert (0 <= t <= 1) as Ht by (subst t; case_match; lia). clearbody t.
    assert ((2 * (2 * h) + t) / 4 = h /\ (2 * (2 * h) + t) mod 4 = t) as [-> ->].
    { split; symmetry; [apply (Z.div_unique_pos _ _ _ t)|apply (Z.mod_unique_pos _ _ h)]; lia. }
    destruct (Z.ltb_spec (2 * t) 4); [|lia]. destruct (Z.leb_spec (n - h * h) h); [done|nia].
  - destruct (Z.eqb_spec (4 * n - (2 * h + 1) * (2 * h + 1)) 0) as [E|E]; [lia|].
    assert ((2 * (2 * h + 1) + 1) / 4 = h /\ (2 * (2 * h + 1) + 1) mod 4 = 3) as [-> ->].
    { split; symmetry; [apply (Z.div_unique_pos _ _ _ 3)|apply (Z.mod_unique_pos _ _ h)]; lia. }
    cbn [Z.ltb Z.mul Z.compare Pos.mul Pos.compare Pos.compare_cont]. destruct (Z.leb_spec (n - h * h) h); [nia|done].
Qed.

Definition sqrt_inv (x : Z) (i : nat) (st : Z * Z * Z * Z) : Prop :=
  let '(q, s, u, r) := st in let w := 2 ^ (54 - Z.of_nat i) in
  r = 2 ^ 53 .>> Z.of_nat i /\ s = 2 * q /\ 0 <= q /\ 0 <= u /\ q + w <= 2 ^ 54 /\
  u * w = 2 ^ 54 * x - 2 * (q * q) /\ 2 ^ 53 * x < (q + w) * (q + w).

Lemma sqrt_loop x : 2 ^ 53 <= x < 2 ^ 55 ->
  sqrt_inv x 54 (for_ 54 (fun _ '(q, s, xu, r) =>
    let t := u64 (s + r) in
    let b := u64 ((u64 (xu - t) .>> 63) - 1) in
    let s := u64 (s + (b .& u64 (r .<< 1))) in
    let xu := u64 (xu - (t .& b)) in
    let q := u64 (q + (r .& b)) in
    let xu := u64 (xu .<< 1) in
    let r := r .>> 1 in
    (q, s, xu, r)) (0, 0, x, b53)).
Proof.
  intros Hx. apply (for_ind (sqrt_inv x)).
  { unfold sqrt_inv. change (54 - Z.of_nat 0) with 54. change (2 ^ 53 .>> Z.of_nat 0) with (2 ^ 53). change b53 with (2 ^ 53). lia. }
  intros i [[[q s] u] r] Hi (-> & -> & Hq & Hu & Hw & He & Hb). unfold sqrt_inv. cbv zeta.
  assert (2 ^ (54 - Z.of_nat i) = 2 * 2 ^ (53 - Z.of_nat i)) as E by (rewrite <- Z.pow_succ_r by lia; f_equal; lia).
  assert (2 ^ 53 .>> Z.of_nat i = 2 ^ (53 - Z.of_nat i)) as Er by (rewrite shr_div, Z.pow_sub_r by lia; done).
  assert (2 ^ 53 .>> Z.of_nat i .>> 1 = 2 ^ 53 .>> Z.of_nat (S i)) as -> by (rewrite Z.shiftr_shiftr by lia; f_equal; lia).
  replace (54 - Z.of_nat (S i)) with (53 - Z.of_nat i) by lia. rewrite E, Er in *.
  set (r := 2 ^ (53 - Z.of_nat i)) in *. assert (1 <= r <= 2 ^ 53) as Hr.
  { subst r. split; [apply (Z.pow_le_mono_r 2 0); lia|apply Z.pow_le_mono_r; lia]. }
  clearbody r. assert (u < 2 ^ 57) as Hu2.
  { assert (u * r < (2 * q + 2 * r) * r * 2) by lia. apply (Z.mul_lt_mono_pos_r r); [lia|]. assert ((2 * q + 2 * r) * r <= 2 ^ 56 * r) by (apply Z.mul_le_mono_nonneg_r; lia). lia. }
  rewrite (u64_small (2 * q + r)), borrow64, !mask64_r, !shl_mul by lia. change (2 ^ 1) with 2.
  rewrite (u64_small (r * 2)), !mask64 by lia.
  destruct (Z.leb_spec (2 * q + r) u) as [H|H].
  - rewrite (u64_small (_ - _)), !u64_small by lia. repeat split; lia.
  - assert (u * r < (2 * q + r) * r) by (apply Z.mul_lt_mono_pos_r; lia).
    rewrite (u64_small (_ - _)), !u64_small by lia. repeat split; lia.
Qed.

Lemma sqrt_loop_end x q s u r : 2 ^ 53 <= x -> sqrt_inv x 54 (q, s, u, r) ->
  q = Z.sqrt (2 ^ 53 * x) /\ u = 2 * (2 ^ 53 * x - q * q) /\ 0 <= u < 2 ^ 63 /\ 2 ^ 53 <= q < 2 ^ 54.
Proof.
  intros Hx (_ & _ & Hq & Hu & Hw & He & Hb). change (2 ^ (54 - Z.of_nat 54)) with 1 in *.
  assert (q = Z.sqrt (2 ^ 53 * x)) as E by (symmetry; apply Z.sqrt_unique; lia).
  split; [done|]. split; [lia|]. split; [lia|]. split; [|lia]. rewrite E. apply Z.sqrt_le_square; lia.
Qed.

Lemma emu_sqrt_rounds x e m : normal x 0 e m ->
  emu_sqrt x = pack 0 (e / 2 - 26) (root (m * 2 ^ (52 + e mod 2))).
Proof.
  intros Hx. pose proof (nm_sig _ _ _ _ Hx) as Hm. pose proof (nm_exp _ _ _ _ Hx) as He.
  pose proof (Z.div_mod e 2 ltac:(lia)) as D. pose proof (Z.mod_pos_bound e 2 ltac:(lia)) as M.
  unfold emu_sqrt. cbv zeta. rewrite (normal_sig _ _ _ _ Hx), (normal_exponent32 _ _ _ _ Hx).
  rewrite (i32_small (e + 1075 - 1023)), (shr_div _ 1) by lia. change (2 ^ 1) with 2.
  assert (u32 (e + 1075 - 1023) .& 1 = e mod 2) as ->.
  { change 1 with (2 ^ 1 - 1). rewrite land_low, u32_mod by lia. change (2 ^ 1) with 2. replace (e + 1075 - 1023) with (e + 26 * 2) by lia.
    rewrite <- (Z.mod_add e 26 2) by lia. apply Z.mod_mod_divide. by exists (2 ^ 31). }
  assert ((e + 1075 - 1023) / 2 = e / 2 + 26) as -> by (symmetry; apply (Z.div_unique_pos _ _ _ (e mod 2)); lia).
  assert (u64 (m + (m .& u64 (- (e mod 2)))) = m * 2 ^ (e mod 2)) as ->.
  { assert (e mod 2 = 0 \/ e mod 2 = 1) as [->| ->] by lia.
    - rewrite Z.land_0_r, u64_small; lia.
    - change (u64 (- (1))) with (2 ^ 64 - 1). rewrite land_low, Z.mod_small, u64_small; lia. }
  set (y := u64 ((m * 2 ^ (e mod 2)) .<< 1)). assert (y = 2 * (m * 2 ^ (e mod 2)) /\ 2 ^ 53 <= y < 2 ^ 55) as [Ey Hy].
  { subst y. rewrite shl_mul by lia. assert (e mod 2 = 0 \/ e mod 2 = 1) as [->| ->] by lia; rewrite u64_small; lia. }
  pose proof (sqrt_loop y Hy) as L. cbv zeta in L. destruct (for_ 54 _ (0, 0, y, b53)) as [[[q s] u] r] eqn:E. clear E.
  destruct (sqrt_loop_end _ _ _ _ _ (proj1 Hy) L) as (Eq & Eu & Hu & Hq).
  rewrite shl_mul, (u64_small (q * _)), nonzero_bit by lia. change (2 ^ 1) with 2.
  assert ((e + 1075 +% 0x7FF) .>> 11 = 1) as ->.
  { rewrite u32_small, shr_div by lia. symmetry. apply (Z.div_unique_pos _ _ _ (e + 1074)); lia. }
  change (u64 (- (1))) with (2 ^ 64 - 1).
  assert (2 ^ 53 * y = 4 * (m * 2 ^ (52 + e mod 2))) as EN by (rewrite Z.pow_add_r by lia; lia). rewrite EN in *.
  assert ((u =? 0) = (4 * (m * 2 ^ (52 + e mod 2)) - q * q =? 0)) as -> by (destruct (Z.eqb_spec u 0), (Z.eqb_spec (4 * (m * 2 ^ (52 + e mod 2)) - q * q) 0); lia).
  pose proof (root_sticky (m * 2 ^ (52 + e mod 2)) ltac:(lia)) as R. cbv zeta in R. rewrite <- Eq, (Z.mul_comm 2) in R.
  set (z := (q * 2) .| _) in *. assert (2 ^ 54 <= z < 2 ^ 55) as Hz.
  { subst z. rewrite lor_bit, Z.even_mul, orb_true_r by (case_match; lia). case_match; lia. }
  rewrite land_low, Z.mod_small, i32_small, f64_build_z_spec, R by (try (left; done); lia). f_equal. lia.
Qed.

(** ** Zeros, signs and halves *)

Lemma mask_on z : 2 ^ 31 <= z < 2 ^ 32 -> u32 (i32 z .>> 31) = 2 ^ 32 - 1.
Proof.
  intros Hz. assert (i32 z = z - 2 ^ 32) as ->.
  { unfold i32. rewrite u32_mod. replace ((z + 2147483648) mod 2 ^ 32) with (z - 2 ^ 31); [lia|]. apply (Z.mod_unique_pos _ _ 1); lia. }
  rewrite shr_div by lia. replace ((z - 2 ^ 32) / 2 ^ 31) with (-1) by (apply (Z.div_unique_pos _ _ _ (z - 2 ^ 31)); lia). done.
Qed.

(** Once a factor has exponent 0 the product is a zero of the right sign. *)
Lemma emu_mul_zero x y : 0 <= x < 2 ^ 64 -> 0 <= y < 2 ^ 64 ->
  u32 (x .>> 52) .& 0x7FF = 0 \/ u32 (y .>> 52) .& 0x7FF = 0 -> emu_mul x y = ((x .^ y) .>> 63) * 2 ^ 63.
Proof.
  intros Hx Hy H0. unfold emu_mul. cbv zeta. set (ex := u32 (x .>> 52) .& 0x7FF) in *. set (ey := u32 (y .>> 52) .& 0x7FF) in *.
  set (z := (_ .>> _) .| (_ .& 1)). set (es := u32 (_ .>> 55)). clearbody z es.
  assert (0 <= ex < 2 ^ 11 /\ 0 <= ey < 2 ^ 11) as [He1 He2].
  { subst ex ey. change 0x7FF with (2 ^ 11 - 1). rewrite !land_low by lia. split; apply Z.mod_pos_bound; lia. }
  assert (2 ^ 31 <= (ex -% 1) .| (ey -% 1) < 2 ^ 32) as Hd.
  { assert (forall a b, 0 <= a < 2 ^ 32 -> b = 2 ^ 32 - 1 -> a .| b = 2 ^ 32 - 1) as Hor.
    { intros a b Ha ->. rewrite <- (Z.mod_small a (2 ^ 32)), <- Z.land_ones by lia. change (2 ^ 32 - 1) with (Z.ones 32).
      apply Z.bits_inj'. intros n Hn. rewrite Z.lor_spec, Z.land_spec. by destruct (Z.testbit a n), (Z.testbit (Z.ones 32) n). }
    destruct H0 as [-> | ->]; [rewrite Z.lor_comm|]; (rewrite Hor; [lia|rewrite u32_mod; apply Z.mod_pos_bound; lia|done]). }
  rewrite mask_on by done. clearbody ex ey. set (e := ex +% ey -% 2100 +% es).
  assert (0 <= e < 2 ^ 32) as He by (subst e; rewrite u32_mod; apply Z.mod_pos_bound; lia). clearbody e.
  rewrite (Z.land_comm (2 ^ 32 - 1) (e .^ _)), land_low, Z.mod_small by (try apply lxor_range; rewrite ?u32_small; lia).
  rewrite <- Z.lxor_assoc, Z.lxor_nilpotent, Z.lxor_0_l. change (u64 (((2 ^ 32 - 1) .& 1) - 1)) with 0. rewrite Z.land_0_r.
  change (i32 (u32 (0x100000000 - 1076))) with (-1076). assert (0 <= (x .^ y) .>> 63 < 2) as Hs.
  { assert (0 <= x .^ y < 2 ^ 64) by (apply lxor_range; lia). rewrite shr_div by lia. split; [apply Z.div_pos; lia|apply Z.div_lt_upper_bound; lia]. }
  assert ((x .^ y) .>> 63 = 0 \/ (x .^ y) .>> 63 = 1) as [->| ->] by lia; done.
Qed.

Lemma flip_sign x s e m : normal x s e m -> normal (x .^ b63) (1 - s) e m.
Proof.
  intros [-> Hs He Hm]. split; [|lia|done|done]. unfold pack. change b63 with (2 ^ 63).
  assert (0 <= (e + 1074) * 2 ^ 52 + m < 2 ^ 63) as Hv by lia. set (v := (e + 1074) * 2 ^ 52 + m) in *.
  replace (s * 2 ^ 63 + (e + 1074) * 2 ^ 52 + m) with (s * 2 ^ 63 + v) by (subst v; lia).
  replace ((1 - s) * 2 ^ 63 + (e + 1074) * 2 ^ 52 + m) with ((1 - s) * 2 ^ 63 + v) by (subst v; lia). clearbody v.
  rewrite <- !lor_shifted by lia. apply Z.bits_inj'. intros n Hn. rewrite Z.lxor_spec, !Z.lor_spec.
  destruct (Z.eq_dec n 63) as [->|Hne].
  - assert (Z.testbit v 63 = false) as -> by (rewrite <- (Z.mod_small v (2 ^ 63)), Z.mod_pow2_bits_high by lia; done).
    by destruct Hs as [->| ->].
  - rewrite Z.pow2_bits_eqb by lia. destruct (Z.eqb_spec 63 n); [lia|]. rewrite xorb_false_r. f_equal.
    destruct Hs as [->| ->]; cbn [Z.sub Z.mul Z.add Z.opp Pos.mul Z.pos_sub]; rewrite ?Z.bits_0, ?Z.mul_1_l, ?Z.pow2_bits_eqb by lia; try done; by destruct (Z.eqb_spec 63 n).
Qed.

Lemma emu_half_spec x s e m : normal x s e m -> -1073 <= e -> emu_half x = pack s (e - 1) m.
Proof.
  intros Hx He. assert (normal (pack s (e - 1) m) s (e - 1) m) as Hy by (destruct Hx as [_ Hs Hr Hm]; split; [done|done|lia|done]).
  unfold emu_half. cbv zeta. assert (u64 (x - b52) = pack s (e - 1) m) as ->.
  { pose proof (normal_range _ _ _ _ Hy). destruct Hx as [-> Hs Hr Hm]. change b52 with (2 ^ 52). unfold pack in *.
    rewrite u64_small; lia. }
  assert (((x .^ pack s (e - 1) m) .>> 11) .& b52 = 0) as ->.
  { apply Z.bits_inj'. intros n Hn. change b52 with (2 ^ 52). rewrite Z.land_spec, Z.bits_0, Z.pow2_bits_eqb by lia.
    destruct (Z.eqb_spec 52 n) as [<-|]; [|apply andb_false_r]. rewrite Z.shiftr_spec by lia. change (52 + 11) with (0 + 63).
    rewrite <- Z.shiftr_spec, (xor_sign _ _ _ _ _ _ _ _ Hx Hy), Z.lxor_nilpotent by lia. done. }
  rewrite Z.add_0_r. apply u64_small. apply (normal_range _ _ _ _ Hy).
Qed.
