(* ===== verification/EmuAdd.v ===== *)
(** Addition of the emulated floating point is the exact sum, rounded. *)
From Stdlib Require Import ZArith Lia Znumtheory.
From stdpp Require Import base numbers list.
From S2P Require Import Prelude Flr FlrEmu EmuFacts.
Local Open Scope Z_scope.

(** * Rounding a sticky word *)

Lemma sticky_one z : sticky z 1 = z.
Proof. unfold sticky. by rewrite Z.div_1_r, Z.mod_1_r, Z.lor_0_r. Qed.

Lemma sticky_nonneg a d : 0 <= a -> 0 < d -> 0 <= sticky a d.
Proof. intros Ha Hd. unfold sticky. apply Z.lor_nonneg. split; [by apply Z.div_pos|case_match; lia]. Qed.

Lemma sticky_sticky a d (j : nat) : 0 <= a -> 0 < d -> sticky (sticky a d) (2 ^ Z.of_nat j) = sticky a (d * 2 ^ Z.of_nat j).
Proof.
  intros Ha Hd. induction j as [|j IH]; [by rewrite Z.mul_1_r, sticky_one|].
  rewrite Nat2Z.inj_succ, Z.pow_succ_r by lia. pose proof (Z.pow_pos_nonneg 2 (Z.of_nat j) ltac:(lia) ltac:(lia)).
  rewrite <- sticky_half by (try apply sticky_nonneg; lia).
  replace (d * (2 * 2 ^ Z.of_nat j)) with (2 * (d * 2 ^ Z.of_nat j)) by lia. rewrite <- (sticky_half a) by nia. by rewrite IH.
Qed.

Lemma sticky_exact a d : 0 < d -> a mod d = 0 -> sticky a d = a / d.
Proof. intros Hd Hm. unfold sticky. by rewrite Hm, Z.lor_0_r. Qed.

Lemma sticky_log2 a d : 0 < d -> 1 <= a / d -> Z.log2 (sticky a d) = Z.log2 (a / d).
Proof. intros Hd Hq. unfold sticky. rewrite Z.log2_lor by (try case_match; lia). pose proof (Z.log2_nonneg (a / d)). case_match; [change (Z.log2 0) with 0|change (Z.log2 1) with 0]; lia. Qed.

Lemma round_frac_cancel s a b t e : 0 < b -> 0 < t -> round_frac s (a * t) (b * t) e = round_frac s a b e.
Proof.
  intros Hb Ht. unfold round_frac. cbv zeta. rewrite Z.div_mul_cancel_r by lia. f_equal. case_match.
  - rewrite <- (rne_scale (a * _) b t) by lia. f_equal. lia.
  - apply Z.leb_gt in H. pose proof (Z.pow_pos_nonneg 2 (Z.log2 (a / b) - 52) ltac:(lia) ltac:(lia)).
    rewrite <- (rne_scale a (b * _) t) by nia. f_equal. lia.
Qed.

(** Rounding to odd first does not change the rounding to 53 bits. *)
Lemma round_frac_odd s a d e : 0 <= a -> 0 < d -> a mod d = 0 \/ 2 ^ 54 <= a / d ->
  round_frac s (sticky a d) 1 e = round_frac s a d e.
Proof.
  intros Ha Hd [Hm|Hq].
  - rewrite sticky_exact by done. rewrite <- (round_frac_cancel s (a / d) 1 d) by lia.
    f_equal; [|lia]. pose proof (Z.div_mod a d ltac:(lia)). lia.
  - unfold round_frac. cbv zeta. rewrite Z.div_1_r, sticky_log2 by lia. f_equal.
    assert (54 <= Z.log2 (a / d)) as HL by (apply Z.log2_le_pow2; lia). set (k := Z.log2 (a / d) - 52).
    destruct (Z.leb_spec k 0); [lia|]. rewrite Z.mul_1_l.
    assert (2 ^ k = 4 * 2 ^ Z.of_nat (Z.to_nat (k - 2))) as ->.
    { rewrite Z2Nat.id by lia. change 4 with (2 ^ 2). rewrite <- Z.pow_add_r by lia. f_equal. lia. }
    set (j := Z.to_nat (k - 2)). pose proof (Z.pow_pos_nonneg 2 (Z.of_nat j) ltac:(lia) ltac:(lia)).
    rewrite <- rne_sticky, sticky_sticky, rne_sticky by (try apply sticky_nonneg; nia). f_equal. lia.
Qed.

(** A sum of a multiple of 2 d and something is sticky like the sum. *)
Lemma sticky_add c b d : 0 <= b -> 0 < d -> Z.even c = true -> c + sticky b d = sticky (c * d + b) d.
Proof.
  intros Hb Hd Hc. unfold sticky. rewrite Z.div_add_l, (Z.add_comm (c * d)), Z.mod_add by lia.
  rewrite !lor_bit, Z.even_add, Hc by (case_match; lia). destruct (Z.even (b / d)); cbn [eqb]; lia.
Qed.

Lemma sticky_sub c b d : 0 <= b -> 0 < d -> Z.even c = true -> c - sticky b d = sticky (c * d - b) d.
Proof.
  intros Hb Hd Hc. unfold sticky. pose proof (Z.div_mod b d ltac:(lia)) as D. pose proof (Z.mod_pos_bound b d Hd) as M.
  rewrite !lor_bit by (case_match; lia). destruct (Z.eqb_spec (b mod d) 0) as [E|E].
  - assert ((c * d - b) / d = c - b / d /\ (c * d - b) mod d = 0) as [-> ->].
    { split; symmetry; [apply (Z.div_unique_pos _ _ _ 0)|apply (Z.mod_unique_pos _ _ (c - b / d))]; lia. }
    rewrite Z.eqb_refl. repeat case_match; lia.
  - assert ((c * d - b) / d = c - b / d - 1 /\ (c * d - b) mod d = d - b mod d) as [-> ->].
    { split; symmetry; [apply (Z.div_unique_pos _ _ _ (d - b mod d))|apply (Z.mod_unique_pos _ _ (c - b / d - 1))]; lia. }
    rewrite !Z.even_sub, Hc. destruct (Z.eqb_spec (d - b mod d) 0); [lia|]. destruct (Z.even (b / d)); cbn [eqb Z.even]; lia.
Qed.

(** * The two operands in order *)

Definition add_ordered (x y : Z) : Z :=
  let ex := u32 (x .>> 52) in
  let sx := ex .>> 11 in
  let ex := ex .& 0x7FF in
  let xu := u64 ((x .& m52) .<< 3) .| u64 (((ex +% 0x7FF) .>> 11) .<< 55) in
  let ex := ex -% 1078 in
  let ey := u32 (y .>> 52) in
  let sy := ey .>> 11 in
  let ey := ey .& 0x7FF in
  let yu := u64 ((y .& m52) .<< 3) .| u64 (((ey +% 0x7FF) .>> 11) .<< 55) in
  let ey := ey -% 1078 in
  let n := ex -% ey in
  let yu := yu .& u64 (i32 (i32 n - 60) .>> 16) in
  let n := n .& 63 in
  let m := u64 (ulsh 1 n - 1) in
  let yu := ursh (yu .| u64 ((yu .& m) + m)) n in
  let dm := u64 (- (sx .^ sy)) in
  let zu := u64 (u64 (xu + yu) - (dm .& u64 (yu .<< 1))) in
  norm_build sx zu (i32 ex).

(** Whether the operands are swapped. *)
Definition add_swaps (x y : Z) : bool :=
  let a := x .& m63 in let b := y .& m63 in
  (a <? b) || (a =? b) && Z.testbit x 63.

Lemma sign_mask_spec z : 0 <= z < 2 ^ 64 -> sign_mask z = if Z.testbit z 63 then 2 ^ 64 - 1 else 0.
Proof.
  intros Hz. unfold sign_mask. rewrite Z.testbit_eqb by lia.
  destruct (Z.lt_ge_cases z (2 ^ 63)) as [H|H].
  - rewrite i64_small by lia. rewrite shr_div, Z.div_small by lia. done.
  - assert (i64 z = z - 2 ^ 64) as ->.
    { unfold i64. rewrite u64_mod. replace ((z + 9223372036854775808) mod 2 ^ 64) with (z - 2 ^ 63); [lia|]. apply (Z.mod_unique_pos _ _ 1); lia. }
    rewrite shr_div by lia. replace ((z - 2 ^ 64) / 2 ^ 63) with (-1) by (apply (Z.div_unique_pos _ _ _ (z - 2 ^ 63)); lia).
    replace (z / 2 ^ 63) with 1 by (apply (Z.div_unique_pos _ _ _ (z - 2 ^ 63)); lia). done.
Qed.

Lemma swap_xor (b : bool) x y : 0 <= x < 2 ^ 64 -> 0 <= y < 2 ^ 64 ->
  x .^ ((x .^ y) .& (if b then 2 ^ 64 - 1 else 0)) = (if b then y else x) /\
  y .^ ((x .^ y) .& (if b then 2 ^ 64 - 1 else 0)) = (if b then x else y).
Proof.
  intros Hx Hy. destruct b; [|by rewrite Z.land_0_r, !Z.lxor_0_r].
  rewrite land_low, Z.mod_small by (try apply lxor_range; lia).
  rewrite <- Z.lxor_assoc, Z.lxor_nilpotent, Z.lxor_0_l. split; [done|].
  by rewrite (Z.lxor_comm x), <- Z.lxor_assoc, Z.lxor_nilpotent, Z.lxor_0_l.
Qed.

Lemma land_m63 x : x .& m63 = x mod 2 ^ 63.
Proof. change m63 with (2 ^ 63 - 1). by rewrite land_low. Qed.

Lemma swap_mask x y : 0 <= x < 2 ^ 64 -> 0 <= y < 2 ^ 64 ->
  let za := u64 ((x .& m63) - (y .& m63)) in
  sign_mask (za .| (u64 (za - 1) .& x)) = if add_swaps x y then 2 ^ 64 - 1 else 0.
Proof.
  intros Hx Hy. cbv zeta. unfold add_swaps. cbv zeta. rewrite !land_m63.
  pose proof (Z.mod_pos_bound x (2 ^ 63) ltac:(lia)). pose proof (Z.mod_pos_bound y (2 ^ 63) ltac:(lia)).
  set (a := x mod 2 ^ 63) in *. set (b := y mod 2 ^ 63) in *. clearbody a b.
  rewrite sign_mask_spec.
  2:{ apply lor_lt_pow2; [lia| |apply land_lt_pow2; [lia|]]; rewrite u64_mod; apply Z.mod_pos_bound; lia. }
  rewrite Z.lor_spec, Z.land_spec. f_equal. assert (forall z, 0 <= z < 2 ^ 64 -> Z.testbit z 63 = (2 ^ 63 <=? z)) as T.
  { intros z Hz. rewrite Z.testbit_eqb by lia. destruct (Z.leb_spec (2 ^ 63) z).
    - replace (z / 2 ^ 63) with 1 by (apply (Z.div_unique_pos _ _ _ (z - 2 ^ 63)); lia). done.
    - by rewrite Z.div_small by lia. }
  rewrite (T (u64 (a - b))), (T (u64 (_ - 1))) by (rewrite u64_mod; apply Z.mod_pos_bound; lia).
  assert (u64 (a - b) = if a <? b then a - b + 2 ^ 64 else a - b) as ->.
  { destruct (Z.ltb_spec a b); [|apply u64_small; lia]. rewrite u64_mod. symmetry. apply (Z.mod_unique_pos _ _ (-1)); lia. }
  destruct (Z.ltb_spec a b); cbn [orb].
  - destruct (Z.leb_spec (2 ^ 63) (a - b + 2 ^ 64)); [done|lia].
  - destruct (Z.leb_spec (2 ^ 63) (a - b)); [lia|]. cbn [orb]. destruct (Z.eqb_spec a b) as [->|Hn].
    + rewrite Z.sub_diag. done.
    + rewrite u64_small by lia. destruct (Z.leb_spec (2 ^ 63) (a - b - 1)); [lia|done].
Qed.

Lemma emu_add_ordered x y : 0 <= x < 2 ^ 64 -> 0 <= y < 2 ^ 64 ->
  emu_add x y = if add_swaps x y then add_ordered y x else add_ordered x y.
Proof.
  intros Hx Hy. pose proof (swap_mask x y Hx Hy) as M. pose proof (swap_xor (add_swaps x y) x y Hx Hy) as [E1 E2].
  unfold emu_add. cbv zeta in *. rewrite M, E1, E2. destruct (add_swaps x y); unfold add_ordered, norm_build; cbv zeta; by destruct (norm64 _ _).
Qed.

(** ** The fields of an operand *)

Lemma add_fields x s e m : normal x s e m ->
  u32 (x .>> 52) .>> 11 = s /\ u32 (x .>> 52) .& 0x7FF = e + 1075 /\
  u64 ((x .& m52) .<< 3) .| u64 ((e + 1075 +% 0x7FF) .>> 11 .<< 55) = 8 * m.
Proof.
  intros H. rewrite (normal_exponent32 _ _ _ _ H), (normal_top _ _ _ _ H), (normal_low _ _ _ _ H).
  pose proof (nm_sign _ _ _ _ H). pose proof (nm_exp _ _ _ _ H). pose proof (nm_sig _ _ _ _ H).
  split; [|split; [done|]].
  - rewrite u32_small, shr_div by lia. symmetry. apply (Z.div_unique_pos _ _ _ (e + 1075)); lia.
  - rewrite (u32_small (e + _ + _)), (shr_div _ 11), !shl_mul, !u64_small by (rewrite ?u32_small, ?shr_div, ?shl_mul; try lia).
    all: replace ((e + 1075 + 2047) / 2 ^ 11) with 1 by (apply (Z.div_unique_pos _ _ _ (e + 1074)); lia).
    + rewrite u64_small, Z.lor_comm, lor_shifted by lia. lia.
Qed.

Lemma zero_fields s : s = 0 \/ s = 1 ->
  u32 (s * 2 ^ 63 .>> 52) .>> 11 = s /\ u32 (s * 2 ^ 63 .>> 52) .& 0x7FF = 0 /\
  u64 ((s * 2 ^ 63 .& m52) .<< 3) .| u64 ((0 +% 0x7FF) .>> 11 .<< 55) = 0.
Proof. by intros [->| ->]. Qed.

(** The second operand, shifted down to the scale of the first. *)
Lemma shift_operand v n : 0 <= v < 2 ^ 56 -> 0 <= n < 2 ^ 12 ->
  let yu := v .& u64 (i32 (i32 n - 60) .>> 16) in
  let k := n .& 63 in
  let m := u64 (ulsh 1 k - 1) in
  ursh (yu .| u64 ((yu .& m) + m)) k = if n <? 60 then sticky v (2 ^ n) else 0.
Proof.
  intros Hv Hn. cbv zeta. rewrite (i32_small n), i32_small by lia. unfold ulsh, ursh.
  change 63 with (2 ^ 6 - 1). rewrite land_low by lia. pose proof (Z.mod_pos_bound n (2 ^ 6) ltac:(lia)) as Hm.
  assert (forall k, 0 <= k < 2 ^ 6 -> u64 (u64 (1 .<< k) - 1) = 2 ^ k - 1) as Hone.
  { intros k Hk. assert (1 <= 2 ^ k <= 2 ^ 63) by (split; [apply (Z.pow_le_mono_r 2 0); lia|apply Z.pow_le_mono_r; lia]).
    rewrite shl_mul, !u64_small by (rewrite ?u64_small; lia). lia. }
  rewrite Hone by done. rewrite (shr_div _ 16) by lia. destruct (Z.ltb_spec n 60).
  - replace ((n - 60) / 2 ^ 16) with (-1) by (apply (Z.div_unique_pos _ _ _ (n - 60 + 2 ^ 16)); lia).
    change (u64 (-1)) with (2 ^ 64 - 1). rewrite (land_low v), (Z.mod_small v), (Z.mod_small n), low_sticky by lia. done.
  - rewrite (Z.div_small (n - 60)), !Z.land_0_r, Z.land_0_l, Z.lor_0_l, Z.add_0_l by lia.
    assert (1 <= 2 ^ (n mod 2 ^ 6) <= 2 ^ 63) by (split; [apply (Z.pow_le_mono_r 2 0); lia|apply Z.pow_le_mono_r; lia]).
    rewrite u64_small, shr_div by lia. apply Z.div_small. lia.
Qed.

(** The signed sum of two operands at the scale of the second. *)
Definition signed (s m : Z) : Z := if s =? 0 then m else - m.

Definition exact_sum (s1 e1 m1 s2 e2 m2 : Z) : Z :=
  let e := Z.min e1 e2 in signed s1 (m1 * 2 ^ (e1 - e)) + signed s2 (m2 * 2 ^ (e2 - e)).

(** With the operands in order: a sum of words ... *)
Lemma add_ordered_words x y s1 e1 m1 s2 e2 m2 : normal x s1 e1 m1 -> normal y s2 e2 m2 -> e2 <= e1 -> (e1 = e2 -> m2 <= m1) ->
  let v := if e1 - e2 <? 60 then sticky (8 * m2) (2 ^ (e1 - e2)) else 0 in
  add_ordered x y = norm_build s1 (if s1 =? s2 then 8 * m1 + v else 8 * m1 - v) (e1 - 3).
Proof.
  intros Hx Hy He Hm. destruct (add_fields _ _ _ _ Hx) as (X1 & X2 & X3). destruct (add_fields _ _ _ _ Hy) as (Y1 & Y2 & Y3).
  pose proof (nm_sig _ _ _ _ Hx). pose proof (nm_sig _ _ _ _ Hy). pose proof (nm_exp _ _ _ _ Hx). pose proof (nm_exp _ _ _ _ Hy).
  cbv zeta. unfold add_ordered. cbv zeta. rewrite X1, X2, X3, Y1, Y2, Y3, !u32_sub_l, !u32_sub_r.
  replace (e1 + 1075 - 1078 - (e2 + 1075 - 1078)) with (e1 - e2) by lia. rewrite (u32_small (e1 - e2)), i32_u32, (i32_small (_ - 1078)) by lia.
  replace (e1 + 1075 - 1078) with (e1 - 3) by lia.
  rewrite (shift_operand (8 * m2) (e1 - e2)) by lia.
  set (v := if e1 - e2 <? 60 then _ else 0). assert (0 <= v < 2 ^ 56 /\ v <= 8 * m1) as [Hv Hv1].
  { subst v. case_match; [|lia]. apply Z.ltb_lt in H3. pose proof (Z.pow_pos_nonneg 2 (e1 - e2) ltac:(lia) ltac:(lia)).
    destruct (Z.eq_dec e1 e2) as [->|Hne]; [rewrite Z.sub_diag; change (2 ^ 0) with 1; rewrite sticky_one; lia|].
    assert (2 <= 2 ^ (e1 - e2)) by (apply (Z.pow_le_mono_r 2 1); lia). unfold sticky.
    assert (0 <= 8 * m2 / 2 ^ (e1 - e2) < 2 ^ 55) by (split; [apply Z.div_pos; lia|apply Z.div_lt_upper_bound; lia]).
    rewrite lor_bit by (case_match; lia). repeat case_match; lia. }
  clearbody v. f_equal. rewrite shl_mul by lia. change (2 ^ 1) with 2.
  destruct (nm_sign _ _ _ _ Hx) as [->| ->], (nm_sign _ _ _ _ Hy) as [->| ->]; cbn [Z.lxor Z.eqb Pos.eqb Pos.lxor].
  1,4: change (u64 (- 0)) with 0; rewrite Z.land_0_l, Z.sub_0_r, !u64_small by (rewrite ?u64_small; lia); lia.
  all: change (u64 (- (1))) with (2 ^ 64 - 1); rewrite (Z.land_comm (2 ^ 64 - 1)), land_low, Z.mod_small by (rewrite ?u64_small; lia);
    rewrite (u64_small (v * 2)), (u64_small (8 * m1 + v)), u64_small by lia; lia.
Qed.

(** A second operand 2^60 times smaller does not reach the rounding. *)
Lemma round_far s m1 b D e : 2 ^ 52 <= m1 < 2 ^ 53 -> 2 ^ 60 <= D -> - 2 ^ 56 < b < 2 ^ 56 ->
  round_frac s (8 * m1 * D + b) D e = round_frac s (8 * m1) 1 e.
Proof.
  intros Hm HD Hb.
  assert (round_frac s (8 * m1) 1 e = pack s (e + 3) m1) as ->.
  { unfold round_frac. cbv zeta. rewrite Z.div_1_r. replace (Z.log2 (8 * m1)) with 55 by (symmetry; apply Z.log2_unique; lia).
    change (55 - 52 <=? 0) with false. cbv iota. f_equal. unfold rne. change (1 * 2 ^ (55 - 52)) with 8.
    rewrite (Z.mul_comm 8), Z.div_mul, Z.mod_mul by lia. done. }
  unfold round_frac. cbv zeta. destruct (Z.le_gt_cases 0 b) as [H|H].
  - assert ((8 * m1 * D + b) / D = 8 * m1) as -> by (symmetry; apply (Z.div_unique_pos _ _ _ b); lia).
    replace (Z.log2 (8 * m1)) with 55 by (symmetry; apply Z.log2_unique; lia). change (55 - 52 <=? 0) with false. cbv iota.
    f_equal. change (2 ^ (55 - 52)) with 8. unfold rne.
    assert ((8 * m1 * D + b) / (D * 8) = m1 /\ (8 * m1 * D + b) mod (D * 8) = b) as [-> ->].
    { split; symmetry; [apply (Z.div_unique_pos _ _ _ b)|apply (Z.mod_unique_pos _ _ m1)]; lia. }
    destruct (Z.ltb_spec (2 * b) (D * 8)); [done|lia].
  - assert ((8 * m1 * D + b) / D = 8 * m1 - 1) as -> by (symmetry; apply (Z.div_unique_pos _ _ _ (b + D)); lia).
    destruct (Z.eq_dec m1 (2 ^ 52)) as [->|Hn].
    + change (Z.log2 (8 * 2 ^ 52 - 1)) with 54. change (54 - 52 <=? 0) with false. cbv iota.
      replace (e + 3) with (e + (54 - 52) + 1) by lia. rewrite <- pack_carry. f_equal. change (2 ^ (54 - 52)) with 4. unfold rne.
      assert ((8 * 2 ^ 52 * D + b) / (D * 4) = 2 ^ 53 - 1 /\ (8 * 2 ^ 52 * D + b) mod (D * 4) = D * 4 + b) as [-> ->].
      { split; symmetry; [apply (Z.div_unique_pos _ _ _ (D * 4 + b))|apply (Z.mod_unique_pos _ _ (2 ^ 53 - 1))]; lia. }
      destruct (Z.ltb_spec (2 * (D * 4 + b)) (D * 4)); [lia|]. destruct (Z.ltb_spec (D * 4) (2 * (D * 4 + b))); lia.
    + replace (Z.log2 (8 * m1 - 1)) with 55 by (symmetry; apply Z.log2_unique; lia). change (55 - 52 <=? 0) with false. cbv iota.
      f_equal. change (2 ^ (55 - 52)) with 8. unfold rne.
      assert ((8 * m1 * D + b) / (D * 8) = m1 - 1 /\ (8 * m1 * D + b) mod (D * 8) = D * 8 + b) as [-> ->].
      { split; symmetry; [apply (Z.div_unique_pos _ _ _ (D * 8 + b))|apply (Z.mod_unique_pos _ _ (m1 - 1))]; lia. }
      destruct (Z.ltb_spec (2 * (D * 8 + b)) (D * 8)); [lia|]. destruct (Z.ltb_spec (D * 8) (2 * (D * 8 + b))); lia.
Qed.

Lemma round_eighths s S n e : 0 < S -> 0 <= n -> 2 ^ n <= 8 * S -> round_frac s (8 * S) (2 ^ n) (e - 3) = round_frac s S 1 (e - n).
Proof.
  intros HS Hn Hq. pose proof (Z.pow_pos_nonneg 2 n ltac:(lia) Hn).
  rewrite <- (round_frac_scale _ (8 * S) (2 ^ n) (e - 3) n) by (try apply Z.div_le_lower_bound; lia).
  replace (2 ^ n) with (1 * 2 ^ n) at 2 by lia. rewrite round_frac_cancel by lia.
  rewrite <- (round_frac_scale _ S 1 (e - n) 3) by (rewrite ?Z.div_1_r; lia). f_equal; lia.
Qed.

Lemma add_words_round s1 s2 e1 m1 m2 n : (s1 = 0 \/ s1 = 1) -> 2 ^ 52 <= m1 < 2 ^ 53 -> 2 ^ 52 <= m2 < 2 ^ 53 -> 0 <= n ->
  -1019 <= e1 <= 970 ->
  let v := if n <? 60 then sticky (8 * m2) (2 ^ n) else 0 in
  let S := if s1 =? s2 then m1 * 2 ^ n + m2 else m1 * 2 ^ n - m2 in
  0 < S -> norm_build s1 (if s1 =? s2 then 8 * m1 + v else 8 * m1 - v) (e1 - 3) = round_frac s1 S 1 (e1 - n).
Proof.
  intros Hs Hm1 Hm2 Hn He. cbv zeta. intros HS. pose proof (Z.pow_pos_nonneg 2 n ltac:(lia) Hn) as Hp.
  set (S := if s1 =? s2 then m1 * 2 ^ n + m2 else _) in *.
  assert (2 <= n -> 2 ^ 51 * 2 ^ n <= S) as Hbig.
  { intros H2. assert (2 ^ 2 <= 2 ^ n) by (apply Z.pow_le_mono_r; lia). subst S. case_match; nia. }
  assert (n < 2 -> n = 0 \/ n = 1) as Hsm by lia.
  rewrite <- round_eighths by (destruct (Z.lt_ge_cases n 2) as [H|H]; [destruct Hsm as [->| ->]|apply Hbig in H]; lia).
  destruct (Z.ltb_spec n 60) as [Hn60|Hn60].
  - assert ((if s1 =? s2 then 8 * m1 + sticky (8 * m2) (2 ^ n) else 8 * m1 - sticky (8 * m2) (2 ^ n)) = sticky (8 * S) (2 ^ n)) as ->.
    { subst S. case_match; [rewrite sticky_add|rewrite sticky_sub]; rewrite ?Z.even_mul; try done; try lia; f_equal; lia. }
    assert ((8 * S) mod 2 ^ n = 0 \/ 2 ^ 54 <= 8 * S / 2 ^ n) as Hcase.
    { destruct (Z.lt_ge_cases n 2) as [H|H]; [left|right; apply Z.div_le_lower_bound; lia].
      destruct Hsm as [->| ->]; [done| |]. { apply Z.mod_1_r. } change (2 ^ 1) with 2. replace (8 * S) with (4 * S * 2) by lia. apply Z.mod_mul. lia. }
    assert (1 <= 8 * S / 2 ^ n < 2 ^ 57) as Hr.
    { split; [apply Z.div_le_lower_bound; [lia|]; destruct (Z.lt_ge_cases n 2) as [H|H]; [destruct Hsm as [->| ->]|]; lia|].
      apply Z.div_lt_upper_bound; [lia|]. subst S. case_match; nia. }
    assert (0 < sticky (8 * S) (2 ^ n) < 2 ^ 58) as Hst.
    { unfold sticky. rewrite lor_bit by (case_match; lia). repeat case_match; lia. }
    assert (Z.log2 (sticky (8 * S) (2 ^ n)) <= 56).
    { rewrite sticky_log2 by lia. enough (Z.log2 (8 * S / 2 ^ n) < 57) by lia. apply Z.log2_lt_pow2; lia. }
    rewrite norm_build_rounds by (try done; lia). apply round_frac_odd; lia.
  - rewrite Z.add_0_r, Z.sub_0_r.
    replace (if s1 =? s2 then 8 * m1 else 8 * m1) with (8 * m1) by (by case_match).
    assert (2 ^ 60 <= 2 ^ n) by (apply Z.pow_le_mono_r; lia).
    rewrite norm_build_rounds by (try done; try lia; replace (Z.log2 (8 * m1)) with 55 by (symmetry; apply Z.log2_unique; lia); lia).
    subst S. case_match.
    + rewrite <- (round_far s1 m1 (8 * m2) (2 ^ n)) by lia. f_equal. lia.
    + rewrite <- (round_far s1 m1 (- (8 * m2)) (2 ^ n)) by lia. f_equal. lia.
Qed.

(** * The theorem *)

Lemma add_ordered_rounds x y s1 e1 m1 s2 e2 m2 : normal x s1 e1 m1 -> normal y s2 e2 m2 -> e2 <= e1 -> (e1 = e2 -> m2 <= m1) ->
  -1019 <= e1 <= 970 ->
  let S := if s1 =? s2 then m1 * 2 ^ (e1 - e2) + m2 else m1 * 2 ^ (e1 - e2) - m2 in
  0 <= S /\ (S = 0 -> e1 = e2 /\ m1 = m2 /\ (s1 =? s2) = false) /\ add_ordered x y = if S =? 0 then s1 * 2 ^ 63 else round_frac s1 S 1 e2.
Proof.
  intros Hx Hy He Hm Hr. pose proof (nm_sig _ _ _ _ Hx). pose proof (nm_sig _ _ _ _ Hy).
  rewrite (add_ordered_words _ _ _ _ _ _ _ _ Hx Hy) by done. cbv zeta. set (S := if s1 =? s2 then _ else _).
  pose proof (Z.pow_pos_nonneg 2 (e1 - e2) ltac:(lia) ltac:(lia)).
  assert (0 <= S /\ (S = 0 -> e1 = e2 /\ m1 = m2 /\ (s1 =? s2) = false)) as [HS HS0].
  { subst S. case_match; [split; [nia|intros; exfalso; nia]|]. destruct (Z.eq_dec e1 e2) as [->|Hne]; [rewrite Z.sub_diag; lia|].
    assert (2 <= 2 ^ (e1 - e2)) by (apply (Z.pow_le_mono_r 2 1); lia). split; [nia|intros; exfalso; nia]. }
  split; [done|]. split; [done|]. destruct (Z.eqb_spec S 0) as [E|E].
  - destruct (HS0 E) as (-> & -> & ->). rewrite Z.sub_diag. change (2 ^ 0) with 1. change (0 <? 60) with true. cbv iota.
    rewrite sticky_one, Z.sub_diag. apply norm_build_zero; [apply (nm_sign _ _ _ _ Hx)|lia].
  - rewrite (add_words_round s1 s2 e1 m1 m2 (e1 - e2)) by (try apply (nm_sign _ _ _ _ Hx); try done; try lia; fold S; lia).
    fold S. f_equal. lia.
Qed.

Lemma add_swaps_normal x y s1 e1 m1 s2 e2 m2 : normal x s1 e1 m1 -> normal y s2 e2 m2 ->
  if add_swaps x y then e1 < e2 \/ e1 = e2 /\ m1 < m2 \/ e1 = e2 /\ m1 = m2 /\ s1 = 1
  else e2 < e1 \/ e1 = e2 /\ m2 < m1 \/ e1 = e2 /\ m1 = m2 /\ s1 = 0.
Proof.
  intros Hx Hy. unfold add_swaps. cbv zeta. rewrite !land_m63, Z.testbit_eqb by lia.
  pose proof (normal_neg _ _ _ _ Hx) as N. rewrite shr_div in N by lia. rewrite N.
  pose proof (nm_sign _ _ _ _ Hx). pose proof (nm_exp _ _ _ _ Hx). pose proof (nm_exp _ _ _ _ Hy).
  pose proof (nm_sig _ _ _ _ Hx). pose proof (nm_sig _ _ _ _ Hy).
  assert (forall z s e m, normal z s e m -> z mod 2 ^ 63 = (e + 1074) * 2 ^ 52 + m) as E.
  { intros z s e m [-> Hs He Hm]. unfold pack. symmetry. apply (Z.mod_unique_pos _ _ s); lia. }
  rewrite (E _ _ _ _ Hx), (E _ _ _ _ Hy).
  destruct (Z.ltb_spec ((e1 + 1074) * 2 ^ 52 + m1) ((e2 + 1074) * 2 ^ 52 + m2)); cbn [orb]; [lia|].
  destruct (Z.eqb_spec ((e1 + 1074) * 2 ^ 52 + m1) ((e2 + 1074) * 2 ^ 52 + m2)); cbn [andb]; [|lia].
  destruct H as [->| ->]; [change (0 mod 2 =? 1) with false|change (1 mod 2 =? 1) with true]; cbv iota; lia.
Qed.

(** The ordered result in terms of the signed sum. *)
Lemma ordered_sum s1 s2 a b e : s1 = 0 \/ s1 = 1 -> s2 = 0 \/ s2 = 1 ->
  let S := if s1 =? s2 then a + b else a - b in
  let T := signed s1 a + signed s2 b in
  0 <= S -> (S = 0 -> s1 = 0) ->
  (if S =? 0 then s1 * 2 ^ 63 else round_frac s1 S 1 e) = if T =? 0 then 0 else round_frac (sign_of T) (Z.abs T) 1 e.
Proof.
  intros Hs1 Hs2. cbv zeta.
  assert (signed s1 a + signed s2 b = signed s1 (if s1 =? s2 then a + b else a - b)) as ->.
  { unfold signed. destruct Hs1 as [->| ->], Hs2 as [->| ->]; cbn [Z.eqb Pos.eqb]; lia. }
  generalize (if s1 =? s2 then a + b else a - b). intros S HS Hz. unfold signed, sign_of.
  destruct (Z.eqb_spec S 0) as [->|ES]; [by rewrite (Hz eq_refl)|].
  destruct Hs1 as [->| ->]; cbn [Z.eqb].
  - destruct (Z.eqb_spec S 0); [lia|]. destruct (Z.ltb_spec S 0); [lia|]. by rewrite Z.abs_eq by lia.
  - destruct (Z.eqb_spec (- S) 0); [lia|]. destruct (Z.ltb_spec (- S) 0); [|lia]. by rewrite Z.abs_neq, Z.opp_involutive by lia.
Qed.

Lemma emu_add_rounds x y s1 e1 m1 s2 e2 m2 : normal x s1 e1 m1 -> normal y s2 e2 m2 -> -1019 <= Z.max e1 e2 <= 970 ->
  let S := exact_sum s1 e1 m1 s2 e2 m2 in
  emu_add x y = if S =? 0 then 0 else round_frac (sign_of S) (Z.abs S) 1 (Z.min e1 e2).
Proof.
  intros Hx Hy Hr. cbv zeta. pose proof (add_swaps_normal _ _ _ _ _ _ _ _ Hx Hy) as Hsw.
  rewrite emu_add_ordered by (eapply normal_range; eassumption).
  pose proof (nm_sign _ _ _ _ Hx) as Hs1. pose proof (nm_sign _ _ _ _ Hy) as Hs2. unfold exact_sum. cbv zeta.
  destruct (add_swaps x y).
  - destruct (add_ordered_rounds y x _ _ _ _ _ _ Hy Hx) as (HS & HZ & ->); [lia|lia|lia|].
    rewrite Z.min_l, Z.sub_diag, Z.mul_1_r, (Z.add_comm (signed s1 _)) by lia.
    apply ordered_sum; try done. intros HS0. destruct (HZ HS0) as (_ & _ & Hd). destruct Hs1 as [->| ->], Hs2 as [->| ->]; try done; lia.
  - destruct (add_ordered_rounds x y _ _ _ _ _ _ Hx Hy) as (HS & HZ & ->); [lia|lia|lia|].
    rewrite Z.min_r, Z.sub_diag, Z.mul_1_r by lia.
    apply ordered_sum; try done. intros HS0. destruct (HZ HS0) as (_ & _ & Hd). destruct Hs1 as [->| ->], Hs2 as [->| ->]; try done; lia.
Qed.

(** * Zeros *)

Lemma add_ordered_zero x s e m t : normal x s e m -> t = 0 \/ t = 1 -> -1019 <= e <= 970 -> add_ordered x (t * 2 ^ 63) = x.
Proof.
  intros Hx Ht He. destruct (add_fields _ _ _ _ Hx) as (X1 & X2 & X3). destruct (zero_fields t Ht) as (Y1 & Y2 & Y3).
  pose proof (nm_sig _ _ _ _ Hx) as Hm.
  unfold add_ordered. cbv zeta. rewrite X1, X2, X3, Y1, Y2, Y3, !u32_sub_l, !u32_sub_r.
  replace (e + 1075 - 1078 - (0 - 1078)) with (e + 1075) by lia. rewrite (u32_small (e + 1075)), i32_u32, (i32_small (_ - 1078)) by lia.
  rewrite (shift_operand 0 (e + 1075)) by lia. replace (if e + 1075 <? 60 then sticky 0 (2 ^ (e + 1075)) else 0) with 0.
  2:{ case_match; [|done]. unfold sticky. by rewrite Z.div_0_l, Z.mod_0_l by lia. }
  rewrite Z.shiftl_0_l. change (u64 0) with 0. rewrite Z.land_0_r, Z.add_0_r, Z.sub_0_r, !(u64_small (8 * m)) by lia.
  replace (e + 1075 - 1078) with (e - 3) by lia.
  rewrite norm_build_rounds; [|apply (nm_sign _ _ _ _ Hx)|lia|lia|rewrite (Z.log2_unique (8 * m) 55); lia].
  unfold round_frac. cbv zeta. rewrite Z.div_1_r, (Z.log2_unique (8 * m) 55) by lia. change (55 - 52 <=? 0) with false. cbv iota.
  rewrite (nm_pack _ _ _ _ Hx). unfold rne. change (1 * 2 ^ (55 - 52)) with 8. rewrite (Z.mul_comm 8), Z.div_mul, Z.mod_mul by lia.
  change (2 * 0 <? 8) with true. cbv iota. f_equal. lia.
Qed.

Lemma emu_add_zero_r x s e m t : normal x s e m -> t = 0 \/ t = 1 -> -1019 <= e <= 970 -> emu_add x (t * 2 ^ 63) = x.
Proof.
  intros Hx Ht He. rewrite emu_add_ordered; [|apply (normal_range _ _ _ _ Hx)|lia].
  replace (add_swaps x (t * 2 ^ 63)) with false; [by eapply add_ordered_zero|]. unfold add_swaps. cbv zeta. rewrite !land_m63, Z.mod_mul by lia.
  assert (0 < x mod 2 ^ 63) as Hp.
  { destruct Hx as [-> Hs Hx Hm]. unfold pack. replace ((_ + _ + m) mod 2 ^ 63) with ((e + 1074) * 2 ^ 52 + m) by (apply (Z.mod_unique_pos _ _ s); lia). lia. }
  destruct (Z.ltb_spec (x mod 2 ^ 63) 0), (Z.eqb_spec (x mod 2 ^ 63) 0); try lia; done.
Qed.

Lemma emu_add_zero_l x s e m t : normal x s e m -> t = 0 \/ t = 1 -> -1019 <= e <= 970 -> emu_add (t * 2 ^ 63) x = x.
Proof.
  intros Hx Ht He. rewrite emu_add_ordered; [|lia|apply (normal_range _ _ _ _ Hx)].
  replace (add_swaps (t * 2 ^ 63) x) with true; [by eapply add_ordered_zero|]. unfold add_swaps. cbv zeta. rewrite !land_m63, Z.mod_mul by lia.
  assert (0 < x mod 2 ^ 63) as Hp.
  { destruct Hx as [-> Hs Hx Hm]. unfold pack. replace ((_ + _ + m) mod 2 ^ 63) with ((e + 1074) * 2 ^ 52 + m) by (apply (Z.mod_unique_pos _ _ s); lia). lia. }
  destruct (Z.ltb_spec 0 (x mod 2 ^ 63)); [done|lia].
Qed.
