(* ===== verification/EmuRound.v ===== *)
(** Conversions of the emulated floating point to integers. *)
From Stdlib Require Import ZArith Lia Znumtheory.
From stdpp Require Import base numbers list.
From S2P Require Import Prelude Flr FlrEmu EmuFacts EmuAdd.
Local Open Scope Z_scope.

(** The significand as the conversions extract it: 10 bits further up. *)
Lemma raised x s e m : normal x s e m -> (u64 (x .<< 10) .| b62) .& m63 = m * 2 ^ 10.
Proof.
  intros H. pose proof (nm_sig _ _ _ _ H) as Hm. apply Z.bits_inj'. intros i Hi.
  assert (Z.testbit m 52 = true) as M52.
  { rewrite Z.testbit_eqb by lia. replace (m / 2 ^ 52) with 1 by (apply (Z.div_unique_pos _ _ _ (m - 2 ^ 52)); lia). done. }
  assert (forall j, 0 <= j < 52 -> Z.testbit x j = Z.testbit m j) as Hlow.
  { intros j Hj. rewrite <- (Z.mod_pow2_bits_low x 52), <- (Z.mod_pow2_bits_low m 52) by lia. f_equal.
    destruct H as [-> Hs He _]. unfold pack.
    replace (s * 2 ^ 63 + (e + 1074) * 2 ^ 52 + m) with (m + (s * 2 ^ 11 + (e + 1074)) * 2 ^ 52) by lia. apply Z.mod_add. lia. }
  change b62 with (2 ^ 62). change m63 with (Z.ones 63).
  rewrite Z.land_spec, Z.lor_spec, Z.pow2_bits_eqb, Z.testbit_ones, u64_mod, Z.mul_pow2_bits by lia.
  destruct (Z.leb_spec 0 i); [|lia]. cbn [andb]. destruct (Z.lt_ge_cases i 63) as [H1|H1].
  - rewrite Z.mod_pow2_bits_low, Z.shiftl_spec by lia. destruct (Z.ltb_spec i 63); [|lia]. rewrite andb_true_r.
    destruct (Z.eqb_spec 62 i) as [<-|Hn]; [rewrite orb_true_r; change (62 - 10) with 52; by rewrite M52|]. rewrite orb_false_r.
    destruct (Z.lt_ge_cases i 10); [by rewrite !Z.testbit_neg_r by lia|]. apply Hlow. lia.
  - destruct (Z.ltb_spec i 63); [lia|]. rewrite andb_false_r. symmetry.
    rewrite <- (Z.mod_small m (2 ^ 53)), Z.mod_pow2_bits_high by lia. done.
Qed.

Lemma normal_mask x s e m : normal x s e m -> sign_mask x = if s =? 1 then 2 ^ 64 - 1 else 0.
Proof.
  intros H. rewrite sign_mask_spec by (eapply normal_range; eassumption). rewrite Z.testbit_eqb, <- shr_div, (normal_neg _ _ _ _ H) by lia.
  by destruct (nm_sign _ _ _ _ H) as [->| ->].
Qed.

(** A word and its two's complement negation read as signed numbers. *)
Lemma i32_u64 a : i32 (u64 a) = i32 a.
Proof.
  unfold i32. rewrite !u32_mod, u64_mod. f_equal. rewrite Z.add_mod, Z.mod_mod_divide, <- Z.add_mod by (try lia; by exists (2 ^ 32)). done.
Qed.

Lemma signed_word x s e m z : normal x s e m -> 0 <= z < 2 ^ 64 ->
  i32 (u64 ((z .^ sign_mask x) - sign_mask x)) = i32 (signed s z).
Proof.
  intros H Hz. rewrite (normal_mask _ _ _ _ H), negate_if by done. unfold signed.
  destruct (nm_sign _ _ _ _ H) as [->| ->]; cbn [Z.eqb Pos.eqb]; [done|]. apply i32_u64.
Qed.

Lemma shift_sat_spec e : 0 <= e < 2 ^ 12 -> shift_sat e = Z.min e 63.
Proof.
  intros He. unfold shift_sat. cbv zeta. rewrite u32_small by lia. change 63 with (2 ^ 6 - 1) at 2. rewrite land_low by lia.
  destruct (Z.le_gt_cases e 63) as [H|H].
  - rewrite (u32_small (63 - e)), shr_div, Z.div_small, Z.lor_0_r, Z.mod_small by lia. lia.
  - rewrite u32_neg, shr_div by lia. replace ((63 - e + 4294967296) / 2 ^ 16) with (2 ^ 16 - 1) by (apply (Z.div_unique_pos _ _ _ (63 - e + 2 ^ 16)); lia).
    rewrite <- land_low, Z.land_lor_distr_l, Z.min_r by lia. change ((2 ^ 16 - 1) .& (2 ^ 6 - 1)) with 63. change (2 ^ 6 - 1) with 63.
    apply Z.bits_inj'. intros n Hn. rewrite Z.lor_spec, Z.land_spec. by destruct (Z.testbit e n), (Z.testbit 63 n).
Qed.

(** ** Floor, truncation and fixed point *)

Lemma emu_floor_spec x s e m : normal x s e m -> e <= 0 -> emu_floor x = i32 (signed s m / 2 ^ (- e)).
Proof.
  intros H He. pose proof (nm_sig _ _ _ _ H) as Hm. pose proof (nm_exp _ _ _ _ H). unfold emu_floor, irsh. cbv zeta.
  rewrite (raised _ _ _ _ H), (normal_exponent _ _ _ _ H), (normal_mask _ _ _ _ H), negate_if by lia.
  replace (1085 - (e + 1075)) with (10 - e) by lia. rewrite shift_sat_spec by lia.
  assert (i64 (if s =? 1 then u64 (- (m * 2 ^ 10)) else m * 2 ^ 10) = signed s m * 2 ^ 10) as ->.
  { unfold signed. destruct (nm_sign _ _ _ _ H) as [->| ->]; cbn [Z.eqb Pos.eqb]; [apply i64_small; lia|].
    unfold i64. rewrite u64_add_l, u64_small by lia. lia. }
  assert (- 2 ^ 53 < signed s m < 2 ^ 53) as Hs by (unfold signed; case_match; lia). f_equal. rewrite shr_div by lia.
  destruct (Z.le_gt_cases (10 - e) 63) as [H1|H1].
  - rewrite Z.min_l by lia. replace (10 - e) with (- e + 10) by lia. rewrite Z.pow_add_r by lia. apply Z.div_mul_cancel_r; lia.
  - rewrite Z.min_r by lia. assert (2 ^ 53 <= 2 ^ (- e)) by (apply Z.pow_le_mono_r; lia).
    destruct (Z.lt_ge_cases (signed s m) 0).
    + replace (signed s m / 2 ^ (- e)) with (-1) by (apply (Z.div_unique_pos _ _ _ (signed s m + 2 ^ (- e))); lia).
      symmetry. apply (Z.div_unique_pos _ _ _ (signed s m * 2 ^ 10 + 2 ^ 63)); lia.
    + rewrite !Z.div_small; lia.
Qed.

Lemma shifted_down m e : 0 <= m < 2 ^ 53 -> e <= 0 -> m * 2 ^ 10 .>> Z.min (10 - e) 63 = m / 2 ^ (- e).
Proof.
  intros Hm He. rewrite shr_div by lia. destruct (Z.le_gt_cases (10 - e) 63) as [H1|H1].
  - rewrite Z.min_l by lia. replace (10 - e) with (- e + 10) by lia. rewrite Z.pow_add_r by lia. apply Z.div_mul_cancel_r; lia.
  - rewrite Z.min_r by lia. assert (2 ^ 53 <= 2 ^ (- e)) by (apply Z.pow_le_mono_r; lia). rewrite !Z.div_small; lia.
Qed.

Lemma emu_trunc_spec x s e m : normal x s e m -> e <= 0 -> emu_trunc x = i32 (signed s (m / 2 ^ (- e))).
Proof.
  intros H He. pose proof (nm_sig _ _ _ _ H) as Hm. pose proof (nm_exp _ _ _ _ H). unfold emu_trunc, irsh. cbv zeta.
  rewrite (raised _ _ _ _ H), (normal_exponent _ _ _ _ H), i64_small by lia.
  replace (1085 - (e + 1075)) with (10 - e) by lia. rewrite shift_sat_spec, shifted_down by lia.
  pose proof (Z.pow_pos_nonneg 2 (- e) ltac:(lia) ltac:(lia)).
  assert (0 <= m / 2 ^ (- e) < 2 ^ 53) by (split; [apply Z.div_pos; lia|apply Z.div_lt_upper_bound; nia]).
  rewrite (u64_small (m / _)) by lia. apply (signed_word _ _ _ _ _ H). lia.
Qed.

Lemma emu_mtwop63_spec x e m : normal x 0 e m -> e <= -53 -> emu_mtwop63 x = m * 2 ^ 63 / 2 ^ (- e).
Proof.
  intros H He. pose proof (nm_sig _ _ _ _ H) as Hm. pose proof (nm_exp _ _ _ _ H). unfold emu_mtwop63, ursh. cbv zeta.
  rewrite (raised _ _ _ _ H), (normal_exponent _ _ _ _ H).
  replace (1022 - (e + 1075)) with (10 - (e + 63)) by lia. rewrite shift_sat_spec by lia.
  destruct (Z.le_gt_cases (-63) e) as [H1|H1].
  - rewrite shr_div, Z.min_l by lia. replace (2 ^ 63) with (2 ^ 10 * 2 ^ 53) by done.
    replace (- e) with (10 - (e + 63) + 53) by lia. rewrite Z.mul_assoc, Z.pow_add_r, Z.div_mul_cancel_r by lia. done.
  - rewrite shifted_down by lia. replace (- e) with (- (e + 63) + 63) by lia. rewrite Z.pow_add_r, Z.div_mul_cancel_r by lia. done.
Qed.

(** ** Rounding *)

(** The three bits that decide: last kept, first dropped, and the rest. *)
Lemma sticky_index W : 0 <= W ->
  u32 (u64 W .>> 61 .| (if W mod 2 ^ 62 =? 0 then 0 else 1)) = u32 (sticky W (2 ^ 61)) .& 7.
Proof.
  intros HW. unfold sticky. pose proof (Z.div_mod W (2 ^ 61) ltac:(lia)) as D. pose proof (Z.mod_pos_bound W (2 ^ 61) ltac:(lia)) as M.
  set (q := W / 2 ^ 61) in *. set (r := W mod 2 ^ 61) in *. assert (0 <= q) by (apply Z.div_pos; lia). clearbody q r.
  pose proof (Z.div_mod q 8 ltac:(lia)) as D8. pose proof (Z.mod_pos_bound q 8 ltac:(lia)) as M8.
  set (a := q / 8) in *. set (c := q mod 8) in *. clearbody a c.
  assert (u64 W .>> 61 = c) as ->.
  { rewrite u64_mod, shr_div by lia. replace (W mod 2 ^ 64) with (c * 2 ^ 61 + r) by (apply (Z.mod_unique_pos _ _ a); lia).
    symmetry. apply (Z.div_unique_pos _ _ _ r); lia. }
  assert (u32 (q .| (if r =? 0 then 0 else 1)) .& 7 = c .| (if r =? 0 then 0 else 1)) as ->.
  { rewrite u32_mod. change 7 with (2 ^ 3 - 1). rewrite land_low, Z.mod_mod_divide by (try lia; by exists (2 ^ 29)).
    rewrite <- land_low, Z.land_lor_distr_l, !land_low by lia. f_equal; [|by case_match]. symmetry. apply (Z.mod_unique_pos _ _ a); lia. }
  assert (W mod 2 ^ 62 = c mod 2 * 2 ^ 61 + r) as ->.
  { pose proof (Z.div_mod c 2 ltac:(lia)). pose proof (Z.mod_pos_bound c 2 ltac:(lia)). symmetry. apply (Z.mod_unique_pos _ _ (4 * a + c / 2)); lia. }
  assert (c = 0 \/ c = 1 \/ c = 2 \/ c = 3 \/ c = 4 \/ c = 5 \/ c = 6 \/ c = 7) as Hc by lia.
  destruct (Z.eqb_spec r 0) as [->|Hr].
  - by destruct Hc as [->|[->|[->|[->|[->|[->|[->| ->]]]]]]].
  - destruct (Z.eqb_spec (c mod 2 * 2 ^ 61 + r) 0); [lia|]. by destruct Hc as [->|[->|[->|[->|[->|[->|[->| ->]]]]]]].
Qed.

Lemma rint_bits M k : 0 <= M < 2 ^ 63 -> 0 < k <= 63 ->
  let z := ulsh M (63 - k) in
  let y := u64 ((z .& m62) + m62) .>> 1 in
  (M .>> k) + ((200 .>> u32 ((z .| y) .>> 61)) .& 1) = rne M (2 ^ k).
Proof.
  intros HM Hk. cbv zeta. set (W := M * 2 ^ (63 - k)). pose proof (Z.pow_pos_nonneg 2 (63 - k) ltac:(lia) ltac:(lia)) as Hp.
  assert (2 ^ 63 = 2 ^ k * 2 ^ (63 - k)) as Ek by (rewrite <- Z.pow_add_r by lia; f_equal; lia).
  assert (0 <= W) as HW by (subst W; lia).
  assert (M .>> k = sticky W (2 ^ 61) .>> 2) as ->.
  { rewrite sticky_top by lia. change (2 ^ 61 * 2 ^ 2) with (2 ^ 63). rewrite Ek. subst W. rewrite Z.div_mul_cancel_r, shr_div by lia. done. }
  assert (rne M (2 ^ k) = rne (sticky W (2 ^ 61)) 4) as ->.
  { rewrite rne_sticky by lia. change (4 * 2 ^ 61) with (2 ^ 63). rewrite Ek. subst W. by rewrite rne_scale by lia. }
  rewrite <- round_bit by (apply sticky_nonneg; lia). do 3 f_equal. unfold ulsh. rewrite shl_mul by lia. fold W.
  change m62 with (2 ^ 62 - 1). rewrite land_low by lia. pose proof (Z.mod_pos_bound (u64 W) (2 ^ 62) ltac:(lia)).
  rewrite (u64_small (_ + _)), Z.shiftr_lor, Z.shiftr_shiftr by lia. change (1 + 61) with 62. rewrite carry_bit by lia.
  assert (u64 W mod 2 ^ 62 = W mod 2 ^ 62) as -> by (rewrite u64_mod; apply Z.mod_mod_divide; by exists 4).
  apply sticky_index. done.
Qed.

Lemma rne_range2 a b : 0 <= a -> 0 < b -> 0 <= rne a b <= a + 1.
Proof.
  intros Ha Hb. assert (0 <= a / b <= a) by (split; [by apply Z.div_pos|apply Z.div_le_upper_bound; nia]).
  unfold rne. cbv zeta. repeat case_match; lia.
Qed.

(** The nearest integer, ties to even. *)
Lemma emu_rint_spec x s e m : normal x s e m -> e <= -22 -> emu_rint x = i32 (signed s (rne m (2 ^ (- e)))).
Proof.
  intros H He. pose proof (nm_sig _ _ _ _ H) as Hm. pose proof (nm_exp _ _ _ _ H). unfold emu_rint, ursh. cbv zeta.
  rewrite (raised _ _ _ _ H), (normal_exponent _ _ _ _ H). replace (1085 - (e + 1075)) with (10 - e) by lia.
  rewrite (shr_div _ 16), u32_small by lia. 
  assert ((10 - e) .& 63 = (10 - e) mod 2 ^ 6) as -> by (change 63 with (2 ^ 6 - 1); by rewrite land_low).
  pose proof (Z.mod_pos_bound (10 - e) (2 ^ 6) ltac:(lia)) as Hmod. rewrite <- (rne_scale m (2 ^ (- e)) (2 ^ 10)), <- Z.pow_add_r by lia. replace (- e + 10) with (10 - e) by lia.
  destruct (Z.le_gt_cases (10 - e) 63) as [H1|H1].
  - replace ((10 - e - 64) / 2 ^ 16) with (-1) by (apply (Z.div_unique_pos _ _ _ (10 - e - 64 + 2 ^ 16)); lia).
    change (u64 (-1)) with (2 ^ 64 - 1). rewrite land_low, (Z.mod_small (m * _)), (Z.mod_small (10 - e)) by lia.
    pose proof (rint_bits (m * 2 ^ 10) (10 - e) ltac:(lia) ltac:(lia)) as R. cbv zeta in R. rewrite R.
    pose proof (rne_range2 (m * 2 ^ 10) (2 ^ (10 - e)) ltac:(lia) ltac:(lia)).
    rewrite (u64_small (rne _ _)) by lia. apply (signed_word _ _ _ _ _ H). lia.
  - rewrite (Z.div_small (10 - e - 64)), Z.land_0_r by lia.
    assert (forall k, ulsh 0 k = 0) as -> by (intros k; unfold ulsh; by rewrite Z.shiftl_0_l).
    rewrite Z.shiftr_0_l. change (u64 _) with 0 at 2.
    assert (rne (m * 2 ^ 10) (2 ^ (10 - e)) = 0) as ->.
    { assert (2 ^ 64 <= 2 ^ (10 - e)) by (apply Z.pow_le_mono_r; lia). unfold rne. rewrite Z.div_small, Z.mod_small by lia.
      destruct (Z.ltb_spec (2 * (m * 2 ^ 10)) (2 ^ (10 - e))); [done|lia]. }
    apply (signed_word _ _ _ _ 0 H). lia.
Qed.
