(* ===== verification/FlrNative.v ===== *)
(** The native floating-point operations ([sign_flr_native.go] and the files
    beside it that do without assembly), and the shifts of 32-bit processors
    ([sign_flr_shift32.go]).

    A [float64] is a [spec_float] of the Standard Library's [SpecFloat], the
    executable IEEE 754 arithmetic, at 53 bits of precision: Go's operators on
    float64 are the IEEE ones, and a conversion [float64(...)] around each keeps
    the compiler from fusing two. *)
From Stdlib Require Import ZArith Lia SpecFloat.
From stdpp Require Import base numbers list.
From S2P Require Import Prelude Flr FlrEmu.
Local Open Scope Z_scope.

(** * float64 of the language *)

Definition float64 : Type := spec_float.
Definition prec : Z := 53.
Definition emax : Z := 1024.

(** [float64(i)] *)
Definition float64_of_int (i : Z) : float64 := binary_normalize prec emax i 0 false.

(** [int32(x)] and [int64(x)]: towards zero.  The language leaves the result open
    when the value is out of range, and the processors differ: it is a parameter,
    a function of the value. *)
Class OutOfRange := { int32_other : float64 -> Z; int64_other : float64 -> Z }.

Definition truncate (x : float64) : option Z :=
  match x with
  | S754_zero _ => Some 0
  | S754_finite s m e => Some (cond_Zopp s (if 0 <=? e then Z.pos m * 2 ^ e else Z.pos m / 2 ^ (- e)))
  | _ => None
  end.
Definition converted (bits : Z) (x : float64) : option Z :=
  match truncate x with
  | Some i => if (- 2 ^ (bits - 1) <=? i) && (i <? 2 ^ (bits - 1)) then Some i else None
  | None => None
  end.

Section Conversions.
Context `{OutOfRange}.
Definition int32_of_float (x : float64) : Z := match converted 32 x with Some i => i | None => i32 (int32_other x) end.
Definition int64_of_float (x : float64) : Z := match converted 64 x with Some i => i | None => i64 (int64_other x) end.
End Conversions.

(** [math.Float64bits] *)
Definition Float64bits (x : float64) : Z :=
  match x with
  | S754_zero s => Z.b2z s * 2 ^ 63
  | S754_infinity s => Z.b2z s * 2 ^ 63 + 0x7FF * 2 ^ 52
  | S754_nan => 0x7FF8000000000001
  | S754_finite s m e => Z.b2z s * 2 ^ 63 + (if Z.pos m <? 2 ^ 52 then Z.pos m else (e + 1074) * 2 ^ 52 + Z.pos m)
  end.

(** [math.Float64frombits] *)
Definition Float64frombits (v : Z) : float64 :=
  let s := Z.testbit v 63 in
  let ex := (v .>> 52) .& 0x7FF in
  let m := v .& 0x000FFFFFFFFFFFFF in
  if ex =? 0x7FF then (if m =? 0 then S754_infinity s else S754_nan)
  else if ex =? 0 then match m with Z.pos p => S754_finite s p (-1074) | _ => S754_zero s end
  else match m + 2 ^ 52 with Z.pos p => S754_finite s p (ex - 1075) | _ => S754_nan end.

(** * sign_flr_native.go *)

Section Native.
Context `{OutOfRange}.

Definition native_ZERO : float64 := S754_zero false.
Definition native_NZERO : float64 := Float64frombits 0x8000000000000000.
Definition native_ONE : float64 := float64_of_int 1.

Definition native_mk (i e : Z) : float64 := SFldexp prec emax (float64_of_int i) e.
Definition f64_to_bits (x : float64) : Z := Float64bits x.
Definition f64_from_bits (v : Z) : float64 := Float64frombits v.
Definition native_of (i : Z) : float64 := float64_of_int i.
Definition native_of_i32 (i : Z) : float64 := float64_of_int i.
Definition native_scaled (i sc : Z) : float64 := SFldexp prec emax (float64_of_int i) sc.
Definition native_trunc (x : float64) : Z := int32_of_float x.
Definition native_add (x y : float64) : float64 := SFadd prec emax x y.
Definition native_sub (x y : float64) : float64 := SFsub prec emax x y.
Definition native_neg (x : float64) : float64 := SFopp x.
Definition native_half (x : float64) : float64 := SFmul prec emax x (SFldexp prec emax (float64_of_int 1) (-1)).
Definition native_double (x : float64) : float64 := SFmul prec emax x (float64_of_int 2).
Definition native_mul (x y : float64) : float64 := SFmul prec emax x y.
Definition native_sqr (x : float64) : float64 := SFmul prec emax x x.
Definition native_div (x y : float64) : float64 := SFdiv prec emax x y.
Definition native_inv (x : float64) : float64 := SFdiv prec emax (float64_of_int 1) x.

(** The constants 1.0, 0.5, ... of the table, as powers of two. *)
Definition inv_pow2 : list float64 := (fun k => SFldexp prec emax (float64_of_int 1) (- Z.of_nat k)) <$> seq 0 11.

(** The index of the table is in range for degrees up to 2^10. *)
Definition native_div2e (x : float64) (e : Z) : float64 := SFmul prec emax x (nth (Z.to_nat e) inv_pow2 S754_nan).
Definition native_abs (x : float64) : float64 := Float64frombits (Float64bits x .& 0x7FFFFFFFFFFFFFFF).

(** [==] on float64 *)
Definition float64_eqb (x y : float64) : bool := SFeqb x y.

(** * Square root and floor without assembly *)

Definition native_sqrt (x : float64) : float64 := SFsqrt prec emax x.

Definition native_floor (x : float64) : Z :=
  let r := int32_of_float x in
  let y := float64_of_int r in
  let xv := f64_to_bits x in
  let yv := f64_to_bits y in
  i32 (r - i32 (((u64 (yv - xv) .& xv .& yv) .| (xv .^ yv)) .>> 63)).

(** * 64-bit processors *)

Definition rint_native64 (x : float64) : Z :=
  let rp := i32 (i64 (int64_of_float (native_add x (float64_of_int 4503599627370496)) - 4503599627370496)) in
  let rn := i32 (i64 (int64_of_float (native_sub x (float64_of_int 4503599627370496)) + 4503599627370496)) in
  let sx := i32 (i64 (f64_to_bits x) .>> 63) in
  rp .^ (sx .& (rp .^ rn)).

Definition mtwop63_native (x : float64) : Z :=
  u64 (int64_of_float (native_mul x (float64_of_int 9223372036854775808))).

(** * 32-bit processors *)

Definition rint_native32 (x : float64) : Z :=
  let z := int32_of_float x in
  let y := native_sub x (float64_of_int z) in
  let v := f64_to_bits y in
  let w := v .& m63 in
  let am := i32 (i32 (u64 (w - (1022 .<< 52)) .>> 63) - 1) in
  let sv := i32 (i64 v .>> 63) in
  let a := i32 ((am .^ sv) - sv) in
  i32 (z - a).

Definition mtwop63_spec (x : float64) : Z :=
  let x := native_mul x (float64_of_int 2097152) in
  let z2 := int32_of_float x in
  let x := native_sub x (float64_of_int z2) in
  let x := native_mul x (float64_of_int 2097152) in
  let z1 := int32_of_float x in
  let x := native_sub x (float64_of_int z1) in
  let x := native_mul x (float64_of_int 2097152) in
  let z0 := int32_of_float x in
  let r2 := u32 z2 in
  let r1 := u32 z1 in
  let r0 := u32 z0 in
  u64 (u64 (u64 (r2 .<< 42) + u64 (r1 .<< 21)) + r0).

Definition ursh32 (x n : Z) : Z :=
  let x := x .^ ((x .^ (x .>> 32)) .& u64 (- (n .>> 5))) in
  x .>> (n .& 0x1F).
Definition irsh32 (x n : Z) : Z :=
  let x := x .^ ((x .^ (x .>> 32)) .& (- (n .>> 5))) in
  x .>> (n .& 0x1F).
Definition ulsh32 (x n : Z) : Z :=
  let x := x .^ ((x .^ u64 (x .<< 32)) .& u64 (- (n .>> 5))) in
  u64 (x .<< (n .& 0x1F)).

(** The build of 64-bit processors, without assembly. *)
#[export] Instance native : F64 := {|
  f64 := float64;
  f64_ZERO := native_ZERO;
  f64_NZERO := native_NZERO;
  f64_ONE := native_ONE;
  f64mk := native_mk;
  f64_of := native_of;
  f64_of_i32 := native_of_i32;
  f64_rint := rint_native64;
  f64_floor := native_floor;
  f64_trunc := native_trunc;
  f64_mtwop63 := mtwop63_native;
  f64_add := native_add;
  f64_sub := native_sub;
  f64_neg := native_neg;
  f64_half := native_half;
  f64_mul := native_mul;
  f64_sqr := native_sqr;
  f64_inv := native_inv;
  f64_sqrt := native_sqrt;
  f64_div2e := native_div2e;
  f64_eqb := float64_eqb;
|}.
End Native.

Section Examples.
Context `{OutOfRange}.

(** The numbers of [TestFlrNative], and some more. *)
Example bits_of_numbers : map f64_to_bits [native_ONE; native_half native_ONE; native_NZERO; native_neg (native_of 3); nth 10 inv_pow2 native_ZERO] =
  [0x3FF0000000000000; 0x3FE0000000000000; 0x8000000000000000; 0xC008000000000000; 0x3F50000000000000].
Proof. vm_compute. reflexivity. Qed.

Example rint_examples : map (fun i => rint_native64 (native_scaled i (-2))) [-7; -6; -5; -3; -2; -1; 0; 1; 2; 3; 5; 6; 7; 10] =
  [-2; -2; -1; -1; 0; 0; 0; 0; 0; 1; 1; 2; 2; 2].
Proof. vm_compute. reflexivity. Qed.

(** The 32-bit rounding moves a tie away from zero, the others to the even
    neighbour. *)
Example rint_ties : map (fun i => rint_native32 (native_scaled i (-2))) [-10; -6; -2; 2; 6; 10] = [-3; -2; -1; 1; 2; 3] /\
  map (fun i => rint_native64 (native_scaled i (-2))) [-10; -6; -2; 2; 6; 10] = [-2; -2; 0; 0; 2; 2] /\
  map (fun i => emu_rint (f64_scaled i (-2))) [-10; -6; -2; 2; 6; 10] = [-2; -2; 0; 0; 2; 2].
Proof. vm_compute. auto. Qed.

(** Minus zero is rounded down to -1 by the emulation and by this build. *)
Example floor_minus_zero : native_floor native_NZERO = -1 /\ emu_floor emu_NZERO = -1 /\ native_floor native_ZERO = 0.
Proof. vm_compute. auto. Qed.
End Examples.
