(* ===== verification/NativeFacts.v ===== *)
(** The native operations and the emulated ones give the same numbers. *)
From Stdlib Require Import ZArith Lia SpecFloat.
From stdpp Require Import base numbers list.
From S2P Require Import Prelude Flr FlrEmu EmuFacts EmuAdd EmuRound FlrNative.
Local Open Scope Z_scope.

(** * Rounding in [SpecFloat] *)

#[local] Abbreviation fexp := (fexp prec emax).

Lemma digits2_log2 p : Z.pos (digits2_pos p) = Z.log2 (Z.pos p) + 1.
Proof.
  induction p as [p IH|p IH|]; cbn [digits2_pos]; [| |done]; rewrite Pos2Z.inj_succ, IH.
  - change (Z.pos p~1) with (2 * Z.pos p + 1). rewrite Z.log2_succ_double by lia. lia.
  - change (Z.pos p~0) with (2 * Z.pos p). rewrite Z.log2_double by lia. lia.
Qed.

Lemma fexp_normal d : -1021 <= d -> fexp d = d - 53.
Proof. intros Hd. unfold SpecFloat.fexp, emin, prec, emax. lia. Qed.

(** Where the rest r of a division by b lies. *)
Definition rest_location (r b : Z) : location := if r =? 0 then loc_Exact else loc_Inexact (2 * r ?= b).

(** A shifted-out record describes the fraction a / b. *)
Definition record_of (a b : Z) (mrs : shr_record) : Prop :=
  shr_m mrs = a / b /\ shr_r mrs = (b <=? 2 * (a mod b)) /\ shr_s mrs = negb ((a mod b =? 0) || (2 * (a mod b) =? b)).

Lemma record_of_loc a b : 0 <= a -> 0 < b -> record_of a b (shr_record_of_loc (a / b) (rest_location (a mod b) b)).
Proof.
  intros Ha Hb. pose proof (Z.mod_pos_bound a b Hb). unfold record_of, rest_location.
  destruct (Z.eqb_spec (a mod b) 0) as [E|E].
  - cbn. rewrite E. cbn. split; [done|]. split; [|done]. symmetry. apply Z.leb_gt. lia.
  - destruct (Z.compare_spec (2 * (a mod b)) b); cbn; (split; [done|]); split; symmetry;
      rewrite ?Z.leb_le, ?Z.leb_gt, ?negb_true_iff, ?negb_false_iff; try lia.
    all: destruct (Z.eqb_spec (2 * (a mod b)) b); done || lia.
Qed.

Lemma loc_of_record a b mrs : 0 <= a -> 0 < b -> record_of a b mrs -> loc_of_shr_record mrs = rest_location (a mod b) b.
Proof.
  intros Ha Hb. pose proof (Z.mod_pos_bound a b Hb). destruct mrs as [m r s]. intros (_ & Hr & Hs). cbn in Hr, Hs.
  unfold rest_location. subst r s. destruct (Z.eqb_spec (a mod b) 0) as [E|E].
  - rewrite E. destruct (Z.leb_spec b (2 * 0)); [lia|done].
  - destruct (Z.compare_spec (2 * (a mod b)) b), (Z.leb_spec b (2 * (a mod b))), (Z.eqb_spec (2 * (a mod b)) b); try lia; done.
Qed.

Lemma shr_1_record a b mrs : 0 <= a -> 0 < b -> record_of a b mrs -> record_of a (2 * b) (shr_1 mrs).
Proof.
  intros Ha Hb (Hm & Hr & Hs). pose proof (Z.mod_pos_bound a b Hb) as M. pose proof (Z.div_mod a b ltac:(lia)) as D.
  assert (0 <= a / b) as Hq by (apply Z.div_pos; lia). destruct mrs as [m r s]. cbn in Hm, Hr, Hs. subst m r s.
  pose proof (Z.div_mod (a / b) 2 ltac:(lia)) as D2. pose proof (Z.mod_pos_bound (a / b) 2 ltac:(lia)) as M2.
  assert (a / (2 * b) = a / b / 2 /\ a mod (2 * b) = (a / b) mod 2 * b + a mod b) as [E1 E2].
  { split; symmetry; [apply (Z.div_unique_pos a _ _ ((a / b) mod 2 * b + a mod b)); nia|apply (Z.mod_unique_pos a _ (a / b / 2)); nia]. }
  unfold record_of. rewrite E1, E2. set (q := a / b) in *. set (x := a mod b) in *. clearbody q x. clear E1 E2.
  assert (((b <=? 2 * x) || negb ((x =? 0) || (2 * x =? b)))%bool = negb (x =? 0)) as Es.
  { destruct (Z.leb_spec b (2 * x)), (Z.eqb_spec x 0), (Z.eqb_spec (2 * x) b); try done; lia. }
  assert (forall t, (t = 0 \/ t = 1) -> q mod 2 = t -> (2 * b <=? 2 * (t * b + x)) = (t =? 1) /\
    negb ((t * b + x =? 0) || (2 * (t * b + x) =? 2 * b)) = negb (x =? 0)) as Hbits.
  { intros t [->| ->] _; cbn [Z.eqb Pos.eqb]; split.
    - apply Z.leb_gt. lia.
    - f_equal. destruct (Z.eqb_spec (0 * b + x) 0), (Z.eqb_spec x 0), (Z.eqb_spec (2 * (0 * b + x)) (2 * b)); try done; lia.
    - apply Z.leb_le. lia.
    - f_equal. destruct (Z.eqb_spec (1 * b + x) 0), (Z.eqb_spec x 0), (Z.eqb_spec (2 * (1 * b + x)) (2 * b)); try done; lia. }
  unfold shr_1. rewrite Es. destruct q as [|p|p]; [| |lia].
  - destruct (Hbits 0 ltac:(tauto) eq_refl) as [B1 B2]. cbn [shr_m shr_r shr_s]. change (0 mod 2) with 0. rewrite B1, B2. done.
  - assert (Z.pos p = 2 * (Z.pos p / 2) + Z.pos p mod 2) as Dp by lia.
    destruct (Hbits (Z.pos p mod 2) ltac:(lia) eq_refl) as [B1 B2]. rewrite B1, B2.
    destruct p as [p|p|]; cbn [shr_m shr_r shr_s].
    + assert (Z.pos p~1 mod 2 = 1 /\ Z.pos p~1 / 2 = Z.pos p) as [-> ->].
      { change (Z.pos p~1) with (2 * Z.pos p + 1). split; symmetry; [apply (Z.mod_unique_pos _ _ (Z.pos p))|apply (Z.div_unique_pos _ _ _ 1)]; lia. }
      done.
    + assert (Z.pos p~0 mod 2 = 0 /\ Z.pos p~0 / 2 = Z.pos p) as [-> ->].
      { change (Z.pos p~0) with (2 * Z.pos p). split; symmetry; [apply (Z.mod_unique_pos _ _ (Z.pos p))|apply (Z.div_unique_pos _ _ _ 0)]; lia. }
      done.
    + done.
Qed.

Lemma iter_shr a b mrs p : 0 <= a -> 0 < b -> record_of a b mrs -> record_of a (b * 2 ^ Z.pos p) (SpecFloat.iter_pos shr_1 p mrs).
Proof.
  intros Ha. revert b mrs. induction p as [p IH|p IH|]; intros b mrs Hb H; cbn [SpecFloat.iter_pos].
  - replace (b * 2 ^ Z.pos p~1) with (2 * b * 2 ^ Z.pos p * 2 ^ Z.pos p).
    + apply IH; [pose proof (Z.pow_pos_nonneg 2 (Z.pos p) ltac:(lia) ltac:(lia)); nia|]. apply IH; [lia|]. by apply shr_1_record.
    + change (Z.pos p~1) with (2 * Z.pos p + 1). replace (2 * Z.pos p + 1) with (Z.pos p + Z.pos p + 1) by lia. rewrite !Z.pow_add_r by lia. lia.
  - replace (b * 2 ^ Z.pos p~0) with (b * 2 ^ Z.pos p * 2 ^ Z.pos p).
    + apply IH; [pose proof (Z.pow_pos_nonneg 2 (Z.pos p) ltac:(lia) ltac:(lia)); nia|]. by apply IH.
    + change (Z.pos p~0) with (2 * Z.pos p). replace (2 * Z.pos p) with (Z.pos p + Z.pos p) by lia. rewrite !Z.pow_add_r by lia. lia.
  - change (2 ^ 1) with 2. rewrite (Z.mul_comm b). by apply shr_1_record.
Qed.

Lemma round_record a b : 0 <= a -> 0 < b -> round_nearest_even (a / b) (rest_location (a mod b) b) = rne a b.
Proof.
  intros Ha Hb. pose proof (Z.mod_pos_bound a b Hb). unfold rest_location, rne. cbv zeta.
  destruct (Z.eqb_spec (a mod b) 0) as [E|E].
  - rewrite E. destruct (Z.ltb_spec (2 * 0) b); [done|lia].
  - destruct (Z.compare_spec (2 * (a mod b)) b), (Z.ltb_spec (2 * (a mod b)) b), (Z.ltb_spec b (2 * (a mod b))); try lia; done.
Qed.

(** * Words and numbers *)

(** A float64 and the word that holds it: a zero, or a normal number. *)
Definition same (f : float64) (x : Z) : Prop :=
  match f with
  | S754_zero s => x = Z.b2z s * 2 ^ 63
  | S754_finite s m e => normal x (Z.b2z s) e (Z.pos m)
  | _ => False
  end.

Lemma same_bits f x : same f x -> Float64bits f = x.
Proof.
  destruct f as [s|s| |s m e]; cbn [same Float64bits]; [done|done|done|]. intros [-> Hs He Hm].
  destruct (Z.ltb_spec (Z.pos m) (2 ^ 52)); [lia|]. unfold pack. lia.
Qed.

Lemma same_finite s m e : 2 ^ 52 <= m <= 2 ^ 53 -> -1074 <= e <= 970 ->
  match shr_m (shr_fexp prec emax m e loc_Exact).1 with
  | Z0 => False
  | Zpos p => let e' := (shr_fexp prec emax m e loc_Exact).2 in e' <= emax - prec /\ same (S754_finite s p e') (pack (Z.b2z s) e m)
  | _ => False
  end.
Proof.
  intros Hm He. unfold shr_fexp. destruct (Z.eq_dec m (2 ^ 53)) as [->|Hn].
  - change (Zdigits2 (2 ^ 53)) with 54. rewrite fexp_normal by lia. replace (54 + e - 53 - e) with 1 by lia.
    cbn [shr fst snd SpecFloat.iter_pos shr_record_of_loc]. change (shr_m (shr_1 _)) with (2 ^ 52). change (2 ^ 52) with (Z.pos 4503599627370496).
    cbv iota zeta. split; [unfold emax, prec; lia|]. rewrite pack_carry. split; [done|by destruct s; [right|left]|lia|]. change (Z.pos 4503599627370496) with (2 ^ 52). lia.
  - assert (Zdigits2 m = 53) as ->.
    { destruct m as [|p|p]; [lia| |lia]. cbn [Zdigits2]. rewrite digits2_log2. rewrite (Z.log2_unique (Z.pos p) 52); lia. }
    rewrite fexp_normal by lia. replace (53 + e - 53 - e) with 0 by lia. cbn [shr fst snd shr_record_of_loc shr_m].
    destruct m as [|p|p]; [lia| |lia]. split; [unfold emax, prec; lia|]. split; [done|by destruct s; [right|left]|lia|lia].
Qed.

Lemma rne_digits a b : 0 < b -> 2 ^ 52 <= a / b < 2 ^ 53 -> 2 ^ 52 <= rne a b <= 2 ^ 53.
Proof. intros Hb Hq. unfold rne. cbv zeta. repeat case_match; lia. Qed.

(** The rounding of the native operations is that of the reference. *)
Lemma binary_round_aux_spec s a b ex : 0 <= a -> 0 < b -> 2 ^ 52 <= a / b -> -1074 <= ex + (Z.log2 (a / b) - 52) <= 970 ->
  same (binary_round_aux prec emax s (a / b) ex (rest_location (a mod b) b)) (round_frac (Z.b2z s) a b ex).
Proof.
  intros Ha Hb Hq He. unfold binary_round_aux. set (k := Z.log2 (a / b) - 52) in *.
  assert (0 <= k) as Hk by (assert (52 <= Z.log2 (a / b)) by (apply Z.log2_le_pow2; lia); lia).
  assert (exists mrs, shr_fexp prec emax (a / b) ex (rest_location (a mod b) b) = (mrs, ex + k) /\ record_of a (b * 2 ^ k) mrs) as (mrs & -> & Hrec).
  { unfold shr_fexp. assert (Zdigits2 (a / b) = k + 53) as ->.
    { destruct (a / b) as [|p|p] eqn:E; [lia| |lia]. cbn [Zdigits2]. rewrite digits2_log2. lia. }
    rewrite fexp_normal by lia. replace (k + 53 + ex - 53 - ex) with k by lia. pose proof (record_of_loc a b Ha Hb) as R.
    destruct k as [|p|p] eqn:Ek; [| |lia].
    - exists (shr_record_of_loc (a / b) (rest_location (a mod b) b)). cbn [shr]. rewrite Z.add_0_r, Z.mul_1_r. done.
    - eexists. split; [reflexivity|]. by apply iter_shr. }
  pose proof (Z.pow_pos_nonneg 2 k ltac:(lia) Hk) as Hp. assert (0 < b * 2 ^ k) as Hbk by lia.
  rewrite (loc_of_record a (b * 2 ^ k)), (proj1 Hrec), round_record by done.
  assert (round_frac (Z.b2z s) a b ex = pack (Z.b2z s) (ex + k) (rne a (b * 2 ^ k))) as ->.
  { unfold round_frac. cbv zeta. fold k. destruct (Z.leb_spec k 0); [|done]. replace k with 0 by lia. by rewrite !Z.mul_1_r. }
  assert (2 ^ 52 <= a / (b * 2 ^ k) < 2 ^ 53) as Hd.
  { rewrite <- Z.div_div by lia. pose proof (Z.log2_spec (a / b) ltac:(lia)) as [L1 L2].
    assert (2 ^ Z.log2 (a / b) = 2 ^ 52 * 2 ^ k) as E1 by (rewrite <- Z.pow_add_r by lia; f_equal; lia).
    rewrite Z.pow_succ_r, E1 in L2 by lia. rewrite E1 in L1.
    split; [apply Z.div_le_lower_bound; lia|apply Z.div_lt_upper_bound; lia]. }
  pose proof (same_finite s (rne a (b * 2 ^ k)) (ex + k) (rne_digits _ _ Hbk Hd) ltac:(lia)) as F.
  destruct (shr_fexp prec emax (rne a (b * 2 ^ k)) (ex + k) loc_Exact) as [mrs' e'']. cbn [fst snd] in F.
  destruct (shr_m mrs') as [|p|p]; [done| |done]. destruct F as [F1 F2]. by destruct (Z.leb_spec e'' (emax - prec)); [|lia].
Qed.

Lemma exact_location m : loc_Exact = rest_location (m mod 1) 1.
Proof. by rewrite Z.mod_1_r. Qed.

Lemma iter_xO m p : Z.pos (Pos.iter xO m p) = Z.pos m * 2 ^ Z.pos p.
Proof. rewrite (Pos.iter_swap_gen _ _ Z.pos xO (Z.mul 2)) by done. change (Z.shiftl (Z.pos m) (Z.pos p) = Z.pos m * 2 ^ Z.pos p). by apply Z.shiftl_mul_pow2. Qed.

Lemma shl_align_value m e e' : exists p, shl_align m e e' = (p, Z.min e e') /\ Z.pos p = Z.pos m * 2 ^ (e - Z.min e e').
Proof.
  unfold shl_align. destruct (e' - e) as [|d|d] eqn:E.
  - exists m. rewrite Z.min_l, Z.sub_diag by lia. split; [done|lia].
  - exists m. rewrite Z.min_l, Z.sub_diag by lia. split; [done|lia].
  - exists (Pos.iter xO m d). rewrite Z.min_r by lia. split; [done|]. rewrite iter_xO. do 2 f_equal. lia.
Qed.

Lemma binary_round_spec s p e : -1074 <= e + (Z.log2 (Z.pos p) - 52) <= 970 ->
  same (binary_round prec emax s p e) (round_frac (Z.b2z s) (Z.pos p) 1 e).
Proof.
  intros He. unfold binary_round. rewrite digits2_log2, fexp_normal by lia.
  set (k := Z.log2 (Z.pos p) - 52) in *. replace (Z.log2 (Z.pos p) + 1 + e - 53) with (e + k) by lia.
  destruct (shl_align_value p e (e + k)) as (q & -> & Eq). rewrite (exact_location (Z.pos q)). rewrite <- (Z.div_1_r (Z.pos q)) at 1.
  set (c := e - Z.min e (e + k)) in *. assert (0 <= c) by lia.
  assert (Z.log2 (Z.pos q) = Z.log2 (Z.pos p) + c) as EL by (rewrite Eq; rewrite Z.log2_mul_pow2; lia).
  rewrite <- (round_frac_scale _ (Z.pos p) 1 e c) by (rewrite ?Z.div_1_r; lia). rewrite <- Eq.
  replace (e - c) with (Z.min e (e + k)) by lia.
  apply binary_round_aux_spec; rewrite ?Z.div_1_r, ?EL; try lia. apply Z.log2_le_pow2; lia.
Qed.

(** * The operations *)

Lemma b2z_xorb s t : Z.b2z (xorb s t) = Z.b2z s .^ Z.b2z t.
Proof. by destruct s, t. Qed.

Lemma round_to_same n e : n <> 0 -> -1074 <= e + (Z.log2 (Z.abs n) - 52) <= 970 ->
  same (binary_normalize prec emax n e false) (round_frac (sign_of n) (Z.abs n) 1 e).
Proof. intros Hn He. destruct n as [|p|p]; [done| |]; by apply binary_round_spec. Qed.

Lemma native_of_same i : - 2 ^ 63 < i < 2 ^ 63 -> same (native_of i) (emu_of i).
Proof.
  intros Hi. unfold native_of, float64_of_int, emu_of. destruct (Z.eq_dec i 0) as [->|Hn]; [by rewrite f64_scaled_zero|].
  rewrite f64_scaled_rounds by lia. assert (0 <= Z.log2 (Z.abs i) < 63) by (split; [apply Z.log2_nonneg|apply Z.log2_lt_pow2; lia]).
  apply round_to_same; lia.
Qed.

Lemma native_mul_finite s1 m1 e1 x s2 m2 e2 y :
  same (S754_finite s1 m1 e1) x -> same (S754_finite s2 m2 e2) y -> -1126 <= e1 + e2 <= 917 ->
  same (native_mul (S754_finite s1 m1 e1) (S754_finite s2 m2 e2)) (emu_mul x y).
Proof.
  intros Hx Hy He. rewrite (emu_mul_rounds _ _ _ _ _ _ _ _ Hx Hy) by lia.
  pose proof (normal_product _ _ (nm_sig _ _ _ _ Hx) (nm_sig _ _ _ _ Hy)) as Hp. cbn [native_mul SFmul].
  unfold native_mul. cbn [SFmul]. rewrite Pos2Z.inj_mul, <- b2z_xorb, (exact_location (Z.pos m1 * Z.pos m2)).
  rewrite <- (Z.div_1_r (Z.pos m1 * Z.pos m2)) at 1.
  assert (104 <= Z.log2 (Z.pos m1 * Z.pos m2) < 106) by (split; [apply Z.log2_le_pow2; lia|apply Z.log2_lt_pow2; lia]).
  apply binary_round_aux_spec; rewrite ?Z.div_1_r; lia.
Qed.

Lemma new_location_rest b r : 0 < b -> 0 <= r < b -> new_location b r = rest_location r b.
Proof.
  intros Hb Hr. unfold new_location, new_location_even, new_location_odd, rest_location.
  destruct (Z.even b) eqn:E; [done|]. destruct (Z.eqb_spec r 0); [done|]. f_equal.
  assert (2 * r <> b) by (intros <-; by rewrite Z.even_mul in E).
  destruct (Z.compare_spec (2 * r + 1) b), (Z.compare_spec (2 * r) b); try lia; done.
Qed.

Lemma native_div_same s1 m1 e1 x s2 m2 e2 y :
  same (S754_finite s1 m1 e1) x -> same (S754_finite s2 m2 e2) y -> -1021 <= e1 - e2 <= 1022 ->
  same (native_div (S754_finite s1 m1 e1) (S754_finite s2 m2 e2)) (f64_div x y).
Proof.
  intros Hx Hy He. rewrite (emu_div_rounds _ _ _ _ _ _ _ _ Hx Hy) by lia.
  pose proof (nm_sig _ _ _ _ Hx) as Hm1. pose proof (nm_sig _ _ _ _ Hy) as Hm2. unfold native_div. cbn [SFdiv].
  unfold SFdiv_core_binary. cbn [Zdigits2]. rewrite !digits2_log2, (Z.log2_unique (Z.pos m1) 52), (Z.log2_unique (Z.pos m2) 52) by lia.
  rewrite fexp_normal by lia. rewrite Z.min_l by lia. replace (e1 - e2 - (52 + 1 + e1 - (52 + 1 + e2) - 53)) with 53 by lia.
  cbv iota. change (Z.shiftl (Z.pos m1) 53) with (Z.pos m1 .<< 53). rewrite shl_mul by lia.
  replace (Z.div_eucl (Z.pos m1 * 2 ^ 53) (Z.pos m2)) with (Z.pos m1 * 2 ^ 53 / Z.pos m2, (Z.pos m1 * 2 ^ 53) mod Z.pos m2)
    by (unfold Z.div, Z.modulo; by destruct (Z.div_eucl _ _)).
  rewrite new_location_rest by (try apply Z.mod_pos_bound; lia). rewrite <- b2z_xorb.
  rewrite (Z.mul_comm (2 ^ 55)). replace (2 ^ 55) with (2 ^ 53 * 2 ^ 2) by done. rewrite Z.mul_assoc.
  replace (e1 - e2 - 55) with (52 + 1 + e1 - (52 + 1 + e2) - 53 - 2) by lia.
  assert (2 ^ 52 <= Z.pos m1 * 2 ^ 53 / Z.pos m2 < 2 ^ 54) as Hq by (split; [apply Z.div_le_lower_bound; lia|apply Z.div_lt_upper_bound; lia]).
  rewrite round_frac_scale by lia.
  assert (52 <= Z.log2 (Z.pos m1 * 2 ^ 53 / Z.pos m2) < 54) by (split; [apply Z.log2_le_pow2; lia|apply Z.log2_lt_pow2; lia]).
  apply binary_round_aux_spec; lia.
Qed.

(** The exponent of a number is within bounds; a zero always is. *)
Definition scaled (lo hi : Z) (f : float64) : Prop :=
  match f with S754_finite _ _ e => lo <= e <= hi | _ => True end.

Lemma same_range f x : same f x -> 0 <= x < 2 ^ 64.
Proof. destruct f as [s| | |s m e]; cbn; [intros ->; destruct s; cbn; lia|done|done|apply normal_range]. Qed.

Lemma b2z_bit s : Z.b2z s = 0 \/ Z.b2z s = 1.
Proof. destruct s; [by right|by left]. Qed.

(** ** Multiplication *)

Lemma native_mul_same f g x y : same f x -> same g y -> scaled (-563) 458 f -> scaled (-563) 458 g -> same (native_mul f g) (emu_mul x y).
Proof.
  intros Hx Hy Hf Hg.
  assert (forall b, u32 (Z.b2z b * 2 ^ 63 .>> 52) .& 0x7FF = 0) as Z0 by (by intros []).
  assert (forall b, (Z.b2z b * 2 ^ 63) .>> 63 = Z.b2z b) as Z1 by (by intros []).
  destruct f as [s1| | |s1 m1 e1], g as [s2| | |s2 m2 e2]; try done.
  - cbn in Hx, Hy. subst x y. unfold native_mul. cbn [SFmul same].
    rewrite emu_mul_zero, b2z_xorb, Z.shiftr_lxor, !Z1 by (try (left; apply Z0); destruct s1, s2; cbn; lia). done.
  - cbn in Hx. subst x. unfold native_mul. cbn [SFmul same].
    rewrite emu_mul_zero, b2z_xorb, Z.shiftr_lxor, Z1, (normal_neg _ _ _ _ Hy); [done| |apply (normal_range _ _ _ _ Hy)|left; apply Z0]. destruct s1; cbn; lia.
  - cbn in Hy. subst y. unfold native_mul. cbn [SFmul same].
    rewrite emu_mul_zero, b2z_xorb, Z.shiftr_lxor, Z1, (normal_neg _ _ _ _ Hx); [done|apply (normal_range _ _ _ _ Hx)| |right; apply Z0]. destruct s2; cbn; lia.
  - apply native_mul_finite; try done. cbn in Hf, Hg. lia.
Qed.

(** ** Addition *)

Lemma exact_sum_log2 s1 e1 m1 s2 e2 m2 : s1 = 0 \/ s1 = 1 -> s2 = 0 \/ s2 = 1 -> 2 ^ 52 <= m1 < 2 ^ 53 -> 2 ^ 52 <= m2 < 2 ^ 53 ->
  let S := exact_sum s1 e1 m1 s2 e2 m2 in S <> 0 ->
  Z.max e1 e2 - 53 <= Z.min e1 e2 + (Z.log2 (Z.abs S) - 52) <= Z.max e1 e2 + 1.
Proof.
  intros H1 H2 Hm1 Hm2. cbv zeta. intros HS. pose proof (Z.log2_nonneg (Z.abs (exact_sum s1 e1 m1 s2 e2 m2))) as HL.
  set (D := Z.max e1 e2 - Z.min e1 e2). assert (0 <= D) by lia. pose proof (Z.pow_pos_nonneg 2 D ltac:(lia) ltac:(lia)) as Hp.
  assert (exists a b, 2 ^ 52 <= a < 2 ^ 53 /\ 2 ^ 52 <= b < 2 ^ 53 /\
    (Z.abs (exact_sum s1 e1 m1 s2 e2 m2) = a * 2 ^ D + b \/ Z.abs (exact_sum s1 e1 m1 s2 e2 m2) = Z.abs (a * 2 ^ D - b))) as (a & b & Ha & Hb & Hab).
  { unfold exact_sum, signed. cbv zeta. destruct (Z.le_gt_cases e1 e2).
    - exists m2, m1. split; [done|]. split; [done|]. subst D. rewrite Z.min_l, Z.max_r, Z.sub_diag, Z.mul_1_r by lia. set (P := 2 ^ (e2 - e1)).
      assert (0 <= m2 * P) by (apply Z.mul_nonneg_nonneg; [lia|apply Z.pow_nonneg; lia]). clearbody P. destruct H1 as [->| ->], H2 as [->| ->]; cbn [Z.eqb Pos.eqb]; lia.
    - exists m1, m2. split; [done|]. split; [done|]. subst D. rewrite Z.min_r, Z.max_l, Z.sub_diag, Z.mul_1_r by lia. set (P := 2 ^ (e1 - e2)).
      assert (0 <= m1 * P) by (apply Z.mul_nonneg_nonneg; [lia|apply Z.pow_nonneg; lia]). clearbody P. destruct H1 as [->| ->], H2 as [->| ->]; cbn [Z.eqb Pos.eqb]; lia. }
  assert (Z.abs (exact_sum s1 e1 m1 s2 e2 m2) < 2 ^ (54 + D)) as Hup by (rewrite Z.pow_add_r by lia; nia).
  apply Z.log2_lt_pow2 in Hup; [|lia]. split; [|lia].
  destruct (Z.le_gt_cases D 1); [lia|]. assert (2 ^ 2 <= 2 ^ D) by (apply Z.pow_le_mono_r; lia).
  assert (2 ^ (51 + D) <= Z.abs (exact_sum s1 e1 m1 s2 e2 m2)) as Hlo by (rewrite Z.pow_add_r by lia; nia).
  apply Z.log2_le_pow2 in Hlo; lia.
Qed.

Lemma cond_Zopp_signed s v : cond_Zopp s v = signed (Z.b2z s) v.
Proof. by destruct s. Qed.

Lemma native_add_same f g x y : same f x -> same g y -> scaled (-1019) 969 f -> scaled (-1019) 969 g -> same (native_add f g) (emu_add x y).
Proof.
  intros Hx Hy Hf Hg. destruct f as [s1| | |s1 m1 e1], g as [s2| | |s2 m2 e2]; try done.
  - cbn in Hx, Hy. subst x y. by destruct s1, s2.
  - cbn in Hx. subst x. cbn in Hg. by rewrite (emu_add_zero_l y _ _ _ _ Hy (b2z_bit s1)) by lia.
  - cbn in Hy. subst y. cbn in Hf. by rewrite (emu_add_zero_r x _ _ _ _ Hx (b2z_bit s2)) by lia.
  - cbn in Hf, Hg. rewrite (emu_add_rounds _ _ _ _ _ _ _ _ Hx Hy) by lia. unfold native_add. cbn [SFadd].
    destruct (shl_align_value m1 e1 (Z.min e1 e2)) as (q1 & -> & E1). destruct (shl_align_value m2 e2 (Z.min e1 e2)) as (q2 & -> & E2).
    cbn [fst]. rewrite E1, E2, !cond_Zopp_signed. replace (Z.min e1 (Z.min e1 e2)) with (Z.min e1 e2) by lia.
    replace (Z.min e2 (Z.min e1 e2)) with (Z.min e1 e2) by lia.
    change (same (binary_normalize prec emax (exact_sum (Z.b2z s1) e1 (Z.pos m1) (Z.b2z s2) e2 (Z.pos m2)) (Z.min e1 e2) false)
      (if exact_sum (Z.b2z s1) e1 (Z.pos m1) (Z.b2z s2) e2 (Z.pos m2) =? 0 then 0 else
       round_frac (sign_of (exact_sum (Z.b2z s1) e1 (Z.pos m1) (Z.b2z s2) e2 (Z.pos m2))) (Z.abs (exact_sum (Z.b2z s1) e1 (Z.pos m1) (Z.b2z s2) e2 (Z.pos m2))) 1 (Z.min e1 e2))).
    pose proof (exact_sum_log2 (Z.b2z s1) e1 (Z.pos m1) (Z.b2z s2) e2 (Z.pos m2) (b2z_bit s1) (b2z_bit s2) (nm_sig _ _ _ _ Hx) (nm_sig _ _ _ _ Hy)) as HL.
    cbv zeta in HL. destruct (Z.eqb_spec (exact_sum (Z.b2z s1) e1 (Z.pos m1) (Z.b2z s2) e2 (Z.pos m2)) 0) as [->|Hn]; [done|].
    apply HL in Hn as HL'. apply round_to_same; [done|lia].
Qed.

Lemma native_neg_same f x : same f x -> same (native_neg f) (emu_neg x).
Proof.
  unfold emu_neg. destruct f as [s| | |s m e]; try done; cbn [same native_neg SFopp].
  - intros ->. by destruct s.
  - intros H. apply flip_sign in H. by replace (Z.b2z (negb s)) with (1 - Z.b2z s) by (by destruct s).
Qed.

(** A difference is the sum with the opposite. *)
Lemma native_sub_opp f g x y : same f x -> same g y -> native_sub f g = native_add f (native_neg g).
Proof.
  unfold native_sub, native_add, native_neg. destruct f as [s1| | |s1 m1 e1], g as [s2| | |s2 m2 e2]; try done; intros _ _; cbn [SFsub SFadd SFopp].
  - by destruct s1, s2.
  - cbv zeta. f_equal. destruct s2; cbn [cond_Zopp negb]; lia.
Qed.

Lemma native_sub_same f g x y : same f x -> same g y -> scaled (-1019) 969 f -> scaled (-1019) 969 g -> same (native_sub f g) (emu_sub x y).
Proof.
  intros Hx Hy Hf Hg. rewrite (native_sub_opp f g x y Hx Hy). unfold emu_sub. apply native_add_same; [done|by apply native_neg_same|done|].
  by destruct g.
Qed.

(** ** Square root *)

Lemma round_aux_53 s q e l : 2 ^ 52 <= q < 2 ^ 53 -> -1074 <= e <= 970 ->
  same (binary_round_aux prec emax s q e l) (pack (Z.b2z s) e (round_nearest_even q l)).
Proof.
  intros Hq He. unfold binary_round_aux.
  assert (shr_fexp prec emax q e l = (shr_record_of_loc q l, e)) as ->.
  { unfold shr_fexp. destruct q as [|p|p]; [lia| |lia]. cbn [Zdigits2]. rewrite digits2_log2, (Z.log2_unique (Z.pos p) 52), fexp_normal by lia.
    by replace (52 + 1 + e - 53 - e) with 0 by lia. }
  assert (loc_of_shr_record (shr_record_of_loc q l) = l /\ shr_m (shr_record_of_loc q l) = q) as [-> ->] by (by destruct l as [|[]]).
  assert (2 ^ 52 <= round_nearest_even q l <= 2 ^ 53) as Hr by (destruct l as [|[]]; cbn; repeat case_match; lia).
  pose proof (same_finite s (round_nearest_even q l) e Hr He) as F.
  destruct (shr_fexp prec emax (round_nearest_even q l) e loc_Exact) as [mrs' e'']. cbn [fst snd] in F.
  destruct (shr_m mrs') as [|p|p]; [done| |done]. destruct F as [F1 F2]. by destruct (Z.leb_spec e'' (emax - prec)); [|lia].
Qed.


Lemma native_sqrt_same m e x : same (S754_finite false m e) x -> same (native_sqrt (S754_finite false m e)) (emu_sqrt x).
Proof.
  intros Hx. pose proof (nm_sig _ _ _ _ Hx) as Hm. pose proof (nm_exp _ _ _ _ Hx) as He. cbn [Z.b2z] in *.
  pose proof (Z.div_mod e 2 ltac:(lia)) as D. pose proof (Z.mod_pos_bound e 2 ltac:(lia)) as M.
  rewrite (emu_sqrt_rounds _ _ _ Hx). unfold native_sqrt. cbn [SFsqrt]. unfold SFsqrt_core_binary. cbn [Zdigits2].
  rewrite digits2_log2, (Z.log2_unique (Z.pos m) 52), !Z.div2_div by lia.
  replace ((52 + 1 + e + 1) / 2) with (e / 2 + 27) by (apply (Z.div_unique_pos _ _ _ (e mod 2)); lia).
  rewrite fexp_normal by lia. rewrite Z.min_l by lia.
  replace (e - 2 * (e / 2 + 27 - 53)) with (52 + e mod 2) by lia.
  replace (match 52 + e mod 2 with 0 => Z.pos m | Z.pos _ => Z.shiftl (Z.pos m) (52 + e mod 2) | Z.neg _ => 0 end) with (Z.pos m * 2 ^ (52 + e mod 2)).
  2:{ rewrite <- shl_mul by lia. destruct (52 + e mod 2) eqn:E; try lia; done. }
  set (n := Z.pos m * 2 ^ (52 + e mod 2)). assert (2 ^ 104 <= n < 2 ^ 106) as Hn.
  { subst n. assert (e mod 2 = 0 \/ e mod 2 = 1) as [->| ->] by lia; lia. }
  pose proof (Z.sqrtrem_spec n ltac:(lia)) as S. pose proof (Z.sqrtrem_sqrt n) as Sq. destruct (Z.sqrtrem n) as [q r]. cbn [fst] in Sq. destruct S as [En Hr].
  assert (2 ^ 52 <= q < 2 ^ 53) as Hq by nia.
  set (l := if r =? 0 then loc_Exact else _). assert (round_nearest_even q l = root n) as <-.
  { unfold root. cbv zeta. rewrite <- Sq. replace (n - q * q) with r by lia. subst l.
    destruct (Z.eqb_spec r 0) as [->|Hr0]; [by destruct (Z.leb_spec 0 q); [|lia]|]. by destruct (Z.leb_spec r q). }
  replace (e / 2 + 27 - 53) with (e / 2 - 26) by lia. apply (round_aux_53 false); lia.
Qed.

(** ** Halves and conversions to integers *)

Lemma round_frac_exact s m c e : 2 ^ 52 <= m < 2 ^ 53 -> 0 <= c -> round_frac s (m * 2 ^ c) 1 e = pack s (e + c) m.
Proof.
  intros Hm Hc. replace e with (e + c - c) at 1 by lia. rewrite round_frac_scale by (rewrite ?Z.div_1_r; lia).
  unfold round_frac. cbv zeta. rewrite Z.div_1_r, (Z.log2_unique m 52) by lia. change (52 - 52 <=? 0) with true. cbv iota.
  unfold rne. rewrite Z.mul_1_r, Z.mod_1_r, Z.div_1_r. cbn [Z.mul Z.ltb Z.compare]. f_equal. lia.
Qed.

Lemma native_half_same f x : same f x -> scaled (-1020) 1000 f -> same (native_half f) (emu_half x).
Proof.
  intros Hx Hf. unfold native_half. change (SFldexp prec emax (float64_of_int 1) (-1)) with (S754_finite false 4503599627370496 (-53)).
  destruct f as [s| | |s m e]; try done.
  - cbn in Hx. subst x. by destruct s.
  - cbn in Hf. pose proof (nm_sig _ _ _ _ Hx) as Hm. pose proof (nm_exp _ _ _ _ Hx). rewrite (emu_half_spec _ _ _ _ Hx) by lia.
    cbn [SFmul]. rewrite xorb_false_r, Pos2Z.inj_mul. change (Z.pos 4503599627370496) with (2 ^ 52).
    assert (round_frac (Z.b2z s) (Z.pos m * 2 ^ 52) 1 (e + -53) = pack (Z.b2z s) (e - 1) (Z.pos m)) as <- by (rewrite round_frac_exact by lia; f_equal; lia).
    rewrite (exact_location (Z.pos m * 2 ^ 52)). rewrite <- (Z.div_1_r (Z.pos m * 2 ^ 52)) at 1.
    apply binary_round_aux_spec; rewrite ?Z.div_1_r, ?(Z.log2_unique (Z.pos m * 2 ^ 52) 104); lia.
Qed.

(** Conversions from here on: nothing depends on what is out of range. *)
Section Conversions.
Context `{HO : OutOfRange}.

Lemma converted_value bits f i : truncate f = Some i -> - 2 ^ (bits - 1) <= i < 2 ^ (bits - 1) -> converted bits f = Some i.
Proof. unfold converted. intros -> Hi. rewrite (proj2 (Z.leb_le _ _)), (proj2 (Z.ltb_lt _ _)) by lia. done. Qed.

Lemma int32_value f i : truncate f = Some i -> - 2 ^ 31 <= i < 2 ^ 31 -> int32_of_float f = i.
Proof. intros Ht Hi. unfold int32_of_float. by rewrite (converted_value 32 f i). Qed.
Lemma int64_value f i : truncate f = Some i -> - 2 ^ 63 <= i < 2 ^ 63 -> int64_of_float f = i.
Proof. intros Ht Hi. unfold int64_of_float. by rewrite (converted_value 64 f i). Qed.

Lemma truncate_value s m e : e <= 0 -> truncate (S754_finite s m e) = Some (signed (Z.b2z s) (Z.pos m / 2 ^ (- e))).
Proof.
  intros He. cbn [truncate]. rewrite cond_Zopp_signed. do 2 f_equal. destruct (Z.leb_spec 0 e); [|done].
  replace e with 0 by lia. by rewrite Z.div_1_r, Z.mul_1_r.
Qed.

(** The integer part of a number below 2^31. *)
Lemma integer_part m e : 2 ^ 52 <= m < 2 ^ 53 -> e <= -22 -> 0 <= m / 2 ^ (- e) < 2 ^ 31.
Proof.
  intros Hm He. assert (2 ^ 22 <= 2 ^ (- e)) by (apply Z.pow_le_mono_r; lia).
  split; [apply Z.div_pos; lia|apply Z.div_lt_upper_bound; nia].
Qed.

Lemma int32_trunc s m e : 2 ^ 52 <= Z.pos m < 2 ^ 53 -> e <= -22 ->
  int32_of_float (S754_finite s m e) = signed (Z.b2z s) (Z.pos m / 2 ^ (- e)).
Proof.
  intros Hm He. pose proof (integer_part _ _ Hm He). apply int32_value; [apply truncate_value; lia|]. unfold signed. case_match; lia.
Qed.

Lemma native_trunc_same f x : same f x -> scaled (-1074) (-22) f -> native_trunc f = emu_trunc x.
Proof.
  intros Hx Hf. destruct f as [s| | |s m e]; try done.
  - cbn in Hx. subst x. by destruct s.
  - cbn in Hf. pose proof (nm_sig _ _ _ _ Hx) as Hm. pose proof (integer_part _ e Hm ltac:(lia)).
    rewrite (emu_trunc_spec _ _ _ _ Hx) by lia. unfold native_trunc. rewrite int32_trunc by lia.
    symmetry. apply i32_small. unfold signed. case_match; lia.
Qed.

Lemma normal_inj x s1 e1 m1 s2 e2 m2 : normal x s1 e1 m1 -> normal x s2 e2 m2 -> s1 = s2 /\ e1 = e2 /\ m1 = m2.
Proof.
  intros H1 H2. pose proof (normal_neg _ _ _ _ H1) as N1. pose proof (normal_exponent _ _ _ _ H1) as X1. pose proof (normal_sig _ _ _ _ H1) as S1.
  rewrite (normal_neg _ _ _ _ H2) in N1. rewrite (normal_exponent _ _ _ _ H2) in X1. rewrite (normal_sig _ _ _ _ H2) in S1. lia.
Qed.

(** A float64 read back from a normal word. *)
Lemma same_normal f x s e m : same f x -> normal x s e m -> exists p b, f = S754_finite b p e /\ Z.pos p = m /\ Z.b2z b = s.
Proof.
  intros Hf Hn. destruct f as [b| | |b p e']; try done.
  - cbn in Hf. pose proof (normal_exponent _ _ _ _ Hn) as X. subst x. pose proof (nm_exp _ _ _ _ Hn). destruct b; [change (exponent (Z.b2z true * 2 ^ 63)) with 0 in X|change (exponent (Z.b2z false * 2 ^ 63)) with 0 in X]; lia.
  - destruct (normal_inj _ _ _ _ _ _ _ Hf Hn) as (E1 & E2 & E3). subst e'. by exists p, b.
Qed.

Lemma native_mtwop63_same m e x : same (S754_finite false m e) x -> -563 <= e <= -53 ->
  mtwop63_native (S754_finite false m e) = emu_mtwop63 x.
Proof.
  intros Hx He. pose proof (nm_sig _ _ _ _ Hx) as Hm. unfold mtwop63_native.
  assert (same (float64_of_int 9223372036854775808) (pack 0 11 (2 ^ 52))) as Hc.
  { change (float64_of_int 9223372036854775808) with (S754_finite false 4503599627370496 11). split; [done|by left|lia|cbn; lia]. }
  pose proof (native_mul_same _ _ _ _ Hx Hc) as M. cbn [scaled] in M. specialize (M ltac:(lia)).
  assert (scaled (-563) 458 (float64_of_int 9223372036854775808)) as Hs by (change (float64_of_int 9223372036854775808) with (S754_finite false 4503599627370496 11); cbn; lia).
  specialize (M Hs). assert (normal (pack 0 11 (2 ^ 52)) 0 11 (2 ^ 52)) as Hn by (split; [done|by left|lia|lia]).
  rewrite (emu_mul_rounds _ _ _ _ _ _ _ _ Hx Hn), round_frac_exact in M by (cbn; lia). cbn [Z.b2z Z.lxor] in M.
  destruct (same_normal _ _ 0 (e + 11 + 52) (Z.pos m) M) as (p & b & -> & Ep & Eb); [split; [done|by left|lia|lia]|].
  rewrite (emu_mtwop63_spec _ _ _ Hx) by lia.
  assert (truncate (S754_finite b p (e + 11 + 52)) = Some (Z.pos m * 2 ^ 63 / 2 ^ (- e))) as Et.
  { cbn [truncate]. destruct b; [done|]. cbn [cond_Zopp]. rewrite Ep. f_equal. destruct (Z.leb_spec 0 (e + 11 + 52)).
    - replace (2 ^ 63) with (2 ^ (e + 11 + 52) * 2 ^ (- e)) by (rewrite <- Z.pow_add_r by lia; f_equal; lia). by rewrite Z.mul_assoc, Z.div_mul by (apply Z.pow_nonzero; lia).
    - replace (- e) with (- (e + 11 + 52) + 63) by lia. rewrite Z.pow_add_r, Z.div_mul_cancel_r by (try apply Z.pow_nonzero; lia). done. }
  assert (0 <= Z.pos m * 2 ^ 63 / 2 ^ (- e) < 2 ^ 63) as Hr.
  { assert (2 ^ 53 <= 2 ^ (- e)) by (apply Z.pow_le_mono_r; lia). split; [apply Z.div_pos; lia|apply Z.div_lt_upper_bound; nia]. }
  rewrite (int64_value _ _ Et), u64_small by lia. done.
Qed.

(** ** Floor *)

Lemma top_bit z : 0 <= z < 2 ^ 64 -> z .>> 63 = Z.b2z (Z.testbit z 63).
Proof.
  intros Hz. rewrite shr_div, Z.testbit_eqb by lia. assert (0 <= z / 2 ^ 63 < 2) as Hr by (split; [apply Z.div_pos; lia|apply Z.div_lt_upper_bound; lia]).
  assert (z / 2 ^ 63 = 0 \/ z / 2 ^ 63 = 1) as [->| ->] by lia; done.
Qed.

(** Integers of up to 53 bits are exact. *)
Lemma emu_of_exact i : i <> 0 -> Z.abs i < 2 ^ 53 ->
  normal (emu_of i) (sign_of i) (Z.log2 (Z.abs i) - 52) (Z.abs i * 2 ^ (52 - Z.log2 (Z.abs i))).
Proof.
  intros Hi Hr. set (L := Z.log2 (Z.abs i)). pose proof (Z.log2_spec (Z.abs i) ltac:(lia)) as [L1 L2]. fold L in L1, L2.
  assert (0 <= L < 53) as HL by (split; [apply Z.log2_nonneg|apply Z.log2_lt_pow2; lia]).
  assert (2 ^ L * 2 ^ (52 - L) = 2 ^ 52) as E by (rewrite <- Z.pow_add_r by lia; f_equal; lia).
  rewrite Z.pow_succ_r in L2 by lia. pose proof (Z.pow_pos_nonneg 2 (52 - L) ltac:(lia) ltac:(lia)).
  split; [|unfold sign_of; case_match; tauto|lia|nia].
  unfold emu_of. rewrite f64_scaled_rounds by lia. unfold round_frac. cbv zeta. rewrite Z.div_1_r. fold L.
  destruct (Z.leb_spec (L - 52) 0); [|lia]. unfold rne. rewrite Z.mod_1_r, Z.div_1_r. cbn [Z.mul Z.ltb Z.compare].
  f_equal. f_equal. f_equal. lia.
Qed.

Lemma native_floor_same f x : same f x -> scaled (-1074) (-22) f -> native_floor f = emu_floor x.
Proof.
  intros Hx Hf. destruct f as [s| | |s m e]; try done; [cbn in Hx; subst x; by destruct s|].
  cbn in Hf. pose proof (nm_sig _ _ _ _ Hx) as Hm. rewrite (emu_floor_spec _ _ _ _ Hx) by lia.
  unfold native_floor. cbv zeta. rewrite int32_trunc by lia.
  set (D := 2 ^ (- e)). assert (2 ^ 22 <= D) as HD by (apply Z.pow_le_mono_r; lia).
  pose proof (Z.div_mod (Z.pos m) D ltac:(lia)) as Dm. pose proof (Z.mod_pos_bound (Z.pos m) D ltac:(lia)) as Mm.
  assert (0 <= Z.pos m / D < 2 ^ 31) as Hq by (split; [apply Z.div_pos; lia|apply Z.div_lt_upper_bound; nia]).
  set (q := Z.pos m / D) in *. assert (- 2 ^ 31 < signed (Z.b2z s) q < 2 ^ 31) as Hr by (unfold signed; case_match; lia).
  unfold f64_to_bits. rewrite (same_bits _ _ Hx).
  assert (same (native_of (signed (Z.b2z s) q)) (emu_of (signed (Z.b2z s) q))) as Hy by (apply native_of_same; lia).
  change (float64_of_int ?i) with (native_of i). rewrite (same_bits _ _ Hy). pose proof (same_range _ _ Hx) as Rx. pose proof (same_range _ _ Hy) as Ry.
  set (y := emu_of _) in *. assert (forall z w, 0 <= z < 2 ^ 64 -> z .>> 63 = w -> Z.testbit z 63 = (w =? 1)) as Tb.
  { intros z w Hz <-. rewrite top_bit by done. by destruct (Z.testbit z 63). }
  rewrite top_bit.
  2:{ apply lor_lt_pow2; [lia| |apply lxor_range; lia]. apply land_lt_pow2; [lia|]. apply land_lt_pow2; [lia|]. rewrite u64_mod. apply Z.mod_pos_bound. lia. }
  rewrite Z.lor_spec, !Z.land_spec, Z.lxor_spec, (Tb x _ Rx (normal_neg _ _ _ _ Hx)).
  destruct (Z.eq_dec q 0) as [Eq0|Hq0].
  - assert (y = 0) as -> by (subst y; rewrite Eq0; by destruct s). rewrite Z.bits_0, Eq0, andb_false_r, orb_false_l.
    destruct s; cbn [Z.b2z Z.eqb Pos.eqb xorb signed Z.sub Z.opp Z.add].
    + change (i32 (-1) = i32 (- Z.pos m / D)). f_equal. apply (Z.div_unique_pos _ _ _ (D - Z.pos m)); lia.
    + rewrite Eq0 in Dm. change (signed 0 (Z.pos m)) with (Z.pos m). by rewrite (Z.div_small (Z.pos m)) by lia.
  - assert (normal y (Z.b2z s) e (q * D) /\ 0 < q) as [Hny Hqp].
    { assert (0 < q) as Hqp by lia. assert (Z.log2 q = 52 + e) as EL.
      { subst q D. rewrite <- shr_div, Z.log2_shiftr, (Z.log2_unique (Z.pos m) 52) by lia.
        destruct (Z.le_gt_cases 0 (52 - - e)); [lia|]. exfalso. rewrite Z.div_small in Hqp; [lia|]. split; [lia|].
        apply Z.lt_le_trans with (2 ^ 53); [lia|]. apply Z.pow_le_mono_r; lia. }
      pose proof (emu_of_exact (signed (Z.b2z s) q)) as E. fold y in E.
      assert (Z.abs (signed (Z.b2z s) q) = q /\ sign_of (signed (Z.b2z s) q) = Z.b2z s /\ signed (Z.b2z s) q <> 0) as (A1 & A2 & A3).
      { unfold sign_of, signed. destruct s; cbn [Z.b2z Z.eqb Pos.eqb]; (split; [lia|split; [case_match; lia|lia]]). }
      rewrite A1, A2, EL in E. replace (52 + e - 52) with e in E by lia. replace (52 - (52 + e)) with (- e) in E by lia. fold D in E.
      split; [apply E; lia|lia]. }
    rewrite (Tb y _ Ry (normal_neg _ _ _ _ Hny)).
    destruct s; cbn [Z.b2z Z.eqb Pos.eqb xorb signed].
    + rewrite !andb_true_r, orb_false_r. assert (u64 (y - x) .>> 63 = if q * D =? Z.pos m then 0 else 1) as Et.
      { rewrite (nm_pack _ _ _ _ Hx), (nm_pack _ _ _ _ Hny). cbn [Z.b2z]. unfold pack. destruct (Z.eqb_spec (q * D) (Z.pos m)) as [->|Hne].
        - by rewrite Z.sub_diag.
        - rewrite shr_div, u64_mod by lia. replace (_ mod 2 ^ 64) with (q * D - Z.pos m + 2 ^ 64) by (apply (Z.mod_unique_pos _ _ (-1)); lia).
          symmetry. apply (Z.div_unique_pos _ _ _ (q * D - Z.pos m + 2 ^ 63)); lia. }
      assert (0 <= u64 (y - x) < 2 ^ 64) as Ru by (rewrite u64_mod; apply Z.mod_pos_bound; lia). rewrite (Tb _ _ Ru Et). f_equal.
      destruct (Z.eqb_spec (q * D) (Z.pos m)); cbn [Z.eqb Pos.eqb Z.b2z].
      * change (i32 0) with 0. apply (Z.div_unique_pos _ _ _ 0); lia.
      * change (i32 1) with 1. apply (Z.div_unique_pos _ _ _ (D - Z.pos m mod D)); lia.
    + rewrite andb_false_r, orb_false_l. cbn [Z.b2z]. change (i32 0) with 0. f_equal. lia.
Qed.

(** ** Rounding with a large constant *)

(** Adding 2^52 to a small number leaves no room for its fraction. *)
Lemma round_magic s m e : 2 ^ 52 <= m < 2 ^ 53 -> e <= -22 ->
  round_frac s (2 ^ 52 * 2 ^ (- e) + m) 1 e = pack s 0 (2 ^ 52 + rne m (2 ^ (- e))).
Proof.
  intros Hm He. set (D := 2 ^ (- e)). assert (2 ^ 22 <= D) as HD by (apply Z.pow_le_mono_r; lia).
  unfold round_frac. cbv zeta. rewrite Z.div_1_r. rewrite (Z.log2_unique _ (52 - e)).
  - replace (52 - e - 52) with (- e) by lia. destruct (Z.leb_spec (- e) 0); [lia|]. fold D. rewrite Z.mul_1_l.
    change (2 ^ 52 * D + m) with (2 * 2 ^ 51 * D + m). rewrite rne_shift by lia. f_equal. lia.
  - lia.
  - replace (Z.succ (52 - e)) with (53 + - e) by lia. replace (52 - e) with (52 + - e) by lia. rewrite !Z.pow_add_r by lia. fold D. lia.
Qed.

Lemma rne_small m D : 2 ^ 52 <= m < 2 ^ 53 -> 2 ^ 22 <= D -> 0 <= rne m D <= 2 ^ 31.
Proof.
  intros Hm HD. pose proof (Z.mod_pos_bound m D ltac:(lia)). pose proof (Z.div_mod m D ltac:(lia)).
  assert (0 <= m / D < 2 ^ 31) by (split; [apply Z.div_pos; lia|apply Z.div_lt_upper_bound; nia]).
  unfold rne. cbv zeta. repeat case_match; lia.
Qed.

(** The sum of a number and 2^52 of its sign, converted back. *)
Lemma magic_value s f x y g : same f x -> normal y (Z.b2z s) 0 (2 ^ 52) -> forall m e, f = S754_finite s m e -> -1019 <= e <= -22 ->
  same g (emu_add x y) -> int64_of_float g = signed (Z.b2z s) (2 ^ 52 + rne (Z.pos m) (2 ^ (- e))).
Proof.
  intros Hx Hy m e -> He Hg. pose proof (nm_sig _ _ _ _ Hx) as Hm.
  assert (2 ^ 22 <= 2 ^ (- e)) as HD by (apply Z.pow_le_mono_r; lia). pose proof (rne_small _ _ Hm HD) as Hr.
  assert (emu_add x y = pack (Z.b2z s) 0 (2 ^ 52 + rne (Z.pos m) (2 ^ (- e)))) as E.
  { rewrite (emu_add_rounds _ _ _ _ _ _ _ _ Hx Hy) by lia. rewrite <- round_magic by lia.
    assert (exact_sum (Z.b2z s) e (Z.pos m) (Z.b2z s) 0 (2 ^ 52) = signed (Z.b2z s) (2 ^ 52 * 2 ^ (- e) + Z.pos m)) as ->.
    { unfold exact_sum. cbv zeta. rewrite Z.min_l, Z.sub_diag, Z.mul_1_r, Z.sub_0_l by lia. unfold signed. destruct s; cbn [Z.b2z Z.eqb]; lia. }
    rewrite Z.min_l by lia. set (v := 2 ^ 52 * 2 ^ (- e) + Z.pos m). assert (0 < v) by lia. clearbody v. unfold sign_of, signed.
    destruct s; cbn [Z.b2z Z.eqb].
    - destruct (Z.eqb_spec (- v) 0), (Z.ltb_spec (- v) 0); try lia. by rewrite Z.abs_opp, Z.abs_eq by lia.
    - destruct (Z.eqb_spec v 0), (Z.ltb_spec v 0); try lia. by rewrite Z.abs_eq by lia. }
  rewrite E in Hg. destruct (same_normal _ _ (Z.b2z s) 0 (2 ^ 52 + rne (Z.pos m) (2 ^ (- e))) Hg) as (p & b & -> & Ep & Eb).
  { split; [done|apply b2z_bit|lia|lia]. }
  apply int64_value; [by rewrite truncate_value, Ep, Eb, Z.div_1_r by lia|]. unfold signed. case_match; lia.
Qed.

Lemma native_rint_same f x : same f x -> scaled (-1019) (-22) f -> rint_native64 f = emu_rint x.
Proof.
  intros Hx Hf. destruct f as [s| | |s m e]; try done; [cbn in Hx; subst x; by destruct s|].
  cbn in Hf. pose proof (nm_sig _ _ _ _ Hx) as Hm. rewrite (emu_rint_spec _ _ _ _ Hx) by lia.
  assert (2 ^ 22 <= 2 ^ (- e)) as HD by (apply Z.pow_le_mono_r; lia). pose proof (rne_small _ _ Hm HD) as Hr.
  unfold rint_native64. cbv zeta. unfold f64_to_bits. rewrite (same_bits _ _ Hx).
  assert (same (float64_of_int 4503599627370496) (pack 0 0 (2 ^ 52))) as Hc.
  { change (float64_of_int 4503599627370496) with (S754_finite false 4503599627370496 0). split; [done|by left|lia|cbn; lia]. }
  assert (scaled (-1019) 969 (float64_of_int 4503599627370496)) as Hs.
  { change (float64_of_int 4503599627370496) with (S754_finite false 4503599627370496 0). cbn. lia. }
  assert (scaled (-1019) 969 (S754_finite s m e)) as Hs2 by (cbn; lia).
  assert (i32 (i64 x .>> 63) = if s then -1 else 0) as ->.
  { pose proof (normal_mask _ _ _ _ Hx) as M. pose proof (same_range _ _ Hx). pose proof (normal_neg _ _ _ _ Hx) as N. rewrite shr_div in N by lia.
    pose proof (Z.div_mod x (2 ^ 63) ltac:(lia)) as Dx. pose proof (Z.mod_pos_bound x (2 ^ 63) ltac:(lia)) as Mx.
    destruct s; cbn [Z.b2z] in *.
    - assert (i64 x = x - 2 ^ 64) as ->.
      { unfold i64. rewrite u64_mod. assert (2 ^ 63 <= x) by lia. replace ((x + 9223372036854775808) mod 2 ^ 64) with (x - 2 ^ 63); [lia|]. apply (Z.mod_unique_pos _ _ 1); lia. }
      rewrite shr_div by lia. replace ((x - 2 ^ 64) / 2 ^ 63) with (-1) by (apply (Z.div_unique_pos _ _ _ (x - 2 ^ 63)); lia). done.
    - assert (x < 2 ^ 63) by lia. rewrite i64_small, shr_div, N by lia. done. }
  destruct s.
  - rewrite Z.land_m1_l, <- Z.lxor_assoc, Z.lxor_nilpotent, Z.lxor_0_l.
    pose proof (native_sub_same _ _ _ _ Hx Hc Hs2 Hs) as M. unfold emu_sub in M.
    assert (normal (pack 0 0 (2 ^ 52) .^ b63) 1 0 (2 ^ 52)) as Hy by (apply (flip_sign _ 0); split; [done|by left|lia|lia]).
    rewrite (magic_value true _ _ _ _ Hx Hy m e eq_refl ltac:(lia) M). cbn [signed Z.b2z Z.eqb Pos.eqb].
    rewrite (i64_small (_ + _)) by lia. f_equal. lia.
  - rewrite Z.land_0_l, Z.lxor_0_r. pose proof (native_add_same _ _ _ _ Hx Hc Hs2 Hs) as M.
    assert (normal (pack 0 0 (2 ^ 52)) 0 0 (2 ^ 52)) as Hy by (split; [done|by left|lia|lia]).
    rewrite (magic_value false _ _ _ _ Hx Hy m e eq_refl ltac:(lia) M). cbn [signed Z.b2z Z.eqb].
    rewrite (i64_small (_ - _)) by lia. f_equal. lia.
Qed.
End Conversions.
