(* ===== verification/FloatProps.v ===== *)
(** The floating-point builds of the signer: what the emulation computes, and that
    the native build computes the same. *)
From Stdlib Require Import ZArith Lia SpecFloat.
From stdpp Require Import base numbers list.
From S2P Require Import Prelude Flr FlrEmu EmuFacts EmuAdd EmuRound FlrNative NativeFacts.
Local Open Scope Z_scope.

(** (C11) The emulated operations are those of IEEE 754: on words that hold
    normal numbers (-1)^s m 2^e, while the result stays in range, a product, a
    quotient and a sum are the exact ones rounded once to 53 bits, to nearest
    with ties to even ([round_frac]), an exact zero sum is +0, and a square root
    is the nearest 53-bit number to the exact root. *)
Theorem emu_correctly_rounded x y s1 e1 m1 s2 e2 m2 :
  normal x s1 e1 m1 -> normal y s2 e2 m2 ->
  (-1126 <= e1 + e2 <= 918 -> emu_mul x y = round_frac (s1 .^ s2) (m1 * m2) 1 (e1 + e2)) /\
  (-1021 <= e1 - e2 <= 1023 -> f64_div x y = round_frac (s1 .^ s2) (2 ^ 55 * m1) m2 (e1 - e2 - 55)) /\
  (-1019 <= Z.max e1 e2 <= 970 ->
   let S := exact_sum s1 e1 m1 s2 e2 m2 in
   emu_add x y = if S =? 0 then 0 else round_frac (sign_of S) (Z.abs S) 1 (Z.min e1 e2)) /\
  (s1 = 0 -> emu_sqrt x = pack 0 (e1 / 2 - 26) (root (m1 * 2 ^ (52 + e1 mod 2)))).
Proof.
  intros Hx Hy. split; [intros; by apply emu_mul_rounds|]. split; [intros; by apply emu_div_rounds|].
  split; [intros; by apply emu_add_rounds|]. intros ->. by apply emu_sqrt_rounds.
Qed.

(** 3 and -1.5 *)
Lemma emu_correctly_rounded_witness :
  normal 0x4008000000000000 0 (-51) 6755399441055744 /\ normal 0xBFF8000000000000 1 (-52) 6755399441055744 /\
  emu_mul 0x4008000000000000 0xBFF8000000000000 = round_frac 1 (6755399441055744 * 6755399441055744) 1 (-103) /\
  emu_add 0x4008000000000000 0xBFF8000000000000 = 0x3FF8000000000000.
Proof.
  assert (normal 0x4008000000000000 0 (-51) 6755399441055744) as Hx by (split; [done|by left|lia|lia]).
  assert (normal 0xBFF8000000000000 1 (-52) 6755399441055744) as Hy by (split; [done|by right|lia|lia]).
  pose proof (emu_correctly_rounded _ _ _ _ _ _ _ _ Hx Hy) as (M & _ & A & _).
  split; [exact Hx|]. split; [exact Hy|]. split; [apply M; lia|]. rewrite A by lia. reflexivity.
Defined.

(** (C39) The conversions of the emulation to integers: nearest (ties to even),
    floor, truncation, and floor of x 2^63. *)
Theorem emu_conversions_exact x s e m : normal x s e m ->
  (e <= -22 -> emu_rint x = i32 (signed s (rne m (2 ^ (- e))))) /\
  (e <= 0 -> emu_floor x = i32 (signed s m / 2 ^ (- e)) /\ emu_trunc x = i32 (signed s (m / 2 ^ (- e)))) /\
  (s = 0 -> e <= -53 -> emu_mtwop63 x = m * 2 ^ 63 / 2 ^ (- e)).
Proof.
  intros H. split; [by apply emu_rint_spec|]. split; [by split; [apply emu_floor_spec|apply emu_trunc_spec]|]. intros ->. by apply emu_mtwop63_spec.
Qed.

(** -2.5 *)
Lemma emu_conversions_exact_witness :
  normal 0xC004000000000000 1 (-51) 5629499534213120 /\
  emu_rint 0xC004000000000000 = -2 /\ emu_floor 0xC004000000000000 = -3 /\ emu_trunc 0xC004000000000000 = -2.
Proof.
  assert (normal 0xC004000000000000 1 (-51) 5629499534213120) as H by (split; [done|by right|lia|lia]).
  pose proof (emu_conversions_exact _ _ _ _ H) as (R & F & _). destruct (F ltac:(lia)) as [F1 F2].
  split; [exact H|]. rewrite R, F1, F2 by lia. split; [reflexivity|split; reflexivity].
Defined.

(** (C10) The two builds agree: on a float64 and the word that holds it (zeros of
    either sign and normal numbers whose results stay normal, and for the
    conversions to integers numbers below 2^31, as the code asks) the operations
    of the native build give the number the emulation gives, whatever the
    processor makes of a conversion out of range. *)
Theorem builds_agree `{OutOfRange} f g x y : same f x -> same g y ->
  (scaled (-563) 458 f -> scaled (-563) 458 g -> same (@f64_mul native f g) (@f64_mul emu x y)) /\
  (scaled (-1019) 969 f -> scaled (-1019) 969 g ->
   same (@f64_add native f g) (@f64_add emu x y) /\ same (@f64_sub native f g) (@f64_sub emu x y)) /\
  same (@f64_neg native f) (@f64_neg emu x) /\
  (scaled (-1020) 1000 f -> same (@f64_half native f) (@f64_half emu x)) /\
  (scaled (-1074) (-22) f -> @f64_trunc native f = @f64_trunc emu x) /\
  (scaled (-1074) (-22) f -> @f64_floor native f = @f64_floor emu x) /\
  (scaled (-1019) (-22) f -> @f64_rint native f = @f64_rint emu x).
Proof.
  intros Hx Hy. split; [by apply native_mul_same|]. split; [split; [by apply native_add_same|by apply native_sub_same]|].
  split; [by apply native_neg_same|]. split; [by apply native_half_same|]. split; [by apply native_trunc_same|].
  split; [by apply native_floor_same|by apply native_rint_same].
Qed.

(** amd64: the smallest integer stands for what is out of range. *)
Definition amd64_conversions : OutOfRange := {| int32_other _ := - 2 ^ 31; int64_other _ := - 2 ^ 63 |}.
#[local] Existing Instance amd64_conversions.

(** -2.5 and minus zero *)
Lemma builds_agree_witness :
  let f := S754_finite true 5629499534213120 (-51) in
  same f 0xC004000000000000 /\ same (S754_zero true) (2 ^ 63) /\
  same (native_mul f (S754_zero true)) 0 /\ same (native_add f (S754_zero true)) 0xC004000000000000 /\ rint_native64 f = -2.
Proof.
  cbv zeta. assert (same (S754_finite true 5629499534213120 (-51)) 0xC004000000000000) as Hf by (split; [done|by right|lia|lia]).
  assert (same (S754_zero true) (2 ^ 63)) as Hg by done.
  destruct (builds_agree _ _ _ _ Hf Hg) as (M & A & _ & _ & _ & _ & R).
  split; [exact Hf|]. split; [exact Hg|].
  split; [apply M; cbn; lia|]. split; [apply A; cbn; lia|]. cbn [f64_rint native] in R. rewrite R; [reflexivity|cbn; lia].
Defined.

(** Inverses, roots, conversions from integers and the product by 2^63 agree too. *)
Theorem builds_agree_positive `{OutOfRange} m e x : same (S754_finite false m e) x ->
  same (@f64_sqrt native (S754_finite false m e)) (@f64_sqrt emu x) /\
  (-1074 <= e <= 969 -> same (@f64_inv native (S754_finite false m e)) (@f64_inv emu x)) /\
  (-563 <= e <= -53 -> @f64_mtwop63 native (S754_finite false m e) = @f64_mtwop63 emu x) /\
  (forall i, - 2 ^ 63 < i < 2 ^ 63 -> same (@f64_of native i) (@f64_of emu i)).
Proof.
  intros Hx. split; [by apply native_sqrt_same|]. split; [|split; [by apply native_mtwop63_same|exact native_of_same]].
  intros He. assert (same (S754_finite false 4503599627370496 (-52)) emu_ONE) as H1 by (split; [done|by left|lia|cbn; lia]).
  apply (native_div_same _ _ _ _ _ _ _ _ H1 Hx). lia.
Qed.

(** The shifts of 32-bit processors are those of 64-bit ones. *)
Theorem shifts_agree x n : 0 <= x < 2 ^ 64 -> 0 <= n < 64 ->
  ursh32 x n = ursh x n /\ ulsh32 x n = ulsh x n /\ (x < 2 ^ 63 -> irsh32 x n = irsh x n /\ irsh32 (- x) n = irsh (- x) n).
Proof.
  intros Hx Hn. unfold ursh32, ulsh32, irsh32, ursh, ulsh, irsh. cbv zeta. change 0x1F with (2 ^ 5 - 1). rewrite land_low, (shr_div n) by lia.
  assert (n / 2 ^ 5 = 0 /\ n mod 2 ^ 5 = n \/ 32 <= n /\ n / 2 ^ 5 = 1 /\ n mod 2 ^ 5 = n - 32) as [[-> ->]|(Hn32 & -> & ->)].
  { destruct (Z.lt_ge_cases n 32); [left; split; [apply Z.div_small|apply Z.mod_small]; lia|right].
    split; [done|]. split; symmetry; [apply (Z.div_unique_pos _ _ _ (n - 32))|apply (Z.mod_unique_pos _ _ 1)]; lia. }
  - rewrite !Z.land_0_r, !Z.lxor_0_r. done.
  - change (u64 (- (1))) with (2 ^ 64 - 1). assert (0 <= x .>> 32 < 2 ^ 64) by (rewrite shr_div by lia; split; [apply Z.div_pos; lia|apply Z.div_lt_upper_bound; lia]).
    assert (0 <= u64 (x .<< 32) < 2 ^ 64) by (rewrite u64_mod; apply Z.mod_pos_bound; lia).
    rewrite !land_low, !Z.mod_small by (try apply lxor_range; lia).
    rewrite <- !Z.lxor_assoc, !Z.lxor_nilpotent, !Z.lxor_0_l, Z.shiftr_shiftr by lia. split; [f_equal; lia|].
    split; [|intros _; change (- (1)) with (-1); rewrite !Z.land_m1_r, <- !Z.lxor_assoc, !Z.lxor_nilpotent, !Z.lxor_0_l, !Z.shiftr_shiftr by lia; split; f_equal; lia].
    rewrite !shl_mul, !u64_mod by lia. rewrite Z.mul_mod_idemp_l by lia. rewrite <- Z.mul_assoc, <- Z.pow_add_r by lia. do 3 f_equal. lia.
Qed.
