(* ===== verification/Examples.v ===== *)
(** Concrete inputs: a stand-in for SHAKE256 and a private key of degree 4.

    [demo_shake] only looks at the length of what it absorbs, so a run of the
    signer on it sees the same nonce and the same sampler seed in every turn. *)
From Stdlib Require Import ZArith Lia.
From stdpp Require Import base numbers list strings.
From S2P Require Import Prelude Bits Codec Util Verify Sign.
Local Open Scope Z_scope.

Definition demo_shake : Shake := fun m i =>
  ((Z.of_nat i * Z.of_nat i * 7919 + Z.of_nat i * 104729 + 13) / 8 + 31 * Z.of_nat (length m)) mod 256.

#[export] Instance demo_shake_laws : @ShakeLaws demo_shake.
Proof. intros m i. by apply Z.mod_pos_bound. Qed.

Definition demo_f : list Z := [62; -23; 18; -13].
Definition demo_g : list Z := [-34; 7; -58; -16].
Definition demo_F : list Z := [24; -19; -96; 12].
Definition demo_G : list Z := [84; 30; 16; 9].

(** The encoded key: header, then f, g and F, a byte a coefficient. *)
Definition demo_skey : list Z := 82 :: (u8 <$> demo_f ++ demo_g ++ demo_F).
Lemma demo_skey_bytes : Forall is_byte demo_skey.
Proof. apply bytes_dec. vm_compute. reflexivity. Defined.

Definition demo_seed : list Z := replicate 40 1.

(** The polynomials of the key solve the NTRU equation f G - g F = q. *)
Example demo_ntru :
  zip_with Z.sub
    ((fun i => Ntt.nega_coeff 4 (get demo_f) (get demo_G) i) <$> seq 0 4)
    ((fun i => Ntt.nega_coeff 4 (get demo_g) (get demo_F) i) <$> seq 0 4) = [12289; 0; 0; 0].
Proof. vm_compute. reflexivity. Qed.

(** The key it decodes to. *)
Definition demo_key : signing_key := SigningKey 2 demo_f demo_g demo_F demo_G [3124; 1358; 5750; 2790]
  (@hash_verifying_key demo_shake [2; 48; 208; 84; 229; 157; 138; 230]).
Lemma demo_key_loads : @sign_load demo_shake 2 10 demo_skey = Ok demo_key.
Proof. vm_compute. reflexivity. Defined.

(** With [demo_shake] every turn sees the same nonce and sampler seed. *)
Lemma demo_seeds counter : @sign_seeds demo_shake demo_seed counter = @sign_seeds demo_shake demo_seed 0.
Proof. vm_compute. reflexivity. Defined.

(** The signature of the message [7; 8] in the context [1; 2]. *)
Definition demo_sig : list Z :=
  [50; 85; 86; 19; 139; 192; 176; 91; 195; 230; 197; 96; 182; 201; 151; 32; 102; 103; 36; 157; 209; 194;
   110; 213; 249; 216; 115; 202; 220; 171; 53; 122; 124; 57; 178; 231; 215; 132; 236; 15; 239; 54; 214;
   24; 125; 228; 0].
