(* ===== verification/Signature.v ===== *)
(** What signing guarantees ([sign.go], [sign_core.go]).

    Whatever the floating-point operations compute, a signature leaves the loop
    only after the norm test and a successful encoding: it is well-formed and
    short.  It verifies when the sampled point, rounded to integers, is a point
    of the lattice: that is all that is asked of the floating-point code. *)
From Stdlib Require Import ZArith Lia.
From stdpp Require Import base numbers list strings.
From S2P Require Import Prelude Mq Ntt MqTables MqPoly Bits Codec Util Verify Flr Fpoly Sampler FpolyFacts Sign FlrEmu Examples.
Local Open Scope Z_scope.

(** The verifying key of a completed private key. *)
Definition key_of (k : signing_key) : list Z :=
  Z.of_nat (sk_logn k) :: fst (modq_encode (sk_logn k) (sk_h k) (replicate (VerifyingKeySize (sk_logn k) - 1) 0)).

(** Integer vectors (z0, z1) of the lattice z0 + h z1 = 0 modulo q, of a size
    that the 16-bit differences do not wrap. *)
Definition on_lattice (logn : nat) (h z0 z1 : list Z) : Prop :=
  forall i, (i < degree logn)%nat ->
    -20000 <= z0.[i] <= 20000 /\ -20000 <= z1.[i] <= 20000 /\
    z0.[i] + nega_coeff (2 ^ logn) (get h) (get z1) i ==[q] 0.

Lemma abs_square_le a b : Z.abs a <= Z.abs b -> a * a <= b * b.
Proof. intros. rewrite <- (Z.abs_square a), <- (Z.abs_square b). apply Z.square_le_mono_nonneg; lia. Qed.

(** Centring picks the smallest representative. *)
Lemma center_square_le x s : s ==[q] x -> center (x mod q) * center (x mod q) <= s * s.
Proof.
  intros [Hs]. rewrite <- Hs.
  pose proof (Z.div_mod s q ltac:(done)). pose proof (Z.mod_pos_bound s q ltac:(done)) as Hb.
  set (r := s mod q) in *. set (k := s / q) in *. clearbody r k. clear Hs.
  unfold center, q in *. destruct (Z.lt_trichotomy k 0) as [Hk|[-> |Hk]];
    destruct (Z.leb_spec r 6144); apply abs_square_le; lia.
Qed.

Lemma cand_norm_le logn c h z0 z1 s2 :
  poly logn is_ext c -> length s2 = degree logn -> (forall i, (i < degree logn)%nat -> s2.[i] = cand_s2 z1 i) ->
  on_lattice logn h z0 z1 ->
  sig_norm logn c s2 h <=
  zsum (degree logn) (fun i => cand_s1 c z0 i * cand_s1 c z0 i) + sqnorm s2.
Proof.
  intros [Lc Hc] Ls Hs Hl. unfold sig_norm. rewrite (sqnorm_zsum s2 (2 ^ logn)) by done.
  apply Z.add_le_mono_r. apply zsum_le. intros i Hi.
  change (2 ^ logn)%nat with (degree logn) in Hi.
  destruct (Hl i Hi) as (R0 & R1 & Hz).
  pose proof (get_Forall _ _ i Hc ltac:(by rewrite Lc)) as Hci. unfold is_ext in Hci.
  unfold cand_s1. rewrite i16_small by (unfold q in *; lia).
  unfold s1_coeff. apply center_square_le.
  assert (nega_coeff (2 ^ logn) (get h) (get s2) i = - nega_coeff (2 ^ logn) (get h) (get z1) i) as ->.
  { unfold nega_coeff. rewrite <- zsum_opp. apply zsum_ext. intros j Hj.
    assert (forall t, (t < degree logn)%nat -> s2.[t] = - z1.[t]) as He.
    { intros t Ht. rewrite Hs by done. unfold cand_s2. destruct (Hl t Ht) as (_ & ? & _).
      apply i16_small. lia. }
    change (2 ^ logn)%nat with (degree logn) in *.
    destruct (Nat.leb_spec j i); rewrite He by lia; ring. }
  rewrite cong_iff_divide in Hz |- *. destruct Hz as [k Hk]. exists (- k). lia.
Qed.

(** * The loop *)

Lemma sign_emit_length logn nonce hm z0 z1 s2 sig fin s2' sig' :
  (1 <= logn <= 10)%nat -> length s2 = degree logn -> length nonce = 40%nat ->
  length sig = SignatureSize logn ->
  sign_emit logn nonce hm z0 z1 s2 sig = (fin, s2', sig') ->
  length s2' = degree logn /\ length sig' = SignatureSize logn.
Proof.
  intros Hlogn Hl Hno Hsig. unfold sign_emit.
  pose proof (signature_norm_spec logn hm z0 z1 s2 Hl) as Hn.
  destruct (signature_norm logn hm z0 z1 s2) as [sqn s]. destruct Hn as (Ls & _).
  pose proof (signature_size_ge logn ltac:(lia)).
  destruct (negb _); [by intros [= _ <- <-]|].
  pose proof (comp_encode_spec logn s (drop 41 sig) Ls) as He.
  destruct (comp_encode logn s (drop 41 sig)) as [e ok]. destruct He as [Le _].
  rewrite length_drop in Le. destruct ok; intros [= _ <- <-]; split; try done;
    rewrite !length_app, ?length_drop, !length_take, ?length_set, ?length_app, ?length_take; lia.
Qed.

Section Loop.
Context `{HF : F64} `{Hsh : Shake} {Hlaws : ShakeLaws}.

(** The rounded point one turn of the loop samples for the target [c]. *)
Definition sign_point (fuel : nat) (k : signing_key) (c subseed : list Z) : option (list Z * list Z) :=
  let logn := sk_logn k in
  match sign_sample fuel logn (sk_f k) (sk_g k) (sk_F k) (sk_G k) c (newSHAKE256prng subseed) with
  | None => None
  | Some ((t0, t1), _) =>
      let '(b00, b01, b10, b11) := basis_to_FFT logn (sk_f k) (sk_g k) (sk_F k) (sk_G k)
        (scratch (degree logn)) (scratch (degree logn)) (scratch (degree logn)) (scratch (degree logn)) in
      let '(t0, t1) := lattice_point logn t0 t1 b00 b01 b10 b11 in
      Some (f64_rint <$> t0, f64_rint <$> t1)
  end.

Lemma sign_seeds_spec seed counter :
  let '(nonce, subseed) := sign_seeds seed counter in length nonce = 40%nat /\ Forall is_byte nonce.
Proof.
  unfold sign_seeds, xof_read. cbn [fst]. split; [by rewrite length_fmap, length_seq|].
  apply Forall_fmap, Forall_forall. intros i _. apply shake_byte.
Qed.

(** What one successful turn has done. *)
Definition emitted (fuel : nat) (k : signing_key) (ctx : list Z) (id : Z) (data seed : list Z)
    (counter : Z) (sig : list Z) : Prop :=
  let logn := sk_logn k in
  exists c z0 z1 s2 e,
    let nonce := fst (sign_seeds seed counter) in
    hash_to_point fuel logn nonce (sk_hashed_vk k) ctx id data (replicate (degree logn) 0) = Some (Ok c) /\
    sign_point fuel k c (snd (sign_seeds seed counter)) = Some (z0, z1) /\
    poly logn comp_range s2 /\ (forall i, (i < degree logn)%nat -> s2.[i] = cand_s2 z1 i) /\
    zsum (degree logn) (fun i => cand_s1 c z0 i * cand_s1 c z0 i) + sqnorm s2 <= sqbeta.[logn] /\
    sig = (48 + Z.of_nat logn) :: nonce ++ e /\ length e = (SignatureSize logn - 41)%nat /\
    Forall is_byte e /\
    comp_encode logn s2 (replicate (SignatureSize logn - 41) 0) = (e, true).

(** One turn: the state keeps its shape, and a signature is [emitted]. *)
Lemma sign_attempt_spec fuel k ctx id data seed counter hm s2 sig fin hm' s2' sig' :
  let logn := sk_logn k in
  (1 <= logn <= 10)%nat -> length hm = degree logn -> length s2 = degree logn ->
  length sig = SignatureSize logn ->
  sign_attempt fuel logn (sk_f k) (sk_g k) (sk_F k) (sk_G k) (sk_hashed_vk k) ctx id data seed counter
    hm s2 sig = Some (Ok (fin, hm', s2', sig')) ->
  length hm' = degree logn /\ length s2' = degree logn /\ length sig' = SignatureSize logn /\
  (fin = true -> emitted fuel k ctx id data seed counter sig').
Proof using Hlaws.
  cbv zeta. intros Hl Hh Hs2 Hsig. unfold sign_attempt, emitted.
  pose proof (sign_seeds_spec seed counter) as Hseeds.
  destruct (sign_seeds seed counter) as [nonce subseed]. destruct Hseeds as [Hno Hbno]. cbn [fst snd].
  destruct (hash_to_point fuel _ nonce _ ctx id data hm) as [[c|]|] eqn:Ehp; [|done|done].
  assert (hash_to_point fuel (sk_logn k) nonce (sk_hashed_vk k) ctx id data
    (replicate (degree (sk_logn k)) 0) = Some (Ok c)) as Ehp'.
  { unfold hash_to_point in Ehp |- *. destruct (hash_to_point_input _ _ _ _ _) as [sh|] eqn:Ein; [|done].
    pose proof (hash_to_point_overwrites fuel (sk_logn k) nonce (sk_hashed_vk k) ctx id data hm
      (replicate (degree (sk_logn k)) 0) sh Ein Hh ltac:(by rewrite length_replicate)) as Ho.
    unfold hash_to_point in Ho. rewrite Ein in Ho. by rewrite <- Ho. }
  pose proof (hash_to_point_ext _ _ _ _ _ _ _ _ _ Hh Ehp) as [Lc _].
  destruct (sign_sample _ _ _ _ _ _ _ _) as [[[t0 t1] r]|] eqn:Esm; [|done].
  destruct (basis_to_FFT _ _ _ _ _ _ _ _ _) as [[[b00 b01] b10] b11] eqn:Eb.
  destruct (lattice_point _ _ _ _ _ _ _) as [x0 x1] eqn:El.
  destruct (sign_emit _ _ _ _ _ _ _) as [[d s] sg] eqn:Ee. intros [= <- <- <- <-].
  destruct (sign_emit_length _ _ _ _ _ _ _ _ _ _ Hl Hs2 Hno Hsig Ee) as [L1 L2].
  repeat (split; [done|]). intros ->.
  apply sign_emit_spec in Ee as (Hr & Hc & Hz & e & He); [|done|done|done|done].
  exists c, (f64_rint <$> x0), (f64_rint <$> x1), s, e.
  split; [done|]. split; [by unfold sign_point; rewrite Esm, Eb, El|]. done.
Qed.

Lemma sign_core_loop_spec turns fuel k ctx id data seed counter hm s2 sig sig' :
  let logn := sk_logn k in
  (1 <= logn <= 10)%nat -> length hm = degree logn -> length s2 = degree logn ->
  length sig = SignatureSize logn ->
  sign_core_loop turns fuel logn (sk_f k) (sk_g k) (sk_F k) (sk_G k) (sk_hashed_vk k) ctx id data seed counter
    hm s2 sig = Some (Ok sig') ->
  exists counter', counter <= counter' < counter + Z.of_nat turns /\
    emitted fuel k ctx id data seed counter' sig'.
Proof using Hlaws.
  cbv zeta. intros Hl. revert counter hm s2 sig.
  induction turns as [|turns IH]; intros counter hm s2 sig Hh Hs2 Hsig; [done|]. cbn [sign_core_loop].
  destruct (sign_attempt _ _ _ _ _ _ _ _ _ _ _ _ _ _ _) as [[[[[fin c] s] sg]|]|] eqn:E; [|done|done].
  apply sign_attempt_spec in E as (L1 & L2 & L3 & Hem); [|done..].
  destruct fin.
  - intros [= <-]. exists counter. split; [lia|]. by apply Hem.
  - intros Hr. apply IH in Hr as (c' & Hc' & He); [|done..]. exists c'. split; [lia|done].
Qed.
End Loop.

Section Loaded.
Context `{HF : F64} `{Hsh : Shake} {Hlaws : ShakeLaws}.

Lemma sign_inner_emitted fuel lmin lmax seed skey ctx id data sig :
  (2 <= lmin)%nat -> (lmax <= 10)%nat -> Forall is_byte skey ->
  sign_inner_seeded fuel lmin lmax seed skey ctx id data = Some (Ok sig) ->
  exists k counter, sign_load lmin lmax skey = Ok k /\ (lmin <= sk_logn k <= lmax)%nat /\
    key_ok (sk_logn k) (sk_f k) (sk_g k) (sk_F k) k /\
    0 <= counter < Z.of_nat fuel /\ emitted fuel k ctx id data seed counter sig.
Proof using Hlaws.
  intros Hlmin Hlmax Hb. unfold sign_inner_seeded.
  destruct (sign_load lmin lmax skey) as [k|] eqn:El; [|done].
  pose proof (sign_load_ok _ _ _ _ Hlmin Hlmax Hb El) as (Hl & _ & _ & _ & Hk).
  intros Hs. apply sign_core_loop_spec in Hs as (counter & Hc & He);
    [|lia|apply (ko_h _ _ _ _ _ Hk)|by rewrite length_replicate|by rewrite length_replicate].
  exists k, counter. repeat (split; [done|]). done.
Qed.

Lemma key_of_bytes k :
  (2 <= sk_logn k <= 10)%nat -> poly (sk_logn k) is_ext (sk_h k) -> Forall is_byte (key_of k).
Proof using.
  intros Hl [Lh Hh]. unfold key_of.
  destruct (modq_encode_spec (sk_logn k) (sk_h k) (replicate (VerifyingKeySize (sk_logn k) - 1) 0)
    ltac:(lia) Lh Hh) as (bs & -> & Hlb & Hbb & _).
  { rewrite length_replicate. unfold VerifyingKeySize. lia. }
  cbn [fst]. rewrite drop_ge, app_nil_r by (rewrite length_replicate; unfold VerifyingKeySize; lia).
  constructor; [unfold is_byte; lia|done].
Qed.

Lemma sqnorm_pos s i : (i < length s)%nat -> s.[i] <> 0 -> 0 < sqnorm s.
Proof using.
  intros Hi Hs. rewrite (sqnorm_zsum s (length s)) by done.
  replace (length s) with (i + S (length s - i - 1))%nat by lia. rewrite zsum_app.
  replace (S (length s - i - 1)) with (1 + (length s - i - 1))%nat by lia. rewrite zsum_app.
  cbn [zsum]. rewrite Nat.add_0_r.
  pose proof (zsum_nonneg i (fun i => s.[i] * s.[i]) ltac:(intros; apply Z.square_nonneg)).
  pose proof (zsum_nonneg (length s - i - 1) (fun j => s.[i + (1 + j)] * s.[i + (1 + j)]) ltac:(intros; apply Z.square_nonneg)).
  nia.
Qed.

Lemma emitted_verifies fuel lmin lmax k ctx id data seed counter sig :
  (2 <= lmin)%nat -> (lmax <= 10)%nat -> (lmin <= sk_logn k <= lmax)%nat ->
  key_ok (sk_logn k) (sk_f k) (sk_g k) (sk_F k) k ->
  emitted fuel k ctx id data seed counter sig ->
  exists c z0 z1,
    hash_to_point fuel (sk_logn k) (fst (sign_seeds seed counter)) (sk_hashed_vk k) ctx id data
      (replicate (degree (sk_logn k)) 0) = Some (Ok c) /\
    sign_point fuel k c (snd (sign_seeds seed counter)) = Some (z0, z1) /\
    (on_lattice (sk_logn k) (sk_h k) z0 z1 -> (exists i, (i < degree (sk_logn k))%nat /\ z1.[i] <> 0) ->
     verify_inner fuel lmin lmax (key_of k) ctx id data sig = Some true).
Proof using Hlaws.
  intros Hlmin Hlmax Hl Hk (c & z0 & z1 & s2 & e & Hc & Hp & Hs2 & Hz1 & Hn & -> & Le & Hbe & He).
  exists c, z0, z1. split; [done|]. split; [done|]. intros Hlat [i [Hi Hz]].
  pose proof (sign_seeds_spec seed counter) as Hseeds.
  destruct (sign_seeds seed counter) as [nonce subseed]. destruct Hseeds as [Lno Hbno]. cbn [fst snd] in *.
  pose proof (ko_h _ _ _ _ _ Hk) as Hh.
  apply verify_inner_decoded; [done|done|by apply key_of_bytes; [lia|]| |].
  { constructor; [unfold is_byte; lia|]. by apply Forall_app. }
  exists (sk_logn k), (sk_h k), s2, nonce. split.
  { repeat (split; [done|]). by exists e. }
  apply verify_poly_spec; [lia|done|done| |].
  { unfold key_of. rewrite <- (ko_hash _ _ _ _ _ Hk). unfold hash_to_point in Hc.
    by destruct (hash_to_point_input _ _ _ _ _). }
  exists c. split; [|split].
  - unfold key_of. by rewrite <- (ko_hash _ _ _ _ _ Hk).
  - apply (sqnorm_pos s2 i); [by rewrite (proj1 Hs2)|]. rewrite Hz1 by done. unfold cand_s2.
    destruct (Hlat i Hi) as (_ & Hr & _). rewrite i16_small by lia. lia.
  - etransitivity; [|exact Hn]. apply (cand_norm_le _ _ _ z0 z1); [|apply Hs2|done|done].
    eapply hash_to_point_ext; [|exact Hc]. by rewrite length_replicate.
Qed.
End Loaded.

(** The loop only stops with an error when the hashing parameters are not supported. *)
Lemma hash_to_point_supported `{Shake} fuel logn nonce hvk ctx id data c :
  match hash_to_point fuel logn nonce hvk ctx id data c with
  | Some (Err _) => ~ supported ctx id
  | _ => supported ctx id
  end.
Proof.
  pose proof (hash_to_point_input_ok nonce hvk ctx id data) as Hs. unfold hash_to_point.
  destruct (hash_to_point_input _ _ _ _ _); simpl in *; [|intros Hn; by apply Hs in Hn].
  destruct (hash_to_point_loop _ _ _ _ _); by apply Hs.
Qed.

Lemma sign_core_loop_error `{F64} `{Shake} turns fuel logn f g F G hvk ctx id data seed counter hm s2 sig :
  (0 < turns)%nat ->
  (exists e, sign_core_loop turns fuel logn f g F G hvk ctx id data seed counter hm s2 sig = Some (Err e)) <->
  ~ supported ctx id.
Proof.
  intros Ht. split.
  - clear Ht. intros [e He]. revert counter hm s2 sig He.
    induction turns as [|turns IH]; intros counter hm s2 sig; [done|].
    cbn [sign_core_loop]. unfold sign_attempt. destruct (sign_seeds seed counter) as [nonce subseed].
    pose proof (hash_to_point_supported fuel logn nonce hvk ctx id data hm).
    destruct (hash_to_point fuel _ nonce _ ctx id data hm) as [[c|e']|]; [|done|done].
    destruct (sign_sample _ _ _ _ _ _ _ _) as [[[t0 t1] r]|]; [|done].
    destruct (basis_to_FFT _ _ _ _ _ _ _ _ _) as [[[b00 b01] b10] b11].
    destruct (lattice_point _ _ _ _ _ _ _) as [x0 x1].
    destruct (sign_emit _ _ _ _ _ _ _) as [[[] s] sg]; [done|]. apply IH.
  - intros Hn. destruct turns as [|turns]; [lia|]. cbn [sign_core_loop]. unfold sign_attempt.
    destruct (sign_seeds seed counter) as [nonce subseed].
    pose proof (hash_to_point_supported fuel logn nonce hvk ctx id data hm).
    destruct (hash_to_point _ _ nonce _ ctx id data hm) as [[c|e']|]; [done|by exists e'|done].
Qed.

(** * The contracts *)

(** (C25) Signing answers an error in two cases only: the private key does not
    load, or [hash_to_point] does not accept the hashing parameters. *)
Theorem sign_error_iff `{F64} `{Shake} fuel lmin lmax seed skey ctx id data :
  (0 < fuel)%nat ->
  (exists e, sign_inner_seeded fuel lmin lmax seed skey ctx id data = Some (Err e)) <->
  is_ok (sign_load lmin lmax skey) = false \/ ~ supported ctx id.
Proof.
  intros Hf. unfold sign_inner_seeded.
  destruct (sign_load lmin lmax skey) as [k|e]; [|by split; [auto|by exists e]].
  unfold sign_core. rewrite sign_core_loop_error by done. cbn [is_ok]. split; [auto|]. by intros [|].
Qed.

(** (C20) A signature that leaves the signer has the header of the degree, the
    nonce derived from the seed and some loop counter, and the exact encoding of
    a polynomial s2 = - z1 with coefficients in range, where (z0, z1) is the
    rounded sampled point for the hashed message c; and the squared norm of
    (c - z0, s2) is at most the bound of the degree, 32-bit sums included. *)
Theorem sign_emits_short `{F64} `{ShakeLaws} fuel lmin lmax seed skey ctx id data sig :
  (2 <= lmin)%nat -> (lmax <= 10)%nat -> Forall is_byte skey ->
  sign_inner_seeded fuel lmin lmax seed skey ctx id data = Some (Ok sig) ->
  exists k counter c z0 z1 s2 e,
    let logn := sk_logn k in
    let '(nonce, subseed) := sign_seeds seed counter in
    sign_load lmin lmax skey = Ok k /\ (lmin <= logn <= lmax)%nat /\
    0 <= counter < Z.of_nat fuel /\
    hash_to_point fuel logn nonce (sk_hashed_vk k) ctx id data (replicate (degree logn) 0) = Some (Ok c) /\
    sign_point fuel k c subseed = Some (z0, z1) /\
    sig = (48 + Z.of_nat logn) :: nonce ++ e /\ length sig = SignatureSize logn /\ Forall is_byte sig /\
    comp_decode logn e (replicate (degree logn) 0) = Ok s2 /\
    poly logn comp_range s2 /\ (forall i, (i < degree logn)%nat -> s2.[i] = i16 (- z1.[i])) /\
    zsum (degree logn) (fun i => i16 (c.[i] - z0.[i]) * i16 (c.[i] - z0.[i])) + sqnorm s2 <= sqbeta.[logn].
Proof.
  intros Hlmin Hlmax Hb Hs. apply sign_inner_emitted in Hs as (k & counter & Hk & Hl & _ & Hc & He); try done.
  destruct He as (c & z0 & z1 & s2 & e & He). exists k, counter, c, z0, z1, s2, e. cbv zeta in He |- *.
  pose proof (sign_seeds_spec seed counter) as Hseeds.
  destruct (sign_seeds seed counter) as [nonce subseed]. destruct Hseeds as [Lno Hbno]. cbn [fst snd] in He.
  destruct He as (Hh & Hp & Hs2 & Hz1 & Hn & -> & Le & Hbe & He).
  pose proof (signature_size_ge (sk_logn k) ltac:(lia)).
  repeat (split; [done|]). split; [cbn [length]; rewrite length_app; lia|].
  split; [constructor; [unfold is_byte; lia|by apply Forall_app]|]. split; [|done].
  apply (comp_decode_encode _ e (replicate (degree (sk_logn k)) 0) s2 (replicate (SignatureSize (sk_logn k) - 41) 0));
    [by rewrite length_replicate|done|by rewrite length_replicate, Le|by split; [apply Hs2|]].
Qed.

(** (C1) What the signer emits verifies, under the key's own verifying key and
    the same parameters, provided that the points sampled for this seed and
    message, once rounded, are points of the lattice (and not zero in the second
    half): that is the accuracy asked of the floating-point code. *)
Theorem sign_then_verify `{F64} `{ShakeLaws} fuel lmin lmax seed skey k ctx id data sig :
  (2 <= lmin)%nat -> (lmax <= 10)%nat -> Forall is_byte skey -> sign_load lmin lmax skey = Ok k ->
  (forall counter c z0 z1,
    hash_to_point fuel (sk_logn k) (fst (sign_seeds seed counter)) (sk_hashed_vk k) ctx id data
      (replicate (degree (sk_logn k)) 0) = Some (Ok c) ->
    sign_point fuel k c (snd (sign_seeds seed counter)) = Some (z0, z1) ->
    on_lattice (sk_logn k) (sk_h k) z0 z1 /\ exists i, (i < degree (sk_logn k))%nat /\ z1.[i] <> 0) ->
  sign_inner_seeded fuel lmin lmax seed skey ctx id data = Some (Ok sig) ->
  verify_inner fuel lmin lmax (key_of k) ctx id data sig = Some true.
Proof.
  intros Hlmin Hlmax Hb Hload Hacc Hs.
  apply sign_inner_emitted in Hs as (k' & counter & Hk & Hl & Hok & _ & He); try done.
  rewrite Hload in Hk. injection Hk as <-.
  apply (emitted_verifies _ lmin lmax) in He as (c & z0 & z1 & Hh' & Hp' & Hv); [|done..].
  by apply Hv; apply (Hacc counter c z0 z1).
Qed.

(** ** At concrete inputs *)

(** A whole run of the signer, on the emulated floating-point operations. *)
Lemma demo_sig_signed :
  @sign_inner_seeded emu demo_shake 100 2 10 demo_seed demo_skey [1; 2] 0 [7; 8] = Some (Ok demo_sig).
Proof. vm_compute. reflexivity. Defined.

Lemma sign_error_iff_witness :
  exists e, @sign_inner_seeded emu demo_shake 1 2 10 demo_seed demo_skey [] 4 [7] = Some (Err e).
Proof.
  apply (@sign_error_iff emu demo_shake 1 2 10 demo_seed demo_skey [] 4 [7]); [lia|].
  right. intros [H|[_ [o H]]]; vm_compute in H; discriminate.
Defined.

Lemma sign_emits_short_witness :
  exists k counter c z0 z1 s2 e,
    let logn := sk_logn k in
    let '(nonce, subseed) := @sign_seeds demo_shake demo_seed counter in
    @sign_load demo_shake 2 10 demo_skey = Ok k /\ (2 <= logn <= 10)%nat /\
    0 <= counter < Z.of_nat 100 /\
    @hash_to_point demo_shake 100 logn nonce (sk_hashed_vk k) [1; 2] 0 [7; 8] (replicate (degree logn) 0) = Some (Ok c) /\
    @sign_point emu demo_shake 100 k c subseed = Some (z0, z1) /\
    demo_sig = (48 + Z.of_nat logn) :: nonce ++ e /\ length demo_sig = SignatureSize logn /\ Forall is_byte demo_sig /\
    comp_decode logn e (replicate (degree logn) 0) = Ok s2 /\
    poly logn comp_range s2 /\ (forall i, (i < degree logn)%nat -> s2.[i] = i16 (- z1.[i])) /\
    zsum (degree logn) (fun i => i16 (c.[i] - z0.[i]) * i16 (c.[i] - z0.[i])) + sqnorm s2 <= sqbeta.[logn].
Proof.
  apply (@sign_emits_short emu demo_shake demo_shake_laws 100 2 10 demo_seed demo_skey [1; 2] 0 [7; 8] demo_sig);
    [lia|lia|exact demo_skey_bytes|exact demo_sig_signed].
Defined.

(** The target and the sampled point of that run; the point is in the lattice. *)
Definition demo_c : list Z := [9043; 4489; 11947; 10688].
Definition demo_z0 : list Z := [9127; 4511; 11765; 10619].
Definition demo_z1 : list Z := [-54; 300; 7; 60].
Lemma demo_target :
  @hash_to_point demo_shake 100 2 (fst (@sign_seeds demo_shake demo_seed 0)) (sk_hashed_vk demo_key) [1; 2] 0 [7; 8]
    (replicate 4 0) = Some (Ok demo_c).
Proof. vm_compute. reflexivity. Defined.
Lemma demo_point :
  @sign_point emu demo_shake 100 demo_key demo_c (snd (@sign_seeds demo_shake demo_seed 0)) =
  Some (demo_z0, demo_z1).
Proof. vm_compute. reflexivity. Defined.
Lemma demo_point_on_lattice : on_lattice 2 (sk_h demo_key) demo_z0 demo_z1.
Proof.
  intros i Hi. change (degree 2) with 4%nat in Hi.
  do 4 (destruct i as [|i]; [split; [vm_compute; split; discriminate|split; [vm_compute; split; discriminate|
    split; vm_compute; reflexivity]]|]). lia.
Defined.

Lemma sign_then_verify_witness :
  @verify_inner demo_shake 100 2 10 (key_of demo_key) [1; 2] 0 [7; 8] demo_sig = Some true.
Proof.
  apply (@sign_then_verify emu demo_shake demo_shake_laws 100 2 10 demo_seed demo_skey demo_key [1; 2] 0 [7; 8] demo_sig);
    [lia|lia|exact demo_skey_bytes|exact demo_key_loads| |exact demo_sig_signed].
  intros counter c z0 z1. rewrite demo_seeds.
  intros Hc Hp. pose proof (eq_trans (eq_sym Hc) demo_target) as E. injection E as ->.
  pose proof (eq_trans (eq_sym Hp) demo_point) as E. injection E as -> ->.
  split; [exact demo_point_on_lattice|]. exists 0%nat. split; [apply Nat.ltb_lt; vm_compute; reflexivity|discriminate].
Defined.
