(* ===== verification/Precomputed.v ===== *)
(** The precomputed signer ([sign_precomputed.go]).

    An [ldlTree] is a Go pointer: [nil] is a constructor.  A signer is the
    record of its fields. *)
From Stdlib Require Import ZArith Lia.
From stdpp Require Import base numbers list strings.
From S2P Require Import Prelude Mq Ntt MqTables MqPoly Bits Codec Util Verify Flr Fpoly Sampler FpolyFacts Sign FlrEmu Examples.
Local Open Scope Z_scope.

Section Precomputed.
Context `{HF : F64} `{Hsh : Shake}.

(** [l10] is [None] for a nil slice. *)
Inductive ldlTree :=
| Nil
| Node (logn : nat) (l10 : option (list f64)) (left right : ldlTree) (leaf : f64).

Definition tree_logn (t : ldlTree) : nat := match t with Nil => 0 | Node l _ _ _ _ => l end.
Definition tree_l10 (t : ldlTree) : list f64 :=
  match t with Node _ (Some l) _ _ _ => l | _ => [] end.
Definition tree_left (t : ldlTree) : ldlTree := match t with Nil => Nil | Node _ _ l _ _ => l end.
Definition tree_right (t : ldlTree) : ldlTree := match t with Nil => Nil | Node _ _ _ r _ => r end.
Definition tree_leaf (t : ldlTree) : f64 := match t with Nil => f64_ZERO | Node _ _ _ _ x => x end.

Record PrecomputedSigner := Signer {
  ps_logn : nat;
  ps_hashedVK : list Z;
  ps_b00 : list f64;
  ps_b01 : list f64;
  ps_b10 : list f64;
  ps_b11 : list f64;
  ps_tree : ldlTree;
}.

Fixpoint buildLDLTree (rootLogn logn : nat) (g00 g01 g11 : list f64) : ldlTree :=
  match logn with
  | O => Nil (* not called: the recursion stops at 1 *)
  | 1%nat =>
      let g00_re := g00.[0] in
      let g01_re := g01.[0] in
      let g01_im := g01.[1] in
      let g11_re := g11.[0] in
      let inv_g00_re := f64_inv g00_re in
      let mu_re := f64_mul g01_re inv_g00_re in
      let mu_im := f64_mul g01_im inv_g00_re in
      let zo_re := f64_add (f64_mul mu_re g01_re) (f64_mul mu_im g01_im) in
      let d11_re := f64_sub g11_re zo_re in
      Node 1 (Some [mu_re; f64_neg mu_im])
        (Node 0 None Nil Nil (f64_mul (f64_sqrt g00_re) inv_sigma.[rootLogn]))
        (Node 0 None Nil Nil (f64_mul (f64_sqrt d11_re) inv_sigma.[rootLogn]))
        f64_ZERO
  | S logn' =>
      let n := Nat.pow 2 logn in
      let hn := (n / 2)%nat in
      let '(g01, g11) := fpoly_LDL_fft logn g00 g01 g11 in
      let l10 := take n g01 in
      let '(w0, w1) := fpoly_split_selfadj_fft logn (scratch hn) (scratch hn) g00 in
      let left00 := w0 in
      let left01 := w1 in
      let '(w0, w1) := fpoly_split_selfadj_fft logn w0 w1 g11 in
      let right00 := w0 in
      let right01 := w1 in
      let left11 := left00 in
      let right11 := right00 in
      Node logn (Some l10)
        (buildLDLTree rootLogn logn' left00 left01 left11)
        (buildLDLTree rootLogn logn' right00 right01 right11)
        f64_ZERO
  end.

Fixpoint validateLDLTree (logn : nat) (tree : ldlTree) : bool :=
  match tree with
  | Nil => false
  | Node tlogn l10 tl tr leaf =>
      if negb (tlogn =? logn)%nat then false
      else match logn with
      | O => match l10, tl, tr with
             | None, Nil, Nil => negb (f64_eqb leaf f64_ZERO)
             | _, _, _ => false
             end
      | S logn' =>
          let n := Nat.pow 2 logn in
          (length (default [] l10) =? n)%nat && validateLDLTree logn' tl && validateLDLTree logn' tr
      end
  end.

Definition isValid (ps : PrecomputedSigner) : bool :=
  if (ps.(ps_logn) <? 1)%nat || (length inv_sigma <=? ps.(ps_logn))%nat then false
  else
    let n := Nat.pow 2 ps.(ps_logn) in
    (length ps.(ps_b00) =? n)%nat && (length ps.(ps_b01) =? n)%nat &&
    (length ps.(ps_b10) =? n)%nat && (length ps.(ps_b11) =? n)%nat &&
    validateLDLTree ps.(ps_logn) ps.(ps_tree).

Definition isReadyForSign (ps : PrecomputedSigner) : bool :=
  if (ps.(ps_logn) <? 1)%nat || (length inv_sigma <=? ps.(ps_logn))%nat then false
  else
    let n := Nat.pow 2 ps.(ps_logn) in
    (length ps.(ps_b00) =? n)%nat && (length ps.(ps_b01) =? n)%nat &&
    (length ps.(ps_b10) =? n)%nat && (length ps.(ps_b11) =? n)%nat &&
    match ps.(ps_tree) with Nil => false | Node tlogn _ _ _ _ => (tlogn =? ps.(ps_logn))%nat end.

(** The key-dependent part, which the constructor runs like [sign_inner_seeded]. *)
Definition precomputed_complete (logn : nat) (f g F : list Z) : result string signing_key :=
  let n := degree logn in
  let t0 := mqpoly_small_to_int logn g (replicate n 0) in
  let t1 := mqpoly_small_to_int logn f (replicate n 0) in
  let t0 := mqpoly_int_to_ntt logn t0 in
  let t1 := mqpoly_int_to_ntt logn t1 in
  let '(t0, ok) := mqpoly_div_ntt logn t0 t1 in
  if negb ok then Err "Invalid signing key (f not invertible)"%string
  else
    let t1 := mqpoly_small_to_int logn F t1 in
    let t1 := mqpoly_int_to_ntt logn t1 in
    let t1 := mqpoly_mul_ntt logn t1 t0 in
    let t1 := mqpoly_ntt_to_int logn t1 in
    let '(G, ok) := mqpoly_int_to_small logn t1 (replicate n 0) in
    if negb ok then Err "Invalid signing key (G is out-of-range)"%string
    else
      let t0 := mqpoly_ntt_to_int logn t0 in
      let t0 := mqpoly_int_to_ext logn t0 in
      let vrfyKey := u8 (Z.of_nat logn) ::
        fst (modq_encode logn t0 (replicate (VerifyingKeySize logn - 1) 0)) in
      let hashedVK := fst (xof_read 64 (xof_write xof_new vrfyKey)) in
      Ok (SigningKey logn f g F G t0 hashedVK).

Definition precomputed_expand (k : signing_key) : PrecomputedSigner :=
  let logn := k.(sk_logn) in
  let n := degree logn in
  let '(b00, b01, b10, b11) :=
    basis_to_FFT logn k.(sk_f) k.(sk_g) k.(sk_F) k.(sk_G) (scratch n) (scratch n) (scratch n) (scratch n) in
  let '(g00, g01, g11) := fpoly_gram_fft logn b00 b01 b10 b11 in
  let tree := buildLDLTree logn logn g00 g01 g11 in
  Signer logn k.(sk_hashed_vk) b00 b01 b10 b11 tree.

Definition newPrecomputedSignerInner (lognMin lognMax : nat) (skey : list Z)
    : result string PrecomputedSigner :=
  if (length skey =? 0)%nat then Err "Invalid private key"%string
  else
    let head1 := skey.[0] in
    if negb (head1 .& 240 =? 80) then Err "Invalid private key"%string
    else
      let logn := Z.to_nat (head1 .& 15) in
      if (logn <? lognMin)%nat || (lognMax <? logn)%nat then Err "Invalid private key"%string
      else if negb (length skey =? SigningKeySize logn)%nat then Err "Invalid private key"%string
      else
        let n := degree logn in
        let off := 1%nat in
        '(j, f) ← trim_i8_decode logn (drop off skey) (replicate n 0) (nbits_fg logn);
        let off := (off + j)%nat in
        '(j, g) ← trim_i8_decode logn (drop off skey) (replicate n 0) (nbits_fg logn);
        let off := (off + j)%nat in
        '(_, F) ← trim_i8_decode logn (drop off skey) (replicate n 0) 8;
        k ← precomputed_complete logn f g F;
        let ps := precomputed_expand k in
        if negb (isValid ps) then Err "Invalid precomputed signer"%string else Ok ps.

Definition NewPrecomputedSigner (skey : list Z) : result string PrecomputedSigner :=
  newPrecomputedSignerInner 9 10 skey.
Definition NewPrecomputedSignerWeak (skey : list Z) : result string PrecomputedSigner :=
  newPrecomputedSignerInner 2 8 skey.

(** ** Sampling along the tree *)

Fixpoint ffsamp_fft_precomputed_inner (fuel slogn : nat) (tree : ldlTree) (t0 t1 : list f64)
    : M (list f64 * list f64) :=
  match tree with
  | Nil => out_of_fuel (* a nil tree: not called on a valid signer *)
  | Node logn l10' tl tr _ =>
      let tl10 := default [] l10' in
      if (logn =? 1)%nat then
        let w0 := t1.[0] in
        let w1 := t1.[1] in
        y0 ← next fuel slogn w0 (tree_leaf tr);
        let y0 := f64_of_i32 y0 in
        y1 ← next fuel slogn w1 (tree_leaf tr);
        let y1 := f64_of_i32 y1 in
        let a_re := f64_sub w0 y0 in
        let a_im := f64_sub w1 y1 in
        let '(b_re, b_im) := flc_mul a_re a_im tl10.[0] tl10.[1] in
        let x0 := f64_add t0.[0] b_re in
        let x1 := f64_add t0.[1] b_im in
        let t1 := t1.[0 <- y0].[1 <- y1] in
        z0 ← next fuel slogn x0 (tree_leaf tl);
        z1 ← next fuel slogn x1 (tree_leaf tl);
        mret (t0.[0 <- f64_of_i32 z0].[1 <- f64_of_i32 z1], t1)
      else
        let n := Nat.pow 2 logn in
        let hn := (n / 2)%nat in
        let '(w0, w1) := fpoly_split_fft logn (scratch hn) (scratch hn) t1 in
        '(w0, w1) ← ffsamp_fft_precomputed_inner fuel slogn tr w0 w1;
        let z1 := fpoly_merge_fft logn (scratch n) w0 w1 in
        let w := fpoly_sub logn t1 z1 in
        let t1 := z1 in
        let l10 := tl10 in
        let l10 := fpoly_mul_fft logn l10 w in
        let t0 := fpoly_add logn t0 l10 in
        let '(w0, w1) := fpoly_split_fft logn (scratch hn) (scratch hn) t0 in
        '(w0, w1) ← ffsamp_fft_precomputed_inner fuel slogn tl w0 w1;
        mret (fpoly_merge_fft logn t0 w0 w1, t1)
  end.

Definition ffsamp_fft_precomputed (fuel slogn : nat) (t0 t1 : list f64) (tree : ldlTree)
    : M (list f64 * list f64) := ffsamp_fft_precomputed_inner fuel slogn tree t0 t1.

(** ** Signing *)

Definition precomputed_attempt (fuel : nat) (ps : PrecomputedSigner) (ctx : list Z) (id : Z)
    (data seed : list Z) (counter : Z) (hm s2 sig : list Z)
    : option (result string (bool * list Z * list Z * list Z)) :=
  let logn := ps.(ps_logn) in
  let n := degree logn in
  let '(nonce, subseed) := sign_seeds seed counter in
  match hash_to_point fuel logn nonce ps.(ps_hashedVK) ctx id data hm with
  | None => None
  | Some (Err e) => Some (Err e)
  | Some (Ok hm) =>
      let '(t0, t1) := fpoly_apply_basis logn (scratch n) (scratch n) ps.(ps_b01) ps.(ps_b11) hm in
      match ffsamp_fft_precomputed fuel logn t0 t1 ps.(ps_tree) (newSHAKE256prng subseed) with
      | None => None
      | Some ((t0, t1), _) =>
          let '(t0, t1) :=
            lattice_point logn t0 t1 ps.(ps_b00) ps.(ps_b01) ps.(ps_b10) ps.(ps_b11) in
          let '(done, s2, sig) :=
            sign_emit logn nonce hm (f64_rint <$> t0) (f64_rint <$> t1) s2 sig in
          Some (Ok (done, hm, s2, sig))
      end
  end.

Fixpoint precomputed_loop (turns fuel : nat) (ps : PrecomputedSigner) (ctx : list Z) (id : Z)
    (data seed : list Z) (counter : Z) (hm s2 sig : list Z) : option (result string (list Z)) :=
  match turns with
  | O => None
  | S turns' =>
      match precomputed_attempt fuel ps ctx id data seed counter hm s2 sig with
      | None => None
      | Some (Err e) => Some (Err e)
      | Some (Ok (done, hm, s2, sig)) =>
          if (done : bool) then Some (Ok sig)
          else precomputed_loop turns' fuel ps ctx id data seed (counter + 1) hm s2 sig
      end
  end.

Definition sign_core_precomputed (fuel : nat) (ps : PrecomputedSigner) (ctx : list Z) (id : Z)
    (data seed sig tmp_i16 tmp_u16 : list Z) : option (result string (list Z)) :=
  precomputed_loop fuel fuel ps ctx id data seed 0 tmp_u16 tmp_i16 sig.

Definition signSeeded (fuel : nat) (ps : PrecomputedSigner) (seed ctx : list Z) (id : Z)
    (data : list Z) : option (result string (list Z)) :=
  let n := degree ps.(ps_logn) in
  let tmp_i16 := replicate n 0 in
  let tmp_u16 := replicate n 0 in
  let sig := replicate (SignatureSize ps.(ps_logn)) 0 in
  sign_core_precomputed fuel ps ctx id data seed sig tmp_i16 tmp_u16.

(** [ps.Sign]; the random source delivers a seed or an error. *)
Definition Signer_Sign (fuel : nat) (ps : PrecomputedSigner) (rng : result string (list Z))
    (ctx : list Z) (id : Z) (data : list Z) : option (result string (list Z)) :=
  if negb (isReadyForSign ps) then Some (Err "Invalid precomputed signer"%string)
  else match rng with
  | Err e => Some (Err e)
  | Ok seed => signSeeded fuel ps seed ctx id data
  end.

(** ** Memory estimate *)

Definition f64SliceBytes (size : Z) (values : list f64) : Z := Z.of_nat (length values) * size.

(** [node]: the size of the tree struct, a quantity of the compiler. *)
Fixpoint ldlTreePersistentBytes (node size : Z) (tree : ldlTree) : Z :=
  match tree with
  | Nil => 0
  | Node _ l10 tl tr _ =>
      node + f64SliceBytes size (default [] l10) +
      ldlTreePersistentBytes node size tl + ldlTreePersistentBytes node size tr
  end.

Definition PersistentBytes (self node size : Z) (ps : PrecomputedSigner) : Z :=
  self + f64SliceBytes size ps.(ps_b00) + f64SliceBytes size ps.(ps_b01) +
  f64SliceBytes size ps.(ps_b10) + f64SliceBytes size ps.(ps_b11) +
  ldlTreePersistentBytes node size ps.(ps_tree).
End Precomputed.

(** * The tree and the recursion do the same work *)

Section Equivalence.
Context `{HF : F64} `{Hsh : Shake}.

Lemma pow_S_half l : (2 ^ S l / 2 = 2 ^ l)%nat.
Proof. rewrite Nat.pow_succ_r', Nat.mul_comm. by apply Nat.div_mul. Qed.

Lemma M_bind_ext {A B} (m m' : M A) (f f' : A -> M B) r :
  m r = m' r -> (forall a r, f a r = f' a r) -> (m ≫= f) r = (m' ≫= f') r.
Proof.
  intros Hm Hf. unfold mbind, M_bind. rewrite Hm. by destruct (m' r) as [[a r']|].
Qed.

(** Sampling with the decomposition computed on the way is sampling along the
    tree built beforehand, draw by draw. *)
Lemma ffsamp_tree fuel slogn logn t0 t1 g00 g01 g11 r :
  (1 <= logn)%nat -> length g01 = Nat.pow 2 logn ->
  ffsamp_fft_inner fuel slogn logn t0 t1 g00 g01 g11 r =
  ffsamp_fft_precomputed_inner fuel slogn (buildLDLTree slogn logn g00 g01 g11) t0 t1 r.
Proof.
  revert t0 t1 g00 g01 g11 r. induction logn as [|[|l] IH]; intros t0 t1 g00 g01 g11 r Hl Hg; [lia|done|].
  specialize (IH). set (L := S l) in *.
  change (ffsamp_fft_inner fuel slogn (S L) t0 t1 g00 g01 g11 r) with
    ((let n := Nat.pow 2 (S L) in
      let hn := (n / 2)%nat in
      let '(g01, g11) := fpoly_LDL_fft (S L) g00 g01 g11 in
      let '(w0, w1) := fpoly_split_selfadj_fft (S L) (scratch hn) (scratch hn) g00 in
      let g00 := w0 ++ w1 in
      let '(w0, w1) := fpoly_split_selfadj_fft (S L) w0 w1 g11 in
      let g11 := w0 ++ w1 in
      let l10 := g01 in
      let g01 := take hn g00 ++ take hn g11 in
      let '(v0, v1) := fpoly_split_fft (S L) (scratch hn) (scratch hn) t1 in
      '(w0, w1) ← ffsamp_fft_inner fuel slogn L v0 v1 (take hn g11) (drop hn g11) (drop hn g01);
      let z1 := fpoly_merge_fft (S L) (scratch n) w0 w1 in
      let w := fpoly_sub (S L) t1 z1 in
      let l10 := fpoly_mul_fft (S L) l10 w in
      let t0 := fpoly_add (S L) t0 l10 in
      let '(w0, w1) := fpoly_split_fft (S L) (scratch hn) (scratch hn) t0 in
      '(w0, w1) ← ffsamp_fft_inner fuel slogn L w0 w1 (take hn g00) (drop hn g00) (take hn g01);
      mret (fpoly_merge_fft (S L) t0 w0 w1, z1)) r).
  change (buildLDLTree slogn (S L) g00 g01 g11) with
    (let n := Nat.pow 2 (S L) in
     let hn := (n / 2)%nat in
     let '(g01, g11) := fpoly_LDL_fft (S L) g00 g01 g11 in
     let '(w0, w1) := fpoly_split_selfadj_fft (S L) (scratch hn) (scratch hn) g00 in
     let '(v0, v1) := fpoly_split_selfadj_fft (S L) w0 w1 g11 in
     Node (S L) (Some (take n g01)) (buildLDLTree slogn L w0 w1 w0) (buildLDLTree slogn L v0 v1 v0) f64_ZERO).
  cbv zeta. rewrite pow_S_half.
  pose proof (length_fpoly_LDL (S L) g00 g01 g11) as [HL1 _].
  destruct (fpoly_LDL_fft (S L) g00 g01 g11) as [l10 d11]. cbn [fst] in HL1.
  pose proof (length_fpoly_split_selfadj (S L) (scratch (2 ^ L)) (scratch (2 ^ L)) g00) as [HA1 HA2].
  destruct (fpoly_split_selfadj_fft (S L) (scratch (2 ^ L)) (scratch (2 ^ L)) g00) as [a0 a1].
  cbn [fst snd] in HA1, HA2.
  pose proof (length_fpoly_split_selfadj (S L) a0 a1 d11) as [HB1 HB2].
  destruct (fpoly_split_selfadj_fft (S L) a0 a1 d11) as [b0 b1]. cbn [fst snd] in HB1, HB2.
  unfold scratch in HA1, HA2. rewrite length_replicate in HA1, HA2. rewrite HA1 in HB1. rewrite HA2 in HB2.
  rewrite !take_app_length', !drop_app_length' by (rewrite ?length_app; done).
  cbn [ffsamp_fft_precomputed_inner]. destruct (Nat.eqb_spec (S L) 1) as [He|_]; [subst L; lia|].
  cbv zeta. rewrite pow_S_half. cbn [default]. rewrite take_ge by lia.
  destruct (fpoly_split_fft (S L) (scratch (2 ^ L)) (scratch (2 ^ L)) t1) as [v0 v1].
  apply M_bind_ext; [by apply IH; [lia|]|]. intros [w0 w1] r'.
  destruct (fpoly_split_fft (S L) _ _ (fpoly_add _ _ _)) as [x0 x1].
  apply M_bind_ext; [by apply IH; [lia|]|]. by intros [y0 y1] r''.
Qed.

(** The constructor is: load the key as the plain signer does, expand it, and
    check the expansion. *)
Lemma constructor_load lmin lmax skey :
  newPrecomputedSignerInner lmin lmax skey =
  match sign_load lmin lmax skey with
  | Err e => Err e
  | Ok k => let ps := precomputed_expand k in
            if isValid ps then Ok ps else Err "Invalid precomputed signer"%string
  end.
Proof.
  unfold newPrecomputedSignerInner, sign_load.
  repeat match goal with |- (if ?b then _ else _) = _ => destruct b; [done|] end. cbv zeta.
  destruct (trim_i8_decode _ _ _ _) as [[j f]|]; [|done]. cbn [mbind result_bind].
  destruct (trim_i8_decode _ _ _ _) as [[j' g]|]; [|done]. cbn [mbind result_bind].
  destruct (trim_i8_decode _ _ _ _) as [[j'' F]|]; [|done]. cbn [mbind result_bind].
  change (precomputed_complete ?l f g F) with (sign_complete l f g F).
  destruct (sign_complete _ f g F) as [k|]; [|done]. cbn [mbind result_bind].
  by destruct (isValid _).
Qed.

(** The polynomial b01 of the basis has the length of the degree. *)
Lemma length_basis logn f g F G :
  let '(b00, b01, b10, b11) := basis_to_FFT logn f g F G (scratch (degree logn))
    (scratch (degree logn)) (scratch (degree logn)) (scratch (degree logn)) in
  length b00 = degree logn /\ length b01 = degree logn /\
  length b10 = degree logn /\ length b11 = degree logn.
Proof.
  unfold basis_to_FFT. cbv zeta.
  rewrite !length_fpoly_neg, !length_fpoly_FFT, !length_fpoly_set_small.
  unfold scratch. by rewrite !length_replicate.
Qed.

(** Sampling with the expanded key. *)
Lemma sample_expanded fuel k hm r :
  (1 <= sk_logn k)%nat ->
  let logn := sk_logn k in
  let ps := precomputed_expand k in
  let '(t0, t1) := fpoly_apply_basis logn (scratch (degree logn)) (scratch (degree logn))
                     (ps_b01 ps) (ps_b11 ps) hm in
  ffsamp_fft_precomputed fuel logn t0 t1 (ps_tree ps) r =
  sign_sample fuel logn (sk_f k) (sk_g k) (sk_F k) (sk_G k) hm r.
Proof.
  intros Hl. cbv zeta. unfold precomputed_expand, sign_sample.
  pose proof (length_basis (sk_logn k) (sk_f k) (sk_g k) (sk_F k) (sk_G k)) as Hb.
  destruct (basis_to_FFT _ _ _ _ _ _ _ _ _) as [[[b00 b01] b10] b11]. destruct Hb as (L00 & L01 & L10 & L11).
  pose proof (length_fpoly_gram (sk_logn k) b00 b01 b10 b11) as Hg.
  destruct (fpoly_gram_fft _ b00 b01 b10 b11) as [[g00 g01] g11]. destruct Hg as (_ & Hg & _).
  cbn [ps_b01 ps_b11 ps_tree].
  destruct (fpoly_apply_basis _ _ _ b01 b11 hm) as [t0 t1].
  symmetry. apply ffsamp_tree; [done|]. by rewrite Hg, L01.
Qed.
End Equivalence.

Section Signing.
Context `{HF : F64} `{Hsh : Shake} {Hlaws : ShakeLaws}.

(** The array that receives the hashed point does not matter, error or not. *)
Lemma hash_to_point_any fuel logn nonce hvk ctx id data c c' :
  length c = degree logn -> length c' = degree logn ->
  hash_to_point fuel logn nonce hvk ctx id data c = hash_to_point fuel logn nonce hvk ctx id data c'.
Proof.
  intros Hc Hc'. destruct (hash_to_point_input nonce hvk ctx id data) as [sh|e] eqn:E.
  - by apply (hash_to_point_overwrites _ _ _ _ _ _ _ _ _ sh).
  - unfold hash_to_point. by rewrite E.
Qed.

Lemma hash_to_point_length fuel logn nonce hvk ctx id data c r :
  length c = degree logn ->
  hash_to_point fuel logn nonce hvk ctx id data c = Some (Ok r) -> length r = degree logn.
Proof. intros Hc Hr. by apply hash_to_point_ext in Hr as [Hl _]. Qed.

Lemma attempt_expanded fuel k ctx id data seed counter hm hm' s2 sig :
  (1 <= sk_logn k)%nat -> length hm = degree (sk_logn k) -> length hm' = degree (sk_logn k) ->
  precomputed_attempt fuel (precomputed_expand k) ctx id data seed counter hm' s2 sig =
  sign_attempt fuel (sk_logn k) (sk_f k) (sk_g k) (sk_F k) (sk_G k) (sk_hashed_vk k) ctx id data seed
    counter hm s2 sig.
Proof.
  intros Hl Hh Hh'. unfold precomputed_attempt, sign_attempt.
  pose proof (fun c r => sample_expanded fuel k c r Hl) as Hs. cbv zeta in Hs.
  assert (ps_logn (precomputed_expand k) = sk_logn k) as ->.
  { unfold precomputed_expand. by repeat case_match. }
  assert (ps_hashedVK (precomputed_expand k) = sk_hashed_vk k) as ->.
  { unfold precomputed_expand. by repeat case_match. }
  destruct (sign_seeds seed counter) as [nonce subseed].
  rewrite (hash_to_point_any fuel _ nonce _ ctx id data hm' hm) by done.
  destruct (hash_to_point fuel _ nonce _ ctx id data hm) as [[c|e]|]; [|done|done].
  specialize (Hs c (newSHAKE256prng subseed)).
  destruct (fpoly_apply_basis _ _ _ _ _ c) as [t0 t1]. rewrite <- Hs. clear Hs.
  destruct (ffsamp_fft_precomputed _ _ _ _ _ _) as [[[u0 u1] r]|]; [|done].
  unfold precomputed_expand.
  destruct (basis_to_FFT _ _ _ _ _ _ _ _ _) as [[[b00 b01] b10] b11].
  destruct (fpoly_gram_fft _ b00 b01 b10 b11) as [[g00 g01] g11]. done.
Qed.

(** After one attempt the two signers hold the same state. *)
Lemma attempt_length fuel logn f g F G hvk ctx id data seed counter hm s2 sig fin hm' s2' sig' :
  length hm = degree logn ->
  sign_attempt fuel logn f g F G hvk ctx id data seed counter hm s2 sig = Some (Ok (fin, hm', s2', sig')) ->
  length hm' = degree logn.
Proof.
  intros Hh. unfold sign_attempt. destruct (sign_seeds seed counter) as [nonce subseed].
  destruct (hash_to_point fuel _ nonce _ ctx id data hm) as [[c|e]|] eqn:E; [|done|done].
  apply hash_to_point_length in E; [|done].
  destruct (sign_sample _ _ _ _ _ _ _ _) as [[[u0 u1] r]|]; [|done].
  destruct (basis_to_FFT _ _ _ _ _ _ _ _ _) as [[[b00 b01] b10] b11].
  destruct (lattice_point _ _ _ _ _ _ _) as [x0 x1].
  destruct (sign_emit _ _ _ _ _ _ _) as [[d s] sg]. by intros [= _ <- _ _].
Qed.

Lemma loop_expanded turns fuel k ctx id data seed counter hm hm' s2 sig :
  (1 <= sk_logn k)%nat -> length hm = degree (sk_logn k) -> length hm' = degree (sk_logn k) ->
  precomputed_loop turns fuel (precomputed_expand k) ctx id data seed counter hm' s2 sig =
  sign_core_loop turns fuel (sk_logn k) (sk_f k) (sk_g k) (sk_F k) (sk_G k) (sk_hashed_vk k) ctx id data
    seed counter hm s2 sig.
Proof.
  intros Hl. revert counter hm hm' s2 sig.
  induction turns as [|turns IH]; intros counter hm hm' s2 sig Hh Hh'; [done|].
  cbn [precomputed_loop sign_core_loop]. rewrite (attempt_expanded _ _ _ _ _ _ _ hm hm') by done.
  destruct (sign_attempt _ _ _ _ _ _ _ _ _ _ _ _ _ _ _) as [[[[[fin c] s] sg]|e]|] eqn:E; [|done|done].
  destruct fin; [done|]. apply attempt_length in E; [|done]. by apply IH.
Qed.
End Signing.

(** * The constructor *)

Section Constructor.
Context `{HF : F64} `{Hsh : Shake} {Hlaws : ShakeLaws}.

(** The standard deviations at the leaves, from left to right. *)
Fixpoint tree_leaves (t : ldlTree) : list f64 :=
  match t with
  | Nil => []
  | Node 0 _ _ _ leaf => [leaf]
  | Node _ _ tl tr _ => tree_leaves tl ++ tree_leaves tr
  end.

(** A tree that was built has the right shape; only its leaves can be wrong. *)
Lemma validate_build root logn g00 g01 g11 :
  (1 <= logn)%nat -> length g01 = Nat.pow 2 logn ->
  validateLDLTree logn (buildLDLTree root logn g00 g01 g11) =
  forallb (fun x => negb (f64_eqb x f64_ZERO)) (tree_leaves (buildLDLTree root logn g00 g01 g11)).
Proof using.
  revert g00 g01 g11. induction logn as [|[|l] IH]; intros g00 g01 g11 Hl Hg; [lia|by simpl; rewrite andb_true_r|].
  specialize (IH). set (L := S l) in *.
  change (buildLDLTree root (S L) g00 g01 g11) with
    (let n := Nat.pow 2 (S L) in
     let hn := (n / 2)%nat in
     let '(g01, g11) := fpoly_LDL_fft (S L) g00 g01 g11 in
     let '(w0, w1) := fpoly_split_selfadj_fft (S L) (scratch hn) (scratch hn) g00 in
     let '(v0, v1) := fpoly_split_selfadj_fft (S L) w0 w1 g11 in
     Node (S L) (Some (take n g01)) (buildLDLTree root L w0 w1 w0) (buildLDLTree root L v0 v1 v0) f64_ZERO).
  cbv zeta. rewrite pow_S_half.
  pose proof (length_fpoly_LDL (S L) g00 g01 g11) as [HL1 _].
  destruct (fpoly_LDL_fft (S L) g00 g01 g11) as [l10 d11]. cbn [fst] in HL1.
  pose proof (length_fpoly_split_selfadj (S L) (scratch (2 ^ L)) (scratch (2 ^ L)) g00) as [HA1 HA2].
  destruct (fpoly_split_selfadj_fft (S L) (scratch (2 ^ L)) (scratch (2 ^ L)) g00) as [a0 a1].
  cbn [fst snd] in HA1, HA2.
  pose proof (length_fpoly_split_selfadj (S L) a0 a1 d11) as [HB1 HB2].
  destruct (fpoly_split_selfadj_fft (S L) a0 a1 d11) as [b0 b1]. cbn [fst snd] in HB1, HB2.
  unfold scratch in HA1, HA2. rewrite length_replicate in HA1, HA2. rewrite HA1 in HB1. rewrite HA2 in HB2.
  cbn [validateLDLTree tree_leaves default]. rewrite Nat.eqb_refl. cbn [negb].
  change (id ?x) with x. rewrite length_take, HL1, Hg, Nat.min_id, Nat.eqb_refl, forallb_app.
  rewrite !IH by (lia || done). done.
Qed.

Lemma expanded_valid k :
  (2 <= sk_logn k <= 10)%nat ->
  isValid (precomputed_expand k) =
  forallb (fun x => negb (f64_eqb x f64_ZERO)) (tree_leaves (ps_tree (precomputed_expand k))).
Proof using.
  intros Hl. unfold precomputed_expand, isValid.
  pose proof (length_basis (sk_logn k) (sk_f k) (sk_g k) (sk_F k) (sk_G k)) as Hb.
  destruct (basis_to_FFT _ _ _ _ _ _ _ _ _) as [[[b00 b01] b10] b11]. destruct Hb as (L00 & L01 & L10 & L11).
  pose proof (length_fpoly_gram (sk_logn k) b00 b01 b10 b11) as Hg.
  destruct (fpoly_gram_fft _ b00 b01 b10 b11) as [[g00 g01] g11]. destruct Hg as (_ & Hg & _).
  cbn [ps_logn ps_b00 ps_b01 ps_b10 ps_b11 ps_tree].
  rewrite (proj2 (Nat.ltb_ge _ _)) by lia. rewrite (proj2 (Nat.leb_gt _ _)) by (simpl; lia). cbn [orb].
  rewrite L00, L01, L10, L11. change (2 ^ sk_logn k)%nat with (degree (sk_logn k)).
  rewrite Nat.eqb_refl. cbn [andb]. apply validate_build; [lia|]. by rewrite Hg, L01.
Qed.
End Constructor.

(** The expansion of a key that loads signs like the key. *)
Lemma expanded_signs `{F64} `{ShakeLaws} fuel lmin lmax skey k seed ctx id data :
  (2 <= lmin)%nat -> (lmax <= 10)%nat -> Forall is_byte skey ->
  sign_load lmin lmax skey = Ok k ->
  signSeeded fuel (precomputed_expand k) seed ctx id data = sign_inner_seeded fuel lmin lmax seed skey ctx id data.
Proof.
  intros Hlmin Hlmax Hb El. unfold sign_inner_seeded. rewrite El.
  apply sign_load_ok in El as (Hl & _ & _ & _ & Hk); [|done..]. cbv zeta.
  unfold signSeeded, sign_core_precomputed, sign_core.
  assert (ps_logn (precomputed_expand k) = sk_logn k) as ->.
  { unfold precomputed_expand. by repeat case_match. }
  apply loop_expanded; [lia|apply (ko_h _ _ _ _ _ Hk)|by rewrite length_replicate].
Qed.

(** What the constructor returns is the expansion of the key the signer loads. *)
Lemma constructor_ok `{F64} `{ShakeLaws} lmin lmax skey ps :
  newPrecomputedSignerInner lmin lmax skey = Ok ps ->
  exists k, sign_load lmin lmax skey = Ok k /\ ps = precomputed_expand k /\ isValid ps = true.
Proof.
  rewrite constructor_load. destruct (sign_load lmin lmax skey) as [k|] eqn:El; [|done].
  cbv zeta. destruct (isValid _) eqn:Ev; [|done]. intros [= <-]. by exists k.
Qed.

(** A valid signer is ready. *)
Lemma valid_ready `{F64} ps : isValid ps = true -> isReadyForSign ps = true.
Proof.
  unfold isValid, isReadyForSign. destruct (_ || _); [done|].
  rewrite !andb_true_iff. intros [Ev Ht]. split; [done|].
  destruct (ps_tree ps) as [|l]; [by destruct (ps_logn ps)|].
  destruct (ps_logn ps); simpl in Ht |- *; by destruct (l =? _)%nat.
Qed.

(** (C4) The precomputed signer signs exactly like the plain one: same bytes,
    same errors, same number of turns, for every seed, context, identifier and
    message, whatever the floating-point operations are. *)
Theorem precomputed_signs_alike `{F64} `{ShakeLaws} fuel lmin lmax skey ps seed ctx id data :
  (2 <= lmin)%nat -> (lmax <= 10)%nat -> Forall is_byte skey ->
  newPrecomputedSignerInner lmin lmax skey = Ok ps ->
  signSeeded fuel ps seed ctx id data = sign_inner_seeded fuel lmin lmax seed skey ctx id data.
Proof. intros Hlmin Hlmax Hb (k & El & -> & _)%constructor_ok. by apply expanded_signs. Qed.

(** (C26) The constructor accepts exactly the private keys the signer loads for
    which no leaf of the tree is zero; the signer it returns is then valid and
    ready, and its errors are those of the signer otherwise. *)
Theorem constructor_accepts_iff `{F64} `{ShakeLaws} lmin lmax skey ps :
  (2 <= lmin)%nat -> (lmax <= 10)%nat -> Forall is_byte skey ->
  newPrecomputedSignerInner lmin lmax skey = Ok ps <->
  exists k, sign_load lmin lmax skey = Ok k /\ ps = precomputed_expand k /\
    Forall (fun x => f64_eqb x f64_ZERO = false) (tree_leaves (ps_tree ps)) /\
    isValid ps = true /\ isReadyForSign ps = true.
Proof.
  intros Hlmin Hlmax Hb. rewrite constructor_load.
  destruct (sign_load lmin lmax skey) as [k|] eqn:El; [|split; [done|by intros (? & ? & _)]].
  apply sign_load_ok in El as (Hl & _); [|done..]. cbv zeta.
  pose proof (expanded_valid k ltac:(lia)) as Hv. split.
  - destruct (isValid (precomputed_expand k)) eqn:Ev; [|done]. intros [= <-]. exists k.
    split; [done|]. split; [done|]. split; [|split; [done|]].
    + apply Forall_forall. intros x Hx. symmetry in Hv. rewrite forallb_forall in Hv.
      specialize (Hv x). rewrite <- list_elem_of_In in Hv. specialize (Hv Hx). by apply negb_true_iff.
    + by apply valid_ready.
  - intros (k' & [= <-] & -> & _ & Hval & _). by rewrite Hval.
Qed.

(** ** At concrete inputs *)

(** The demonstration key is accepted. *)
Lemma demo_signer : exists ps, @newPrecomputedSignerInner emu demo_shake 2 10 demo_skey = Ok ps.
Proof.
  assert (is_ok (@newPrecomputedSignerInner emu demo_shake 2 10 demo_skey) = true) as Hok
    by (vm_compute; reflexivity).
  destruct (@newPrecomputedSignerInner emu demo_shake 2 10 demo_skey) as [ps|]; [by exists ps|discriminate].
Defined.

Lemma precomputed_signs_alike_witness :
  exists ps, @newPrecomputedSignerInner emu demo_shake 2 10 demo_skey = Ok ps /\
    @signSeeded emu demo_shake 100 ps demo_seed [1; 2] 0 [7; 8] =
    @sign_inner_seeded emu demo_shake 100 2 10 demo_seed demo_skey [1; 2] 0 [7; 8].
Proof.
  destruct demo_signer as [ps Hps]. exists ps. split; [exact Hps|].
  apply (@precomputed_signs_alike emu demo_shake demo_shake_laws); [lia|lia|exact demo_skey_bytes|exact Hps].
Defined.

Lemma constructor_accepts_iff_witness :
  exists ps k, @newPrecomputedSignerInner emu demo_shake 2 10 demo_skey = Ok ps /\
    @sign_load demo_shake 2 10 demo_skey = Ok k /\ ps = precomputed_expand k /\
    Forall (fun x => f64_eqb x f64_ZERO = false) (tree_leaves (ps_tree ps)) /\
    isValid ps = true /\ isReadyForSign ps = true.
Proof.
  destruct demo_signer as [ps Hps]. pose proof Hps as Hps'.
  apply (@constructor_accepts_iff emu demo_shake demo_shake_laws 2 10 demo_skey ps) in Hps';
    [|lia|lia|exact demo_skey_bytes].
  destruct Hps' as [k Hk]. exists ps, k. split; [exact Hps|exact Hk].
Defined.
