(* ===== verification/SamplerFacts.v ===== *)
(** What the integer samplers compute ([sign_sampler.go]), whatever the
    floating-point operations are. *)
From Stdlib Require Import ZArith Lia.
From stdpp Require Import base numbers list.
From S2P Require Import Prelude Util Flr Fpoly Sampler FlrEmu Examples.
Local Open Scope Z_scope.

(** * The half-Gaussian *)

(** Row [j] of the table as a 72-bit number. *)
Definition rcdt_row (j : nat) : Z :=
  gaussian0_rcdt.[3 * j + 0] * 2 ^ 48 + gaussian0_rcdt.[3 * j + 1] * 2 ^ 24 + gaussian0_rcdt.[3 * j + 2].

(** How many of the first [n] rows are above [v]. *)
Definition rows_above (n : nat) (v : Z) : Z := zsum n (fun j => if v <? rcdt_row j then 1 else 0).

Definition limb (x : Z) : Prop := 0 <= x < 2 ^ 24.

Lemma limb_borrow v t b : limb v -> limb t -> 0 <= b <= 1 ->
  (v -% t -% b) .>> 31 = if v <? t + b then 1 else 0.
Proof.
  unfold limb. intros Hv Ht Hb. rewrite u32_mod at 1. rewrite (u32_mod (v - t)), Zminus_mod_idemp_l, <- u32_mod.
  destruct (Z.ltb_spec v (t + b)).
  - rewrite u32_neg, shr31_bit by lia. case_decide; lia.
  - rewrite u32_small, shr31_bit by lia. case_decide; lia.
Qed.

Lemma limbs_compare v0 v1 v2 t0 t1 t2 :
  limb v0 -> limb v1 -> limb v2 -> limb t0 -> limb t1 -> limb t2 ->
  let cc := (v0 -% t2) .>> 31 in
  let cc := (v1 -% t1 -% cc) .>> 31 in
  let cc := (v2 -% t0 -% cc) .>> 31 in
  cc = if v2 * 2 ^ 48 + v1 * 2 ^ 24 + v0 <? t0 * 2 ^ 48 + t1 * 2 ^ 24 + t2 then 1 else 0.
Proof.
  intros Hv0 Hv1 Hv2 Ht0 Ht1 Ht2. cbv zeta.
  assert (v0 -% t2 = v0 -% t2 -% 0) as ->
    by (rewrite Z.sub_0_r; symmetry; apply u32_small; apply u32_range).
  rewrite (limb_borrow v0 t2 0) by (done || lia).
  rewrite (limb_borrow v1) by (done || (case_match; lia)).
  rewrite (limb_borrow v2) by (done || (case_match; lia)).
  unfold limb in *.
  destruct (Z.ltb_spec v0 (t2 + 0)); 
    match goal with |- context [v1 <? ?b] => destruct (Z.ltb_spec v1 b) end;
    match goal with |- context [v2 <? ?b] => destruct (Z.ltb_spec v2 b) end;
    match goal with |- context [?a <? ?b] => destruct (Z.ltb_spec a b) end; lia.
Qed.

Lemma rcdt_limbs : Forall limb gaussian0_rcdt.
Proof. unfold limb. repeat constructor; done. Qed.

Lemma gaussian0_scan_spec v0 v1 v2 :
  limb v0 -> limb v1 -> limb v2 ->
  gaussian0_scan v0 v1 v2 = rows_above 18 (v2 * 2 ^ 48 + v1 * 2 ^ 24 + v0).
Proof.
  intros H0 H1 H2. unfold gaussian0_scan. change (length gaussian0_rcdt / 3)%nat with 18%nat.
  set (v := v2 * 2 ^ 48 + v1 * 2 ^ 24 + v0).
  enough (for_ 18 _ 0 = rows_above 18 v /\ 0 <= rows_above 18 v <= Z.of_nat 18) as [He _] by exact He.
  apply (for_ind (fun n z => z = rows_above n v /\ 0 <= rows_above n v <= Z.of_nat n)); [done|].
  intros j z Hj [-> Hr]. cbv zeta. pose proof rcdt_limbs as Hl.
  assert (forall i, (i < 54)%nat -> limb gaussian0_rcdt.[i]) as Hg by (intros i Hi; by apply get_Forall).
  rewrite limbs_compare by (done || apply Hg; lia). fold v.
  change (_ + _ + gaussian0_rcdt.[3 * j + 2]) with (rcdt_row j).
  unfold rows_above in *. cbn [zsum]. destruct (v <? rcdt_row j).
  - change (i32 1) with 1. split; [apply i32_small; lia|lia].
  - change (i32 0) with 0. split; [apply i32_small; lia|lia].
Qed.

Section Draws.
Context `{Hsh : Shake} {Hlaws : ShakeLaws}.

Lemma gaussian0_spec m k r :
  prng_at m k r ->
  exists r', gaussian0 r = Some (rows_above 18 (le_word m k 9), r') /\ prng_at m (k + 9) r'.
Proof using Hlaws.
  intros Hr. unfold gaussian0, mbind, M_bind, draw, mret, M_ret.
  pose proof (next_u64_spec m k r Hr) as [E1 P1]. destruct (next_u64 r) as [lo r1]. cbn [fst snd] in E1, P1.
  pose proof (next_u8_spec m (k + 8) r1 P1) as [E2 P2]. destruct (next_u8 r1) as [hi r2]. cbn [fst snd] in E2, P2.
  exists r2. split; [|by replace (k + 9)%nat with (S (k + 8)) by lia].
  pose proof (le_word_range m k 8) as Hlo. rewrite <- E1 in Hlo. change (8 * Z.of_nat 8) with 64 in Hlo.
  pose proof (shake_byte m (k + 8)) as Hhi. rewrite <- E2 in Hhi.
  change (le_word m k 9) with (le_word m k 8 + shake m (k + 8) * 2 ^ 64). rewrite <- E1, <- E2.
  change 16777215 with (Z.ones 24). rewrite !Z.land_ones by lia.
  assert (u32 (lo .>> 48) .| u32 (hi .<< 16) = lo / 2 ^ 48 + hi * 2 ^ 16) as ->.
  { rewrite shr_div, shl_mul by lia.
    assert (0 <= lo / 2 ^ 48 < 2 ^ 16) by (split; [apply Z.div_pos; lia|apply Z.div_lt_upper_bound; lia]).
    rewrite !u32_small by lia. rewrite Z.lor_comm, lor_shifted by lia. lia. }
  assert (u32 lo mod 2 ^ 24 = lo mod 2 ^ 24) as ->
    by (rewrite u32_mod; apply Z.mod_mod_divide; by exists (2 ^ 8)).
  rewrite gaussian0_scan_spec.
  - do 3 f_equal. rewrite u32_mod, shr_div by lia. Z.to_euclidean_division_equations. lia.
  - apply Z.mod_pos_bound. lia.
  - apply Z.mod_pos_bound. lia.
  - unfold limb. assert (0 <= lo / 2 ^ 48 < 2 ^ 16) by (split; [apply Z.div_pos; lia|apply Z.div_lt_upper_bound; lia]).
    lia.
Qed.

(** The next [n] bytes as a big-endian number. *)
Fixpoint be_word (m : list Z) (k n : nat) : Z :=
  match n with
  | O => 0
  | S n' => shake m k * 2 ^ (8 * Z.of_nat n') + be_word m (S k) n'
  end.

Lemma be_word_range m k n : 0 <= be_word m k n < 2 ^ (8 * Z.of_nat n).
Proof using Hlaws.
  revert k. induction n as [|n IH]; intros k; [done|]. cbn [be_word].
  pose proof (shake_byte m k). specialize (IH (S k)).
  replace (2 ^ (8 * Z.of_nat (S n))) with (256 * 2 ^ (8 * Z.of_nat n)); [nia|].
  replace (8 * Z.of_nat (S n)) with (8 + 8 * Z.of_nat n) by lia. by rewrite Z.pow_add_r by lia.
Qed.

(** The lazy comparison decides [be_word < z] (on the low [n] bytes of [z])
    and stops at the first difference. *)
Lemma ber_compare_spec m n z k r :
  prng_at m k r -> 0 <= z ->
  exists j r', (j <= n)%nat /\
    ber_compare n z r = Some (be_word m k n <? z mod 2 ^ (8 * Z.of_nat n), r') /\ prng_at m (k + j) r'.
Proof using Hlaws.
  intros Hr Hz. revert k r Hr. induction n as [|n IH]; intros k r Hr.
  { exists 0%nat, r. rewrite Nat.add_0_r. cbn [ber_compare be_word]. rewrite Z.mod_1_r. done. }
  cbn [ber_compare be_word]. unfold mbind, M_bind, draw.
  pose proof (next_u8_spec m k r Hr) as [E1 P1]. destruct (next_u8 r) as [w r1]. cbn [fst snd] in E1, P1. subst w.
  pose proof (shake_byte m k) as Hb. pose proof (be_word_range m (S k) n) as Hw.
  set (N := 2 ^ (8 * Z.of_nat n)) in *.
  assert (0 < N) by (unfold N; apply Z.pow_pos_nonneg; lia).
  assert (2 ^ (8 * Z.of_nat (S n)) = N * 256) as ->.
  { unfold N. replace (8 * Z.of_nat (S n)) with (8 * Z.of_nat n + 8) by lia. by rewrite Z.pow_add_r by lia. }
  assert (u8 (z .>> (8 * Z.of_nat n)) = (z / N) mod 256) as -> by (by rewrite u8_mod, shr_div by lia).
  rewrite Z.rem_mul_r by lia. pose proof (Z.mod_pos_bound z N ltac:(lia)).
  destruct (Z.eqb_spec (shake m k) ((z / N) mod 256)) as [He|Hne]; cbn [negb].
  - destruct (IH (S k) r1 P1) as (j & r' & Hj & Hc & Hp). exists (S j), r'.
    split; [lia|]. split; [|by rewrite <- Nat.add_succ_comm]. rewrite Hc, <- He. do 2 f_equal.
    apply eq_true_iff_eq. rewrite !Z.ltb_lt. nia.
  - exists 1%nat, r1. split; [lia|]. split; [|by rewrite Nat.add_1_r]. unfold mret, M_ret. do 2 f_equal.
    apply eq_true_iff_eq. rewrite !Z.ltb_lt. nia.
Qed.
End Draws.

(** * The exponential *)

(** Horner's rule in fixed point, on unbounded integers: each step is
    [y := c - y z / 2^64]. *)
Definition horner (n : nat) (z : Z) : Z :=
  for_ n (fun k y => expm_coeffs.[1 + k] - y * z / 2 ^ 64) expm_coeffs.[0].

Lemma expm_coeffs_increasing k : (k < 12)%nat -> 0 < expm_coeffs.[k] <= expm_coeffs.[1 + k] /\ expm_coeffs.[1 + k] <= 2 ^ 63.
Proof. intros Hk. do 12 (destruct k as [|k]; [vm_compute; by repeat split|]). lia. Qed.

Lemma horner_range n z : (n <= 12)%nat -> 0 <= z < 2 ^ 64 -> 0 <= horner n z <= expm_coeffs.[n].
Proof.
  intros Hn Hz. unfold horner.
  pose proof (for_ind (fun k y => (k <= n)%nat /\ 0 <= y <= expm_coeffs.[k]) n
    (fun k y => expm_coeffs.[1 + k] - y * z / 2 ^ 64) expm_coeffs.[0]) as H.
  apply H; [split; [lia|by vm_compute]|].
  intros i y Hi [_ Hy]. split; [lia|]. pose proof (expm_coeffs_increasing i ltac:(lia)).
  change (S i) with (1 + i)%nat.
  assert (0 <= y * z / 2 ^ 64 <= y).
  { split; [apply Z.div_pos; nia|]. apply Z.div_le_upper_bound; nia. }
  lia.
Qed.

Section Floats.
Context `{HF : F64}.

Lemma expm_p63_spec x ccs :
  0 <= f64_mtwop63 x < 2 ^ 63 -> 0 <= f64_mtwop63 ccs < 2 ^ 63 ->
  expm_p63 x ccs = horner 12 (2 * f64_mtwop63 x) * f64_mtwop63 ccs / 2 ^ 63 /\
  0 <= expm_p63 x ccs <= f64_mtwop63 ccs.
Proof.
  intros Hx Hc. set (z := 2 * f64_mtwop63 x).
  pose proof (horner_range 12 z ltac:(lia) ltac:(lia)) as Hh. change (expm_coeffs.[12]) with (2 ^ 63) in Hh.
  assert (expm_p63 x ccs = horner 12 z * f64_mtwop63 ccs / 2 ^ 63) as ->.
  { unfold expm_p63. cbv zeta. rewrite !shl_mul by lia. rewrite !u64_small by lia.
    replace (f64_mtwop63 x * 2 ^ 1) with z by lia.
    change (length expm_coeffs - 1)%nat with 12%nat.
    assert (for_ 12 (fun k y => u64 (expm_coeffs.[1 + k] - mul64_hi y z)) expm_coeffs.[0] = horner 12 z) as ->.
    { unfold horner. apply (for_sim (fun k y y' => y = y' /\ (k <= 12)%nat /\ 0 <= y <= expm_coeffs.[k])).
      { split; [done|]. split; [lia|by vm_compute]. }
      intros i y ? Hi (<- & _ & Hy). pose proof (expm_coeffs_increasing i Hi).
      unfold mul64_hi. rewrite shr_div by lia. change (S i) with (1 + i)%nat.
      assert (0 <= y * z / 2 ^ 64 <= y).
      { split; [apply Z.div_pos; nia|]. apply Z.div_le_upper_bound; nia. }
      rewrite u64_small by lia. split; [done|lia]. }
    unfold mul64_hi. rewrite shr_div by lia.
    replace (horner 12 z * (f64_mtwop63 ccs * 2 ^ 1)) with (horner 12 z * f64_mtwop63 ccs * 2) by lia.
    change (2 ^ 64) with (2 ^ 63 * 2). apply Z.div_mul_cancel_r; lia. }
  split; [done|]. split; [apply Z.div_pos; nia|]. apply Z.div_le_upper_bound; nia.
Qed.

(** Saturation of the shift count. *)
Lemma shift_saturates ti : 0 <= ti < 2 ^ 26 ->
  let t := u32 ti in (t .| ((63 -% t) .>> 26)) .& 63 = Z.min ti 63.
Proof.
  intros Ht. cbv zeta. rewrite (u32_small ti), shr_div by lia. change 63 with (Z.ones 6) at 2.
  rewrite Z.land_ones by lia. destruct (decide (ti <= 63)).
  - rewrite u32_small, Z.div_small, Z.lor_0_r, Z.mod_small by lia. lia.
  - rewrite u32_neg by lia. assert ((63 - ti + 4294967296) / 2 ^ 26 = Z.ones 6) as ->.
    { symmetry. change (Z.ones 6) with 63. apply (Z.div_unique_pos _ _ _ (63 - ti + 4294967296 - 63 * 2 ^ 26)); lia. }
    rewrite <- Z.land_ones by lia. rewrite Z.land_lor_distr_l, Z.land_diag.
    rewrite (Z.land_ones ti), lor_all_ones by (lia || apply Z.mod_pos_bound; lia). 
    change (Z.ones 6) with 63. lia.
Qed.
End Floats.

(** * The sampler *)

Lemma rows_above_range n v : 0 <= rows_above n v <= Z.of_nat n.
Proof.
  unfold rows_above. split; [apply zsum_nonneg; intros; by case_match|].
  pose proof (zsum_le_const n (fun j => if v <? rcdt_row j then 1 else 0) 1). cbv beta in *.
  rewrite Z.mul_1_r in *. apply H. intros; by case_match.
Qed.

(** The rows decrease, so the rows above a value are the first ones. *)
Lemma rcdt_decreasing i : (i < 17)%nat -> rcdt_row (S i) < rcdt_row i.
Proof. intros Hi. do 17 (destruct i as [|i]; [by vm_compute|]). lia. Qed.

Lemma rcdt_antitone i j : (i <= j < 18)%nat -> rcdt_row j <= rcdt_row i.
Proof.
  intros Hij. replace j with (i + (j - i))%nat by lia. assert (i + (j - i) < 18)%nat as Hb by lia.
  revert Hb. induction (j - i)%nat as [|d IH]; intros Hb; [rewrite Nat.add_0_r; lia|].
  rewrite Nat.add_succ_r in *. pose proof (rcdt_decreasing (i + d) ltac:(lia)). specialize (IH ltac:(lia)). lia.
Qed.

Lemma rows_above_lt n v j : (j < n <= 18)%nat -> Z.of_nat j < rows_above n v <-> v < rcdt_row j.
Proof.
  revert j. induction n as [|n IH]; intros j Hj; [lia|]. unfold rows_above in *. cbn [zsum].
  destruct (decide (j = n)) as [->|].
  - pose proof (rows_above_range n v) as Hr. unfold rows_above in Hr. destruct (Z.ltb_spec v (rcdt_row n)).
    + split; [done|]. intros _. destruct n as [|n']; [done|].
      pose proof (proj2 (IH n' ltac:(lia)) ltac:(pose proof (rcdt_antitone n' (S n') ltac:(lia)); lia)). lia.
    + split; lia.
  - specialize (IH j ltac:(lia)). destruct (Z.ltb_spec v (rcdt_row n)); [|lia].
    split; [|lia]. intros _. pose proof (rcdt_antitone j n ltac:(lia)). lia.
Qed.

Section Next.
Context `{HF : F64} `{Hsh : Shake} {Hlaws : ShakeLaws}.

(** The threshold is a 64-bit value. *)
Lemma ber_exp_threshold_range x ccs : 0 <= ber_exp_threshold x ccs < 2 ^ 64.
Proof using.
  unfold ber_exp_threshold. cbv zeta.
  set (z := u64 _). pose proof (u64_range (u64 (expm_p63 (f64_sub x (f64_mul (f64_of_i32
    (f64_trunc (f64_mul x inv_log2))) log2)) ccs .<< 1) - 1)) as Hz. fold z in Hz.
  set (t := _ .& 63).
  assert (0 <= t) as Ht by (apply Z.land_nonneg; by right).
  rewrite shr_div by done. assert (0 < 2 ^ t) by (apply Z.pow_pos_nonneg; lia).
  split; [apply Z.div_pos; lia|]. apply Z.div_lt_upper_bound; [done|]. nia.
Qed.

Lemma ber_exp_spec x ccs m k r :
  prng_at m k r ->
  exists j r', (j <= 8)%nat /\ ber_exp x ccs r = Some (be_word m k 8 <? ber_exp_threshold x ccs, r') /\
    prng_at m (k + j) r'.
Proof using Hlaws.
  intros Hr. pose proof (ber_exp_threshold_range x ccs) as Ht.
  destruct (ber_compare_spec m 8 (ber_exp_threshold x ccs) k r Hr ltac:(lia)) as (j & r' & Hj & Hc & Hp).
  exists j, r'. split; [done|]. split; [|done]. unfold ber_exp. rewrite Hc.
  by rewrite Z.mod_small by (change (8 * Z.of_nat 8) with 64; lia).
Qed.

(** The bimodal candidate. *)
Lemma candidate_range b z0 : 0 <= b -> 0 <= z0 <= 18 ->
  let z := i32 ((b .& 1) + i32 (i32 (((b .& 1) .<< 1) - 1) * z0)) in
  z = (if Z.even b then - z0 else 1 + z0) /\ -18 <= z <= 19.
Proof using.
  intros Hb Hz. cbv zeta. change (b .& 1) with (b .& Z.ones 1). rewrite Z.land_ones by lia.
  change (2 ^ 1) with 2. rewrite Zmod_even, shl_mul by lia. change (2 ^ 1) with 2. destruct (Z.even b).
  - change (i32 (0 * 2 - 1)) with (-1). rewrite (i32_small (-1 * z0)), i32_small by lia. lia.
  - change (i32 (1 * 2 - 1)) with 1. rewrite (i32_small (1 * z0)), i32_small by lia. lia.
Qed.

(** The rejection loop: a value at most 19 away, after 10 to 18 bytes a turn. *)
Lemma next_loop_spec fuel t x dss ccs m k r v r' :
  prng_at m k r -> next_loop fuel t x dss ccs r = Some (v, r') ->
  exists z k', -18 <= z <= 19 /\ v = i32 (t + z) /\ prng_at m k' r' /\ (k + 10 <= k' <= k + 18 * fuel)%nat.
Proof using Hlaws.
  revert k r. induction fuel as [|fuel IH]; intros k r Hr; [done|]. cbn [next_loop].
  unfold mbind, M_bind, draw.
  destruct (gaussian0_spec m k r Hr) as (r1 & -> & P1).
  pose proof (next_u8_spec m (k + 9) r1 P1) as [E2 P2]. destruct (next_u8 r1) as [b r2]. cbn [fst snd] in E2, P2.
  pose proof (shake_byte m (k + 9)). rewrite <- E2 in *.
  pose proof (candidate_range b _ ltac:(lia) (rows_above_range 18 (le_word m k 9))) as [_ Hz]. cbv zeta in Hz.
  set (z := i32 _) in *.
  match goal with |- context [ber_exp ?a ccs r2] => destruct (ber_exp_spec a ccs m (S (k + 9)) r2 P2) as (j & r3 & Hj & -> & P3) end.
  destruct (_ <? _).
  - unfold mret, M_ret. intros [= <- <-]. exists z, (S (k + 9) + j)%nat.
    split; [done|]. split; [done|]. split; [done|]. lia.
  - intros Hl. apply (IH _ _ P3) in Hl as (z' & k' & Hz' & Hv & Hp & Hk). exists z', k'.
    split; [done|]. split; [done|]. split; [done|]. lia.
Qed.
End Next.

(** * The contracts *)

(** [gaussian0] inverts the cumulative table: it consumes nine bytes, and
    its result is above [j] exactly when the little-endian value of these bytes
    is below row [j] of the table (so with probability row [j] over 2^72). *)
Theorem gaussian0_inverts_table `{ShakeLaws} m k r :
  prng_at m k r ->
  exists z r', gaussian0 r = Some (z, r') /\ prng_at m (k + 9) r' /\ 0 <= z <= 18 /\
    forall j, (j < 18)%nat ->
      Z.of_nat j < z <->
      zsum 9 (fun i => shake m (k + i) * 2 ^ (8 * Z.of_nat i)) <
      gaussian0_rcdt.[3 * j + 0] * 2 ^ 48 + gaussian0_rcdt.[3 * j + 1] * 2 ^ 24 + gaussian0_rcdt.[3 * j + 2].
Proof.
  intros Hr. destruct (gaussian0_spec m k r Hr) as (r' & Hg & Hp).
  exists (rows_above 18 (le_word m k 9)), r'. split; [done|]. split; [done|].
  split; [apply rows_above_range|]. intros j Hj. apply rows_above_lt. lia.
Qed.

(** (C37) [ber_exp] draws a bit that is set exactly when the next eight bytes,
    big-endian, are below (2 e - 1) / 2^min(t, 63): here t is the integral part
    of x / log 2, and e is [ccs] times the fixed-point Horner value of the
    remainder, computed by [expm_p63] without wrapping.  The comparison is lazy:
    it may stop before the eighth byte. *)
Theorem ber_exp_decides `{F64} `{ShakeLaws} x ccs m k r :
  let ti := f64_trunc (f64_mul x inv_log2) in
  let rest := f64_sub x (f64_mul (f64_of_i32 ti) log2) in
  let e := horner 12 (2 * f64_mtwop63 rest) * f64_mtwop63 ccs / 2 ^ 63 in
  prng_at m k r -> 0 <= ti < 2 ^ 26 ->
  0 <= f64_mtwop63 rest < 2 ^ 63 -> 0 <= f64_mtwop63 ccs < 2 ^ 63 -> 0 < e ->
  exists j r', (j <= 8)%nat /\
    ber_exp x ccs r = Some (be_word m k 8 <? (2 * e - 1) / 2 ^ Z.min ti 63, r') /\ prng_at m (k + j) r'.
Proof.
  cbv zeta. set (ti := f64_trunc _). set (rest := f64_sub _ _). intros Hr Ht Hx Hc He.
  destruct (ber_exp_spec x ccs m k r Hr) as (j & r' & Hj & Hb & Hp). exists j, r'.
  split; [done|]. split; [|done]. rewrite Hb. do 3 f_equal.
  destruct (expm_p63_spec rest ccs Hx Hc) as [E Hrange].
  unfold ber_exp_threshold. cbv zeta. fold ti. fold rest. rewrite shift_saturates, shr_div by lia.
  rewrite E in *. rewrite shl_mul by lia. rewrite (u64_small (_ * _)), u64_small by lia.
  do 2 f_equal. lia.
Qed.

(** A value sampled around a centre stays within -18..19 of its integral
    part; each turn of the rejection loop consumes 10 to 18 bytes. *)
Theorem next_bounded `{F64} `{ShakeLaws} fuel slogn mu isigma m k r v r' :
  prng_at m k r -> next fuel slogn mu isigma r = Some (v, r') ->
  exists z k', -18 <= z <= 19 /\ v = i32 (f64_floor mu + z) /\
    prng_at m k' r' /\ (k + 10 <= k' <= k + 18 * fuel)%nat.
Proof. unfold next. apply next_loop_spec. Qed.

(** ** At concrete inputs *)

Lemma gaussian0_inverts_table_witness :
  exists z r', @gaussian0 demo_shake (newSHAKE256prng [1]) = Some (z, r') /\
    @prng_at demo_shake [1] (0 + 9) r' /\ 0 <= z <= 18 /\
    forall j, (j < 18)%nat ->
      Z.of_nat j < z <->
      zsum 9 (fun i => demo_shake [1] (0 + i)%nat * 2 ^ (8 * Z.of_nat i)) <
      gaussian0_rcdt.[3 * j + 0] * 2 ^ 48 + gaussian0_rcdt.[3 * j + 1] * 2 ^ 24 + gaussian0_rcdt.[3 * j + 2].
Proof.
  apply (@gaussian0_inverts_table demo_shake demo_shake_laws [1] 0 (newSHAKE256prng [1])). apply prng_new.
Defined.

(** x = 1 and ccs = 0.7. *)
Lemma ber_exp_decides_witness :
  exists j r', (j <= 8)%nat /\
    @ber_exp emu demo_shake (emu_of 1) (emu_mk 6305039478318694 (-53)) (newSHAKE256prng [1]) =
      Some (@be_word demo_shake [1] 0 8 <? 4750324530888217960, r') /\ @prng_at demo_shake [1] (0 + j) r'.
Proof.
  refine (@ber_exp_decides emu demo_shake demo_shake_laws (emu_of 1) (emu_mk 6305039478318694 (-53)) [1] 0
    (newSHAKE256prng [1]) _ _ _ _ _);
    [apply prng_new|split; [vm_compute; discriminate|vm_compute; reflexivity]..|vm_compute; reflexivity].
Defined.

Lemma next_bounded_witness :
  exists v r' z k', @next emu demo_shake 20 9 (emu_of 5) (emu_mk 5404319552844595 (-53)) (newSHAKE256prng [1]) = Some (v, r') /\
    -18 <= z <= 19 /\ v = i32 (5 + z) /\ @prng_at demo_shake [1] k' r' /\ (0 + 10 <= k' <= 0 + 18 * 20)%nat.
Proof.
  assert (is_Some (@next emu demo_shake 20 9 (emu_of 5) (emu_mk 5404319552844595 (-53)) (newSHAKE256prng [1]))) as [[v r'] Hn]
    by (vm_compute; eexists; reflexivity).
  destruct (@next_bounded emu demo_shake demo_shake_laws 20 9 (emu_of 5) (emu_mk 5404319552844595 (-53)) [1] 0
    (newSHAKE256prng [1]) v r' (prng_new [1]) Hn) as (z & k' & Hz & Hv & Hp & Hk).
  exists v, r', z, k'. split; [exact Hn|]. split; [exact Hz|]. split; [exact Hv|]. split; [exact Hp|exact Hk].
Defined.
