(* ===== verification/Mp31.v ===== *)
(** Arithmetic modulo the 31-bit primes of key generation ([kgen_mp31.go]).

    The operations are the branch-free 32-bit code.  A value modulo p is held in
    [0, p-1].  Nothing asks that p be prime: the theorems take an odd p in the
    range and the constants the table gives with it ([good_prime]), and
    [primes_checked] checks them for the whole table. *)
From Stdlib Require Import ZArith Lia Znumtheory.
From stdpp Require Import base numbers list.
From S2P Require Import Prelude Mq Ntt Mp31Tables.
Local Open Scope Z_scope.

Definition tbmask (x : Z) : Z := u32 (i32 x .>> 31).

Definition mp_set (v p : Z) : Z := u32 v +% (p .& tbmask (u32 v)).
Definition mp_norm (x p : Z) : Z := i32 (x -% (p .& tbmask ((p .>> 1) -% x))).
Definition mp_R (p : Z) : Z := -% (u32 (p .<< 1)).
Definition mp_hR (p : Z) : Z := u32 (1 .<< 31) -% p.
Definition mp_add (a b p : Z) : Z := let d := (a +% b) -% p in d +% (p .& tbmask d).
Definition mp_sub (a b p : Z) : Z := let d := a -% b in d +% (p .& tbmask d).
Definition mp_half (a p : Z) : Z := (a +% (p .& (-% (a .& 1)))) .>> 1.

Definition mp_mmul (a b p p0i : Z) : Z :=
  let z := u64 (a * b) in
  let w := u32 z *% p0i in
  let d := u32 (u64 (z + u64 (w * p)) .>> 32) -% p in
  d +% (p .& tbmask d).

(** The square-and-multiply loop; one turn per bit of the exponent. *)
Fixpoint mp_Rx31_loop (fuel : nat) (e x d p p0i : Z) : Z :=
  match fuel with
  | O => d
  | S fuel' =>
      let d := if negb (e .& 1 =? 0) then mp_mmul d x p p0i else d in
      let e := e .>> 1 in
      if e =? 0 then d else mp_Rx31_loop fuel' e (mp_mmul x x p p0i) d p p0i
  end.
Definition mp_Rx31 (e p p0i r2 : Z) : Z := mp_Rx31_loop 64 e (mp_half r2 p) 1 p p0i.

Definition mp_div_step (p : Z) (st : Z * Z * Z * Z) : Z * Z * Z * Z :=
  let '(a, b, u, v) := st in
  let a_odd := -% (a .& 1) in
  let swap := tbmask (a -% b) .& a_odd in
  let t1 := swap .& (a .^ b) in
  let a := a .^ t1 in
  let b := b .^ t1 in
  let t2 := swap .& (u .^ v) in
  let u := u .^ t2 in
  let v := v .^ t2 in
  let a := a -% (a_odd .& b) in
  let u := mp_sub u (a_odd .& v) p in
  (a .>> 1, b, mp_half u p, v).

Definition mp_div (x y p : Z) : Z :=
  let '(_, b, _, v) := for_ 62 (fun _ => mp_div_step p) (y, p, x, 0) in
  v .& tbmask (b -% 2).

(** ** The tables of roots *)

(** The [10 - logn] squarings. *)
Definition mp_squarings (logn : nat) (g p p0i : Z) : Z :=
  for_ (10 - logn) (fun _ g => mp_mmul g g p p0i) g.

(** [gm[rev(i)]] for each [i], from [x1] on. *)
Definition mp_fill (logn : nat) (gm : list Z) (x1 g p p0i : Z) : list Z :=
  fst (for_ (2 ^ logn) (fun i '(gm, x1) =>
    let j := Z.to_nat (rev10.[i * 2 ^ (10 - logn)]) in
    (gm.[j <- x1], mp_mmul x1 g p p0i)) (gm, x1)).

Definition mp_mkgm (logn : nat) (gm : list Z) (g p p0i : Z) : list Z :=
  mp_fill logn gm (mp_R p) (mp_squarings logn g p p0i) p p0i.
Definition mp_mkigm (logn : nat) (igm : list Z) (ig p p0i : Z) : list Z :=
  mp_fill logn igm (mp_hR p) (mp_squarings logn ig p p0i) p p0i.

Definition mp_mkgmigm (logn : nat) (gm igm : list Z) (g ig p p0i : Z) : list Z * list Z :=
  let '(g, ig) := for_ (10 - logn) (fun _ '(g, ig) => (mp_mmul g g p p0i, mp_mmul ig ig p p0i)) (g, ig) in
  let '(gm, igm, _, _) := for_ (2 ^ logn) (fun i '(gm, igm, x1, x2) =>
    let j := Z.to_nat (rev10.[i * 2 ^ (10 - logn)]) in
    (gm.[j <- x1], igm.[j <- x2], mp_mmul x1 g p p0i, mp_mmul x2 ig p p0i))
    (gm, igm, mp_R p, mp_hR p) in
  (gm, igm).

(** ** The transform *)

Definition mp_ops (p p0i : Z) : ntt_ops :=
  NttOps (fun a b => mp_add a b p) (fun a b => mp_sub a b p) (fun a => mp_half a p)
    (fun a b => mp_mmul a b p p0i) (fun x => x).

Definition mp_NTT (logn : nat) (a gm : list Z) (p p0i : Z) : list Z :=
  if (logn =? 0)%nat then a else ntt_loop (mp_ops p p0i) gm logn a.
Definition mp_iNTT (logn : nat) (a igm : list Z) (p p0i : Z) : list Z :=
  if (logn =? 0)%nat then a else intt_loop (mp_ops p p0i) igm logn a.

(** * Scalars *)

Lemma tbmask_spec x : 0 <= x < 2 ^ 32 -> tbmask x = if decide (x < 2 ^ 31) then 0 else Z.ones 32.
Proof.
  intros Hx. unfold tbmask, i32. rewrite shr_div by lia. case_decide.
  - rewrite (u32_small (x + 2147483648)) by lia. replace ((x + 2147483648 - 2147483648) / 2 ^ 31) with 0; [done|].
    symmetry. apply Z.div_small. lia.
  - replace (u32 (x + 2147483648)) with (x - 2147483648).
    + replace ((x - 2147483648 - 2147483648) / 2 ^ 31) with (-1); [done|].
      apply (Z.div_unique_pos _ _ _ (x - 2 ^ 31)); lia.
    + rewrite u32_mod. apply (Z.mod_unique_pos _ _ 1); lia.
Qed.

(** The correction [d + (p & tbmask(d))] of a wrapped difference. *)
Lemma masked_add d p :
  0 < p < 2 ^ 31 -> - p <= d < 2 ^ 31 ->
  u32 d +% (p .& tbmask (u32 d)) = if decide (d < 0) then d + p else d.
Proof.
  intros Hp Hd. case_decide.
  - rewrite (u32_neg d), tbmask_spec by lia. rewrite decide_False by lia.
    rewrite land_ones_small by lia. rewrite u32_mod. symmetry. apply (Z.mod_unique_pos _ _ 1); lia.
  - rewrite (u32_small d), tbmask_spec by lia. rewrite decide_True by lia.
    rewrite Z.land_0_r, Z.add_0_r. apply u32_small. lia.
Qed.

Lemma tbmask_range x : 0 <= tbmask x < 2 ^ 32.
Proof. apply u32_range. Qed.

(** What a modulus and its constant satisfy. *)
Record good_prime (p p0i : Z) : Prop := GoodPrime {
  gp_range : 2 ^ 31 < 2 * p < 2 ^ 32;
  gp_two_thirds : 2 ^ 32 < 3 * p;
  gp_p0i : 0 <= p0i < 2 ^ 32;
  gp_inverse : (p * p0i + 1) mod 2 ^ 32 = 0
}.

(** The inverse of 2^32. *)
Definition mp_Rinv (p p0i : Z) : Z := (p * p0i + 1) / 2 ^ 32.

Section Prime.
Context {p p0i : Z} (Hgood : good_prime p p0i).
Local Abbreviation rep x := (0 <= x < p) (only parsing).

Lemma p_range : 2 ^ 30 < p < 2 ^ 31.
Proof. destruct Hgood as [H _ _ _]. lia. Qed.

Lemma Rinv_spec : 2 ^ 32 * mp_Rinv p p0i = p * p0i + 1.
Proof.
  unfold mp_Rinv. destruct Hgood as [_ _ _ H]. pose proof (Z.div_mod (p * p0i + 1) (2 ^ 32) ltac:(lia)). lia.
Qed.

Lemma Rinv_cong : 2 ^ 32 * mp_Rinv p p0i ==[p] 1.
Proof. rewrite Rinv_spec. transitivity (1 + p0i * p); [cong_ring|apply cong_mul_modulus]. Qed.

Lemma p_odd : exists h, p = 2 * h + 1.
Proof.
  exists (p / 2). pose proof Rinv_spec as H. pose proof (Z.div_mod p 2 ltac:(lia)) as Hd.
  pose proof (Z.mod_pos_bound p 2 ltac:(lia)).
  destruct (decide (p mod 2 = 0)) as [E|]; [|lia]. rewrite E in Hd.
  assert (2 * (2 ^ 31 * mp_Rinv p p0i - p / 2 * p0i) = 1) by nia. lia.
Qed.

Lemma cong_modulus x : x + p ==[p] x.
Proof. transitivity (x + 1 * p); [cong_ring|apply cong_mul_modulus]. Qed.

Lemma mp_add_spec a b : rep a -> rep b -> rep (mp_add a b p) /\ mp_add a b p ==[p] a + b.
Proof.
  intros Ha Hb. pose proof p_range. unfold mp_add. cbv zeta. rewrite (u32_small (a + b)) by lia.
  rewrite masked_add by lia. case_decide; (split; [lia|]).
  - replace (a + b - p + p) with (a + b) by lia. done.
  - rewrite <- (cong_modulus (a + b - p)). cong_ring.
Qed.

Lemma mp_sub_spec a b : rep a -> rep b -> rep (mp_sub a b p) /\ mp_sub a b p ==[p] a - b.
Proof.
  intros Ha Hb. pose proof p_range. unfold mp_sub. cbv zeta. rewrite masked_add by lia.
  case_decide; (split; [lia|]); [|done]. apply cong_modulus.
Qed.

Lemma mp_half_spec a : rep a -> rep (mp_half a p) /\ 2 * mp_half a p = if decide (a mod 2 = 0) then a else a + p.
Proof.
  intros Ha. pose proof p_range. destruct p_odd as [h Hh]. unfold mp_half. rewrite land_1.
  pose proof (Z.mod_pos_bound a 2 ltac:(lia)). pose proof (Z.div_mod a 2 ltac:(lia)) as Hd. case_decide as E.
  - rewrite E. change (-% 0) with 0. rewrite Z.land_0_r, Z.add_0_r, u32_small, shr_div by lia.
    change (2 ^ 1) with 2. lia.
  - replace (a mod 2) with 1 in * by lia. change (-% 1) with (Z.ones 32). rewrite land_ones_small by lia.
    rewrite u32_small, shr_div by lia. change (2 ^ 1) with 2.
    assert ((a + p) / 2 = a / 2 + h + 1) as -> by (symmetry; apply (Z.div_unique_pos _ _ _ 0); lia). lia.
Qed.

Lemma mp_half_cong a : rep a -> 2 * mp_half a p ==[p] a.
Proof. intros Ha. destruct (mp_half_spec a Ha) as [_ ->]. case_decide; [done|apply cong_modulus]. Qed.

(** Montgomery multiplication takes any operands with a product below p 2^32. *)
Lemma mp_mmul_spec a b :
  0 <= a < 2 ^ 32 -> 0 <= b < 2 ^ 32 -> a * b < p * 2 ^ 32 ->
  rep (mp_mmul a b p p0i) /\ mp_mmul a b p p0i ==[p] a * b * mp_Rinv p p0i.
Proof.
  intros Ha Hb Hab. pose proof p_range as Hp. pose proof Rinv_spec as HR. unfold mp_mmul. cbv zeta.
  rewrite (u64_small (a * b)) by nia. set (x := a * b) in *.
  assert (0 <= x) by (unfold x; nia).
  set (w := u32 x *% p0i). assert (0 <= w < 2 ^ 32) as Hw by apply u32_range.
  assert (exists t, x * p0i = 2 ^ 32 * t + w) as [t Ht].
  { exists ((x * p0i) / 2 ^ 32). unfold w. rewrite !u32_mod, Zmult_mod_idemp_l. apply Z.div_mod. lia. }
  clearbody w x. rewrite (u64_small (w * p)) by nia. rewrite (u64_small (x + _)) by nia.
  set (m := x * mp_Rinv p p0i - t * p).
  assert (Hm : x + w * p = 2 ^ 32 * m) by (unfold m; nia).
  rewrite Hm, shr_div, Z.mul_comm, Z.div_mul by lia.
  assert (0 <= m < 2 * p) by nia. rewrite (u32_small m) by lia.
  rewrite masked_add by lia.
  assert (m ==[p] x * mp_Rinv p p0i) as Hc.
  { unfold m. transitivity (x * mp_Rinv p p0i + (- t) * p); [cong_ring|apply cong_mul_modulus]. }
  case_decide; (split; [lia|]).
  - replace (m - p + p) with m by lia. done.
  - rewrite <- Hc, <- (cong_modulus (m - p)). cong_ring.
Qed.

Lemma mp_mmul_rep a b : rep a -> rep b -> rep (mp_mmul a b p p0i).
Proof. intros Ha Hb. pose proof p_range. apply mp_mmul_spec; [lia|lia|nia]. Qed.
Lemma mp_mmul_cong a b : rep a -> rep b -> mp_mmul a b p p0i ==[p] a * b * mp_Rinv p p0i.
Proof. intros Ha Hb. pose proof p_range. apply mp_mmul_spec; [lia|lia|nia]. Qed.

Lemma mp_R_spec : rep (mp_R p) /\ mp_R p ==[p] 2 ^ 32.
Proof.
  destruct Hgood as [H H' _ _]. unfold mp_R. rewrite (shl_mul p) by lia. change (2 ^ 1) with 2. rewrite (u32_small (p * 2)) by lia.
  rewrite (u32_neg (- (p * 2))) by lia. split; [lia|].
  transitivity (2 ^ 32 + (-2) * p); [cong_ring|apply cong_mul_modulus].
Qed.

Lemma mp_hR_spec : rep (mp_hR p) /\ mp_hR p ==[p] 2 ^ 31.
Proof.
  pose proof p_range. unfold mp_hR. change (u32 (1 .<< 31)) with (2 ^ 31). rewrite u32_small by lia. split; [lia|].
  rewrite <- (cong_modulus (2 ^ 31 - p)). cong_ring.
Qed.

Lemma mp_set_spec v : - p < v < p -> rep (mp_set v p) /\ mp_set v p ==[p] v.
Proof.
  intros Hv. pose proof p_range. unfold mp_set. rewrite masked_add by lia.
  case_decide; (split; [lia|]); [apply cong_modulus|done].
Qed.

Lemma mp_norm_spec x : rep x -> - p < 2 * mp_norm x p < p /\ mp_norm x p ==[p] x.
Proof.
  intros Hx. pose proof p_range. destruct p_odd as [h Hh]. unfold mp_norm. rewrite (shr_div p) by lia.
  change (2 ^ 1) with 2. replace (p / 2) with h by (apply (Z.div_unique_pos _ _ _ 1); lia).
  destruct (decide (x <= h)).
  - rewrite (u32_small (h - x)), tbmask_spec by lia. rewrite decide_True by lia.
    rewrite Z.land_0_r, Z.sub_0_r, u32_small, i32_small by lia. split; [lia|done].
  - rewrite (u32_neg (h - x)), tbmask_spec by lia. rewrite decide_False by lia.
    rewrite land_ones_small by lia. rewrite (u32_neg (x - p)) by lia. unfold i32.
    replace (u32 (x - p + 4294967296 + 2147483648)) with (x - p + 2147483648)
      by (rewrite u32_mod; apply (Z.mod_unique_pos _ _ 1); lia).
    replace (x - p + 2147483648 - 2147483648) with (x - p) by lia. split; [lia|].
    rewrite <- (cong_modulus (x - p)). cong_ring.
Qed.

(** ** Division *)

(** The branch-free conditional swap. *)
Lemma masked_swap w (c : bool) x y :
  0 <= w -> 0 <= x < 2 ^ w -> 0 <= y < 2 ^ w ->
  let t := (if c then Z.ones w else 0) .& (x .^ y) in
  x .^ t = (if c then y else x) /\ y .^ t = (if c then x else y).
Proof.
  intros Hw Hx Hy. cbv zeta. destruct c.
  - rewrite Z.land_comm, land_ones_small by (lia || by apply lxor_range). split.
    + by rewrite <- Z.lxor_assoc, Z.lxor_nilpotent, Z.lxor_0_l.
    + by rewrite (Z.lxor_comm x), <- Z.lxor_assoc, Z.lxor_nilpotent, Z.lxor_0_l.
  - by rewrite Z.land_0_l, !Z.lxor_0_r.
Qed.

Definition div_step (st : Z * Z * Z * Z) : Z * Z * Z * Z :=
  let '(a, b, u, v) := st in
  if decide (a mod 2 = 0) then (a / 2, b, mp_half u p, v)
  else if decide (a < b) then ((b - a) / 2, a, mp_half (mp_sub v u p) p, u)
  else ((a - b) / 2, b, mp_half (mp_sub u v p) p, v).

Lemma mp_sub_0_r u : rep u -> mp_sub u 0 p = u.
Proof.
  intros Hu. pose proof p_range. destruct (mp_sub_spec u 0 ltac:(lia) ltac:(lia)) as [Hr Hc].
  apply (cong_small p); [lia..|]. rewrite Hc. cong_ring.
Qed.

Lemma mp_div_step_spec a b u v :
  0 <= a < 2 ^ 31 -> 0 < b < 2 ^ 31 -> rep u -> rep v ->
  mp_div_step p (a, b, u, v) = div_step (a, b, u, v).
Proof.
  intros Ha Hb Hu Hv. pose proof p_range. unfold mp_div_step, div_step. rewrite land_1.
  pose proof (Z.mod_pos_bound a 2 ltac:(lia)) as Hm. case_decide as E.
  - rewrite E. change (-% 0) with 0. cbv zeta. rewrite !Z.land_0_r, !Z.land_0_l, !Z.lxor_0_r, Z.sub_0_r.
    rewrite (u32_small a) by lia. rewrite mp_sub_0_r, shr_div by lia. by change (2 ^ 1) with 2.
  - replace (a mod 2) with 1 by lia. change (-% 1) with (Z.ones 32). cbv zeta.
    assert (tbmask (a -% b) .& Z.ones 32 = if bool_decide (a < b) then Z.ones 32 else 0) as ->.
    { rewrite land_ones_small by (lia || apply tbmask_range). rewrite tbmask_spec by apply u32_range.
      case_bool_decide; [rewrite u32_neg by lia; by rewrite decide_False by lia|].
      rewrite u32_small by lia. by rewrite decide_True by lia. }
    destruct (masked_swap 32 (bool_decide (a < b)) a b ltac:(lia) ltac:(lia) ltac:(lia)) as [-> ->].
    destruct (masked_swap 32 (bool_decide (a < b)) u v ltac:(lia) ltac:(lia) ltac:(lia)) as [-> ->].
    rewrite !(Z.land_comm (Z.ones 32)). case_decide as Hlt.
    + rewrite bool_decide_eq_true_2 by done. rewrite !land_ones_small by lia.
      rewrite u32_small, shr_div by lia. by change (2 ^ 1) with 2.
    + rewrite bool_decide_eq_false_2 by done. rewrite !land_ones_small by lia.
      rewrite u32_small, shr_div by lia. by change (2 ^ 1) with 2.
Qed.

Section Division.
Context (x y : Z).

Record div_inv (i : nat) (st : Z * Z * Z * Z) : Prop := DivInv {
  di_bounds : let '(a, b, u, v) := st in 0 <= a < 2 ^ 31 /\ 0 < b < 2 ^ 31 /\ b mod 2 = 1 /\ rep u /\ rep v;
  di_size : let '(a, b, _, _) := st in a * b * 2 ^ Z.of_nat i < 2 ^ 62;
  di_gcd : let '(a, b, _, _) := st in Z.gcd a b = Z.gcd y p;
  di_u : let '(a, _, u, _) := st in a * x ==[p] u * y;
  di_v : let '(_, b, _, v) := st in b * x ==[p] v * y
}.

Lemma half_cancel_p a b : 2 * a ==[p] 2 * b -> a ==[p] b.
Proof.
  destruct p_odd as [h Hh]. intros Hab. transitivity ((h + 1) * (2 * a)).
  - transitivity (a + a * p); [symmetry; apply cong_mul_modulus|rewrite Hh; cong_ring].
  - rewrite Hab. transitivity (b + b * p); [rewrite Hh; cong_ring|apply cong_mul_modulus].
Qed.

Lemma gcd_half a b : b mod 2 = 1 -> Z.gcd (2 * a) b = Z.gcd a b.
Proof.
  intros Hb. set (d := Z.gcd (2 * a) b). assert (0 <= d) by apply Z.gcd_nonneg.
  apply Z.divide_antisym_nonneg; [done|apply Z.gcd_nonneg| |].
  - assert ((d | b)) as Hdb by apply Z.gcd_divide_r. apply Z.gcd_greatest; [|done].
    apply (Z.gauss d 2); [apply Z.gcd_divide_l|].
    assert (d mod 2 = 1) as Hd.
    { pose proof (Z.mod_pos_bound d 2 ltac:(lia)). destruct (decide (d mod 2 = 0)) as [E|]; [|lia].
      destruct Hdb as [k Hk]. exfalso. rewrite Hk, Zmult_mod, E, Z.mul_0_r in Hb. done. }
    rewrite Z.gcd_comm, <- Z.gcd_mod by lia. by rewrite Hd.
  - apply Z.gcd_greatest; [apply Z.divide_mul_r, Z.gcd_divide_l|apply Z.gcd_divide_r].
Qed.

Lemma odd_diff a b : a mod 2 <> 0 -> b mod 2 = 1 -> a - b = 2 * ((a - b) / 2).
Proof.
  intros Ha Hb. pose proof (Z.mod_pos_bound a 2 ltac:(lia)).
  rewrite <- Z_div_exact_full_2; [done|lia|]. rewrite Zminus_mod, Hb. by replace (a mod 2) with 1 by lia.
Qed.

Lemma div_step_inv i st : div_inv i st -> div_inv (S i) (div_step st).
Proof.
  destruct st as [[[a b] u] v]. intros [(Ha & Hb & Hb2 & Hu & Hv) Hs Hg Hxu Hxv]. unfold div_step.
  assert (0 < 2 ^ Z.of_nat i) as Hpow by (apply Z.pow_pos_nonneg; lia).
  case_decide as E; [|case_decide as Hlt].
  - assert (a = 2 * (a / 2)) as Ea by (apply Z_div_exact_full_2; lia).
    destruct (mp_half_spec u Hu) as [Hhu _]. pose proof (mp_half_cong u Hu) as Hhc.
    constructor; rewrite ?Nat2Z.inj_succ, ?Z.pow_succ_r by lia.
    + repeat split; lia.
    + nia.
    + rewrite <- Hg. rewrite Ea at 2. symmetry. by apply gcd_half.
    + apply half_cancel_p. transitivity (a * x); [rewrite Ea at 2; cong_ring|].
      rewrite Hxu. transitivity (2 * mp_half u p * y); [by rewrite Hhc|cong_ring].
    + done.
  - pose proof (odd_diff b a ltac:(lia) ltac:(pose proof (Z.mod_pos_bound a 2 ltac:(lia)); lia)) as Ed.
    destruct (mp_sub_spec v u Hv Hu) as [Hrs Hcs]. destruct (mp_half_spec _ Hrs) as [Hhu _].
    pose proof (mp_half_cong _ Hrs) as Hhc.
    constructor; rewrite ?Nat2Z.inj_succ, ?Z.pow_succ_r by lia.
    + assert (a <> 0) by (by intros ->). pose proof (Z.mod_pos_bound a 2 ltac:(lia)). repeat split; lia.
    + nia.
    + rewrite <- Hg, <- gcd_half, <- Ed by (pose proof (Z.mod_pos_bound a 2 ltac:(lia)); lia).
      by rewrite Z.gcd_comm, Z.gcd_sub_diag_r.
    + apply half_cancel_p. transitivity ((b - a) * x); [rewrite Ed at 2; cong_ring|].
      transitivity (2 * mp_half (mp_sub v u p) p * y); [|cong_ring]. rewrite Hhc, Hcs.
      transitivity (b * x - a * x); [cong_ring|]. rewrite Hxu, Hxv. cong_ring.
    + done.
  - pose proof (odd_diff a b ltac:(lia) Hb2) as Ed.
    destruct (mp_sub_spec u v Hu Hv) as [Hrs Hcs]. destruct (mp_half_spec _ Hrs) as [Hhu _].
    pose proof (mp_half_cong _ Hrs) as Hhc.
    constructor; rewrite ?Nat2Z.inj_succ, ?Z.pow_succ_r by lia.
    + repeat split; lia.
    + nia.
    + rewrite <- Hg, <- gcd_half, <- Ed by done. by rewrite Z.gcd_comm, Z.gcd_sub_diag_r, Z.gcd_comm.
    + apply half_cancel_p. transitivity ((a - b) * x); [rewrite Ed at 2; cong_ring|].
      transitivity (2 * mp_half (mp_sub u v p) p * y); [|cong_ring]. rewrite Hhc, Hcs.
      transitivity (a * x - b * x); [cong_ring|]. rewrite Hxu, Hxv. cong_ring.
    + done.
Qed.

(** The binary GCD divides when it can, and returns 0 when it cannot. *)
Lemma mp_div_spec :
  rep x -> rep y ->
  rep (mp_div x y p) /\
  (Z.gcd y p = 1 -> mp_div x y p * y ==[p] x) /\ (Z.gcd y p <> 1 -> mp_div x y p = 0).
Proof.
  intros Hx Hy. pose proof p_range as Hp. unfold mp_div.
  assert (div_inv 62 (for_ 62 (fun _ => mp_div_step p) (y, p, x, 0))) as Hinv.
  { apply (for_ind div_inv).
    - destruct p_odd as [h Hh]. constructor; [repeat split; try lia| | | |].
      + rewrite Hh, Z.add_comm, Z.mul_comm, Z.mod_add by lia. done.
      + change (2 ^ Z.of_nat 0) with 1. nia.
      + done.
      + cong_ring.
      + transitivity (0 + x * p); [cong_ring|]. rewrite cong_mul_modulus. cong_ring.
    - intros i [[[a b] u] v] _ H. pose proof (di_bounds _ _ H) as (Ha & Hb & _ & Hu & Hv).
      rewrite mp_div_step_spec by lia. by apply div_step_inv. }
  destruct (for_ 62 _ _) as [[[a b] u] v]. destruct Hinv as [(Ha & Hb & Hb2 & Hu & Hv) Hs Hg _ Hxv].
  change (2 ^ Z.of_nat 62) with (2 ^ 62) in Hs. assert (a = 0) as -> by nia.
  rewrite Z.gcd_0_l, Z.abs_eq in Hg by lia.
  destruct (decide (b = 1)) as [->|Hne].
  - change (tbmask (1 -% 2)) with (Z.ones 32). rewrite land_ones_small by lia.
    split; [done|]. split; [|lia]. intros _. rewrite <- Hxv. cong_ring.
  - rewrite u32_small, tbmask_spec by lia. rewrite decide_True, Z.land_0_r by lia. split; [lia|].
    split; [lia|done].
Qed.
End Division.

(** ** Powers of 2^31 *)

(** The Montgomery product of a value and the Montgomery form of another. *)
Lemma mp_mmul_mont a b z : rep a -> rep b -> b ==[p] z * 2 ^ 32 -> mp_mmul a b p p0i ==[p] a * z.
Proof.
  intros Ha Hb Hz. rewrite mp_mmul_cong, Hz by done.
  transitivity (a * z * (2 ^ 32 * mp_Rinv p p0i)); [cong_ring|]. rewrite Rinv_cong. cong_ring.
Qed.

Lemma mp_Rx31_loop_spec fuel e x d X :
  0 <= e < 2 ^ Z.of_nat fuel -> rep x -> rep d -> x ==[p] X * 2 ^ 32 ->
  rep (mp_Rx31_loop fuel e x d p p0i) /\ mp_Rx31_loop fuel e x d p p0i ==[p] d * X ^ e.
Proof.
  revert e x d X. induction fuel as [|fuel IH]; intros e x d X He Hx Hd HX.
  { change (2 ^ Z.of_nat 0) with 1 in He. replace e with 0 by lia. split; [done|]. cbn. cong_ring. }
  rewrite Nat2Z.inj_succ, Z.pow_succ_r in He by lia. cbn [mp_Rx31_loop]. rewrite land_1, shr_div by lia.
  change (2 ^ 1) with 2. pose proof (Z.div_mod e 2 ltac:(lia)) as Ed. pose proof (Z.mod_pos_bound e 2 ltac:(lia)) as Hm.
  set (d' := if negb (e mod 2 =? 0) then mp_mmul d x p p0i else d).
  assert (rep d' /\ d' ==[p] d * X ^ (e mod 2)) as [Hd' Hc].
  { unfold d'. destruct (Z.eqb_spec (e mod 2) 0) as [->|]; cbn [negb].
    - split; [done|]. cbn. cong_ring.
    - replace (e mod 2) with 1 by lia. split; [by apply mp_mmul_rep|]. rewrite Z.pow_1_r. by apply mp_mmul_mont. }
  destruct (Z.eqb_spec (e / 2) 0) as [E|Hne].
  - split; [done|]. rewrite Hc. by replace (e mod 2) with e by lia.
  - destruct (IH (e / 2) (mp_mmul x x p p0i) d' (X * X)) as [Hr Hl]; [lia|by apply mp_mmul_rep|done| |].
    { rewrite (mp_mmul_mont x x X), HX by done. cong_ring. }
    split; [done|]. rewrite Hl, Hc. apply cong_of_eq. replace (X ^ e) with (X ^ (2 * (e / 2) + e mod 2)) by (by rewrite <- Ed).
    rewrite Z.pow_add_r, Z.pow_mul_r, Z.pow_2_r by lia. ring.
Qed.

Lemma mp_Rx31_spec e r2 :
  0 <= e < 2 ^ 63 -> rep r2 -> r2 ==[p] 2 ^ 64 ->
  rep (mp_Rx31 e p p0i r2) /\ mp_Rx31 e p p0i r2 ==[p] 2 ^ (31 * e).
Proof.
  intros He Hr Hc. pose proof p_range. destruct (mp_half_spec r2 Hr) as [Hh _].
  destruct (mp_Rx31_loop_spec 64 e (mp_half r2 p) 1 (2 ^ 31)) as [H1 H2]; [lia|done|lia| |].
  - apply half_cancel_p. rewrite mp_half_cong, Hc by done. cong_ring.
  - split; [exact H1|]. rewrite Z.pow_mul_r by lia. unfold mp_Rx31. rewrite H2. cong_ring.
Qed.
End Prime.

Existing Class good_prime.

#[export] Instance mp_ring {p p0i} (H : good_prime p p0i) : MontRing (mp_ops p p0i).
Proof.
  pose proof (p_range H).
  refine {| mr_Q := p; mr_Rinv := mp_Rinv p p0i; mr_rep x := 0 <= x < p |}; cbn [op_add op_sub op_half op_mmul op_store mp_ops].
  - exact (p_odd H).
  - intros x y Hx Hy. by apply cong_small.
  - done.
  - intros x y Hx Hy. by apply (mp_add_spec H).
  - intros x y Hx Hy. by apply (mp_add_spec H).
  - intros x y Hx Hy. by apply (mp_sub_spec H).
  - intros x y Hx Hy. by apply (mp_sub_spec H).
  - intros x Hx. by apply (mp_half_spec H).
  - intros x Hx. by apply (mp_half_cong H).
  - intros x y Hx Hy. by apply (mp_mmul_rep H).
  - intros x y Hx Hy. by apply (mp_mmul_cong H).
Defined.

(** * The bit reversal *)

(** The reversal of [logn] bits, as the code reads it off the table. *)
Definition brev (logn i : nat) : nat := Z.to_nat (rev10.[i * 2 ^ (10 - logn)]).

Definition brev_ok (logn : nat) : bool :=
  let n := (2 ^ logn)%nat in
  let t := (fun i => brev logn i) <$> seq 0 n in
  forallb (fun '(i, r) =>
    (r <? n)%nat && (default 0%nat (t !! r) =? i)%nat &&
    (if (i =? 0)%nat then true else
      (if (i =? 1)%nat then (2 * r =? n)%nat
       else (2 * r =? default 0%nat (t !! (i / 2)%nat) + (if Nat.even i then 0 else n))%nat))) (zip (seq 0 n) t).

Lemma brev_checked : forallb brev_ok (seq 0 11) = true.
Proof. vm_compute. reflexivity. Qed.

Lemma brev_facts logn i :
  (logn <= 10)%nat -> (i < 2 ^ logn)%nat ->
  (brev logn i < 2 ^ logn)%nat /\ brev logn (brev logn i) = i /\
  (i = 1%nat -> (2 * brev logn i = 2 ^ logn)%nat) /\
  ((2 <= i)%nat -> (2 * brev logn i = brev logn (i / 2) + (if Nat.even i then 0 else 2 ^ logn))%nat).
Proof.
  intros Hl Hi. pose proof brev_checked as Hc. rewrite forallb_forall in Hc.
  specialize (Hc logn ltac:(apply in_seq; lia)). unfold brev_ok in Hc. rewrite forallb_forall in Hc.
  assert (forall j, (j < 2 ^ logn)%nat -> ((fun i => brev logn i) <$> seq 0 (2 ^ logn)) !! j = Some (brev logn j)) as Ht.
  { intros j Hj. rewrite list_lookup_fmap, lookup_seq_lt by done. done. }
  specialize (Hc (i, brev logn i)). cbv beta iota in Hc.
  assert (In (i, brev logn i) (zip (seq 0 (2 ^ logn)) ((fun i => brev logn i) <$> seq 0 (2 ^ logn)))) as Hin.
  { apply list_elem_of_In, list_elem_of_lookup. exists i. apply lookup_zip_Some. by rewrite lookup_seq_lt, Ht. }
  specialize (Hc Hin). apply andb_prop in Hc as [Hc H3]. apply andb_prop in Hc as [H1%Nat.ltb_lt H2%Nat.eqb_eq].
  rewrite Ht in H2 by done. cbn in H2. split; [done|]. split; [done|]. split.
  - intros ->. by apply Nat.eqb_eq in H3.
  - intros H. destruct (Nat.eqb_spec i 0); [lia|]. destruct (Nat.eqb_spec i 1); [lia|].
    apply Nat.eqb_eq in H3. rewrite Ht in H3 by (apply (Nat.Div0.div_lt_upper_bound); lia). exact H3.
Qed.

Lemma brev_lt logn i : (logn <= 10)%nat -> (i < 2 ^ logn)%nat -> (brev logn i < 2 ^ logn)%nat.
Proof. intros. by apply brev_facts. Qed.
Lemma brev_brev logn i : (logn <= 10)%nat -> (i < 2 ^ logn)%nat -> brev logn (brev logn i) = i.
Proof. intros. by apply brev_facts. Qed.

(** * The tables of roots *)

(** [g] and [ig] are the Montgomery forms of a root of X^1024 = -1 and of its
    inverse. *)
Record good_root (p p0i g ig G IG : Z) : Prop := GoodRoot {
  gr_g : 0 <= g < p /\ g ==[p] G * 2 ^ 32;
  gr_ig : 0 <= ig < p /\ ig ==[p] IG * 2 ^ 32;
  gr_root : G ^ 1024 ==[p] -1;
  gr_inv : G * IG ==[p] 1
}.

Section Roots.
Context {p p0i : Z} `{Hgood : good_prime p p0i}.
Local Abbreviation rep x := (0 <= x < p) (only parsing).

Lemma mp_mmul_mont2 a b A B :
  rep a -> rep b -> a ==[p] A * 2 ^ 32 -> b ==[p] B * 2 ^ 32 -> mp_mmul a b p p0i ==[p] A * B * 2 ^ 32.
Proof. intros Ha Hb HA HB. rewrite (mp_mmul_mont Hgood a b B), HA by done. cong_ring. Qed.

Lemma mp_squarings_spec logn g G :
  rep g -> g ==[p] G * 2 ^ 32 ->
  rep (mp_squarings logn g p p0i) /\ mp_squarings logn g p p0i ==[p] G ^ (2 ^ Z.of_nat (10 - logn)) * 2 ^ 32.
Proof.
  intros Hg HG. unfold mp_squarings.
  apply (for_ind (fun i g => rep g /\ g ==[p] G ^ (2 ^ Z.of_nat i) * 2 ^ 32)).
  { split; [done|]. rewrite HG. change (2 ^ Z.of_nat 0) with 1. by rewrite Z.pow_1_r. }
  intros i x _ [Hx Hc]. split; [by apply (mp_mmul_rep Hgood)|]. rewrite (mp_mmul_mont2 x x _ _ Hx Hx Hc Hc).
  apply cong_of_eq. f_equal. rewrite <- Z.pow_add_r by lia. f_equal. rewrite Nat2Z.inj_succ, Z.pow_succ_r by lia. lia.
Qed.

Lemma mp_fill_spec logn gm x1 g G :
  (logn <= 10)%nat -> (2 ^ logn <= length gm)%nat -> rep x1 -> rep g -> g ==[p] G * 2 ^ 32 ->
  length (mp_fill logn gm x1 g p p0i) = length gm /\
  forall j, (j < 2 ^ logn)%nat -> rep (mp_fill logn gm x1 g p p0i).[j] /\
    (mp_fill logn gm x1 g p p0i).[j] ==[p] x1 * G ^ Z.of_nat (brev logn j).
Proof.
  intros Hl Hlen Hx1 Hg HG. unfold mp_fill.
  enough (forall st, st = for_ (2 ^ logn) (fun i '(gm, x1) =>
      let j := Z.to_nat (rev10.[i * 2 ^ (10 - logn)]) in (gm.[j <- x1], mp_mmul x1 g p p0i)) (gm, x1) ->
    length (fst st) = length gm /\
    (forall i, (i < 2 ^ logn)%nat -> rep (fst st).[brev logn i] /\ (fst st).[brev logn i] ==[p] x1 * G ^ Z.of_nat i)) as He.
  { destruct (He _ eq_refl) as [HL HF]. split; [exact HL|]. intros j Hj.
    specialize (HF (brev logn j) (brev_lt logn j Hl Hj)). by rewrite brev_brev in HF. }
  intros st ->.
  set (P := fun (c : nat) (st : list Z * Z) =>
    length (fst st) = length gm /\ (rep (snd st) /\ snd st ==[p] x1 * G ^ Z.of_nat c) /\
    forall i, (i < c)%nat -> rep (fst st).[brev logn i] /\ (fst st).[brev logn i] ==[p] x1 * G ^ Z.of_nat i).
  enough (P (2 ^ logn)%nat (for_ (2 ^ logn) (fun i '(gm, x1) =>
      let j := Z.to_nat (rev10.[i * 2 ^ (10 - logn)]) in (gm.[j <- x1], mp_mmul x1 g p p0i)) (gm, x1))) as (H1 & _ & H2) by done.
  apply (for_ind P).
  { split; [reflexivity|]. split; [|lia]. split; [exact Hx1|]. change (Z.of_nat 0) with 0. rewrite Z.pow_0_r.
    apply cong_of_eq. cbn [snd]. lia. }
  intros c [b x] Hc (IL & [Hx Hxc] & IH). cbn [fst snd] in *. fold (brev logn c).
  split; [cbn [fst]; by rewrite length_set|]. cbn [fst snd]. split.
  - split; [by apply (mp_mmul_rep Hgood)|]. rewrite (mp_mmul_mont Hgood x g G), Hxc by done.
    rewrite Nat2Z.inj_succ, Z.pow_succ_r by lia. cong_ring.
  - intros i Hi. rewrite get_set by (rewrite IL; pose proof (brev_lt logn c Hl Hc); lia). case_decide as E.
    + assert (i = c) as -> by (rewrite <- (brev_brev logn i), <- (brev_brev logn c), E by lia; done). done.
    + apply IH. enough (i <> c) by lia. by intros ->.
Qed.

Lemma mp_mkgm_spec logn gm g G :
  (logn <= 10)%nat -> (2 ^ logn <= length gm)%nat -> rep g -> g ==[p] G * 2 ^ 32 ->
  length (mp_mkgm logn gm g p p0i) = length gm /\
  forall j, (j < 2 ^ logn)%nat -> rep (mp_mkgm logn gm g p p0i).[j] /\
    (mp_mkgm logn gm g p p0i).[j] ==[p] (G ^ (2 ^ Z.of_nat (10 - logn))) ^ Z.of_nat (brev logn j) * 2 ^ 32.
Proof.
  intros Hl Hlen Hg HG. unfold mp_mkgm. destruct (mp_R_spec Hgood) as [HR HRc].
  destruct (mp_squarings_spec logn g G Hg HG) as [Hs Hsc].
  destruct (mp_fill_spec logn gm (mp_R p) _ _ Hl Hlen HR Hs Hsc) as [H1 H2]. split; [done|].
  intros j Hj. destruct (H2 j Hj) as [H3 H4]. split; [done|]. rewrite H4, HRc. cong_ring.
Qed.

Lemma mp_mkigm_spec logn igm ig IG :
  (logn <= 10)%nat -> (2 ^ logn <= length igm)%nat -> rep ig -> ig ==[p] IG * 2 ^ 32 ->
  length (mp_mkigm logn igm ig p p0i) = length igm /\
  forall j, (j < 2 ^ logn)%nat -> rep (mp_mkigm logn igm ig p p0i).[j] /\
    2 * (mp_mkigm logn igm ig p p0i).[j] ==[p] (IG ^ (2 ^ Z.of_nat (10 - logn))) ^ Z.of_nat (brev logn j) * 2 ^ 32.
Proof.
  intros Hl Hlen Hg HG. unfold mp_mkigm. destruct (mp_hR_spec Hgood) as [HR HRc].
  destruct (mp_squarings_spec logn ig IG Hg HG) as [Hs Hsc].
  destruct (mp_fill_spec logn igm (mp_hR p) _ _ Hl Hlen HR Hs Hsc) as [H1 H2]. split; [done|].
  intros j Hj. destruct (H2 j Hj) as [H3 H4]. split; [done|]. rewrite H4, HRc.
  transitivity (2 ^ 32 * (IG ^ (2 ^ Z.of_nat (10 - logn))) ^ Z.of_nat (brev logn j)); [|cong_ring]. cong_ring.
Qed.

Lemma root_pow logn G : (logn <= 10)%nat -> G ^ 1024 ==[p] -1 -> (G ^ (2 ^ Z.of_nat (10 - logn))) ^ Z.of_nat (2 ^ logn) ==[p] -1.
Proof.
  intros Hl HG. rewrite <- HG. apply cong_of_eq. rewrite <- Z.pow_mul_r by lia. f_equal.
  rewrite Nat2Z.inj_pow, <- Z.pow_add_r by lia. change (Z.of_nat 2) with 2.
  replace (Z.of_nat (10 - logn) + Z.of_nat logn) with 10 by lia. done.
Qed.

Lemma inv_pow A B e : 0 <= e -> A * B ==[p] 1 -> A ^ e * B ^ e ==[p] 1.
Proof. intros He Hab. rewrite <- Z.pow_mul_l, Hab, Z.pow_1_l by done. done. Qed.

Context {g ig G IG : Z} (Hroot : good_root p p0i g ig G IG).

(** The two tables are what the transform needs. *)
#[export] Instance mp_roots logn gm igm (Hl : (logn <= 10)%nat) (Lg : (2 ^ logn <= length gm)%nat) (Li : (2 ^ logn <= length igm)%nat) :
  NttRoots (H := mp_ring Hgood) (mp_ops p p0i) (mp_mkgm logn gm g p p0i) (mp_mkigm logn igm ig p p0i) (2 ^ logn).
Proof.
  destruct Hroot as [[Hg HG] [Hig HIG] HR HI].
  pose proof (root_pow logn G Hl HR) as HW.
  pose proof (inv_pow G IG (2 ^ Z.of_nat (10 - logn)) ltac:(lia) HI) as HWI.
  destruct (mp_mkgm_spec logn gm g G Hl Lg Hg HG) as [_ Hgm]. destruct (mp_mkigm_spec logn igm ig IG Hl Li Hig HIG) as [_ Higm].
  set (W := G ^ (2 ^ Z.of_nat (10 - logn))) in *. set (WI := IG ^ (2 ^ Z.of_nat (10 - logn))) in *.
  clearbody W WI.
  pose proof (Rinv_cong Hgood) as HRi.
  assert (forall k, (k < 2 ^ logn)%nat -> omega (mp_ops p p0i) (mp_mkgm logn gm g p p0i) k ==[p] W ^ Z.of_nat (brev logn k)) as Hom.
  { intros k Hk. unfold omega. cbn [mr_Rinv mp_ring]. rewrite (proj2 (Hgm k Hk)).
    transitivity (W ^ Z.of_nat (brev logn k) * (2 ^ 32 * mp_Rinv p p0i)); [cong_ring|]. rewrite HRi. cong_ring. }
  split; cbn [mr_rep mr_Q mr_Rinv mp_ring].
  - intros k Hk. apply Hgm. lia.
  - intros k Hk. apply Higm. lia.
  - intros k Hk. destruct (brev_facts logn k Hl) as (_ & _ & H1 & H2); [lia|].
    rewrite Hom, <- pow_nat_add by lia. replace (brev logn k + brev logn k)%nat with (2 * brev logn k)%nat by lia.
    unfold rho. destruct (Nat.leb_spec k 1).
    + rewrite H1 by lia. exact HW.
    + rewrite H2, pow_nat_add, <- Hom by (lia || apply Nat.Div0.div_lt_upper_bound; lia).
      destruct (Nat.even k); [change (Z.of_nat 0) with 0; rewrite Z.pow_0_r; cong_ring|]. rewrite HW. cong_ring.
  - intros k Hk. pose proof (inv_pow W WI (Z.of_nat (brev logn k)) ltac:(lia) HWI) as HB.
    transitivity ((mp_mkgm logn gm g p p0i).[k] * (2 * (mp_mkigm logn igm ig p p0i).[k]) * (mp_Rinv p p0i * mp_Rinv p p0i)); [cong_ring|].
    rewrite (proj2 (Hgm k ltac:(lia))), (proj2 (Higm k ltac:(lia))).
    transitivity (W ^ Z.of_nat (brev logn k) * WI ^ Z.of_nat (brev logn k) * (2 ^ 32 * mp_Rinv p p0i) * (2 ^ 32 * mp_Rinv p p0i)); [cong_ring|].
    rewrite HB, HRi. cong_ring.
Qed.
End Roots.

(** Filling the two tables at once. *)
Lemma mp_mkgmigm_eq logn gm igm g ig p p0i :
  mp_mkgmigm logn gm igm g ig p p0i = (mp_mkgm logn gm g p p0i, mp_mkigm logn igm ig p p0i).
Proof.
  unfold mp_mkgmigm, mp_mkgm, mp_mkigm, mp_squarings.
  assert (forall k, for_ k (fun _ '(g, ig) => (mp_mmul g g p p0i, mp_mmul ig ig p p0i)) (g, ig) =
    (for_ k (fun _ g => mp_mmul g g p p0i) g, for_ k (fun _ g => mp_mmul g g p p0i) ig)) as ->.
  { induction k as [|k IH]; [done|]. by rewrite !for_S, IH. }
  generalize (for_ (10 - logn) (fun _ g => mp_mmul g g p p0i) g) as x.
  generalize (for_ (10 - logn) (fun _ g => mp_mmul g g p p0i) ig) as y. intros y x. unfold mp_fill.
  set (f := fun (g : Z) (i : nat) '((gm, x1) : list Z * Z) =>
    let j := Z.to_nat (rev10.[i * 2 ^ (10 - logn)]) in (gm.[j <- x1], mp_mmul x1 g p p0i)).
  enough (forall k, for_ k (fun i '(gm, igm, x1, x2) =>
    let j := Z.to_nat (rev10.[i * 2 ^ (10 - logn)]) in
    (gm.[j <- x1], igm.[j <- x2], mp_mmul x1 x p p0i, mp_mmul x2 y p p0i)) (gm, igm, mp_R p, mp_hR p) =
    (fst (for_ k (f x) (gm, mp_R p)), fst (for_ k (f y) (igm, mp_hR p)),
     snd (for_ k (f x) (gm, mp_R p)), snd (for_ k (f y) (igm, mp_hR p)))) as -> by done.
  induction k as [|k IH]; [done|]. rewrite !for_S, IH.
  destruct (for_ k (f x) _) as [b1 z1], (for_ k (f y) _) as [b2 z2]. done.
Qed.

(** * The table of primes *)

(** [x^(2^k)] modulo [m]. *)
Fixpoint sq_mod (k : nat) (m x : Z) : Z :=
  match k with O => x | S k' => sq_mod k' m ((x * x) mod m) end.

Lemma sq_mod_cong k m x : sq_mod k m x ==[m] x ^ (2 ^ Z.of_nat k).
Proof.
  revert x. induction k as [|k IH]; intros x; cbn [sq_mod].
  { change (2 ^ Z.of_nat 0) with 1. by rewrite Z.pow_1_r. }
  rewrite IH, mod_cong. apply cong_of_eq. rewrite Nat2Z.inj_succ, Z.pow_succ_r, Z.pow_mul_r by lia. by rewrite Z.pow_2_r.
Qed.

Definition prime_good (e : small_prime) : bool :=
  let p := sp_p e in
  let G := sp_g e * mp_Rinv p (sp_p0i e) in
  let IG := sp_ig e * mp_Rinv p (sp_p0i e) in
  (2 ^ 31 <? 2 * p) && (2 * p <? 2 ^ 32) && (2 ^ 32 <? 3 * p) && (0 <=? sp_p0i e) && (sp_p0i e <? 2 ^ 32) &&
  ((p * sp_p0i e + 1) mod 2 ^ 32 =? 0) &&
  (0 <=? sp_r2 e) && (sp_r2 e <? p) && (sp_r2 e =? 2 ^ 64 mod p) &&
  (0 <=? sp_g e) && (sp_g e <? p) && (0 <=? sp_ig e) && (sp_ig e <? p) &&
  (sq_mod 10 p (G mod p) =? (-1) mod p) && ((G * IG) mod p =? 1) && (0 <=? sp_s e) && (sp_s e <? p).

Lemma primes_checked : forallb prime_good primes = true.
Proof. vm_compute. reflexivity. Qed.

Fixpoint crt_good (P : Z) (l : list small_prime) : bool :=
  match l with
  | [] => true
  | e :: l => ((sp_s e * P) mod sp_p e =? 2 ^ 32 mod sp_p e) && crt_good (P * sp_p e) l
  end.
Lemma crt_checked : crt_good 1 primes = true.
Proof. vm_compute. reflexivity. Qed.

(** What the table promises of each entry. *)
Record prime_entry (e : small_prime) : Prop := PrimeEntry {
  pe_good : good_prime (sp_p e) (sp_p0i e);
  pe_r2 : 0 <= sp_r2 e < sp_p e /\ sp_r2 e ==[sp_p e] 2 ^ 64;
  pe_root : good_root (sp_p e) (sp_p0i e) (sp_g e) (sp_ig e)
              (sp_g e * mp_Rinv (sp_p e) (sp_p0i e)) (sp_ig e * mp_Rinv (sp_p e) (sp_p0i e));
  pe_s : 0 <= sp_s e < sp_p e
}.

Lemma prime_good_entry e : prime_good e = true -> prime_entry e.
Proof.
  unfold prime_good. cbv zeta. rewrite !andb_true_iff, !Z.ltb_lt, !Z.leb_le, !Z.eqb_eq. intros H.
  repeat match goal with H : _ /\ _ |- _ => destruct H end.
  assert (good_prime (sp_p e) (sp_p0i e)) as Hg by (constructor; [lia..|done]).
  pose proof (Rinv_cong Hg) as HR.
  constructor; [done| | |lia].
  - split; [lia|]. split. rewrite Z.mod_small by lia. done.
  - constructor.
    + split; [lia|]. transitivity (sp_g e * (2 ^ 32 * mp_Rinv (sp_p e) (sp_p0i e))); [rewrite HR; cong_ring|cong_ring].
    + split; [lia|]. transitivity (sp_ig e * (2 ^ 32 * mp_Rinv (sp_p e) (sp_p0i e))); [rewrite HR; cong_ring|cong_ring].
    + rewrite <- (mod_cong _ (sp_g e * _)). change 1024 with (2 ^ Z.of_nat 10). rewrite <- sq_mod_cong. split.
      match goal with H : sq_mod _ _ _ = _ |- _ => rewrite H end. by rewrite Zmod_mod.
    + split. match goal with H : _ = 1 |- _ => rewrite H end. rewrite Z.mod_small by lia. done.
Qed.

Lemma primes_entry i : (i < length primes)%nat -> prime_entry primes.[i].
Proof.
  intros Hi. apply prime_good_entry, (get_Forall (fun e => prime_good e = true)); [|done].
  apply Forall_forall. intros e He. pose proof primes_checked as H. rewrite forallb_forall in H. by apply H, list_elem_of_In.
Qed.

(** The product of the first [i] primes of a list. *)
Definition prod_primes (l : list small_prime) : Z := foldr (fun e P => sp_p e * P) 1 l.

Lemma crt_good_spec P l i :
  crt_good P l = true -> (i < length l)%nat ->
  sp_s l.[i] * (P * prod_primes (take i l)) ==[sp_p l.[i]] 2 ^ 32.
Proof.
  revert P i. induction l as [|e l IH]; intros P i H Hi; [cbn in Hi; lia|].
  cbn [crt_good] in H. apply andb_prop in H as [H1%Z.eqb_eq H2]. destruct i as [|i].
  - cbn [take prod_primes foldr]. change ((e :: l).[0]) with e. rewrite Z.mul_1_r. by split.
  - change ((e :: l).[S i]) with l.[i]. cbn [take]. cbn [length] in Hi.
    rewrite <- (IH _ i H2) by lia. apply cong_of_eq. unfold prod_primes. cbn [foldr]. ring.
Qed.

(** Entry [i] holds the Montgomery form of the inverse of the product before it. *)
Lemma primes_crt i :
  (i < length primes)%nat -> sp_s primes.[i] * prod_primes (take i primes) ==[sp_p primes.[i]] 2 ^ 32.
Proof. intros Hi. rewrite <- (crt_good_spec 1 primes i crt_checked Hi). cong_ring. Qed.

(** * Polynomials modulo an entry of the table *)

Lemma mp_NTT_loop logn a t p p0i : mp_NTT logn a t p p0i = ntt_loop (mp_ops p p0i) t logn a.
Proof. unfold mp_NTT. by destruct logn. Qed.
Lemma mp_iNTT_loop logn a t p p0i : mp_iNTT logn a t p p0i = intt_loop (mp_ops p p0i) t logn a.
Proof. unfold mp_iNTT. by destruct logn. Qed.

Section Entry.
Context (e : small_prime) (He : prime_entry e).
Local Abbreviation p := (sp_p e).
Local Abbreviation p0i := (sp_p0i e).
Local Abbreviation rep x := (0 <= x < p) (only parsing).
Context (logn : nat) (Hl : (logn <= 10)%nat) (gm0 igm0 : list Z)
  (Lg : (2 ^ logn <= length gm0)%nat) (Li : (2 ^ logn <= length igm0)%nat).
Local Abbreviation gm := (mp_mkgm logn gm0 (sp_g e) p p0i).
Local Abbreviation igm := (mp_mkigm logn igm0 (sp_ig e) p p0i).

Lemma mp_NTT_ok a :
  length a = (2 ^ logn)%nat -> Forall (fun x => rep x) a ->
  length (mp_NTT logn a gm p p0i) = (2 ^ logn)%nat /\ Forall (fun x => rep x) (mp_NTT logn a gm p p0i).
Proof.
  intros La Ha. rewrite mp_NTT_loop.
  pose proof (mp_roots (Hgood := pe_good _ He) (pe_root _ He) logn gm0 igm0 Hl Lg Li) as NR.
  destruct (ntt_loop_ok (mp_ops p p0i) (MR := mp_ring (pe_good _ He)) gm igm (2 ^ logn) logn a) as [H1 H2]; [lia|done|done|].
  split; [lia|done].
Qed.

Lemma mp_iNTT_NTT a :
  length a = (2 ^ logn)%nat -> Forall (fun x => rep x) a ->
  mp_iNTT logn (mp_NTT logn a gm p p0i) igm p p0i = a.
Proof.
  intros La Ha. rewrite mp_NTT_loop, mp_iNTT_loop.
  pose proof (mp_roots (Hgood := pe_good _ He) (pe_root _ He) logn gm0 igm0 Hl Lg Li) as NR.
  by apply (intt_ntt_loop (mp_ops p p0i) (MR := mp_ring (pe_good _ He)) gm igm (2 ^ logn)).
Qed.

(** The code's product of two values that are not in Montgomery form. *)
Definition mp_mul2 (x y : Z) : Z := mp_mmul (mp_mmul x y p p0i) (sp_r2 e) p p0i.

Lemma mp_mul2_spec x y : rep x -> rep y -> rep (mp_mul2 x y) /\ mp_mul2 x y ==[p] x * y.
Proof.
  intros Hx Hy. destruct (pe_r2 _ He) as [Hr Hrc]. pose proof (pe_good _ He) as Hg. unfold mp_mul2.
  pose proof (mp_mmul_rep Hg x y Hx Hy) as Hm. split; [by apply (mp_mmul_rep Hg)|].
  rewrite (mp_mmul_mont Hg _ _ (2 ^ 32)), (mp_mmul_cong Hg) by (try done; rewrite Hrc; cong_ring).
  transitivity (x * y * (2 ^ 32 * mp_Rinv p p0i)); [cong_ring|]. rewrite (Rinv_cong Hg). cong_ring.
Qed.

(** The coefficients of the product modulo X^n + 1. *)
Definition mp_nega_mul (a b : list Z) : list Z :=
  (fun k => nega_coeff (2 ^ logn) (get a) (get b) k mod p) <$> seq 0 (2 ^ logn).

Lemma mp_nega_mul_ok a b :
  length (mp_nega_mul a b) = (2 ^ logn)%nat /\ Forall (fun x => rep x) (mp_nega_mul a b).
Proof.
  unfold mp_nega_mul. split; [by rewrite length_fmap, length_seq|].
  apply Forall_fmap, Forall_forall. intros k _. apply Z.mod_pos_bound. pose proof (p_range (pe_good _ He)). lia.
Qed.

Lemma mp_NTT_product a b d :
  length a = (2 ^ logn)%nat -> length b = (2 ^ logn)%nat -> length d = (2 ^ logn)%nat ->
  Forall (fun x => rep x) a -> Forall (fun x => rep x) b -> Forall (fun x => rep x) d ->
  (forall i, (i < 2 ^ logn)%nat -> d.[i] ==[p] (mp_NTT logn a gm p p0i).[i] * (mp_NTT logn b gm p p0i).[i]) ->
  d = mp_NTT logn (mp_nega_mul a b) gm p p0i.
Proof.
  intros La Lb Ld Ha Hb Hd Hprod. destruct (mp_nega_mul_ok a b) as [Lc Hc]. rewrite mp_NTT_loop. symmetry.
  pose proof (mp_roots (Hgood := pe_good _ He) (pe_root _ He) logn gm0 igm0 Hl Lg Li) as NR.
  apply (ntt_loop_product (mp_ops p p0i) (MR := mp_ring (pe_good _ He)) gm igm (2 ^ logn) logn ltac:(lia) a b); try done.
  - intros k Hk. unfold mp_nega_mul.
    assert (((fun k => nega_coeff (2 ^ logn) (get a) (get b) k mod p) <$> seq 0 (2 ^ logn)).[k] =
      nega_coeff (2 ^ logn) (get a) (get b) k mod p) as ->.
    { apply get_lookup. by rewrite list_lookup_fmap, lookup_seq_lt. }
    apply mod_cong.
  - intros i Hi. rewrite Hprod by done. by rewrite !mp_NTT_loop.
Qed.
End Entry.
