(* ===== verification/Zint31.v ===== *)
(** Big integers of key generation ([kgen_zint31.go]).

    A number is a sequence of 31-bit limbs, low first, each in a 32-bit word; the
    limbs of one number may lie [stride] words apart.  A slice [x[o:]] handed to a
    function that writes to it is [at_ o f x].  Lengths and indices are [nat]. *)
From Stdlib Require Import ZArith Lia.
From stdpp Require Import base numbers list.
From S2P Require Import Prelude Mq Ntt Mp31Tables Mp31.
Local Open Scope Z_scope.

(** [uint64] arithmetic. *)
Local Notation "x +! y" := (u64 (x + y)) (at level 50, left associativity).
Local Notation "x -! y" := (u64 (x - y)) (at level 50, left associativity).
Local Notation "x *! y" := (u64 (x * y)) (at level 40, left associativity).
Local Notation "-! x" := (u64 (- x)) (at level 35, right associativity).

Definition at_ (o : nat) (f : list Z -> list Z) (x : list Z) : list Z := take o x ++ f (drop o x).

Definition zint_mul_small (m : list Z) (mlen : nat) (x : Z) : list Z * Z :=
  for_ mlen (fun i '(m, cc) =>
    let z := m.[i] *! x +! cc in
    (m.[i <- u32 z .& 0x7FFFFFFF], u32 (z .>> 31))) (m, 0).

Definition zint_mod_small_unsigned (d : list Z) (dlen stride : nat) (p p0i r2 : Z) : Z :=
  if (dlen =? 0)%nat then 0
  else
    let z := mp_half r2 p in
    for_ dlen (fun k x =>
      let i := ((dlen - 1 - k) * stride)%nat in
      let w := d.[i] -% p in
      let w := w +% (p .& tbmask w) in
      let x := mp_mmul x z p p0i in
      mp_add x w p) 0.

Definition zint_mod_small_signed (d : list Z) (dlen stride : nat) (p p0i r2 rx : Z) : Z :=
  if (dlen =? 0)%nat then 0
  else
    let z := zint_mod_small_unsigned d dlen stride p p0i r2 in
    mp_sub z (rx .& (-% (d.[(dlen - 1) * stride] .>> 30))) p.

Definition zint_add_mul_small (d : list Z) (dlen dstride : nat) (a : list Z) (s : Z) : list Z :=
  let '(d, cc, j) := for_ dlen (fun i '(d, cc, j) =>
    let dw := d.[j] in
    let aw := a.[i] in
    let z := aw *! s +! dw +! cc in
    (d.[j <- u32 z .& 0x7FFFFFFF], u32 (z .>> 31), (j + dstride)%nat)) (d, 0, 0%nat) in
  d.[j <- cc].

(** The comparison with half the modulus, from the top word down. *)
Definition zint_norm_cmp (x : list Z) (xlen xstride : nat) (m : list Z) : Z :=
  let '(r, _) := for_ xlen (fun k '(r, bb) =>
    let i := (xlen - 1 - k)%nat in
    let wx := x.[i * xstride] in
    let wp := (m.[i] .>> 1) .| u32 (bb .<< 30) in
    let bb := m.[i] .& 1 in
    let cc := wp -% wx in
    let cc := ((-% cc) .>> 31) .| (-% (cc .>> 31)) in
    (r .| (cc .& ((r .& 1) -% 1)), bb)) (0, 0) in
  r.

Definition zint_norm_zero (x : list Z) (xlen xstride : nat) (m : list Z) : list Z :=
  if (xlen =? 0)%nat then x
  else
    let s := tbmask (zint_norm_cmp x xlen xstride m) in
    let '(x, _, _) := for_ xlen (fun i '(x, cc, j) =>
      let xw := x.[j] in
      let w := xw -% m.[i] -% cc in
      let cc := w .>> 31 in
      let xw := xw .^ (((w .& 0x7FFFFFFF) .^ xw) .& s) in
      (x.[j <- xw], cc, (j + xstride)%nat)) (x, 0, 0%nat) in
    x.

(** One step of the reconstruction, of the integer that starts at [o]. *)
Definition zint_CRT_step (i n : nat) (tmp : list Z) (o : nat) (xx : list Z) : list Z :=
  let e := primes.[i] in
  let xp := xx.[o + i * n] in
  let xq := zint_mod_small_unsigned (drop o xx) i n (sp_p e) (sp_p0i e) (sp_r2 e) in
  let xr := mp_mmul (sp_s e) (mp_sub xp xq (sp_p e)) (sp_p e) (sp_p0i e) in
  at_ o (fun d => zint_add_mul_small d i n tmp xr) xx.

(** A step for each integer of each set. *)
Definition for_sets (num_sets n xlen : nat) (step : nat -> list Z -> list Z) (xx : list Z) : list Z :=
  for_ num_sets (fun k xx => for_ n (fun j xx => step (k * (n * xlen) + j)%nat xx) xx) xx.

Definition zint_rebuild_CRT (xx : list Z) (xlen n num_sets : nat) (normalize_signed : bool) (tmp : list Z)
    : list Z * list Z :=
  let tmp := tmp.[0 <- sp_p primes.[0]] in
  let '(xx, tmp) := for_ (xlen - 1) (fun i' '(xx, tmp) =>
    let i := S i' in
    let xx := for_sets num_sets n xlen (zint_CRT_step i n tmp) xx in
    let '(tmp, cc) := zint_mul_small tmp i (sp_p primes.[i]) in
    (xx, tmp.[i <- cc])) (xx, tmp) in
  if normalize_signed
  then (for_sets num_sets n xlen (fun o => at_ o (fun d => zint_norm_zero d xlen n tmp)) xx, tmp)
  else (xx, tmp).

Definition zint_negate (a : list Z) (alen : nat) (ctl : Z) : list Z :=
  let cc := -% ctl in
  let m := ctl .>> 1 in
  fst (for_ alen (fun i '(a, cc) =>
    let aw := a.[i] in
    let aw := (aw .^ m) +% cc in
    (a.[i <- aw .& 0x7FFFFFFF], aw .>> 31)) (a, cc)).

Definition zint_co_reduce (a b : list Z) (vlen : nat) (xa xb ya yb : Z) : list Z * list Z * Z :=
  let '(a, b, cca, ccb) := for_ vlen (fun i '(a, b, cca, ccb) =>
    let wa := a.[i] in
    let wb := b.[i] in
    let za := wa *! u64 xa +! wb *! u64 xb +! u64 cca in
    let zb := wa *! u64 ya +! wb *! u64 yb +! u64 ccb in
    let a := if (0 <? i)%nat then a.[i - 1 <- u32 za .& 0x7FFFFFFF] else a in
    let b := if (0 <? i)%nat then b.[i - 1 <- u32 zb .& 0x7FFFFFFF] else b in
    (a, b, i64 za .>> 31, i64 zb .>> 31)) (a, b, 0, 0) in
  let a := a.[vlen - 1 <- u32 cca .& 0x7FFFFFFF] in
  let b := b.[vlen - 1 <- u32 ccb .& 0x7FFFFFFF] in
  let nega := u32 (cca .>> 63) in
  let negb := u32 (ccb .>> 63) in
  (zint_negate a vlen nega, zint_negate b vlen negb, (-% nega) .| u32 ((-% negb) .<< 1)).

Definition zint_finish_mod (a m : list Z) (vlen : nat) (neg : Z) : list Z :=
  let cc := for_ vlen (fun i cc => (a.[i] -% m.[i] -% cc) .>> 31) 0 in
  let xm := (-% neg) .>> 1 in
  let ym := -% (neg .| (1 -% cc)) in
  fst (for_ vlen (fun i '(a, cc) =>
    let mw := (m.[i] .^ xm) .& ym in
    let aw := a.[i] -% mw -% cc in
    (a.[i <- aw .& 0x7FFFFFFF], aw .>> 31)) (a, neg)).

Definition zint_co_reduce_mod (a b m : list Z) (vlen : nat) (m0i xa xb ya yb : Z) : list Z * list Z :=
  let fa := ((a.[0] *% u32 xa +% b.[0] *% u32 xb) *% m0i) .& 0x7FFFFFFF in
  let fb := ((a.[0] *% u32 ya +% b.[0] *% u32 yb) *% m0i) .& 0x7FFFFFFF in
  let '(a, b, cca, ccb) := for_ vlen (fun i '(a, b, cca, ccb) =>
    let wa := a.[i] in
    let wb := b.[i] in
    let wm := m.[i] in
    let za := wa *! u64 xa +! wb *! u64 xb +! wm *! fa +! u64 cca in
    let zb := wa *! u64 ya +! wb *! u64 yb +! wm *! fb +! u64 ccb in
    let a := if (0 <? i)%nat then a.[i - 1 <- u32 za .& 0x7FFFFFFF] else a in
    let b := if (0 <? i)%nat then b.[i - 1 <- u32 zb .& 0x7FFFFFFF] else b in
    (a, b, i64 za .>> 31, i64 zb .>> 31)) (a, b, 0, 0) in
  let a := a.[vlen - 1 <- u32 cca] in
  let b := b.[vlen - 1 <- u32 ccb] in
  (zint_finish_mod a m vlen (u32 (u64 cca .>> 63)), zint_finish_mod b m vlen (u32 (u64 ccb .>> 63))).

Definition mp_ninv31 (x : Z) : Z :=
  let y := 2 -% x in
  let y := y *% (2 -% x *% y) in
  let y := y *% (2 -% x *% y) in
  let y := y *% (2 -% x *% y) in
  let y := y *% (2 -% x *% y) in
  (-% y) .& 0x7FFFFFFF.

(** [kgen_poly.go]: the count of leading zeros of a 32-bit word. *)
Definition lzcnt32 (x : Z) : Z :=
  let y4 := x .>> 16 in
  let m4 := (y4 -% 1) .>> 16 in
  let r := m4 .& 0x10 in
  let x3 := y4 .| (m4 .& x) in
  let y3 := x3 .>> 8 in
  let m3 := (y3 -% 1) .>> 8 in
  let r := r .| (m3 .& 0x08) in
  let x2 := y3 .| (m3 .& x3) in
  let y2 := x2 .>> 4 in
  let m2 := (y2 -% 1) .>> 4 in
  let r := r .| (m2 .& 0x04) in
  let x1 := y2 .| (m2 .& x2) in
  let y1 := x1 .>> 2 in
  let m1 := (y1 -% 1) .>> 2 in
  let r := r .| (m1 .& 0x02) in
  let x0 := y1 .| (m1 .& x1) in
  r +% 2 +% ((x0 +% 1) .>> 2) -% x0.

(** The approximations of [a] and [b] a round of the binary GCD decides by. *)
Definition bezout_approx (a b : list Z) (xlen : nat) : Z * Z :=
  let '(a0, a1, b0, b1, c0, c1, cp) := for_ xlen (fun k '(a0, a1, b0, b1, c0, c1, cp) =>
    let j := (xlen - 1 - k)%nat in
    let aw := a.[j] in
    let bw := b.[j] in
    let a1 := a1 .^ (c1 .& (a1 .^ aw)) in
    let a0 := a0 .^ (c0 .& (a0 .^ aw)) in
    let b1 := b1 .^ (c1 .& (b1 .^ bw)) in
    let b0 := b0 .^ (c0 .& (b0 .^ bw)) in
    let cp := c0 in
    let c0 := c1 in
    let c1 := c1 .& ((((aw .| bw) +% 0x7FFFFFFF) .>> 31) -% 1) in
    (a0, a1, b0, b1, c0, c1, cp)) (0, 0, 0, 0, 0xFFFFFFFF, 0xFFFFFFFF, 0xFFFFFFFF) in
  let s := lzcnt32 (a1 .| b1 .| ((cp .& c0) .>> 1)) in
  let ha := u32 (a1 .<< s) .| (a0 .>> (31 -% s)) in
  let hb := u32 (b1 .<< s) .| (b0 .>> (31 -% s)) in
  let ha := ha .^ (cp .& (ha .^ a1)) in
  let hb := hb .^ (cp .& (hb .^ b1)) in
  let ha := ha .& (0xFFFFFFFF .^ c0) in
  let hb := hb .& (0xFFFFFFFF .^ c0) in
  (u64 (ha .<< 31) .| a.[0], u64 (hb .<< 31) .| b.[0]).

(** One of its 31 inner steps. *)
Definition bezout_inner (st : Z * Z * Z * Z) : Z * Z * Z * Z :=
  let '(xa, xb, fg0, fg1) := st in
  let a_odd := -! (xa .& 1) in
  let dx := u64 (i64 (xa -! xb) .>> 63) in
  let swap := a_odd .& dx in
  let t1 := swap .& (xa .^ xb) in
  let xa := xa .^ t1 in
  let xb := xb .^ t1 in
  let t2 := swap .& (fg0 .^ fg1) in
  let fg0 := fg0 .^ t2 in
  let fg1 := fg1 .^ t2 in
  let xa := xa -! (a_odd .& xb) in
  let fg0 := fg0 -! (a_odd .& fg1) in
  (xa .>> 1, xb, fg0, u64 (fg1 .<< 1)).

(** The update factors, split out of the packed words. *)
Definition bezout_factors (xa xb : Z) : Z * Z * Z * Z :=
  let '(_, _, fg0, fg1) := for_ 31 (fun _ => bezout_inner) (xa, xb, 1, u64 (1 .<< 32)) in
  let fg0 := fg0 +! 0x7FFFFFFF7FFFFFFF in
  let fg1 := fg1 +! 0x7FFFFFFF7FFFFFFF in
  (i64 (i64 (fg0 .& 0xFFFFFFFF) - 0x7FFFFFFF), i64 (i64 (fg0 .>> 32) - 0x7FFFFFFF),
   i64 (i64 (fg1 .& 0xFFFFFFFF) - 0x7FFFFFFF), i64 (i64 (fg1 .>> 32) - 0x7FFFFFFF)).

Record bezout_state := BezoutState {
  bz_a : list Z; bz_b : list Z; bz_u0 : list Z; bz_u1 : list Z; bz_v0 : list Z; bz_v1 : list Z
}.

(** [f -= (f + f) & -int64(neg)] *)
Definition cond_neg (f neg : Z) : Z := i64 (f - (i64 (f + f) .& (- neg))).

Definition bezout_round (x y : list Z) (xlen : nat) (x0i y0i : Z) (st : bezout_state) : bezout_state :=
  let '(BezoutState a b u0 u1 v0 v1) := st in
  let '(xa, xb) := bezout_approx a b xlen in
  let '(f0, g0, f1, g1) := bezout_factors xa xb in
  let '(a, b, negab) := zint_co_reduce a b xlen f0 g0 f1 g1 in
  let f0 := cond_neg f0 (negab .& 1) in
  let g0 := cond_neg g0 (negab .& 1) in
  let f1 := cond_neg f1 (negab .>> 1) in
  let g1 := cond_neg g1 (negab .>> 1) in
  let '(u0, u1) := zint_co_reduce_mod u0 u1 y xlen y0i f0 g0 f1 g1 in
  let '(v0, v1) := zint_co_reduce_mod v0 v1 x xlen x0i f0 g0 f1 g1 in
  BezoutState a b u0 u1 v0 v1.

(** The result with the contents of [u], [v] and [tmp]. *)
Definition zint_bezout (u v x y : list Z) (xlen : nat) (tmp : list Z) : bool * list Z * list Z * list Z :=
  if (xlen =? 0)%nat then (false, u, v, tmp)
  else
    let x0i := mp_ninv31 x.[0] in
    let y0i := mp_ninv31 y.[0] in
    let copy (d s : list Z) := take xlen s ++ drop xlen d in
    let u1 := copy u y in
    let v1 := copy v x in
    let st := BezoutState (take xlen x) (take xlen y) ((replicate xlen 0).[0 <- 1]) u1
                (replicate xlen 0) (v1.[0 <- v1.[0] -% 1]) in
    let '(BezoutState a b u0 u1 v0 v1) := for_ (2 * xlen + 1) (fun _ => bezout_round x y xlen x0i y0i) st in
    let r := b.[0] .^ 1 in
    let r := for_ (xlen - 1) (fun j r => r .| b.[S j]) r in
    let r := r .| ((x.[0] .& y.[0] .& 1) .^ 1) in
    (r =? 0, u1, v1, u0 ++ v0 ++ a ++ b ++ drop (4 * xlen) tmp).

(** [x += k*(2^sc)*y], with [sc = 31*sch + scl]. *)
Definition zint_add_scaled_mul_small (x : list Z) (xlen : nat) (y : list Z) (ylen stride : nat) (k sch scl : Z)
    : list Z :=
  if (ylen =? 0)%nat then x
  else
    let ysign := (-% (y.[stride * (ylen - 1)] .>> 30)) .>> 1 in
    let '(x, _, _, _, _) := for_ (xlen - Z.to_nat sch) (fun i' '(x, tw, cc, j, ylen) =>
      let b := ((Z.to_nat sch + i') * stride)%nat in
      let '(wy, j, ylen) :=
        if (0 <? ylen)%nat then (y.[j], (j + stride)%nat, (ylen - 1)%nat) else (ysign, j, ylen) in
      let wys := (u32 (wy .<< scl) .& 0x7FFFFFFF) .| tw in
      let tw := wy .>> (31 -% scl) in
      let z := u64 (i64 (i64 (i64 (wys * k) + x.[b]) + cc)) in
      (x.[b <- u32 z .& 0x7FFFFFFF], tw, i32 (z .>> 31), j, ylen)) (x, 0, 0, 0%nat, ylen) in
    x.

Definition zint_sub_scaled (x : list Z) (xlen : nat) (y : list Z) (ylen stride : nat) (sch scl : Z) : list Z :=
  if (ylen =? 0)%nat then x
  else
    let ysign := (-% (y.[stride * (ylen - 1)] .>> 30)) .>> 1 in
    let '(x, _, _, _, _) := for_ (xlen - Z.to_nat sch) (fun i' '(x, tw, cc, j, ylen) =>
      let b := ((Z.to_nat sch + i') * stride)%nat in
      let '(wy, j, ylen) :=
        if (0 <? ylen)%nat then (y.[j], (j + stride)%nat, (ylen - 1)%nat) else (ysign, j, ylen) in
      let wys := (u32 (wy .<< scl) .& 0x7FFFFFFF) .| tw in
      let tw := wy .>> (31 -% scl) in
      let w := x.[b] -% wys -% cc in
      (x.[b <- w .& 0x7FFFFFFF], tw, w .>> 31, j, ylen)) (x, 0, 0, 0%nat, ylen) in
    x.
