(* ===== verification/Zint31Facts.v ===== *)
(** Correctness of the big integers of key generation.

    The value of a run of limbs is a sum ([nval]); each loop that carries from
    limb to limb is an instance of one loop ([carry_loop]), and what it computes
    follows from the equation of one step ([carry_sum]). *)
From Stdlib Require Import ZArith Lia.
From stdpp Require Import base numbers list.
From S2P Require Import Prelude Mq Ntt Mp31Tables Mp31 Zint31.
Local Open Scope Z_scope.

(** * Values *)

(** 2^(31 i) *)
Definition pw (i : nat) : Z := 2 ^ (31 * Z.of_nat i).
Lemma pw_0 : pw 0 = 1.
Proof. reflexivity. Qed.
Lemma pw_S i : pw (S i) = 2 ^ 31 * pw i.
Proof. unfold pw. rewrite <- Z.pow_add_r by lia. f_equal. lia. Qed.
Lemma pw_pos i : 0 < pw i.
Proof. unfold pw. apply Z.pow_pos_nonneg; lia. Qed.
Lemma pw_add i j : pw (i + j) = pw i * pw j.
Proof. unfold pw. rewrite <- Z.pow_add_r by lia. f_equal. lia. Qed.

Definition limb (w : Z) : Prop := 0 <= w < 2 ^ 31.

Definition nval (w : nat -> Z) (len : nat) : Z := zsum len (fun i => w i * pw i).
(** The number whose limbs lie [stride] words apart from the start of [d] on. *)
Definition words (d : list Z) (stride : nat) : nat -> Z := fun i => d.[i * stride].

Lemma nval_S w len : nval w (S len) = nval w len + w len * pw len.
Proof. reflexivity. Qed.

Lemma nval_ext v w len : (forall i, (i < len)%nat -> v i = w i) -> nval v len = nval w len.
Proof. intros H. apply zsum_ext. intros i Hi. by rewrite H. Qed.

Lemma nval_range w len : (forall i, (i < len)%nat -> limb (w i)) -> 0 <= nval w len < pw len.
Proof.
  induction len as [|len IH]; intros Hw; [rewrite pw_0; cbn; lia|].
  specialize (IH ltac:(auto)). specialize (Hw len ltac:(lia)). unfold limb in Hw.
  rewrite nval_S, pw_S. pose proof (pw_pos len). nia.
Qed.

(** The value with the low limb split off. *)
Lemma nval_low w len : nval w (S len) = w 0%nat + 2 ^ 31 * nval (fun i => w (S i)) len.
Proof.
  induction len as [|len IH].
  { rewrite nval_S, pw_0. unfold nval. cbn [zsum]. lia. }
  rewrite nval_S, IH, (nval_S (fun i => w (S i))), pw_S. lia.
Qed.

(** The signed reading: bit 30 of the top limb is the sign. *)
Definition sval (w : nat -> Z) (len : nat) : Z :=
  nval w len - (if decide (w (len - 1)%nat < 2 ^ 30) then 0 else pw len).

Lemma sval_unique w len v :
  (0 < len)%nat -> (forall i, (i < len)%nat -> limb (w i)) ->
  - pw len <= 2 * v < pw len -> nval w len = (if decide (v < 0) then v + pw len else v) -> sval w len = v.
Proof.
  intros Hlen Hw Hv He. destruct len as [|len]; [lia|]. unfold sval.
  replace (S len - 1)%nat with len by lia. rewrite nval_S in *. rewrite pw_S in *.
  pose proof (nval_range w len ltac:(auto)). pose proof (Hw len ltac:(lia)). unfold limb in *.
  pose proof (pw_pos len). repeat case_decide; nia.
Qed.

(** * Loops with a carry *)

Section Carry.
Context (F : nat -> Z -> Z -> Z * Z) (V : Z -> Z).

(** The carry into step [i], and the word the step leaves. *)
Fixpoint carry_in (w : nat -> Z) (c0 : Z) (i : nat) : Z :=
  match i with O => c0 | S i' => snd (F i' (w i') (carry_in w c0 i')) end.
Definition word_out (w : nat -> Z) (c0 : Z) (i : nat) : Z := fst (F i (w i) (carry_in w c0 i)).

(** A loop that rewrites the word at [pos i] in turn [i]. *)
Definition carry_loop (pos : nat -> nat) (len : nat) (d : list Z) (c0 : Z) : list Z * Z :=
  for_ len (fun i '(d, cc) => let '(w, c) := F i d.[pos i] cc in (d.[pos i <- w], c)) (d, c0).

Lemma carry_loop_spec pos len d c0 :
  (forall i j, (i < len)%nat -> (j < len)%nat -> pos i = pos j -> i = j) ->
  (forall i, (i < len)%nat -> (pos i < length d)%nat) ->
  let w := fun i => d.[pos i] in
  let '(d', c) := carry_loop pos len d c0 in
  c = carry_in w c0 len /\ length d' = length d /\
  (forall i, (i < len)%nat -> d'.[pos i] = word_out w c0 i) /\
  (forall m, (forall i, (i < len)%nat -> m <> pos i) -> d'.[m] = d.[m]).
Proof.
  intros Hinj Hpos. cbv zeta. set (w := fun i => d.[pos i]).
  enough (forall k, (k <= len)%nat -> let '(d', c) := carry_loop pos k d c0 in
    c = carry_in w c0 k /\ length d' = length d /\
    (forall i, (i < k)%nat -> d'.[pos i] = word_out w c0 i) /\
    (forall m, (forall i, (i < k)%nat -> m <> pos i) -> d'.[m] = d.[m])) as H by exact (H len (le_n _)).
  induction k as [|k IH]; intros Hk.
  { cbn. repeat split; auto with lia. }
  specialize (IH ltac:(lia)). unfold carry_loop in *. rewrite for_S. destruct (for_ k _ _) as [d' c].
  destruct IH as (-> & HL & HW & HO).
  assert (d'.[pos k] = w k) as Hd by (apply HO; intros i Hi E; apply Hinj in E; lia).
  rewrite Hd. cbn [carry_in]. destruct (F k (w k) (carry_in w c0 k)) as [wo c] eqn:E.
  split; [done|]. split; [by rewrite length_set|]. pose proof (Hpos k ltac:(lia)). split.
  - intros i Hi. rewrite get_set by lia. case_decide as Ep.
    + apply Hinj in Ep as ->; [|lia..]. unfold word_out. by rewrite E.
    + apply HW. destruct (decide (i = k)) as [->|]; [done|lia].
  - intros m Hm. rewrite get_set_ne by (intros Em; by apply (Hm k ltac:(lia))). apply HO. intros i Hi. apply Hm. lia.
Qed.

(** The loop that keeps the position in its state. *)
Lemma carry_loop_stride {T} stride len d c0 (K : list Z -> Z -> nat -> T) :
  (let '(d, cc, j) := for_ len (fun i '(d, cc, j) =>
     let '(w, c) := F i d.[j] cc in (d.[j <- w], c, (j + stride)%nat)) (d, c0, 0%nat) in K d cc j) =
  (let '(d, cc) := carry_loop (fun i => i * stride)%nat len d c0 in K d cc (len * stride)%nat).
Proof.
  enough (for_ len (fun i '(d, cc, j) =>
     let '(w, c) := F i d.[j] cc in (d.[j <- w], c, (j + stride)%nat)) (d, c0, 0%nat) =
    (carry_loop (fun i => i * stride)%nat len d c0, (len * stride)%nat)) as -> by by destruct (carry_loop _ _ _ _).
  induction len as [|len IH]; [done|]. unfold carry_loop in *. rewrite !for_S, IH. clear IH.
  destruct (for_ len _ _) as [d' c]. destruct (F len _ c). f_equal. lia.
Qed.

(** What the loop computes, from the equation of one step; [V] is the number a
    carry stands for. *)
Lemma carry_sum w c0 (t : nat -> Z) len :
  (forall i, (i < len)%nat -> word_out w c0 i + 2 ^ 31 * V (carry_in w c0 (S i)) = t i + V (carry_in w c0 i)) ->
  nval (word_out w c0) len + V (carry_in w c0 len) * pw len = nval t len + V c0.
Proof.
  induction len as [|len IH]; intros Ht; [rewrite pw_0; cbn; lia|].
  specialize (IH ltac:(auto)). specialize (Ht len ltac:(lia)). rewrite !nval_S, pw_S. nia.
Qed.

(** The rule for a loop whose steps keep the carry in [C] and leave limbs. *)
Lemma carry_loop_value (C : Z -> Prop) (t : nat -> Z) pos len d c0 :
  (forall i j, (i < len)%nat -> (j < len)%nat -> pos i = pos j -> i = j) ->
  (forall i, (i < len)%nat -> (pos i < length d)%nat) ->
  C c0 ->
  (forall i cc, (i < len)%nat -> C cc ->
     let '(w, c) := F i d.[pos i] cc in limb w /\ C c /\ w + 2 ^ 31 * V c = t i + V cc) ->
  let '(d', c) := carry_loop pos len d c0 in
  length d' = length d /\ C c /\ (forall i, (i < len)%nat -> limb d'.[pos i]) /\
  nval (fun i => d'.[pos i]) len + V c * pw len = nval t len + V c0 /\
  (forall m, (forall i, (i < len)%nat -> m <> pos i) -> d'.[m] = d.[m]).
Proof.
  intros Hinj Hpos H0 Hstep. pose proof (carry_loop_spec pos len d c0 Hinj Hpos) as H. cbv zeta in H.
  destruct (carry_loop pos len d c0) as [d' c]. destruct H as (-> & HL & HW & HO).
  set (w := fun i => d.[pos i]) in *.
  assert (forall i, (i <= len)%nat -> C (carry_in w c0 i)) as Hc.
  { induction i as [|i IH]; intros Hi; [done|]. cbn [carry_in].
    specialize (Hstep i _ ltac:(lia) (IH ltac:(lia))). fold (w i) in Hstep. destruct (F i _ _); apply Hstep. }
  assert (forall i, (i < len)%nat -> limb (word_out w c0 i) /\
    word_out w c0 i + 2 ^ 31 * V (carry_in w c0 (S i)) = t i + V (carry_in w c0 i)) as Hs.
  { intros i Hi. unfold word_out. cbn [carry_in]. specialize (Hstep i _ Hi (Hc i ltac:(lia))). fold (w i) in Hstep.
    destruct (F i _ _). destruct Hstep as (? & _ & ?). done. }
  split; [done|]. split; [auto|]. split; [intros i Hi; rewrite HW by done; by apply Hs|]. split; [|done].
  rewrite (nval_ext _ (word_out w c0)) by done. apply carry_sum. apply Hs.
Qed.
End Carry.

(** The words of a strided number do not meet. *)
Lemma stride_inj stride i j : (0 < stride)%nat -> (i * stride = j * stride)%nat -> i = j.
Proof. nia. Qed.

(** The two halves of a 62-bit value. *)
Lemma low31 z : 0 <= z < 2 ^ 64 -> u32 z .& 0x7FFFFFFF = z mod 2 ^ 31.
Proof.
  intros Hz. change 0x7FFFFFFF with (Z.ones 31). rewrite u32_mod, Z.land_ones by lia.
  apply Z.mod_mod_divide. by exists 2.
Qed.
Lemma high31 z : 0 <= z < 2 ^ 62 -> u32 (z .>> 31) = z / 2 ^ 31.
Proof.
  intros Hz. rewrite shr_div by lia. apply u32_small.
  assert (z / 2 ^ 31 < 2 ^ 31) by (apply Z.div_lt_upper_bound; lia). pose proof (Z.div_pos z (2 ^ 31)). lia.
Qed.
Lemma mod31_limb z : limb (z mod 2 ^ 31).
Proof. apply Z.mod_pos_bound. lia. Qed.
Lemma split31 z : z mod 2 ^ 31 + 2 ^ 31 * (z / 2 ^ 31) = z.
Proof. pose proof (Z.div_mod z (2 ^ 31)). lia. Qed.

(** The word with bit 31 dropped, and that bit. *)
Lemma low31_word w : 0 <= w < 2 ^ 32 -> w .& 0x7FFFFFFF = w mod 2 ^ 31 /\ w .>> 31 = w / 2 ^ 31 /\ 0 <= w / 2 ^ 31 <= 1.
Proof.
  intros Hw. change 0x7FFFFFFF with (Z.ones 31). rewrite Z.land_ones, shr_div by lia.
  split; [done|]. split; [done|]. split; [apply Z.div_pos; lia|].
  assert (w / 2 ^ 31 < 2) by (apply Z.div_lt_upper_bound; lia). lia.
Qed.

(** * Products with a small value *)

Definition mul_small_step (x : Z) (i : nat) (w cc : Z) : Z * Z :=
  let z := u64 (u64 (w * x) + cc) in (u32 z .& 0x7FFFFFFF, u32 (z .>> 31)).

Lemma mul_small_step_spec x w cc i :
  limb x -> limb w -> limb cc ->
  let '(wo, c) := mul_small_step x i w cc in limb wo /\ limb c /\ wo + 2 ^ 31 * c = w * x + cc.
Proof.
  unfold limb, mul_small_step. intros Hx Hw Hc. cbv zeta.
  assert (0 <= w * x + cc < 2 ^ 62) by nia. rewrite (u64_small (w * x)), u64_small by lia.
  rewrite low31, high31 by lia. split; [apply mod31_limb|]. split; [|apply split31].
  split; [apply Z.div_pos; lia|]. apply Z.div_lt_upper_bound; lia.
Qed.

Lemma zint_mul_small_spec m mlen x :
  (mlen <= length m)%nat -> limb x -> (forall i, (i < mlen)%nat -> limb m.[i]) ->
  let '(m', cc) := zint_mul_small m mlen x in
  length m' = length m /\ limb cc /\ (forall i, (i < mlen)%nat -> limb m'.[i]) /\
  nval (get m') mlen + cc * pw mlen = x * nval (get m) mlen /\
  (forall i, (mlen <= i)%nat -> m'.[i] = m.[i]).
Proof.
  intros Hlen Hx Hm. change (zint_mul_small m mlen x) with (carry_loop (mul_small_step x) (fun i => i) mlen m 0).
  pose proof (carry_loop_value (mul_small_step x) (fun c => c) limb (fun i => x * m.[i]) (fun i => i) mlen m 0) as H.
  destruct (carry_loop _ _ mlen m 0) as [m' cc]. destruct H as (HL & Hc & Hw & HV & HO); [auto|lia|done| |].
  { intros i c Hi Hc. rewrite (Z.mul_comm x). by apply mul_small_step_spec; auto. }
  split; [done|]. split; [done|]. split; [done|]. split; [|intros i Hi; apply HO; lia].
  change (nval (get m') mlen + cc * pw mlen = nval (fun i => x * m.[i]) mlen + 0) in HV.
  rewrite HV, Z.add_0_r. unfold nval. rewrite <- zsum_mul_l. apply zsum_ext. intros. ring.
Qed.

Definition add_mul_small_step (a : list Z) (s : Z) (i : nat) (dw cc : Z) : Z * Z :=
  let z := u64 (u64 (u64 (a.[i] * s) + dw) + cc) in (u32 z .& 0x7FFFFFFF, u32 (z .>> 31)).

Lemma add_mul_small_step_spec a s i w cc :
  limb s -> limb a.[i] -> limb w -> limb cc ->
  let '(wo, c) := add_mul_small_step a s i w cc in limb wo /\ limb c /\ wo + 2 ^ 31 * c = (w + s * a.[i]) + cc.
Proof.
  unfold limb, add_mul_small_step. intros Hs Ha Hw Hc. cbv zeta.
  assert (0 <= a.[i] * s <= (2 ^ 31 - 1) * (2 ^ 31 - 1)) by nia.
  rewrite (u64_small (a.[i] * s)), (u64_small (_ + w)), u64_small by lia.
  rewrite low31, high31 by lia. split; [apply mod31_limb|]. split; [|rewrite split31; lia].
  split; [apply Z.div_pos; lia|]. apply Z.div_lt_upper_bound; lia.
Qed.

(** A number of [len] limbs at every [stride]-th word of [d]. *)
Record number (d : list Z) (stride len : nat) : Prop := Number {
  nb_stride : (0 < stride)%nat;
  nb_room : forall i, (i < len)%nat -> (i * stride < length d)%nat;
  nb_limb : forall i, (i < len)%nat -> limb (words d stride i)
}.

Lemma number_sub d stride len len' : (len' <= len)%nat -> number d stride len -> number d stride len'.
Proof. intros Hl [H1 H2 H3]. split; [done|intros; apply H2; lia|intros; apply H3; lia]. Qed.

Lemma zint_add_mul_small_spec d len stride a s :
  number d stride len -> (len * stride < length d)%nat -> limb s -> (forall i, (i < len)%nat -> limb a.[i]) ->
  let d' := zint_add_mul_small d len stride a s in
  length d' = length d /\ number d' stride (S len) /\
  nval (words d' stride) (S len) = nval (words d stride) len + s * nval (get a) len /\
  (forall m, (forall i, (i <= len)%nat -> m <> (i * stride)%nat) -> d'.[m] = d.[m]).
Proof.
  intros [H0 HR HD] Htop Hs Ha. cbv zeta.
  assert (zint_add_mul_small d len stride a s =
    (let '(d, cc) := carry_loop (add_mul_small_step a s) (fun i => i * stride)%nat len d 0 in
     d.[len * stride <- cc])) as -> by exact (carry_loop_stride (add_mul_small_step a s) stride len d 0 (fun d cc j => d.[j <- cc])).
  pose proof (carry_loop_value (add_mul_small_step a s) (fun c => c) limb (fun i => words d stride i + s * a.[i])
    (fun i => i * stride)%nat len d 0) as H.
  destruct (carry_loop _ _ len d 0) as [d' cc]. destruct H as (HL & Hc & Hw & HV & HO); [intros; by apply (stride_inj stride)|done|done| |].
  { intros i c Hi Hc. by apply add_mul_small_step_spec; auto. }
  assert (forall i, (i < len)%nat -> d'.[len * stride <- cc].[i * stride] = d'.[i * stride]) as Hlow
    by (intros i Hi; apply get_set_ne; intros E; apply (stride_inj stride) in E; [lia|done]).
  assert (d'.[len * stride <- cc].[len * stride] = cc) as Hhi by (apply get_set_eq; lia).
  split; [rewrite length_set; lia|]. split.
  { split; [done|intros i Hi; rewrite length_set, HL; nia|]. intros i Hi. unfold words.
    destruct (decide (i = len)) as [->|]; [by rewrite Hhi|]. rewrite Hlow by lia. apply Hw. lia. }
  split.
  - rewrite nval_S. unfold words at 2. rewrite Hhi.
    rewrite (nval_ext (words _ stride) (fun i => d'.[i * stride])) by (intros; by apply Hlow).
    rewrite HV, Z.add_0_r. unfold nval. rewrite <- zsum_mul_l, <- zsum_plus. apply zsum_ext. intros. ring.
  - intros m Hm. rewrite get_set_ne by (intros E; by apply (Hm len)). apply HO. intros i Hi. apply Hm. lia.
Qed.

(** * Reduction modulo a small prime *)

Section Reduction.
Context {p p0i r2 : Z} (Hgood : good_prime p p0i) (Hr2 : 0 <= r2 < p /\ r2 ==[p] 2 ^ 64).
Local Abbreviation rep x := (0 <= x < p) (only parsing).

Lemma limb_reduced w : limb w -> rep ((w -% p) +% (p .& tbmask (w -% p))) /\ (w -% p) +% (p .& tbmask (w -% p)) ==[p] w.
Proof.
  unfold limb. intros Hw. pose proof (p_range Hgood). destruct Hgood as [Hp _ _ _]. rewrite masked_add by lia.
  case_decide; (split; [lia|]).
  - by replace (w - p + p) with w by lia.
  - rewrite <- (cong_modulus (w - p)). cong_ring.
Qed.

(** The words from [i] up, as a number. *)
Lemma zint_mod_small_unsigned_spec d len stride :
  number d stride len ->
  rep (zint_mod_small_unsigned d len stride p p0i r2) /\
  zint_mod_small_unsigned d len stride p p0i r2 ==[p] nval (words d stride) len.
Proof.
  intros [H0 HR HD]. pose proof (p_range Hgood) as Hp. unfold zint_mod_small_unsigned.
  destruct (Nat.eqb_spec len 0) as [->|Hne]; [split; [lia|done]|]. cbv zeta.
  destruct Hr2 as [Hrr Hrc]. destruct (mp_half_spec Hgood r2 Hrr) as [Hz _].
  assert (mp_half r2 p ==[p] 2 ^ 31 * 2 ^ 32) as Hzc.
  { apply (half_cancel_p Hgood). rewrite (mp_half_cong Hgood), Hrc by done. cong_ring. }
  set (w := words d stride) in *. set (body := fun (k : nat) (x : Z) => _).
  enough ((fun k x => rep x /\ x * pw (len - k) + nval w (len - k) ==[p] nval w len) len (for_ len body 0)) as [H1 H2].
  { split; [done|]. rewrite Nat.sub_diag, pw_0 in H2. rewrite <- H2. apply cong_of_eq. cbn. lia. }
  apply (for_ind (fun k x => rep x /\ x * pw (len - k) + nval w (len - k) ==[p] nval w len)).
  { split; [lia|]. rewrite Nat.sub_0_r. cong_ring. }
  intros k x Hk [Hx Hc]. unfold body.
  replace (len - k)%nat with (S (len - 1 - k)) in Hc by lia. replace (len - S k)%nat with (len - 1 - k)%nat by lia.
  fold (words d stride (len - 1 - k)). fold w. set (i := (len - 1 - k)%nat) in *.
  destruct (limb_reduced (w i) (HD i ltac:(lia))) as [Hw Hwc].
  pose proof (mp_mmul_rep Hgood x _ Hx Hz) as Hm. destruct (mp_add_spec Hgood _ _ Hm Hw) as [Ha Hac].
  split; [exact Ha|]. rewrite Hac, Hwc, (mp_mmul_mont Hgood x _ (2 ^ 31)), <- Hc by done.
  rewrite nval_S, pw_S. cong_ring.
Qed.

Lemma zint_mod_small_signed_spec d len stride rx :
  number d stride len -> rep rx -> rx ==[p] 2 ^ (31 * Z.of_nat len) ->
  rep (zint_mod_small_signed d len stride p p0i r2 rx) /\
  ((0 < len)%nat -> zint_mod_small_signed d len stride p p0i r2 rx ==[p] sval (words d stride) len).
Proof.
  intros Hd Hrx Hrc. pose proof (p_range Hgood) as Hp. unfold zint_mod_small_signed.
  destruct (Nat.eqb_spec len 0) as [->|Hne]; [split; [lia|lia]|]. cbv zeta.
  destruct (zint_mod_small_unsigned_spec d len stride Hd) as [Hz Hzc].
  fold (words d stride (len - 1)). pose proof (nb_limb _ _ _ Hd (len - 1)%nat ltac:(lia)) as Hl. unfold limb in Hl.
  unfold sval. set (t := words d stride (len - 1)) in *. rewrite (shr_div t) by lia. case_decide as Ht.
  - rewrite (Z.div_small t) by lia. change (-% 0) with 0. rewrite Z.land_0_r.
    destruct (mp_sub_spec Hgood _ 0 Hz ltac:(lia)) as [Hs Hsc]. split; [done|]. intros _. by rewrite Hsc, Hzc.
  - replace (t / 2 ^ 30) with 1 by (apply (Z.div_unique_pos _ _ _ (t - 2 ^ 30)); lia).
    change (-% 1) with (Z.ones 32). rewrite land_ones_small by lia.
    destruct (mp_sub_spec Hgood _ rx Hz Hrx) as [Hs Hsc]. split; [done|]. intros _. rewrite Hsc, Hzc, Hrc. done.
Qed.
End Reduction.

(** * Normalisation around zero *)

(** The words of half of [m]. *)
Definition half_words (m : nat -> Z) (len : nat) (i : nat) : Z :=
  m i / 2 + 2 ^ 30 * ((if (S i <? len)%nat then m (S i) else 0) mod 2).

Lemma half_words_value m len k :
  (k <= len)%nat ->
  2 * nval (half_words m len) k + (if (0 <? k)%nat then m 0%nat mod 2 else 0) =
  nval m k + pw k * (if (0 <? k)%nat then (if (k <? len)%nat then m k else 0) mod 2 else 0).
Proof.
  induction k as [|k IH]; intros Hk; [cbn; lia|]. specialize (IH ltac:(lia)).
  rewrite !nval_S, pw_S. unfold half_words at 2. pose proof (Z.div_mod (m k) 2 ltac:(lia)) as Hd.
  destruct (Nat.ltb_spec 0 (S k)); [|lia]. destruct k as [|k].
  - unfold nval in *. cbn [zsum] in *. rewrite pw_0 in *. lia.
  - destruct (Nat.ltb_spec 0 (S k)); [|lia]. destruct (Nat.ltb_spec (S k) len); [|lia]. nia.
Qed.

Lemma half_words_limb m len i : limb (m i) -> limb (half_words m len i).
Proof.
  unfold limb, half_words. intros Hm. generalize (if (S i <? len)%nat then m (S i) else 0) as b. intros b.
  pose proof (Z.mod_pos_bound b 2 ltac:(lia)).
  Z.to_euclidean_division_equations. lia.
Qed.

(** The sign of a comparison, as a word. *)
Definition cmp_word (x y : Z) : Z := if decide (x = y) then 0 else if decide (y < x) then 1 else Z.ones 32.

Lemma cmp_word_step wp wx :
  limb wp -> limb wx ->
  let cc := wp -% wx in ((-% cc) .>> 31) .| (-% (cc .>> 31)) = cmp_word wp wx.
Proof.
  unfold limb, cmp_word. intros Hp Hx. cbv zeta. case_decide as E; [|case_decide].
  - rewrite E, Z.sub_diag. done.
  - rewrite (u32_small (wp - wx)), (u32_neg (- _)), !shr31_bit by lia. rewrite decide_False, decide_True by lia. done.
  - rewrite (u32_neg (wp - wx)) by lia. rewrite (shr31_bit (wp - wx + _)) by lia. rewrite decide_False by lia.
    rewrite u32_neg, shr31_bit by lia. rewrite decide_True by lia. done.
Qed.

Lemma cmp_word_lor x y X Y :
  limb x -> limb y ->
  cmp_word X Y .| (cmp_word x y .& ((cmp_word X Y .& 1) -% 1)) = cmp_word (x + 2 ^ 31 * X) (y + 2 ^ 31 * Y).
Proof.
  unfold limb, cmp_word. intros Hx Hy.
  destruct (decide (X = Y)) as [->|]; [|destruct (decide (Y < X))]; repeat case_decide; try lia; reflexivity.
Qed.

(** One word of a subtraction with borrow. *)
Definition borrow (c : Z) : Prop := c = 0 \/ c = 1.

Lemma sub_word_spec xw mw cc :
  limb xw -> limb mw -> borrow cc ->
  let w := xw -% mw -% cc in
  limb (w .& 0x7FFFFFFF) /\ borrow (w .>> 31) /\ w .& 0x7FFFFFFF + 2 ^ 31 * - (w .>> 31) = (xw - mw) + - cc.
Proof.
  unfold limb, borrow. intros Hxw Hmw Hc. cbv zeta.
  set (w := xw -% mw -% cc). destruct (low31_word w) as (E1 & E2 & H2); [apply u32_range|]. rewrite E1, E2.
  split; [apply mod31_limb|]. split; [lia|]. pose proof (split31 w).
  assert (w = if decide (xw - mw - cc < 0) then xw - mw - cc + 2 ^ 32 else xw - mw - cc) as Hw.
  { unfold w. rewrite u32_mod, u32_mod, Zminus_mod_idemp_l, <- u32_mod.
    case_decide; [rewrite u32_neg by lia; lia|rewrite u32_small by lia; lia]. }
  case_decide; [replace (w / 2 ^ 31) with 1 in * by (apply (Z.div_unique_pos _ _ _ (w - 2 ^ 31)); lia)
               |replace (w / 2 ^ 31) with 0 in * by (symmetry; apply Z.div_small; lia)]; lia.
Qed.

Section NormZero.
Context (x : list Z) (len stride : nat) (m : list Z).
Context (Hx : number x stride len) (Hm : forall i, (i < len)%nat -> limb m.[i]) (Hodd : m.[0] mod 2 = 1) (Hlen : (0 < len)%nat).
Local Abbreviation X := (nval (words x stride) len).
Local Abbreviation M := (nval (get m) len).

Lemma zint_norm_cmp_spec : zint_norm_cmp x len stride m = cmp_word ((M - 1) / 2) X.
Proof using Hx Hm Hodd Hlen.
  set (h := half_words (get m) len). set (w := words x stride).
  assert (nval h len = (M - 1) / 2) as <-.
  { pose proof (half_words_value (get m) len len (le_n _)) as H. fold h in H.
    rewrite Nat.ltb_irrefl in H. destruct (Nat.ltb_spec 0 len); [|lia]. rewrite Hodd in H.
    apply (Z.div_unique_pos _ _ _ 0); [lia|]. change (0 mod 2) with 0 in H. lia. }
  unfold zint_norm_cmp. match goal with |- context [for_ len ?f (0, 0)] => set (body := f) end.
  set (P := fun (k : nat) (st : Z * Z) =>
    fst st = cmp_word (nval (fun j => h (len - k + j)%nat) k) (nval (fun j => w (len - k + j)%nat) k) /\
    snd st = (if (k =? 0)%nat then 0 else m.[len - k]) mod 2).
  enough (P len (for_ len body (0, 0))) as [H _].
  { destruct (for_ len body (0, 0)) as [r bb]. cbn [fst] in H. rewrite H, Nat.sub_diag. done. }
  apply (for_ind P).
  { split; done. }
  intros k [r bb] Hk [Hr Hbb]. cbn [fst snd] in Hr, Hbb. subst r bb. unfold body. cbn [fst snd].
  set (i := (len - 1 - k)%nat). replace (len - S k)%nat with i by lia. fold (words x stride i). fold w.
  pose proof (Hm i ltac:(lia)) as Hmi. pose proof (nb_limb _ _ _ Hx i ltac:(lia)) as Hwi. fold w in Hwi.
  assert ((m.[i] .>> 1) .| u32 (((if (k =? 0)%nat then 0 else m.[len - k]) mod 2) .<< 30) = h i) as ->.
  { unfold h, half_words. set (b := (if (k =? 0)%nat then 0 else m.[len - k]) mod 2).
    replace ((if (S i <? len)%nat then m.[S i] else 0) mod 2) with b.
    2: { unfold b. destruct (Nat.eqb_spec k 0), (Nat.ltb_spec (S i) len); try lia. do 2 f_equal. lia. }
    assert (0 <= b < 2) by (apply Z.mod_pos_bound; lia). unfold limb in Hmi.
    rewrite shr_div, shl_mul by lia. change (2 ^ 1) with 2. rewrite u32_small by lia.
    rewrite Z.lor_comm, lor_shifted; [lia|lia|]. Z.to_euclidean_division_equations. lia. }
  unfold P. cbn [fst snd]. split.
  - rewrite (cmp_word_step (h i) (w i)) by (done || by apply half_words_limb).
    rewrite cmp_word_lor by (done || by apply half_words_limb).
    rewrite (nval_low (fun j => h (len - S k + j)%nat)), (nval_low (fun j => w (len - S k + j)%nat)).
    replace (len - S k + 0)%nat with i by lia.
    f_equal; f_equal; f_equal; apply nval_ext; intros j Hj; f_equal; lia.
  - rewrite land_1. destruct (Nat.eqb_spec (S k) 0); [lia|]. replace (len - S k)%nat with i by lia. done.
Qed.

(** A limb, or that limb of the difference, as the mask says. *)
Definition sub_step (m : list Z) (s : Z) (i : nat) (xw cc : Z) : Z * Z :=
  let w := xw -% m.[i] -% cc in (xw .^ (((w .& 0x7FFFFFFF) .^ xw) .& s), w .>> 31).

Lemma sub_step_spec s i xw cc :
  s = Z.ones 32 -> limb xw -> limb m.[i] -> borrow cc ->
  let '(w, c) := sub_step m s i xw cc in limb w /\ borrow c /\ w + 2 ^ 31 * - c = (xw - m.[i]) + - cc.
Proof.
  intros -> Hxw Hmi Hc. unfold sub_step. pose proof (sub_word_spec xw m.[i] cc Hxw Hmi Hc) as H. cbv zeta in *.
  set (w := xw -% m.[i] -% cc) in *. unfold limb in *. destruct H as (H1 & H).
  rewrite land_ones_small by (lia || by apply lxor_range; lia).
  rewrite Z.lxor_comm, Z.lxor_assoc, Z.lxor_nilpotent, Z.lxor_0_r. done.
Qed.

Lemma zint_norm_zero_spec :
  X < M ->
  let x' := zint_norm_zero x len stride m in
  length x' = length x /\ number x' stride len /\
  sval (words x' stride) len = (if decide (2 * X < M) then X else X - M) /\
  (forall k, (forall i, (i < len)%nat -> k <> (i * stride)%nat) -> x'.[k] = x.[k]).
Proof using Hx Hm Hodd Hlen.
  intros HXM. cbv zeta. pose proof (nval_range (words x stride) len (nb_limb _ _ _ Hx)) as HX.
  pose proof (nval_range (get m) len Hm) as HMr.
  assert (exists h, M = 2 * h + 1) as [h Hh].
  { destruct len as [|k]; [lia|]. exists (m.[0] / 2 + 2 ^ 30 * nval (fun i => m.[S i]) k). rewrite nval_low.
    pose proof (Z.div_mod m.[0] 2 ltac:(lia)). lia. }
  assert ((M - 1) / 2 = h) as Ehalf by (rewrite Hh; symmetry; apply (Z.div_unique_pos _ _ _ 0); lia).
  set (s := tbmask (zint_norm_cmp x len stride m)).
  assert (s = if decide (2 * X < M) then 0 else Z.ones 32) as Es.
  { unfold s. rewrite zint_norm_cmp_spec, Ehalf. unfold cmp_word.
    repeat case_decide; try lia; reflexivity. }
  assert (zint_norm_zero x len stride m =
    fst (carry_loop (sub_step m s) (fun i => i * stride)%nat len x 0)) as ->.
  { unfold zint_norm_zero. destruct (Nat.eqb_spec len 0); [lia|].
    change (fst (carry_loop (sub_step m s) (fun i => i * stride)%nat len x 0)) with
      (let '(x, _) := carry_loop (sub_step m s) (fun i => i * stride)%nat len x 0 in x).
    exact (carry_loop_stride (sub_step m s) stride len x 0 (fun x _ _ => x)). }
  assert (forall i j, (i < len)%nat -> (j < len)%nat -> (i * stride = j * stride)%nat -> i = j) as Hinj
    by (intros; by apply (stride_inj stride); [apply Hx|]).
  destruct (decide (2 * X < M)) as [Hlt|Hge].
  - pose proof (carry_loop_spec (sub_step m s) (fun i => i * stride)%nat len x 0 Hinj (nb_room _ _ _ Hx)) as H. cbv zeta in H.
    destruct (carry_loop _ _ len x 0) as [x' c]. destruct H as (_ & HL & HW & HO). cbn [fst].
    assert (forall i, (i < len)%nat -> words x' stride i = words x stride i) as He.
    { intros i Hi. unfold words. rewrite HW by done. unfold word_out, sub_step. rewrite Es. cbn [fst].
      by rewrite Z.land_0_r, Z.lxor_0_r. }
    split; [done|]. split.
    { destruct Hx as [H1 H2 H3]. split; [done|intros; rewrite HL; auto|intros; rewrite He; auto]. }
    split; [|done]. apply sval_unique; [done|intros; rewrite He by done; by apply Hx|lia|].
    rewrite (nval_ext _ (words x stride)) by done. rewrite decide_False by lia. done.
  - pose proof (carry_loop_value (sub_step m s) Z.opp borrow (fun i => words x stride i - m.[i])
      (fun i => i * stride)%nat len x 0 Hinj (nb_room _ _ _ Hx)) as H.
    destruct (carry_loop _ _ len x 0) as [x' c]. cbn [fst]. destruct H as (HL & Hc & Hw & HV & HO); [by left| |].
    { intros i cc Hi Hc. apply sub_step_spec; auto. by apply Hx. }
    split; [done|]. split.
    { destruct Hx as [H1 H2 H3]. split; [done|intros; rewrite HL; auto|intros; by apply Hw]. }
    split; [|done]. apply sval_unique; [done|intros; by apply Hw|lia|].
    assert (nval (fun i => words x stride i - m.[i]) len = X - M) as Ed.
    { unfold nval. rewrite <- (Z.add_opp_r (zsum _ _)), <- zsum_opp, <- zsum_plus. apply zsum_ext. intros. ring. }
    rewrite Ed in HV. pose proof (nval_range _ len Hw) as Hr.
    change (nval (words x' stride) len = if decide (X - M < 0) then X - M + pw len else X - M).
    change (fun i : nat => x'.[i * stride]) with (words x' stride) in *.
    rewrite decide_True by lia. pose proof (pw_pos len). destruct Hc as [-> | ->]; lia.
Qed.
End NormZero.
