(* ===== verification/ZintCrt.v ===== *)
(** Reconstruction of big integers from their residues ([zint_rebuild_CRT]). *)
From Stdlib Require Import ZArith Lia.
From stdpp Require Import base numbers list.
From S2P Require Import Prelude Mq Ntt Mp31Tables Mp31 Zint31 Zint31Facts.
Local Open Scope Z_scope.

(** * Sub-slices and interleaved numbers *)

Lemma at_spec o f x :
  (o <= length x)%nat -> length (f (drop o x)) = length (drop o x) ->
  length (at_ o f x) = length x /\ drop o (at_ o f x) = f (drop o x) /\
  (forall m, (m < o)%nat -> (at_ o f x).[m] = x.[m]).
Proof.
  intros Ho Hf. unfold at_. split; [rewrite length_app, length_take, Hf, length_drop; lia|]. split.
  - rewrite drop_app_length'; [done|]. rewrite length_take. lia.
  - intros m Hm. rewrite get_app_l by (rewrite length_take; lia). by apply get_take.
Qed.

(** What the slice leaves alone is left alone. *)
Lemma at_frame o f x n len :
  (o <= length x)%nat -> length (f (drop o x)) = length (drop o x) ->
  (forall m, (forall i, (i < len)%nat -> m <> (i * n)%nat) -> (f (drop o x)).[m] = (drop o x).[m]) ->
  forall m, (forall i, (i < len)%nat -> m <> (o + i * n)%nat) -> (at_ o f x).[m] = x.[m].
Proof.
  intros Ho Hf Hfr m Hm. destruct (at_spec o f x Ho Hf) as (_ & HD & HL).
  destruct (decide (m < o)%nat); [by apply HL|]. replace m with (o + (m - o))%nat by lia.
  rewrite <- !get_drop, HD. apply Hfr. intros i Hi E. apply (Hm i Hi). lia.
Qed.

Section Sets.
Context (num_sets n xlen : nat) (Hxlen : (0 < xlen)%nat).

(** The integers of the sets, by the index of their first word. *)
Definition offset (o : nat) : Prop := exists k j, (k < num_sets)%nat /\ (j < n)%nat /\ o = (k * (n * xlen) + j)%nat.

(** The words of the integer that starts at [o]. *)
Definition cells (xx : list Z) (o : nat) : list Z := (fun w => xx.[o + w * n]) <$> seq 0 xlen.

Lemma cells_get xx o w : (w < xlen)%nat -> (cells xx o).[w] = xx.[o + w * n].
Proof. intros Hw. apply get_lookup. unfold cells. by rewrite list_lookup_fmap, lookup_seq_lt. Qed.

Lemma cells_words xx o w : (w < xlen)%nat -> (cells xx o).[w] = words (drop o xx) n w.
Proof. intros Hw. unfold words. by rewrite cells_get, get_drop. Qed.

Lemma cells_ext xx yy o : (forall w, (w < xlen)%nat -> xx.[o + w * n] = yy.[o + w * n]) -> cells xx o = cells yy o.
Proof.
  intros H. unfold cells. apply list_fmap_ext. intros i w Hw. apply H. apply lookup_seq in Hw. lia.
Qed.

Lemma offset_disjoint o o' w w' :
  offset o -> offset o' -> (w < xlen)%nat -> (w' < xlen)%nat -> (o + w * n = o' + w' * n)%nat -> o = o'.
Proof.
  intros (k & j & Hk & Hj & ->) (k' & j' & Hk' & Hj' & ->) Hw Hw' E.
  assert (n * (k * xlen + w) + j = n * (k' * xlen + w') + j')%nat as E1.
  { transitivity (k * (n * xlen) + j + w * n)%nat; [lia|]. rewrite E. lia. }
  apply Nat.div_mod_unique in E1 as [E2 ->]; [|done..].
  assert (xlen * k + w = xlen * k' + w')%nat as E3 by lia.
  apply Nat.div_mod_unique in E3 as [-> _]; [|done..]. done.
Qed.

Lemma offset_room o w : offset o -> (w < xlen)%nat -> (o + w * n < num_sets * (n * xlen))%nat.
Proof. intros (k & j & Hk & Hj & ->) Hw.
  assert (S k * (n * xlen) <= num_sets * (n * xlen))%nat by (apply Nat.mul_le_mono_r; lia).
  assert (S w * n <= xlen * n)%nat by (apply Nat.mul_le_mono_r; lia). lia.
Qed.

(** A step for each integer that changes only its own words. *)
Lemma for_sets_spec (step : nat -> list Z -> list Z) (P Q : nat -> list Z -> Prop) L xx :
  (forall o xx, offset o -> length xx = L -> P o (cells xx o) ->
     Q o (cells (step o xx) o) /\ length (step o xx) = L /\
     (forall m, (forall w, (w < xlen)%nat -> m <> (o + w * n)%nat) -> (step o xx).[m] = xx.[m])) ->
  length xx = L -> (forall o, offset o -> P o (cells xx o)) ->
  let xx' := for_sets num_sets n xlen step xx in
  length xx' = L /\ (forall o, offset o -> Q o (cells xx' o)) /\
  (forall m, (num_sets * (n * xlen) <= m)%nat -> xx'.[m] = xx.[m]).
Proof.
  intros Hstep HL HP. cbv zeta.
  (* the integers before set [k], and before the integer [j] of it, are done *)
  set (I := fun (k j : nat) (yy : list Z) => length yy = L /\
    (forall k' j', (k' < num_sets)%nat -> (j' < n)%nat ->
       let o := (k' * (n * xlen) + j')%nat in
       if decide (k' < k \/ (k' = k /\ j' < j))%nat then Q o (cells yy o) else cells yy o = cells xx o) /\
    (forall m, (num_sets * (n * xlen) <= m)%nat -> yy.[m] = xx.[m])).
  enough (I num_sets 0%nat (for_sets num_sets n xlen step xx)) as (H1 & H2 & H3).
  { split; [done|]. split; [|done]. intros o (k & j & Hk & Hj & ->). specialize (H2 k j Hk Hj). cbv zeta in H2.
    by rewrite decide_True in H2 by lia. }
  unfold for_sets. apply (for_ind (fun k => I k 0%nat)).
  { split; [done|]. split; [|done]. intros k j Hk Hj. cbv zeta. by rewrite decide_False by lia. }
  intros k yy Hk H0.
  assert (I k n (for_ n (fun j xx => step (k * (n * xlen) + j)%nat xx) yy)) as H.
  { apply (for_ind (fun j => I k j)); [done|]. intros j zz Hj (HLz & HQ & Hfr).
    set (o := (k * (n * xlen) + j)%nat). assert (offset o) as Ho by (by exists k, j).
    pose proof (HQ k j Hk Hj) as Hcur. cbv zeta in Hcur. rewrite decide_False in Hcur by lia. fold o in Hcur.
    destruct (Hstep o zz Ho HLz) as (HQo & HLo & Hfo); [rewrite Hcur; by apply HP|].
    split; [done|]. split.
    - intros k' j' Hk' Hj'. cbv zeta. set (o' := (k' * (n * xlen) + j')%nat). assert (offset o') as Ho' by (by exists k', j').
      destruct (decide (o' = o)) as [E|Hne].
      + assert (k' = k /\ j' = j) as [-> ->].
        { unfold o, o' in E. assert (n <= n * xlen)%nat by (destruct xlen; lia).
          assert ((n * xlen) * k' + j' = (n * xlen) * k + j)%nat as E1 by lia.
          apply Nat.div_mod_unique in E1; lia. }
        rewrite decide_True by lia. done.
      + assert (cells (step o zz) o' = cells zz o') as ->.
        { apply cells_ext. intros w Hw. apply Hfo. intros w' Hw' E. apply Hne. by apply (offset_disjoint o' o w w'). }
        specialize (HQ k' j' Hk' Hj'). cbv zeta in HQ. fold o' in HQ.
        assert (~ (k' = k /\ j' = j)) by (intros [-> ->]; by apply Hne).
        destruct (decide (k' < k \/ (k' = k /\ j' < j))%nat); destruct (decide (k' < k \/ (k' = k /\ j' < S j))%nat); try done; lia.
    - intros m Hm. rewrite Hfo, Hfr by (done || intros w Hw E; pose proof (offset_room o w Ho Hw); lia). done. }
  destruct H as (HL' & HQ & Hfr). split; [done|]. split; [|done].
  intros k' j' Hk' Hj'. specialize (HQ k' j' Hk' Hj'). cbv zeta in *.
  destruct (decide (k' < k \/ (k' = k /\ j' < n))%nat), (decide (k' < S k \/ (k' = S k /\ j' < 0))%nat); try done; lia.
Qed.
End Sets.

(** * The modulus *)

Definition crt_mod (i : nat) : Z := prod_primes (take i primes).

Lemma prod_primes_app l l' : prod_primes (l ++ l') = prod_primes l * prod_primes l'.
Proof.
  induction l as [|e l IH]; [change (prod_primes []) with 1; by rewrite Z.mul_1_l|].
  change (sp_p e * prod_primes (l ++ l') = sp_p e * prod_primes l * prod_primes l'). rewrite IH. ring.
Qed.

Lemma crt_mod_S i : (i < length primes)%nat -> crt_mod (S i) = crt_mod i * sp_p primes.[i].
Proof.
  intros Hi. unfold crt_mod. rewrite (take_S_r primes i primes.[i]) by by apply lookup_get.
  rewrite prod_primes_app. change (prod_primes [primes.[i]]) with (sp_p primes.[i] * 1). ring.
Qed.

Lemma prime_limb i : (i < length primes)%nat -> 0 < sp_p primes.[i] < 2 ^ 31.
Proof. intros Hi. pose proof (p_range (pe_good _ (primes_entry i Hi))). lia. Qed.

Lemma crt_mod_pos i : (i <= length primes)%nat -> 0 < crt_mod i.
Proof.
  induction i as [|i IH]; intros Hi; [done|]. rewrite crt_mod_S by lia.
  pose proof (prime_limb i ltac:(lia)). specialize (IH ltac:(lia)). nia.
Qed.

Lemma crt_mod_divide i e : (e < i <= length primes)%nat -> (sp_p primes.[e] | crt_mod i).
Proof.
  induction i as [|i IH]; intros [He Hi]; [lia|]. rewrite crt_mod_S by lia.
  destruct (decide (e = i)) as [->|]; [apply Z.divide_factor_r|]. apply Z.divide_mul_l, IH. lia.
Qed.

(** A difference that every prime divides is a multiple of their product. *)
Lemma crt_unique i d :
  (i <= length primes)%nat -> (forall e, (e < i)%nat -> (sp_p primes.[e] | d)) -> (crt_mod i | d).
Proof.
  induction i as [|i IH]; intros Hi Hd; [apply Z.divide_1_l|].
  rewrite crt_mod_S by lia. destruct (IH ltac:(lia) ltac:(auto)) as [d' Hd'].
  pose proof (primes_entry i ltac:(lia)) as Hpe. pose proof (primes_crt i ltac:(lia)) as Hs.
  fold (crt_mod i) in Hs. set (q := crt_mod i) in *. set (p := sp_p primes.[i]) in *. set (s := sp_s primes.[i]) in *.
  pose proof (Rinv_cong (pe_good _ Hpe)) as HR. fold p in HR. set (R' := mp_Rinv p (sp_p0i primes.[i])) in *.
  assert ((p | d')) as [d'' Hd''].
  { rewrite <- (Z.sub_0_r d').
    apply cong_iff_divide. transitivity (s * q * R' * d').
    - transitivity (2 ^ 32 * R' * d'); [rewrite HR; cong_ring|]. rewrite Hs. done.
    - transitivity (s * R' * d); [rewrite Hd'; cong_ring|].
      assert (d ==[p] 0) as -> by (apply cong_iff_divide; rewrite Z.sub_0_r; apply Hd; lia). cong_ring. }
  exists d''. rewrite Hd', Hd''. ring.
Qed.

Lemma crt_mod_odd i : (i <= length primes)%nat -> crt_mod i mod 2 = 1.
Proof.
  induction i as [|i IH]; intros Hi; [done|]. rewrite crt_mod_S by lia.
  destruct (p_odd (pe_good _ (primes_entry i ltac:(lia)))) as [h ->].
  rewrite Zmult_mod, IH by lia. replace (2 * h + 1) with (1 + h * 2) by lia. rewrite Z.mod_add by lia. done.
Qed.

(** * The reconstruction *)

(** The state of one integer after [i] primes: the low words hold its value
    modulo their product, the others the residues still to come. *)
Record crt_state (X : Z) (xlen i : nat) (c : list Z) : Prop := CrtState {
  cs_limb : forall t, (t < i)%nat -> limb c.[t];
  cs_value : nval (get c) i = X mod crt_mod i;
  cs_rest : forall e, (i <= e < xlen)%nat -> c.[e] = X mod sp_p primes.[e]
}.

Section Crt.
Context (num_sets n xlen : nat) (Hn : (0 < n)%nat) (Hxlen : (0 < xlen)%nat) (Hprimes : (xlen <= length primes)%nat).
Local Abbreviation cells := (cells n xlen).
Local Abbreviation offset := (offset num_sets n xlen).

Lemma zint_CRT_step_spec X i tmp o xx :
  (0 < i < xlen)%nat -> (forall t, (t < i)%nat -> limb tmp.[t]) -> nval (get tmp) i = crt_mod i ->
  (o + (xlen - 1) * n < length xx)%nat -> crt_state X xlen i (cells xx o) ->
  let xx' := zint_CRT_step i n tmp o xx in
  crt_state X xlen (S i) (cells xx' o) /\ length xx' = length xx /\
  (forall m, (forall w, (w < xlen)%nat -> m <> (o + w * n)%nat) -> xx'.[m] = xx.[m]).
Proof using Hn Hxlen Hprimes.
  intros Hi Htl Htv Hroom [Hcl Hcv Hcr]. cbv zeta. unfold zint_CRT_step.
  pose proof (primes_entry i ltac:(lia)) as Hpe. pose proof (pe_good _ Hpe) as Hg. pose proof (p_range Hg) as Hp.
  pose proof (primes_crt i ltac:(lia)) as Hs. fold (crt_mod i) in Hs.
  assert (xx.[o + i * n] = X mod sp_p primes.[i]) as Hxp by (rewrite <- (cells_get n xlen) by lia; apply Hcr; lia).
  set (p := sp_p primes.[i]) in *. set (p0i := sp_p0i primes.[i]) in *. rewrite Hxp.
  assert (number (drop o xx) n i) as Hnum.
  { split; [done|intros t Ht; rewrite length_drop; nia|]. intros t Ht.
    rewrite <- (cells_words n xlen) by lia. by apply Hcl. }
  assert (nval (words (drop o xx) n) i = X mod crt_mod i) as Hval.
  { rewrite <- Hcv. apply nval_ext. intros t Ht. symmetry. apply cells_words. lia. }
  destruct (zint_mod_small_unsigned_spec Hg (pe_r2 _ Hpe) _ i n Hnum) as [Hq Hqc]. rewrite Hval in Hqc.
  fold p p0i in Hq, Hqc. set (xq := zint_mod_small_unsigned _ _ _ _ _ _) in *.
  pose proof (Z.mod_pos_bound X p ltac:(lia)) as HXp.
  destruct (mp_sub_spec Hg _ _ HXp Hq) as [Hd Hdc]. fold p in Hd, Hdc.
  pose proof (mp_mmul_rep Hg _ _ (pe_s _ Hpe) Hd) as Hr. pose proof (mp_mmul_cong Hg _ _ (pe_s _ Hpe) Hd) as Hrc.
  fold p p0i in Hr, Hrc. set (xr := mp_mmul _ _ p p0i) in *.
  assert (crt_mod i * xr ==[p] X - X mod crt_mod i) as Hxr.
  { rewrite Hrc, Hdc, Hqc. transitivity (sp_s primes.[i] * crt_mod i * mp_Rinv p p0i * (X mod p - X mod crt_mod i)); [cong_ring|].
    rewrite Hs, mod_cong. transitivity (2 ^ 32 * mp_Rinv p p0i * (X - X mod crt_mod i)); [cong_ring|].
    rewrite (Rinv_cong Hg). cong_ring. }
  destruct (zint_add_mul_small_spec (drop o xx) i n tmp xr Hnum) as (HL & Hnum' & HV & HF);
    [rewrite length_drop; nia|unfold limb; lia|done|].
  cbv beta in HL, Hnum', HV, HF. set (f := fun d => zint_add_mul_small d i n tmp xr) in *.
  assert (o <= length xx)%nat as Ho by (clear - Hroom; pose proof (Nat.le_0_l ((xlen - 1) * n)); lia).
  destruct (at_spec o f xx Ho HL) as (HL' & HD & _).
  pose proof (at_frame o f xx n (S i) Ho HL) as HF'.
  assert (forall m, (forall t, (t < S i)%nat -> m <> (o + t * n)%nat) -> (at_ o f xx).[m] = xx.[m]) as HF2.
  { apply HF'. intros m Hm. apply HF. intros t Ht. apply Hm. lia. }
  split; [|split; [done|intros m Hm; apply HF2; intros t Ht; apply Hm; lia]].
  assert (forall t, (t < S i)%nat -> (cells (at_ o f xx) o).[t] = words (f (drop o xx)) n t) as Hcw.
  { intros t Ht. rewrite (cells_words n xlen), HD by lia. done. }
  constructor.
  - intros t Ht. rewrite Hcw by done. by apply Hnum'.
  - rewrite (nval_ext _ (words (f (drop o xx)) n)) by done. unfold f. rewrite HV, Hval, Htv.
    rewrite crt_mod_S by lia. fold p. pose proof (crt_mod_pos i ltac:(lia)) as Hq0.
    pose proof (Z.mod_pos_bound X (crt_mod i) Hq0) as HXq.
    apply (cong_small (crt_mod i * p)); [nia|apply Z.mod_pos_bound; nia|]. rewrite (mod_cong (crt_mod i * p) X).
    apply cong_iff_divide. destruct (proj1 (cong_iff_divide _ _ _) Hxr) as [c Hc].
    pose proof (Z.div_mod X (crt_mod i) ltac:(lia)) as HX.
    (* the difference is a multiple of the product, and of [p] *)
    change (crt_mod i * p) with (crt_mod i * sp_p primes.[i]). rewrite <- (crt_mod_S i) by lia. apply crt_unique; [lia|]. intros e He.
    destruct (decide (e = i)) as [->|].
    + fold p. exists c. lia.
    + apply (Z.divide_trans _ (crt_mod i)); [apply crt_mod_divide; lia|].
      exists (xr - X / crt_mod i). lia.
  - intros e He. rewrite (cells_get n xlen), HF2 by (lia || intros t Ht; nia).
    rewrite <- (cells_get n xlen) by lia. apply Hcr. lia.
Qed.

Lemma offset_last o L : offset o -> (num_sets * (n * xlen) <= L)%nat -> (o + (xlen - 1) * n < L)%nat.
Proof. clear Hn Hprimes. intros Ho HL. pose proof (offset_room num_sets n xlen Hxlen o (xlen - 1) Ho ltac:(lia)). lia. Qed.

(** The word scratch holds the product of the primes so far. *)
Definition modulus_words (i : nat) (tmp : list Z) : Prop :=
  (xlen <= length tmp)%nat /\ (forall t, (t < i)%nat -> limb tmp.[t]) /\ nval (get tmp) i = crt_mod i.

Lemma modulus_words_S i tmp :
  (0 < i < xlen)%nat -> modulus_words i tmp ->
  modulus_words (S i) (let '(tmp, cc) := zint_mul_small tmp i (sp_p primes.[i]) in tmp.[i <- cc]).
Proof.
  clear Hn Hxlen. intros Hi (HL & Hl & Hv). pose proof (prime_limb i ltac:(lia)) as Hp.
  pose proof (zint_mul_small_spec tmp i (sp_p primes.[i]) ltac:(lia) ltac:(unfold limb; lia) Hl) as H.
  destruct (zint_mul_small _ _ _) as [tmp' cc]. destruct H as (HL' & Hc & Hl' & HV & _).
  split; [rewrite length_set; lia|]. split.
  - intros t Ht. rewrite get_set by lia. case_decide; [done|]. apply Hl'. lia.
  - rewrite nval_S, get_set_eq by lia. rewrite (nval_ext _ (get tmp')) by (intros t Ht; apply get_set_ne; lia).
    rewrite HV, Hv, crt_mod_S by lia. ring.
Qed.

(** The representative around zero of a residue. *)
Definition centred (m x : Z) : Z := if decide (2 * (x mod m) < m) then x mod m else x mod m - m.

Lemma centred_small m x : - m < 2 * x < m -> centred m x = x.
Proof.
  intros Hx. unfold centred. destruct (decide (0 <= x)).
  - rewrite Z.mod_small by lia. by rewrite decide_True by lia.
  - replace (x mod m) with (x + m) by (apply (Z.mod_unique_pos _ _ (-1)); lia). rewrite decide_False by lia. lia.
Qed.

Lemma norm_step_spec X tmp o xx :
  modulus_words xlen tmp -> (o + (xlen - 1) * n < length xx)%nat -> crt_state X xlen xlen (cells xx o) ->
  let xx' := at_ o (fun d => zint_norm_zero d xlen n tmp) xx in
  ((forall t, (t < xlen)%nat -> limb (cells xx' o).[t]) /\ sval (get (cells xx' o)) xlen = centred (crt_mod xlen) X) /\
  length xx' = length xx /\
  (forall m, (forall w, (w < xlen)%nat -> m <> (o + w * n)%nat) -> xx'.[m] = xx.[m]).
Proof using Hn Hxlen Hprimes.
  intros (HT & Htl & Htv) Hroom [Hcl Hcv _]. cbv zeta.
  assert (number (drop o xx) n xlen) as Hnum.
  { split; [done|intros t Ht; rewrite length_drop; nia|]. intros t Ht. rewrite <- (cells_words n xlen) by lia. by apply Hcl. }
  assert (nval (words (drop o xx) n) xlen = X mod crt_mod xlen) as Hval.
  { rewrite <- Hcv. apply nval_ext. intros t Ht. symmetry. by apply cells_words. }
  assert (tmp.[0] mod 2 = 1) as Hodd.
  { pose proof (crt_mod_odd xlen Hprimes) as Ho. rewrite <- Htv in Ho. destruct xlen as [|k]; [lia|].
    rewrite nval_low in Ho. rewrite <- Ho. symmetry.
    replace (2 ^ 31 * nval (fun i => tmp.[S i]) k) with (2 ^ 30 * nval (fun i => tmp.[S i]) k * 2) by lia.
    apply Z.mod_add. lia. }
  pose proof (Z.mod_pos_bound X (crt_mod xlen) (crt_mod_pos _ Hprimes)) as HXq.
  destruct (zint_norm_zero_spec (drop o xx) xlen n tmp Hnum Htl Hodd Hxlen) as (HL & Hnum' & HV & HF); [lia|].
  cbv beta in *. set (f := fun d => zint_norm_zero d xlen n tmp) in *.
  assert (o <= length xx)%nat as Ho by (clear - Hroom; pose proof (Nat.le_0_l ((xlen - 1) * n)); lia).
  destruct (at_spec o f xx Ho HL) as (HL' & HD & _). pose proof (at_frame o f xx n xlen Ho HL HF) as HF'.
  split; [|split; done].
  assert (forall t, (t < xlen)%nat -> (cells (at_ o f xx) o).[t] = words (f (drop o xx)) n t) as Hcw.
  { intros t Ht. by rewrite (cells_words n xlen), HD by lia. }
  split; [intros t Ht; rewrite Hcw by done; by apply Hnum'|].
  transitivity (sval (words (f (drop o xx)) n) xlen).
  - unfold sval. rewrite (nval_ext _ (words (f (drop o xx)) n)) by done. by rewrite Hcw by lia.
  - unfold f. rewrite HV, Hval, Htv. done.
Qed.

(** The reconstruction of any integers from their residues. *)
Lemma zint_rebuild_CRT_spec (X : nat -> Z) (signed : bool) xx tmp :
  (num_sets * (n * xlen) <= length xx)%nat -> (xlen <= length tmp)%nat ->
  (forall o e, offset o -> (e < xlen)%nat -> xx.[o + e * n] = X o mod sp_p primes.[e]) ->
  let '(xx', tmp') := zint_rebuild_CRT xx xlen n num_sets signed tmp in
  length xx' = length xx /\
  (forall o, offset o ->
     (forall t, (t < xlen)%nat -> limb (cells xx' o).[t]) /\
     (if signed then sval (get (cells xx' o)) xlen = centred (crt_mod xlen) (X o)
      else nval (get (cells xx' o)) xlen = X o mod crt_mod xlen)) /\
  (forall m, (num_sets * (n * xlen) <= m)%nat -> xx'.[m] = xx.[m]).
Proof using Hn Hxlen Hprimes.
  intros HL HT HX. unfold zint_rebuild_CRT. set (tmp0 := tmp.[0 <- sp_p primes.[0]]).
  match goal with |- context [for_ (xlen - 1) ?f (xx, tmp0)] => set (body := f) end.
  set (I := fun (i' : nat) (st : list Z * list Z) => length (fst st) = length xx /\ modulus_words (S i') (snd st) /\
    (forall o, offset o -> crt_state (X o) xlen (S i') (cells (fst st) o)) /\
    (forall m, (num_sets * (n * xlen) <= m)%nat -> (fst st).[m] = xx.[m])).
  assert (I (xlen - 1)%nat (for_ (xlen - 1) body (xx, tmp0))) as HI.
  { pose proof (crt_mod_S 0 ltac:(lia)) as H1. change (crt_mod 0) with 1 in H1. rewrite Z.mul_1_l in H1.
    apply (for_ind I).
    - split; [done|]. pose proof (prime_limb 0 ltac:(lia)) as Hp. split; [split; [|split]|split; [|done]].
      + unfold tmp0. cbn [snd]. rewrite length_set. lia.
      + intros t Ht. replace t with 0%nat by lia. unfold tmp0. cbn [snd]. rewrite get_set_eq by lia. unfold limb. lia.
      + rewrite nval_S. unfold nval. cbn [zsum snd]. unfold tmp0. rewrite get_set_eq, pw_0, H1 by lia. ring.
      + intros o Ho. cbn [fst].
        assert (forall e, (e < xlen)%nat -> (cells xx o).[e] = X o mod sp_p primes.[e]) as Hc
          by (intros e He; rewrite (cells_get n xlen) by lia; by apply HX).
        constructor; [|rewrite nval_S; unfold nval; cbn [zsum]|intros; apply Hc; lia].
        * intros t Ht. rewrite Hc by lia. replace t with 0%nat by lia.
          pose proof (Z.mod_pos_bound (X o) _ (proj1 Hp)) as HXo. unfold limb. lia.
        * rewrite Hc, pw_0, H1 by lia. ring.
    - intros i' [yy tm] Hi (IL & IT & IC & IF). cbn [fst snd] in *. unfold body.
      pose proof (for_sets_spec num_sets n xlen Hxlen (zint_CRT_step (S i') n tm)
        (fun o => crt_state (X o) xlen (S i')) (fun o => crt_state (X o) xlen (S (S i'))) (length xx) yy) as Hs.
      pose proof (modulus_words_S (S i') tm ltac:(lia) IT) as HT'.
      destruct (zint_mul_small tm (S i') (sp_p primes.[S i'])) as [tm' cc].
      destruct Hs as (SL & SQ & SF); [|done|done|].
      { intros o zz Ho HLz HP. rewrite <- HLz. apply zint_CRT_step_spec; [lia|apply IT..| |done].
        rewrite HLz. by apply offset_last. }
      split; [done|]. split; [done|]. split; [done|]. intros m Hm. cbn [fst]. by rewrite SF, IF. }
  destruct (for_ (xlen - 1) body (xx, tmp0)) as [yy tm]. destruct HI as (IL & IT & IC & IF). cbn [fst snd] in *.
  replace (S (xlen - 1)) with xlen in * by lia.
  destruct signed.
  - destruct (for_sets_spec num_sets n xlen Hxlen (fun o => at_ o (fun d => zint_norm_zero d xlen n tm))
        (fun o => crt_state (X o) xlen xlen)
        (fun o c => (forall t, (t < xlen)%nat -> limb c.[t]) /\ sval (get c) xlen = centred (crt_mod xlen) (X o))
        (length xx) yy) as (SL & SQ & SF); [|done|done|].
    + intros o zz Ho HLz HP. rewrite <- HLz. apply norm_step_spec; [done| |done]. rewrite HLz. by apply offset_last.
    + split; [done|]. split; [done|]. intros m Hm. by rewrite SF, IF.
  - split; [done|]. split; [|done]. intros o Ho. destruct (IC o Ho) as [H1 H2 _]. done.
Qed.
End Crt.
