(* ===== verification/ZintGcd.v ===== *)
(** The extended binary GCD of big integers ([zint_bezout]).

    A round keeps the relations a = x u0 (mod y), a = - y v0 (mod x) and the same
    for b, u1 and v1, whatever the approximations it decides by. *)
From Stdlib Require Import ZArith Lia Znumtheory.
From stdpp Require Import base numbers list.
From S2P Require Import Prelude Mq Ntt Mp31Tables Mp31 Zint31 Zint31Facts.
Local Open Scope Z_scope.

(** * Lists of limbs *)

Definition limbs (len : nat) (a : list Z) : Prop := (len <= length a)%nat /\ forall i, (i < len)%nat -> limb a.[i].

Lemma limbs_range len a : limbs len a -> 0 <= nval (get a) len < pw len.
Proof. intros [_ H]. by apply nval_range. Qed.

Lemma ones31_sub a : limb a -> a .^ 0x7FFFFFFF = 2 ^ 31 - 1 - a.
Proof.
  unfold limb. intros Ha. change 0x7FFFFFFF with (Z.ones 31).
  assert (Z.ldiff a (Z.ones 31) = 0) as E0.
  { rewrite Z.ldiff_ones_r, shr_div, Z.div_small by lia. apply Z.shiftl_0_l. }
  assert (a .^ Z.ones 31 = Z.ldiff a (Z.ones 31) .| Z.ldiff (Z.ones 31) a) as ->.
  { apply Z.bits_inj'. intros n Hn. rewrite Z.lxor_spec, Z.lor_spec, !Z.ldiff_spec.
    by destruct (Z.testbit a n), (Z.testbit (Z.ones 31) n). }
  rewrite E0, Z.lor_0_l, <- Z.sub_nocarry_ldiff by done. reflexivity.
Qed.

(** * Negation *)

Definition negate_step (m : Z) (i : nat) (aw cc : Z) : Z * Z :=
  let aw := (aw .^ m) +% cc in (aw .& 0x7FFFFFFF, aw .>> 31).

Lemma zint_negate_loop a len ctl :
  zint_negate a len ctl = fst (carry_loop (negate_step (ctl .>> 1)) (fun i => i) len a (-% ctl)).
Proof. reflexivity. Qed.

Lemma word_split w : 0 <= w < 2 ^ 32 -> limb (w .& 0x7FFFFFFF) /\ borrow (w .>> 31) /\ w .& 0x7FFFFFFF + 2 ^ 31 * (w .>> 31) = w.
Proof.
  intros Hw. destruct (low31_word w Hw) as (E1 & E2 & H2). rewrite E1, E2.
  split; [apply mod31_limb|]. split; [unfold borrow; lia|apply split31].
Qed.

Lemma nval_sub f g len : nval (fun i => f i - g i) len = nval f len - nval g len.
Proof. unfold nval. rewrite <- (Z.add_opp_r (zsum _ _)), <- zsum_opp, <- zsum_plus. apply zsum_ext. intros. ring. Qed.

(** All limbs at their largest. *)
Lemma nval_ones len : nval (fun _ => 2 ^ 31 - 1) len = pw len - 1.
Proof. induction len as [|len IH]; [done|]. rewrite nval_S, IH, pw_S. ring. Qed.

Lemma zint_negate_spec a len (neg : bool) :
  limbs len a ->
  let a' := zint_negate a len (if neg then Z.ones 32 else 0) in
  limbs len a' /\ length a' = length a /\
  nval (get a') len = if neg then (- nval (get a) len) mod pw len else nval (get a) len.
Proof.
  intros Ha. destruct Ha as [HL Hl]. cbv zeta. rewrite zint_negate_loop.
  pose proof (nval_range (get a) len Hl) as Hr. pose proof (pw_pos len) as Hp. destruct neg.
  - change (-% Z.ones 32) with 1. change (Z.ones 32 .>> 1) with 0x7FFFFFFF.
    pose proof (carry_loop_value (negate_step 0x7FFFFFFF) (fun c => c) borrow (fun i => (2 ^ 31 - 1) - a.[i])
      (fun i => i) len a 1 ltac:(auto) ltac:(lia)) as H.
    destruct (carry_loop _ _ len a 1) as [a' c]. cbn [fst]. destruct H as (HL' & Hc & Hw & HV & _); [by right| |].
    { intros i cc Hi Hc. unfold negate_step. pose proof (Hl i Hi) as Hai. rewrite ones31_sub by done. unfold limb, borrow in *.
      destruct (word_split ((2 ^ 31 - 1 - a.[i]) +% cc)) as (H1 & H2 & H3); [apply u32_range|].
      rewrite (u32_small (_ + cc)) in * by lia. done. }
    split; [split; [lia|done]|]. split; [done|]. pose proof (nval_range _ len Hw) as Hr'.
    rewrite nval_sub, nval_ones in HV. change (fun i => a'.[i]) with (get a') in *. change (fun i => a.[i]) with (get a) in HV.
    apply (Z.mod_unique_pos _ _ (- (1 - c))); [done|]. destruct Hc as [-> | ->]; lia.
  - change (-% 0) with 0. change (0 .>> 1) with 0.
    pose proof (carry_loop_value (negate_step 0) (fun c => c) (fun c => c = 0) (get a)
      (fun i => i) len a 0 ltac:(auto) ltac:(lia)) as H.
    destruct (carry_loop _ _ len a 0) as [a' c]. cbn [fst]. destruct H as (HL' & -> & Hw & HV & _); [done| |].
    { intros i cc Hi ->. unfold negate_step. pose proof (Hl i Hi) as Hai. rewrite Z.lxor_0_r, Z.add_0_r. unfold limb in Hai.
      rewrite (u32_small a.[i]), shr31_bit by lia. rewrite decide_True by lia.
      destruct (low31_word a.[i]) as (-> & _); [lia|]. rewrite Z.mod_small by lia. unfold limb. lia. }
    split; [split; [lia|done]|]. split; [done|]. change (fun i => a'.[i]) with (get a') in HV. lia.
Qed.

(** * The loop of the two linear combinations *)

Section CoLoop.
Context (len : nat) (a b : list Z) (Hlen : (0 < len)%nat) (Ha : limbs len a) (Hb : limbs len b).
Context (Za Zb : nat -> Z -> Z -> Z -> Z) (ta tb : nat -> Z) (C : Z -> Prop).
Context (HC : C 0)
  (HZa : forall i c, (i < len)%nat -> C c -> 0 <= Za i a.[i] b.[i] c < 2 ^ 64 /\ i64 (Za i a.[i] b.[i] c) = ta i + c /\ C ((ta i + c) / 2 ^ 31))
  (HZb : forall i c, (i < len)%nat -> C c -> 0 <= Zb i a.[i] b.[i] c < 2 ^ 64 /\ i64 (Zb i a.[i] b.[i] c) = tb i + c /\ C ((tb i + c) / 2 ^ 31)).

(** The words and the carries of a sum of terms. *)
Definition sum_step (t : nat -> Z) (i : nat) (_ cc : Z) : Z * Z := ((t i + cc) mod 2 ^ 31, (t i + cc) / 2 ^ 31).
Definition sum_word (t : nat -> Z) (i : nat) : Z := word_out (sum_step t) (fun _ => 0) 0 i.
Definition sum_carry (t : nat -> Z) (i : nat) : Z := carry_in (sum_step t) (fun _ => 0) 0 i.

Lemma sum_word_value t k : nval (sum_word t) k + sum_carry t k * pw k = nval t k.
Proof.
  clear Hlen Ha Hb HC HZa HZb.
  pose proof (carry_sum (sum_step t) (fun c => c) (fun _ => 0) 0 t k) as H. rewrite Z.add_0_r in H. apply H.
  intros i Hi. unfold word_out. cbn [carry_in sum_step fst snd]. apply split31.
Qed.

Definition co_body (i : nat) : list Z * list Z * Z * Z -> list Z * list Z * Z * Z := fun '(a, b, cca, ccb) =>
  let za := Za i a.[i] b.[i] cca in
  let zb := Zb i a.[i] b.[i] ccb in
  (if (0 <? i)%nat then a.[i - 1 <- u32 za .& 0x7FFFFFFF] else a,
   if (0 <? i)%nat then b.[i - 1 <- u32 zb .& 0x7FFFFFFF] else b,
   i64 za .>> 31, i64 zb .>> 31).

Lemma i64_low z v : 0 <= z < 2 ^ 64 -> i64 z = v -> u32 z .& 0x7FFFFFFF = v mod 2 ^ 31.
Proof.
  clear. intros Hz <-. rewrite low31 by done. unfold i64. rewrite u64_mod.
  rewrite Zminus_mod, Z.mod_mod_divide, <- Zminus_mod by (by exists (2 ^ 33)). f_equal. lia.
Qed.

Lemma co_loop_spec :
  let '(a', b', cca, ccb) := for_ len co_body (a, b, 0, 0) in
  length a' = length a /\ length b' = length b /\ cca = sum_carry ta len /\ ccb = sum_carry tb len /\
  C cca /\ C ccb /\
  (forall i, (S i < len)%nat -> a'.[i] = sum_word ta (S i) /\ b'.[i] = sum_word tb (S i)).
Proof.
  destruct Ha as [La _], Hb as [Lb _].
  set (I := fun (k : nat) (st : list Z * list Z * Z * Z) => let '(a', b', cca, ccb) := st in
    length a' = length a /\ length b' = length b /\ cca = sum_carry ta k /\ ccb = sum_carry tb k /\ C cca /\ C ccb /\
    (forall i, (S i < k)%nat -> a'.[i] = sum_word ta (S i) /\ b'.[i] = sum_word tb (S i)) /\
    (forall i, (k <= S i)%nat -> a'.[i] = a.[i] /\ b'.[i] = b.[i])).
  enough (I len (for_ len co_body (a, b, 0, 0))) as H.
  { destruct (for_ len co_body _) as [[[a' b'] cca] ccb]. unfold I in H. tauto. }
  apply (for_ind I).
  { repeat split; try done; lia. }
  intros k [[[a' b'] cca] ccb] Hk (L1 & L2 & Eca & Ecb & Cca & Ccb & IW & IU). unfold co_body.
  destruct (IU k ltac:(lia)) as [-> ->].
  destruct (HZa k cca Hk Cca) as (Ra & Ia & Ca). destruct (HZb k ccb Hk Ccb) as (Rb & Ib & Cb).
  rewrite !(i64_low _ _ Ra Ia), !(i64_low _ _ Rb Ib), Ia, Ib, !shr_div by lia.
  unfold I. split; [by destruct (0 <? k)%nat; rewrite ?length_set|]. split; [by destruct (0 <? k)%nat; rewrite ?length_set|].
  split; [by rewrite Eca|]. split; [by rewrite Ecb|]. split; [done|]. split; [done|]. split.
  - intros i Hi. destruct (Nat.ltb_spec 0 k); [|lia]. rewrite !get_set by lia.
    case_decide as E.
    + assert (k = S i) as -> by lia. rewrite Eca, Ecb. done.
    + apply IW. lia.
  - intros i Hi. destruct (Nat.ltb_spec 0 k); [|apply IU; lia]. rewrite !get_set_ne by lia. apply IU. lia.
Qed.

(** The words after the lowest, with the carry on top, are the quotient. *)
Lemma sum_quotient t v (w : nat -> Z) :
  nval t len = 2 ^ 31 * v -> (forall i, (S i < len)%nat -> w i = sum_word t (S i)) ->
  nval w (len - 1) + sum_carry t len * pw (len - 1) = v.
Proof.
  clear Ha Hb HC HZa HZb. intros Hv Hw. pose proof (sum_word_value t len) as H. destruct len as [|k]; [lia|].
  replace (S k - 1)%nat with k by lia. rewrite nval_low, pw_S in H.
  rewrite (nval_ext w (fun i => sum_word t (S i))) by (intros; apply Hw; lia).
  pose proof (mod31_limb (t 0%nat + 0)) as H0. change (limb (sum_word t 0)) in H0. unfold limb in H0.
  set (N := nval (fun i => sum_word t (S i)) k) in *. set (c := sum_carry t (S k)) in *. set (w0 := sum_word t 0) in *.
  assert (2 ^ 31 * (v - N - c * pw k) = w0) as E by lia.
  assert (v - N - c * pw k = 0) by lia. lia.
Qed.

Lemma sum_word_limb t i : limb (sum_word t i).
Proof. apply mod31_limb. Qed.
End CoLoop.

Lemma u64_cong x : u64 x ==[2 ^ 64] x.
Proof. rewrite u64_mod. apply mod_cong. Qed.
Lemma u32_cong x : u32 x ==[2 ^ 32] x.
Proof. rewrite u32_mod. apply mod_cong. Qed.

Lemma u64_eq x y : x ==[2 ^ 64] y -> u64 x = u64 y.
Proof. intros [H]. by rewrite !u64_mod. Qed.
Lemma u32_eq x y : x ==[2 ^ 32] y -> u32 x = u32 y.
Proof. intros [H]. by rewrite !u32_mod. Qed.

Lemma i64_u64 v : - 2 ^ 63 <= v < 2 ^ 63 -> i64 (u64 v) = v.
Proof.
  intros Hv. unfold i64. rewrite (u64_eq (u64 v + _) (v + 9223372036854775808)) by (by rewrite u64_cong).
  rewrite u64_small by lia. lia.
Qed.

Lemma abs_comb A B M f g : 0 <= A <= M -> 0 <= B <= M -> Z.abs f + Z.abs g <= 2 ^ 31 -> Z.abs (A * f + B * g) <= M * 2 ^ 31.
Proof. intros HA HB Hfg. assert (Z.abs (A * f) <= M * Z.abs f /\ Z.abs (B * g) <= M * Z.abs g) by (rewrite !Z.abs_mul; nia). nia. Qed.

Definition co_carry (c : Z) : Prop := - 2 ^ 31 <= c <= 2 ^ 31.

Lemma co_step wa wb xa xb c :
  limb wa -> limb wb -> Z.abs xa + Z.abs xb <= 2 ^ 31 -> co_carry c ->
  let z := u64 (u64 (u64 (wa * u64 xa) + u64 (wb * u64 xb)) + u64 c) in
  0 <= z < 2 ^ 64 /\ i64 z = (wa * xa + wb * xb) + c /\ co_carry ((wa * xa + wb * xb + c) / 2 ^ 31).
Proof.
  unfold limb, co_carry. intros Ha Hb Hx Hc. cbv zeta.
  pose proof (abs_comb wa wb (2 ^ 31 - 1) xa xb ltac:(lia) ltac:(lia) Hx) as Habs.
  split; [apply u64_range|]. split.
  - rewrite (u64_eq _ (wa * xa + wb * xb + c)) by (by rewrite !u64_cong). apply i64_u64. lia.
  - set (v := wa * xa + wb * xb) in *. Z.to_euclidean_division_equations. lia.
Qed.

(** The sign of a combination, and its absolute value. *)
Lemma co_result len a (c v : Z) :
  (0 < len)%nat -> (len <= length a)%nat -> (forall i, (S i < len)%nat -> limb a.[i]) ->
  nval (get a) (len - 1) + c * pw (len - 1) = v -> - pw len < v < pw len ->
  let a1 := a.[len - 1 <- u32 c .& 0x7FFFFFFF] in
  let neg := u32 (c .>> 63) in
  co_carry c ->
  neg = (if decide (v < 0) then Z.ones 32 else 0) /\
  limbs len (zint_negate a1 len neg) /\ length (zint_negate a1 len neg) = length a /\
  nval (get (zint_negate a1 len neg)) len = Z.abs v.
Proof.
  intros Hlen HL Hl Hv Hb. cbv zeta. unfold co_carry. intros Hc.
  destruct len as [|k]; [lia|]. replace (S k - 1)%nat with k in * by lia. rewrite pw_S in Hb.
  pose proof (nval_range (get a) k ltac:(intros; apply Hl; lia)) as Hr. pose proof (pw_pos k) as Hp.
  set (top := u32 c .& 0x7FFFFFFF).
  assert (top = c mod 2 ^ 31) as Htop.
  { unfold top. destruct (low31_word (u32 c) (u32_range c)) as (-> & _). rewrite u32_mod. apply Z.mod_mod_divide. by exists 2. }
  assert (- 2 ^ 31 <= c < 2 ^ 31 /\ (c < 0 <-> v < 0)) as [Hc' Hsign] by nia.
  assert (u32 (c .>> 63) = if decide (v < 0) then Z.ones 32 else 0) as ->.
  { rewrite shr_div by lia. case_decide.
    - replace (c / 2 ^ 63) with (-1) by (apply (Z.div_unique_pos _ _ _ (c + 2 ^ 63)); lia). done.
    - rewrite Z.div_small by lia. done. }
  assert (limbs (S k) a.[k <- top]) as Hlimbs.
  { split; [rewrite length_set; lia|]. intros i Hi. rewrite get_set by lia. case_decide; [rewrite Htop; apply mod31_limb|apply Hl; lia]. }
  assert (nval (get a.[k <- top]) (S k) = if decide (v < 0) then v + 2 ^ 31 * pw k else v) as Hval.
  { rewrite nval_S, get_set_eq, Htop by lia. rewrite (nval_ext _ (get a)) by (intros; apply get_set_ne; lia).
    case_decide.
    - replace (c mod 2 ^ 31) with (c + 2 ^ 31) by (apply (Z.mod_unique_pos _ _ (-1)); lia). lia.
    - rewrite Z.mod_small by lia. lia. }
  split; [done|].
  destruct (zint_negate_spec _ (S k) (if decide (v < 0) then true else false) Hlimbs) as (H1 & H2 & H3).
  rewrite Hval, pw_S, length_set in *. destruct (decide (v < 0)).
  - split; [done|]. split; [done|]. rewrite H3. symmetry. apply (Z.mod_unique_pos _ _ (-1)); lia.
  - split; [done|]. split; [done|]. lia.
Qed.

Definition neg_bits (A B : Z) : Z := (if decide (A < 0) then 1 else 0) + 2 * (if decide (B < 0) then 1 else 0).

Lemma zint_co_reduce_spec a b len xa xb ya yb A B :
  (0 < len)%nat -> limbs len a -> limbs len b ->
  Z.abs xa + Z.abs xb <= 2 ^ 31 -> Z.abs ya + Z.abs yb <= 2 ^ 31 ->
  nval (get a) len * xa + nval (get b) len * xb = 2 ^ 31 * A ->
  nval (get a) len * ya + nval (get b) len * yb = 2 ^ 31 * B ->
  let '(a', b', neg) := zint_co_reduce a b len xa xb ya yb in
  (limbs len a' /\ length a' = length a /\ nval (get a') len = Z.abs A) /\
  (limbs len b' /\ length b' = length b /\ nval (get b') len = Z.abs B) /\ neg = neg_bits A B.
Proof.
  intros Hlen Ha Hb Hx Hy HA HB. unfold zint_co_reduce.
  assert (0 <= nval (get a) len <= pw len - 1) as Ra by (pose proof (limbs_range _ _ Ha); lia).
  assert (0 <= nval (get b) len <= pw len - 1) as Rb by (pose proof (limbs_range _ _ Hb); lia).
  pose proof (co_loop_spec len a b Hlen Ha Hb
    (fun _ wa wb c => u64 (u64 (u64 (wa * u64 xa) + u64 (wb * u64 xb)) + u64 c))
    (fun _ wa wb c => u64 (u64 (u64 (wa * u64 ya) + u64 (wb * u64 yb)) + u64 c))
    (fun i => a.[i] * xa + b.[i] * xb) (fun i => a.[i] * ya + b.[i] * yb) co_carry) as H.
  unfold co_body in H. destruct (for_ len _ _) as [[[a' b'] cca] ccb].
  destruct H as (La & Lb & Eca & Ecb & Hca & Hcb & HW).
  { unfold co_carry. lia. }
  { intros i c Hi Hc. apply co_step; try done; [by apply Ha|by apply Hb]. }
  { intros i c Hi Hc. apply co_step; try done; [by apply Ha|by apply Hb]. }
  assert (forall x y, nval (fun i => a.[i] * x + b.[i] * y) len = nval (get a) len * x + nval (get b) len * y) as Hlin.
  { intros x y. unfold nval. rewrite <- !zsum_mul_r, <- zsum_plus. apply zsum_ext. intros. ring. }
  assert (- pw len < A < pw len) as HAb by (pose proof (abs_comb (nval (get a) len) (nval (get b) len) (pw len - 1) xa xb Ra Rb Hx) as Hc; rewrite HA in Hc; clear - Hc; lia).
  assert (- pw len < B < pw len) as HBb by (pose proof (abs_comb (nval (get a) len) (nval (get b) len) (pw len - 1) ya yb Ra Rb Hy) as Hc; rewrite HB in Hc; clear - Hc; lia).
  destruct Ha as [HLa _], Hb as [HLb _].
  destruct (co_result len a' cca A) as (En & HA1 & HA2 & HA3); [done|lia| | |done|done|].
  { intros i Hi. rewrite (proj1 (HW i Hi)). apply sum_word_limb. }
  { rewrite Eca. apply (sum_quotient len Hlen _ A); [by rewrite Hlin|apply HW]. }
  destruct (co_result len b' ccb B) as (En' & HB1 & HB2 & HB3); [done|lia| | |done|done|].
  { intros i Hi. rewrite (proj2 (HW i Hi)). apply sum_word_limb. }
  { rewrite Ecb. apply (sum_quotient len Hlen _ B); [by rewrite Hlin|apply HW]. }
  split; [split; [done|split; [lia|done]]|]. split; [split; [done|split; [lia|done]]|].
  rewrite En, En'. unfold neg_bits. by repeat case_decide.
Qed.

(** * The end of a modular reduction *)

Definition finish_step (mw : nat -> Z) (i : nat) (aw cc : Z) : Z * Z :=
  let aw := aw -% mw i -% cc in (aw .& 0x7FFFFFFF, aw .>> 31).

(** The subtraction, when the top word may use 32 bits. *)
Lemma finish_sub len a mw cc :
  (0 < len)%nat -> (len <= length a)%nat -> (forall i, (S i < len)%nat -> limb a.[i]) ->
  (forall i, (i < len)%nat -> limb (mw i)) -> borrow cc ->
  let a' := fst (carry_loop (finish_step mw) (fun i => i) len a cc) in
  limbs len a' /\ length a' = length a /\
  nval (get a') len = (nval (get a) len - nval mw len - cc) mod pw len.
Proof.
  intros Hlen HL Hl Hm Hcc. cbv zeta. destruct len as [|k]; [lia|]. unfold carry_loop. rewrite for_S.
  fold (carry_loop (finish_step mw) (fun i => i) k a cc).
  pose proof (carry_loop_value (finish_step mw) Z.opp borrow (fun i => a.[i] - mw i)
    (fun i => i) k a cc ltac:(auto) ltac:(lia) Hcc) as H.
  destruct (carry_loop _ _ k a cc) as [a' c]. destruct H as (HL' & Hc & Hw & HV & HO).
  { intros i c0 Hi Hc0. apply sub_word_spec; [apply Hl; lia|apply Hm; lia|done]. }
  rewrite nval_sub in HV. change (fun i => a.[i]) with (get a) in HV. change (fun i => a'.[i]) with (get a') in HV.
  assert (a'.[k] = a.[k]) as Ek by (apply HO; lia). unfold finish_step. cbn [fst]. rewrite Ek.
  set (t := a.[k] - mw k - c).
  assert ((a.[k] -% mw k -% c) .& 0x7FFFFFFF = t mod 2 ^ 31) as ->.
  { destruct (low31_word _ (u32_range ((a.[k] -% mw k) - c))) as (-> & _). unfold t.
    rewrite (u32_eq _ (a.[k] - mw k - c)) by (by rewrite u32_cong). rewrite u32_mod. apply Z.mod_mod_divide. by exists 2. }
  assert (limbs (S k) a'.[k <- t mod 2 ^ 31]) as Hl'.
  { split; [rewrite length_set; lia|]. intros i Hi. rewrite get_set by lia. case_decide; [apply mod31_limb|apply Hw; lia]. }
  split; [done|]. split; [rewrite length_set; lia|]. pose proof (limbs_range _ _ Hl') as Hr.
  rewrite nval_S, get_set_eq in * by lia. rewrite (nval_ext _ (get a')) in * by (intros; apply get_set_ne; lia).
  rewrite !nval_S. pose proof (split31 t). apply (Z.mod_unique_pos _ _ (t / 2 ^ 31)); [lia|].
  rewrite pw_S. unfold t in *. nia.
Qed.

(** The comparison pass. *)
Lemma finish_cmp len a m v :
  (0 < len)%nat -> (forall i, (S i < len)%nat -> limb a.[i]) -> limbs len m ->
  nval (get a) len = v -> - nval (get m) len <= v - nval (get m) len < nval (get m) len ->
  for_ len (fun i cc => (a.[i] -% m.[i] -% cc) .>> 31) 0 = if decide (v < nval (get m) len) then 1 else 0.
Proof.
  intros Hlen Hl [HLm Hm] Hv Hb. pose proof (nval_range (get m) len Hm) as HM.
  destruct len as [|k]; [lia|]. rewrite for_S.
  assert (borrow (for_ k (fun i cc => (a.[i] -% m.[i] -% cc) .>> 31) 0) /\
    0 <= nval (get a) k - nval (get m) k + for_ k (fun i cc => (a.[i] -% m.[i] -% cc) .>> 31) 0 * pw k < pw k) as [Hc Hr].
  { apply (for_ind (fun k cc => borrow cc /\ 0 <= nval (get a) k - nval (get m) k + cc * pw k < pw k)).
    - split; [by left|]. rewrite pw_0. cbn. lia.
    - intros i cc Hi [Hc Hr]. destruct (sub_word_spec a.[i] m.[i] cc) as (H1 & H2 & H3); [apply Hl; lia|apply Hm; lia|done|].
      split; [done|]. rewrite !nval_S, pw_S. unfold limb in H1. set (w := a.[i] -% m.[i] -% cc) in *. nia. }
  set (c := for_ k _ 0) in *. rewrite !nval_S, pw_S in *. pose proof (Hm k ltac:(lia)) as Hmk. unfold limb in Hmk.
  pose proof (pw_pos k). set (t := a.[k] - m.[k] - c).
  assert (nval (get a) k + a.[k] * pw k - (nval (get m) k + m.[k] * pw k) =
    (nval (get a) k - nval (get m) k + c * pw k) + t * pw k) as Et by (unfold t; ring).
  assert (- 2 ^ 31 <= t < 2 ^ 31) as Ht by nia.
  rewrite (u32_eq _ t) by (unfold t; by rewrite u32_cong). case_decide.
  - assert (t < 0) by nia. rewrite u32_neg, shr31_bit by lia. by rewrite decide_False by lia.
  - assert (0 <= t) by nia. rewrite u32_small, shr31_bit by lia. by rewrite decide_True by lia.
Qed.

Lemma zint_finish_mod_spec len a m v :
  (0 < len)%nat -> (len <= length a)%nat -> (forall i, (S i < len)%nat -> limb a.[i]) -> limbs len m ->
  let M := nval (get m) len in
  - M <= v < 2 * M -> nval (get a) len = (if decide (v < 0) then v + 2 * pw len else v) ->
  let a' := zint_finish_mod a m len (if decide (v < 0) then 1 else 0) in
  limbs len a' /\ length a' = length a /\ nval (get a') len = v mod M.
Proof.
  intros Hlen HL Hl Hm. cbv zeta. set (M := nval (get m) len). intros Hv Ha.
  pose proof (limbs_range _ _ Hm) as HM. fold M in HM. unfold zint_finish_mod.
  set (cc := for_ len (fun i cc => (a.[i] -% m.[i] -% cc) .>> 31) 0).
  assert (forall neg xm ym, borrow neg ->
    fst (for_ len (fun i '(a, cc) => let mw := (m.[i] .^ xm) .& ym in let aw := a.[i] -% mw -% cc in
      (a.[i <- aw .& 0x7FFFFFFF], aw .>> 31)) (a, neg)) =
    fst (carry_loop (finish_step (fun i => (m.[i] .^ xm) .& ym)) (fun i => i) len a neg)) as Hloop by done.
  cbv zeta. destruct (decide (v < 0)) as [Hneg|Hpos].
  - assert (cc = 0 \/ cc = 1) as Hcc.
    { unfold cc. destruct len as [|k]; [lia|]. rewrite for_S. destruct (word_split _ (u32_range (a.[k] -% m.[k] - for_ k (fun i cc => (a.[i] -% m.[i] -% cc) .>> 31) 0))) as (_ & H & _). exact H. }
    assert (-% (1 .| (1 -% cc)) = Z.ones 32) as -> by (destruct Hcc as [-> | ->]; reflexivity).
    change ((-% 1) .>> 1) with 0x7FFFFFFF.
    assert (forall i, (i < len)%nat -> (m.[i] .^ 0x7FFFFFFF) .& Z.ones 32 = 2 ^ 31 - 1 - m.[i]) as Hmw.
    { intros i Hi. pose proof (proj2 Hm i Hi) as Hmi. rewrite ones31_sub by done. unfold limb in Hmi. apply land_ones_small; lia. }
    destruct (finish_sub len a (fun i => (m.[i] .^ 0x7FFFFFFF) .& Z.ones 32) 1) as (H1 & H2 & H3); try done.
    { intros i Hi. rewrite Hmw by done. pose proof (proj2 Hm i Hi). unfold limb in *. lia. }
    { by right. }
    split; [exact H1|]. split; [exact H2|]. refine (eq_trans H3 _).
    rewrite (nval_ext (fun i => (m.[i] .^ 0x7FFFFFFF) .& Z.ones 32) (fun i => (2 ^ 31 - 1) - m.[i]) len Hmw).
    rewrite nval_sub, nval_ones, Ha.
    change (nval (fun i => m.[i]) len) with M.
    transitivity (v + M); [symmetry; apply (Z.mod_unique_pos _ _ 1); lia|].
    destruct (decide (v + M = 0)); [|apply (Z.mod_unique_pos _ _ (-1)); lia].
    replace v with ((-1) * M) by lia. rewrite Z.mod_mul; lia.
  - assert (cc = if decide (v < M) then 1 else 0) as -> by (apply finish_cmp; try done; lia).
    change ((-% 0) .>> 1) with 0.
    destruct (finish_sub len a (fun i => (m.[i] .^ 0) .& (-% (0 .| (1 -% (if decide (v < M) then 1 else 0))))) 0) as (H1 & H2 & H3); try done.
    { intros i Hi. rewrite Z.lxor_0_r. pose proof (proj2 Hm i Hi). unfold limb in *. by apply land_lt_pow2. }
    { by left. }
    split; [exact H1|]. split; [exact H2|]. refine (eq_trans H3 _). rewrite Ha.
    destruct (decide (v < M)).
    + change (-% (0 .| (1 -% 1))) with 0.
      assert (nval (fun i => (m.[i] .^ 0) .& 0) len = 0) as -> by (apply zsum_0; intros; by rewrite Z.land_0_r).
      rewrite !Z.sub_0_r, !Z.mod_small by lia. done.
    + change (-% (0 .| (1 -% 0))) with (Z.ones 32).
      rewrite (nval_ext _ (get m)).
      2: { intros i Hi. rewrite Z.lxor_0_r. pose proof (proj2 Hm i Hi). unfold limb in *. apply land_ones_small; lia. }
      fold M. rewrite Z.sub_0_r, Z.mod_small by lia. apply (Z.mod_unique_pos _ _ 1); lia.
Qed.

(** * Linear combinations modulo m *)

Definition mod_carry (c : Z) : Prop := - 2 ^ 31 <= c < 2 ^ 32.

Lemma mod_step wa wb wm xa xb f c :
  limb wa -> limb wb -> limb wm -> Z.abs xa + Z.abs xb <= 2 ^ 31 -> limb f -> mod_carry c ->
  let z := u64 (u64 (u64 (u64 (wa * u64 xa) + u64 (wb * u64 xb)) + u64 (wm * f)) + u64 c) in
  0 <= z < 2 ^ 64 /\ i64 z = (wa * xa + wb * xb + wm * f) + c /\ mod_carry ((wa * xa + wb * xb + wm * f + c) / 2 ^ 31).
Proof.
  unfold limb, mod_carry. intros Ha Hb Hm Hx Hf Hc. cbv zeta.
  pose proof (abs_comb wa wb (2 ^ 31 - 1) xa xb ltac:(lia) ltac:(lia) Hx) as Habs.
  assert (0 <= wm * f <= (2 ^ 31 - 1) * (2 ^ 31 - 1)) as Hmf by nia.
  split; [apply u64_range|]. split.
  - rewrite (u64_eq _ (wa * xa + wb * xb + wm * f + c)) by (by rewrite !u64_cong). apply i64_u64. lia.
  - set (v := wa * xa + wb * xb + wm * f) in *. Z.to_euclidean_division_equations. lia.
Qed.

(** The factor that makes a combination a multiple of 2^31. *)
Lemma low_factor a0 b0 m0 m0i xa xb :
  (m0 * m0i + 1) mod 2 ^ 31 = 0 ->
  let f := ((a0 *% u32 xa +% b0 *% u32 xb) *% m0i) .& 0x7FFFFFFF in
  limb f /\ (2 ^ 31 | a0 * xa + b0 * xb + m0 * f).
Proof.
  intros Hm. cbv zeta. set (z := (a0 *% u32 xa +% b0 *% u32 xb) * m0i).
  destruct (low31_word (u32 z) (u32_range z)) as (-> & _). split; [apply mod31_limb|].
  assert (u32 z mod 2 ^ 31 ==[2 ^ 31] (a0 * xa + b0 * xb) * m0i) as Hf.
  { rewrite mod_cong, u32_mod. assert (forall x, x mod 2 ^ 32 ==[2 ^ 31] x) as Hmm
      by (intros x; split; apply Z.mod_mod_divide; by exists 2).
    rewrite Hmm. unfold z. rewrite !u32_mod, !Hmm. done. }
  rewrite <- (Z.sub_0_r (_ + _)). apply cong_iff_divide. rewrite Hf.
  assert (m0 * m0i ==[2 ^ 31] -1) as Hi.
  { apply cong_iff_divide. apply Z.mod_divide; [lia|]. by replace (m0 * m0i - -1) with (m0 * m0i + 1) by lia. }
  transitivity ((a0 * xa + b0 * xb) * (1 + m0 * m0i)); [cong_ring|]. rewrite Hi. cong_ring.
Qed.

(** The words of a quotient in [-M, 2M), brought back into [0, M). *)
Lemma mod_result len a m c v :
  (0 < len)%nat -> (len <= length a)%nat -> (forall i, (S i < len)%nat -> limb a.[i]) -> limbs len m ->
  nval (get a) (len - 1) + c * pw (len - 1) = v -> mod_carry c ->
  let M := nval (get m) len in
  - M <= v < 2 * M ->
  let a' := zint_finish_mod a.[len - 1 <- u32 c] m len (u32 (u64 c .>> 63)) in
  limbs len a' /\ length a' = length a /\ nval (get a') len = v mod M.
Proof.
  intros Hlen HL Hl Hm Hv Hc. cbv zeta. set (M := nval (get m) len). intros HvM.
  pose proof (limbs_range _ _ Hm) as HM. fold M in HM. unfold mod_carry in Hc.
  destruct len as [|k]; [lia|]. replace (S k - 1)%nat with k in * by lia.
  pose proof (nval_range (get a) k ltac:(intros; apply Hl; lia)) as Hr. pose proof (pw_pos k) as Hp.
  assert (c < 0 <-> v < 0) as Hsign by nia.
  assert (u32 (u64 c .>> 63) = if decide (v < 0) then 1 else 0) as ->.
  { rewrite shr_div by lia. case_decide.
    - assert (u64 c = c + 2 ^ 64) as ->.
      { rewrite u64_mod. symmetry. apply (Z.mod_unique_pos _ _ (-1)); lia. }
      replace ((c + 2 ^ 64) / 2 ^ 63) with 1 by (apply (Z.div_unique_pos _ _ _ (c + 2 ^ 63)); lia). done.
    - rewrite u64_small, Z.div_small by lia. done. }
  assert (forall i, (i < k)%nat -> a.[k <- u32 c].[i] = a.[i]) as Hlow by (intros; apply get_set_ne; lia).
  destruct (zint_finish_mod_spec (S k) a.[k <- u32 c] m v) as (H1 & H2 & H3); [lia|rewrite length_set; lia| |done|done| |].
  { intros i Hi. rewrite Hlow by lia. apply Hl. lia. }
  { rewrite nval_S, get_set_eq by lia. rewrite (nval_ext _ (get a)) by done. rewrite pw_S. case_decide.
    - rewrite u32_neg by lia. lia.
    - rewrite u32_small by lia. lia. }
  split; [done|]. split; [by rewrite H2, length_set|done].
Qed.

Lemma zint_co_reduce_mod_spec a b m len m0i xa xb ya yb :
  (0 < len)%nat -> limbs len a -> limbs len b -> limbs len m -> (m.[0] * m0i + 1) mod 2 ^ 31 = 0 ->
  Z.abs xa + Z.abs xb <= 2 ^ 31 -> Z.abs ya + Z.abs yb <= 2 ^ 31 ->
  let A := nval (get a) len in let B := nval (get b) len in let M := nval (get m) len in
  A <= M -> B <= M -> 0 < M ->
  let '(a', b') := zint_co_reduce_mod a b m len m0i xa xb ya yb in
  (limbs len a' /\ length a' = length a /\ 0 <= nval (get a') len < M /\ 2 ^ 31 * nval (get a') len ==[M] A * xa + B * xb) /\
  (limbs len b' /\ length b' = length b /\ 0 <= nval (get b') len < M /\ 2 ^ 31 * nval (get b') len ==[M] A * ya + B * yb).
Proof.
  intros Hlen Ha Hb Hm Hinv Hx Hy. cbv zeta. set (A := nval (get a) len). set (B := nval (get b) len). set (M := nval (get m) len).
  intros HAM HBM HM. pose proof (limbs_range _ _ Ha) as Ra. pose proof (limbs_range _ _ Hb) as Rb. fold A in Ra. fold B in Rb.
  unfold zint_co_reduce_mod.
  destruct (low_factor a.[0] b.[0] m.[0] m0i xa xb Hinv) as [Hfa Hda].
  destruct (low_factor a.[0] b.[0] m.[0] m0i ya yb Hinv) as [Hfb Hdb]. cbv zeta in Hfa, Hfb, Hda, Hdb.
  set (fa := _ .& 0x7FFFFFFF) in Hfa, Hda |- *. set (fb := _ .& 0x7FFFFFFF) in Hfb, Hdb |- *. cbv zeta.
  pose proof (co_loop_spec len a b Hlen Ha Hb
    (fun i wa wb c => u64 (u64 (u64 (u64 (wa * u64 xa) + u64 (wb * u64 xb)) + u64 (m.[i] * fa)) + u64 c))
    (fun i wa wb c => u64 (u64 (u64 (u64 (wa * u64 ya) + u64 (wb * u64 yb)) + u64 (m.[i] * fb)) + u64 c))
    (fun i => a.[i] * xa + b.[i] * xb + m.[i] * fa) (fun i => a.[i] * ya + b.[i] * yb + m.[i] * fb) mod_carry) as H.
  unfold co_body in H. destruct (for_ len _ _) as [[[a' b'] cca] ccb].
  destruct H as (La & Lb & Eca & Ecb & Hca & Hcb & HW).
  { unfold mod_carry. lia. }
  { intros i c Hi Hc. apply mod_step; try done; [by apply Ha|by apply Hb|by apply Hm]. }
  { intros i c Hi Hc. apply mod_step; try done; [by apply Ha|by apply Hb|by apply Hm]. }
  assert (forall x y f, (2 ^ 31 | a.[0] * x + b.[0] * y + m.[0] * f) -> limb f -> Z.abs x + Z.abs y <= 2 ^ 31 ->
    exists v, nval (fun i => a.[i] * x + b.[i] * y + m.[i] * f) len = 2 ^ 31 * v /\ 2 ^ 31 * v = A * x + B * y + M * f /\
      - M <= v < 2 * M) as Hquot.
  { intros x y f [d Hd] Hf Hxy.
    assert (nval (fun i => a.[i] * x + b.[i] * y + m.[i] * f) len = A * x + B * y + M * f) as El.
    { unfold nval, A, B, M. unfold nval. rewrite <- !zsum_mul_r, <- !zsum_plus. apply zsum_ext. intros. ring. }
    assert (exists v, A * x + B * y + M * f = 2 ^ 31 * v) as [v Hv].
    { exists (d + nval (fun i => a.[S i] * x + b.[S i] * y + m.[S i] * f) (len - 1)). rewrite <- El.
      destruct len as [|k]; [lia|]. replace (S k - 1)%nat with k by lia. rewrite nval_low, Hd. ring. }
    exists v. split; [lia|]. split; [lia|].
    pose proof (abs_comb A B M x y ltac:(lia) ltac:(lia) Hxy) as Habs. unfold limb in Hf. nia. }
  destruct (Hquot xa xb fa Hda Hfa Hx) as (va & Eva & Eva' & Hva).
  destruct (Hquot ya yb fb Hdb Hfb Hy) as (vb & Evb & Evb' & Hvb).
  destruct Ha as [HLa _], Hb as [HLb _].
  destruct (mod_result len a' m cca va) as (HA1 & HA2 & HA3); [done|lia| |done| |done|done|].
  { intros i Hi. rewrite (proj1 (HW i Hi)). apply sum_word_limb. }
  { rewrite Eca. apply (sum_quotient len Hlen _ va _ Eva). intros i Hi. apply (proj1 (HW i Hi)). }
  destruct (mod_result len b' m ccb vb) as (HB1 & HB2 & HB3); [done|lia| |done| |done|done|].
  { intros i Hi. rewrite (proj2 (HW i Hi)). apply sum_word_limb. }
  { rewrite Ecb. apply (sum_quotient len Hlen _ vb _ Evb). intros i Hi. apply (proj2 (HW i Hi)). }
  fold M in HA3, HB3.
  split; (split; [done|]; split; [lia|]; split; [rewrite ?HA3, ?HB3; apply Z.mod_pos_bound; lia|]).
  - rewrite HA3, mod_cong, Eva'. transitivity (A * xa + B * xb + fa * M); [cong_ring|apply cong_mul_modulus].
  - rewrite HB3, mod_cong, Evb'. transitivity (A * ya + B * yb + fb * M); [cong_ring|apply cong_mul_modulus].
Qed.

(** * Inverses modulo 2^31 *)

Lemma u32_cong_le k x : 0 <= k <= 32 -> u32 x ==[2 ^ k] x.
Proof.
  intros Hk. split. rewrite u32_mod. apply Z.mod_mod_divide. exists (2 ^ (32 - k)). rewrite <- Z.pow_add_r by lia. f_equal. lia.
Qed.

Lemma ninv_step k x y : 0 <= k -> 2 * k <= 32 -> x * y ==[2 ^ k] 1 -> x * (y *% (2 -% x *% y)) ==[2 ^ (2 * k)] 1.
Proof.
  intros Hk Hk2 Hxy. rewrite !u32_cong_le by lia. apply cong_iff_divide in Hxy as [c Hc].
  apply cong_iff_divide. exists (- c * c). replace (2 * k) with (k + k) by lia. rewrite Z.pow_add_r by lia. nia.
Qed.

Lemma mp_ninv31_spec x : x mod 2 = 1 -> limb (mp_ninv31 x) /\ (x * mp_ninv31 x + 1) mod 2 ^ 31 = 0.
Proof.
  intros Hx. unfold mp_ninv31. cbv zeta.
  assert (x * (2 -% x) ==[2 ^ 2] 1) as H2.
  { rewrite u32_cong_le by lia. apply cong_iff_divide. pose proof (Z.div_mod x 2 ltac:(lia)) as Hd.
    rewrite Hx in Hd. set (h := x / 2) in *. exists (- h * h). change (2 ^ 2) with 4. rewrite Hd. ring. }
  pose proof (ninv_step 2 _ _ ltac:(lia) ltac:(lia) H2) as H4. change (2 * 2) with 4 in H4.
  pose proof (ninv_step 4 _ _ ltac:(lia) ltac:(lia) H4) as H8. change (2 * 4) with 8 in H8.
  pose proof (ninv_step 8 _ _ ltac:(lia) ltac:(lia) H8) as H16. change (2 * 8) with 16 in H16.
  pose proof (ninv_step 16 _ _ ltac:(lia) ltac:(lia) H16) as H32. change (2 * 16) with 32 in H32.
  set (y := _ *% (2 -% x *% _)) in H32 |- *. clearbody y. clear H2 H4 H8 H16.
  destruct (low31_word (-% y) (u32_range _)) as (-> & _). split; [apply mod31_limb|].
  apply Z.mod_divide; [lia|]. rewrite <- (Z.sub_0_r (_ + 1)). apply cong_iff_divide.
  rewrite mod_cong, u32_cong_le by lia.
  assert (x * y ==[2 ^ 31] 1) as Hy.
  { apply cong_iff_divide in H32 as [c Hc]. apply cong_iff_divide. exists (2 * c). rewrite Hc. change (2 ^ 32) with (2 * 2 ^ 31). ring. }
  transitivity (1 - x * y); [cong_ring|]. rewrite Hy. cong_ring.
Qed.

(** * The update factors *)

(** The packed pair [f + 2^32 g]. *)
Definition packed (fg f g : Z) : Prop := 0 <= fg < 2 ^ 64 /\ fg ==[2 ^ 64] f + 2 ^ 32 * g.

Definition small_factors (i : nat) (f g : Z) : Prop :=
  Z.abs f + Z.abs g <= 2 ^ Z.of_nat i /\ - 2 ^ Z.of_nat i < f /\ - 2 ^ Z.of_nat i < g.

(** After [i] inner steps on the numbers [A] and [B]. *)
Record inner_state (A B : Z) (i : nat) (st : Z * Z * Z * Z) (f0 g0 f1 g1 al be : Z) : Prop := InnerState {
  is_xa : 0 <= st.1.1.1 < 2 ^ 64 /\ st.1.1.1 ==[2 ^ (31 - Z.of_nat i)] al;
  is_xb : 0 <= st.1.1.2 < 2 ^ 64 /\ st.1.1.2 ==[2 ^ (31 - Z.of_nat i)] be;
  is_fg0 : packed st.1.2 f0 g0 /\ small_factors i f0 g0;
  is_fg1 : packed st.2 f1 g1 /\ small_factors i f1 g1;
  is_al : A * f0 + B * g0 = 2 ^ Z.of_nat i * al;
  is_be : A * f1 + B * g1 = 2 ^ Z.of_nat i * be;
  is_odd : be mod 2 = 1
}.

Lemma cong_pow_le k j x y : 0 <= k <= j -> x ==[2 ^ j] y -> x ==[2 ^ k] y.
Proof.
  intros Hk [c Hc]%cong_iff_divide. apply cong_iff_divide. exists (c * 2 ^ (j - k)). rewrite Hc, <- Z.mul_assoc, <- Z.pow_add_r by lia.
  do 2 f_equal. lia.
Qed.

Lemma cong_parity k x y : 1 <= k -> x ==[2 ^ k] y -> x mod 2 = y mod 2.
Proof. intros Hk H. apply (cong_pow_le 1 k) in H; [|lia]. by destruct H. Qed.

Lemma cong_half k x y : 0 <= k -> 2 * x ==[2 ^ (k + 1)] 2 * y -> x ==[2 ^ k] y.
Proof.
  intros Hk [c Hc]%cong_iff_divide. apply cong_iff_divide. exists c. rewrite Z.pow_add_r in Hc by lia. lia.
Qed.

Lemma u64_cong_le k x : 0 <= k <= 64 -> u64 x ==[2 ^ k] x.
Proof. intros Hk. apply (cong_pow_le k 64); [lia|]. apply u64_cong. Qed.

Lemma double_packed fg f g : packed fg f g -> packed (u64 (fg .<< 1)) (2 * f) (2 * g).
Proof.
  intros [Hr Hc]. split; [apply u64_range|]. rewrite u64_cong, shl_mul, Hc by lia. cong_ring.
Qed.

Lemma sub_packed fg fg' f g f' g' : packed fg f g -> packed fg' f' g' -> packed (u64 (fg - fg')) (f - f') (g - g').
Proof. intros [Hr Hc] [Hr' Hc']. split; [apply u64_range|]. rewrite u64_cong, Hc, Hc'. cong_ring. Qed.

Lemma double_small i f g : small_factors i f g -> small_factors (S i) (2 * f) (2 * g).
Proof. unfold small_factors. rewrite Nat2Z.inj_succ, Z.pow_succ_r by lia. lia. Qed.
Lemma keep_small i f g : small_factors i f g -> small_factors (S i) f g.
Proof. unfold small_factors. rewrite Nat2Z.inj_succ, Z.pow_succ_r by lia. lia. Qed.
Lemma sub_small i f g f' g' : small_factors i f g -> small_factors i f' g' -> small_factors (S i) (f - f') (g - g').
Proof. unfold small_factors. rewrite Nat2Z.inj_succ, Z.pow_succ_r by lia. lia. Qed.

(** What a step does, without the masks. *)
Definition plain_inner (st : Z * Z * Z * Z) : Z * Z * Z * Z :=
  let '(xa, xb, fg0, fg1) := st in
  if decide (xa mod 2 = 0) then (xa / 2, xb, fg0, u64 (fg1 .<< 1))
  else if decide (i64 (u64 (xa - xb)) < 0) then (u64 (xb - xa) / 2, xa, u64 (fg1 - fg0), u64 (fg0 .<< 1))
  else (u64 (xa - xb) / 2, xb, u64 (fg0 - fg1), u64 (fg1 .<< 1)).

Lemma i64_range x : - 2 ^ 63 <= i64 x < 2 ^ 63.
Proof. unfold i64. pose proof (u64_range (x + 9223372036854775808)). lia. Qed.

Lemma bezout_inner_plain xa xb fg0 fg1 :
  0 <= xa < 2 ^ 64 -> 0 <= xb < 2 ^ 64 -> 0 <= fg0 < 2 ^ 64 -> 0 <= fg1 < 2 ^ 64 ->
  bezout_inner (xa, xb, fg0, fg1) = plain_inner (xa, xb, fg0, fg1).
Proof.
  intros Ha Hb H0 H1. unfold bezout_inner, plain_inner. rewrite land_1. cbv zeta.
  pose proof (Z.mod_pos_bound xa 2 ltac:(lia)). pose proof (i64_range (u64 (xa - xb))) as Hi.
  case_decide as E.
  - rewrite E. change (u64 (Z.opp 0)) with 0. rewrite !Z.land_0_l, !Z.lxor_0_r, !Z.sub_0_r, !u64_small, shr_div by lia. done.
  - replace (xa mod 2) with 1 by lia. change (u64 (Z.opp 1)) with (Z.ones 64).
    assert (Z.ones 64 .& u64 (i64 (u64 (xa - xb)) .>> 63) = if bool_decide (i64 (u64 (xa - xb)) < 0) then Z.ones 64 else 0) as ->.
    { rewrite shr_div by lia. case_bool_decide.
      - replace (i64 (u64 (xa - xb)) / 2 ^ 63) with (-1) by (apply (Z.div_unique_pos _ _ _ (i64 (u64 (xa - xb)) + 2 ^ 63)); lia). done.
      - rewrite Z.div_small by lia. done. }
    set (c := bool_decide _).
    destruct (masked_swap 64 c xa xb ltac:(lia) Ha Hb) as [-> ->]. destruct (masked_swap 64 c fg0 fg1 ltac:(lia) H0 H1) as [-> ->].
    unfold c. case_decide.
    + rewrite bool_decide_eq_true_2 by done. rewrite !(Z.land_comm (Z.ones 64)), !land_ones_small, shr_div by lia. done.
    + rewrite bool_decide_eq_false_2 by done. rewrite !(Z.land_comm (Z.ones 64)), !land_ones_small, shr_div by lia. done.
Qed.

(** An odd pair: the difference, halved. *)
Lemma odd_step i xa xb al be :
  (i < 31)%nat -> 0 <= xa < 2 ^ 64 -> xa ==[2 ^ (31 - Z.of_nat i)] al -> xb ==[2 ^ (31 - Z.of_nat i)] be ->
  al mod 2 = 1 -> be mod 2 = 1 ->
  exists al', al - be = 2 * al' /\ 0 <= u64 (xa - xb) / 2 < 2 ^ 64 /\ u64 (xa - xb) / 2 ==[2 ^ (31 - Z.of_nat (S i))] al'.
Proof.
  intros Hi Hxa Ha Hb Hal Hbe. exists ((al - be) / 2). pose proof (u64_range (xa - xb)) as Hr.
  assert (al - be = 2 * ((al - be) / 2)) as E by (apply odd_diff; lia).
  split; [done|]. split; [split; [apply Z.div_pos; lia|apply Z.div_lt_upper_bound; lia]|].
  apply cong_half; [lia|]. replace (31 - Z.of_nat (S i) + 1) with (31 - Z.of_nat i) by lia.
  assert (u64 (xa - xb) ==[2 ^ (31 - Z.of_nat i)] al - be) as Hc by (rewrite u64_cong_le, Ha, Hb by lia; done).
  rewrite <- E, <- Hc. apply cong_of_eq. symmetry. apply Z_div_exact_full_2; [lia|].
  rewrite (cong_parity (31 - Z.of_nat i) _ _ ltac:(lia) Hc), E, Z.mul_comm. apply Z.mod_mul. lia.
Qed.

Lemma plain_inner_state A B i st f0 g0 f1 g1 al be :
  (i < 31)%nat -> inner_state A B i st f0 g0 f1 g1 al be ->
  exists f0' g0' f1' g1' al' be', inner_state A B (S i) (plain_inner st) f0' g0' f1' g1' al' be'.
Proof.
  destruct st as [[[xa xb] fg0] fg1]. intros Hi [[Ra Ha] [Rb Hb] [P0 S0] [P1 S1] EA EB Hodd]. cbn [fst snd] in *.
  assert (xa mod 2 = al mod 2) as Epa by (eapply cong_parity; [|done]; lia).
  assert (xb mod 2 = be mod 2) as Epb by (eapply cong_parity; [|done]; lia).
  assert (forall z z', z ==[2 ^ (31 - Z.of_nat i)] z' -> z ==[2 ^ (31 - Z.of_nat (S i))] z') as Hle by (intros; eapply cong_pow_le; [|done]; lia).
  assert (2 ^ Z.of_nat (S i) = 2 * 2 ^ Z.of_nat i) as Epow by (rewrite Nat2Z.inj_succ, Z.pow_succ_r; lia).
  unfold plain_inner. case_decide as E; [|case_decide as Hlt].
  - assert (al = 2 * (al / 2)) as Eal by (apply Z_div_exact_full_2; lia).
    assert (xa = 2 * (xa / 2)) as Exa by (apply Z_div_exact_full_2; lia).
    exists f0, g0, (2 * f1), (2 * g1), (al / 2), be. constructor; cbn [fst snd]; try done.
    + split; [lia|]. apply cong_half; [lia|]. replace (31 - Z.of_nat (S i) + 1) with (31 - Z.of_nat i) by lia.
      by rewrite <- Eal, <- Exa.
    + split; [done|by apply Hle].
    + split; [done|by apply keep_small].
    + split; [by apply double_packed|by apply double_small].
    + rewrite EA, Epow. rewrite Eal at 1. ring.
    + rewrite Epow. transitivity (2 * (A * f1 + B * g1)); [ring|]. rewrite EB. ring.
  - assert (al mod 2 = 1) as Hal by (pose proof (Z.mod_pos_bound al 2 ltac:(lia)); lia).
    destruct (odd_step i xb xa be al Hi Rb Hb Ha Hodd Hal) as (d & Ed & Rd & Hd).
    exists (f1 - f0), (g1 - g0), (2 * f0), (2 * g0), d, al. constructor; cbn [fst snd]; try done.
    + split; [done|by apply Hle].
    + split; [by apply sub_packed|by apply sub_small].
    + split; [by apply double_packed|by apply double_small].
    + transitivity ((A * f1 + B * g1) - (A * f0 + B * g0)); [ring|].
      rewrite EA, EB, Epow. transitivity (2 ^ Z.of_nat i * (be - al)); [ring|]. rewrite Ed. ring.
    + rewrite Epow. transitivity (2 * (A * f0 + B * g0)); [ring|]. rewrite EA. ring.
  - assert (al mod 2 = 1) as Hal by (pose proof (Z.mod_pos_bound al 2 ltac:(lia)); lia).
    destruct (odd_step i xa xb al be Hi Ra Ha Hb Hal Hodd) as (d & Ed & Rd & Hd).
    exists (f0 - f1), (g0 - g1), (2 * f1), (2 * g1), d, be. constructor; cbn [fst snd]; try done.
    + split; [done|by apply Hle].
    + split; [by apply sub_packed|by apply sub_small].
    + split; [by apply double_packed|by apply double_small].
    + transitivity ((A * f0 + B * g0) - (A * f1 + B * g1)); [ring|].
      rewrite EA, EB, Epow. transitivity (2 ^ Z.of_nat i * (al - be)); [ring|]. rewrite Ed. ring.
    + rewrite Epow. transitivity (2 * (A * f1 + B * g1)); [ring|]. rewrite EB. ring.
Qed.

(** The two halves of a packed pair. *)
Lemma packed_split fg f g :
  packed fg f g -> small_factors 31 f g ->
  let w := u64 (fg + 0x7FFFFFFF7FFFFFFF) in
  i64 (i64 (w .& 0xFFFFFFFF) - 0x7FFFFFFF) = f /\ i64 (i64 (w .>> 32) - 0x7FFFFFFF) = g.
Proof.
  intros [Hr Hc] (Hs & Hf & Hg). cbv zeta. change (2 ^ Z.of_nat 31) with (2 ^ 31) in *.
  assert (u64 (fg + 0x7FFFFFFF7FFFFFFF) = (f + (2 ^ 31 - 1)) + 2 ^ 32 * (g + (2 ^ 31 - 1))) as ->.
  { rewrite (u64_eq _ ((f + (2 ^ 31 - 1)) + 2 ^ 32 * (g + (2 ^ 31 - 1)))).
    - apply u64_small. lia.
    - rewrite Hc. cong_ring. }
  change 0xFFFFFFFF with (Z.ones 32). rewrite Z.land_ones, shr_div by lia.
  rewrite (Z.mul_comm (2 ^ 32)), Z.mod_add, Z.div_add by lia. rewrite Z.mod_small, Z.div_small, Z.add_0_l by lia.
  assert (forall x, - 2 ^ 63 <= x < 2 ^ 63 -> i64 x = x) as Hi64.
  { intros x Hx. unfold i64. rewrite u64_small; lia. }
  rewrite (Hi64 (f + _)), (Hi64 (g + _)) by lia. rewrite !Hi64 by lia. lia.
Qed.

(** The factors bring both numbers down by 31 bits, and keep the second odd. *)
Lemma bezout_factors_spec A B xa xb :
  0 <= xa < 2 ^ 64 -> 0 <= xb < 2 ^ 64 -> xa ==[2 ^ 31] A -> xb ==[2 ^ 31] B -> B mod 2 = 1 ->
  let '(f0, g0, f1, g1) := bezout_factors xa xb in
  Z.abs f0 + Z.abs g0 <= 2 ^ 31 /\ Z.abs f1 + Z.abs g1 <= 2 ^ 31 /\
  exists al be, A * f0 + B * g0 = 2 ^ 31 * al /\ A * f1 + B * g1 = 2 ^ 31 * be /\ be mod 2 = 1.
Proof.
  intros Ra Rb Ha Hb Hodd. unfold bezout_factors.
  assert (exists f0 g0 f1 g1 al be, inner_state A B 31 (for_ 31 (fun _ => bezout_inner) (xa, xb, 1, u64 (1 .<< 32))) f0 g0 f1 g1 al be)
    as (f0 & g0 & f1 & g1 & al & be & Hst).
  { apply (for_ind (fun i st => exists f0 g0 f1 g1 al be, inner_state A B i st f0 g0 f1 g1 al be)).
    - exists 1, 0, 0, 1, A, B. constructor; cbn [fst snd]; unfold small_factors; change (2 ^ Z.of_nat 0) with 1;
        [by split|by split| | |lia|lia|done].
      + split; [split; [lia|done]|lia].
      + split; [split; [apply u64_range|done]|lia].
    - intros i [[[ya yb] h0] h1] Hi (f0 & g0 & f1 & g1 & al & be & Hst).
      rewrite bezout_inner_plain by apply Hst. by eapply plain_inner_state. }
  destruct (for_ 31 _ _) as [[[ya yb] fg0] fg1]. destruct Hst as [_ _ [P0 S0] [P1 S1] EA EB Ho]. cbn [fst snd] in *.
  destruct (packed_split _ _ _ P0 S0) as [-> ->]. destruct (packed_split _ _ _ P1 S1) as [-> ->].
  split; [apply S0|]. split; [apply S1|]. by exists al, be.
Qed.

(** * Rounds *)

Lemma approx_low h a0 :
  limb a0 -> 0 <= u64 (h .<< 31) .| a0 < 2 ^ 64 /\ u64 (h .<< 31) .| a0 ==[2 ^ 31] a0.
Proof.
  unfold limb. intros Ha. pose proof (u64_range (h .<< 31)) as Hr. split; [apply lor_lt_pow2; lia|].
  assert (u64 (h .<< 31) = (h mod 2 ^ 33) * 2 ^ 31) as ->.
  { rewrite u64_mod, shl_mul by lia. change (2 ^ 64) with (2 ^ 33 * 2 ^ 31). by rewrite Z.mul_mod_distr_r by lia. }
  rewrite lor_shifted by lia. rewrite Z.add_comm. apply cong_mul_modulus.
Qed.

Lemma nval_low_cong w len : (0 < len)%nat -> nval w len ==[2 ^ 31] w 0%nat.
Proof.
  intros Hlen. destruct len as [|k]; [lia|]. rewrite nval_low.
  transitivity (w 0%nat + nval (fun i => w (S i)) k * 2 ^ 31); [cong_ring|apply cong_mul_modulus].
Qed.

Lemma bezout_approx_spec a b len :
  (0 < len)%nat -> limbs len a -> limbs len b ->
  let '(xa, xb) := bezout_approx a b len in
  0 <= xa < 2 ^ 64 /\ 0 <= xb < 2 ^ 64 /\ xa ==[2 ^ 31] nval (get a) len /\ xb ==[2 ^ 31] nval (get b) len.
Proof.
  intros Hlen [_ Ha] [_ Hb]. unfold bezout_approx. destruct (for_ len _ _) as [[[[[[a0 a1] b0] b1] c0] c1] cp]. cbv zeta.
  match goal with |- context [u64 (?h .<< 31) .| a.[0]] => destruct (approx_low h a.[0] (Ha 0%nat Hlen)) as [R1 H1] end.
  match goal with |- context [u64 (?h .<< 31) .| b.[0]] => destruct (approx_low h b.[0] (Hb 0%nat Hlen)) as [R2 H2] end.
  split; [exact R1|]. split; [exact R2|]. rewrite H1, H2, !nval_low_cong by done. done.
Qed.

Lemma cond_neg_spec f (neg : bool) : Z.abs f <= 2 ^ 31 -> cond_neg f (if neg then 1 else 0) = if neg then - f else f.
Proof.
  intros Hf. assert (forall x, - 2 ^ 63 <= x < 2 ^ 63 -> i64 x = x) as Hi64.
  { intros x Hx. unfold i64. rewrite u64_small; lia. }
  unfold cond_neg. rewrite (Hi64 (f + f)) by lia. destruct neg.
  - change (- (1)) with (-1). rewrite Z.land_m1_r, Hi64 by lia. lia.
  - change (- 0) with 0. rewrite Z.land_0_r, Hi64 by lia. lia.
Qed.

Lemma neg_bits_split A B :
  neg_bits A B .& 1 = (if bool_decide (A < 0) then 1 else 0) /\ neg_bits A B .>> 1 = (if bool_decide (B < 0) then 1 else 0).
Proof. unfold neg_bits. by repeat case_decide; repeat case_bool_decide. Qed.

(** Powers of two cancel modulo an odd number. *)
Lemma cancel_pow2 m k x y : m mod 2 = 1 -> 2 ^ Z.of_nat k * x ==[m] 2 ^ Z.of_nat k * y -> x ==[m] y.
Proof.
  intros Hm. induction k as [|k IH]; [by rewrite !Z.mul_1_l|].
  rewrite Nat2Z.inj_succ, Z.pow_succ_r, <- !Z.mul_assoc by lia. intros H. apply IH.
  apply cong_iff_divide in H as [c Hc]. apply cong_iff_divide. set (d := 2 ^ Z.of_nat k * x - 2 ^ Z.of_nat k * y).
  assert (2 * d = c * m) as Hd by (unfold d; lia). assert (m = 2 * (m / 2) + 1) as Em by (pose proof (Z.div_mod m 2 ltac:(lia)); lia).
  set (h := m / 2) in Em. clearbody h d. exists (d - c * h). rewrite Em in Hd |- *.
  transitivity (d + h * (2 * d - c * (2 * h + 1))); [rewrite Hd|]; ring.
Qed.

Section Bezout.
Context (x y : list Z) (len : nat) (Hlen : (0 < len)%nat) (Hx : limbs len x) (Hy : limbs len y)
  (Ox : x.[0] mod 2 = 1) (Oy : y.[0] mod 2 = 1).
Local Abbreviation X := (nval (get x) len).
Local Abbreviation Y := (nval (get y) len).
Local Abbreviation N l := (nval (get l) len) (only parsing).

Lemma odd_nval l : l.[0] mod 2 = 1 -> N l mod 2 = 1.
Proof.
  clear Hx Hy Ox Oy. intros Hl. rewrite <- Hl. apply (cong_parity 31); [lia|]. by apply nval_low_cong.
Qed.

Record bezout_inv (k : nat) (st : bezout_state) : Prop := BezoutInv {
  bi_limbs : limbs len (bz_a st) /\ limbs len (bz_b st) /\ limbs len (bz_u0 st) /\ limbs len (bz_u1 st) /\
             limbs len (bz_v0 st) /\ limbs len (bz_v1 st);
  bi_odd : N (bz_b st) mod 2 = 1;
  bi_u0 : X * N (bz_u0 st) ==[Y] N (bz_a st);
  bi_u1 : X * N (bz_u1 st) ==[Y] N (bz_b st);
  bi_v0 : Y * N (bz_v0 st) ==[X] - N (bz_a st);
  bi_v1 : Y * N (bz_v1 st) ==[X] - N (bz_b st);
  bi_ranges : N (bz_u0 st) <= Y /\ N (bz_u1 st) <= Y /\ N (bz_v0 st) <= X /\ N (bz_v1 st) <= X;
  bi_strict : (0 < k)%nat -> N (bz_u1 st) < Y /\ N (bz_v1 st) < X
}.

(** A new coefficient against a new number. *)
Lemma round_relation M (s f g a b u0 u1 u c al : Z) (neg : bool) :
  M mod 2 = 1 -> 2 ^ 31 * u ==[M] u0 * (if neg then - f else f) + u1 * (if neg then - g else g) ->
  c * u0 ==[M] s * a -> c * u1 ==[M] s * b -> a * f + b * g = 2 ^ 31 * al -> neg = bool_decide (al < 0) ->
  c * u ==[M] s * Z.abs al.
Proof.
  intros HM Hu H0 H1 Hal Hneg. apply (cancel_pow2 M 31 _ _ HM). change (2 ^ Z.of_nat 31) with (2 ^ 31).
  transitivity (c * (2 ^ 31 * u)); [cong_ring|]. rewrite Hu.
  assert (2 ^ 31 * Z.abs al = a * (if neg then - f else f) + b * (if neg then - g else g)) as E.
  { subst neg. case_bool_decide; [rewrite Z.abs_neq|rewrite Z.abs_eq]; lia. }
  transitivity (c * u0 * (if neg then - f else f) + c * u1 * (if neg then - g else g)); [cong_ring|].
  rewrite H0, H1. transitivity (s * (2 ^ 31 * Z.abs al)); [rewrite E; cong_ring|cong_ring].
Qed.

Lemma bezout_round_inv k st :
  bezout_inv k st -> bezout_inv (S k) (bezout_round x y len (mp_ninv31 x.[0]) (mp_ninv31 y.[0]) st).
Proof using Hlen Hx Hy Ox Oy.
  destruct st as [a b u0 u1 v0 v1].
  intros [(La & Lb & Lu0 & Lu1 & Lv0 & Lv1) Hodd H0 H1 H2 H3 (R0 & R1 & R2 & R3) _]. cbn [bz_a bz_b bz_u0 bz_u1 bz_v0 bz_v1] in *.
  unfold bezout_round.
  pose proof (bezout_approx_spec a b len Hlen La Lb) as Happ. destruct (bezout_approx a b len) as [xa xb].
  destruct Happ as (Rxa & Rxb & Exa & Exb).
  pose proof (bezout_factors_spec (N a) (N b) xa xb Rxa Rxb Exa Exb Hodd) as Hf.
  destruct (bezout_factors xa xb) as [[[f0 g0] f1] g1]. destruct Hf as (S0 & S1 & al & be & Eal & Ebe & Hbe).
  pose proof (zint_co_reduce_spec a b len f0 g0 f1 g1 al be Hlen La Lb S0 S1 Eal Ebe) as Hco.
  destruct (zint_co_reduce a b len f0 g0 f1 g1) as [[a' b'] negab]. destruct Hco as ((La' & _ & Ea') & (Lb' & _ & Eb') & ->).
  destruct (neg_bits_split al be) as [-> ->].
  rewrite !cond_neg_spec by lia.
  set (na := bool_decide (al < 0)). set (nb := bool_decide (be < 0)).
  assert (forall (neg : bool) f, Z.abs (if neg then - f else f) = Z.abs f) as Habs by (intros [] f; [apply Z.abs_opp|done]).
  pose proof (proj2 (mp_ninv31_spec _ Oy)) as Iy. pose proof (proj2 (mp_ninv31_spec _ Ox)) as Ix.
  pose proof (odd_nval x Ox) as OX. pose proof (odd_nval y Oy) as OY.
  assert (0 < X) as PX by (pose proof (limbs_range _ _ Hx); destruct (decide (X = 0)) as [E|]; [by rewrite E in OX|lia]).
  assert (0 < Y) as PY by (pose proof (limbs_range _ _ Hy); destruct (decide (Y = 0)) as [E|]; [by rewrite E in OY|lia]).
  pose proof (zint_co_reduce_mod_spec u0 u1 y len (mp_ninv31 y.[0]) (if na then - f0 else f0) (if na then - g0 else g0)
    (if nb then - f1 else f1) (if nb then - g1 else g1) Hlen Lu0 Lu1 Hy Iy ltac:(rewrite !Habs; lia) ltac:(rewrite !Habs; lia) R0 R1 PY) as Hu.
  destruct (zint_co_reduce_mod u0 u1 y _ _ _ _ _ _) as [u0' u1']. destruct Hu as ((Lu0' & _ & Ru0 & Eu0) & (Lu1' & _ & Ru1 & Eu1)).
  pose proof (zint_co_reduce_mod_spec v0 v1 x len (mp_ninv31 x.[0]) (if na then - f0 else f0) (if na then - g0 else g0)
    (if nb then - f1 else f1) (if nb then - g1 else g1) Hlen Lv0 Lv1 Hx Ix ltac:(rewrite !Habs; lia) ltac:(rewrite !Habs; lia) R2 R3 PX) as Hv.
  destruct (zint_co_reduce_mod v0 v1 x _ _ _ _ _ _) as [v0' v1']. destruct Hv as ((Lv0' & _ & Rv0 & Ev0) & (Lv1' & _ & Rv1 & Ev1)).
  constructor; cbn [bz_a bz_b bz_u0 bz_u1 bz_v0 bz_v1]; try lia.
  - done.
  - rewrite Eb'. destruct (Z.abs_eq_or_opp be) as [-> | ->]; [done|]. rewrite Z.mod_opp_l_nz; rewrite ?Hbe; done.
  - rewrite Ea'. rewrite (round_relation Y 1 f0 g0 (N a) (N b) (N u0) (N u1) _ X al na); try done; rewrite ?H0, ?H1; cong_ring.
  - rewrite Eb'. rewrite (round_relation Y 1 f1 g1 (N a) (N b) (N u0) (N u1) _ X be nb); try done; rewrite ?H0, ?H1; cong_ring.
  - rewrite Ea'. rewrite (round_relation X (-1) f0 g0 (N a) (N b) (N v0) (N v1) _ Y al na); try done; rewrite ?H2, ?H3; cong_ring.
  - rewrite Eb'. rewrite (round_relation X (-1) f1 g1 (N a) (N b) (N v0) (N v1) _ Y be nb); try done; rewrite ?H2, ?H3; cong_ring.
Qed.
End Bezout.

(** * The result *)

Lemma lor_loop_zero (f : nat -> Z) k r0 :
  for_ k (fun j r => r .| f j) r0 = 0 -> r0 = 0 /\ forall j, (j < k)%nat -> f j = 0.
Proof.
  induction k as [|k IH]; intros H; [split; [done|lia]|].
  rewrite for_S in H. apply Z.lor_eq_0_iff in H as [H1 H2]. destruct (IH H1) as [H3 H4]. split; [done|].
  intros j Hj. destruct (decide (j = k)) as [->|]; [done|]. apply H4. lia.
Qed.

Lemma land_odd a b : (a .& b .& 1) .^ 1 = 0 -> a mod 2 = 1 /\ b mod 2 = 1.
Proof.
  intros H%Z.lxor_eq. rewrite !Zmod_odd, <- !Z.bit0_odd.
  assert (Z.testbit (a .& b .& 1) 0 = true) as Ht by by rewrite H.
  rewrite !Z.land_spec, !andb_true_iff in Ht. destruct Ht as [[-> ->] _]. done.
Qed.

Lemma nval_unit w len v :
  (0 < len)%nat -> (forall i, (0 < i < len)%nat -> w i = 0) -> w 0%nat = v -> nval w len = v.
Proof.
  intros Hlen Hz <-. unfold nval. rewrite zsum_first; [by rewrite pw_0, Z.mul_1_r|done|].
  intros i Hi. by rewrite Hz.
Qed.

Lemma nval_set0 len l w :
  (0 < len)%nat -> (len <= length l)%nat -> nval (get l.[0 <- w]) len = nval (get l) len - l.[0] + w.
Proof.
  intros Hlen HL. destruct len as [|k]; [lia|]. rewrite !nval_low, get_set_eq by lia.
  rewrite (nval_ext _ (fun i => l.[S i])) by (intros; apply get_set_ne; lia). lia.
Qed.

Lemma take_limbs len l : limbs len l -> limbs len (take len l) /\ nval (get (take len l)) len = nval (get l) len.
Proof.
  intros [HL Hl]. assert (forall i, (i < len)%nat -> (take len l).[i] = l.[i]) as E by (intros; by apply get_take).
  split; [split; [rewrite length_take; lia|intros i Hi; rewrite E; auto]|by apply nval_ext].
Qed.

Lemma copy_limbs len l d :
  limbs len l -> (len <= length d)%nat ->
  limbs len (take len l ++ drop len d) /\ nval (get (take len l ++ drop len d)) len = nval (get l) len.
Proof.
  intros [HL Hl] Hd.
  assert (forall i, (i < len)%nat -> (take len l ++ drop len d).[i] = l.[i]) as E.
  { intros i Hi. rewrite get_app_l by (rewrite length_take; lia). by apply get_take. }
  split; [split; [rewrite length_app, length_take, length_drop; lia|intros i Hi; rewrite E; auto]|by apply nval_ext].
Qed.

(** When the function answers true it has found the coefficients. *)
Lemma zint_bezout_spec u v x y len tmp u' v' tmp' :
  limbs len x -> limbs len y -> (len <= length u)%nat -> (len <= length v)%nat ->
  zint_bezout u v x y len tmp = (true, u', v', tmp') ->
  let X := nval (get x) len in let Y := nval (get y) len in
  let U := nval (get u') len in let V := nval (get v') len in
  limbs len u' /\ limbs len v' /\ 0 <= U < Y /\ 0 <= V < X /\ Z.gcd X Y = 1 /\ (1 < Y -> X * U - Y * V = 1).
Proof.
  intros Hx Hy Hu Hv. unfold zint_bezout. destruct (Nat.eqb_spec len 0) as [->|Hne]; [done|].
  assert (0 < len)%nat as Hlen by lia. cbv zeta.
  set (v1 := take len x ++ drop len v). set (st0 := BezoutState _ _ _ _ _ _).
  destruct (copy_limbs len y u Hy Hu) as [Lu Nu]. destruct (copy_limbs len x v Hx Hv) as [Lv Nv]. fold v1 in Lv, Nv.
  set (X := nval (get x) len). set (Y := nval (get y) len). fold X in Nv. fold Y in Nu.
  assert (forall b, for_ (len - 1) (fun j r => r .| b.[S j]) (b.[0] .^ 1) .| ((x.[0] .& y.[0] .& 1) .^ 1) = 0 ->
    nval (get b) len = 1 /\ x.[0] mod 2 = 1 /\ y.[0] mod 2 = 1) as Hend.
  { intros b [H1 H2]%Z.lor_eq_0_iff. apply land_odd in H2. apply lor_loop_zero in H1 as [H1 H3].
    apply Z.lxor_eq in H1. split; [|done]. apply nval_unit; [done| |done].
    intros i Hi. specialize (H3 (i - 1)%nat ltac:(lia)). by replace (S (i - 1)) with i in H3 by lia. }
  set (fin := for_ (2 * len + 1) _ st0).
  assert (x.[0] mod 2 = 1 -> y.[0] mod 2 = 1 -> bezout_inv x y len (2 * len + 1) fin) as Hinv.
  { intros Ox Oy. apply (for_ind (bezout_inv x y len)); [|intros i st _; by apply bezout_round_inv].
    destruct (take_limbs len x Hx) as [Ltx Ntx]. destruct (take_limbs len y Hy) as [Lty Nty]. fold X in Ntx. fold Y in Nty.
    assert (limbs len (replicate len 0)) as L0.
    { split; [rewrite length_replicate; lia|]. intros i Hi. unfold get. by rewrite lookup_replicate_2. }
    assert (nval (get (replicate len 0)) len = 0) as N0.
    { apply zsum_0. intros i Hi. unfold get. by rewrite lookup_replicate_2. }
    assert (forall w, limb w -> limbs len (replicate len 0).[0 <- w]) as L1.
    { intros w Hw. split; [rewrite length_set; apply L0|]. intros i Hi. rewrite get_set by (rewrite length_replicate; lia).
      case_decide; [done|by apply L0]. }
    assert (nval (get (replicate len 0).[0 <- 1]) len = 1) as N1.
    { apply nval_unit; [done| |rewrite get_set_eq; [done|rewrite length_replicate; lia]].
      intros i Hi. rewrite get_set_ne by lia. unfold get. rewrite lookup_replicate_2; [done|lia]. }
    assert (v1.[0] = x.[0]) as Ev0.
    { unfold v1. destruct Hx as [HLx _]. rewrite get_app_l by (rewrite length_take; lia). by apply get_take. }
    pose proof (proj2 Hx 0%nat Hlen) as Hx0. unfold limb in Hx0.
    assert (x.[0] <> 0) by (intros E; by rewrite E in Ox).
    assert (v1.[0] -% 1 = x.[0] - 1) as Ev1 by (rewrite Ev0; apply u32_small; lia).
    assert (limbs len v1.[0 <- v1.[0] -% 1]) as Lv1.
    { destruct Lv as [HLv Hlv]. split; [by rewrite length_set|]. intros i Hi. rewrite get_set by lia.
      case_decide; [rewrite Ev1; unfold limb; lia|by apply Hlv]. }
    assert (nval (get v1.[0 <- v1.[0] -% 1]) len = X - 1) as Nv1.
    { rewrite nval_set0, Nv, Ev1, Ev0 by (done || apply Lv). lia. }
    pose proof (limbs_range _ _ Hx) as RX. pose proof (limbs_range _ _ Hy) as RY. fold X in RX. fold Y in RY.
    pose proof (odd_nval len Hlen x Ox) as OX. pose proof (odd_nval len Hlen y Oy) as OY. fold X in OX. fold Y in OY.
    assert (0 < X) by (destruct (decide (X = 0)) as [E|]; [by rewrite E in OX|lia]).
    assert (0 < Y) by (destruct (decide (Y = 0)) as [E|]; [by rewrite E in OY|lia]).
    constructor; cbn [bz_a bz_b bz_u0 bz_u1 bz_v0 bz_v1 st0]; fold X Y; rewrite ?Ntx, ?Nty, ?N0, ?N1, ?Nu, ?Nv1; try lia.
    - split; [done|]. split; [done|]. split; [by apply L1|]. done.
    - cong_ring.
    - transitivity (0 + X * Y); [cong_ring|]. rewrite cong_mul_modulus. transitivity (0 + 1 * Y); [rewrite cong_mul_modulus|]; cong_ring.
    - transitivity (0 + (-1) * X); [rewrite cong_mul_modulus|]; cong_ring.
    - transitivity (- Y + Y * X); [cong_ring|apply cong_mul_modulus]. }
  destruct fin as [a b u0 u1 v0 v1'] eqn:Efin. intros [= Hr <- <- _]. apply Z.eqb_eq in Hr.
  destruct (Hend b Hr) as (Nb & Ox & Oy). destruct (Hinv Ox Oy) as [(La & Lb & Lu0 & Lu1 & Lv0 & Lv1) _ _ H1 _ H3 _ Hs].
  cbn [bz_a bz_b bz_u0 bz_u1 bz_v0 bz_v1] in *. destruct (Hs ltac:(lia)) as [SU SV]. fold X Y in H1, H3, SU, SV.
  set (U := nval (get u1) len) in *. set (V := nval (get v1') len) in *. rewrite Nb in H1, H3.
  pose proof (limbs_range _ _ Lu1) as RU. pose proof (limbs_range _ _ Lv1) as RV. fold U in RU. fold V in RV.
  apply cong_iff_divide in H1 as [c Hc], H3 as [d Hd].
  assert (Z.gcd X Y = 1) as Hgcd.
  { apply Z.bezout_1_gcd. exists U, (- c). lia. }
  split; [done|]. split; [done|]. split; [lia|]. split; [lia|]. split; [done|]. intros HY.
  assert ((X * Y | X * U - Y * V - 1)) as [e He].
  { assert ((X | X * U - Y * V - 1)) as [e He] by (exists (U - d); lia).
    assert ((Y | e)) as [e' He'].
    { apply (Z.gauss Y X); [|by rewrite Z.gcd_comm]. exists (c - V). lia. }
    exists e'. rewrite He, He'. ring. }
  apply small_multiple in He; [lia|]. nia.
Qed.
