(* ===== verification/ZintScaled.v ===== *)
(** Adding and subtracting scaled big integers ([zint_add_scaled_mul_small],
    [zint_sub_scaled]).

    The two functions run one loop: word [i] of 2^scl y, with the sign extended
    past its end, is worked into word [sch + i] of x. *)
From Stdlib Require Import ZArith Lia.
From stdpp Require Import base numbers list.
From S2P Require Import Prelude Mq Ntt Mp31Tables Mp31 Zint31 Zint31Facts ZintGcd.
Local Open Scope Z_scope.

Section Scaled.
Context (y : list Z) (ylen stride : nat) (scl : Z).
Context (Hy : number y stride ylen) (Hylen : (0 < ylen)%nat) (Hscl : 0 <= scl <= 30).

Definition ext_sign : Z := (-% (y.[stride * (ylen - 1)] .>> 30)) .>> 1.
(** The words of y, the sign extended; the part of word [i] that moves up into
    the next word; and the words of 2^scl y. *)
Definition ext_word (i : nat) : Z := if (i <? ylen)%nat then y.[i * stride] else ext_sign.
Definition up_part (i : nat) : Z := match i with O => 0 | S i' => ext_word i' .>> (31 -% scl) end.
Definition shifted_word (i : nat) : Z := (u32 (ext_word i .<< scl) .& 0x7FFFFFFF) .| up_part i.

Lemma top_word : words y stride (ylen - 1) = y.[stride * (ylen - 1)].
Proof. clear. unfold words. by rewrite Nat.mul_comm. Qed.

Lemma ext_sign_value : ext_sign = if decide (words y stride (ylen - 1) < 2 ^ 30) then 0 else 2 ^ 31 - 1.
Proof.
  pose proof (nb_limb _ _ _ Hy (ylen - 1)%nat ltac:(lia)) as Hl. unfold limb in Hl. unfold ext_sign. rewrite <- top_word.
  rewrite (shr_div _ 30) by lia. case_decide.
  - rewrite Z.div_small by lia. done.
  - assert (words y stride (ylen - 1) / 2 ^ 30 = 1) as ->; [|done].
    symmetry. apply (Z.div_unique_pos _ _ _ (words y stride (ylen - 1) - 2 ^ 30)); lia.
Qed.

Lemma ext_word_limb i : limb (ext_word i).
Proof.
  unfold ext_word. destruct (Nat.ltb_spec i ylen); [by apply (nb_limb _ _ _ Hy)|].
  rewrite ext_sign_value. unfold limb. case_decide; lia.
Qed.

(** The extended words are the two's complement of the signed number. *)
Lemma ext_value L : nval ext_word L ==[pw L] sval (words y stride) ylen.
Proof.
  assert (forall L, (L <= ylen)%nat -> nval ext_word L = nval (words y stride) L) as Hlow.
  { intros k Hk. apply nval_ext. intros i Hi. unfold ext_word. destruct (Nat.ltb_spec i ylen); [done|lia]. }
  assert (forall k, nval ext_word (ylen + k) = sval (words y stride) ylen +
    (if decide (words y stride (ylen - 1) < 2 ^ 30) then 0 else pw (ylen + k))) as Hhigh.
  { induction k as [|k IH].
    - rewrite Nat.add_0_r, Hlow by lia. unfold sval. case_decide; lia.
    - rewrite Nat.add_succ_r, nval_S, IH, pw_S. unfold ext_word. destruct (Nat.ltb_spec (ylen + k) ylen); [lia|].
      rewrite ext_sign_value. case_decide; ring. }
  destruct (decide (L <= ylen)%nat) as [HL|HL].
  - rewrite Hlow by done. unfold sval. set (w := words y stride). set (r := (ylen - L)%nat).
    assert (pw ylen = pw L * pw r) as Ep by (rewrite <- pw_add; f_equal; lia).
    assert (exists q, nval w ylen = nval w L + q * pw L) as [q Eq].
    { exists (zsum r (fun i => w (L + i)%nat * pw i)). replace ylen with (L + r)%nat by lia. unfold nval. rewrite zsum_app. f_equal.
      rewrite <- zsum_mul_r. apply zsum_ext. intros i Hi. rewrite pw_add. ring. }
    rewrite Eq, Ep. symmetry. destruct (decide (w (ylen - 1)%nat < 2 ^ 30)).
    + rewrite Z.sub_0_r. apply cong_mul_modulus.
    + transitivity (nval w L + (q - pw r) * pw L); [cong_ring|apply cong_mul_modulus].
  - replace L with (ylen + (L - ylen))%nat at 2 by lia. rewrite Hhigh. replace (ylen + (L - ylen))%nat with L by lia.
    case_decide; [cong_ring|]. transitivity (sval (words y stride) ylen + 1 * pw L); [cong_ring|apply cong_mul_modulus].
Qed.

Lemma shifted_parts w :
  limb w -> u32 (w .<< scl) .& 0x7FFFFFFF = (w mod 2 ^ (31 - scl)) * 2 ^ scl /\ w .>> (31 -% scl) = w / 2 ^ (31 - scl).
Proof.
  clear Hy Hylen. unfold limb. intros Hw. rewrite (u32_small (31 - scl)), shr_div by lia. split; [|done].
  destruct (low31_word (u32 (w .<< scl)) (u32_range _)) as (-> & _). rewrite u32_mod, shl_mul by lia.
  rewrite Z.mod_mod_divide by (by exists 2). replace (2 ^ 31) with (2 ^ (31 - scl) * 2 ^ scl) by (rewrite <- Z.pow_add_r by lia; f_equal; lia).
  rewrite Z.mul_mod_distr_r; [done|..]; apply Z.pow_nonzero; lia.
Qed.

Lemma up_part_range i : 0 <= up_part i < 2 ^ scl.
Proof.
  assert (0 < 2 ^ scl) by (apply Z.pow_pos_nonneg; lia). destruct i as [|i]; [cbn [up_part]; lia|].
  cbn [up_part]. pose proof (ext_word_limb i) as Hl. rewrite (proj2 (shifted_parts _ Hl)). unfold limb in Hl.
  assert (0 < 2 ^ (31 - scl)) by (apply Z.pow_pos_nonneg; lia).
  split; [apply Z.div_pos; lia|]. apply Z.div_lt_upper_bound; [lia|].
  rewrite <- Z.pow_add_r by lia. replace (31 - scl + scl) with 31 by lia. lia.
Qed.

Lemma shifted_word_eq i :
  limb (shifted_word i) /\ shifted_word i + 2 ^ 31 * up_part (S i) = 2 ^ scl * ext_word i + up_part i.
Proof.
  pose proof (ext_word_limb i) as Hl. destruct (shifted_parts _ Hl) as [E1 E2]. pose proof (up_part_range i) as Hu.
  assert (0 < 2 ^ (31 - scl)) as Hp by (apply Z.pow_pos_nonneg; lia).
  assert (0 < 2 ^ scl) as Hq by (apply Z.pow_pos_nonneg; lia).
  assert (2 ^ 31 = 2 ^ (31 - scl) * 2 ^ scl) as E31 by (rewrite <- Z.pow_add_r by lia; f_equal; lia).
  unfold shifted_word. rewrite E1, lor_shifted by lia. cbn [up_part]. rewrite E2.
  pose proof (Z.mod_pos_bound (ext_word i) (2 ^ (31 - scl)) Hp) as Hm. pose proof (Z.div_mod (ext_word i) (2 ^ (31 - scl)) ltac:(lia)) as Hd.
  unfold limb. rewrite E31. split; [nia|]. rewrite Hd at 3. ring.
Qed.

Lemma shifted_value L : nval shifted_word L + up_part L * pw L = 2 ^ scl * nval ext_word L.
Proof.
  induction L as [|L IH]; [cbn; lia|]. destruct (shifted_word_eq L) as [_ E]. rewrite !nval_S, pw_S.
  transitivity (nval shifted_word L + (shifted_word L + 2 ^ 31 * up_part (S L)) * pw L); [ring|]. rewrite E.
  transitivity (nval shifted_word L + up_part L * pw L + 2 ^ scl * ext_word L * pw L); [ring|]. rewrite IH. ring.
Qed.

(** The loop of both functions, with the step [G] of a word. *)
Definition scaled_body (G : Z -> Z -> Z -> Z * Z) (pos : nat -> nat) (i : nat) : list Z * Z * Z * nat * nat -> list Z * Z * Z * nat * nat :=
  fun '(x, tw, cc, j, ylen) =>
    let '(wy, j, ylen) := if (0 <? ylen)%nat then (y.[j], (j + stride)%nat, (ylen - 1)%nat) else (ext_sign, j, ylen) in
    let wys := (u32 (wy .<< scl) .& 0x7FFFFFFF) .| tw in
    let tw := wy .>> (31 -% scl) in
    let '(w, c) := G wys x.[pos i] cc in
    (x.[pos i <- w], tw, c, j, ylen).

Lemma scaled_loop G pos L x :
  for_ L (scaled_body G pos) (x, 0, 0, 0%nat, ylen) =
  (let '(x', c) := carry_loop (fun i w cc => G (shifted_word i) w cc) pos L x 0 in
   (x', up_part L, c, (Nat.min L ylen * stride)%nat, (ylen - L)%nat)).
Proof.
  clear Hy Hylen Hscl. induction L as [|L IH]; [by rewrite Nat.sub_0_r|].
  unfold carry_loop in *. rewrite !for_S, IH. destruct (for_ L _ (x, 0)) as [x' c].
  unfold scaled_body. unfold shifted_word, ext_word. destruct (Nat.ltb_spec 0 (ylen - L)), (Nat.ltb_spec L ylen); try lia.
  - replace (Nat.min L ylen) with L by lia. replace (Nat.min (S L) ylen) with (S L) by lia. destruct (G _ _ _) as [w c']. cbn [up_part]. unfold ext_word.
    destruct (Nat.ltb_spec L ylen); [|lia]. f_equal; [f_equal|]; lia.
  - replace (Nat.min L ylen) with ylen by lia. replace (Nat.min (S L) ylen) with ylen by lia.
    destruct (G _ _ _) as [w c']. cbn [up_part]. unfold ext_word. destruct (Nat.ltb_spec L ylen); [lia|]. f_equal. lia.
Qed.

(** Both functions: the words from [sch] up take a multiple of the signed number. *)
Lemma scaled_spec (V : Z -> Z) (C : Z -> Prop) (k : Z) G x xlen sch :
  number x stride xlen -> (sch <= xlen)%nat -> C 0 -> V 0 = 0 ->
  (forall wys w c, limb wys -> limb w -> C c ->
     let '(wo, c') := G wys w c in limb wo /\ C c' /\ wo + 2 ^ 31 * V c' = (w + k * wys) + V c) ->
  let x' := fst (carry_loop (fun i w cc => G (shifted_word i) w cc) (fun i => (sch + i) * stride)%nat (xlen - sch) x 0) in
  number x' stride xlen /\ length x' = length x /\
  nval (words x' stride) xlen ==[pw xlen] nval (words x stride) xlen + k * 2 ^ (31 * Z.of_nat sch + scl) * sval (words y stride) ylen /\
  (forall m, (forall i, (i < xlen)%nat -> m <> (i * stride)%nat) -> x'.[m] = x.[m]).
Proof using Hy Hylen Hscl.
  intros Hx Hsch HC HV0 HG. cbv zeta. set (L := (xlen - sch)%nat).
  pose proof (carry_loop_value (fun i w cc => G (shifted_word i) w cc) V C (fun i => words x stride (sch + i) + k * shifted_word i)
    (fun i => (sch + i) * stride)%nat L x 0) as H.
  destruct (carry_loop _ _ L x 0) as [x' c]. cbn [fst]. destruct H as (HL & Hc & Hw & HV & HO).
  { intros i j Hi Hj E. apply stride_inj in E; [lia|apply Hx]. }
  { intros i Hi. apply (nb_room _ _ _ Hx). lia. }
  { done. }
  { intros i cc Hi Hc. apply HG; [apply shifted_word_eq|apply (nb_limb _ _ _ Hx); lia|done]. }
  assert (forall i, (i < sch)%nat -> words x' stride i = words x stride i) as Hlow.
  { intros i Hi. apply HO. intros j Hj E. apply stride_inj in E; [lia|apply Hx]. }
  split; [|split; [done|split]].
  - destruct Hx as [H1 H2 H3]. split; [done|intros; rewrite HL; auto|]. intros i Hi.
    destruct (decide (i < sch)%nat); [rewrite Hlow by done; auto|]. replace i with (sch + (i - sch))%nat by lia. apply Hw. lia.
  - assert (forall z, nval (words z stride) xlen = nval (words z stride) sch + pw sch * nval (fun i => words z stride (sch + i)) L) as Hsplit.
    { intros z. replace xlen with (sch + L)%nat by lia. unfold nval. rewrite zsum_app, <- zsum_mul_l. f_equal.
      apply zsum_ext. intros i Hi. rewrite pw_add. ring. }
    rewrite !Hsplit, (nval_ext _ _ _ Hlow).
    assert (nval (fun i => words x' stride (sch + i)) L = nval (fun i => words x stride (sch + i) + k * shifted_word i) L - V c * pw L) as ->.
    { rewrite HV0 in HV. unfold words in *. lia. }
    assert (nval (fun i => words x stride (sch + i) + k * shifted_word i) L =
      nval (fun i => words x stride (sch + i)) L + k * nval shifted_word L) as ->.
    { unfold nval. rewrite <- zsum_mul_l, <- zsum_plus. apply zsum_ext. intros. ring. }
    pose proof (shifted_value L) as Hs. destruct (proj1 (cong_iff_divide _ _ _) (ext_value L)) as [q Hq].
    replace (2 ^ (31 * Z.of_nat sch + scl)) with (pw sch * 2 ^ scl) by (unfold pw; rewrite <- Z.pow_add_r by lia; done).
    replace xlen with (sch + L)%nat by lia. rewrite pw_add.
    apply cong_iff_divide. exists (- V c - k * up_part L + k * 2 ^ scl * q).
    assert (nval shifted_word L = 2 ^ scl * (sval (words y stride) ylen + q * pw L) - up_part L * pw L) as -> by nia. ring.
  - intros m Hm. apply HO. intros i Hi. apply Hm. lia.
Qed.
End Scaled.

(** * The two functions *)

Definition add_scaled_step (k wys xw cc : Z) : Z * Z :=
  let z := u64 (i64 (i64 (i64 (wys * k) + xw) + cc)) in (u32 z .& 0x7FFFFFFF, i32 (z .>> 31)).

(** The arithmetic shift of a signed value, done on its unsigned pattern. *)
Lemma signed_carry v : - 2 ^ 62 <= v < 2 ^ 62 -> i32 (u64 v .>> 31) = v / 2 ^ 31 /\ u32 (u64 v) .& 0x7FFFFFFF = v mod 2 ^ 31.
Proof.
  intros Hv. pose proof (split31 v) as Hs. pose proof (mod31_limb v) as Hm. unfold limb in Hm. rewrite shr_div by lia. split.
  - unfold i32. destruct (decide (0 <= v)).
    + rewrite (u64_small v) by lia. rewrite u32_small by lia. lia.
    + assert (u64 v = v + 2 ^ 64) as -> by (rewrite u64_mod; symmetry; apply (Z.mod_unique_pos _ _ (-1)); lia).
      replace ((v + 2 ^ 64) / 2 ^ 31) with (v / 2 ^ 31 + 2 ^ 33) by (change (2 ^ 64) with (2 ^ 33 * 2 ^ 31); rewrite Z.div_add; lia).
      rewrite (u32_eq _ (v / 2 ^ 31 + 2147483648)).
      * rewrite u32_small by lia. lia.
      * transitivity (v / 2 ^ 31 + 2147483648 + 2 * 2 ^ 32); [cong_ring|apply cong_mul_modulus].
  - rewrite low31 by apply u64_range. rewrite u64_mod. apply Z.mod_mod_divide. by exists (2 ^ 33).
Qed.

Lemma add_scaled_step_spec k wys w c :
  - 2 ^ 31 <= k < 2 ^ 31 -> limb wys -> limb w -> - 2 ^ 31 <= c < 2 ^ 31 ->
  let '(wo, c') := add_scaled_step k wys w c in limb wo /\ - 2 ^ 31 <= c' < 2 ^ 31 /\ wo + 2 ^ 31 * c' = (w + k * wys) + c.
Proof.
  unfold limb, add_scaled_step. intros Hk Hy Hw Hc. cbv zeta.
  assert (- ((2 ^ 31 - 1) * 2 ^ 31) <= wys * k <= (2 ^ 31 - 1) * (2 ^ 31 - 1)) as Hb by nia.
  rewrite (i64_small (wys * k)), (i64_small (_ + w)), i64_small by lia.
  destruct (signed_carry (wys * k + w + c)) as [-> ->]; [lia|]. split; [apply mod31_limb|].
  set (v := wys * k + w + c) in *. pose proof (split31 v) as Hs. pose proof (mod31_limb v) as Hm. unfold limb in Hm. lia.
Qed.

Lemma zint_add_scaled_mul_small_spec x xlen y ylen stride k sch scl :
  number y stride ylen -> (0 < ylen)%nat -> number x stride xlen -> 0 <= scl <= 30 -> 0 <= sch <= Z.of_nat xlen ->
  - 2 ^ 31 <= k < 2 ^ 31 ->
  let x' := zint_add_scaled_mul_small x xlen y ylen stride k sch scl in
  number x' stride xlen /\ length x' = length x /\
  nval (words x' stride) xlen ==[pw xlen] nval (words x stride) xlen + k * 2 ^ (31 * sch + scl) * sval (words y stride) ylen /\
  (forall m, (forall i, (i < xlen)%nat -> m <> (i * stride)%nat) -> x'.[m] = x.[m]).
Proof.
  intros Hy Hylen Hx Hscl Hsch Hk. cbv zeta.
  assert (zint_add_scaled_mul_small x xlen y ylen stride k sch scl =
    fst (carry_loop (fun i w cc => add_scaled_step k (shifted_word y ylen stride scl i) w cc)
      (fun i => (Z.to_nat sch + i) * stride)%nat (xlen - Z.to_nat sch) x 0)) as ->.
  { unfold zint_add_scaled_mul_small. destruct (Nat.eqb_spec ylen 0); [lia|].
    pose proof (scaled_loop y ylen stride scl (add_scaled_step k) (fun i => (Z.to_nat sch + i) * stride)%nat (xlen - Z.to_nat sch) x) as H.
    destruct (carry_loop _ _ _ x 0) as [x' c]. cbn [fst].
    match type of H with ?l = _ => transitivity (let '(x, _, _, _, _) := l in x); [reflexivity|by rewrite H] end. }
  replace (31 * sch) with (31 * Z.of_nat (Z.to_nat sch)) by lia.
  apply (scaled_spec y ylen stride scl Hy Hylen Hscl (fun c => c) (fun c => - 2 ^ 31 <= c < 2 ^ 31) k (add_scaled_step k)); [done|lia|lia|done|].
  intros. by apply add_scaled_step_spec.
Qed.

Definition sub_scaled_step (wys xw cc : Z) : Z * Z := let w := xw -% wys -% cc in (w .& 0x7FFFFFFF, w .>> 31).

Lemma zint_sub_scaled_spec x xlen y ylen stride sch scl :
  number y stride ylen -> (0 < ylen)%nat -> number x stride xlen -> 0 <= scl <= 30 -> 0 <= sch <= Z.of_nat xlen ->
  let x' := zint_sub_scaled x xlen y ylen stride sch scl in
  number x' stride xlen /\ length x' = length x /\
  nval (words x' stride) xlen ==[pw xlen] nval (words x stride) xlen - 2 ^ (31 * sch + scl) * sval (words y stride) ylen /\
  (forall m, (forall i, (i < xlen)%nat -> m <> (i * stride)%nat) -> x'.[m] = x.[m]).
Proof.
  intros Hy Hylen Hx Hscl Hsch. cbv zeta.
  assert (zint_sub_scaled x xlen y ylen stride sch scl =
    fst (carry_loop (fun i w cc => sub_scaled_step (shifted_word y ylen stride scl i) w cc)
      (fun i => (Z.to_nat sch + i) * stride)%nat (xlen - Z.to_nat sch) x 0)) as ->.
  { unfold zint_sub_scaled. destruct (Nat.eqb_spec ylen 0); [lia|].
    pose proof (scaled_loop y ylen stride scl sub_scaled_step (fun i => (Z.to_nat sch + i) * stride)%nat (xlen - Z.to_nat sch) x) as H.
    destruct (carry_loop _ _ _ x 0) as [x' c]. cbn [fst].
    match type of H with ?l = _ => transitivity (let '(x, _, _, _, _) := l in x); [reflexivity|by rewrite H] end. }
  replace (31 * sch) with (31 * Z.of_nat (Z.to_nat sch)) by lia.
  replace (nval (words x stride) xlen - _) with
    (nval (words x stride) xlen + (-1) * 2 ^ (31 * Z.of_nat (Z.to_nat sch) + scl) * sval (words y stride) ylen) by ring.
  apply (scaled_spec y ylen stride scl Hy Hylen Hscl Z.opp borrow (-1) sub_scaled_step); [done|lia|by left|done|].
  intros wys w c H1 H2 H3. unfold sub_scaled_step.
  destruct (sub_word_spec w wys c H2 H1 H3) as (G1 & G2 & G3). cbv zeta. rewrite G3. split; [done|]. split; [done|]. lia.
Qed.
