(* ===== verification/FxrTable.v ===== *)
(** The table [gm_tab] of [kgen_fxr.go]: the roots of unity of the fixed-point
    FFT, real and imaginary part of each in turn, as the code writes them. *)
From Stdlib Require Import ZArith List.
Import ListNotations.
Local Open Scope Z_scope.

(** Lines 179 to 325. *)
Definition gm_rows_1 : list (Z * Z) := [
  (4294967296, 0);
  (0, 4294967296);
  (3037000500, 3037000500);
  (18446744070672551116, 3037000500);
  (3968032378, 1643612827);
  (18446744072065938789, 3968032378);
  (1643612827, 3968032378);
  (18446744069741519238, 1643612827);
  (4212440704, 837906553);
  (18446744072871645063, 4212440704);
  (2386155981, 3571134792);
  (18446744070138416824, 2386155981);
  (3571134792, 2386155981);
  (18446744071323395635, 3571134792);
  (837906553, 4212440704);
  (18446744069497110912, 837906553);
  (4274285855, 420980412);
  (18446744073288571204, 4274285855);
  (2724698408, 3320054617);
  (18446744070389496999, 2724698408);
  (3787822988, 2024633568);
  (18446744071684918048, 3787822988);
  (1246763195, 4110027446);
  (18446744069599524170, 1246763195);
  (4110027446, 1246763195);
  (18446744072462788421, 4110027446);
  (2024633568, 3787822988);
  (18446744069921728628, 2024633568);
  (3320054617, 2724698408);
  (18446744070984853208, 3320054617);
  (420980412, 4274285855);
  (18446744069435265761, 420980412);
  (4289793820, 210744057);
  (18446744073498807559, 4289793820);
  (2884323748, 3182360851);
  (18446744070527190765, 2884323748);
  (3882604450, 1836335144);
  (18446744071873216472, 3882604450);
  (1446930903, 4043900968);
  (18446744069665650648, 1446930903);
  (4166252509, 1043591926);
  (18446744072665959690, 4166252509);
  (2208054473, 3683916329);
  (18446744070025635287, 2208054473);
  (3449750080, 2558509031);
  (18446744071151042585, 3449750080);
  (630202589, 4248480760);
  (18446744069461070856, 630202589);
  (4248480760, 630202589);
  (18446744073079349027, 4248480760);
  (2558509031, 3449750080);
  (18446744070259801536, 2558509031);
  (3683916329, 2208054473);
  (18446744071501497143, 3683916329);
  (1043591926, 4166252509);
  (18446744069543299107, 1043591926);
  (4043900968, 1446930903);
  (18446744072262620713, 4043900968);
  (1836335144, 3882604450);
  (18446744069826947166, 1836335144);
  (3182360851, 2884323748);
  (18446744070825227868, 3182360851);
  (210744057, 4289793820);
  (18446744069419757796, 210744057);
  (4293673732, 105403774);
  (18446744073604147842, 4293673732);
  (2961554089, 3110617535);
  (18446744070598934081, 2961554089);
  (3926501002, 1740498191);
  (18446744071969053425, 3926501002);
  (1545737412, 4007173558);
  (18446744069702378058, 1545737412);
  (4190608739, 941032661);
  (18446744072768518955, 4190608739);
  (2297797281, 3628618433);
  (18446744070080933183, 2297797281);
  (3511500034, 2473077351);
  (18446744071236474265, 3511500034);
  (734275721, 4231735252);
  (18446744069477816364, 734275721);
  (4262667143, 525749847);
  (18446744073183801769, 4262667143);
  (2642399561, 3385922125);
  (18446744070323629491, 2642399561);
  (3736995171, 2116981616);
  (18446744071592570000, 3736995171);
  (1145522571, 4139386683);
  (18446744069570164933, 1145522571);
  (4078192482, 1347252816);
  (18446744072362298800, 4078192482);
  (1931065957, 3836369162);
  (18446744069873182454, 1931065957);
  (3252187232, 2805355999);
  (18446744070904195617, 3252187232);
  (315957395, 4283329896);
  (18446744069426221720, 315957395);
  (4283329896, 315957395);
  (18446744073393594221, 4283329896);
  (2805355999, 3252187232);
  (18446744070457364384, 2805355999);
  (3836369162, 1931065957);
  (18446744071778485659, 3836369162);
  (1347252816, 4078192482);
  (18446744069631359134, 1347252816);
  (4139386683, 1145522571);
  (18446744072564029045, 4139386683);
  (2116981616, 3736995171);
  (18446744069972556445, 2116981616);
  (3385922125, 2642399561);
  (18446744071067152055, 3385922125);
  (525749847, 4262667143);
  (18446744069446884473, 525749847);
  (4231735252, 734275721);
  (18446744072975275895, 4231735252);
  (2473077351, 3511500034);
  (18446744070198051582, 2473077351);
  (3628618433, 2297797281);
  (18446744071411754335, 3628618433);
  (941032661, 4190608739);
  (18446744069518942877, 941032661);
  (4007173558, 1545737412);
  (18446744072163814204, 4007173558);
  (1740498191, 3926501002);
  (18446744069783050614, 1740498191);
  (3110617535, 2961554089);
  (18446744070747997527, 3110617535);
  (105403774, 4293673732);
  (18446744069415877884, 105403774);
  (4294643893, 52705856);
  (18446744073656845760, 4294643893);
  (2999503152, 3074040487);
  (18446744070635511129, 2999503152);
  (3947563934, 1692182927);
  (18446744072017368689, 3947563934);
  (1594795204, 3987903250);
  (18446744069721648366, 1594795204);
  (4201841112, 889536587);
  (18446744072820015029, 4201841112);
  (2342152991, 3600147697);
  (18446744070109403919, 2342152991);
  (3541584088, 2429799626);
  (18446744071279751990, 3541584088);
  (786150333, 4222405917);
  (18446744069487145699, 786150333);
  (4268797931, 473400776);
  (18446744073236150840, 4268797931);
  (2683751066, 3353240863)
].

(** Lines 326 to 472. *)
Definition gm_rows_2 : list (Z * Z) := [
  (18446744070356310753, 2683751066);
  (3762692404, 2070963532);
  (18446744071638588084, 3762692404);
  (1196232957, 4125017671);
  (18446744069584533945, 1196232957);
  (4094418266, 1297105676);
  (18446744072412445940, 4094418266);
  (1977998702, 3812383140);
  (18446744069897168476, 1977998702);
  (3286368382, 2765235421);
  (18446744070944316195, 3286368382);
  (368496651, 4279130086);
  (18446744069430421530, 368496651);
  (4286884652, 263370557);
  (18446744073446181059, 4286884652);
  (2845054101, 3217516315);
  (18446744070492035301, 2845054101);
  (3859777440, 1883842400);
  (18446744071825709216, 3859777440);
  (1397197066, 4061352537);
  (18446744069648199079, 1397197066);
  (4153132319, 1094639673);
  (18446744072614911943, 4153132319);
  (2162680890, 3710735162);
  (18446744069998816454, 2162680890);
  (3418093478, 2600650120);
  (18446744071108901496, 3418093478);
  (578019742, 4255894413);
  (18446744069453657203, 578019742);
  (4240427302, 682290530);
  (18446744073027261086, 4240427302);
  (2515982640, 3480887161);
  (18446744070228664455, 2515982640);
  (3656542712, 2253095531);
  (18446744071456456085, 3656542712);
  (992387019, 4178745276);
  (18446744069530806340, 992387019);
  (4025840401, 1496446837);
  (18446744072213104779, 4025840401);
  (1788551342, 3904846754);
  (18446744069804704862, 1788551342);
  (3146726136, 2923159027);
  (18446744070786392589, 3146726136);
  (158085819, 4292056960);
  (18446744069417494656, 158085819);
  (4292056960, 158085819);
  (18446744073551465797, 4292056960);
  (2923159027, 3146726136);
  (18446744070562825480, 2923159027);
  (3904846754, 1788551342);
  (18446744071921000274, 3904846754);
  (1496446837, 4025840401);
  (18446744069683711215, 1496446837);
  (4178745276, 992387019);
  (18446744072717164597, 4178745276);
  (2253095531, 3656542712);
  (18446744070053008904, 2253095531);
  (3480887161, 2515982640);
  (18446744071193568976, 3480887161);
  (682290530, 4240427302);
  (18446744069469124314, 682290530);
  (4255894413, 578019742);
  (18446744073131531874, 4255894413);
  (2600650120, 3418093478);
  (18446744070291458138, 2600650120);
  (3710735162, 2162680890);
  (18446744071546870726, 3710735162);
  (1094639673, 4153132319);
  (18446744069556419297, 1094639673);
  (4061352537, 1397197066);
  (18446744072312354550, 4061352537);
  (1883842400, 3859777440);
  (18446744069849774176, 1883842400);
  (3217516315, 2845054101);
  (18446744070864497515, 3217516315);
  (263370557, 4286884652);
  (18446744069422666964, 263370557);
  (4279130086, 368496651);
  (18446744073341054965, 4279130086);
  (2765235421, 3286368382);
  (18446744070423183234, 2765235421);
  (3812383140, 1977998702);
  (18446744071731552914, 3812383140);
  (1297105676, 4094418266);
  (18446744069615133350, 1297105676);
  (4125017671, 1196232957);
  (18446744072513318659, 4125017671);
  (2070963532, 3762692404);
  (18446744069946859212, 2070963532);
  (3353240863, 2683751066);
  (18446744071025800550, 3353240863);
  (473400776, 4268797931);
  (18446744069440753685, 473400776);
  (4222405917, 786150333);
  (18446744072923401283, 4222405917);
  (2429799626, 3541584088);
  (18446744070167967528, 2429799626);
  (3600147697, 2342152991);
  (18446744071367398625, 3600147697);
  (889536587, 4201841112);
  (18446744069507710504, 889536587);
  (3987903250, 1594795204);
  (18446744072114756412, 3987903250);
  (1692182927, 3947563934);
  (18446744069761987682, 1692182927);
  (3074040487, 2999503152);
  (18446744070710048464, 3074040487);
  (52705856, 4294643893);
  (18446744069414907723, 52705856);
  (4294886444, 26353424);
  (18446744073683198192, 4294886444);
  (3018308645, 3055578014);
  (18446744070653973602, 3018308645);
  (3957872662, 1667929275);
  (18446744072041622341, 3957872662);
  (1619234497, 3978042699);
  (18446744069731508917, 1619234497);
  (4207220108, 863737830);
  (18446744072845813786, 4207220108);
  (2364198992, 3585708745);
  (18446744070123842871, 2364198992);
  (3556426389, 2408023134);
  (18446744071301528482, 3556426389);
  (812043729, 4217502704);
  (18446744069492048912, 812043729);
  (4271622305, 447199012);
  (18446744073262352604, 4271622305);
  (2704275644, 3336710553);
  (18446744070372841063, 2704275644);
  (3775328765, 2047837100);
  (18446744071661714516, 3775328765);
  (1221521071, 4117600071);
  (18446744069591951545, 1221521071);
  (4102300081, 1271958380);
  (18446744072437593236, 4102300081);
  (2001353810, 3800174601);
  (18446744069909377015, 2001353810);
  (3303273682, 2745018589);
  (18446744070964533027, 3303273682);
  (394745962, 4276788480);
  (18446744069432763136, 394745962);
  (4288419964, 237061769);
  (18446744073472489847, 4288419964);
  (2864742853, 3199998822);
  (18446744070509552794, 2864742853);
  (3871263820, 1860123788);
  (18446744071849427828, 3871263820)
].

(** Lines 473 to 619. *)
Definition gm_rows_3 : list (Z * Z) := [
  (1422090755, 4052703044);
  (18446744069656848572, 1422090755);
  (4159770720, 1069135926);
  (18446744072640415690, 4159770720);
  (2185408821, 3697395348);
  (18446744070012156268, 2185408821);
  (3433986423, 2579628136);
  (18446744071129923480, 3433986423);
  (604122538, 4252267634);
  (18446744069457283982, 604122538);
  (4244533933, 656258914);
  (18446744073053292702, 4244533933);
  (2537293599, 3465383855);
  (18446744070244167761, 2537293599);
  (3670298613, 2230616993);
  (18446744071478934623, 3670298613);
  (1018008636, 4172577440);
  (18446744069536974176, 1018008636);
  (4034946641, 1471716574);
  (18446744072237835042, 4034946641);
  (1812477362, 3893798902);
  (18446744069815752714, 1812477362);
  (3164603066, 2903796051);
  (18446744070805755565, 3164603066);
  (184418409, 4291006167);
  (18446744069418545449, 184418409);
  (4292946160, 131747276);
  (18446744073577804340, 4292946160);
  (2942411948, 3128730733);
  (18446744070580820883, 2942411948);
  (3915747591, 1764557983);
  (18446744071944993633, 3915747591);
  (1521120759, 4016582591);
  (18446744069692969025, 1521120759);
  (4184755784, 966728038);
  (18446744072742823578, 4184755784);
  (2275489241, 3642649144);
  (18446744070066902472, 2275489241);
  (3496259414, 2494576955);
  (18446744071214974661, 3496259414);
  (708296459, 4236161021);
  (18446744069473390595, 708296459);
  (4259360959, 551895183);
  (18446744073157656433, 4259360959);
  (2621574191, 3402071844);
  (18446744070307479772, 2621574191);
  (3723935269, 2139871536);
  (18446744071569680080, 3723935269);
  (1120102207, 4146337555);
  (18446744069563214061, 1120102207);
  (4069849124, 1372250773);
  (18446744072337300843, 4069849124);
  (1907490086, 3848145741);
  (18446744069861405875, 1907490086);
  (3234912670, 2825258235);
  (18446744070884293381, 3234912670);
  (289669429, 4285187942);
  (18446744069424363674, 289669429);
  (4281310585, 342233465);
  (18446744073367318151, 4281310585);
  (2785348143, 3269339351);
  (18446744070440212265, 2785348143);
  (3824448145, 1954569124);
  (18446744071754982492, 3824448145);
  (1322204136, 4086382299);
  (18446744069623169317, 1322204136);
  (4132279966, 1170899806);
  (18446744072538651810, 4132279966);
  (2094011993, 3749914379);
  (18446744069959637237, 2094011993);
  (3369644927, 2663125446);
  (18446744071046426170, 3369644927);
  (499584716, 4265812840);
  (18446744069443738776, 499584716);
  (4227150159, 760227338);
  (18446744072949324278, 4227150159);
  (2451484637, 3526608449);
  (18446744070182943167, 2451484637);
  (3614451106, 2320018810);
  (18446744071389532806, 3614451106);
  (915301854, 4196303920);
  (18446744069513247696, 915301854);
  (3997613658, 1570295869);
  (18446744072139255747, 3997613658);
  (1716372869, 3937106583);
  (18446744069772445033, 1716372869);
  (3092387225, 2980584729);
  (18446744070728966887, 3092387225);
  (79056303, 4294239650);
  (18446744069415311966, 79056303);
  (4294239650, 79056303);
  (18446744073630495313, 4294239650);
  (2980584729, 3092387225);
  (18446744070617164391, 2980584729);
  (3937106583, 1716372869);
  (18446744071993178747, 3937106583);
  (1570295869, 3997613658);
  (18446744069711937958, 1570295869);
  (4196303920, 915301854);
  (18446744072794249762, 4196303920);
  (2320018810, 3614451106);
  (18446744070095100510, 2320018810);
  (3526608449, 2451484637);
  (18446744071258066979, 3526608449);
  (760227338, 4227150159);
  (18446744069482401457, 760227338);
  (4265812840, 499584716);
  (18446744073209966900, 4265812840);
  (2663125446, 3369644927);
  (18446744070339906689, 2663125446);
  (3749914379, 2094011993);
  (18446744071615539623, 3749914379);
  (1170899806, 4132279966);
  (18446744069577271650, 1170899806);
  (4086382299, 1322204136);
  (18446744072387347480, 4086382299);
  (1954569124, 3824448145);
  (18446744069885103471, 1954569124);
  (3269339351, 2785348143);
  (18446744070924203473, 3269339351);
  (342233465, 4281310585);
  (18446744069428241031, 342233465);
  (4285187942, 289669429);
  (18446744073419882187, 4285187942);
  (2825258235, 3234912670);
  (18446744070474638946, 2825258235);
  (3848145741, 1907490086);
  (18446744071802061530, 3848145741);
  (1372250773, 4069849124);
  (18446744069639702492, 1372250773);
  (4146337555, 1120102207);
  (18446744072589449409, 4146337555);
  (2139871536, 3723935269);
  (18446744069985616347, 2139871536);
  (3402071844, 2621574191);
  (18446744071087977425, 3402071844);
  (551895183, 4259360959);
  (18446744069450190657, 551895183);
  (4236161021, 708296459);
  (18446744073001255157, 4236161021);
  (2494576955, 3496259414);
  (18446744070213292202, 2494576955);
  (3642649144, 2275489241);
  (18446744071434062375, 3642649144);
  (966728038, 4184755784);
  (18446744069524795832, 966728038);
  (4016582591, 1521120759)
].

(** Lines 620 to 766. *)
Definition gm_rows_4 : list (Z * Z) := [
  (18446744072188430857, 4016582591);
  (1764557983, 3915747591);
  (18446744069793804025, 1764557983);
  (3128730733, 2942411948);
  (18446744070767139668, 3128730733);
  (131747276, 4292946160);
  (18446744069416605456, 131747276);
  (4291006167, 184418409);
  (18446744073525133207, 4291006167);
  (2903796051, 3164603066);
  (18446744070544948550, 2903796051);
  (3893798902, 1812477362);
  (18446744071897074254, 3893798902);
  (1471716574, 4034946641);
  (18446744069674604975, 1471716574);
  (4172577440, 1018008636);
  (18446744072691542980, 4172577440);
  (2230616993, 3670298613);
  (18446744070039253003, 2230616993);
  (3465383855, 2537293599);
  (18446744071172258017, 3465383855);
  (656258914, 4244533933);
  (18446744069465017683, 656258914);
  (4252267634, 604122538);
  (18446744073105429078, 4252267634);
  (2579628136, 3433986423);
  (18446744070275565193, 2579628136);
  (3697395348, 2185408821);
  (18446744071524142795, 3697395348);
  (1069135926, 4159770720);
  (18446744069549780896, 1069135926);
  (4052703044, 1422090755);
  (18446744072287460861, 4052703044);
  (1860123788, 3871263820);
  (18446744069838287796, 1860123788);
  (3199998822, 2864742853);
  (18446744070844808763, 3199998822);
  (237061769, 4288419964);
  (18446744069421131652, 237061769);
  (4276788480, 394745962);
  (18446744073314805654, 4276788480);
  (2745018589, 3303273682);
  (18446744070406277934, 2745018589);
  (3800174601, 2001353810);
  (18446744071708197806, 3800174601);
  (1271958380, 4102300081);
  (18446744069607251535, 1271958380);
  (4117600071, 1221521071);
  (18446744072488030545, 4117600071);
  (2047837100, 3775328765);
  (18446744069934222851, 2047837100);
  (3336710553, 2704275644);
  (18446744071005275972, 3336710553);
  (447199012, 4271622305);
  (18446744069437929311, 447199012);
  (4217502704, 812043729);
  (18446744072897507887, 4217502704);
  (2408023134, 3556426389);
  (18446744070153125227, 2408023134);
  (3585708745, 2364198992);
  (18446744071345352624, 3585708745);
  (863737830, 4207220108);
  (18446744069502331508, 863737830);
  (3978042699, 1619234497);
  (18446744072090317119, 3978042699);
  (1667929275, 3957872662);
  (18446744069751678954, 1667929275);
  (3055578014, 3018308645);
  (18446744070691242971, 3055578014);
  (26353424, 4294886444);
  (18446744069414665172, 26353424);
  (4294947083, 13176774);
  (18446744073696374842, 4294947083);
  (3027668821, 3046303593);
  (18446744070663248023, 3027668821);
  (3962971170, 1655778843);
  (18446744072053772773, 3962971170);
  (1631431340, 3973056236);
  (18446744069736495380, 1631431340);
  (4209850218, 850826195);
  (18446744072858725421, 4209850218);
  (2375188665, 3578438609);
  (18446744070131113007, 2375188665);
  (3563797363, 2397100839);
  (18446744071312450777, 3563797363);
  (824979024, 4214991540);
  (18446744069494560076, 824979024);
  (4272974189, 434091755);
  (18446744073275459861, 4272974189);
  (2714499801, 3328398249);
  (18446744070381153367, 2714499801);
  (3781593674, 2036244917);
  (18446744071673306699, 3781593674);
  (1234147941, 4113833119);
  (18446744069595718497, 1234147941);
  (4106183088, 1259366714);
  (18446744072450184902, 4106183088);
  (2013003163, 3794016650);
  (18446744069915534966, 2013003163);
  (3311679735, 2734871369);
  (18446744070974680247, 3311679735);
  (407865107, 4275557289);
  (18446744069433994327, 407865107);
  (4289127078, 223903967);
  (18446744073485647649, 4289127078);
  (2874546829, 3191194855);
  (18446744070518356761, 2874546829);
  (3876952381, 1848238164);
  (18446744071861313452, 3876952381);
  (1434517580, 4048321058);
  (18446744069661230558, 1434517580);
  (4163031206, 1056368897);
  (18446744072653182719, 4163031206);
  (2196741986, 3690673207);
  (18446744070018878409, 2196741986);
  (3441884449, 2569080674);
  (18446744071140470942, 3441884449);
  (617165468, 4250394200);
  (18446744069459157416, 617165468);
  (4246527332, 643233779);
  (18446744073066317837, 4246527332);
  (2547913306, 3457583240);
  (18446744070251968376, 2547913306);
  (3677124776, 2219346178);
  (18446744071490205438, 3677124776);
  (1030805132, 4169434596);
  (18446744069540117020, 1030805132);
  (4039442815, 1459330606);
  (18446744072250221010, 4039442815);
  (1824414839, 3888219974);
  (18446744069821331642, 1824414839);
  (3173496894, 2894073520);
  (18446744070815478096, 3173496894);
  (197582163, 4290420185);
  (18446744069419131431, 197582163);
  (4293330151, 118576083);
  (18446744073590975533, 4293330151);
  (2951996911, 3119688816);
  (18446744070589862800, 2951996911);
  (3921142750, 1752536335);
  (18446744071957015281, 3921142750);
  (1533436302, 4011896955);
  (18446744069697654661, 1533436302);
  (4187701970, 953884839);
  (18446744072755666777, 4187701970);
  (2286654023, 3635650898);
  (18446744070073900718, 2286654023)
].

(** Lines 767 to 913. *)
Definition gm_rows_5 : list (Z * Z) := [
  (3503896214, 2483838842);
  (18446744071225712774, 3503896214);
  (721289485, 4233968062);
  (18446744069475583554, 721289485);
  (4261034104, 538825051);
  (18446744073170726565, 4261034104);
  (2631999263, 3394012957);
  (18446744070315538659, 2631999263);
  (3730482776, 2128436593);
  (18446744071581115023, 3730482776);
  (1132817720, 4142881616);
  (18446744069566670000, 1132817720);
  (4074039976, 1359758194);
  (18446744072349793422, 4074039976);
  (1919287054, 3842275534);
  (18446744069867276082, 1919287054);
  (3243565216, 2815320366);
  (18446744070894231250, 3243565216);
  (302814837, 4284279082);
  (18446744069425272534, 302814837);
  (4282340394, 329096979);
  (18446744073380454637, 4282340394);
  (2795365227, 3260778637);
  (18446744070448772979, 2795365227);
  (3830426680, 1942826684);
  (18446744071766724932, 3830426680);
  (1334734758, 4082306603);
  (18446744069627245013, 1334734758);
  (4135852789, 1158216639);
  (18446744072551334977, 4135852789);
  (2105506713, 3743472393);
  (18446744069966079223, 2105506713);
  (3377799422, 2652774988);
  (18446744071056776628, 3377799422);
  (512669694, 4264260060);
  (18446744069445291556, 512669694);
  (4229462610, 747255046);
  (18446744072962296570, 4229462610);
  (2462292582, 3519070803);
  (18446744070190480813, 2462292582);
  (3621551813, 2308918911);
  (18446744071400632705, 3621551813);
  (928171626, 4193476065);
  (18446744069516075551, 928171626);
  (4002412444, 1558023973);
  (18446744072151527643, 4002412444);
  (1728443664, 3931822297);
  (18446744069777729319, 1728443664);
  (3101516976, 2971083391);
  (18446744070738468225, 3101516976);
  (92230472, 4293976900);
  (18446744069415574716, 92230472);
  (4294461982, 65881389);
  (18446744073643670227, 4294461982);
  (2990058012, 3083228366);
  (18446744070626323250, 2990058012);
  (3942353812, 1704285919);
  (18446744072005265697, 3942353812);
  (1582552984, 3992777245);
  (18446744069716774371, 1582552984);
  (4199092278, 902423468);
  (18446744072807128148, 4199092278);
  (2331096871, 3607316378);
  (18446744070102235238, 2331096871);
  (3534112901, 2440653617);
  (18446744071268897999, 3534112901);
  (773192474, 4224797921);
  (18446744069484753695, 773192474);
  (4267325469, 486495035);
  (18446744073223056581, 4267325469);
  (2673450838, 3361458715);
  (18446744070348092901, 2673450838);
  (3756321069, 2082497563);
  (18446744071627054053, 3756321069);
  (1183571952, 4128668249);
  (18446744069580883367, 1183571952);
  (4090419533, 1309661069);
  (18446744072399890547, 4090419533);
  (1966293167, 3818433613);
  (18446744069891118003, 1966293167);
  (3277869293, 2775304843);
  (18446744070934246773, 3277869293);
  (355366730, 4280240479);
  (18446744069429311137, 355366730);
  (4286056468, 276521294);
  (18446744073433030322, 4286056468);
  (2835169511, 3226229675);
  (18446744070483321941, 2835169511);
  (3853979728, 1895675165);
  (18446744071813876451, 3853979728);
  (1384730436, 4065619964);
  (18446744069643931652, 1384730436);
  (4149754467, 1107376152);
  (18446744072602175464, 4149754467);
  (2151286337, 3717352710);
  (18446744069992198906, 2151286337);
  (3410098710, 2611124444);
  (18446744071098427172, 3410098710);
  (564960121, 4257647723);
  (18446744069451903893, 564960121);
  (4238314108, 695296767);
  (18446744073014254849, 4238314108);
  (2505291588, 3488589706);
  (18446744070220961910, 2505291588);
  (3649613104, 2264303042);
  (18446744071445248574, 3649613104);
  (979562138, 4181770210);
  (18446744069527781406, 979562138);
  (4021230421, 1508790899);
  (18446744072200760717, 4021230421);
  (1776563023, 3910315575);
  (18446744069799236041, 1776563023);
  (3137743202, 2932799290);
  (18446744070776752326, 3137743202);
  (144917230, 4292521761);
  (18446744069417029855, 144917230);
  (4291551760, 171252920);
  (18446744073538298696, 4291551760);
  (2913491250, 3155679453);
  (18446744070553872163, 2913491250);
  (3899341179, 1800522825);
  (18446744071909028791, 3899341179);
  (1484088690, 4030412489);
  (18446744069679139127, 1484088690);
  (4175681009, 1005202558);
  (18446744072704349058, 4175681009);
  (2241866812, 3663437903);
  (18446744070046113713, 2241866812);
  (3473151854, 2526650010);
  (18446744071182901606, 3473151854);
  (669277872, 4242500584);
  (18446744069467051032, 669277872);
  (4254101044, 591073921);
  (18446744073118477695, 4254101044);
  (2590151318, 3426056074);
  (18446744070283495542, 2590151318);
  (3704082687, 2174055087);
  (18446744071535496529, 3704082687);
  (1081892891, 4156471081);
  (18446744069553080535, 1081892891);
  (4057046884, 1409650544);
  (18446744072299901072, 4057046884);
  (1871991904, 3865538822);
  (18446744069844012794, 1871991904);
  (3208772670, 2854911913);
  (18446744070854639703, 3208772670);
  (250217341, 4287672487)
].

(** Lines 914 to 1060. *)
Definition gm_rows_6 : list (Z * Z) := [
  (18446744069421879129, 250217341);
  (4277979416, 381623102);
  (18446744073327928514, 4277979416);
  (2755139971, 3294836538);
  (18446744070414715078, 2755139971);
  (3806296784, 1989685620);
  (18446744071719865996, 3806296784);
  (1284538073, 4098378461);
  (18446744069611173155, 1284538073);
  (4121328267, 1208882703);
  (18446744072500668913, 4121328267);
  (2059410008, 3769028322);
  (18446744069940523294, 2059410008);
  (3344991450, 2694026034);
  (18446744071015525582, 3344991450);
  (460302060, 4270230215);
  (18446744069439321401, 460302060);
  (4219974170, 799100792);
  (18446744072910450824, 4219974170);
  (2418922764, 3549021941);
  (18446744070160529675, 2418922764);
  (3592945130, 2353187066);
  (18446744071356364550, 3592945130);
  (876641334, 4204550397);
  (18446744069505001219, 876641334);
  (3982991719, 1607022414);
  (18446744072102529202, 3982991719);
  (1680064008, 3952736900);
  (18446744069756814716, 1680064008);
  (3064823674, 3008920059);
  (18446744070700631557, 3064823674);
  (39529826, 4294785381);
  (18446744069414766235, 39529826);
  (4294785381, 39529826);
  (18446744073670021790, 4294785381);
  (3008920059, 3064823674);
  (18446744070644727942, 3008920059);
  (3952736900, 1680064008);
  (18446744072029487608, 3952736900);
  (1607022414, 3982991719);
  (18446744069726559897, 1607022414);
  (4204550397, 876641334);
  (18446744072832910282, 4204550397);
  (2353187066, 3592945130);
  (18446744070116606486, 2353187066);
  (3549021941, 2418922764);
  (18446744071290628852, 3549021941);
  (799100792, 4219974170);
  (18446744069489577446, 799100792);
  (4270230215, 460302060);
  (18446744073249249556, 4270230215);
  (2694026034, 3344991450);
  (18446744070364560166, 2694026034);
  (3769028322, 2059410008);
  (18446744071650141608, 3769028322);
  (1208882703, 4121328267);
  (18446744069588223349, 1208882703);
  (4098378461, 1284538073);
  (18446744072425013543, 4098378461);
  (1989685620, 3806296784);
  (18446744069903254832, 1989685620);
  (3294836538, 2755139971);
  (18446744070954411645, 3294836538);
  (381623102, 4277979416);
  (18446744069431572200, 381623102);
  (4287672487, 250217341);
  (18446744073459334275, 4287672487);
  (2854911913, 3208772670);
  (18446744070500778946, 2854911913);
  (3865538822, 1871991904);
  (18446744071837559712, 3865538822);
  (1409650544, 4057046884);
  (18446744069652504732, 1409650544);
  (4156471081, 1081892891);
  (18446744072627658725, 4156471081);
  (2174055087, 3704082687);
  (18446744070005468929, 2174055087);
  (3426056074, 2590151318);
  (18446744071119400298, 3426056074);
  (591073921, 4254101044);
  (18446744069455450572, 591073921);
  (4242500584, 669277872);
  (18446744073040273744, 4242500584);
  (2526650010, 3473151854);
  (18446744070236399762, 2526650010);
  (3663437903, 2241866812);
  (18446744071467684804, 3663437903);
  (1005202558, 4175681009);
  (18446744069533870607, 1005202558);
  (4030412489, 1484088690);
  (18446744072225462926, 4030412489);
  (1800522825, 3899341179);
  (18446744069810210437, 1800522825);
  (3155679453, 2913491250);
  (18446744070796060366, 3155679453);
  (171252920, 4291551760);
  (18446744069417999856, 171252920);
  (4292521761, 144917230);
  (18446744073564634386, 4292521761);
  (2932799290, 3137743202);
  (18446744070571808414, 2932799290);
  (3910315575, 1776563023);
  (18446744071932988593, 3910315575);
  (1508790899, 4021230421);
  (18446744069688321195, 1508790899);
  (4181770210, 979562138);
  (18446744072729989478, 4181770210);
  (2264303042, 3649613104);
  (18446744070059938512, 2264303042);
  (3488589706, 2505291588);
  (18446744071204260028, 3488589706);
  (695296767, 4238314108);
  (18446744069471237508, 695296767);
  (4257647723, 564960121);
  (18446744073144591495, 4257647723);
  (2611124444, 3410098710);
  (18446744070299452906, 2611124444);
  (3717352710, 2151286337);
  (18446744071558265279, 3717352710);
  (1107376152, 4149754467);
  (18446744069559797149, 1107376152);
  (4065619964, 1384730436);
  (18446744072324821180, 4065619964);
  (1895675165, 3853979728);
  (18446744069855571888, 1895675165);
  (3226229675, 2835169511);
  (18446744070874382105, 3226229675);
  (276521294, 4286056468);
  (18446744069423495148, 276521294);
  (4280240479, 355366730);
  (18446744073354184886, 4280240479);
  (2775304843, 3277869293);
  (18446744070431682323, 2775304843);
  (3818433613, 1966293167);
  (18446744071743258449, 3818433613);
  (1309661069, 4090419533);
  (18446744069619132083, 1309661069);
  (4128668249, 1183571952);
  (18446744072525979664, 4128668249);
  (2082497563, 3756321069);
  (18446744069953230547, 2082497563);
  (3361458715, 2673450838);
  (18446744071036100778, 3361458715);
  (486495035, 4267325469);
  (18446744069442226147, 486495035);
  (4224797921, 773192474);
  (18446744072936359142, 4224797921)
].

(** Lines 1061 to 1202. *)
Definition gm_rows_7 : list (Z * Z) := [
  (2440653617, 3534112901);
  (18446744070175438715, 2440653617);
  (3607316378, 2331096871);
  (18446744071378454745, 3607316378);
  (902423468, 4199092278);
  (18446744069510459338, 902423468);
  (3992777245, 1582552984);
  (18446744072126998632, 3992777245);
  (1704285919, 3942353812);
  (18446744069767197804, 1704285919);
  (3083228366, 2990058012);
  (18446744070719493604, 3083228366);
  (65881389, 4294461982);
  (18446744069415089634, 65881389);
  (4293976900, 92230472);
  (18446744073617321144, 4293976900);
  (2971083391, 3101516976);
  (18446744070608034640, 2971083391);
  (3931822297, 1728443664);
  (18446744071981107952, 3931822297);
  (1558023973, 4002412444);
  (18446744069707139172, 1558023973);
  (4193476065, 928171626);
  (18446744072781379990, 4193476065);
  (2308918911, 3621551813);
  (18446744070087999803, 2308918911);
  (3519070803, 2462292582);
  (18446744071247259034, 3519070803);
  (747255046, 4229462610);
  (18446744069480089006, 747255046);
  (4264260060, 512669694);
  (18446744073196881922, 4264260060);
  (2652774988, 3377799422);
  (18446744070331752194, 2652774988);
  (3743472393, 2105506713);
  (18446744071604044903, 3743472393);
  (1158216639, 4135852789);
  (18446744069573698827, 1158216639);
  (4082306603, 1334734758);
  (18446744072374816858, 4082306603);
  (1942826684, 3830426680);
  (18446744069879124936, 1942826684);
  (3260778637, 2795365227);
  (18446744070914186389, 3260778637);
  (329096979, 4282340394);
  (18446744069427211222, 329096979);
  (4284279082, 302814837);
  (18446744073406736779, 4284279082);
  (2815320366, 3243565216);
  (18446744070465986400, 2815320366);
  (3842275534, 1919287054);
  (18446744071790264562, 3842275534);
  (1359758194, 4074039976);
  (18446744069635511640, 1359758194);
  (4142881616, 1132817720);
  (18446744072576733896, 4142881616);
  (2128436593, 3730482776);
  (18446744069979068840, 2128436593);
  (3394012957, 2631999263);
  (18446744071077552353, 3394012957);
  (538825051, 4261034104);
  (18446744069448517512, 538825051);
  (4233968062, 721289485);
  (18446744072988262131, 4233968062);
  (2483838842, 3503896214);
  (18446744070205655402, 2483838842);
  (3635650898, 2286654023);
  (18446744071422897593, 3635650898);
  (953884839, 4187701970);
  (18446744069521849646, 953884839);
  (4011896955, 1533436302);
  (18446744072176115314, 4011896955);
  (1752536335, 3921142750);
  (18446744069788408866, 1752536335);
  (3119688816, 2951996911);
  (18446744070757554705, 3119688816);
  (118576083, 4293330151);
  (18446744069416221465, 118576083);
  (4290420185, 197582163);
  (18446744073511969453, 4290420185);
  (2894073520, 3173496894);
  (18446744070536054722, 2894073520);
  (3888219974, 1824414839);
  (18446744071885136777, 3888219974);
  (1459330606, 4039442815);
  (18446744069670108801, 1459330606);
  (4169434596, 1030805132);
  (18446744072678746484, 4169434596);
  (2219346178, 3677124776);
  (18446744070032426840, 2219346178);
  (3457583240, 2547913306);
  (18446744071161638310, 3457583240);
  (643233779, 4246527332);
  (18446744069463024284, 643233779);
  (4250394200, 617165468);
  (18446744073092386148, 4250394200);
  (2569080674, 3441884449);
  (18446744070267667167, 2569080674);
  (3690673207, 2196741986);
  (18446744071512809630, 3690673207);
  (1056368897, 4163031206);
  (18446744069546520410, 1056368897);
  (4048321058, 1434517580);
  (18446744072275034036, 4048321058);
  (1848238164, 3876952381);
  (18446744069832599235, 1848238164);
  (3191194855, 2874546829);
  (18446744070835004787, 3191194855);
  (223903967, 4289127078);
  (18446744069420424538, 223903967);
  (4275557289, 407865107);
  (18446744073301686509, 4275557289);
  (2734871369, 3311679735);
  (18446744070397871881, 2734871369);
  (3794016650, 2013003163);
  (18446744071696548453, 3794016650);
  (1259366714, 4106183088);
  (18446744069603368528, 1259366714);
  (4113833119, 1234147941);
  (18446744072475403675, 4113833119);
  (2036244917, 3781593674);
  (18446744069927957942, 2036244917);
  (3328398249, 2714499801);
  (18446744070995051815, 3328398249);
  (434091755, 4272974189);
  (18446744069436577427, 434091755);
  (4214991540, 824979024);
  (18446744072884572592, 4214991540);
  (2397100839, 3563797363);
  (18446744070145754253, 2397100839);
  (3578438609, 2375188665);
  (18446744071334362951, 3578438609);
  (850826195, 4209850218);
  (18446744069499701398, 850826195);
  (3973056236, 1631431340);
  (18446744072078120276, 3973056236);
  (1655778843, 3962971170);
  (18446744069746580446, 1655778843);
  (3046303593, 3027668821);
  (18446744070681882795, 3046303593);
  (13176774, 4294947083);
  (18446744069414604533, 13176774)
].

Definition gm_tab : list Z := flat_map (fun '(re, im) => [re; im])
  (gm_rows_1 ++ gm_rows_2 ++ gm_rows_3 ++ gm_rows_4 ++ gm_rows_5 ++ gm_rows_6 ++ gm_rows_7).
