(* ===== verification/Fxr.v ===== *)
(** Fixed-point arithmetic of key generation ([kgen_fxr.go]).

    A value is the [uint64] pattern of a signed number of 1/2^32ths.  A vector is
    the list of its coefficients; in FFT form the first half holds the real parts
    and the second half the imaginary parts. *)
From Stdlib Require Import ZArith Lia.
From stdpp Require Import base numbers list.
From S2P Require Import Prelude FxrTable.
Local Open Scope Z_scope.

Local Notation "x +! y" := (u64 (x + y)) (at level 50, left associativity).
Local Notation "x -! y" := (u64 (x - y)) (at level 50, left associativity).
Local Notation "-! x" := (u64 (- x)) (at level 35, right associativity).

Definition fxr_ZERO : Z := 0.
Definition fxr_ONE : Z := u64 (1 .<< 32).

Definition fxr_of (j : Z) : Z := u64 (u64 j .<< 32).
Definition fxr_of_scaled32 (t : Z) : Z := t.
Definition fxr_add (x y : Z) : Z := x +! y.
Definition fxr_sub (x y : Z) : Z := x -! y.
Definition fxr_double (x : Z) : Z := u64 (x .<< 1).
Definition fxr_neg (x : Z) : Z := -! x.

Definition fxr_abs (x : Z) : Z :=
  let m := u64 (i64 x .>> 63) in (x .^ m) -! m.

(** [bits.Mul64]: the high and the low word of a product. *)
Definition Mul64 (x y : Z) : Z * Z := (x * y .>> 64, u64 (x * y)).

Definition fxr_mul (x y : Z) : Z :=
  let '(hi, lo) := Mul64 x y in
  let sx := u64 (i64 x .>> 63) in
  let sy := u64 (i64 y .>> 63) in
  let hi := hi -! ((x .& sy) +! (y .& sx)) in
  u64 (hi .<< 32) .| (lo .>> 32).

Definition fxr_sqr (x : Z) : Z :=
  let x := fxr_abs x in
  let '(hi, lo) := Mul64 x x in
  u64 (hi .<< 32) .| (lo .>> 32).

Definition fxr_round (x : Z) : Z := let x := x +! 0x80000000 in i32 (x .>> 32).
Definition fxr_div2e (x e : Z) : Z := let x := x +! (u64 (1 .<< e) .>> 1) in u64 (i64 x .>> e).
Definition fxr_mul2e (x e : Z) : Z := u64 (x .<< e).

(** One bit of the quotient: the bit, then the remainder for the next one. *)
Definition fxr_div_bit (x y : Z) (i : nat) (st : Z * Z) : Z * Z :=
  let '(q, num) := st in
  let b := 1 -! ((num -! y) .>> 63) in
  let q := q .| u64 (b .<< Z.of_nat i) in
  let num := num -! (y .& (-! b)) in
  let num := u64 (num .<< 1) in
  (q, if (33 <=? i)%nat then num .| ((x .>> (Z.of_nat i - 33)) .& 1) else num).

Definition fxr_div (x y : Z) : Z :=
  let sx := x .>> 63 in
  let x := (x .^ (-! sx)) +! sx in
  let sy := y .>> 63 in
  let y := (y .^ (-! sy)) +! sy in
  let '(q, num) := for_ 64 (fun k => fxr_div_bit x y (63 - k)) (0, x .>> 31) in
  let b := 1 -! ((num -! y) .>> 63) in
  let q := q +! b in
  let sx := sx .^ sy in
  (q .^ (-! sx)) +! sx.

Definition fxr_inv (x : Z) : Z := fxr_div fxr_ONE x.
Definition fxr_lt (x y : Z) : bool := i64 x <? i64 y.

Definition fxc_add (a_re a_im b_re b_im : Z) : Z * Z := (fxr_add a_re b_re, fxr_add a_im b_im).
Definition fxc_sub (a_re a_im b_re b_im : Z) : Z * Z := (fxr_sub a_re b_re, fxr_sub a_im b_im).
Definition fxc_half (a_re a_im : Z) : Z * Z := (fxr_div2e a_re 1, fxr_div2e a_im 1).
Definition fxc_mul (x_re x_im y_re y_im : Z) : Z * Z :=
  let z0 := fxr_mul x_re y_re in
  let z1 := fxr_mul x_im y_im in
  let z2 := fxr_mul (fxr_add x_re x_im) (fxr_add y_re y_im) in
  (fxr_sub z0 z1, fxr_sub z2 (fxr_add z0 z1)).

(** ** Vectors *)

Definition vect_FFT (logn : nat) (f : list Z) : list Z :=
  let hn := (2 ^ (logn - 1))%nat in
  fst (for_ (logn - 1) (fun lm' '(f, t) =>
    let m := (2 ^ S lm')%nat in
    let ht := (t / 2)%nat in
    let hm := (m / 2)%nat in
    let '(f, _) := for_ hm (fun i '(f, j0) =>
      let s_re := gm_tab.[(m + i) * 2 + 0] in
      let s_im := gm_tab.[(m + i) * 2 + 1] in
      (for_ ht (fun j' f =>
        let j := (j0 + j')%nat in
        let x_re := f.[j] in
        let x_im := f.[j + hn] in
        let y_re := f.[j + ht] in
        let y_im := f.[j + ht + hn] in
        let '(y_re, y_im) := fxc_mul s_re s_im y_re y_im in
        let '(z1_re, z1_im) := fxc_add x_re x_im y_re y_im in
        let f := f.[j <- z1_re].[j + hn <- z1_im] in
        let '(z2_re, z2_im) := fxc_sub x_re x_im y_re y_im in
        f.[j + ht <- z2_re].[j + ht + hn <- z2_im]) f, (j0 + t)%nat)) (f, 0%nat) in
    (f, ht)) (f, hn)).

Definition vect_iFFT (logn : nat) (f : list Z) : list Z :=
  let hn := (2 ^ (logn - 1))%nat in
  fst (for_ (logn - 1) (fun k '(f, ht) =>
    let m := (2 ^ (logn - 1 - k))%nat in
    let t := (ht * 2)%nat in
    let hm := (m / 2)%nat in
    let '(f, _) := for_ hm (fun i '(f, j0) =>
      let s_re := gm_tab.[(m + i) * 2 + 0] in
      let s_im := fxr_neg gm_tab.[(m + i) * 2 + 1] in
      (for_ ht (fun j' f =>
        let j := (j0 + j')%nat in
        let x_re := f.[j] in
        let x_im := f.[j + hn] in
        let y_re := f.[j + ht] in
        let y_im := f.[j + ht + hn] in
        let '(z1_re, z1_im) := fxc_add x_re x_im y_re y_im in
        let '(z1_re, z1_im) := fxc_half z1_re z1_im in
        let f := f.[j <- z1_re].[j + hn <- z1_im] in
        let '(z2_re, z2_im) := fxc_sub x_re x_im y_re y_im in
        let '(z2_re, z2_im) := fxc_half z2_re z2_im in
        let '(z2_re, z2_im) := fxc_mul s_re s_im z2_re z2_im in
        f.[j + ht <- z2_re].[j + ht + hn <- z2_im]) f, (j0 + t)%nat)) (f, 0%nat) in
    (f, t)) (f, 1%nat)).

Definition vect_set (logn : nat) (d f : list Z) : list Z :=
  for_ (2 ^ logn) (fun i d => d.[i <- fxr_of f.[i]]) d.
Definition vect_add (logn : nat) (a b : list Z) : list Z :=
  for_ (2 ^ logn) (fun i a => a.[i <- fxr_add a.[i] b.[i]]) a.
Definition vect_mul_realconst (logn : nat) (a : list Z) (c : Z) : list Z :=
  for_ (2 ^ logn) (fun i a => a.[i <- fxr_mul a.[i] c]) a.
Definition vect_mul2e (logn : nat) (a : list Z) (e : Z) : list Z :=
  for_ (2 ^ logn) (fun i a => a.[i <- fxr_mul2e a.[i] e]) a.

Definition vect_mul_fft (logn : nat) (a b : list Z) : list Z :=
  let hn := (2 ^ (logn - 1))%nat in
  for_ hn (fun i a =>
    let '(z_re, z_im) := fxc_mul a.[i] a.[i + hn] b.[i] b.[i + hn] in
    a.[i <- z_re].[i + hn <- z_im]) a.

Definition vect_adj_fft (logn : nat) (a : list Z) : list Z :=
  let hn := (2 ^ (logn - 1))%nat in
  for_ (2 ^ logn - hn) (fun i a => a.[hn + i <- fxr_neg a.[hn + i]]) a.

Definition vect_mul_selfadj_fft (logn : nat) (a b : list Z) : list Z :=
  let hn := (2 ^ (logn - 1))%nat in
  for_ hn (fun i a =>
    let x := b.[i] in
    let a := a.[i <- fxr_mul a.[i] x] in
    a.[i + hn <- fxr_mul a.[i + hn] x]) a.

Definition vect_div_selfadj_fft (logn : nat) (a b : list Z) : list Z :=
  let hn := (2 ^ (logn - 1))%nat in
  for_ hn (fun i a =>
    let x := b.[i] in
    let a := a.[i <- fxr_div a.[i] x] in
    a.[i + hn <- fxr_div a.[i + hn] x]) a.

Definition vect_norm_fft (logn : nat) (d a b : list Z) : list Z :=
  let hn := (2 ^ (logn - 1))%nat in
  for_ hn (fun i d =>
    d.[i <- fxr_add (fxr_add (fxr_sqr a.[i]) (fxr_sqr a.[i + hn]))
                    (fxr_add (fxr_sqr b.[i]) (fxr_sqr b.[i + hn]))]) d.

Definition vect_invnorm_fft (logn : nat) (d a b : list Z) (e : Z) : list Z :=
  let hn := (2 ^ (logn - 1))%nat in
  let fe := fxr_of (i32 (1 .<< e)) in
  for_ hn (fun i d =>
    let z := fxr_add (fxr_add (fxr_sqr a.[i]) (fxr_sqr a.[i + hn]))
                     (fxr_add (fxr_sqr b.[i]) (fxr_sqr b.[i + hn])) in
    d.[i <- fxr_div fe z]) d.
