(* ===== verification/Kpoly.v ===== *)
(** Polynomials of key generation ([kgen_poly.go]).

    A polynomial of big integers has its coefficients interleaved: word [j] of
    coefficient [i] is at [i + j 2^logn]. *)
From Stdlib Require Import ZArith Lia.
From stdpp Require Import base numbers list.
From S2P Require Import Prelude Mq Ntt Mp31Tables Mp31 Zint31 FxrTable Fxr.
Local Open Scope Z_scope.

Definition poly_mp_set_small (logn : nat) (d f : list Z) (p : Z) : list Z :=
  for_ (2 ^ logn) (fun i d => d.[i <- mp_set f.[i] p]) d.

(** A 31-bit word read as a signed number. *)
Definition sign31 (x : Z) : Z := i32 (x .| u32 ((x .& 0x40000000) .<< 1)).

Definition poly_mp_set (logn : nat) (f : list Z) (p : Z) : list Z :=
  for_ (2 ^ logn) (fun i f => f.[i <- mp_set (sign31 f.[i]) p]) f.

Definition poly_mp_norm (logn : nat) (f : list Z) (p : Z) : list Z :=
  for_ (2 ^ logn) (fun i f => f.[i <- u32 (mp_norm f.[i] p) .& 0x7FFFFFFF]) f.

(** The error carries what was written before the coefficient that is too large. *)
Definition poly_big_to_small (logn : nat) (d s : list Z) (lim : Z) : result (list Z) (list Z) :=
  try_ (2 ^ logn) (fun i d =>
    let z := sign31 s.[i] in
    if (z <? - lim) || (lim <? z) then Err d else Ok d.[i <- i8 z]) d.

Definition poly_max_bitlength (logn : nat) (f : list Z) (flen : nat) : Z :=
  if (flen =? 0)%nat then 0
  else
    let '(t, tk) := for_ (2 ^ logn) (fun i '(t, tk) =>
      let m := (-% (f.[i + (flen - 1) * 2 ^ logn] .>> 30)) .& 0x7FFFFFFF in
      let '(c, ck) := for_ flen (fun j '(c, ck) =>
        let w := f.[i + j * 2 ^ logn] .^ m in
        let nz := ((w -% 1) .>> 31) -% 1 in
        (c .^ (nz .& (c .^ w)), ck .^ (nz .& (ck .^ u32 (Z.of_nat j))))) (0, 0) in
      let rr := tbmask ((tk -% ck) .| (((tk .^ ck) -% 1) .& (t -% c))) in
      (t .^ (rr .& (t .^ c)), tk .^ (rr .& (tk .^ ck)))) (0, 0) in
    31 *% tk +% 32 -% lzcnt32 t.

Definition divrem31 (x : Z) : Z * Z :=
  let q := (x *% 67651) .>> 21 in
  (q, x -% 31 *% q).

Definition poly_big_to_fixed (logn : nat) (d f : list Z) (flen : nat) (sc : Z) : list Z :=
  let n := (2 ^ logn)%nat in
  if (flen =? 0)%nat then for_ n (fun i d => d.[i <- 0]) d
  else
    let '(sch, scl) := divrem31 sc in
    let z := (scl -% 1) .>> 31 in
    let sch := sch -% z in
    let scl := scl .| (31 .& (-% z)) in
    let t0 := (sch -% 1) .& 0xFFFFFF in
    let t1 := sch .& 0xFFFFFF in
    let t2 := (sch +% 1) .& 0xFFFFFF in
    for_ n (fun i d =>
      let '(w0, w1, w2) := for_ flen (fun j '(w0, w1, w2) =>
        let w := f.[i + j * n] in
        let t := u32 (Z.of_nat j) .& 0xFFFFFF in
        (w0 .| (w .& (-% (((t .^ t0) -% 1) .>> 31))),
         w1 .| (w .& (-% (((t .^ t1) -% 1) .>> 31))),
         w2 .| (w .& (-% (((t .^ t2) -% 1) .>> 31))))) (0, 0, 0) in
      let ws := (-% (f.[i + (flen - 1) * n] .>> 30)) .>> 1 in
      let w0 := w0 .| (ws .& (-% ((u32 (Z.of_nat flen) -% sch) .>> 31))) in
      let w1 := w1 .| (ws .& (-% ((u32 (Z.of_nat flen) -% sch -% 1) .>> 31))) in
      let w2 := w2 .| (ws .& (-% ((u32 (Z.of_nat flen) -% sch -% 2) .>> 31))) in
      let w2 := w2 .| u32 ((w2 .& 0x40000000) .<< 1) in
      let xl := (w0 .>> (scl -% 1)) .| u32 (w1 .<< (32 -% scl)) in
      let xh := (w1 .>> scl) .| u32 (w2 .<< (31 -% scl)) in
      d.[i <- fxr_of_scaled32 (xl .| u64 (xh .<< 32))]) d.

Definition poly_sub_scaled (logn : nat) (F : list Z) (Flen : nat) (f : list Z) (flen : nat) (k : list Z) (sc : Z)
    : list Z :=
  let '(sch, scl) := divrem31 sc in
  if (flen =? 0)%nat then F
  else if (Flen <=? Z.to_nat sch)%nat then F
  else
    let n := (2 ^ logn)%nat in
    let b := (Z.to_nat sch * n)%nat in
    let Flen := (Flen - Z.to_nat sch)%nat in
    for_ n (fun i F =>
      let kf := i32 (- i32 k.[i]) in
      let '(F, _, _) := for_ n (fun j '(F, c, kf) =>
        let F := at_ c (fun x => zint_add_scaled_mul_small x Flen (drop j f) flen n kf 0 scl) F in
        if (i + j =? n - 1)%nat then (F, b, i32 (- kf)) else (F, S c, kf)) (F, (b + i)%nat, kf) in
      F) F.

(** The product k f in RNS, in the [fk] part of [tmp]. *)
Definition kf_ntt (logn : nat) (f : list Z) (flen : nat) (k tmp : list Z) : list Z :=
  let n := (2 ^ logn)%nat in
  let tlen := S flen in
  let o_fk := (2 * n)%nat in
  let o_t1 := (2 * n + tlen * n)%nat in
  for_ tlen (fun i tmp =>
    let e := primes.[i] in
    let p := sp_p e in
    let p0i := sp_p0i e in
    let '(gm, igm) := mp_mkgmigm logn (take n tmp) (take n (drop n tmp)) (sp_g e) (sp_ig e) p p0i in
    let tmp := gm ++ igm ++ drop o_fk tmp in
    let tmp := at_ o_t1 (fun t1 => for_ n (fun j t1 => t1.[j <- mp_set (i32 k.[j]) p]) t1) tmp in
    let tmp := at_ o_t1 (fun t1 => mp_NTT logn t1 gm p p0i) tmp in
    let t1 := drop o_t1 tmp in
    let tmp := at_ (o_fk + i * n) (fun ff => for_ n (fun j ff =>
      ff.[j <- mp_mmul (mp_mmul t1.[j] f.[i * n + j] p p0i) (sp_r2 e) p p0i]) ff) tmp in
    at_ (o_fk + i * n) (fun ff => mp_iNTT logn ff igm p p0i) tmp) tmp.

Definition poly_sub_scaled_ntt (logn : nat) (F : list Z) (Flen : nat) (f : list Z) (flen : nat) (k : list Z) (sc : Z)
    (tmp : list Z) : list Z * list Z :=
  let n := (2 ^ logn)%nat in
  let tlen := S flen in
  let '(sch, scl) := divrem31 sc in
  let tmp := kf_ntt logn f flen k tmp in
  let o_fk := (2 * n)%nat in
  let o_t1 := (2 * n + tlen * n)%nat in
  let '(fk, t1) := zint_rebuild_CRT (take (tlen * n) (drop o_fk tmp)) tlen n 1 true (drop o_t1 tmp) in
  let tmp := take o_fk tmp ++ fk ++ t1 in
  (for_ n (fun i F => at_ i (fun x => zint_sub_scaled x Flen (drop i fk) tlen n sch scl) F) F, tmp).

(** ** The reduction at depth 1 *)

(** A two-word signed number modulo p, given 2^63 mod p. *)
Definition two_words_mod (xl xh p p0i z : Z) : Z :=
  let yl := xl -% (p .& (0xFFFFFFFF .^ tbmask (xl -% p))) in
  let yh := mp_set (i32 xh) p in
  mp_add yl (mp_mmul yh z p p0i) p.

(** Step 1: a polynomial of one or two words per coefficient, into RNS. *)
Definition depth1_to_rns (n FGlen : nat) (F : list Z) : list Z :=
  let e0 := primes.[0] in
  let e1 := primes.[1] in
  if (FGlen =? 1)%nat
  then for_ n (fun i F => F.[i <- mp_set (sign31 F.[i]) (sp_p e0)]) F
  else
    let z0 := mp_half (sp_r2 e0) (sp_p e0) in
    let z1 := mp_half (sp_r2 e1) (sp_p e1) in
    for_ n (fun i F =>
      let xl := F.[i] in
      let xh := F.[i + n] .| u32 ((F.[i + n] .& 0x40000000) .<< 1) in
      let r0 := two_words_mod xl xh (sp_p e0) (sp_p0i e0) z0 in
      let r1 := two_words_mod xl xh (sp_p e1) (sp_p0i e1) z1 in
      F.[i <- r0].[i + n <- r1]) F.

(** Step 2, for one of F and G: subtract k times N(f) in NTT form. *)
Definition depth1_sub_norm (logn : nat) (e : small_prime) (r3 : Z) (gm Fu k f t1 t2 : list Z) : list Z * list Z * list Z :=
  let n := (2 ^ logn)%nat in
  let hn := (n / 2)%nat in
  let p := sp_p e in
  let p0i := sp_p0i e in
  let t1 := for_ n (fun j t1 => t1.[j <- mp_set f.[2 * j] p]) t1 in
  let t2 := for_ n (fun j t2 => t2.[j <- mp_set f.[2 * j + 1] p]) t2 in
  let t1 := mp_NTT logn t1 gm p p0i in
  let t2 := mp_NTT logn t2 gm p p0i in
  let Fu := for_ hn (fun j Fu =>
    let xe0 := t1.[2 * j] in
    let xe1 := t1.[2 * j + 1] in
    let xo0 := t2.[2 * j] in
    let xo1 := t2.[2 * j + 1] in
    let xv0 := gm.[hn + j] in
    let xv1 := p -% xv0 in
    let xe0 := mp_mmul xe0 xe0 p p0i in
    let xe1 := mp_mmul xe1 xe1 p p0i in
    let xo0 := mp_mmul xo0 xo0 p p0i in
    let xo1 := mp_mmul xo1 xo1 p p0i in
    let xf0 := mp_sub xe0 (mp_mmul xo0 xv0 p p0i) p in
    let xf1 := mp_sub xe1 (mp_mmul xo1 xv1 p p0i) p in
    let xkf0 := mp_mmul (mp_mmul xf0 k.[2 * j] p p0i) r3 p p0i in
    let xkf1 := mp_mmul (mp_mmul xf1 k.[2 * j + 1] p p0i) r3 p p0i in
    let Fu := Fu.[2 * j <- mp_sub Fu.[2 * j] xkf0 p] in
    Fu.[2 * j + 1 <- mp_sub Fu.[2 * j + 1] xkf1 p]) Fu in
  (Fu, t1, t2).

(** Step 3: out of RNS again. *)
Definition depth1_from_rns (n FGlen : nat) (F : list Z) : list Z :=
  let e0 := primes.[0] in
  let e1 := primes.[1] in
  if (FGlen =? 1)%nat
  then for_ n (fun i F => F.[i <- u32 (i32 (mp_norm F.[i] (sp_p e0) .& 0x7FFFFFFF))]) F
  else
    let p0 := sp_p e0 in
    let p1 := sp_p e1 in
    let pp := u64 (p0 * p1) in
    let hpp := pp .>> 1 in
    for_ n (fun i F =>
      let x0 := F.[i] in
      let x1 := F.[i + n] in
      let x0m1 := x0 -% (p1 .& (0xFFFFFFFF .^ tbmask (x0 -% p1))) in
      let y := mp_mmul (mp_sub x1 x0m1 p1) (sp_s e1) p1 (sp_p0i e1) in
      let z := u64 (x0 + u64 (p0 * y)) in
      let z := u64 (z - (pp .& u64 (- (u64 (hpp - z) .>> 63)))) in
      F.[i <- u32 z .& 0x7FFFFFFF].[i + n <- u32 (z .>> 31) .& 0x7FFFFFFF]) F.

(** [m] Montgomery products with [x]. *)
Definition mmul_times (m : nat) (v x p p0i : Z) : Z := for_ m (fun _ v => mp_mmul v x p p0i) v.

(** The function with the contents of F, G, k and [tmp]. *)
Definition poly_sub_kfg_scaled_depth1 (logn_top : nat) (F G : list Z) (FGlen : nat) (k : list Z) (sc : Z)
    (f g tmp : list Z) : list Z * list Z * list Z * list Z :=
  let logn := (logn_top - 1)%nat in
  let n := (2 ^ logn)%nat in
  let gm := take n tmp in
  let t1 := take n (drop n tmp) in
  let t2 := drop (2 * n) tmp in
  let F := depth1_to_rns n FGlen F in
  let G := depth1_to_rns n FGlen G in
  let '(F, G, k, gm, t1, t2) := for_ FGlen (fun i '(F, G, k, gm, t1, t2) =>
    let e := primes.[i] in
    let p := sp_p e in
    let p0i := sp_p0i e in
    let r2 := sp_r2 e in
    let r3 := mp_mmul r2 r2 p p0i in
    let gm := mp_mkgm logn gm (sp_g e) p p0i in
    let scv := mp_mmul (u32 (1 .<< (sc .& 31))) r2 p p0i in
    let scv := mmul_times (Z.to_nat (sc .>> 5)) scv r2 p p0i in
    let k := for_ n (fun j k => k.[j <- mp_mmul scv (mp_set (i32 k.[j]) p) p p0i]) k in
    let k := mp_NTT logn k gm p p0i in
    let F := at_ (i * n) (fun Fu => mp_NTT logn Fu gm p p0i) F in
    let G := at_ (i * n) (fun Gu => mp_NTT logn Gu gm p p0i) G in
    let '(Fu, t1, t2) := depth1_sub_norm logn e r3 gm (drop (i * n) F) k f t1 t2 in
    let F := take (i * n) F ++ Fu in
    let '(Gu, t1, t2) := depth1_sub_norm logn e r3 gm (drop (i * n) G) k g t1 t2 in
    let G := take (i * n) G ++ Gu in
    let t1 := mp_mkigm logn t1 (sp_ig e) p p0i in
    let F := at_ (i * n) (fun Fu => mp_iNTT logn Fu t1 p p0i) F in
    let G := at_ (i * n) (fun Gu => mp_iNTT logn Gu t1 p p0i) G in
    let k :=
      if (i + 1 <? FGlen)%nat then
        let k := mp_iNTT logn k t1 p p0i in
        let scv := u32 (1 .<< ((-% sc) .& 31)) in
        let scv := mmul_times (Z.to_nat (sc .>> 5)) scv 1 p p0i in
        for_ n (fun j k => k.[j <- u32 (mp_norm (mp_mmul scv k.[j] p p0i) p)]) k
      else k in
    (F, G, k, gm, t1, t2)) (F, G, k, gm, t1, t2) in
  (depth1_from_rns n FGlen F, depth1_from_rns n FGlen G, k, gm ++ t1 ++ t2).

Definition poly_sqnorm (logn : nat) (f : list Z) : Z :=
  for_ (2 ^ logn) (fun i s => s +% u32 (i32 (f.[i] * f.[i]))) 0.
