(* ===== verification/Ntru.v ===== *)
(** The NTRU equation solver of key generation ([kgen_ntru.go]).

    All big values live in one scratch array [tmp]: a slice [tmp[o:o+n]] is
    [sub_ o n tmp], a function that works in place on [tmp[o:]] is [at_ o f tmp],
    and [put_ o l tmp] copies [l] to [o] on.  The fixed-point scratch [tmp_fxr] is
    written before it is read by each function, so its slices are local values.
    The reduction loop of [solve_NTRU_intermediate] takes fuel: [None] is out of
    fuel. *)
From Stdlib Require Import ZArith Lia.
From stdpp Require Import base numbers list.
From S2P Require Import Prelude Mq Ntt Mp31Tables Mp31 Zint31 FxrTable Fxr Kpoly.
Local Open Scope Z_scope.

Definition max_bl_small : list nat := [1; 1; 2; 3; 4; 8; 14; 27; 53; 104; 207]%nat.
Definition max_bl_large : list nat := [1; 2; 3; 6; 11; 21; 40; 78; 155; 308]%nat.
Definition word_win : list nat := [1; 1; 2; 2; 2; 3; 3; 4; 5; 7]%nat.
Definition min_save_fg : list nat := [0; 0; 1; 2; 2; 2; 2; 2; 2; 3; 3]%nat.
#[export] Instance go_zero_nat : GoZero nat := 0%nat.

Definition sub_ (o n : nat) (t : list Z) : list Z := take n (drop o t).
Definition put_ (o : nat) (l t : list Z) : list Z := take o t ++ take (length t - o) l ++ drop (o + length l) t.

(** [zint_rebuild_CRT] of a slice, with its scratch words from [o_scratch] on. *)
Definition rebuild_at (o len xlen n num_sets : nat) (signed : bool) (o_scratch : nat) (tmp : list Z) : list Z :=
  let '(x, s) := zint_rebuild_CRT (sub_ o len tmp) xlen n num_sets signed (drop o_scratch tmp) in
  put_ o_scratch s (put_ o x tmp).

(** * (f,g) at each depth *)

Definition make_fg_zero (logn : nat) (f g tmp : list Z) : list Z :=
  let n := (2 ^ logn)%nat in
  let e := primes.[0] in
  let p := sp_p e in
  let p0i := sp_p0i e in
  let tmp := at_ 0 (fun ft => poly_mp_set_small logn ft f p) tmp in
  let tmp := at_ n (fun gt => poly_mp_set_small logn gt g p) tmp in
  let tmp := at_ (2 * n) (fun gm => mp_mkgm logn gm (sp_g e) p p0i) tmp in
  let tmp := at_ 0 (fun ft => mp_NTT logn ft (drop (2 * n) tmp) p p0i) tmp in
  at_ n (fun gt => mp_NTT logn gt (drop (2 * n) tmp) p p0i) tmp.

Definition make_fg_step (logn_top depth : nat) (tmp : list Z) : list Z :=
  let logn := (logn_top - depth)%nat in
  let n := (2 ^ logn)%nat in
  let hn := (n / 2)%nat in
  let slen := max_bl_small.[depth] in
  let tlen := max_bl_small.[S depth] in
  let o_gd := (hn * tlen)%nat in
  let o_fs := (2 * (hn * tlen))%nat in
  let o_gs := (o_fs + n * slen)%nat in
  let o_t1 := (o_fs + 2 * n * slen)%nat in
  let o_t2 := (o_t1 + n)%nat in
  let tmp := put_ o_fs (sub_ 0 (2 * n * slen) tmp) tmp in
  let tmp := for_ slen (fun i tmp =>
    let e := primes.[i] in
    let p := sp_p e in
    let p0i := sp_p0i e in
    let r2 := sp_r2 e in
    let ks := (i * n)%nat in
    let kd := (i * hn)%nat in
    let tmp := for_ hn (fun j tmp =>
      let tmp := tmp.[kd + j <-
        mp_mmul (mp_mmul tmp.[o_fs + ks + 2 * j] tmp.[o_fs + ks + 2 * j + 1] p p0i) r2 p p0i] in
      tmp.[o_gd + kd + j <-
        mp_mmul (mp_mmul tmp.[o_gs + ks + 2 * j] tmp.[o_gs + ks + 2 * j + 1] p p0i) r2 p p0i]) tmp in
    let tmp := at_ o_t1 (fun t1 => mp_mkigm logn t1 (sp_ig e) p p0i) tmp in
    let tmp := at_ (o_fs + ks) (fun fs => mp_iNTT logn fs (drop o_t1 tmp) p p0i) tmp in
    at_ (o_gs + ks) (fun gs => mp_iNTT logn gs (drop o_t1 tmp) p p0i) tmp) tmp in
  let tmp := rebuild_at o_fs (2 * n * slen) slen n 2 true o_t1 tmp in
  for_ (tlen - slen) (fun i' tmp =>
    let i := (slen + i')%nat in
    let e := primes.[i] in
    let p := sp_p e in
    let p0i := sp_p0i e in
    let r2 := sp_r2 e in
    let rx := mp_Rx31 (Z.of_nat slen) p p0i r2 in
    let kd := (i * hn)%nat in
    let tmp := at_ o_t1 (fun t1 => mp_mkgm logn t1 (sp_g e) p p0i) tmp in
    let one (o_src o_dst : nat) (tmp : list Z) :=
      let tmp := for_ n (fun j tmp =>
        tmp.[o_t2 + j <- zint_mod_small_signed (drop (o_src + j) tmp) slen n p p0i r2 rx]) tmp in
      let tmp := at_ o_t2 (fun t2 => mp_NTT logn t2 (drop o_t1 tmp) p p0i) tmp in
      for_ hn (fun j tmp =>
        tmp.[o_dst + kd + j <- mp_mmul (mp_mmul tmp.[o_t2 + 2 * j] tmp.[o_t2 + 2 * j + 1] p p0i) r2 p p0i]) tmp in
    one o_gs o_gd (one o_fs 0%nat tmp)) tmp.

Definition make_fg_intermediate (logn_top : nat) (f g : list Z) (depth : nat) (tmp : list Z) : list Z :=
  for_ depth (fun d tmp => make_fg_step logn_top d tmp) (make_fg_zero logn_top f g tmp).

(** [Err]: f is not invertible modulo the first prime. *)
Definition make_fg_deepest (logn_top : nat) (f g tmp : list Z) (sav_off : nat) : result (list Z) (list Z) :=
  let tmp := make_fg_zero logn_top f g tmp in
  let b := for_ (2 ^ logn_top) (fun i b => b .| (tmp.[i] -% 1)) 0 in
  if negb (b .>> 31 =? 0) then Err tmp
  else
    let '(tmp, _) := for_ logn_top (fun d '(tmp, sav_off) =>
      let tmp := make_fg_step logn_top d tmp in
      let d2 := S d in
      if (d2 <? logn_top)%nat && (min_save_fg.[logn_top] <=? d2)%nat then
        let slen := max_bl_small.[d2] in
        let fglen := (slen * 2 ^ (logn_top + 1 - d2))%nat in
        let sav_off := (sav_off - fglen)%nat in
        (put_ sav_off (sub_ 0 fglen tmp) tmp, sav_off)
      else (tmp, sav_off)) (tmp, sav_off) in
    Ok tmp.

(** * The deepest level *)

Definition solve_NTRU_deepest (logn_top : nat) (f g tmp : list Z) : result (list Z) (list Z) :=
  match make_fg_deepest logn_top f g tmp (6 * 2 ^ logn_top) with
  | Err tmp => Err tmp
  | Ok tmp =>
      let slen := max_bl_small.[logn_top] in
      let o_fp := (2 * slen)%nat in
      let o_gp := (3 * slen)%nat in
      let o_t1 := (4 * slen)%nat in
      let tmp := put_ o_fp (sub_ 0 (2 * slen) tmp) tmp in
      let tmp := rebuild_at o_fp (2 * slen) slen 1 2 false o_t1 tmp in
      let '(ok, Gp, Fp, t1) :=
        zint_bezout (sub_ slen slen tmp) (sub_ 0 slen tmp) (sub_ o_fp slen tmp) (sub_ o_gp slen tmp) slen (drop o_t1 tmp) in
      let tmp := put_ o_t1 t1 (put_ slen Gp (put_ 0 Fp tmp)) in
      if negb ok then Err tmp
      else
        let '(Fp, cf) := zint_mul_small (sub_ 0 slen tmp) slen q in
        let tmp := put_ 0 Fp tmp in
        if negb (cf =? 0) then Err tmp
        else
          let '(Gp, cg) := zint_mul_small (sub_ slen slen tmp) slen q in
          let tmp := put_ slen Gp tmp in
          if negb (cg =? 0) then Err tmp else Ok tmp
  end.

(** * Intermediate levels *)

(** Where things are at a level: the lengths of (f,g), of the unreduced (F,G) and
    of the (F,G) from below, and the offsets they give. *)
Record level := Level { lv_logn : nat; lv_slen : nat; lv_llen : nat; lv_dlen : nat }.
Definition level_at (logn_top depth : nat) : level :=
  Level (logn_top - depth) max_bl_small.[depth] max_bl_large.[depth] max_bl_small.[S depth].
Definition lv_n (lv : level) : nat := 2 ^ lv_logn lv.
Definition lv_hn (lv : level) : nat := lv_n lv / 2.
Definition off_ft (lv : level) : nat := 2 * lv_n lv * lv_llen lv.
Definition off_gt (lv : level) : nat := off_ft lv + lv_n lv * lv_slen lv.
Definition off_FGd (lv : level) : nat := off_ft lv + 2 * lv_n lv * lv_slen lv.

(** (f,g) of the level behind the (F,G) of the level below, and then both moved
    behind the room of the unreduced (F,G). *)
Definition load_level (logn_top : nat) (f g : list Z) (depth : nat) (lv : level) (tmp : list Z) : list Z :=
  let o_fgt := (2 * (lv_dlen lv * lv_hn lv))%nat in
  let len_fg := (2 * lv_slen lv * lv_n lv)%nat in
  let tmp :=
    if (depth <? min_save_fg.[logn_top])%nat
    then at_ o_fgt (make_fg_intermediate logn_top f g depth) tmp
    else
      let m := min_save_fg.[logn_top] in
      let sav_off := for_ (S depth - m) (fun i sav_off =>
        let d := (m + i)%nat in (sav_off - max_bl_small.[d] * 2 ^ (logn_top + 1 - d))%nat) (6 * 2 ^ logn_top)%nat in
      put_ o_fgt (sub_ sav_off len_fg tmp) tmp in
  let tmp := put_ (off_ft lv) (sub_ o_fgt len_fg tmp) tmp in
  put_ (off_FGd lv) (sub_ 0 (2 * lv_hn lv * lv_dlen lv) tmp) tmp.

(** (F,G) from below into RNS, in the last half of each line of (Ft,Gt). *)
Definition lower_to_rns (lv : level) (tmp : list Z) : list Z :=
  let n := lv_n lv in
  let hn := lv_hn lv in
  let o_Fd := off_FGd lv in
  let o_Gd := (off_FGd lv + lv_dlen lv * hn)%nat in
  let o_Gt := (lv_llen lv * n)%nat in
  for_ (lv_llen lv) (fun i tmp =>
    let e := primes.[i] in
    let rx := mp_Rx31 (Z.of_nat (lv_dlen lv)) (sp_p e) (sp_p0i e) (sp_r2 e) in
    let kt := (i * n + hn)%nat in
    for_ hn (fun j tmp =>
      let tmp := tmp.[kt + j <-
        zint_mod_small_signed (drop (o_Fd + j) tmp) (lv_dlen lv) hn (sp_p e) (sp_p0i e) (sp_r2 e) rx] in
      tmp.[o_Gt + kt + j <-
        zint_mod_small_signed (drop (o_Gd + j) tmp) (lv_dlen lv) hn (sp_p e) (sp_p0i e) (sp_r2 e) rx]) tmp) tmp.

(** The unreduced (F,G) in place of the (F,G) from below: [F] takes the product
    with the odd half of g, [G] with that of f. *)
Definition cross_products (hn o_F o_G o_fx o_gx : nat) (p p0i r2 : Z) (tmp : list Z) : list Z :=
  for_ hn (fun j tmp =>
    let fa := tmp.[o_fx + 2 * j] in
    let fb := tmp.[o_fx + 2 * j + 1] in
    let ga := tmp.[o_gx + 2 * j] in
    let gb := tmp.[o_gx + 2 * j + 1] in
    let mFp := mp_mmul tmp.[o_F + (j + hn)] r2 p p0i in
    let mGp := mp_mmul tmp.[o_G + (j + hn)] r2 p p0i in
    let tmp := tmp.[o_F + 2 * j <- mp_mmul gb mFp p p0i] in
    let tmp := tmp.[o_F + 2 * j + 1 <- mp_mmul ga mFp p p0i] in
    let tmp := tmp.[o_G + 2 * j <- mp_mmul fb mGp p p0i] in
    tmp.[o_G + 2 * j + 1 <- mp_mmul fa mGp p p0i]) tmp.

Definition unreduced (lv : level) (tmp : list Z) : list Z :=
  let logn := lv_logn lv in
  let n := lv_n lv in
  let hn := lv_hn lv in
  let slen := lv_slen lv in
  let llen := lv_llen lv in
  let o_ft := off_ft lv in
  let o_gt := off_gt lv in
  let o_t1 := off_FGd lv in
  let o_Gt := (llen * n)%nat in
  let rebuild_fg := rebuild_at o_ft (2 * n * slen) slen n 2 true o_t1 in
  let tmp := for_ llen (fun i tmp =>
    let tmp := if (i =? slen)%nat then rebuild_fg tmp else tmp in
    let e := primes.[i] in
    let p := sp_p e in
    let p0i := sp_p0i e in
    let r2 := sp_r2 e in
    let o_igm := (o_t1 + n)%nat in
    let o_fx := (o_t1 + 2 * n)%nat in
    let o_gx := (o_t1 + 3 * n)%nat in
    let '(gm, igm) := mp_mkgmigm logn (sub_ o_t1 n tmp) (sub_ o_igm n tmp) (sp_g e) (sp_ig e) p p0i in
    let tmp := put_ o_igm igm (put_ o_t1 gm tmp) in
    let tmp :=
      if (i <? slen)%nat then
        let tmp := put_ o_fx (sub_ (o_ft + i * n) n tmp) tmp in
        let tmp := put_ o_gx (sub_ (o_gt + i * n) ((slen - i) * n) tmp) tmp in
        let tmp := at_ (o_ft + i * n) (fun ft => mp_iNTT logn ft igm p p0i) tmp in
        at_ (o_gt + i * n) (fun gt => mp_iNTT logn gt igm p p0i) tmp
      else
        let rx := mp_Rx31 (Z.of_nat slen) p p0i r2 in
        let tmp := for_ n (fun j tmp =>
          let tmp := tmp.[o_fx + j <- zint_mod_small_signed (drop (o_ft + j) tmp) slen n p p0i r2 rx] in
          tmp.[o_gx + j <- zint_mod_small_signed (drop (o_gt + j) tmp) slen n p p0i r2 rx]) tmp in
        let tmp := at_ o_fx (fun fx => mp_NTT logn fx gm p p0i) tmp in
        at_ o_gx (fun gx => mp_NTT logn gx gm p p0i) tmp in
    let tmp := at_ (i * n + hn) (fun Fe => mp_NTT (logn - 1) Fe gm p p0i) tmp in
    let tmp := at_ (o_Gt + i * n + hn) (fun Ge => mp_NTT (logn - 1) Ge gm p p0i) tmp in
    let tmp := cross_products hn (i * n) (o_Gt + i * n) o_fx o_gx p p0i r2 tmp in
    let tmp := at_ (i * n) (fun Fe => mp_iNTT logn Fe igm p p0i) tmp in
    at_ (o_Gt + i * n) (fun Ge => mp_iNTT logn Ge igm p p0i) tmp) tmp in
  let tmp := if (slen =? llen)%nat then rebuild_fg tmp else tmp in
  rebuild_at 0 (2 * n * llen) llen n 2 true o_t1 tmp.

(** ** The reduction *)

Definition min_logn_fgntt : nat := 4.
Definition use_sub_ntt (depth : nat) (lv : level) : bool := (1 <? depth)%nat && (min_logn_fgntt <=? lv_logn lv)%nat.

(** The offsets of f, of g and of the rest once g has made room for a word. *)
Record reduce_layout := ReduceLayout { rl_ft : nat; rl_gt : nat; rl_t1 : nat }.
Definition layout (depth : nat) (lv : level) : reduce_layout :=
  if use_sub_ntt depth lv then ReduceLayout (off_ft lv) (off_gt lv + lv_n lv) (off_FGd lv + 2 * lv_n lv)
  else ReduceLayout (off_ft lv) (off_gt lv) (off_FGd lv).

(** The scaled approximations of adj(f) and adj(g) over the norm, and the scale. *)
Definition approx_fg (lv : level) (depth : nat) (rl : reduce_layout) (tmp tmp_fxr : list Z) : list Z * list Z * Z :=
  let logn := lv_logn lv in
  let n := lv_n lv in
  let hn := lv_hn lv in
  let slen := lv_slen lv in
  let rlen := Nat.min word_win.[depth] slen in
  let blen := (slen - rlen)%nat in
  let ft := drop (rl_ft rl + blen * n) tmp in
  let gt := drop (rl_gt rl + blen * n) tmp in
  let rt3 := take n tmp_fxr in
  let rt4 := take n (drop n tmp_fxr) in
  let rt1 := drop (2 * n) tmp_fxr in
  let scale_xf := poly_max_bitlength logn ft rlen in
  let scale_xg := poly_max_bitlength logn gt rlen in
  let scale_x := scale_xf .^ ((scale_xf .^ scale_xg) .& tbmask (scale_xf -% scale_xg)) in
  let scale_t := u32 (15 - Z.of_nat logn) in
  let scale_t := scale_t .^ ((scale_t .^ scale_x) .& tbmask (scale_x -% scale_t)) in
  let scdiff := scale_x -% scale_t in
  let rt3 := poly_big_to_fixed logn rt3 ft rlen scdiff in
  let rt4 := poly_big_to_fixed logn rt4 gt rlen scdiff in
  let rt3 := vect_FFT logn rt3 in
  let rt4 := vect_FFT logn rt4 in
  let rt1 := vect_norm_fft logn rt1 rt3 rt4 in
  let rt3 := vect_mul2e logn rt3 scale_t in
  let rt4 := vect_mul2e logn rt4 scale_t in
  let '(rt3, rt4) := for_ hn (fun i '(rt3, rt4) =>
    let rt3 := rt3.[i <- fxr_div rt3.[i] rt1.[i]] in
    let rt3 := rt3.[i + hn <- fxr_div (fxr_neg rt3.[i + hn]) rt1.[i]] in
    let rt4 := rt4.[i <- fxr_div rt4.[i] rt1.[i]] in
    let rt4 := rt4.[i + hn <- fxr_div (fxr_neg rt4.[i + hn]) rt1.[i]] in
    (rt3, rt4)) (rt3, rt4) in
  (rt3, rt4, scale_x).

(** One of f and g into NTT form over [slen + 1] primes, by way of [t2]. *)
Definition fg_to_ntt (lv : level) (o_src o_t2 : nat) (tmp : list Z) : list Z :=
  let logn := lv_logn lv in
  let n := lv_n lv in
  let slen := lv_slen lv in
  let slen_adj := S slen in
  let o_tn := (o_t2 + n)%nat in
  let tmp := for_ slen_adj (fun i tmp =>
    let e := primes.[i] in
    let p := sp_p e in
    let p0i := sp_p0i e in
    let rx := mp_Rx31 (Z.of_nat slen) p p0i (sp_r2 e) in
    let tmp := at_ o_t2 (fun gm => mp_mkgm logn gm (sp_g e) p p0i) tmp in
    let tmp := for_ n (fun j tmp =>
      tmp.[o_tn + i * n + j <- zint_mod_small_signed (drop (o_src + j) tmp) slen n p p0i (sp_r2 e) rx]) tmp in
    at_ (o_tn + i * n) (fun tn => mp_NTT logn tn (drop o_t2 tmp) p p0i) tmp) tmp in
  put_ o_src (sub_ o_tn (slen_adj * n) tmp) tmp.

Definition reduce_bits (logn_top : nat) : Z :=
  match logn_top with 9%nat => 13 | 10%nat => 11 | _ => 16 end.

(** The length shrinks while the numbers are known to be shorter. *)
Fixpoint shrink (FGlen slen : nat) (diff : Z) : nat :=
  match FGlen with
  | O => O
  | S l =>
      if (slen <? FGlen)%nat && (diff <? 31 * (Z.of_nat FGlen - Z.of_nat slen)) then shrink l slen diff else FGlen
  end.

(** One turn: k from the top words, then (F,G) minus k (f,g). *)
Definition reduce_turn (logn_top depth : nat) (lv : level) (rl : reduce_layout) (f g rt3 rt4 tmp_fxr : list Z)
    (scale_x scale_FG scale_fg : Z) (FGlen : nat) (tmp : list Z) : list Z :=
  let logn := lv_logn lv in
  let n := lv_n lv in
  let slen := lv_slen lv in
  let llen := lv_llen lv in
  let o_k := rl_t1 rl in
  let o_t2 := (rl_t1 rl + n)%nat in
  let o_Gt := (llen * n)%nat in
  let '(sch, toff) := divrem31 scale_FG in
  let tlen := Z.to_nat sch in
  let rt1 := take n (drop (2 * n) tmp_fxr) in
  let rt2 := drop (3 * n) tmp_fxr in
  let rt1 := poly_big_to_fixed logn rt1 (drop (tlen * n) tmp) (FGlen - tlen) (scale_x +% toff) in
  let rt2 := poly_big_to_fixed logn rt2 (drop (o_Gt + tlen * n) tmp) (FGlen - tlen) (scale_x +% toff) in
  let rt1 := vect_FFT logn rt1 in
  let rt2 := vect_FFT logn rt2 in
  let rt1 := vect_mul_fft logn rt1 rt3 in
  let rt2 := vect_mul_fft logn rt2 rt4 in
  let rt2 := vect_add logn rt2 rt1 in
  let rt2 := vect_iFFT logn rt2 in
  let tmp := for_ n (fun i tmp => tmp.[o_k + i <- u32 (fxr_round rt2.[i])]) tmp in
  let scale_k := scale_FG -% scale_fg in
  let FF := sub_ 0 (llen * n) tmp in
  let GG := sub_ o_Gt (llen * n) tmp in
  let k := sub_ o_k n tmp in
  if (depth =? 1)%nat then
    let '(FF, GG, k, t2) := poly_sub_kfg_scaled_depth1 logn_top FF GG FGlen k scale_k f g (drop o_t2 tmp) in
    put_ o_t2 t2 (put_ o_k k (put_ o_Gt GG (put_ 0 FF tmp)))
  else
    let ft := drop (rl_ft rl) tmp in
    let gt := drop (rl_gt rl) tmp in
    if use_sub_ntt depth lv then
      let '(FF, t2) := poly_sub_scaled_ntt logn FF FGlen ft slen k scale_k (drop o_t2 tmp) in
      let '(GG, t2) := poly_sub_scaled_ntt logn GG FGlen gt slen k scale_k t2 in
      put_ o_t2 t2 (put_ o_Gt GG (put_ 0 FF tmp))
    else
      let FF := poly_sub_scaled logn FF FGlen ft slen k scale_k in
      let GG := poly_sub_scaled logn GG FGlen gt slen k scale_k in
      put_ o_Gt GG (put_ 0 FF tmp).

(** The scale and the length for the next turn. *)
Definition next_scale (logn_top slen : nat) (scale_fg scale_FG : Z) (FGlen : nat) : Z * nat :=
  let scale_FG := if scale_FG <=? scale_fg +% reduce_bits logn_top then scale_fg else scale_FG -% reduce_bits logn_top in
  (scale_FG, shrink FGlen slen (scale_FG -% scale_fg +% 30)).

Fixpoint reduce_loop (fuel : nat) (turn : Z -> nat -> list Z -> list Z) (logn_top slen : nat) (scale_fg scale_FG : Z)
    (FGlen : nat) (tmp : list Z) : option (list Z) :=
  match fuel with
  | O => None
  | S fuel' =>
      let tmp := turn scale_FG FGlen tmp in
      if scale_FG <=? scale_fg then Some tmp
      else
        let '(scale_FG, FGlen) := next_scale logn_top slen scale_fg scale_FG FGlen in
        reduce_loop fuel' turn logn_top slen scale_fg scale_FG FGlen tmp
  end.

(** ** The test of a level's solution modulo the first prime *)

(** The coefficients of a polynomial from [o_src] modulo p, in NTT form from [o_dst]
    on; the table is at [o_gm]. *)
Definition to_ntt_at (lv : level) (e : small_prime) (rx : Z) (o_src o_dst o_gm : nat) (tmp : list Z) : list Z :=
  let n := lv_n lv in
  let tmp := for_ n (fun i tmp =>
    tmp.[o_dst + i <- zint_mod_small_signed (drop (o_src + i) tmp) (lv_slen lv) n (sp_p e) (sp_p0i e) (sp_r2 e) rx]) tmp in
  at_ o_dst (fun d => mp_NTT (lv_logn lv) d (drop o_gm tmp) (sp_p e) (sp_p0i e)) tmp.

Definition check_solution (depth : nat) (lv : level) (rl : reduce_layout) (tmp : list Z) : result (list Z) (list Z) :=
  let n := lv_n lv in
  let slen := lv_slen lv in
  let e := primes.[0] in
  let p := sp_p e in
  let p0i := sp_p0i e in
  let rx := mp_Rx31 (Z.of_nat slen) p p0i (sp_r2 e) in
  let o_t1 := rl_t1 rl in
  let o_t2 := (o_t1 + n)%nat in
  let o_t3 := (o_t1 + 2 * n)%nat in
  let o_t4 := (o_t1 + 3 * n)%nat in
  let o_Gt := (slen * n)%nat in
  let sub_ntt := use_sub_ntt depth lv in
  let tmp := at_ o_t4 (fun t4 => mp_mkgm (lv_logn lv) t4 (sp_g e) p p0i) tmp in
  (* The product of f or g, at [o_x], with G or F, at [o_Y]. *)
  let factors (o_x o_Y : nat) (tmp : list Z) : nat * list Z :=
    if sub_ntt then (o_x, to_ntt_at lv e rx o_Y o_t2 o_t4 tmp)
    else
      let tmp := for_ n (fun i tmp =>
        let tmp := tmp.[o_t1 + i <- zint_mod_small_signed (drop (o_x + i) tmp) slen n p p0i (sp_r2 e) rx] in
        tmp.[o_t2 + i <- zint_mod_small_signed (drop (o_Y + i) tmp) slen n p p0i (sp_r2 e) rx]) tmp in
      let tmp := at_ o_t1 (fun t => mp_NTT (lv_logn lv) t (drop o_t4 tmp) p p0i) tmp in
      (o_t1, at_ o_t2 (fun t => mp_NTT (lv_logn lv) t (drop o_t4 tmp) p p0i) tmp) in
  let '(o_l, tmp) := factors (rl_ft rl) o_Gt tmp in
  let tmp := for_ n (fun i tmp => tmp.[o_t3 + i <- mp_mmul tmp.[o_l + i] tmp.[o_t2 + i] p p0i]) tmp in
  let '(o_l, tmp) := factors (rl_gt rl) 0%nat tmp in
  let rv := mp_mmul q 1 p p0i in
  try_ n (fun i tmp =>
    let x := mp_mmul tmp.[o_l + i] tmp.[o_t2 + i] p p0i in
    if negb (mp_sub tmp.[o_t3 + i] x p =? rv) then Err tmp else Ok tmp) tmp.

(** [None] when the reduction runs out of fuel. *)
Definition solve_NTRU_intermediate (fuel logn_top : nat) (f g : list Z) (depth : nat) (tmp tmp_fxr : list Z)
    : option (result (list Z) (list Z)) :=
  let lv := level_at logn_top depth in
  let n := lv_n lv in
  let slen := lv_slen lv in
  let llen := lv_llen lv in
  let tmp := load_level logn_top f g depth lv tmp in
  let tmp := lower_to_rns lv tmp in
  let tmp := unreduced lv tmp in
  let rl := layout depth lv in
  let tmp :=
    if use_sub_ntt depth lv then put_ (off_gt lv + n) (sub_ (off_gt lv) (n * slen) tmp) tmp else tmp in
  let '(rt3, rt4, scale_x) := approx_fg lv depth rl tmp tmp_fxr in
  let o_t2 := (rl_t1 rl + n)%nat in
  let tmp :=
    if use_sub_ntt depth lv
    then fg_to_ntt lv (rl_gt rl) o_t2 (fg_to_ntt lv (rl_ft rl) o_t2 tmp)
    else tmp in
  let blen := (slen - Nat.min word_win.[depth] slen)%nat in
  let scale_fg := u32 (Z.of_nat blen) *% 31 in
  let scale_FG := u32 (Z.of_nat llen) *% 31 in
  let turn := reduce_turn logn_top depth lv rl f g rt3 rt4 tmp_fxr scale_x in
  match reduce_loop fuel (fun scale_FG => turn scale_FG scale_fg) logn_top slen scale_fg scale_FG llen tmp with
  | None => None
  | Some tmp =>
      let tmp := put_ (slen * n) (sub_ (llen * n) (slen * n) tmp) tmp in
      if (depth =? 1)%nat then Some (Ok tmp) else Some (check_solution depth lv rl tmp)
  end.

(** * The top level *)

(** The unreduced (F,G), in NTT form, in place of f and g. *)
Definition depth0_build (logn : nat) (f g tmp : list Z) : list Z :=
  let n := (2 ^ logn)%nat in
  let hn := (n / 2)%nat in
  let e := primes.[0] in
  let p := sp_p e in
  let p0i := sp_p0i e in
  let r2 := sp_r2 e in
  let o_Gd := hn in
  let o_ft := (2 * hn)%nat in
  let o_gt := (2 * hn + n)%nat in
  let o_gm := (2 * hn + 2 * n)%nat in
  let tmp := at_ o_gm (fun gm => mp_mkgm logn gm (sp_g e) p p0i) tmp in
  let tmp := at_ o_ft (fun ft => poly_mp_set_small logn ft f p) tmp in
  let tmp := at_ o_gt (fun gt => poly_mp_set_small logn gt g p) tmp in
  let tmp := at_ o_ft (fun ft => mp_NTT logn ft (drop o_gm tmp) p p0i) tmp in
  let tmp := at_ o_gt (fun gt => mp_NTT logn gt (drop o_gm tmp) p p0i) tmp in
  let tmp := at_ 0 (fun Fd => poly_mp_set (logn - 1) Fd p) tmp in
  let tmp := at_ o_Gd (fun Gd => poly_mp_set (logn - 1) Gd p) tmp in
  let tmp := at_ 0 (fun Fd => mp_NTT (logn - 1) Fd (drop o_gm tmp) p p0i) tmp in
  let tmp := at_ o_Gd (fun Gd => mp_NTT (logn - 1) Gd (drop o_gm tmp) p p0i) tmp in
  let tmp := for_ hn (fun i tmp =>
    let fa := tmp.[o_ft + 2 * i] in
    let fb := tmp.[o_ft + 2 * i + 1] in
    let ga := tmp.[o_gt + 2 * i] in
    let gb := tmp.[o_gt + 2 * i + 1] in
    let mFd := mp_mmul tmp.[i] r2 p p0i in
    let mGd := mp_mmul tmp.[o_Gd + i] r2 p p0i in
    let tmp := tmp.[o_ft + 2 * i <- mp_mmul gb mFd p p0i] in
    let tmp := tmp.[o_ft + 2 * i + 1 <- mp_mmul ga mFd p p0i] in
    let tmp := tmp.[o_gt + 2 * i <- mp_mmul fb mGd p p0i] in
    tmp.[o_gt + 2 * i + 1 <- mp_mmul fa mGd p p0i]) tmp in
  put_ 0 (sub_ n (2 * n) tmp) tmp.

(** One of f and g: its products with the adjoint of itself (into [t3]) and of F
    or G (into [t1]), stored or added by [op]. *)
Definition adj_products (logn : nat) (f : list Z) (o_FG : nat) (op : Z -> Z -> Z) (tmp : list Z) : list Z :=
  let n := (2 ^ logn)%nat in
  let e := primes.[0] in
  let p := sp_p e in
  let p0i := sp_p0i e in
  let o_t1 := (2 * n)%nat in
  let o_gm := (3 * n)%nat in
  let o_t3 := (4 * n)%nat in
  let o_t4 := (5 * n)%nat in
  let tmp := at_ o_t4 (fun t4 => poly_mp_set_small logn t4 f p) tmp in
  let tmp := at_ o_t4 (fun t4 => mp_NTT logn t4 (drop o_gm tmp) p p0i) tmp in
  for_ n (fun i tmp =>
    let w := mp_mmul tmp.[o_t4 + (n - 1 - i)] (sp_r2 e) p p0i in
    let tmp := tmp.[o_t1 + i <- op tmp.[o_t1 + i] (mp_mmul w tmp.[o_FG + i] p p0i)] in
    tmp.[o_t3 + i <- op tmp.[o_t3 + i] (mp_mmul w tmp.[o_t4 + i] p p0i)]) tmp.

(** [t1] and [t2] become F adj(f) + G adj(g) and f adj(f) + g adj(g). *)
Definition depth0_norms (logn : nat) (f g tmp : list Z) : list Z :=
  let n := (2 ^ logn)%nat in
  let e := primes.[0] in
  let p := sp_p e in
  let p0i := sp_p0i e in
  let o_t1 := (2 * n)%nat in
  let o_t2 := (3 * n)%nat in
  let o_t3 := (4 * n)%nat in
  let o_t4 := (5 * n)%nat in
  let tmp := adj_products logn f 0 (fun _ v => v) tmp in
  let tmp := adj_products logn g n (fun a v => mp_add a v p) tmp in
  let tmp := at_ o_t4 (fun t4 => mp_mkigm logn t4 (sp_ig e) p p0i) tmp in
  let tmp := at_ o_t1 (fun t1 => mp_iNTT logn t1 (drop o_t4 tmp) p p0i) tmp in
  let tmp := at_ o_t3 (fun t3 => mp_iNTT logn t3 (drop o_t4 tmp) p p0i) tmp in
  for_ n (fun i tmp =>
    let tmp := tmp.[o_t1 + i <- u32 (mp_norm tmp.[o_t1 + i] p)] in
    tmp.[o_t2 + i <- u32 (mp_norm tmp.[o_t3 + i] p)]) tmp.

(** [t1] becomes the rounded quotient k modulo p. *)
Definition depth0_round (logn : nat) (tmp tmp_fxr : list Z) : list Z :=
  let n := (2 ^ logn)%nat in
  let p := sp_p primes.[0] in
  let o_t1 := (2 * n)%nat in
  let o_t2 := (3 * n)%nat in
  let scaled (o : nat) (rt3 : list Z) : list Z :=
    for_ n (fun i rt3 => rt3.[i <- fxr_of_scaled32 (u64 (u64 (i32 tmp.[o + i]) .<< 22))]) rt3 in
  let rt3 := vect_FFT logn (scaled o_t2 (take n tmp_fxr)) in
  let rt2 := take (n / 2) rt3 in
  let rt3 := vect_FFT logn (scaled o_t1 rt3) in
  let rt3 := vect_div_selfadj_fft logn rt3 rt2 in
  let rt3 := vect_iFFT logn rt3 in
  for_ n (fun i tmp => tmp.[o_t1 + i <- mp_set (fxr_round rt3.[i]) p]) tmp.

(** (F,G) minus k (f,g), and the test that f G - g F = q. *)
Definition depth0_check (logn : nat) (f g tmp : list Z) : result (list Z) (list Z) :=
  let n := (2 ^ logn)%nat in
  let e := primes.[0] in
  let p := sp_p e in
  let p0i := sp_p0i e in
  let o_Gp := n in
  let o_t1 := (2 * n)%nat in
  let o_t2 := (3 * n)%nat in
  let o_t3 := (4 * n)%nat in
  let o_t4 := (5 * n)%nat in
  let tmp := at_ o_t4 (fun t4 => mp_mkgm logn t4 (sp_g e) p p0i) tmp in
  let tmp := at_ o_t1 (fun t1 => mp_NTT logn t1 (drop o_t4 tmp) p p0i) tmp in
  let tmp := for_ n (fun i tmp => tmp.[o_t1 + i <- mp_mmul tmp.[o_t1 + i] (sp_r2 e) p p0i]) tmp in
  let tmp := for_ n (fun i tmp =>
    let tmp := tmp.[o_t2 + i <- mp_set f.[i] p] in
    tmp.[o_t3 + i <- mp_set g.[i] p]) tmp in
  let tmp := at_ o_t2 (fun t2 => mp_NTT logn t2 (drop o_t4 tmp) p p0i) tmp in
  let tmp := at_ o_t3 (fun t3 => mp_NTT logn t3 (drop o_t4 tmp) p p0i) tmp in
  let rv := mp_mmul q 1 p p0i in
  try_ n (fun i tmp =>
    let tmp := tmp.[i <- mp_sub tmp.[i] (mp_mmul tmp.[o_t1 + i] tmp.[o_t2 + i] p p0i) p] in
    let tmp := tmp.[o_Gp + i <- mp_sub tmp.[o_Gp + i] (mp_mmul tmp.[o_t1 + i] tmp.[o_t3 + i] p p0i) p] in
    let x := mp_sub (mp_mmul tmp.[o_t2 + i] tmp.[o_Gp + i] p p0i) (mp_mmul tmp.[o_t3 + i] tmp.[i] p p0i) p in
    if negb (x =? rv) then Err tmp else Ok tmp) tmp.

(** F and G out of NTT form. *)
Definition depth0_finish (logn : nat) (tmp : list Z) : list Z :=
  let n := (2 ^ logn)%nat in
  let e := primes.[0] in
  let p := sp_p e in
  let p0i := sp_p0i e in
  let o_t4 := (5 * n)%nat in
  let tmp := at_ o_t4 (fun t4 => mp_mkigm logn t4 (sp_ig e) p p0i) tmp in
  let tmp := at_ 0 (fun Fp => mp_iNTT logn Fp (drop o_t4 tmp) p p0i) tmp in
  let tmp := at_ n (fun Gp => mp_iNTT logn Gp (drop o_t4 tmp) p p0i) tmp in
  let tmp := at_ 0 (fun Fp => poly_mp_norm logn Fp p) tmp in
  at_ n (fun Gp => poly_mp_norm logn Gp p) tmp.

Definition solve_NTRU_depth0 (logn : nat) (f g tmp tmp_fxr : list Z) : result (list Z) (list Z) :=
  let tmp := depth0_build logn f g tmp in
  let tmp := depth0_norms logn f g tmp in
  let tmp := depth0_round logn tmp tmp_fxr in
  match depth0_check logn f g tmp with
  | Err tmp => Err tmp
  | Ok tmp => Ok (depth0_finish logn tmp)
  end.

(** * The solver *)

(** The levels from [depth] up to 1. *)
Fixpoint solve_levels (fuel logn : nat) (f g : list Z) (depth : nat) (tmp tmp_fxr : list Z)
    : option (result (list Z) (list Z)) :=
  match depth with
  | O => Some (Ok tmp)
  | S d =>
      match solve_NTRU_intermediate fuel logn f g depth tmp tmp_fxr with
      | Some (Ok tmp) => solve_levels fuel logn f g d tmp tmp_fxr
      | r => r
      end
  end.

(** Whether a solution was found, with F, G and the scratch array. *)
Definition solve_NTRU (fuel logn : nat) (f g F G tmp tmp_fxr : list Z) : option (bool * list Z * list Z * list Z) :=
  match solve_NTRU_deepest logn f g tmp with
  | Err tmp => Some (false, F, G, tmp)
  | Ok tmp =>
      match solve_levels fuel logn f g (logn - 1) tmp tmp_fxr with
      | None => None
      | Some (Err tmp) => Some (false, F, G, tmp)
      | Some (Ok tmp) =>
          match solve_NTRU_depth0 logn f g tmp tmp_fxr with
          | Err tmp => Some (false, F, G, tmp)
          | Ok tmp =>
              match poly_big_to_small logn F tmp 127 with
              | Err F => Some (false, F, G, tmp)
              | Ok F =>
                  match poly_big_to_small logn G (drop (2 ^ logn) tmp) 127 with
                  | Err G => Some (false, F, G, tmp)
                  | Ok G => Some (true, F, G, tmp)
                  end
              end
          end
      end
  end.

(** ** The orthogonalized norm *)

Definition check_ortho_norm (logn : nat) (f g tmp_fxr : list Z) : bool :=
  let n := (2 ^ logn)%nat in
  let rt1 := vect_set logn (take n tmp_fxr) f in
  let rt2 := vect_set logn (take n (drop n tmp_fxr)) g in
  let rt1 := vect_FFT logn rt1 in
  let rt2 := vect_FFT logn rt2 in
  let rt3 := vect_invnorm_fft logn (drop (2 * n) tmp_fxr) rt1 rt2 0 in
  let rt1 := vect_adj_fft logn rt1 in
  let rt2 := vect_adj_fft logn rt2 in
  let rt1 := vect_mul_realconst logn rt1 (fxr_of 12289) in
  let rt2 := vect_mul_realconst logn rt2 (fxr_of 12289) in
  let rt1 := vect_mul_selfadj_fft logn rt1 rt3 in
  let rt2 := vect_mul_selfadj_fft logn rt2 rt3 in
  let rt1 := vect_iFFT logn rt1 in
  let rt2 := vect_iFFT logn rt2 in
  let sn := for_ n (fun i sn => fxr_add sn (fxr_add (fxr_sqr rt1.[i]) (fxr_sqr rt2.[i]))) 0 in
  fxr_lt sn (fxr_of_scaled32 72251709809335).
