(* ===== verification/NtruMem.v ===== *)
(** The scratch array of the NTRU solver: which part of it a step writes.

    [only lo hi t t'] says that [t'] is [t] outside of [lo, hi); [keeps f] that
    [f] does not change the length of the array.  The transforms work on a prefix
    of the slice they are given. *)
From Stdlib Require Import ZArith Lia.
From stdpp Require Import base numbers list.
From S2P Require Import Prelude Mq Ntt Mp31Tables Mp31 Zint31 FxrTable Fxr Kpoly Ntru.
Local Open Scope Z_scope.

Create HintDb mem.

Definition only (lo hi : nat) (t t' : list Z) : Prop :=
  length t' = length t /\ forall i, (i < lo \/ hi <= i)%nat -> t'.[i] = t.[i].
Definition keeps (f : list Z -> list Z) : Prop := forall d, length (f d) = length d.

Lemma only_refl lo hi t : only lo hi t t.
Proof. done. Qed.

Lemma only_trans lo hi t1 t2 t3 : only lo hi t1 t2 -> only lo hi t2 t3 -> only lo hi t1 t3.
Proof. intros [L1 H1] [L2 H2]. split; [congruence|]. intros i Hi. by rewrite H2, H1. Qed.

Lemma only_mono lo hi lo' hi' t t' : only lo hi t t' -> (lo' <= lo)%nat -> (hi <= hi')%nat -> only lo' hi' t t'.
Proof. intros [L H] Hlo Hhi. split; [done|]. intros i Hi. apply H. lia. Qed.

Lemma only_length lo hi t t' : only lo hi t t' -> length t' = length t.
Proof. by intros [L _]. Qed.

Lemma only_get lo hi t t' i : only lo hi t t' -> (i < lo \/ hi <= i)%nat -> t'.[i] = t.[i].
Proof. intros [_ H]. apply H. Qed.

Lemma only_set lo hi t i v : (lo <= i < hi)%nat -> only lo hi t t.[i <- v].
Proof. intros Hi. split; [apply length_set|]. intros j Hj. apply get_set_ne. lia. Qed.

Lemma only_then_set lo hi t t' i v : only lo hi t t' -> (lo <= i < hi)%nat -> only lo hi t t'.[i <- v].
Proof. intros H Hi. eapply only_trans; [exact H|]. by apply only_set. Qed.

Lemma only_for lo hi n body t :
  (forall i s, (i < n)%nat -> only lo hi s (body i s)) -> only lo hi t (for_ n body t).
Proof.
  intros Hb. apply (for_ind (fun _ s => only lo hi t s)); [apply only_refl|].
  intros i s Hi Hs. eapply only_trans; [exact Hs|]. by apply Hb.
Qed.

Lemma only_drop lo hi o t t' : only lo hi t t' -> (hi <= o)%nat -> drop o t' = drop o t.
Proof.
  intros [L H] Ho. apply get_ext; [rewrite !length_drop; lia|]. intros i _. rewrite !get_drop. apply H. lia.
Qed.

(** ** Slices *)

Lemma length_sub o n t : (o + n <= length t)%nat -> length (sub_ o n t) = n.
Proof. intros H. unfold sub_. rewrite length_take, length_drop. lia. Qed.

Lemma get_sub o n t i : (i < n)%nat -> (sub_ o n t).[i] = t.[o + i].
Proof. intros Hi. unfold sub_. by rewrite get_take, get_drop by done. Qed.

Lemma drop_sub o n t : (o + n <= length t)%nat -> drop o t = sub_ o n t ++ drop (o + n) t.
Proof. intros H. unfold sub_. rewrite <- drop_drop. by rewrite take_drop. Qed.

Lemma only_sub lo hi o n t t' :
  only lo hi t t' -> (o + n <= lo \/ hi <= o)%nat -> sub_ o n t' = sub_ o n t.
Proof.
  intros [L H] Ho. apply get_ext; [unfold sub_; rewrite !length_take, !length_drop; lia|].
  unfold sub_ at 1. rewrite length_take. intros i Hi. rewrite !get_sub by lia. apply H. lia.
Qed.

Lemma length_put o l t : length (put_ o l t) = length t.
Proof. unfold put_. rewrite !length_app, length_drop, !length_take. lia. Qed.

Lemma get_put o l t i :
  (o + length l <= length t)%nat ->
  (put_ o l t).[i] = if decide (o <= i < o + length l)%nat then l.[i - o] else t.[i].
Proof.
  intros H. unfold put_. rewrite (firstn_all2 l) by lia. case_decide.
  - rewrite get_app_r, length_take by (rewrite length_take; lia). rewrite get_app_l by lia. f_equal. lia.
  - destruct (decide (i < o)%nat).
    + rewrite get_app_l by (rewrite length_take; lia). by apply get_take.
    + rewrite get_app_r, length_take by (rewrite length_take; lia). rewrite get_app_r by lia. rewrite get_drop. f_equal. lia.
Qed.

Lemma only_put o l t : (o + length l <= length t)%nat -> only o (o + length l) t (put_ o l t).
Proof. intros H. split; [apply length_put|]. intros i Hi. rewrite get_put by done. rewrite decide_False by lia. done. Qed.

Lemma sub_put o l t : (o + length l <= length t)%nat -> sub_ o (length l) (put_ o l t) = l.
Proof.
  intros H. apply get_ext; [apply length_sub; by rewrite length_put|]. rewrite length_sub by (by rewrite length_put).
  intros i Hi. rewrite get_sub, get_put by done. rewrite decide_True by lia. f_equal. lia.
Qed.

(** A function that works on the first [m] words of a slice. *)
Lemma keeps_at o f : keeps f -> keeps (at_ o f).
Proof. intros Hf t. unfold at_. rewrite length_app, length_take, Hf, length_drop. lia. Qed.

Lemma get_at o f t i : (o <= length t)%nat -> (at_ o f t).[o + i] = (f (drop o t)).[i].
Proof. intros Ho. unfold at_. rewrite get_app_r; rewrite length_take; [f_equal; lia|lia]. Qed.

Lemma only_at o m f t : (o <= length t)%nat -> only 0 m (drop o t) (f (drop o t)) -> only o (o + m) t (at_ o f t).
Proof.
  intros Ho [L H]. split; [unfold at_; rewrite length_app, length_take, L, length_drop; lia|].
  intros i [Hi|Hi].
  - unfold at_. rewrite get_app_l by (rewrite length_take; lia). by apply get_take.
  - replace i with (o + (i - o))%nat by lia. rewrite get_at, H, get_drop by lia. done.
Qed.

Lemma sub_at o m f t :
  (o + m <= length t)%nat -> keeps f -> sub_ o m (at_ o f t) = take m (f (drop o t)).
Proof.
  intros Ho Hf. apply get_ext.
  { rewrite length_sub, length_take, Hf, length_drop; [lia|]. by rewrite (keeps_at o f Hf). }
  intros i Hi. rewrite length_sub in Hi by (by rewrite (keeps_at o f Hf)).
  rewrite get_sub, get_at, get_take by lia. done.
Qed.

(** ** Functions of the library as writers of a slice *)

Lemma only_poly_mp_set_small logn d f p : only 0 (2 ^ logn) d (poly_mp_set_small logn d f p).
Proof. apply only_for. intros i s Hi. apply only_set. lia. Qed.
Lemma only_poly_mp_set logn d p : only 0 (2 ^ logn) d (poly_mp_set logn d p).
Proof. apply only_for. intros i s Hi. apply only_set. lia. Qed.
Lemma only_poly_mp_norm logn d p : only 0 (2 ^ logn) d (poly_mp_norm logn d p).
Proof. apply only_for. intros i s Hi. apply only_set. lia. Qed.

Lemma only_mp_fill logn gm x1 g p p0i : (logn <= 10)%nat -> only 0 (2 ^ logn) gm (mp_fill logn gm x1 g p p0i).
Proof.
  intros Hl. unfold mp_fill.
  apply (for_ind (fun _ (st : list Z * Z) => only 0 (2 ^ logn) gm (fst st))); [apply only_refl|].
  intros i [b x] Hi H. cbn [fst] in *. apply only_then_set; [done|].
  split; [lia|]. change (brev logn i < 2 ^ logn)%nat. by apply brev_lt.
Qed.

(** A function that acts on the first [n] words of what it is given. *)
Lemma at_prefix o n (f : list Z -> list Z) t :
  (o + n <= length t)%nat ->
  (forall a r, length a = n -> f (a ++ r) = f a ++ r /\ length (f a) = length a) ->
  only o (o + n) t (at_ o f t) /\ sub_ o n (at_ o f t) = f (sub_ o n t).
Proof.
  intros Ho Hf. pose proof (length_sub o n t Ho) as La.
  destruct (Hf _ (drop (o + n) t) La) as [E L]. rewrite <- drop_sub in E by done.
  assert (length (f (drop o t)) = length (drop o t)) as HL by (rewrite E, length_app, L, La, !length_drop; lia).
  assert (length (at_ o f t) = length t) as HA by (unfold at_; rewrite length_app, length_take, HL, length_drop; lia).
  split.
  - apply only_at; [lia|]. split; [exact HL|]. intros i Hi. rewrite E, get_app_r by lia.
    rewrite L, La, !get_drop. f_equal. lia.
  - apply get_ext; [rewrite length_sub by lia; lia|]. intros i Hi. rewrite length_sub in Hi by lia.
    rewrite get_sub, get_at, E by lia. by rewrite get_app_l by lia.
Qed.

Lemma mp_NTT_at logn o t gm p p0i :
  (o + 2 ^ logn <= length t)%nat ->
  only o (o + 2 ^ logn) t (at_ o (fun d => mp_NTT logn d gm p p0i) t) /\
  sub_ o (2 ^ logn) (at_ o (fun d => mp_NTT logn d gm p p0i) t) = mp_NTT logn (sub_ o (2 ^ logn) t) gm p p0i.
Proof. intros Ho. apply at_prefix; [done|]. intros a r La. rewrite !mp_NTT_loop. by apply ntt_loop_app. Qed.

Lemma mp_iNTT_at logn o t igm p p0i :
  (o + 2 ^ logn <= length t)%nat ->
  only o (o + 2 ^ logn) t (at_ o (fun d => mp_iNTT logn d igm p p0i) t) /\
  sub_ o (2 ^ logn) (at_ o (fun d => mp_iNTT logn d igm p p0i) t) = mp_iNTT logn (sub_ o (2 ^ logn) t) igm p p0i.
Proof. intros Ho. apply at_prefix; [done|]. intros a r La. rewrite !mp_iNTT_loop. by apply intt_loop_app. Qed.

(** ** Lengths *)

Lemma keeps_for {A} n (body : nat -> list A -> list A) d :
  (forall i s, length (body i s) = length s) -> length (for_ n body d) = length d.
Proof. intros Hb. apply (for_ind (fun _ s => length s = length d)); [done|]. intros i s _ <-. apply Hb. Qed.

Lemma keeps_mp_NTT logn gm p p0i : keeps (fun d => mp_NTT logn d gm p p0i).
Proof.
  intros d. cbv beta. unfold mp_NTT. destruct (_ =? _)%nat; [done|]. unfold ntt_loop.
  apply (for_ind (fun _ (st : list Z * nat) => length (fst st) = length d)); [done|].
  intros l [b t] _ Hb. cbn [fst] in *. unfold ntt_layer.
  apply (for_ind (fun _ (st : list Z * nat) => length (fst st) = length d)); [done|].
  intros i [c j0] _ Hc. cbn [fst] in *. unfold ntt_block. rewrite keeps_for; [done|]. intros. by rewrite !length_set.
Qed.

Lemma keeps_mp_iNTT logn gm p p0i : keeps (fun d => mp_iNTT logn d gm p p0i).
Proof.
  intros d. cbv beta. unfold mp_iNTT. destruct (_ =? _)%nat; [done|]. unfold intt_loop.
  apply (for_ind (fun _ (st : list Z * nat) => length (fst st) = length d)); [done|].
  intros l [b t] _ Hb. cbn [fst] in *. unfold intt_layer.
  apply (for_ind (fun _ (st : list Z * nat) => length (fst st) = length d)); [done|].
  intros i [c j0] _ Hc. cbn [fst] in *. unfold intt_block. rewrite keeps_for; [done|]. intros. by rewrite !length_set.
Qed.

Lemma keeps_mp_fill logn x1 g p p0i : keeps (fun d => mp_fill logn d x1 g p p0i).
Proof.
  intros d. unfold mp_fill. apply (for_ind (fun _ (st : list Z * Z) => length (fst st) = length d)); [done|].
  intros i [b x] _ Hb. cbn [fst] in *. by rewrite length_set.
Qed.

Lemma keeps_mkgm logn g p p0i : keeps (fun d => mp_mkgm logn d g p p0i).
Proof. apply keeps_mp_fill. Qed.
Lemma keeps_mkigm logn g p p0i : keeps (fun d => mp_mkigm logn d g p p0i).
Proof. apply keeps_mp_fill. Qed.
Lemma keeps_poly_mp_set_small logn f p : keeps (fun d => poly_mp_set_small logn d f p).
Proof. intros d. apply only_poly_mp_set_small. Qed.
Lemma keeps_poly_mp_set logn p : keeps (fun d => poly_mp_set logn d p).
Proof. intros d. apply only_poly_mp_set. Qed.
Lemma keeps_poly_mp_norm logn p : keeps (fun d => poly_mp_norm logn d p).
Proof. intros d. apply only_poly_mp_norm. Qed.

#[export] Hint Resolve keeps_mp_NTT keeps_mp_iNTT keeps_mkgm keeps_mkigm keeps_poly_mp_set_small keeps_poly_mp_set
  keeps_poly_mp_norm : mem.

Lemma length_at o f t : keeps f -> length (at_ o f t) = length t.
Proof. intros Hf. by apply (keeps_at o f Hf). Qed.

(** ** What a part of the array holds *)

Definition region (P : Z -> Prop) (o n : nat) (t : list Z) : Prop := forall i, (i < n)%nat -> P t.[o + i].

Lemma region_only P lo hi o n t t' :
  only lo hi t t' -> (o + n <= lo \/ hi <= o)%nat -> region P o n t -> region P o n t'.
Proof. intros [_ H] Ho HP i Hi. rewrite H by lia. by apply HP. Qed.

Lemma region_sub P o n t : (o + n <= length t)%nat -> region P o n t <-> Forall P (sub_ o n t).
Proof.
  intros Ho. split.
  - intros H. apply Forall_get. intros i. rewrite length_sub by done. intros Hi. rewrite get_sub by done. by apply H.
  - intros H i Hi. rewrite <- (get_sub o n) by done. apply (get_Forall P); [done|]. by rewrite length_sub.
Qed.

Lemma region_weaken (P Q : Z -> Prop) o n t : (forall x, P x -> Q x) -> region P o n t -> region Q o n t.
Proof. intros HPQ H i Hi. apply HPQ. by apply H. Qed.

Lemma region_split P o a b t : region P o (a + b) t <-> region P o a t /\ region P (o + a) b t.
Proof.
  split.
  - intros H. split; intros i Hi; [apply H; lia|]. rewrite <- Nat.add_assoc. apply H. lia.
  - intros [H1 H2] i Hi. destruct (decide (i < a)%nat); [by apply H1|].
    replace (o + i)%nat with (o + a + (i - a))%nat by lia. apply H2. lia.
Qed.

Lemma region_set (P : Z -> Prop) o m t k v :
  (k < length t)%nat -> P v -> region P o m t -> region P o m t.[k <- v].
Proof.
  intros Hk Hv H i Hi. rewrite get_set by done. case_decide; [done|]. by apply H.
Qed.


(** A loop that writes one word of a slice after the other. *)
Lemma for_writes (F : nat -> list Z -> Z) o n t :
  (o + n <= length t)%nat ->
  let t' := for_ n (fun i t => t.[o + i <- F i t]) t in
  only o (o + n) t t' /\
  forall i, (i < n)%nat -> exists s, only o (o + i) t s /\ t'.[o + i] = F i s.
Proof.
  intros Ho. cbv zeta. apply (for_ind (fun c t' => only o (o + c) t t' /\
    forall i, (i < c)%nat -> exists s, only o (o + i) t s /\ t'.[o + i] = F i s)).
  { split; [apply only_refl|lia]. }
  intros c s Hc [Hs IH]. pose proof (only_length _ _ _ _ Hs). split.
  - apply only_then_set; [|lia]. eapply only_mono; [exact Hs|lia..].
  - intros i Hi. destruct (decide (i = c)) as [->|].
    + exists s. split; [done|]. rewrite get_set_eq by lia. done.
    + rewrite get_set_ne by lia. apply IH. lia.
Qed.

(** A machine word. *)
Definition is_word (x : Z) : Prop := 0 <= x < 2 ^ 32.

Lemma mp_add_word a b p : is_word (mp_add a b p).
Proof. apply u32_range. Qed.
Lemma mp_sub_word a b p : is_word (mp_sub a b p).
Proof. apply u32_range. Qed.
Lemma mp_set_word v p : is_word (mp_set v p).
Proof. apply u32_range. Qed.

Lemma mp_NTT_words logn a gm p p0i : Forall is_word a -> Forall is_word (mp_NTT logn a gm p p0i).
Proof.
  intros Ha. rewrite mp_NTT_loop.
  apply ntt_loop_stored; [intros; apply mp_add_word|intros; apply mp_sub_word|done].
Qed.

(** Small coefficients written at an offset, modulo p. *)
Lemma poly_mp_set_small_at logn o f p t :
  (o + 2 ^ logn <= length t)%nat ->
  only o (o + 2 ^ logn) t (at_ o (fun d => poly_mp_set_small logn d f p) t) /\
  sub_ o (2 ^ logn) (at_ o (fun d => poly_mp_set_small logn d f p) t) = (fun i => mp_set f.[i] p) <$> seq 0 (2 ^ logn).
Proof.
  intros Ho. split; [apply only_at; [lia|apply only_poly_mp_set_small]|].
  apply get_ext; [rewrite length_sub, length_fmap, length_seq; [done|by rewrite length_at by auto with mem]|].
  intros i. rewrite length_sub by (by rewrite length_at by auto with mem). intros Hi.
  rewrite get_sub, get_at by lia. unfold poly_mp_set_small.
  destruct (for_map_get (fun i _ => mp_set f.[i] p) (2 ^ logn) (drop o t)) as (_ & H & _); [rewrite length_drop; lia|].
  rewrite H by done. symmetry. apply get_lookup. by rewrite list_lookup_fmap, lookup_seq_lt.
Qed.

(** Words read as signed numbers and reduced. *)
Lemma poly_mp_set_at logn o p t :
  (o + 2 ^ logn <= length t)%nat ->
  only o (o + 2 ^ logn) t (at_ o (fun d => poly_mp_set logn d p) t) /\
  region is_word o (2 ^ logn) (at_ o (fun d => poly_mp_set logn d p) t).
Proof.
  intros Ho. split; [apply only_at; [lia|apply only_poly_mp_set]|].
  intros i Hi. rewrite get_at by lia. unfold poly_mp_set.
  destruct (for_map_get (fun i x => mp_set (sign31 x) p) (2 ^ logn) (drop o t)) as (_ & H & _); [rewrite length_drop; lia|].
  rewrite H by done. apply mp_set_word.
Qed.

(** [step x] names the value of the [let] the predicate of the goal is applied to. *)
Ltac step x :=
  lazymatch goal with |- ?P (let y := ?v in @?b y) => pose (x := v); change (P (b x)); cbv beta end.

(** [inline] does away with the ones that are not arrays. *)
Ltac inline :=
  repeat lazymatch goal with |- ?P (let y := ?v in @?b y) =>
    lazymatch type of v with list Z => fail | _ => change (P (b v)); cbv beta end end.
