(* ===== verification/NtruFacts.v ===== *)
(** What the NTRU solver establishes: [solve_NTRU] terminates, and the F and G it
    returns solve f G - g F = q over the integers.

    The argument rests on the top level alone: whatever the levels below left in
    the scratch array, the last test is made on the F and G that are returned,
    modulo a prime above every coefficient of the equation. *)
From Stdlib Require Import ZArith Lia.
From stdpp Require Import base numbers list.
From S2P Require Import Prelude Mq Ntt Mp31Tables Mp31 Zint31 FxrTable Fxr Kpoly Ntru NtruMem ZintCrt.
Local Open Scope Z_scope.

(** * The equation modulo a prime of the table *)

Section Equation.
Context (e : small_prime) (He : prime_entry e).
Local Abbreviation p := (sp_p e).
Local Abbreviation p0i := (sp_p0i e).
Local Abbreviation rep x := (0 <= x < p) (only parsing).
Context (logn : nat) (Hl : (logn <= 10)%nat) (gm0 igm0 : list Z)
  (Lg : (2 ^ logn <= length gm0)%nat) (Li : (2 ^ logn <= length igm0)%nat).
Local Abbreviation n := (2 ^ logn)%nat.
Local Abbreviation gm := (mp_mkgm logn gm0 (sp_g e) p p0i).
Local Abbreviation igm := (mp_mkigm logn igm0 (sp_ig e) p p0i).
Local Abbreviation NTT a := (mp_NTT logn a gm p p0i).

(** Each value of the transform is the value at one root of X^n = -1. *)
Lemma mp_NTT_eval i :
  (i < n)%nat ->
  exists x, x ^ Z.of_nat n ==[p] -1 /\
    forall b, length b = n -> Forall (fun x => rep x) b -> (NTT b).[i] ==[p] peval (get b) n x.
Proof.
  intros Hi.
  pose proof (mp_roots (Hgood := pe_good _ He) (pe_root _ He) logn gm0 igm0 Hl Lg Li) as NR.
  exists (rho (mp_ops p p0i) (H := mp_ring (pe_good _ He)) gm (n + i)). split.
  - exact (rho_pow (mp_ops p p0i) (MR := mp_ring (pe_good _ He)) gm igm n logn i ltac:(lia) Hi).
  - intros b Lb Hb. rewrite mp_NTT_loop.
    by apply (ntt_loop_eval (mp_ops p p0i) (MR := mp_ring (pe_good _ He)) gm igm n).
Qed.

Lemma mp_iNTT_ok a :
  length a = n -> Forall (fun x => rep x) a ->
  length (mp_iNTT logn a igm p p0i) = n /\ Forall (fun x => rep x) (mp_iNTT logn a igm p p0i).
Proof.
  intros La Ha. rewrite mp_iNTT_loop.
  pose proof (mp_roots (Hgood := pe_good _ He) (pe_root _ He) logn gm0 igm0 Hl Lg Li) as NR.
  destruct (intt_loop_ok (mp_ops p p0i) (MR := mp_ring (pe_good _ He)) gm igm n logn a) as [H1 H2]; [lia|done|done|].
  split; [lia|done].
Qed.

Lemma mp_NTT_iNTT a :
  length a = n -> Forall (fun x => rep x) a -> NTT (mp_iNTT logn a igm p p0i) = a.
Proof.
  intros La Ha. rewrite mp_NTT_loop, mp_iNTT_loop.
  pose proof (mp_roots (Hgood := pe_good _ He) (pe_root _ He) logn gm0 igm0 Hl Lg Li) as NR.
  by apply (ntt_intt_loop (mp_ops p p0i) (MR := mp_ring (pe_good _ He)) gm igm n).
Qed.

Lemma rep_mod (f : nat -> Z) :
  let l := (fun k => f k mod p) <$> seq 0 n in
  length l = n /\ Forall (fun x => rep x) l /\ forall k, (k < n)%nat -> l.[k] = f k mod p.
Proof.
  pose proof (p_range (pe_good _ He)). cbv zeta. split; [by rewrite length_fmap, length_seq|]. split.
  - apply Forall_fmap, Forall_forall. intros k _. apply Z.mod_pos_bound. lia.
  - intros k Hk. apply get_lookup. by rewrite list_lookup_fmap, lookup_seq_lt.
Qed.

(** An equation a b - c d = v that holds of all values holds of the polynomials. *)
Lemma mp_equation a b c d v :
  Forall (fun l => length l = n /\ Forall (fun x => rep x) l) [a; b; c; d] ->
  (forall i, (i < n)%nat -> (NTT a).[i] * (NTT b).[i] - (NTT c).[i] * (NTT d).[i] ==[p] v) ->
  forall k, (k < n)%nat ->
    nega_coeff n (get a) (get b) k - nega_coeff n (get c) (get d) k ==[p] if (k =? 0)%nat then v else 0.
Proof.
  intros H Hv. rewrite !Forall_cons in H.
  destruct H as ([La Ra] & [Lb Rb] & [Lc Rc] & [Ld Rd] & _).
  set (u := fun k => nega_coeff n (get a) (get b) k - nega_coeff n (get c) (get d) k).
  set (w := fun k => if (k =? 0)%nat then v else 0).
  destruct (rep_mod u) as (Lu & Ru & Gu). destruct (rep_mod w) as (Lw & Rw & Gw).
  enough (((fun k => u k mod p) <$> seq 0 n) = ((fun k => w k mod p) <$> seq 0 n)) as E.
  { intros k Hk. split. change (u k mod p = w k mod p). rewrite <- Gu, <- Gw by done. by rewrite E. }
  rewrite <- (mp_iNTT_NTT e He logn Hl gm0 igm0 Lg Li _ Lu Ru), <- (mp_iNTT_NTT e He logn Hl gm0 igm0 Lg Li _ Lw Rw).
  f_equal. destruct (mp_NTT_ok e He logn Hl gm0 igm0 Lg Li _ Lu Ru) as [L1 R1].
  destruct (mp_NTT_ok e He logn Hl gm0 igm0 Lg Li _ Lw Rw) as [L2 R2].
  apply get_ext; [congruence|]. intros i Hi. rewrite L1 in Hi.
  apply (cong_small p); [by apply (get_Forall (fun x => rep x)); [|lia]..|].
  destruct (mp_NTT_eval i Hi) as (x & Hx & Hev). rewrite !Hev by done.
  transitivity (peval u n x). { apply peval_cong. intros k Hk. rewrite Gu by done. apply mod_cong. }
  transitivity (peval w n x); [|apply peval_cong; intros k Hk; rewrite Gw by done; symmetry; apply mod_cong].
  transitivity (peval (get a) n x * peval (get b) n x - peval (get c) n x * peval (get d) n x).
  { rewrite <- !peval_nega by done. apply cong_of_eq. unfold peval, u.
    transitivity (zsum n (fun k => nega_coeff n (get a) (get b) k * x ^ Z.of_nat k) +
      (-1) * zsum n (fun k => nega_coeff n (get c) (get d) k * x ^ Z.of_nat k)); [|ring].
    rewrite <- zsum_mul_l, <- zsum_plus. apply zsum_ext. intros k Hk. ring. }
  rewrite <- !Hev, Hv by done. apply cong_of_eq. unfold peval, w.
  rewrite zsum_first; [change (Z.of_nat 0) with 0; rewrite Z.pow_0_r, Z.mul_1_r; done|apply Nat.neq_0_lt_0, Nat.pow_nonzero; lia|].
  intros k Hk. destruct (Nat.eqb_spec k 0); [lia|]. ring.
Qed.
End Equation.

(** * The top level *)

Lemma first_prime : prime_entry primes.[0].
Proof. apply primes_entry. vm_compute. lia. Qed.

Section TopLevel.
Context (logn : nat) (Hl : (1 <= logn <= 10)%nat).
Local Abbreviation n := (2 ^ logn)%nat.
Local Abbreviation hn := (2 ^ (logn - 1))%nat.
Local Abbreviation p := (sp_p primes.[0]).
Local Abbreviation p0i := (sp_p0i primes.[0]).
Local Abbreviation rep := (fun x => 0 <= x < p).

Local Abbreviation good := (pe_good _ first_prime).

Lemma half_degree : (n = 2 * hn /\ n / 2 = hn /\ 1 <= hn)%nat.
Proof.
  assert (n = 2 * hn)%nat as E by (rewrite <- Nat.pow_succ_r'; f_equal; lia). split; [done|].
  split; [rewrite E, Nat.mul_comm; by apply Nat.div_mul|]. apply Nat.neq_0_le_1, Nat.pow_nonzero. lia.
Qed.

(** Operands of the product: a word and a value modulo p. *)
Lemma mmul_word_rep x y : is_word x -> rep y -> rep (mp_mmul x y p p0i).
Proof. intros Hx Hy. pose proof (p_range good). unfold is_word in Hx. cbv beta in *. apply (mp_mmul_spec good); [lia|lia|nia]. Qed.

Lemma mmul_rep x y : rep x -> rep y -> rep (mp_mmul x y p p0i).
Proof. apply (mp_mmul_rep good). Qed.

Lemma mset_rep (f : list Z) :
  Forall (fun x => -128 <= x < 128) f -> length f = n ->
  let l := (fun i => mp_set f.[i] p) <$> seq 0 n in
  length l = n /\ Forall rep l /\ forall i, (i < n)%nat -> l.[i] ==[p] f.[i].
Proof.
  intros Hf Lf. cbv zeta. pose proof (p_range good).
  assert (forall i, (i < n)%nat -> rep (mp_set f.[i] p) /\ mp_set f.[i] p ==[p] f.[i]) as Hs.
  { intros i Hi. apply (mp_set_spec good). pose proof (get_Forall _ f i Hf ltac:(lia)). cbv beta in *. lia. }
  assert (forall i, (i < n)%nat -> ((fun i => mp_set f.[i] p) <$> seq 0 n).[i] = mp_set f.[i] p) as Hg
    by (intros i Hi; apply get_lookup; by rewrite list_lookup_fmap, lookup_seq_lt).
  split; [by rewrite length_fmap, length_seq|]. split.
  - apply Forall_get. rewrite length_fmap, length_seq. intros i Hi. rewrite Hg by done. by apply Hs.
  - intros i Hi. rewrite Hg by done. by apply Hs.
Qed.

(** F and G, in their place, in canonical form. *)
Definition FG_ok (t : list Z) : Prop := length t = (6 * n)%nat /\ region rep 0 (2 * n) t.

(** The product loop of [depth0_build]. *)
Definition depth0_cross (i : nat) (tmp : list Z) : list Z :=
  let fa := tmp.[n + 2 * i] in
  let fb := tmp.[n + 2 * i + 1] in
  let ga := tmp.[2 * n + 2 * i] in
  let gb := tmp.[2 * n + 2 * i + 1] in
  let mFd := mp_mmul tmp.[i] (sp_r2 primes.[0]) p p0i in
  let mGd := mp_mmul tmp.[hn + i] (sp_r2 primes.[0]) p p0i in
  let tmp := tmp.[n + 2 * i <- mp_mmul gb mFd p p0i] in
  let tmp := tmp.[n + 2 * i + 1 <- mp_mmul ga mFd p p0i] in
  let tmp := tmp.[2 * n + 2 * i <- mp_mmul fb mGd p p0i] in
  tmp.[2 * n + 2 * i + 1 <- mp_mmul fa mGd p p0i].

Lemma depth0_cross_ok t :
  length t = (6 * n)%nat -> region is_word 0 n t -> region rep n (2 * n) t ->
  let t' := for_ hn depth0_cross t in length t' = (6 * n)%nat /\ region rep n (2 * n) t'.
Proof.
  intros Lt HF Hfg. cbv zeta. destruct half_degree as (En & _ & _). destruct (pe_r2 _ first_prime) as [Hr2 _].
  pose proof (for_ind (fun _ t' => length t' = (6 * n)%nat /\ region is_word 0 n t' /\ region rep n (2 * n) t') hn depth0_cross t) as HI.
  feed_loop HI; [done| |split; apply HI].
  intros i s Hi (Ls & H1 & H2).
  assert (forall k, (k < 2 * n)%nat -> rep s.[n + k]) as R by exact H2.
  assert (forall k, (k < n)%nat -> rep (mp_mmul s.[k] (sp_r2 primes.[0]) p p0i)) as M
    by (intros k Hk; apply mmul_word_rep; [by apply (H1 k)|done]).
  unfold depth0_cross. cbv zeta. rewrite !length_set. split; [done|]. split.
  - eapply (region_only _ n (3 * n)); [|lia|exact H1]. repeat (apply only_then_set; [|lia]). apply only_refl.
  - repeat (apply region_set; [rewrite ?length_set; lia| |]); try done; apply mmul_rep;
      first [replace (2 * n + 2 * i + 1)%nat with (n + (n + 2 * i + 1))%nat by lia; apply R; lia
            |replace (2 * n + 2 * i)%nat with (n + (n + 2 * i))%nat by lia; apply R; lia
            |rewrite <- Nat.add_assoc; apply R; lia
            |apply R; lia|apply M; lia].
Qed.

Context (f g : list Z) (Lf : length f = n) (Lg : length g = n)
  (Hf : Forall (fun x => -128 <= x < 128) f) (Hg : Forall (fun x => -128 <= x < 128) g).

Lemma depth0_build_ok tmp : length tmp = (6 * n)%nat -> FG_ok (depth0_build logn f g tmp).
Proof using Hl Lf Lg Hf Hg.
  intros L0. destruct half_degree as (En & Eh & Hh). destruct (mset_rep f Hf Lf) as (LF & RF & _).
  destruct (mset_rep g Hg Lg) as (LG & RG & _).
  cbv beta delta [depth0_build]. inline. rewrite Eh. replace (2 * hn)%nat with n by lia. replace (n + n)%nat with (2 * n)%nat by lia.
  step t1. assert (length t1 = (6 * n)%nat /\ drop (n + 2 * n) t1 = mp_mkgm logn (drop (n + 2 * n) tmp) (sp_g primes.[0]) p p0i) as [L1 G1].
  { destruct (at_spec (n + 2 * n) (fun gm => mp_mkgm logn gm (sp_g primes.[0]) p p0i) tmp) as (H1 & H2 & _); [lia|apply keeps_mkgm|].
    split; [by rewrite <- L0|exact H2]. }
  clearbody t1.
  step t2. destruct (poly_mp_set_small_at logn n f p t1 ltac:(lia)) as [O2 S2]. fold t2 in O2, S2. clearbody t2.
  pose proof (only_length _ _ _ _ O2) as L2.
  step t3. destruct (poly_mp_set_small_at logn (2 * n) g p t2 ltac:(lia)) as [O3 S3]. fold t3 in O3, S3. clearbody t3.
  pose proof (only_length _ _ _ _ O3) as L3.
  assert (drop (n + 2 * n) t3 = mp_mkgm logn (drop (n + 2 * n) tmp) (sp_g primes.[0]) p p0i) as G3.
  { rewrite (only_drop _ _ _ _ _ O3), (only_drop _ _ _ _ _ O2) by lia. exact G1. }
  rewrite <- (only_sub _ _ n n _ _ O3) in S2 by lia.
  assert (n <= length (drop (n + 2 * n) tmp))%nat as Hg0 by (rewrite length_drop; lia).
  step t4. destruct (mp_NTT_at logn n t3 (drop (n + 2 * n) t3) p p0i ltac:(lia)) as [O4 S4]. fold t4 in O4, S4. clearbody t4.
  pose proof (only_length _ _ _ _ O4) as L4.
  rewrite <- (only_sub _ _ (2 * n) n _ _ O4) in S3 by lia. rewrite G3, S2 in S4.
  rewrite (eq_sym (only_drop _ _ (n + 2 * n) _ _ O4 ltac:(lia))) in G3.
  step t5. destruct (mp_NTT_at logn (2 * n) t4 (drop (n + 2 * n) t4) p p0i ltac:(lia)) as [O5 S5]. fold t5 in O5, S5. clearbody t5.
  pose proof (only_length _ _ _ _ O5) as L5.
  rewrite <- (only_sub _ _ n n _ _ O5) in S4 by lia. rewrite G3, S3 in S5.
  assert (region rep n (2 * n) t5) as R5.
  { replace (2 * n)%nat with (n + n)%nat by lia. apply region_split. replace (n + n)%nat with (2 * n)%nat by lia.
    split; apply region_sub; try lia; [rewrite S4|rewrite S5];
      apply (mp_NTT_ok primes.[0] first_prime logn ltac:(lia) _ (drop (n + 2 * n) tmp)); done. }
  clear S2 S3 S4 S5 G1 G3 O2 O3 O4 O5.
  step t6. destruct (poly_mp_set_at (logn - 1) 0 p t5 ltac:(lia)) as [O6 W6]. fold t6 in O6, W6. clearbody t6.
  pose proof (only_length _ _ _ _ O6) as L6.
  step t7. destruct (poly_mp_set_at (logn - 1) hn p t6 ltac:(lia)) as [O7 W7]. fold t7 in O7, W7. clearbody t7.
  pose proof (only_length _ _ _ _ O7) as L7. apply (region_only _ _ _ _ _ _ _ O7) in W6; [|lia].
  step t8. destruct (mp_NTT_at (logn - 1) 0 t7 (drop (n + 2 * n) t7) p p0i ltac:(lia)) as [O8 S8]. fold t8 in O8, S8. clearbody t8.
  pose proof (only_length _ _ _ _ O8) as L8. apply (region_only _ _ _ _ _ _ _ O8) in W7; [|lia].
  step t9. destruct (mp_NTT_at (logn - 1) hn t8 (drop (n + 2 * n) t8) p p0i ltac:(lia)) as [O9 S9]. fold t9 in O9, S9. clearbody t9.
  pose proof (only_length _ _ _ _ O9) as L9. rewrite <- (only_sub _ _ 0 hn _ _ O9) in S8 by lia.
  assert (region is_word 0 n t9) as W9.
  { rewrite En. replace (2 * hn)%nat with (hn + hn)%nat by lia. apply region_split. change (0 + hn)%nat with hn.
    split; apply region_sub; try lia; [rewrite S8|rewrite S9]; apply mp_NTT_words; apply region_sub; try lia; done. }
  assert (region rep n (2 * n) t9) as R9.
  { do 4 (eapply region_only; [eassumption|lia|]). exact R5. }
  destruct (depth0_cross_ok t9 ltac:(lia) W9 R9) as [LA RA].
  change (FG_ok (let t := for_ hn depth0_cross t9 in put_ 0 (sub_ n (2 * n) t) t)).
  cbv zeta. set (t := for_ hn depth0_cross t9) in *. clearbody t.
  assert (length (sub_ n (2 * n) t) = (2 * n)%nat) as Ls by (apply length_sub; lia).
  split; [by rewrite length_put|]. intros i Hi. rewrite get_put by lia. rewrite decide_True by lia.
  rewrite get_sub by lia. replace (n + (0 + i - 0))%nat with (n + i)%nat by lia. by apply RA.
Qed.

(** ** The quotient k leaves F and G alone *)

Lemma only_at_mono lo hi o m h t :
  length t = (6 * n)%nat -> only 0 m (drop o t) (h (drop o t)) -> (lo <= o)%nat -> (o + m <= hi)%nat -> (hi <= 6 * n)%nat ->
  only lo hi t (at_ o h t).
Proof using.
  clear Lf Lg Hf Hg Hl. intros Lt H Hlo Hhi Hn. eapply only_mono; [apply (only_at o m); [lia|exact H]|lia|lia].
Qed.

Lemma adj_products_only h o op t :
  length t = (6 * n)%nat -> only (2 * n) (6 * n) t (adj_products logn h o op t).
Proof using.
  clear Lf Lg Hf Hg Hl. intros Lt. set (P := only (2 * n) (6 * n) t). change (P (adj_products logn h o op t)).
  cbv beta delta [adj_products]. inline.
  step t1. assert (P t1) as H1.
  { apply (only_at_mono _ _ _ n); try lia. apply only_poly_mp_set_small. }
  clearbody t1. pose proof (only_length _ _ _ _ H1) as L1.
  step t2. assert (P t2) as H2.
  { eapply only_trans; [exact H1|]. eapply only_mono; [apply mp_NTT_at; lia|lia|lia]. }
  clearbody t2. eapply only_trans; [exact H2|]. apply only_for. intros i s Hi. cbv zeta.
  repeat (apply only_then_set; [|lia]). apply only_refl.
Qed.

Lemma depth0_norms_only t : length t = (6 * n)%nat -> only (2 * n) (6 * n) t (depth0_norms logn f g t).
Proof using Hl.
  clear Lf Lg Hf Hg. intros Lt. set (P := only (2 * n) (6 * n) t). change (P (depth0_norms logn f g t)).
  cbv beta delta [depth0_norms]. inline.
  step t1. assert (P t1) as H1 by (by apply adj_products_only). clearbody t1. pose proof (only_length _ _ _ _ H1) as L1.
  step t2. assert (P t2) as H2 by (eapply only_trans; [exact H1|apply adj_products_only; lia]).
  clearbody t2. pose proof (only_length _ _ _ _ H2) as L2.
  step t3. assert (P t3) as H3.
  { eapply only_trans; [exact H2|]. apply (only_at_mono _ _ _ n); try lia. apply only_mp_fill. lia. }
  clearbody t3. pose proof (only_length _ _ _ _ H3) as L3.
  step t4. assert (P t4) as H4.
  { eapply only_trans; [exact H3|]. eapply only_mono; [apply mp_iNTT_at; lia|lia|lia]. }
  clearbody t4. pose proof (only_length _ _ _ _ H4) as L4.
  step t5. assert (P t5) as H5.
  { eapply only_trans; [exact H4|]. eapply only_mono; [apply mp_iNTT_at; lia|lia|lia]. }
  clearbody t5. eapply only_trans; [exact H5|]. apply only_for. intros i s Hi. cbv zeta.
  repeat (apply only_then_set; [|lia]). apply only_refl.
Qed.

Lemma depth0_round_ok t fx :
  length t = (6 * n)%nat ->
  only (2 * n) (3 * n) t (depth0_round logn t fx) /\ region is_word (2 * n) n (depth0_round logn t fx).
Proof using.
  clear Lf Lg Hf Hg Hl. intros Lt. unfold depth0_round.
  match goal with |- only _ _ _ ?x /\ _ => match x with for_ _ (fun i _ => _.[_ <- mp_set (fxr_round (?r).[i]) _]) _ =>
    generalize r as rt end end.
  intros rt. destruct (for_writes (fun i _ => mp_set (fxr_round rt.[i]) p) (2 * n) n t ltac:(lia)) as [H1 H2]. split.
  - eapply only_mono; [exact H1|lia|lia].
  - intros i Hi. destruct (H2 i Hi) as (s & _ & ->). apply mp_set_word.
Qed.

(** ** The test *)

Local Abbreviation small_mod h := ((fun i => mp_set h.[i] p) <$> seq 0 n).

(** f G - g F = q at every root, F and G being at the start of the array. *)
Definition solved (t : list Z) : Prop :=
  FG_ok t /\ exists gm0, (n <= length gm0)%nat /\
    let NTT a := mp_NTT logn a (mp_mkgm logn gm0 (sp_g primes.[0]) p p0i) p p0i in
    forall i, (i < n)%nat -> (NTT (small_mod f)).[i] * t.[n + i] - (NTT (small_mod g)).[i] * t.[i] ==[p] q.

(** One turn of the last loop. *)
Definition check_turn (i : nat) (tmp : list Z) : result (list Z) (list Z) :=
  let tmp := tmp.[i <- mp_sub tmp.[i] (mp_mmul tmp.[2 * n + i] tmp.[3 * n + i] p p0i) p] in
  let tmp := tmp.[n + i <- mp_sub tmp.[n + i] (mp_mmul tmp.[2 * n + i] tmp.[4 * n + i] p p0i) p] in
  let x := mp_sub (mp_mmul tmp.[3 * n + i] tmp.[n + i] p p0i) (mp_mmul tmp.[4 * n + i] tmp.[i] p p0i) p in
  if negb (x =? mp_mmul q 1 p p0i) then Err tmp else Ok tmp.

(** A difference of two products equal to the product of [v] and one is [v]. *)
Lemma mmul_test a b c d v :
  rep a -> rep b -> rep c -> rep d -> rep v ->
  mp_sub (mp_mmul a b p p0i) (mp_mmul c d p p0i) p = mp_mmul v 1 p p0i -> a * b - c * d ==[p] v.
Proof using.
  clear Lf Lg Hf Hg Hl. intros Ha Hb Hc Hd Hv E. cbv beta in *. pose proof (p_range good).
  assert (rep 1) as H1 by lia.
  pose proof (proj2 (mp_sub_spec good _ _ (mmul_rep a b Ha Hb) (mmul_rep c d Hc Hd))) as Hs. rewrite E in Hs.
  rewrite (mp_mmul_cong good _ _ Ha Hb), (mp_mmul_cong good _ _ Hc Hd), (mp_mmul_cong good _ _ Hv H1) in Hs.
  pose proof (Rinv_cong good) as HR. set (R := mp_Rinv p p0i) in *.
  transitivity ((a * b * R - c * d * R) * 2 ^ 32).
  - transitivity ((a * b - c * d) * (2 ^ 32 * R)); [rewrite HR; cong_ring|cong_ring].
  - rewrite <- Hs. transitivity (v * (2 ^ 32 * R)); [cong_ring|]. rewrite HR. cong_ring.
Qed.

Lemma check_turns_ok t t' :
  FG_ok t -> region rep (2 * n) (3 * n) t -> try_ n check_turn t = Ok t' ->
  FG_ok t' /\ forall i, (i < n)%nat -> t.[3 * n + i] * t'.[n + i] - t.[4 * n + i] * t'.[i] ==[p] q.
Proof using.
  clear Lf Lg Hf Hg Hl. intros [Lt R0] R1 Ht. pose proof (p_range good) as Hp.
  assert (rep q) as Hq by (unfold q; lia).
  pose proof (try_ok (fun c s => FG_ok s /\ only 0 (2 * n) t s /\
    forall i, (i < c)%nat -> t.[3 * n + i] * s.[n + i] - t.[4 * n + i] * s.[i] ==[p] q) n check_turn t t') as HI.
  feed_loop HI; [split; [done|]; split; [apply only_refl|lia]| |destruct (HI Ht) as (? & _ & ?); done].
  clear Ht. intros c s s' Hc ([Ls Rs] & Os & IH). unfold check_turn. cbv zeta.
  assert (forall k, (k < 3 * n)%nat -> s.[2 * n + k] = t.[2 * n + k] /\ rep s.[2 * n + k]) as Ho.
  { intros k Hk. rewrite (only_get _ _ _ _ _ Os) by lia. split; [done|]. by apply R1. }
  destruct (Ho c ltac:(lia)) as [E2 P2]. destruct (Ho (n + c)%nat ltac:(lia)) as [E3 P3]. destruct (Ho (2 * n + c)%nat ltac:(lia)) as [E4 P4].
  replace (2 * n + (n + c))%nat with (3 * n + c)%nat in * by lia. replace (2 * n + (2 * n + c))%nat with (4 * n + c)%nat in * by lia.
  pose proof (Rs c ltac:(lia)) as PF. pose proof (Rs (n + c)%nat ltac:(lia)) as PG.
  change (0 + c)%nat with c in PF. change (0 + (n + c))%nat with (n + c)%nat in PG.
  repeat (rewrite get_set_ne by lia). rewrite !get_set_eq by (rewrite ?length_set; lia).
  repeat (rewrite get_set_ne by lia). rewrite !get_set_eq by (rewrite ?length_set; lia).
  set (F := mp_sub s.[c] _ p). set (G := mp_sub s.[n + c] _ p).
  assert (rep F /\ rep G) as [HF HG] by (split; apply (mp_sub_spec good); try done; by apply mmul_rep).
  case_match eqn:E; [done|]. intros [= <-]. apply negb_false_iff, Z.eqb_eq in E.
  apply mmul_test in E; [|done..]. clearbody F G. split; [split|split].
  - by rewrite !length_set.
  - by repeat (apply region_set; [rewrite ?length_set; lia|done|]).
  - repeat (apply only_then_set; [|lia]). done.
  - intros i Hi. destruct (decide (i = c)) as [->|].
    + rewrite get_set_eq by (rewrite ?length_set; lia). rewrite get_set_ne, get_set_eq by lia. by rewrite <- E3, <- E4.
    + rewrite !get_set_ne by lia. apply IH. lia.
Qed.

Lemma two_writes (u v : nat -> Z) t :
  length t = (6 * n)%nat ->
  let t' := for_ n (fun i t => t.[3 * n + i <- u i].[4 * n + i <- v i]) t in
  only (3 * n) (5 * n) t t' /\ sub_ (3 * n) n t' = u <$> seq 0 n /\ sub_ (4 * n) n t' = v <$> seq 0 n.
Proof using.
  clear Lf Lg Hf Hg Hl. intros Lt. cbv zeta.
  assert (forall w i, (i < n)%nat -> (w <$> seq 0 n : list Z).[i] = w i) as Hg
    by (intros w i Hi; apply get_lookup; by rewrite list_lookup_fmap, lookup_seq_lt).
  pose proof (for_ind (fun c t' => only (3 * n) (5 * n) t t' /\
    forall i, (i < c)%nat -> t'.[3 * n + i] = u i /\ t'.[4 * n + i] = v i) n (fun i t => t.[3 * n + i <- u i].[4 * n + i <- v i]) t) as HI.
  feed_loop HI; [split; [apply only_refl|lia]| |].
  - intros c s Hc [Hs IH]. pose proof (only_length _ _ _ _ Hs). split.
    + by repeat (apply only_then_set; [|lia]).
    + intros i Hi. destruct (decide (i = c)) as [->|].
      * rewrite get_set_ne, !get_set_eq by (rewrite ?length_set; lia). done.
      * rewrite !get_set_ne by lia. apply IH. lia.
  - destruct HI as [HO HV]. pose proof (only_length _ _ _ _ HO). split; [done|].
    split; (apply get_ext; rewrite length_sub by lia; [by rewrite length_fmap, length_seq|]);
      intros i Hi; rewrite get_sub, Hg by done; by apply HV.
Qed.

Lemma depth0_check_ok t t' :
  FG_ok t -> region is_word (2 * n) n t -> depth0_check logn f g t = Ok t' -> solved t'.
Proof using Hl Lf Lg Hf Hg.
  intros Hok W. pose proof (proj1 Hok) as L0. destruct (mset_rep f Hf Lf) as (LF & RF & _). destruct (mset_rep g Hg Lg) as (LG & RG & _).
  destruct (pe_r2 _ first_prime) as [Hr2 _].
  set (P := fun r : result (list Z) (list Z) => r = Ok t' -> solved t'). change (P (depth0_check logn f g t)).
  cbv beta delta [depth0_check]. inline.
  step t1. assert (only (5 * n) (6 * n) t t1 /\ drop (5 * n) t1 = mp_mkgm logn (drop (5 * n) t) (sp_g primes.[0]) p p0i) as [O1 G1].
  { split; [apply (only_at_mono _ _ _ n); try lia; apply only_mp_fill; lia|].
    destruct (at_spec (5 * n) (fun gm => mp_mkgm logn gm (sp_g primes.[0]) p p0i) t) as (_ & H2 & _); [lia|apply keeps_mkgm|exact H2]. }
  clearbody t1. pose proof (only_length _ _ _ _ O1) as L1. apply (region_only _ _ _ _ _ _ _ O1) in W; [|lia].
  step t2. destruct (mp_NTT_at logn (2 * n) t1 (drop (5 * n) t1) p p0i ltac:(lia)) as [O2 S2]. fold t2 in O2, S2. clearbody t2.
  pose proof (only_length _ _ _ _ O2) as L2.
  assert (region is_word (2 * n) n t2) as W2.
  { apply region_sub; [lia|]. rewrite S2. apply mp_NTT_words. apply region_sub; [lia|done]. }
  rewrite (eq_sym (only_drop _ _ (5 * n) _ _ O2 ltac:(lia))) in G1. clear S2 W.
  step t3. destruct (for_writes (fun i t => mp_mmul t.[2 * n + i] (sp_r2 primes.[0]) p p0i) (2 * n) n t2 ltac:(lia)) as [O3 V3].
  fold t3 in O3, V3. clearbody t3. pose proof (only_length _ _ _ _ O3) as L3.
  assert (region rep (2 * n) n t3) as R3.
  { intros i Hi. destruct (V3 i Hi) as (s & Os & ->). apply mmul_word_rep; [|done].
    rewrite (only_get _ _ _ _ _ Os) by lia. by apply W2. }
  rewrite (eq_sym (only_drop _ _ (5 * n) _ _ O3 ltac:(lia))) in G1. clear V3 W2.
  step t4. destruct (two_writes (fun i => mp_set f.[i] p) (fun i => mp_set g.[i] p) t3 ltac:(lia)) as (O4 & SF & SG).
  fold t4 in O4, SF, SG. clearbody t4. pose proof (only_length _ _ _ _ O4) as L4. apply (region_only _ _ _ _ _ _ _ O4) in R3; [|lia].
  rewrite (eq_sym (only_drop _ _ (5 * n) _ _ O4 ltac:(lia))) in G1.
  step t5. destruct (mp_NTT_at logn (3 * n) t4 (drop (5 * n) t4) p p0i ltac:(lia)) as [O5 S5]. fold t5 in O5, S5. clearbody t5.
  pose proof (only_length _ _ _ _ O5) as L5. apply (region_only _ _ _ _ _ _ _ O5) in R3; [|lia]. rewrite G1, SF in S5.
  rewrite (eq_sym (only_drop _ _ (5 * n) _ _ O5 ltac:(lia))) in G1. rewrite <- (only_sub _ _ (4 * n) n _ _ O5) in SG by lia.
  step t6. destruct (mp_NTT_at logn (4 * n) t5 (drop (5 * n) t5) p p0i ltac:(lia)) as [O6 S6]. fold t6 in O6, S6. clearbody t6.
  pose proof (only_length _ _ _ _ O6) as L6. apply (region_only _ _ _ _ _ _ _ O6) in R3; [|lia]. rewrite G1, SG in S6.
  rewrite <- (only_sub _ _ (3 * n) n _ _ O6) in S5 by lia. set (gm0 := drop (5 * n) t) in *.
  assert (n <= length gm0)%nat as Hg0 by (unfold gm0; rewrite length_drop; lia).
  destruct (mp_NTT_ok primes.[0] first_prime logn ltac:(lia) gm0 gm0 Hg0 Hg0 _ LF RF) as [_ RF'].
  destruct (mp_NTT_ok primes.[0] first_prime logn ltac:(lia) gm0 gm0 Hg0 Hg0 _ LG RG) as [_ RG'].
  rewrite <- S5 in RF'. rewrite <- S6 in RG'. apply region_sub in RF'; [|lia]. apply region_sub in RG'; [|lia].
  assert (FG_ok t6) as H6.
  { split; [lia|]. do 6 (eapply region_only; [eassumption|lia|]). apply Hok. }
  assert (region rep (2 * n) (3 * n) t6) as R6.
  { replace (3 * n)%nat with (n + (n + n))%nat by lia. apply region_split. split; [done|].
    replace (2 * n + n)%nat with (3 * n)%nat by lia. apply region_split. split; [done|]. by replace (3 * n + n)%nat with (4 * n)%nat by lia. }
  change (try_ n check_turn t6 = Ok t' -> solved t'). intros Ht. destruct (check_turns_ok _ _ H6 R6 Ht) as [HFG HE].
  split; [done|]. exists gm0. split; [done|]. cbv beta zeta. intros i Hi. rewrite <- S5, <- S6, !get_sub by done. by apply HE.
Qed.

(** ** The way out *)

(** A value of less than 31 bits, as the code stores it. *)
Definition word31 (v : Z) : Z := u32 v .& 0x7FFFFFFF.

Lemma sign31_word31 v : - 2 ^ 30 < v < 2 ^ 30 -> sign31 (word31 v) = v.
Proof using.
  clear Lf Lg Hf Hg Hl. intros Hv.
  assert (word31 v = if decide (v < 0) then v + 2 ^ 31 else v) as ->.
  { unfold word31. change 0x7FFFFFFF with (Z.ones 31). rewrite Z.land_ones, u32_mod by lia. case_decide.
    - replace (v mod 2 ^ 32) with (v + 2 ^ 32) by (apply (Z.mod_unique_pos _ _ (-1)); lia).
      symmetry. apply (Z.mod_unique_pos _ _ 1); lia.
    - by rewrite (Z.mod_small v (2 ^ 32)), Z.mod_small by lia. }
  assert (forall x h, 0 <= x < 2 ^ 30 -> 0 <= h <= 1 -> (h * 2 ^ 30 + x) .& 0x40000000 = h * 2 ^ 30) as Hb.
  { intros x h Hx Hh. rewrite <- lor_shifted, Z.land_lor_distr_l by lia.
    assert (x .& 0x40000000 = 0) as ->.
    { apply Z.bits_inj'. intros i Hi. rewrite Z.land_spec, Z.testbit_0_l. destruct (decide (i < 30)).
      - change 0x40000000 with (2 ^ 30). rewrite Z.pow2_bits_false by lia. apply andb_false_r.
      - rewrite <- (Z.mod_small x (2 ^ 30)) by lia. by rewrite Z.mod_pow2_bits_high by lia. }
    rewrite Z.lor_0_r. assert (h = 0 \/ h = 1) as [-> | ->] by lia; reflexivity. }
  unfold sign31. case_decide.
  - pose proof (Hb (v + 2 ^ 30) 1 ltac:(lia) ltac:(lia)) as E.
    replace (1 * 2 ^ 30 + (v + 2 ^ 30)) with (v + 2 ^ 31) in E by lia. rewrite E.
    change (u32 (1 * 2 ^ 30 .<< 1)) with (1 * 2 ^ 31). rewrite Z.lor_comm, lor_shifted by lia. unfold i32.
    rewrite u32_mod. replace ((1 * 2 ^ 31 + (v + 2 ^ 31) + 2147483648) mod 2 ^ 32) with (v + 2 ^ 31)
      by (apply (Z.mod_unique_pos _ _ 1); lia). lia.
  - pose proof (Hb v 0 ltac:(lia) ltac:(lia)) as E. rewrite Z.mul_0_l, Z.add_0_l in E. rewrite E.
    change (u32 (0 .<< 1)) with 0. rewrite Z.lor_0_r. apply i32_small. lia.
Qed.

(** [t] holds F and G as signed words. *)
Definition holds (F G t : list Z) : Prop :=
  forall i, (i < n)%nat -> t.[i] = word31 (mp_norm F.[i] p) /\ t.[n + i] = word31 (mp_norm G.[i] p).

Lemma poly_mp_norm_at o t :
  (o + n <= length t)%nat ->
  only o (o + n) t (at_ o (fun d => poly_mp_norm logn d p) t) /\
  forall i, (i < n)%nat -> (at_ o (fun d => poly_mp_norm logn d p) t).[o + i] = word31 (mp_norm t.[o + i] p).
Proof using.
  clear Lf Lg Hf Hg Hl. intros Ho. split; [apply only_at; [lia|apply only_poly_mp_norm]|].
  intros i Hi. rewrite get_at by lia. unfold poly_mp_norm.
  destruct (for_map_get (fun i x => u32 (mp_norm x p) .& 0x7FFFFFFF) n (drop o t)) as (_ & H & _); [rewrite length_drop; lia|].
  rewrite H, get_drop by done. done.
Qed.

Lemma depth0_finish_ok t :
  solved t ->
  let t' := depth0_finish logn t in
  length t' = (6 * n)%nat /\ exists F G,
    Forall (fun l => length l = n /\ Forall rep l) [small_mod f; G; small_mod g; F] /\ holds F G t' /\
    forall k, (k < n)%nat ->
      nega_coeff n (get (small_mod f)) (get G) k - nega_coeff n (get (small_mod g)) (get F) k ==[p] if (k =? 0)%nat then q else 0.
Proof using Hl Lf Lg Hf Hg.
  intros ([L0 R0] & gm0 & Hg0 & HE). cbv beta zeta in HE.
  destruct (mset_rep f Hf Lf) as (LF & RF & _). destruct (mset_rep g Hg Lg) as (LG & RG & _).
  set (igm := mp_mkigm logn (drop (5 * n) t) (sp_ig primes.[0]) p p0i).
  assert (n <= length (drop (5 * n) t))%nat as Hi0 by (rewrite length_drop; lia).
  set (a := sub_ 0 n t). set (b := sub_ n n t).
  assert (length a = n /\ length b = n) as [La Lb] by (split; apply length_sub; lia).
  replace (2 * n)%nat with (n + n)%nat in R0 by lia. apply region_split in R0 as [Ra Rb]. change (0 + n)%nat with n in Rb.
  apply region_sub in Ra; [|lia]. apply region_sub in Rb; [|lia]. fold a in Ra. fold b in Rb.
  set (P := fun t' => length t' = (6 * n)%nat /\ holds (mp_iNTT logn a igm p p0i) (mp_iNTT logn b igm p p0i) t').
  enough (P (depth0_finish logn t)) as [LP HP].
  { split; [exact LP|]. exists (mp_iNTT logn a igm p p0i), (mp_iNTT logn b igm p p0i).
    destruct (mp_iNTT_ok primes.[0] first_prime logn ltac:(lia) gm0 (drop (5 * n) t) Hg0 Hi0 a La Ra) as [L1 R1].
    destruct (mp_iNTT_ok primes.[0] first_prime logn ltac:(lia) gm0 (drop (5 * n) t) Hg0 Hi0 b Lb Rb) as [L2 R2].
    assert (Forall (fun l => length l = n /\ Forall rep l)
      [small_mod f; mp_iNTT logn b igm p p0i; small_mod g; mp_iNTT logn a igm p p0i]) as HL by (repeat constructor; done).
    split; [exact HL|]. split; [exact HP|].
    apply (mp_equation primes.[0] first_prime logn ltac:(lia) gm0 (drop (5 * n) t) Hg0 Hi0); [exact HL|].
    intros i Hi. unfold igm.
    rewrite !(mp_NTT_iNTT primes.[0] first_prime logn ltac:(lia) gm0 (drop (5 * n) t) Hg0 Hi0) by done.
    unfold a, b. rewrite !get_sub by done. by apply HE. }
  clear HE. cbv beta delta [depth0_finish]. inline.
  step t1. assert (only (5 * n) (6 * n) t t1 /\ drop (5 * n) t1 = igm) as [O1 G1].
  { split; [apply (only_at_mono _ _ _ n); try lia; apply only_mp_fill; lia|].
    destruct (at_spec (5 * n) (fun gm => mp_mkigm logn gm (sp_ig primes.[0]) p p0i) t) as (_ & H2 & _); [lia|apply keeps_mkigm|exact H2]. }
  clearbody t1. pose proof (only_length _ _ _ _ O1) as L1.
  step t2. destruct (mp_iNTT_at logn 0 t1 (drop (5 * n) t1) p p0i ltac:(lia)) as [O2 S2]. fold t2 in O2, S2. clearbody t2.
  pose proof (only_length _ _ _ _ O2) as L2. rewrite G1, (only_sub _ _ 0 n _ _ O1) in S2 by lia. fold a in S2.
  rewrite (eq_sym (only_drop _ _ (5 * n) _ _ O2 ltac:(lia))) in G1.
  step t3. destruct (mp_iNTT_at logn n t2 (drop (5 * n) t2) p p0i ltac:(lia)) as [O3 S3]. fold t3 in O3, S3. clearbody t3.
  pose proof (only_length _ _ _ _ O3) as L3.
  rewrite G1, (only_sub _ _ n n _ _ O2), (only_sub _ _ n n _ _ O1) in S3 by lia. fold b in S3.
  rewrite <- (only_sub _ _ 0 n _ _ O3) in S2 by lia.
  step t4. destruct (poly_mp_norm_at 0 t3 ltac:(lia)) as [O4 V4]. fold t4 in O4, V4. clearbody t4.
  pose proof (only_length _ _ _ _ O4) as L4.
  destruct (poly_mp_norm_at n t4 ltac:(lia)) as [O5 V5]. set (t5 := at_ n _ t4) in *. clearbody t5.
  split; [rewrite (only_length _ _ _ _ O5); lia|]. intros i Hi. split.
  - rewrite (only_get _ _ _ _ _ O5), <- S2, get_sub by lia. by apply V4.
  - rewrite <- S3, get_sub, <- (only_get _ _ _ _ (n + i) O4) by lia. by apply V5.
Qed.

Lemma poly_big_to_small_ok d s d' :
  length d = n -> poly_big_to_small logn d s 127 = Ok d' ->
  length d' = n /\ forall i, (i < n)%nat -> d'.[i] = sign31 s.[i] /\ -127 <= d'.[i] <= 127.
Proof using.
  clear Lf Lg Hf Hg Hl. intros Ld. unfold poly_big_to_small.
  apply (try_ok (fun c d' => length d' = n /\ forall i, (i < c)%nat -> d'.[i] = sign31 s.[i] /\ -127 <= d'.[i] <= 127)).
  { split; [done|]. lia. }
  clear d'.
  intros i d1 d2 Hi [L1 H1]. cbv zeta. destruct (Z.ltb_spec (sign31 s.[i]) (Z.opp 127)); [done|].
  destruct (Z.ltb_spec 127 (sign31 s.[i])); [done|]. cbn [orb]. rewrite i8_small by lia. intros [= <-].
  split; [by rewrite length_set|]. intros j Hj. destruct (decide (j = i)) as [->|].
  - rewrite get_set_eq by lia. lia.
  - rewrite get_set_ne by lia. apply H1. lia.
Qed.

(** What is small and holds modulo p holds. *)
Lemma solution_exact F G F' G' :
  length F' = n -> length G' = n ->
  (forall i, (i < n)%nat -> -127 <= F'.[i] <= 127 /\ F'.[i] ==[p] F.[i]) ->
  (forall i, (i < n)%nat -> -127 <= G'.[i] <= 127 /\ G'.[i] ==[p] G.[i]) ->
  (forall k, (k < n)%nat ->
    nega_coeff n (get (small_mod f)) (get G) k - nega_coeff n (get (small_mod g)) (get F) k ==[p] if (k =? 0)%nat then q else 0) ->
  forall k, (k < n)%nat ->
    nega_coeff n (get f) (get G') k - nega_coeff n (get g) (get F') k = if (k =? 0)%nat then q else 0.
Proof using Hl Lf Lg Hf Hg.
  intros LF LG HF HG HE k Hk. specialize (HE k Hk).
  destruct (mset_rep f Hf Lf) as (_ & _ & Cf). destruct (mset_rep g Hg Lg) as (_ & _ & Cg).
  rewrite (nega_coeff_cong p n (get (small_mod f)) (get G) (get f) (get G')) in HE by (first [exact Hk|exact Cf|intros i Hi; symmetry; apply (HG i Hi)]).
  rewrite (nega_coeff_cong p n (get (small_mod g)) (get F) (get g) (get F')) in HE by (first [exact Hk|exact Cg|intros i Hi; symmetry; apply (HF i Hi)]).
  pose proof (nega_coeff_bound n (get f) (get G') 128 127 k ltac:(lia) ltac:(lia) Hk) as B1.
  pose proof (nega_coeff_bound n (get g) (get F') 128 127 k ltac:(lia) ltac:(lia) Hk) as B2.
  assert (n <= 2 ^ 10)%nat as Hn by (apply Nat.pow_le_mono_r; lia). change (2 ^ 10)%nat with 1024%nat in Hn.
  pose proof (p_range good) as Hp. cbv beta in *.
  assert (forall h i, Forall (fun x => -128 <= x < 128) h -> length h = n -> (i < n)%nat -> Z.abs h.[i] <= 128) as Hs.
  { intros h i Hh Lh Hi. pose proof (get_Forall _ h i Hh ltac:(lia)) as E. cbv beta in E. lia. }
  specialize (B1 ltac:(intros i Hi; split; [by apply Hs|]; destruct (HG i Hi); lia)).
  specialize (B2 ltac:(intros i Hi; split; [by apply Hs|]; destruct (HF i Hi); lia)).
  set (x := nega_coeff n (get f) (get G') k) in *. set (y := nega_coeff n (get g) (get F') k) in *. clearbody x y.
  apply cong_iff_divide in HE as [c Hc]. apply small_multiple in Hc; [destruct (k =? 0)%nat; lia|].
  unfold q in *. destruct (k =? 0)%nat; lia.
Qed.

(** The end of [solve_NTRU]: F and G out of the array, within their range. *)
Lemma solution_read F G F0 G0 t F' G' :
  Forall (fun l => length l = n /\ Forall rep l) [small_mod f; G; small_mod g; F] -> holds F G t ->
  (forall k, (k < n)%nat ->
    nega_coeff n (get (small_mod f)) (get G) k - nega_coeff n (get (small_mod g)) (get F) k ==[p] if (k =? 0)%nat then q else 0) ->
  length F0 = n -> length G0 = n ->
  poly_big_to_small logn F0 t 127 = Ok F' -> poly_big_to_small logn G0 (drop n t) 127 = Ok G' ->
  (length F' = n /\ Forall (fun x => -127 <= x <= 127) F') /\ (length G' = n /\ Forall (fun x => -127 <= x <= 127) G') /\
  forall k, (k < n)%nat ->
    nega_coeff n (get f) (get G') k - nega_coeff n (get g) (get F') k = if (k =? 0)%nat then q else 0.
Proof using Hl Lf Lg Hf Hg.
  intros HL HH HE L1 L2 HF HG. rewrite !Forall_cons in HL. destruct HL as (_ & [LG RG] & _ & [LF RF] & _).
  apply poly_big_to_small_ok in HF as [LF' HF]; [|done]. apply poly_big_to_small_ok in HG as [LG' HG]; [|done].
  pose proof (p_range good) as Hp.
  assert (forall l, length l = n -> Forall rep l -> forall i, (i < n)%nat ->
    sign31 (word31 (mp_norm l.[i] p)) = mp_norm l.[i] p /\ mp_norm l.[i] p ==[p] l.[i]) as Hw.
  { intros l Ll Rl i Hi. destruct (mp_norm_spec good l.[i]) as [Hn Hc]; [by apply (get_Forall rep); [|lia]|].
    split; [apply sign31_word31; lia|done]. }
  assert (forall i, (i < n)%nat -> -127 <= F'.[i] <= 127 /\ F'.[i] ==[p] F.[i]) as CF.
  { intros i Hi. destruct (HF i Hi) as [E B]. split; [done|]. rewrite E, (proj1 (HH i Hi)). destruct (Hw F LF RF i Hi) as [-> Hc]. done. }
  assert (forall i, (i < n)%nat -> -127 <= G'.[i] <= 127 /\ G'.[i] ==[p] G.[i]) as CG.
  { intros i Hi. destruct (HG i Hi) as [E B]. split; [done|]. rewrite E, get_drop, (proj2 (HH i Hi)). destruct (Hw G LG RG i Hi) as [-> Hc]. done. }
  split; [|split].
  - split; [done|]. apply Forall_get. rewrite LF'. intros i Hi. by apply CF.
  - split; [done|]. apply Forall_get. rewrite LG'. intros i Hi. by apply CG.
  - by apply (solution_exact F G).
Qed.
End TopLevel.

(** * The length of the array *)

Create HintDb len.
Create Rewrite HintDb len.
#[export] Hint Rewrite length_put @length_set : len.
#[export] Hint Rewrite length_at using (auto with mem) : len.

(** Closes [length (f t) = length t] for a chain of writes. *)
Ltac keep := repeat (progress (autorewrite with len) || (rewrite keeps_for; [|intros; cbv zeta])); try done.

Lemma rebuild_at_length o len xlen m k sg os t : length (rebuild_at o len xlen m k sg os t) = length t.
Proof. unfold rebuild_at. destruct (zint_rebuild_CRT _ _ _ _ _ _) as [x s]. keep. Qed.
#[export] Hint Rewrite rebuild_at_length : len.

Lemma make_fg_zero_length logn f g t : length (make_fg_zero logn f g t) = length t.
Proof. unfold make_fg_zero. keep. Qed.
#[export] Hint Rewrite make_fg_zero_length : len.

Lemma make_fg_step_length logn depth t : length (make_fg_step logn depth t) = length t.
Proof. unfold make_fg_step. keep. Qed.
#[export] Hint Rewrite make_fg_step_length : len.

Lemma make_fg_intermediate_length logn f g depth t : length (make_fg_intermediate logn f g depth t) = length t.
Proof. unfold make_fg_intermediate. keep. Qed.
#[export] Hint Rewrite make_fg_intermediate_length : len.

Lemma make_fg_intermediate_keeps logn f g depth : keeps (make_fg_intermediate logn f g depth).
Proof. intros t. apply make_fg_intermediate_length. Qed.
#[export] Hint Resolve make_fg_intermediate_keeps : mem.

(** The array of a result, whatever the verdict. *)
Definition arr (r : result (list Z) (list Z)) : list Z := match r with Ok t | Err t => t end.

Lemma make_fg_deepest_length logn f g t so : length (arr (make_fg_deepest logn f g t so)) = length t.
Proof.
  unfold make_fg_deepest. cbv zeta. case_match; [cbn [arr]; by keep|].
  match goal with |- context [for_ logn ?b ?s] => pose proof (for_ind (fun _ (st : list Z * nat) => length (fst st) = length t) logn b s) as HI end.
  feed_loop HI; [cbn [fst]; keep| |].
  - intros d [s o] _ Hs. cbn [fst] in *. case_match; cbn [fst]; by keep.
  - destruct (for_ logn _ _) as [s o]. done.
Qed.

Lemma solve_NTRU_deepest_length logn f g t : length (arr (solve_NTRU_deepest logn f g t)) = length t.
Proof.
  unfold solve_NTRU_deepest. pose proof (make_fg_deepest_length logn f g t (6 * 2 ^ logn)) as E.
  destruct (make_fg_deepest _ _ _ _ _) as [s|s]; cbn [arr] in E; [|done].
  cbv zeta. destruct (zint_bezout _ _ _ _ _ _) as [[[ok Gp] Fp] t1]. destruct (negb ok); [cbn [arr]; by keep|].
  destruct (zint_mul_small (sub_ 0 _ _) _ _) as [F1 cf]. destruct (negb (cf =? 0)); [cbn [arr]; by keep|].
  destruct (zint_mul_small (sub_ _ _ _) _ _) as [G1 cg]. destruct (negb (cg =? 0)); cbn [arr]; by keep.
Qed.

Lemma load_level_length logn f g depth lv t : length (load_level logn f g depth lv t) = length t.
Proof. unfold load_level. cbv zeta. case_match; keep. Qed.
Lemma lower_to_rns_length lv t : length (lower_to_rns lv t) = length t.
Proof. unfold lower_to_rns. keep. Qed.
#[export] Hint Rewrite load_level_length lower_to_rns_length : len.

Lemma cross_products_length hn oF oG ofx ogx p p0i r2 t : length (cross_products hn oF oG ofx ogx p p0i r2 t) = length t.
Proof. unfold cross_products. keep. Qed.
#[export] Hint Rewrite cross_products_length : len.

Lemma unreduced_length lv t : length (unreduced lv t) = length t.
Proof.
  unfold unreduced. cbv zeta. keep. destruct (_ =? _)%nat; keep; intros; rewrite mp_mkgmigm_eq; keep; repeat case_match; keep.
Qed.
#[export] Hint Rewrite unreduced_length : len.

Lemma fg_to_ntt_length lv os o2 t : length (fg_to_ntt lv os o2 t) = length t.
Proof. unfold fg_to_ntt. keep. Qed.
#[export] Hint Rewrite fg_to_ntt_length : len.

Lemma reduce_turn_length logn depth lv rl f g rt3 rt4 fx sx sFG sfg FGlen t :
  length (reduce_turn logn depth lv rl f g rt3 rt4 fx sx sFG sfg FGlen t) = length t.
Proof.
  unfold reduce_turn. destruct (divrem31 sFG) as [sch toff]. cbv zeta. destruct (depth =? 1)%nat.
  - destruct (poly_sub_kfg_scaled_depth1 _ _ _ _ _ _ _ _ _) as [[[FF GG] k] t2]. keep.
  - destruct (use_sub_ntt depth lv); [|keep].
    destruct (poly_sub_scaled_ntt _ _ _ _ _ _ _ _) as [FF t2]. destruct (poly_sub_scaled_ntt _ _ _ _ _ _ _ _) as [GG t3]. keep.
Qed.

Lemma reduce_loop_length fuel turn logn slen sfg sFG FGlen t t' :
  (forall s l t, length (turn s l t) = length t) ->
  reduce_loop fuel turn logn slen sfg sFG FGlen t = Some t' -> length t' = length t.
Proof.
  intros Ht. revert sFG FGlen t. induction fuel as [|fuel IH]; intros sFG FGlen t; [done|]. cbn [reduce_loop].
  destruct (sFG <=? sfg); [intros [= <-]; apply Ht|]. destruct (next_scale _ _ _ _ _) as [s l].
  intros H. apply IH in H. by rewrite H.
Qed.

Lemma try_length m (body : nat -> list Z -> result (list Z) (list Z)) t :
  (forall i s, length (arr (body i s)) = length s) -> length (arr (try_ m body t)) = length t.
Proof.
  intros Hb. pose proof (try_spec (fun _ s => length s = length t) (fun s => length s = length t) m body t) as H.
  feed_loop H; [done| |by destruct (try_ m body t)].
  intros i s _ Hs. specialize (Hb i s). destruct (body i s); cbn [arr] in Hb; congruence.
Qed.

Lemma check_solution_length depth lv rl t : length (arr (check_solution depth lv rl t)) = length t.
Proof.
  unfold check_solution, to_ntt_at. cbv zeta.
  destruct (use_sub_ntt depth lv); rewrite try_length by (intros i s; by case_match); by keep.
Qed.

Lemma solve_NTRU_intermediate_length fuel logn f g depth t fx t' :
  solve_NTRU_intermediate fuel logn f g depth t fx = Some t' -> length (arr t') = length t.
Proof.
  set (P := fun r : option (result (list Z) (list Z)) => r = Some t' -> length (arr t') = length t).
  change (P (solve_NTRU_intermediate fuel logn f g depth t fx)).
  cbv beta delta [solve_NTRU_intermediate]. generalize (level_at logn depth). inline. intros lv. inline.
  step t1. step t2. step t3. inline. step t4.
  assert (length t4 = length t) as L4 by (unfold t4; destruct (use_sub_ntt _ _); subst t1 t2 t3; keep). clearbody t4. clear t1 t2 t3.
  destruct (approx_fg lv depth (layout depth lv) t4 fx) as [[rt3 rt4] sx]. inline.
  step t5. assert (length t5 = length t) as L5 by (unfold t5; destruct (use_sub_ntt _ _); keep). clearbody t5. inline.
  match goal with |- context [reduce_loop _ ?tn _ _ ?a ?b _ _] =>
    assert (forall s l t, length (tn s l t) = length t) as Ht by (intros; apply reduce_turn_length);
    revert Ht; generalize tn; generalize a b end.
  intros sfg sFG turn Ht.
  destruct (reduce_loop fuel turn logn (lv_slen lv) sfg sFG (lv_llen lv) t5) as [s|] eqn:E; [|done].
  pose proof (reduce_loop_length _ _ _ _ _ _ _ _ _ Ht E) as Ls. clear E.
  cbv zeta. destruct (depth =? 1)%nat; intros H; injection H as H.
  - rewrite <- H. cbn [arr]. keep. lia.
  - rewrite <- H, check_solution_length. keep. lia.
Qed.

Lemma solve_levels_length fuel logn f g depth t fx t' :
  solve_levels fuel logn f g depth t fx = Some t' -> length (arr t') = length t.
Proof.
  revert t. induction depth as [|d IH]; intros t; cbn [solve_levels]; [by intros [= <-]|].
  destruct (solve_NTRU_intermediate _ _ _ _ _ _ _) as [[s|s]|] eqn:E; try done;
    apply solve_NTRU_intermediate_length in E; [|by intros [= <-]].
  intros H. apply IH in H. by rewrite H.
Qed.

Lemma depth0_build_length logn f g t : length (depth0_build logn f g t) = length t.
Proof. unfold depth0_build. keep. Qed.
Lemma adj_products_length logn f o op t : length (adj_products logn f o op t) = length t.
Proof. unfold adj_products. keep. Qed.
#[export] Hint Rewrite adj_products_length : len.
Lemma depth0_norms_length logn f g t : length (depth0_norms logn f g t) = length t.
Proof. unfold depth0_norms. keep. Qed.
Lemma depth0_round_length logn t fx : length (depth0_round logn t fx) = length t.
Proof. unfold depth0_round. keep. Qed.
Lemma depth0_finish_length logn t : length (depth0_finish logn t) = length t.
Proof. unfold depth0_finish. keep. Qed.
Lemma depth0_check_length logn f g t : length (arr (depth0_check logn f g t)) = length t.
Proof. unfold depth0_check. cbv zeta. rewrite try_length by (intros i s; case_match; cbn [arr]; by keep). keep. Qed.

Lemma solve_NTRU_depth0_length logn f g t fx : length (arr (solve_NTRU_depth0 logn f g t fx)) = length t.
Proof.
  unfold solve_NTRU_depth0. cbv zeta.
  pose proof (depth0_check_length logn f g (depth0_round logn (depth0_norms logn f g (depth0_build logn f g t)) fx)) as H.
  rewrite depth0_round_length, depth0_norms_length, depth0_build_length in H.
  destruct (depth0_check _ _ _ _); cbn [arr] in *; [by rewrite depth0_finish_length|done].
Qed.

(** * The reduction ends *)

Lemma reduce_bits_range logn : 11 <= reduce_bits logn <= 16.
Proof. unfold reduce_bits. do 11 (destruct logn as [|logn]; [lia|]). lia. Qed.

(** A turn more costs at least one bit of scale. *)
Lemma reduce_loop_total fuel turn logn slen sfg sFG FGlen t :
  0 <= sfg < 2 ^ 31 -> 0 <= sFG < 2 ^ 31 -> (Z.to_nat (sFG - sfg) < fuel)%nat ->
  is_Some (reduce_loop fuel turn logn slen sfg sFG FGlen t).
Proof.
  intros Hfg. pose proof (reduce_bits_range logn) as Hb. revert sFG FGlen t.
  induction fuel as [|fuel IH]; intros sFG FGlen t HFG Hf; [lia|]. cbn [reduce_loop].
  destruct (Z.leb_spec sFG sfg); [done|]. unfold next_scale. rewrite (u32_small (sfg + _)) by lia.
  destruct (Z.leb_spec sFG (sfg + reduce_bits logn)).
  - apply IH; lia.
  - rewrite (u32_small (sFG - reduce_bits logn)) by lia. apply IH; lia.
Qed.

Lemma max_bl_large_range depth : (max_bl_large.[depth] <= 308)%nat.
Proof. do 11 (destruct depth as [|depth]; [cbv; lia|]). cbv. lia. Qed.
Lemma max_bl_small_range depth : (max_bl_small.[depth] <= 207)%nat.
Proof. do 12 (destruct depth as [|depth]; [cbv; lia|]). cbv. lia. Qed.

Lemma scale_range k : (k <= 308)%nat -> u32 (Z.of_nat k) *% 31 = 31 * Z.of_nat k.
Proof. intros Hk. rewrite (u32_small (Z.of_nat k)), u32_small by lia. lia. Qed.

Lemma solve_NTRU_intermediate_total fuel logn f g depth t fx :
  (31 * 308 < fuel)%nat -> is_Some (solve_NTRU_intermediate fuel logn f g depth t fx).
Proof.
  intros Hf. unfold is_Some. set (P := fun r : option (result (list Z) (list Z)) => exists x, r = Some x).
  change (P (solve_NTRU_intermediate fuel logn f g depth t fx)).
  cbv beta delta [solve_NTRU_intermediate].
  set (lv := level_at logn depth).
  assert (lv_llen lv <= 308)%nat as HL by apply max_bl_large_range.
  assert (lv_slen lv <= 207)%nat as HS by apply max_bl_small_range.
  clearbody lv. inline.
  step t1. step t2. step t3. inline. step t4. clearbody t4. clear t1 t2 t3.
  destruct (approx_fg lv depth (layout depth lv) t4 fx) as [[rt3 rt4] sx]. inline.
  step t5. clearbody t5. inline. rewrite !scale_range by lia.
  match goal with |- context [reduce_loop _ ?tn _ _ ?a ?b ?c ?d] =>
    destruct (reduce_loop_total fuel tn logn (lv_slen lv) a b c d ltac:(lia) ltac:(lia) ltac:(lia)) as [s ->] end.
  cbv zeta. destruct (depth =? 1)%nat; by eexists.
Qed.

Lemma solve_levels_total fuel logn f g depth t fx :
  (31 * 308 < fuel)%nat -> is_Some (solve_levels fuel logn f g depth t fx).
Proof.
  intros Hf. revert t. induction depth as [|d IH]; intros t; cbn [solve_levels]; [done|].
  destruct (solve_NTRU_intermediate_total fuel logn f g (S d) t fx Hf) as [[s|] ->]; [apply IH|done].
Qed.

(** What the solver's answer means: F and G fit in a byte, and f G - g F = q modulo
    X^n + 1, over the integers. *)
Definition ntru_solution (logn : nat) (f g F G : list Z) : Prop :=
  (length F = (2 ^ logn)%nat /\ Forall (fun x => -127 <= x <= 127) F) /\
  (length G = (2 ^ logn)%nat /\ Forall (fun x => -127 <= x <= 127) G) /\
  forall k, (k < 2 ^ logn)%nat ->
    nega_coeff (2 ^ logn) (get f) (get G) k - nega_coeff (2 ^ logn) (get g) (get F) k = if (k =? 0)%nat then q else 0.

Lemma solve_NTRU_spec fuel logn f g F0 G0 tmp fx F G tmp' :
  (1 <= logn <= 10)%nat -> length tmp = (6 * 2 ^ logn)%nat ->
  length f = (2 ^ logn)%nat -> length g = (2 ^ logn)%nat ->
  Forall (fun x => -128 <= x < 128) f -> Forall (fun x => -128 <= x < 128) g ->
  length F0 = (2 ^ logn)%nat -> length G0 = (2 ^ logn)%nat ->
  solve_NTRU fuel logn f g F0 G0 tmp fx = Some (true, F, G, tmp') -> ntru_solution logn f g F G.
Proof.
  intros Hl L0 Lf Lg Hf Hg LF0 LG0. unfold solve_NTRU.
  pose proof (solve_NTRU_deepest_length logn f g tmp) as E1.
  destruct (solve_NTRU_deepest logn f g tmp) as [t1|]; [|done]. cbn [arr] in E1.
  destruct (solve_levels fuel logn f g (logn - 1) t1 fx) as [[t2|]|] eqn:E2; [|done..]. apply solve_levels_length in E2. cbn [arr] in E2.
  unfold solve_NTRU_depth0.
  pose proof (depth0_build_ok logn Hl f g Lf Lg Hf Hg t2 ltac:(lia)) as H3. set (t3 := depth0_build logn f g t2) in *. clearbody t3.
  pose proof (depth0_norms_only logn Hl f g t3 (proj1 H3)) as O4. set (t4 := depth0_norms logn f g t3) in *. clearbody t4.
  pose proof (only_length _ _ _ _ O4) as L4.
  destruct (depth0_round_ok logn t4 fx) as [O5 W5]; [rewrite L4; apply H3|]. set (t5 := depth0_round logn t4 fx) in *. clearbody t5.
  assert (FG_ok logn t5) as H5.
  { split; [rewrite (only_length _ _ _ _ O5), L4; apply H3|].
    eapply region_only; [exact O5|lia|]. eapply region_only; [exact O4|lia|]. apply H3. }
  destruct (depth0_check logn f g t5) as [t6|] eqn:E6; [|done].
  destruct (depth0_finish_ok logn Hl f g Lf Lg Hf Hg t6) as (L7 & Fh & Gh & HL & HH & HE).
  { by apply (depth0_check_ok logn Hl f g Lf Lg Hf Hg t5). }
  destruct (poly_big_to_small logn F0 _ 127) as [F'|] eqn:EF; [|done].
  destruct (poly_big_to_small logn G0 _ 127) as [G'|] eqn:EG; [|done]. intros [= <- <- _].
  exact (solution_read logn Hl f g Lf Lg Hf Hg Fh Gh F0 G0 _ F' G' HL HH HE LF0 LG0 EF EG).
Qed.

Lemma solve_NTRU_total fuel logn f g F0 G0 tmp fx :
  (31 * 308 < fuel)%nat -> is_Some (solve_NTRU fuel logn f g F0 G0 tmp fx).
Proof.
  intros Hf. unfold solve_NTRU. destruct (solve_NTRU_deepest _ _ _ _) as [t1|]; [|done].
  destruct (solve_levels_total fuel logn f g (logn - 1) t1 fx Hf) as [[t2|] ->]; [|done].
  destruct (solve_NTRU_depth0 _ _ _ _ _) as [t3|]; [|done]. by repeat case_match.
Qed.

(** Found or not, the arrays keep their lengths. *)
Lemma poly_big_to_small_length logn d s lim : length (arr (poly_big_to_small logn d s lim)) = length d.
Proof. apply try_length. intros i d1. cbv zeta. destruct (_ || _); [done|]. apply length_set. Qed.

Lemma solve_NTRU_lengths fuel logn f g F0 G0 tmp fx ok F G tmp' :
  solve_NTRU fuel logn f g F0 G0 tmp fx = Some (ok, F, G, tmp') ->
  length tmp' = length tmp /\ length F = length F0 /\ length G = length G0.
Proof.
  unfold solve_NTRU. pose proof (solve_NTRU_deepest_length logn f g tmp) as E1.
  destruct (solve_NTRU_deepest logn f g tmp) as [t1|t1]; cbn [arr] in E1; [|by intros [= <- <- <- <-]].
  destruct (solve_levels fuel logn f g (logn - 1) t1 fx) as [[t2|t2]|] eqn:E2; [| |done];
    apply solve_levels_length in E2; cbn [arr] in E2; [|intros [= <- <- <- <-]; split; [congruence|done]].
  pose proof (solve_NTRU_depth0_length logn f g t2 fx) as E3.
  destruct (solve_NTRU_depth0 logn f g t2 fx) as [t3|t3]; cbn [arr] in E3; [|intros [= <- <- <- <-]; split; [congruence|done]].
  pose proof (poly_big_to_small_length logn F0 t3 127) as E4.
  destruct (poly_big_to_small logn F0 t3 127) as [F'|F']; cbn [arr] in E4; [|intros [= <- <- <- <-]; split; [congruence|done]].
  pose proof (poly_big_to_small_length logn G0 (drop (2 ^ logn) t3) 127) as E5.
  destruct (poly_big_to_small logn G0 _ 127) as [G'|G']; cbn [arr] in E5; intros [= <- <- <- <-]; (split; [congruence|done]).
Qed.
