(* ===== verification/FxrFacts.v ===== *)
(** The fixed-point operations compute on signed numbers of 1/2^32ths: what
    [Fxr] does with unsigned words is floor, rounding and division of the numbers
    the words stand for. *)
From Stdlib Require Import ZArith Lia.
From stdpp Require Import base numbers list.
From S2P Require Import Prelude Mq FxrTable Fxr Kpoly.
Local Open Scope Z_scope.

Definition is_word64 (x : Z) : Prop := 0 <= x < 2 ^ 64.

(** A word and its number differ by 2^64 when the top bit is set. *)
Lemma word64_value x : is_word64 x ->
  x = i64 x + 2 ^ 64 * (if 2 ^ 63 <=? x then 1 else 0) /\ - 2 ^ 63 <= i64 x < 2 ^ 63 /\
  u64 (i64 x .>> 63) = (if 2 ^ 63 <=? x then Z.ones 64 else 0).
Proof.
  unfold is_word64. intros Hx. destruct (Z.leb_spec (2 ^ 63) x).
  - assert (i64 x = x - 2 ^ 64) as ->.
    { unfold i64. rewrite u64_mod. replace ((x + 9223372036854775808) mod 2 ^ 64) with (x - 2 ^ 63); [lia|].
      apply (Z.mod_unique_pos _ _ 1); lia. }
    split; [lia|]. split; [lia|]. rewrite shr_div by lia. replace ((x - 2 ^ 64) / 2 ^ 63) with (-1); [done|].
    apply (Z.div_unique_pos _ _ _ (x - 2 ^ 63)); lia.
  - rewrite (i64_small x) by lia. split; [lia|]. split; [lia|]. rewrite shr_div, Z.div_small by lia. done.
Qed.

Lemma land_mask64 x (b : bool) : is_word64 x -> x .& (if b then Z.ones 64 else 0) = if b then x else 0.
Proof. intros Hx. destruct b; [apply land_ones_small; [lia|exact Hx]|apply Z.land_0_r]. Qed.

Lemma shifted_words hi lo : is_word64 lo ->
  u64 (u64 hi .<< 32) .| (lo .>> 32) = u64 ((hi * 2 ^ 64 + lo) / 2 ^ 32).
Proof.
  unfold is_word64. intros Hlo. rewrite shl_mul, shr_div by lia. rewrite !u64_mod.
  assert ((hi mod 2 ^ 64 * 2 ^ 32) mod 2 ^ 64 = hi mod 2 ^ 32 * 2 ^ 32) as ->.
  { change (2 ^ 64) with (2 ^ 32 * 2 ^ 32) at 2. rewrite Z.mul_mod_distr_r by lia. f_equal.
    change (2 ^ 64) with (2 ^ 32 * 2 ^ 32). apply Z.mod_mod_divide. by exists (2 ^ 32). }
  assert (0 <= lo / 2 ^ 32 < 2 ^ 32) as Hd by (split; [apply Z.div_pos; lia|apply Z.div_lt_upper_bound; lia]).
  rewrite lor_shifted by lia.
  assert ((hi * 2 ^ 64 + lo) / 2 ^ 32 = hi * 2 ^ 32 + lo / 2 ^ 32) as ->.
  { replace (hi * 2 ^ 64 + lo) with (lo + hi * 2 ^ 32 * 2 ^ 32) by lia. rewrite Z.div_add by lia. lia. }
  pose proof (Z.div_mod hi (2 ^ 32) ltac:(lia)) as E. pose proof (Z.mod_pos_bound hi (2 ^ 32) ltac:(lia)).
  apply (Z.mod_unique_pos _ _ (hi / 2 ^ 32)); [lia|]. lia.
Qed.

Lemma fxr_mul_spec x y : is_word64 x -> is_word64 y -> fxr_mul x y = u64 (i64 x * i64 y / 2 ^ 32).
Proof.
  intros Hx Hy. unfold fxr_mul, Mul64. destruct (word64_value x Hx) as (Ex & _ & ->). destruct (word64_value y Hy) as (Ey & _ & ->).
  rewrite !land_mask64 by done. rewrite shr_div by lia.
  rewrite shifted_words by apply u64_range. rewrite !u64_mod.
  set (X := i64 x) in *. set (Y := i64 y) in *.
  set (bx := (2 ^ 63 <=? x)) in *. set (by_ := (2 ^ 63 <=? y)) in *. clearbody X Y bx by_.
  pose proof (Z.div_mod (x * y) (2 ^ 64) ltac:(lia)) as Ed.
  replace (if by_ then x else 0) with (x * (if by_ then 1 else 0)) by (destruct by_; lia).
  replace (if bx then y else 0) with (y * (if bx then 1 else 0)) by (destruct bx; lia).
  set (B := if bx then 1 else 0) in *. set (C := if by_ then 1 else 0) in *. clearbody B C.
  set (d := x * y / 2 ^ 64) in *. set (m := (x * y) mod 2 ^ 64) in *. clearbody d m.
  pose proof (Z.div_mod (x * C + y * B) (2 ^ 64) ltac:(lia)) as Es.
  set (s := (x * C + y * B) mod 2 ^ 64) in *. set (t := (x * C + y * B) / 2 ^ 64) in *. clearbody s t.
  replace ((d - s) * 2 ^ 64 + m) with (X * Y + (t - B * C) * 2 ^ 96 * 2 ^ 32).
  - rewrite Z.div_add by lia. change (2 ^ 96) with (2 ^ 32 * 2 ^ 64). rewrite Z.mul_assoc. apply Z.mod_add. lia.
  - assert (m = x * y - 2 ^ 64 * d) as -> by lia. assert (s = x * C + y * B - 2 ^ 64 * t) as -> by lia.
    rewrite Ex, Ey. ring.
Qed.

(** [(x ^ -s) + s] for a sign bit [s]. *)
Lemma cond_neg64 x (b : bool) : is_word64 x ->
  u64 ((x .^ u64 (- (if b then 1 else 0))) + (if b then 1 else 0)) = u64 (if b then - x else x).
Proof.
  intros Hx. destruct b.
  - change (u64 (- (1))) with (Z.ones 64). rewrite lxor_ones64 by done. rewrite !u64_mod.
    rewrite <- (Z.mod_add (- x) 1 (2 ^ 64)) by lia. f_equal. rewrite Z.ones_equiv. lia.
  - change (u64 (- 0)) with 0. by rewrite Z.lxor_0_r, Z.add_0_r.
Qed.

Lemma sign_bit x : is_word64 x -> x .>> 63 = if i64 x <? 0 then 1 else 0.
Proof.
  unfold is_word64. intros Hx. destruct (word64_value x Hx) as (E & Hi & _). rewrite shr_div by lia.
  revert E. destruct (Z.leb_spec (2 ^ 63) x); intros E; destruct (Z.ltb_spec (i64 x) 0); try lia.
  - symmetry. apply (Z.div_unique_pos _ _ _ (x - 2 ^ 63)); lia.
  - apply Z.div_small. lia.
Qed.

Lemma magnitude x : is_word64 x -> u64 (if i64 x <? 0 then - x else x) = Z.abs (i64 x).
Proof.
  unfold is_word64. intros Hx. destruct (word64_value x Hx) as (E & Hi & _).
  revert E. destruct (Z.leb_spec (2 ^ 63) x); intros E; destruct (Z.ltb_spec (i64 x) 0); try lia.
  - rewrite u64_mod. symmetry. apply (Z.mod_unique_pos _ _ (-1)); lia.
  - rewrite u64_small by lia. lia.
Qed.

Lemma fxr_sqr_spec x : is_word64 x -> fxr_sqr x = fxr_mul x x.
Proof.
  intros Hx. rewrite fxr_mul_spec by done. unfold fxr_sqr.
  assert (fxr_abs x = Z.abs (i64 x)) as ->.
  { rewrite <- magnitude by done. unfold fxr_abs. destruct (word64_value x Hx) as (E & Hi & ->).
    revert E. destruct (Z.leb_spec (2 ^ 63) x); intros E; destruct (Z.ltb_spec (i64 x) 0); try (unfold is_word64 in Hx; lia).
    - rewrite lxor_ones64 by done. f_equal. lia.
    - by rewrite Z.lxor_0_r, Z.sub_0_r. }
  unfold Mul64. destruct (word64_value x Hx) as (_ & Hi & _). rewrite shr_div by lia.
  set (X := i64 x) in *. clearbody X.
  assert (Z.abs X * Z.abs X = X * X) as -> by (rewrite <- Z.abs_mul, Z.abs_eq; [done|apply Z.square_nonneg]).
  assert (0 <= X * X / 2 ^ 64 < 2 ^ 64) as Hd by (split; [apply Z.div_pos; nia|apply Z.div_lt_upper_bound; nia]).
  rewrite <- (u64_small (X * X / 2 ^ 64)) at 1 by lia. rewrite shifted_words by apply u64_range.
  f_equal. f_equal. rewrite u64_mod. pose proof (Z.div_mod (X * X) (2 ^ 64) ltac:(lia)). lia.
Qed.

(** Rounding to the nearest integer, ties upwards. *)
Lemma fxr_round_spec x : is_word64 x -> fxr_round x = i32 ((i64 x + 2 ^ 31) / 2 ^ 32).
Proof.
  intros Hx. destruct (word64_value x Hx) as (E & _ & _). unfold fxr_round. cbv zeta. rewrite shr_div by lia.
  unfold i32. f_equal. rewrite u64_mod, !u32_mod.
  set (X := i64 x) in *. set (B := if 2 ^ 63 <=? x then 1 else 0) in *. clearbody X B.
  pose proof (Z.div_mod (x + 2147483648) (2 ^ 64) ltac:(lia)) as Ed.
  set (m := (x + 2147483648) mod 2 ^ 64) in *. set (d := (x + 2147483648) / 2 ^ 64) in *. clearbody m d.
  assert (m = X + 2 ^ 31 + (B - d) * 2 ^ 32 * 2 ^ 32) as -> by lia. rewrite Z.div_add by lia.
  replace ((X + 2 ^ 31) / 2 ^ 32 + (B - d) * 2 ^ 32 + 2147483648) with ((X + 2 ^ 31) / 2 ^ 32 + 2147483648 + (B - d) * 2 ^ 32) by lia.
  by rewrite Z.mod_add by lia.
Qed.

(** ** Division *)

Section Div.
Context (x y : Z) (Hx : 0 <= x < 2 ^ 63) (Hy : 0 < y < 2 ^ 63) (Hxy : x < 2 ^ 32 * y).

(** The part of the dividend seen after [k] bits. *)
Definition dividend (k : nat) : Z :=
  if (k <=? 31)%nat then x / 2 ^ (31 - Z.of_nat k) else x * 2 ^ (Z.of_nat k - 31).

Lemma dividend_0 : dividend 0 = x .>> 31.
Proof using. rewrite shr_div by lia. done. Qed.

(** What the step feeds in. *)
Lemma dividend_S k : (k < 64)%nat ->
  dividend (S k) = 2 * dividend k + (if (33 <=? 63 - k)%nat then (x .>> (Z.of_nat (63 - k) - 33)) .& 1 else 0).
Proof using.
  clear Hx Hy Hxy. intros Hk. unfold dividend. destruct (Nat.leb_spec k 31); destruct (Nat.leb_spec (S k) 31); destruct (Nat.leb_spec 33 (63 - k)); try lia.
  - replace (Z.of_nat (63 - k) - 33) with (31 - Z.of_nat (S k)) by lia. rewrite shr_div by lia.
    set (j := 31 - Z.of_nat (S k)). replace (31 - Z.of_nat k) with (j + 1) by lia.
    rewrite Z.pow_add_r, <- Z.div_div by lia. change (2 ^ 1) with 2. rewrite land_1.
    pose proof (Z.div_mod (x / 2 ^ j) 2 ltac:(lia)). lia.
  - replace k with 31%nat by lia. change (31 - Z.of_nat 31) with 0. change (Z.of_nat 32 - 31) with 1. rewrite Z.div_1_r. lia.
  - replace (Z.of_nat (S k) - 31) with (Z.of_nat k - 31 + 1) by lia. rewrite Z.pow_add_r by lia. lia.
Qed.

(** The remainder is the dividend minus twice the quotient so far times y. *)
Definition div_inv (k : nat) (st : Z * Z) : Prop :=
  exists Q, fst st = Q * 2 ^ (64 - Z.of_nat k) /\ snd st = dividend k - 2 * y * Q /\ 0 <= snd st < 2 * y.

Lemma compare_bit num : 0 <= num < 2 * y -> u64 (1 - (u64 (num - y) .>> 63)) = if y <=? num then 1 else 0.
Proof using Hy.
  clear Hx Hxy. intros Hn. rewrite shr_div by lia. destruct (Z.leb_spec y num).
  - rewrite (u64_small (num - y)), Z.div_small by lia. done.
  - rewrite (u64_mod (num - y)). replace ((num - y) mod 2 ^ 64) with (num - y + 2 ^ 64) by (apply (Z.mod_unique_pos _ _ (-1)); lia).
    replace ((num - y + 2 ^ 64) / 2 ^ 63) with 1; [done|]. apply (Z.div_unique_pos _ _ _ (num - y + 2 ^ 63)); lia.
Qed.

Lemma fxr_div_step_inv k st : (k < 64)%nat -> div_inv k st -> div_inv (S k) (fxr_div_bit x y (63 - k) st).
Proof using Hy.
  clear Hx Hxy. intros Hk. destruct st as [q0 num]. intros (Q & Hq & Hn & Hr). cbn [fst snd] in *.
  unfold fxr_div_bit. rewrite compare_bit by done. cbv zeta.
  set (b := if y <=? num then 1 else 0).
  assert (0 <= b <= 1 /\ 0 <= num - y * b < y) as [Hb Hs] by (unfold b; destruct (Z.leb_spec y num); lia).
  assert (u64 (num - (y .& u64 (- b))) = num - y * b) as ->.
  { unfold b in *. destruct (y <=? num).
    - change (u64 (- (1))) with (Z.ones 64). rewrite land_ones_small, u64_small by lia. lia.
    - change (u64 (- 0)) with 0. rewrite Z.land_0_r, u64_small by lia. lia. }
  rewrite (shl_mul (num - _)) by lia. rewrite (u64_small ((num - y * b) * 2 ^ 1)) by lia.
  set (bit := if (33 <=? 63 - k)%nat then (x .>> (Z.of_nat (63 - k) - 33)) .& 1 else 0).
  assert (0 <= bit <= 1) as Hbit.
  { unfold bit. destruct (33 <=? 63 - k)%nat; [|lia]. rewrite land_1.
    pose proof (Z.mod_pos_bound (x .>> (Z.of_nat (63 - k) - 33)) 2 ltac:(lia)). lia. }
  exists (2 * Q + b). cbn [fst snd]. split; [|].
  - rewrite shl_mul by lia. replace (Z.of_nat (63 - k)) with (63 - Z.of_nat k) by lia.
    assert (2 ^ (63 - Z.of_nat k) <= 2 ^ 63) by (apply Z.pow_le_mono_r; lia).
    assert (0 < 2 ^ (63 - Z.of_nat k)) by (apply Z.pow_pos_nonneg; lia).
    rewrite u64_small by nia. rewrite Hq.
    replace (64 - Z.of_nat k) with (63 - Z.of_nat k + 1) by lia. replace (64 - Z.of_nat (S k)) with (63 - Z.of_nat k) by lia.
    rewrite Z.pow_add_r by lia. set (w := 2 ^ (63 - Z.of_nat k)) in *.
    replace (Q * (w * 2 ^ 1)) with (Q * 2 ^ (63 - Z.of_nat k + 1)) by (rewrite Z.pow_add_r by lia; done).
    assert (2 ^ (63 - Z.of_nat k + 1) = 2 * w) as E by (rewrite Z.pow_add_r by lia; fold w; lia).
    rewrite lor_shifted; [|lia|rewrite E; nia]. rewrite E. ring.
  - assert ((if (33 <=? 63 - k)%nat then (num - y * b) * 2 ^ 1 .| ((x .>> (Z.of_nat (63 - k) - 33)) .& 1) else (num - y * b) * 2 ^ 1) =
      2 * (num - y * b) + bit) as ->.
    { unfold bit in *. destruct (33 <=? 63 - k)%nat; [|lia]. rewrite lor_shifted by lia. lia. }
    rewrite dividend_S by done. fold bit. split; [lia|lia].
Qed.

Lemma fxr_div_positive :
  exists q0 num, for_ 64 (fun k => fxr_div_bit x y (63 - k)) (0, x .>> 31) = (q0, num) /\
    u64 (q0 + u64 (1 - (u64 (num - y) .>> 63))) = u64 ((2 * x * 2 ^ 32 + y) / (2 * y)).
Proof using Hx Hy Hxy.
  pose proof (for_ind div_inv 64 (fun k => fxr_div_bit x y (63 - k)) (0, x .>> 31)) as HI.
  feed_loop HI; [|intros k st Hk; by apply fxr_div_step_inv|].
  - exists 0. cbn [fst snd]. rewrite <- dividend_0. split; [done|]. split; [lia|].
    unfold dividend. cbn [Nat.leb]. change (31 - Z.of_nat 0) with 31. split; [apply Z.div_pos; lia|]. apply Z.div_lt_upper_bound; lia.
  - destruct (for_ 64 _ _) as [q0 num]. exists q0, num. split; [done|]. destruct HI as (Q & Hq & Hn & Hr). cbn [fst snd] in *.
    change (64 - Z.of_nat 64) with 0 in Hq. rewrite compare_bit by done. f_equal.
    unfold dividend in Hn. cbn [Nat.leb] in Hn. change (Z.of_nat 64 - 31) with 33 in Hn.
    destruct (Z.leb_spec y num); [apply (Z.div_unique_pos _ _ _ (num - y))|apply (Z.div_unique_pos _ _ _ (num + y))]; lia.
Qed.
End Div.

Lemma fxr_div_spec x y :
  is_word64 x -> is_word64 y -> - 2 ^ 63 < i64 x -> - 2 ^ 63 < i64 y -> i64 y <> 0 -> Z.abs (i64 x) < 2 ^ 32 * Z.abs (i64 y) ->
  fxr_div x y = u64 (Z.sgn (i64 x) * Z.sgn (i64 y) * ((2 * Z.abs (i64 x) * 2 ^ 32 + Z.abs (i64 y)) / (2 * Z.abs (i64 y)))).
Proof.
  intros Hx Hy Lx Ly Hne Hxy. unfold fxr_div. rewrite !sign_bit by done. cbv zeta.
  rewrite !(cond_neg64 _ (i64 _ <? 0)), !magnitude by done.
  destruct (word64_value x Hx) as (_ & Bx & _). destruct (word64_value y Hy) as (_ & By & _).
  destruct (fxr_div_positive (Z.abs (i64 x)) (Z.abs (i64 y)) ltac:(lia) ltac:(lia) Hxy) as (q0 & num & -> & Hq).
  rewrite Hq. set (r := (2 * Z.abs (i64 x) * 2 ^ 32 + Z.abs (i64 y)) / (2 * Z.abs (i64 y))) in *.
  assert (i64 x = 0 -> r = 0) as H0.
  { intros E. unfold r. rewrite E. apply Z.div_small. lia. }
  assert ((if i64 x <? 0 then 1 else 0) .^ (if i64 y <? 0 then 1 else 0) = if xorb (i64 x <? 0) (i64 y <? 0) then 1 else 0) as ->
    by (by destruct (i64 x <? 0), (i64 y <? 0)).
  rewrite cond_neg64 by apply u64_range. clearbody r.
  assert (forall c : bool, u64 (if c then - u64 r else u64 r) = u64 (if c then - r else r)) as ->.
  { intros [|]; rewrite !u64_mod.
    - rewrite <- (Z.sub_0_l (r mod _)), <- (Z.sub_0_l r). apply Zminus_mod_idemp_r.
    - apply Zmod_mod. }
  f_equal. destruct (Z.ltb_spec (i64 x) 0); destruct (Z.ltb_spec (i64 y) 0); cbn [xorb];
    destruct (decide (i64 x = 0)) as [E|]; try (rewrite (H0 E); lia); lia.
Qed.

(** ** Division by 31 *)

Lemma divrem31_spec x : 0 <= x <= 63487 -> divrem31 x = (x / 31, x mod 31).
Proof.
  intros Hx. unfold divrem31. rewrite shr_div by lia. rewrite (u32_small (x * 67651)) by lia.
  assert (x * 67651 / 2 ^ 21 = x / 31) as ->.
  { pose proof (Z.div_mod x 31 ltac:(lia)). pose proof (Z.mod_pos_bound x 31 ltac:(lia)).
    set (d := x / 31) in *. set (m := x mod 31) in *. clearbody d m.
    symmetry. apply (Z.div_unique_pos _ _ _ (x * 67651 - 2097152 * d)); lia. }
  pose proof (Z.div_mod x 31 ltac:(lia)). pose proof (Z.mod_pos_bound x 31 ltac:(lia)).
  rewrite (u32_small (31 * _)), u32_small by lia. f_equal. lia.
Qed.
