(* ===== verification/NtruProps.v ===== *)
(** Properties of the NTRU equation solver and of the arithmetic below it. *)
From Stdlib Require Import ZArith Lia.
From stdpp Require Import base numbers list.
From S2P Require Import Prelude Mq Ntt Mp31Tables Mp31 Zint31 Zint31Facts ZintCrt ZintGcd ZintScaled FxrTable Fxr FxrFacts Kpoly Ntru NtruMem NtruFacts.
Local Open Scope Z_scope.

(** * The solver *)

(** (C3) The solver always gives an answer, and when it says that it found a solution,
    F and G hold coefficients of at most 127 with f G - g F = q modulo X^n + 1 over
    the integers, whatever f and g are and whatever the scratch arrays held. *)
Theorem solve_NTRU_correct fuel logn f g F0 G0 tmp tmp_fxr :
  (1 <= logn <= 10)%nat -> (31 * 308 < fuel)%nat -> length tmp = (6 * 2 ^ logn)%nat ->
  Forall (fun l => length l = (2 ^ logn)%nat) [f; g; F0; G0] ->
  Forall (fun x => -128 <= x < 128) (f ++ g) ->
  exists ok F G tmp', solve_NTRU fuel logn f g F0 G0 tmp tmp_fxr = Some (ok, F, G, tmp') /\
    length F = (2 ^ logn)%nat /\ length G = (2 ^ logn)%nat /\ (ok = true -> ntru_solution logn f g F G).
Proof.
  intros Hl Hfuel Lt HL Hfg. rewrite !Forall_cons in HL. destruct HL as (Lf & Lg & LF & LG & _).
  apply Forall_app in Hfg as [Hf Hg].
  destruct (solve_NTRU_total fuel logn f g F0 G0 tmp tmp_fxr Hfuel) as [[[[ok F] G] t'] E].
  exists ok, F, G, t'. split; [exact E|]. pose proof (solve_NTRU_lengths _ _ _ _ _ _ _ _ _ _ _ _ E) as (_ & -> & ->).
  split; [done|]. split; [done|]. intros ->. by apply solve_NTRU_spec in E.
Qed.

(** The scales and lengths a turn of the reduction may see: the words above the
    scale are words of the number. *)
Definition turn_range (slen llen : nat) (sfg s : Z) (l : nat) : Prop :=
  (slen <= l <= llen)%nat /\ sfg <= s <= 31 * Z.of_nat l.

Lemma shrink_spec FGlen slen diff :
  (slen <= FGlen)%nat -> 0 <= diff ->
  (slen <= shrink FGlen slen diff <= FGlen)%nat /\
  (shrink FGlen slen diff = FGlen \/ diff < 31 * (Z.of_nat (shrink FGlen slen diff) + 1 - Z.of_nat slen)).
Proof.
  intros Hs Hd. induction FGlen as [|l IH]; cbn [shrink]; [lia|].
  destruct (Nat.ltb_spec slen (S l)); cbn [andb]; [|lia].
  destruct (Z.ltb_spec diff (31 * (Z.of_nat (S l) - Z.of_nat slen))); [|lia].
  destruct IH as [I1 I2]; [lia|]. split; [lia|]. right. destruct I2 as [->|?]; lia.
Qed.

(** (C19) The reduction of (F,G) ends: a turn for each bit of scale is enough, and every
    turn is made at a scale and a length for which the slices it takes of F and G
    are in range. *)
Theorem reduction_terminates fuel turn logn slen llen sfg tmp :
  (slen <= llen <= 308)%nat -> 0 <= sfg <= 31 * Z.of_nat slen -> (31 * llen < fuel)%nat ->
  is_Some (reduce_loop fuel turn logn slen sfg (31 * Z.of_nat llen) llen tmp) /\
  forall turn', (forall s l t, turn_range slen llen sfg s l -> turn s l t = turn' s l t) ->
    reduce_loop fuel turn logn slen sfg (31 * Z.of_nat llen) llen tmp =
    reduce_loop fuel turn' logn slen sfg (31 * Z.of_nat llen) llen tmp.
Proof.
  intros Hl Hfg Hf. split; [apply reduce_loop_total; lia|]. intros turn' Ht. clear Hf.
  pose proof (reduce_bits_range logn) as Hb.
  enough (forall s l t, turn_range slen llen sfg s l ->
    reduce_loop fuel turn logn slen sfg s l t = reduce_loop fuel turn' logn slen sfg s l t) as HE
    by (apply HE; unfold turn_range; lia).
  induction fuel as [|fuel IH]; intros s l t HR; [done|]. cbn [reduce_loop]. rewrite (Ht s l t HR).
  destruct (Z.leb_spec s sfg); [done|]. destruct (next_scale logn slen sfg s l) as [s' l'] eqn:E.
  apply IH. destruct HR as [H1 H2]. unfold next_scale in E. rewrite (u32_small (sfg + _)) in E by lia.
  assert (sfg <= s' < s /\ l' = shrink l slen (s' - sfg + 30)) as [Hs ->].
  { destruct (Z.leb_spec s (sfg + reduce_bits logn)); injection E as <- <-.
    - rewrite (u32_small (sfg - sfg)), (u32_small (_ + 30)) by lia. split; [lia|done].
    - rewrite (u32_small (s - reduce_bits logn)), (u32_small (_ - sfg)), (u32_small (_ + 30)) by lia. split; [lia|done]. }
  destruct (shrink_spec l slen (s' - sfg + 30)) as [I1 I2]; [lia|lia|]. unfold turn_range. split; [lia|].
  destruct I2 as [->|?]; lia.
Qed.

(** * Big integers *)

(** (C22) Integers within half the product of the primes come back from their residues:
    [zint_rebuild_CRT] leaves the two's complement limbs of each of them in place,
    and nothing else changes. *)
Theorem zint_rebuild_CRT_exact num_sets n xlen (X : nat -> Z) xx tmp :
  (0 < n)%nat -> (0 < xlen <= length primes)%nat ->
  (num_sets * (n * xlen) <= length xx)%nat -> (xlen <= length tmp)%nat ->
  (forall o e, offset num_sets n xlen o -> (e < xlen)%nat -> xx.[o + e * n] = X o mod sp_p primes.[e]) ->
  (forall o, offset num_sets n xlen o -> - crt_mod xlen < 2 * X o < crt_mod xlen) ->
  let '(xx', _) := zint_rebuild_CRT xx xlen n num_sets true tmp in
  length xx' = length xx /\
  (forall o, offset num_sets n xlen o ->
     (forall t, (t < xlen)%nat -> limb (cells n xlen xx' o).[t]) /\ sval (get (cells n xlen xx' o)) xlen = X o) /\
  (forall m, (num_sets * (n * xlen) <= m)%nat -> xx'.[m] = xx.[m]).
Proof.
  intros Hn [Hx Hp] Lx Lt HR HB.
  pose proof (zint_rebuild_CRT_spec num_sets n xlen Hn Hx Hp X true xx tmp Lx Lt HR) as H.
  destruct (zint_rebuild_CRT xx xlen n num_sets true tmp) as [xx' tmp']. destruct H as (L & HV & HU).
  split; [exact L|]. split; [|exact HU]. intros o Ho. destruct (HV o Ho) as [H1 H2]. split; [exact H1|].
  rewrite H2. apply (centred_small n xlen); [done..|]. by apply HB.
Qed.

(** (C21) When the binary GCD says that x and y are coprime they are, and u and v are the
    coefficients below y and x with x u - y v = 1 (for y above 1). *)
Theorem zint_bezout_correct u v x y len tmp u' v' tmp' :
  limbs len x -> limbs len y -> (len <= length u)%nat -> (len <= length v)%nat ->
  zint_bezout u v x y len tmp = (true, u', v', tmp') ->
  let X := nval (get x) len in let Y := nval (get y) len in
  let U := nval (get u') len in let V := nval (get v') len in
  Z.gcd X Y = 1 /\ 0 <= U < Y /\ 0 <= V < X /\ (1 < Y -> X * U - Y * V = 1).
Proof.
  intros Hx Hy Hu Hv E. cbv zeta. pose proof (zint_bezout_spec u v x y len tmp u' v' tmp' Hx Hy Hu Hv E) as H.
  cbv zeta in H. destruct H as (_ & _ & HU & HV & HG & HE). done.
Qed.

(** For y = 1 the relation fails: the coefficients of 3 and 1 are given as 0 and 2. *)
Lemma zint_bezout_one : exists t, zint_bezout [0] [0] [3] [1] 1 (replicate 4 0) = (true, [0], [2], t).
Proof. eexists. vm_compute. reflexivity. Qed.

(** (C40) Adding a multiple and subtracting, both scaled by a power of two: the numbers
    change by exactly k 2^sc y and 2^sc y, modulo the size of x; only the words of
    x change. *)
Theorem zint_scaled_exact x xlen y ylen stride k sch scl :
  number y stride ylen -> (0 < ylen)%nat -> number x stride xlen -> 0 <= scl <= 30 -> 0 <= sch <= Z.of_nat xlen ->
  - 2 ^ 31 <= k < 2 ^ 31 ->
  let add := zint_add_scaled_mul_small x xlen y ylen stride k sch scl in
  let sub := zint_sub_scaled x xlen y ylen stride sch scl in
  nval (words add stride) xlen ==[pw xlen] nval (words x stride) xlen + k * 2 ^ (31 * sch + scl) * sval (words y stride) ylen /\
  nval (words sub stride) xlen ==[pw xlen] nval (words x stride) xlen - 2 ^ (31 * sch + scl) * sval (words y stride) ylen /\
  number add stride xlen /\ number sub stride xlen /\
  forall m, (forall i, (i < xlen)%nat -> m <> (i * stride)%nat) -> add.[m] = x.[m] /\ sub.[m] = x.[m].
Proof.
  intros Hy Hl Hx Hs Hc Hk. cbv zeta.
  pose proof (zint_add_scaled_mul_small_spec x xlen y ylen stride k sch scl Hy Hl Hx Hs Hc Hk) as HA. cbv zeta in HA.
  pose proof (zint_sub_scaled_spec x xlen y ylen stride sch scl Hy Hl Hx Hs Hc) as HB. cbv zeta in HB.
  destruct HA as (A1 & _ & A2 & A3). destruct HB as (B1 & _ & B2 & B3).
  split; [exact A2|]. split; [exact B2|]. split; [exact A1|]. split; [exact B1|].
  intros m Hm. split; [by apply A3|by apply B3].
Qed.

(** * Modular and fixed-point arithmetic *)

(** For each prime of the table: transform, pointwise product (two Montgomery
    products) and inverse transform compute the product modulo X^n + 1 and p, with
    the tables of roots the code builds; the two transforms undo each other. *)
Theorem mp_poly_product i logn a b gm0 igm0 :
  (i < length primes)%nat -> (logn <= 10)%nat ->
  (2 ^ logn <= length gm0)%nat -> (2 ^ logn <= length igm0)%nat ->
  let e := primes.[i] in let p := sp_p e in let p0i := sp_p0i e in
  Forall (fun l => length l = (2 ^ logn)%nat /\ Forall (fun x => 0 <= x < p) l) [a; b] ->
  let '(gm, igm) := mp_mkgmigm logn gm0 igm0 (sp_g e) (sp_ig e) p p0i in
  let d := zip_with (fun x y => mp_mmul (mp_mmul x y p p0i) (sp_r2 e) p p0i)
             (mp_NTT logn a gm p p0i) (mp_NTT logn b gm p p0i) in
  mp_iNTT logn d igm p p0i = (fun k => nega_coeff (2 ^ logn) (get a) (get b) k mod p) <$> seq 0 (2 ^ logn) /\
  mp_iNTT logn (mp_NTT logn a gm p p0i) igm p p0i = a /\ mp_NTT logn (mp_iNTT logn a igm p p0i) gm p p0i = a.
Proof.
  intros Hi Hl Lg Li. cbv zeta. pose proof (primes_entry i Hi) as He. set (e := primes.[i]) in *. clearbody e.
  rewrite !Forall_cons. intros ([La Ra] & [Lb Rb] & _). rewrite mp_mkgmigm_eq.
  destruct (mp_NTT_ok e He logn Hl gm0 igm0 Lg Li a La Ra) as [LA RA]. destruct (mp_NTT_ok e He logn Hl gm0 igm0 Lg Li b Lb Rb) as [LB RB].
  set (A := mp_NTT logn a _ _ _) in *. set (B := mp_NTT logn b _ _ _) in *.
  split; [|split; [by apply mp_iNTT_NTT|by apply mp_NTT_iNTT]].
  set (d := zip_with _ A B).
  assert (length d = (2 ^ logn)%nat) as Ld by (unfold d; rewrite length_zip_with; lia).
  assert (forall j, (j < 2 ^ logn)%nat -> 0 <= d.[j] < sp_p e /\ d.[j] ==[sp_p e] A.[j] * B.[j]) as Hd.
  { intros j Hj. assert (d.[j] = mp_mul2 e A.[j] B.[j]) as ->.
    { apply get_lookup. unfold d. rewrite lookup_zip_with, (lookup_get A), (lookup_get B) by lia. done. }
    apply (mp_mul2_spec e He); apply (get_Forall (fun x => 0 <= x < sp_p e)); try done; lia. }
  change ((fun k => nega_coeff (2 ^ logn) (get a) (get b) k mod sp_p e) <$> seq 0 (2 ^ logn)) with (mp_nega_mul e logn a b).
  destruct (mp_nega_mul_ok e He logn Hl gm0 igm0 Lg Li a b) as [Lc Rc].
  rewrite <- (mp_iNTT_NTT e He logn Hl gm0 igm0 Lg Li _ Lc Rc). f_equal.
  apply (mp_NTT_product e He logn Hl gm0 igm0 Lg Li); try done.
  - apply Forall_get. rewrite Ld. intros j Hj. by apply Hd.
  - intros j Hj. by apply Hd.
Qed.

(** Division modulo a prime of the table, by a binary GCD of 62 steps: the result
    is x / y when y can be inverted, and 0 when it cannot. *)
Theorem mp_div_correct i x y :
  (i < length primes)%nat -> let p := sp_p primes.[i] in
  0 <= x < p -> 0 <= y < p ->
  0 <= mp_div x y p < p /\ (Z.gcd y p = 1 -> mp_div x y p * y ==[p] x) /\ (Z.gcd y p <> 1 -> mp_div x y p = 0).
Proof.
  intros Hi. cbv zeta. pose proof (pe_good _ (primes_entry i Hi)) as Hg. intros Hx Hy.
  exact (mp_div_spec Hg x y Hx Hy).
Qed.

(** The fixed-point operations on words are exact on the numbers the words stand
    for: the product is the floor of the product, the square is the product, and
    rounding goes to the nearest integer with ties upwards, each up to the wrap of
    the word. *)
Theorem fxr_ops_exact x y :
  is_word64 x -> is_word64 y ->
  fxr_mul x y = u64 (i64 x * i64 y / 2 ^ 32) /\ fxr_sqr x = fxr_mul x x /\ fxr_round x = i32 ((i64 x + 2 ^ 31) / 2 ^ 32).
Proof. intros Hx Hy. split; [by apply fxr_mul_spec|]. split; [by apply fxr_sqr_spec|by apply fxr_round_spec]. Qed.

(** Bit-by-bit division gives the quotient of the magnitudes rounded to the
    nearest 1/2^32, ties away from zero, with the sign of the quotient, whenever it
    fits in 64 bits. *)
Theorem fxr_div_rounds x y :
  is_word64 x -> is_word64 y -> - 2 ^ 63 < i64 x -> - 2 ^ 63 < i64 y -> i64 y <> 0 -> Z.abs (i64 x) < 2 ^ 32 * Z.abs (i64 y) ->
  fxr_div x y = u64 (Z.sgn (i64 x) * Z.sgn (i64 y) * ((2 * Z.abs (i64 x) * 2 ^ 32 + Z.abs (i64 y)) / (2 * Z.abs (i64 y)))).
Proof. apply fxr_div_spec. Qed.

(** * At concrete inputs *)

Definition ntru_f : list Z := [-49; 15; 40; -21].
Definition ntru_g : list Z := [-53; -3; 19; 44].

Lemma solve_NTRU_correct_witness :
  (exists tmp', solve_NTRU (2 ^ 14) 2 ntru_f ntru_g (replicate 4 0) (replicate 4 0) (replicate 24 0) (replicate 10 0) =
    Some (true, [44; 58; 29; -6], [-83; 49; -42; -4], tmp')) /\
  exists ok F G tmp', solve_NTRU (2 ^ 14) 2 ntru_f ntru_g (replicate 4 0) (replicate 4 0) (replicate 24 0) (replicate 10 0) =
      Some (ok, F, G, tmp') /\
    length F = 4%nat /\ length G = 4%nat /\ (ok = true -> ntru_solution 2 ntru_f ntru_g F G).
Proof.
  split; [eexists; vm_compute; reflexivity|].
  apply (solve_NTRU_correct (2 ^ 14) 2 ntru_f ntru_g (replicate 4 0) (replicate 4 0) (replicate 24 0) (replicate 10 0)).
  - lia.
  - apply Nat.ltb_lt. vm_compute. reflexivity.
  - reflexivity.
  - repeat (constructor; [reflexivity|]). constructor.
  - repeat (constructor; [lia|]). constructor.
Defined.

Lemma reduction_terminates_witness :
  is_Some (reduce_loop (31 * 3 + 1) (fun s l t => (s + Z.of_nat l) :: t) 4 2 31 (31 * Z.of_nat 3) 3 []) /\
  forall turn', (forall s l t, turn_range 2 3 31 s l -> (s + Z.of_nat l) :: t = turn' s l t) ->
    reduce_loop (31 * 3 + 1) (fun s l t => (s + Z.of_nat l) :: t) 4 2 31 (31 * Z.of_nat 3) 3 [] =
    reduce_loop (31 * 3 + 1) turn' 4 2 31 (31 * Z.of_nat 3) 3 [].
Proof.
  apply (reduction_terminates (31 * 3 + 1) (fun s l t => (s + Z.of_nat l) :: t) 4 2 3 31 []); lia.
Defined.

Lemma zint_rebuild_CRT_exact_witness :
  let '(xx', _) := zint_rebuild_CRT [2147473404; 2147389436] 2 1 1 true [0; 0] in
  length xx' = 2%nat /\
  (forall o, offset 1 1 2 o ->
     (forall t, (t < 2)%nat -> limb (cells 1 2 xx' o).[t]) /\ sval (get (cells 1 2 xx' o)) 2 = -5) /\
  (forall m, (2 <= m)%nat -> xx'.[m] = [2147473404; 2147389436].[m]).
Proof.
  apply (zint_rebuild_CRT_exact 1 1 2 (fun _ => -5) [2147473404; 2147389436] [0; 0]).
  - lia.
  - split; [lia|]. vm_compute. lia.
  - cbn. lia.
  - cbn. lia.
  - intros o e (k & j & Hk & Hj & ->) He. replace k with 0%nat by lia. replace j with 0%nat by lia.
    destruct e as [|[|e]]; [reflexivity|reflexivity|lia].
  - intros o _. vm_compute. split; reflexivity.
Defined.

Lemma zint_bezout_correct_witness :
  exists u v t, zint_bezout [0] [0] [7] [5] 1 (replicate 4 0) = (true, u, v, t) /\
    Z.gcd 7 5 = 1 /\ 0 <= nval (get u) 1 < 5 /\ 0 <= nval (get v) 1 < 7 /\ (1 < 5 -> 7 * nval (get u) 1 - 5 * nval (get v) 1 = 1).
Proof.
  assert (exists t, zint_bezout [0] [0] [7] [5] 1 (replicate 4 0) = (true, [3], [4], t)) as [t E]
    by (eexists; vm_compute; reflexivity).
  exists [3], [4], t. split; [exact E|].
  apply (zint_bezout_correct [0] [0] [7] [5] 1 (replicate 4 0) [3] [4] t).
  - split; [cbn; lia|]. intros i Hi. replace i with 0%nat by lia. cbv. split; congruence.
  - split; [cbn; lia|]. intros i Hi. replace i with 0%nat by lia. cbv. split; congruence.
  - cbn. lia.
  - cbn. lia.
  - exact E.
Defined.

Lemma number_single x : 0 <= x < 2 ^ 31 -> number [x] 1 1.
Proof.
  intros Hx. constructor; [lia| |]; intros i Hi; replace i with 0%nat by lia; [cbn; lia|exact Hx].
Qed.

Lemma zint_scaled_exact_witness :
  zint_add_scaled_mul_small [10] 1 [3] 1 1 (-2) 0 1 = [2147483646] /\
  nval (words [2147483646] 1) 1 ==[pw 1] nval (words [10] 1) 1 + -2 * 2 ^ (31 * 0 + 1) * sval (words [3] 1) 1.
Proof.
  assert (zint_add_scaled_mul_small [10] 1 [3] 1 1 (-2) 0 1 = [2147483646]) as E by (vm_compute; reflexivity).
  split; [exact E|]. rewrite <- E.
  apply (zint_scaled_exact [10] 1 [3] 1 1 (-2) 0 1);
    [apply number_single; lia|lia|apply number_single; lia|lia|lia|lia].
Defined.

Lemma mp_poly_product_witness :
  let e := primes.[3] in let p := sp_p e in let p0i := sp_p0i e in
  let '(gm, igm) := mp_mkgmigm 1 [0; 0] [0; 0] (sp_g e) (sp_ig e) p p0i in
  let d := zip_with (fun x y => mp_mmul (mp_mmul x y p p0i) (sp_r2 e) p p0i)
             (mp_NTT 1 [1; 2] gm p p0i) (mp_NTT 1 [3; 4] gm p p0i) in
  mp_iNTT 1 d igm p p0i = (fun k => nega_coeff (2 ^ 1) (get [1; 2]) (get [3; 4]) k mod p) <$> seq 0 (2 ^ 1) /\
  mp_iNTT 1 (mp_NTT 1 [1; 2] gm p p0i) igm p p0i = [1; 2] /\ mp_NTT 1 (mp_iNTT 1 [1; 2] igm p p0i) gm p p0i = [1; 2].
Proof.
  apply (mp_poly_product 3 1 [1; 2] [3; 4] [0; 0] [0; 0]).
  - vm_compute. lia.
  - lia.
  - cbn. lia.
  - cbn. lia.
  - assert (forall x, 0 <= x <= 4 -> 0 <= x < sp_p primes.[3]) as Hs by (intros x Hx; change (sp_p primes.[3]) with 2147377153; lia).
    repeat (constructor; [split; [reflexivity|repeat (constructor; [apply Hs; lia|]); constructor]|]). constructor.
Defined.

Lemma mp_div_correct_witness :
  let p := sp_p primes.[0] in
  Z.gcd 3 p = 1 /\ 0 <= mp_div 5 3 p < p /\ (Z.gcd 3 p = 1 -> mp_div 5 3 p * 3 ==[p] 5) /\ (Z.gcd 3 p <> 1 -> mp_div 5 3 p = 0).
Proof.
  split; [vm_compute; reflexivity|]. apply (mp_div_correct 0 5 3).
  - vm_compute. lia.
  - vm_compute. split; congruence.
  - vm_compute. split; congruence.
Defined.

Lemma fxr_ops_exact_witness :
  fxr_mul 12884901888 (2 ^ 64 - 6442450944) = u64 (i64 12884901888 * i64 (2 ^ 64 - 6442450944) / 2 ^ 32) /\
  fxr_sqr 12884901888 = fxr_mul 12884901888 12884901888 /\ fxr_round 12884901888 = i32 ((i64 12884901888 + 2 ^ 31) / 2 ^ 32).
Proof.
  apply (fxr_ops_exact 12884901888 (2 ^ 64 - 6442450944)); unfold is_word64; lia.
Defined.

Lemma fxr_div_rounds_witness :
  fxr_div (2 ^ 64 - 4294967296) 12884901888 = 2 ^ 64 - 1431655765 /\
  fxr_div (2 ^ 64 - 4294967296) 12884901888 =
    u64 (Z.sgn (i64 (2 ^ 64 - 4294967296)) * Z.sgn (i64 12884901888) *
      ((2 * Z.abs (i64 (2 ^ 64 - 4294967296)) * 2 ^ 32 + Z.abs (i64 12884901888)) / (2 * Z.abs (i64 12884901888)))).
Proof.
  split; [vm_compute; reflexivity|].
  apply (fxr_div_rounds (2 ^ 64 - 4294967296) 12884901888); [unfold is_word64; lia|unfold is_word64; lia| | | |];
    vm_compute; congruence.
Defined.
