(* ===== verification/KeyGen.v ===== *)
(** Key generation ([kgen.go], [kgen_gauss.go]).

    Sampling of f and g, the tests a candidate passes, the loop until the solver
    of [Ntru] finds F and G, and the encoding of the key pair.  Every pair
    [KeyGen] returns is one the signer loads. *)
From Stdlib Require Import ZArith Lia.
From stdpp Require Import base numbers list strings.
From S2P Require Import Prelude Mp31Tables Mp31 Zint31 FxrTable Fxr Kpoly Ntru NtruMem NtruFacts Mq Ntt MqTables MqPoly Bits Codec Util Verify Flr Fpoly Sampler FpolyFacts Sign FlrEmu Examples Signature SamplerFacts.
Local Open Scope Z_scope.

(** * Sampling *)

Definition gauss_256 : list Z := [
  1; 3; 6; 11; 22; 40; 73; 129;
  222; 371; 602; 950; 1460; 2183; 3179; 4509;
  6231; 8395; 11032; 14150; 17726; 21703; 25995; 30487;
  35048; 39540; 43832; 47809; 51385; 54503; 57140; 59304;
  61026; 62356; 63352; 64075; 64585; 64933; 65164; 65313;
  65406; 65462; 65495; 65513; 65524; 65529; 65532; 65534
].

Definition gauss_512 : list Z := [
  1; 4; 11; 28; 65; 146; 308; 615;
  1164; 2083; 3535; 5692; 8706; 12669; 17574; 23285;
  29542; 35993; 42250; 47961; 52866; 56829; 59843; 62000;
  63452; 64371; 64920; 65227; 65389; 65470; 65507; 65524;
  65531; 65534
].

Definition gauss_1024 : list Z := [
  2; 8; 28; 94; 280; 742; 1761; 3753;
  7197; 12472; 19623; 28206; 37329; 45912; 53063; 58338;
  61782; 63774; 64793; 65255; 65441; 65507; 65527; 65533
].

(** The table of a degree and the number of samples added up. *)
Definition gauss_table (logn : nat) : list Z * nat :=
  match logn with
  | 9%nat => (gauss_512, 1%nat)
  | 10%nat => (gauss_1024, 1%nat)
  | _ => (gauss_256, Nat.pow 2 (8 - logn))
  end.

(** [v -= kmax], then one step a table entry, for the 16-bit value [y]. *)
Definition gauss_scan (tab : list Z) (y v : Z) : Z :=
  let kmax := u32 (u32 (Z.of_nat (length tab) .>> 1) .<< 16) in
  for_ (length tab) (fun k v => v -% ((tab.[k] -% y) .& 0xFFFF0000)) (v -% kmax).

Section KeyGen.
Context `{Hsh : Shake}.

(** The sum [v] of [zz] samples. *)
Fixpoint gauss_draws (zz : nat) (tab : list Z) (v : Z) : M Z :=
  match zz with
  | O => mret v
  | S zz' => y ← draw next_u16; gauss_draws zz' tab (gauss_scan tab y v)
  end.

(** [for i < n { ... }]: the coefficients, and the parity word. *)
Fixpoint sample_coeffs (fuel n zz : nat) (tab : list Z) (i : nat) (parity : Z) (f : list Z)
    : M (list Z * Z) :=
  if (n <=? i)%nat then mret (f, parity)
  else match fuel with
  | O => out_of_fuel
  | S fuel' =>
      v ← gauss_draws zz tab 0;
      let s := i32 v .>> 16 in
      if (s <? -127) || (127 <? s) then sample_coeffs fuel' n zz tab i parity f
      else sample_coeffs fuel' n zz tab (S i) (parity .^ v) (f.[i <- i8 s])
  end.

(** The outer loop, until the parity is odd. *)
Fixpoint sample_f_loop (turns fuel n zz : nat) (tab f : list Z) : M (list Z) :=
  match turns with
  | O => out_of_fuel
  | S turns' =>
      '(f, parity) ← sample_coeffs fuel n zz tab 0 0 f;
      if negb ((parity .>> 16) .& 1 =? 0) then mret f else sample_f_loop turns' fuel n zz tab f
  end.

Definition sample_f (fuel logn : nat) (f : list Z) : M (list Z) :=
  let n := degree logn in
  let '(tab, zz) := gauss_table logn in
  sample_f_loop fuel fuel n zz tab f.

(** The tests of [keygen_inner] that come before the solver: the norm, and the
    invertibility of f. *)
Definition keygen_screen (logn : nat) (f g tmp_u16 : list Z) : bool :=
  let n := degree logn in
  let sn := for_ n (fun i sn =>
    let xf := f.[i] in
    let xg := g.[i] in
    i32 (sn + i32 (i32 (xf * xf) + i32 (xg * xg)))) 0 in
  if 16823 <=? sn then false
  else if negb (mqpoly_is_invertible logn f tmp_u16) then false
  else true.

(** * Encoding *)

Definition encode_keypair (logn : nat) (f g F G tmp_u16 : list Z) : list Z * list Z :=
  let n := degree logn in
  let skey := replicate (SigningKeySize logn) 0 in
  let nbits := nbits_fg logn in
  let skey := skey.[0 <- u8 (80 + Z.of_nat logn)] in
  let j := 1%nat in
  let '(d, k) := trim_i8_encode logn f nbits (drop j skey) in
  let '(skey, j) := (take j skey ++ d, (j + k)%nat) in
  let '(d, k) := trim_i8_encode logn g nbits (drop j skey) in
  let '(skey, j) := (take j skey ++ d, (j + k)%nat) in
  let '(d, _) := trim_i8_encode logn F 8 (drop j skey) in
  let skey := take j skey ++ d in
  let vkey := replicate (VerifyingKeySize logn) 0 in
  let vkey := vkey.[0 <- u8 (0 + Z.of_nat logn)] in
  let h := take n tmp_u16 in
  let t1 := drop n tmp_u16 in
  let h := mqpoly_small_to_int logn g h in
  let t1 := mqpoly_small_to_int logn f t1 in
  let h := mqpoly_int_to_ntt logn h in
  let t1 := mqpoly_int_to_ntt logn t1 in
  let '(h, _) := mqpoly_div_ntt logn h t1 in
  let h := mqpoly_ntt_to_int logn h in
  let h := mqpoly_int_to_ext logn h in
  let '(d, _) := modq_encode logn h (drop 1 vkey) in
  (skey, take 1 vkey ++ d).

(** * The whole *)

(** The loop of [keygen_inner]: candidates until one has a solution.  The arrays
    keep what the attempts before left in them. *)
Fixpoint keygen_inner (turns fuel logn : nat) (f g F G tmp tmp_fxr tmp_u16 : list Z)
    : M (list Z * list Z * list Z * list Z) :=
  match turns with
  | O => out_of_fuel
  | S turns' =>
      f ← sample_f fuel logn f;
      g ← sample_f fuel logn g;
      if negb (keygen_screen logn f g tmp_u16) then keygen_inner turns' fuel logn f g F G tmp tmp_fxr tmp_u16
      else if negb (check_ortho_norm logn f g tmp_fxr) then keygen_inner turns' fuel logn f g F G tmp tmp_fxr tmp_u16
      else match solve_NTRU fuel logn f g F G tmp tmp_fxr with
      | None => out_of_fuel
      | Some (true, F, G, _) => mret (f, g, F, G)
      | Some (false, F, G, tmp) => keygen_inner turns' fuel logn f g F G tmp tmp_fxr tmp_u16
      end
  end.

(** The random source delivers a seed of 32 bytes, or an error. *)
Definition KeyGen (fuel logn : nat) (rng : result string (list Z)) : option (result string (list Z * list Z)) :=
  if (logn <? 2)%nat || (10 <? logn)%nat then Some (Err "invalid degree"%string)
  else match rng with
  | Err e => Some (Err e)
  | Ok seed =>
      let n := degree logn in
      let z := replicate n 0 in
      let tmp := replicate (6 * n) 0 in
      let tmp_fxr := replicate (5 * (n / 2)) 0 in
      let tmp_u16 := replicate (2 * n) 0 in
      match keygen_inner fuel fuel logn z z z z tmp tmp_fxr tmp_u16 (newSHAKE256prng seed) with
      | None => None
      | Some ((f, g, F, G), _) => Some (Ok (encode_keypair logn f g F G tmp_u16))
      end
  end.
End KeyGen.

(** * What is sampled *)

(** How many entries of the table are below [y]. *)
Definition entries_below (tab : list Z) (y : Z) : Z :=
  zsum (length tab) (fun k => if tab.[k] <? y then 1 else 0).

Definition is_u16 (x : Z) : Prop := 0 <= x < 65536.

Lemma scan_step t y : is_u16 t -> is_u16 y ->
  (t -% y) .& 0xFFFF0000 = if t <? y then 0xFFFF0000 else 0.
Proof.
  unfold is_u16. intros Ht Hy.
  assert (forall x, 0 <= x < 4294967296 -> x .& 0xFFFF0000 = 65536 * (x / 65536)) as Hmask.
  { intros x Hx. change 0xFFFF0000 with (Z.ones 32 - Z.ones 16).
    assert (Z.ones 32 - Z.ones 16 = Z.ldiff (Z.ones 32) (Z.ones 16)) as -> by reflexivity.
    assert (x .& Z.ldiff (Z.ones 32) (Z.ones 16) = Z.ldiff x (Z.ones 16)) as ->.
    { apply Z.bits_inj'. intros n Hn. rewrite Z.land_spec, !Z.ldiff_spec.
      destruct (decide (n < 32)); [by rewrite (Z.ones_spec_low 32) by lia|].
      rewrite <- (Z.mod_small x (2 ^ 32)) by lia. by rewrite Z.mod_pow2_bits_high by lia. }
    rewrite Z.ldiff_ones_r by lia. rewrite Z.shiftl_mul_pow2, Z.shiftr_div_pow2 by lia. apply Z.mul_comm. }
  rewrite Hmask by apply u32_range. destruct (Z.ltb_spec t y).
  - rewrite u32_neg by lia. Z.to_euclidean_division_equations. lia.
  - rewrite u32_small by lia. rewrite Z.div_small by lia. lia.
Qed.

Lemma gauss_scan_spec tab y v :
  Forall is_u16 tab -> is_u16 y -> (length tab < 1000)%nat ->
  gauss_scan tab y v = u32 (v + 65536 * (entries_below tab y - Z.of_nat (length tab / 2))).
Proof.
  intros Ht Hy Hl. unfold gauss_scan.
  assert (u32 (u32 (Z.of_nat (length tab) .>> 1) .<< 16) = 65536 * Z.of_nat (length tab / 2)) as ->.
  { rewrite shr_div by lia. change (2 ^ 1) with (Z.of_nat 2). rewrite <- Nat2Z.inj_div.
    assert (length tab / 2 <= length tab)%nat by (apply Nat.Div0.div_le_upper_bound; lia).
    rewrite (u32_small (Z.of_nat _)) by lia. rewrite shl_mul, u32_small by lia. lia. }
  unfold entries_below. set (h := Z.of_nat (length tab / 2)).
  pose proof (for_ind (fun k v' => (k <= length tab)%nat /\
      v' = u32 (v - 65536 * h + 65536 * zsum k (fun k => if tab.[k] <? y then 1 else 0))) (length tab)
    (fun k v => v -% ((tab.[k] -% y) .& 0xFFFF0000)) (v -% (65536 * h))) as H.
  feed_loop H.
  - split; [lia|]. cbn [zsum]. f_equal. lia.
  - intros k v' Hk [_ ->]. split; [lia|]. rewrite scan_step by (try done; by apply get_Forall).
    cbn [zsum]. rewrite !u32_mod, Zminus_mod_idemp_l. destruct (tab.[k] <? y).
    + rewrite <- (Z.mod_add _ 1) by lia. f_equal. lia.
    + f_equal. lia.
  - destruct H as [_ ->]. f_equal. lia.
Qed.

(** What one coefficient of degree [logn] can be: the half-width of the table
    times the number of samples, cut at 127. *)
Definition gauss_max (logn : nat) : Z :=
  let '(tab, zz) := gauss_table logn in Z.of_nat zz * Z.of_nat (length tab / 2).

Section Sampled.
Context `{Hsh : Shake}.

Lemma next_u16_range r : is_u16 (fst (next_u16 r)).
Proof using.
  unfold next_u16, is_u16. destruct (_ <=? _)%nat.
  - destruct (next_u8 r) as [x r1]. destruct (next_u8 r1) as [y r2]. apply u16_range.
  - apply u16_range.
Qed.

Lemma entries_below_range tab y : 0 <= entries_below tab y <= Z.of_nat (length tab).
Proof using.
  unfold entries_below. split; [apply zsum_nonneg; intros; by case_match|].
  rewrite <- (Z.mul_1_r (Z.of_nat _)). apply zsum_le_const. intros; by case_match.
Qed.

Lemma gauss_draws_spec zz tab v r v' r' :
  Forall is_u16 tab -> Nat.Even (length tab) -> (length tab < 1000)%nat -> 0 <= v < 2 ^ 32 ->
  gauss_draws zz tab v r = Some (v', r') ->
  exists s, v' = u32 (v + 65536 * s) /\ Z.abs s <= Z.of_nat zz * Z.of_nat (length tab / 2).
Proof using.
  intros Ht [h He] Hl. assert (length tab / 2 = h)%nat as Hh by (rewrite He, Nat.mul_comm; by apply Nat.div_mul).
  revert v r. induction zz as [|zz IH]; intros v r Hv; cbn [gauss_draws].
  - unfold mret, M_ret. intros [= <- <-]. exists 0. rewrite Z.mul_0_r, Z.add_0_r, u32_small by lia. lia.
  - unfold mbind, M_bind, draw. pose proof (next_u16_range r) as Hy.
    destruct (next_u16 r) as [y r1]. cbn [fst] in Hy. rewrite gauss_scan_spec by done. intros Hd.
    apply IH in Hd as (s & -> & Hs); [|apply u32_range].
    pose proof (entries_below_range tab y) as Hr. rewrite Hh in *.
    exists (entries_below tab y - Z.of_nat h + s). split; [|lia].
    rewrite !u32_mod, Zplus_mod_idemp_l. f_equal. lia.
Qed.

(** The value and the parity bit of a sum of samples. *)
Lemma sum_value s : Z.abs s < 2 ^ 15 -> i32 (u32 (0 + 65536 * s)) .>> 16 = s.
Proof using.
  intros Hs. unfold i32. rewrite shr_div by lia.
  assert (u32 (u32 (0 + 65536 * s) + 2147483648) = 65536 * s + 2147483648) as ->.
  { rewrite !u32_mod, Zplus_mod_idemp_l. rewrite Z.mod_small by lia. lia. }
  replace (65536 * s + 2147483648 - 2147483648) with (s * 2 ^ 16) by lia. apply Z.div_mul. lia.
Qed.

Lemma sum_parity s : Z.testbit (u32 (0 + 65536 * s)) 16 = Z.odd s.
Proof using.
  change (u32 (0 + 65536 * s)) with ((65536 * s) .& Z.ones 32).
  rewrite Z.land_spec, Z.ones_spec_low, andb_true_r by lia. rewrite Z.mul_comm. change 65536 with (2 ^ 16).
  rewrite Z.mul_pow2_bits by lia. apply Z.bit0_odd.
Qed.

(** A table whose sums stay in 16 bits. *)
Record table_ok (zz : nat) (tab : list Z) : Prop := TableOk {
  to_range : Forall is_u16 tab;
  to_even : Nat.Even (length tab);
  to_length : (length tab < 1000)%nat;
  to_sum : Z.of_nat zz * Z.of_nat (length tab / 2) < 2 ^ 15;
}.

Lemma gauss_table_ok logn : (2 <= logn)%nat -> let '(tab, zz) := gauss_table logn in table_ok zz tab.
Proof using.
  intros Hl.
  assert (forall zz, (zz <= 64)%nat -> table_ok zz gauss_256) as H256.
  { intros zz Hz. split; [|by exists 24%nat|vm_compute; lia|].
    - each ltac:(unfold is_u16; lia).
    - change (length gauss_256 / 2)%nat with 24%nat. lia. }
  assert (2 ^ (8 - logn) <= 64)%nat by (change 64%nat with (2 ^ 6)%nat; apply Nat.pow_le_mono_r; lia).
  unfold gauss_table. do 11 (destruct logn as [|logn]; [first [apply H256; simpl; lia|
    (split; [each ltac:(unfold is_u16; lia)|first [by exists 17%nat|by exists 12%nat]|vm_compute; lia|vm_compute; done])]|]).
  by apply H256.
Qed.

Lemma sample_coeffs_spec fuel n zz tab i parity f r f' parity' r' :
  table_ok zz tab -> length f = n -> (i <= n)%nat ->
  let ok x := Z.abs x <= Z.min 127 (Z.of_nat zz * Z.of_nat (length tab / 2)) in
  (forall j, (j < i)%nat -> ok f.[j]) -> Z.testbit parity 16 = Z.odd (zsum i (get f)) ->
  sample_coeffs fuel n zz tab i parity f r = Some ((f', parity'), r') ->
  length f' = n /\ Forall ok f' /\ Z.testbit parity' 16 = Z.odd (zsum n (get f')).
Proof using.
  intros [Ht1 Ht2 Ht3 Ht4] Hf Hi ok. revert i parity f r Hf Hi.
  induction fuel as [|fuel IH]; intros i parity f r Hf Hi Hok Hp; cbn [sample_coeffs];
    destruct (Nat.leb_spec n i).
  1, 3: (unfold mret, M_ret; intros [= <- <- <-]; replace i with n in * by lia;
    split; [done|]; split; [apply Forall_get; intros; apply Hok; lia|done]).
  { done. }
  unfold mbind, M_bind. destruct (gauss_draws zz tab 0 r) as [[v r1]|] eqn:Ed; [|done].
  apply gauss_draws_spec in Ed as (s & -> & Hs); [|done..]. rewrite sum_value by lia.
  destruct (Z.ltb_spec s (-127)); [by apply IH|]. destruct (Z.ltb_spec 127 s); [by apply IH|]. cbn [orb].
  rewrite i8_small by lia. apply IH; [by rewrite length_set|lia| |].
  - intros j Hj. destruct (decide (j = i)) as [->|].
    + rewrite get_set_eq by lia. unfold ok. lia.
    + rewrite get_set_ne by lia. apply Hok. lia.
  - cbn [zsum]. rewrite Z.lxor_spec, Hp, sum_parity, Z.odd_add, get_set_eq by lia.
    f_equal. f_equal. apply zsum_ext. intros j Hj. by rewrite get_set_ne by lia.
Qed.

Lemma sample_f_spec fuel logn f r f' r' :
  (2 <= logn)%nat -> length f = degree logn -> sample_f fuel logn f r = Some (f', r') ->
  length f' = degree logn /\ Forall (fun x => Z.abs x <= Z.min 127 (gauss_max logn)) f' /\
  Z.odd (zsum (degree logn) (get f')) = true.
Proof using.
  intros Hl Hf. unfold sample_f, gauss_max. pose proof (gauss_table_ok logn Hl) as Hok.
  destruct (gauss_table logn) as [tab zz]. generalize fuel at 1 as turns. intros turns.
  revert f r Hf. induction turns as [|turns IH]; intros f r Hf; [done|]. cbn [sample_f_loop].
  unfold mbind, M_bind.
  destruct (sample_coeffs fuel _ zz tab 0 0 f r) as [[[f1 p] r1]|] eqn:Es; [|done].
  apply sample_coeffs_spec in Es as (L1 & F1 & P1); [|done|done|lia|lia|done].
  assert ((p .>> 16) .& 1 = Z.b2z (Z.testbit p 16)) as ->.
  { rewrite Z.testbit_spec' by lia. rewrite shr_div by lia. change 1 with (Z.ones 1) at 1. by rewrite Z.land_ones. }
  rewrite P1. destruct (Z.odd (zsum (degree logn) (get f1))) eqn:Eo; cbn [Z.b2z Z.eqb negb].
  - unfold mret, M_ret. by intros [= <- <-].
  - by apply IH.
Qed.
End Sampled.

(** * The encoded key loads *)

Lemma trim_decode_prefix nbits logn f g bytes rest :
  (5 <= nbits <= 8)%nat -> (nbits * degree logn mod 8 = 0)%nat ->
  length f = degree logn -> Forall (trim_range nbits) f -> length g = degree logn ->
  bytes_bits bytes = fields nbits f -> Forall is_byte (bytes ++ rest) ->
  trim_i8_decode logn (bytes ++ rest) g nbits = Ok (length bytes, f).
Proof.
  intros Hn Hm Hf Hr Hg Hbits Hb.
  pose proof (f_equal length Hbits) as Hl. rewrite length_bytes_bits, length_fields, Hf in Hl.
  assert ((nbits * degree logn / 8 = length bytes)%nat) as Hk
    by (rewrite <- Hl, Nat.mul_comm; apply Nat.div_mul; lia).
  pose proof (trim_i8_decode_spec nbits Hn logn (bytes ++ rest) g Hg Hm Hb) as Hs.
  cbv zeta in Hs. rewrite Hk, take_app_length in Hs.
  destruct (trim_i8_decode _ _ _ _) as [[k s]|]; [|by destruct (Hs f Hf Hr)].
  destruct Hs as (-> & _ & Hls & Hrs & He). do 2 f_equal.
  apply (fields_inj_Forall nbits (trim_range nbits)); [by apply trim_range_inj|lia|done..|congruence].
Qed.

(** What the solver establishes, in the ring: f G - g F = q, hence f G = g F. *)
Definition ntru_equation (logn : nat) (f g F G : list Z) : Prop :=
  forall k, (k < degree logn)%nat ->
    nega_coeff (degree logn) (get f) (get G) k - nega_coeff (degree logn) (get g) (get F) k =
    if (k =? 0)%nat then q else 0.

Lemma ntru_mod_q logn f g F G :
  poly logn is_small f -> poly logn is_small g -> poly logn is_small F -> poly logn is_small G ->
  ntru_equation logn f g F G ->
  nega_mul logn (norm_q <$> f) (norm_q <$> G) = nega_mul logn (norm_q <$> g) (norm_q <$> F).
Proof.
  intros [Lf _] [Lg _] [LF _] [LG _] He. unfold nega_mul. apply list_fmap_ext. intros i k Hk.
  apply lookup_seq in Hk as [-> Hk]. cbn [Nat.add].
  assert (forall a b, length a = degree logn -> length b = degree logn ->
    nega_coeff (2 ^ logn) (get (norm_q <$> a)) (get (norm_q <$> b)) i ==[q]
    nega_coeff (degree logn) (get a) (get b) i) as Hn.
  { intros a b La Lb. apply nega_coeff_cong; [done|..]; intros j Hj; change (2 ^ logn)%nat with (degree logn) in Hj;
      rewrite get_fmap by lia; apply norm_q_cong. }
  apply rep_cong_eq; [apply norm_q_rep..|]. rewrite !norm_q_cong, !Hn by done.
  apply cong_iff_divide. specialize (He i Hk). rewrite He. case_match; [by exists 1|by exists 0].
Qed.

(** Cancelling a factor that is not zero modulo q. *)
Lemma cancel_q a x y : rep a -> a <> q -> a * x ==[q] a * y -> x ==[q] y.
Proof.
  intros Ha Hne He.
  assert (~ a ==[q] 0) as Ha0.
  { intros H. apply Hne. apply rep_cong_eq; [done|unfold rep, q; lia|]. rewrite H. by split. }
  pose proof (fermat_q a Ha0) as Hf. replace (q - 1) with (q - 2 + 1) in Hf by lia.
  rewrite Z.pow_add_r, Z.pow_1_r in Hf by (unfold q; lia).
  transitivity (a ^ (q - 2) * a * x); [rewrite Hf; apply cong_of_eq; lia|].
  transitivity (a ^ (q - 2) * (a * x)); [apply cong_of_eq; ring|].
  rewrite He. transitivity (a ^ (q - 2) * a * y); [apply cong_of_eq; ring|].
  rewrite Hf. apply cong_of_eq. lia.
Qed.

(** G comes out of h and F: the completion of the key succeeds on a solution of
    the equation, and finds the same G. *)
Lemma sign_complete_solution `{Shake} logn f g F G tmp :
  (logn <= 10)%nat ->
  poly logn is_small f -> poly logn is_small g -> poly logn is_small F -> poly logn is_small G ->
  ntru_equation logn f g F G -> length tmp = degree logn -> mqpoly_is_invertible logn f tmp = true ->
  let h := mqpoly_int_to_ext logn (mqpoly_ntt_to_int logn (fst (mqpoly_div_ntt logn
    (mqpoly_int_to_ntt logn (norm_q <$> g)) (mqpoly_int_to_ntt logn (norm_q <$> f))))) in
  poly logn is_ext h /\
  sign_complete logn f g F = Ok (SigningKey logn f g F G h (hash_verifying_key
    (Z.of_nat logn :: fst (modq_encode logn h (replicate (VerifyingKeySize logn - 1) 0))))).
Proof.
  intros Hn Hf Hg HF HG He Ht Hinv. cbv zeta.
  pose proof (ntru_mod_q logn f g F G Hf Hg HF HG He) as Heq.
  pose proof (small_norm_poly _ _ Hf) as Rf. pose proof (small_norm_poly _ _ Hg) as Rg.
  pose proof (small_norm_poly _ _ HF) as RF. pose proof (small_norm_poly _ _ HG) as RG.
  pose proof (proj1 (mqpoly_is_invertible_spec logn f tmp Hn (small_poly _ _ Hf) Ht) Hinv) as Hne. clear Hinv.
  unfold sign_complete. cbv zeta.
  rewrite (mqpoly_small_to_int_spec logn f), (mqpoly_small_to_int_spec logn g)
    by (first [apply small_poly; done | rewrite length_replicate; done]).
  pose proof (int_to_ntt_poly logn _ Hn Rf) as Nf. pose proof (int_to_ntt_poly logn _ Hn Rg) as Ng.
  pose proof (int_to_ntt_poly logn _ Hn RF) as NF. pose proof (int_to_ntt_poly logn _ Hn RG) as NG.
  pose proof (mqpoly_div_ntt_spec logn _ _ Ng Nf) as Hd.
  destruct (mqpoly_div_ntt _ _ _) as [c ok]. destruct Hd as (Hc & Hdiv & Hok).
  rewrite (proj2 Hok Hne). cbn [negb fst].
  rewrite (mqpoly_small_to_int_spec logn F) by (first [apply small_poly; done | apply Nf]).
  assert (mqpoly_mul_ntt logn (mqpoly_int_to_ntt logn (norm_q <$> F)) c =
          mqpoly_int_to_ntt logn (norm_q <$> G)) as ->.
  { destruct (mul_ntt_get logn _ c NF Hc) as [Hp Hget].
    apply get_ext; [by rewrite (proj1 Hp), (proj1 NG)|]. intros i Hi. rewrite (proj1 Hp) in Hi.
    rewrite Hget by done. apply rep_cong_eq; [apply norm_q_rep|by apply (poly_get logn)|].
    rewrite norm_q_cong.
    apply (cancel_q (mqpoly_int_to_ntt logn (norm_q <$> f)).[i]); [by apply (poly_get logn)|by apply Hne|].
    set (fi := (mqpoly_int_to_ntt logn (norm_q <$> f)).[i]) in *.
    transitivity (c.[i] * fi * (mqpoly_int_to_ntt logn (norm_q <$> F)).[i]); [apply cong_of_eq; ring|].
    unfold fi at 1. rewrite Hdiv by (done || by apply Hne).
    pose proof (f_equal (fun p => (mqpoly_int_to_ntt logn p).[i]) Heq) as Hi'. cbv beta in Hi'.
    rewrite <- !mul_ntt_product in Hi' by done.
    rewrite (proj2 (mul_ntt_get logn _ _ Nf NG)), (proj2 (mul_ntt_get logn _ _ Ng NF)) in Hi' by done.
    fold fi in Hi'. rewrite <- (norm_q_cong (_ * _)), <- Hi'. apply norm_q_cong. }
  rewrite ntt_to_int_to_ntt by done.
  pose proof (mqpoly_int_to_small_spec logn (norm_q <$> G) (replicate (degree logn) 0) RG
    ltac:(by rewrite length_replicate)) as Hs.
  assert (center <$> (norm_q <$> G) = G) as Hcg.
  { rewrite <- list_fmap_compose. transitivity (id <$> G); [|apply list_fmap_id].
    apply list_fmap_ext. intros i x Hx.
    assert (is_small x) as Hsx by (eapply (Forall_lookup_1 is_small); [apply HG|done]).
    unfold is_small in Hsx. simpl. rewrite center_norm_q. unfold center.
    destruct (decide (0 <= x)).
    - rewrite Z.mod_small by (unfold q; lia). by rewrite (proj2 (Z.leb_le _ _)) by lia.
    - rewrite <- (Z.mod_unique_pos x q (-1) (x + q)) by (unfold q; lia).
      rewrite (proj2 (Z.leb_gt _ _)) by (unfold q; lia). lia. }
  destruct (mqpoly_int_to_small _ _ _) as [G' okG]. destruct Hs as (LG & HG1 & HG2).
  assert (okG = true) as ->.
  { apply HG1. intros i Hi. rewrite <- get_fmap by (by rewrite (proj1 RG)). rewrite Hcg.
    pose proof (poly_get logn _ G i HG Hi) as Hx. unfold is_small in Hx. lia. }
  rewrite (HG2 eq_refl), Hcg. cbn [negb].
  pose proof (ntt_to_int_poly logn c Hn Hc) as Rh. split.
  - rewrite mqpoly_int_to_ext_spec by done. apply (poly_fmap logn _ _ _ _ Rh). intros. by apply Z.mod_pos_bound.
  - unfold hash_verifying_key. rewrite u8_small by lia. done.
Qed.

(** The private key is the header and the three fields. *)
Lemma encode_fields nbits logn f dst :
  (5 <= nbits <= 8)%nat -> (nbits * degree logn mod 8 = 0)%nat -> length f = degree logn ->
  (nbits * degree logn / 8 <= length dst)%nat ->
  exists bytes, trim_i8_encode logn f nbits dst = (bytes ++ drop (length bytes) dst, length bytes) /\
    length bytes = (nbits * degree logn / 8)%nat /\ Forall is_byte bytes /\ bytes_bits bytes = fields nbits f.
Proof.
  intros Hn Hm Hf Hd. destruct (trim_i8_encode_spec logn nbits ltac:(lia) f dst Hf Hm Hd) as (bs & -> & Hbs & Hbits).
  exists bs. split; [done|]. split; [|done].
  pose proof (f_equal length Hbits) as Hl. rewrite length_bytes_bits, length_fields, Hf in Hl.
  rewrite <- Hl, Nat.mul_comm. symmetry. apply Nat.div_mul. lia.
Qed.

(** Writing a field behind what is already there. *)
Lemma encode_step nbits logn f pre j k :
  length pre = j -> (5 <= nbits <= 8)%nat -> (nbits * degree logn mod 8 = 0)%nat -> length f = degree logn ->
  (nbits * degree logn / 8 <= k)%nat ->
  exists bytes,
    trim_i8_encode logn f nbits (drop j (pre ++ replicate k 0)) =
      (bytes ++ replicate (k - length bytes) 0, length bytes) /\
    take j (pre ++ replicate k 0) ++ bytes ++ replicate (k - length bytes) 0 =
      (pre ++ bytes) ++ replicate (k - length bytes) 0 /\
    length bytes = (nbits * degree logn / 8)%nat /\ Forall is_byte bytes /\ bytes_bits bytes = fields nbits f.
Proof.
  intros <- Hn Hm Hf Hk. rewrite drop_app_length, take_app_length.
  destruct (encode_fields nbits logn f (replicate k 0) Hn Hm Hf) as (bs & -> & Hl & Hb & Hbits).
  { by rewrite length_replicate. }
  exists bs. rewrite drop_replicate, <- app_assoc. done.
Qed.

Lemma key_sizes logn : (2 <= logn)%nat ->
  SigningKeySize logn = (1 + (nbits_fg logn * degree logn / 8) + (nbits_fg logn * degree logn / 8) + degree logn)%nat.
Proof.
  intros Hl. pose proof (degree_bytes logn (nbits_fg logn) Hl ltac:(auto)) as Hm.
  pose proof (Nat.Div0.div_mod (nbits_fg logn * degree logn) 8) as Hd. rewrite Hm in Hd.
  unfold SigningKeySize. unfold degree in *. replace logn with (2 + (logn - 2))%nat in Hd at 2 by lia.
  rewrite Nat.pow_add_r in Hd. change (2 ^ 2)%nat with 4%nat in Hd. 
  set (a := (nbits_fg logn * 2 ^ logn / 8)%nat) in *. lia.
Qed.

Lemma encode_skey logn f g F G tmp :
  (2 <= logn <= 10)%nat -> length f = degree logn -> length g = degree logn -> length F = degree logn ->
  exists bf bg bF,
    fst (encode_keypair logn f g F G tmp) = (80 + Z.of_nat logn) :: bf ++ bg ++ bF /\
    Forall is_byte (bf ++ bg ++ bF) /\
    length (bf ++ bg ++ bF) = (SigningKeySize logn - 1)%nat /\
    bytes_bits bf = fields (nbits_fg logn) f /\ bytes_bits bg = fields (nbits_fg logn) g /\
    bytes_bits bF = fields 8 F.
Proof.
  intros Hl Lf Lg LF. pose proof (nbits_fg_range logn) as Hnb. pose proof (key_sizes logn ltac:(lia)) as Hsz.
  pose proof (degree_bytes logn (nbits_fg logn) ltac:(lia) ltac:(auto)) as Hm.
  pose proof (degree_bytes logn 8 ltac:(lia) ltac:(auto)) as Hm8.
  assert (8 * degree logn / 8 = degree logn)%nat as H8 by (rewrite Nat.mul_comm; by apply Nat.div_mul).
  set (a := (nbits_fg logn * degree logn / 8)%nat) in *.
  unfold encode_keypair. cbv zeta.
  rewrite Hsz. change (1 + a + a + degree logn)%nat with (S (a + a + degree logn)).
  cbn [replicate]. change ((0 :: ?l).[0 <- ?x]) with ([x] ++ l). rewrite u8_small by lia.
  set (hd := [80 + Z.of_nat logn]).
  destruct (encode_step (nbits_fg logn) logn f hd 1 (a + a + degree logn) eq_refl Hnb Hm Lf ltac:(lia))
    as (bf & -> & -> & Hbf & Bf & Ff). fold a in Hbf.
  destruct (encode_step (nbits_fg logn) logn g (hd ++ bf) (1 + length bf) (a + a + degree logn - length bf)
    ltac:(by rewrite length_app) Hnb Hm Lg ltac:(lia))
    as (bg & -> & -> & Hbg & Bg & Fg). fold a in Hbg.
  destruct (encode_step 8 logn F ((hd ++ bf) ++ bg) (1 + length bf + length bg) (a + a + degree logn - length bf - length bg)
    ltac:(by rewrite !length_app) ltac:(lia) Hm8 LF ltac:(lia))
    as (bF & -> & -> & HbF & BF & FF). rewrite H8 in HbF.
  exists bf, bg, bF. rewrite !Forall_app, !length_app.
  destruct (mqpoly_div_ntt _ _ _) as [c ok]. destruct (modq_encode _ _ _) as [dv kv]. cbn [fst].
  replace (_ - length bF)%nat with 0%nat by lia. rewrite app_nil_r, <- !app_assoc.
  repeat (split; [done || lia|]). done.
Qed.

Lemma encode_vkey logn f g F G tmp :
  (2 <= logn <= 10)%nat -> poly logn is_small f -> poly logn is_small g -> length tmp = (2 * degree logn)%nat ->
  snd (encode_keypair logn f g F G tmp) =
  Z.of_nat logn :: fst (modq_encode logn (mqpoly_int_to_ext logn (mqpoly_ntt_to_int logn (fst (mqpoly_div_ntt logn
    (mqpoly_int_to_ntt logn (norm_q <$> g)) (mqpoly_int_to_ntt logn (norm_q <$> f))))))
    (replicate (VerifyingKeySize logn - 1) 0)).
Proof.
  intros Hl Hf Hg Ht. unfold encode_keypair. cbv zeta.
  do 3 (destruct (trim_i8_encode _ _ _ _) as [? ?]).
  rewrite (mqpoly_small_to_int_spec logn g), (mqpoly_small_to_int_spec logn f)
    by (first [apply small_poly; done | rewrite ?length_take, ?length_drop, Ht; unfold degree; lia]).
  destruct (mqpoly_div_ntt _ _ _) as [c ok]. cbn [fst].
  unfold VerifyingKeySize. change (1 + ?m)%nat with (S m). cbn [replicate].
  change ((0 :: ?l).[0 <- ?x]) with (x :: l). change (drop 1 (?x :: ?l)) with l. change (take 1 (?x :: ?l)) with [x].
  rewrite (u8_small (0 + _)) by lia. rewrite Nat.sub_succ, Nat.sub_0_r.
  by destruct (modq_encode _ _ _).
Qed.

(** Keys of a degree the table bounds: every sampled coefficient is encodable. *)
Lemma sampled_encodable logn x :
  (2 <= logn <= 10)%nat -> logn <> 6%nat -> Z.abs x <= Z.min 127 (gauss_max logn) -> trim_range (nbits_fg logn) x.
Proof.
  intros Hl H6. unfold trim_range.
  do 11 (destruct logn as [|logn]; [first [lia|match goal with |- _ -> _ < _ < ?b =>
    let v := eval vm_compute in b in change b with v; match goal with |- context [gauss_max ?n] =>
      let w := eval vm_compute in (gauss_max n) in change (gauss_max n) with w end; lia end]|]). lia.
Qed.

(** * The contracts *)

(** A key pair is usable: for f, g, F and G with coefficients in the encodable
    ranges that solve f G - g F = q, f being invertible modulo q, the private key
    is loaded by the signer with the same polynomials, G included, and the
    verifying key is the one the signer derives from it. *)
Lemma key_pair_loads `{Shake} lmin lmax logn f g F G tmp_u16 tmp :
  (2 <= lmin <= logn)%nat -> (logn <= lmax)%nat -> (lmax <= 10)%nat ->
  poly logn (trim_range (nbits_fg logn)) f -> poly logn (trim_range (nbits_fg logn)) g ->
  poly logn is_small F -> poly logn is_small G -> ntru_equation logn f g F G ->
  length tmp = degree logn -> mqpoly_is_invertible logn f tmp = true ->
  length tmp_u16 = (2 * degree logn)%nat ->
  let '(skey, vkey) := encode_keypair logn f g F G tmp_u16 in
  exists h hvk,
    sign_load lmin lmax skey = Ok (SigningKey logn f g F G h hvk) /\
    vkey = key_of (SigningKey logn f g F G h hvk) /\ hvk = hash_verifying_key vkey /\
    length skey = SigningKeySize logn /\ length vkey = VerifyingKeySize logn.
Proof.
  intros Hlmin Hle Hlmax Hf Hg HF HG He Ht Hinv Ht2. pose proof (nbits_fg_range logn) as Hnb.
  assert (forall p, poly logn (trim_range (nbits_fg logn)) p -> poly logn is_small p) as Hsm.
  { intros p [Lp Hp]. split; [done|]. eapply Forall_impl; [exact Hp|]. intros x. by apply trim_range_small. }
  pose proof (encode_vkey logn f g F G tmp_u16 ltac:(lia) (Hsm f Hf) (Hsm g Hg) Ht2) as Hvk.
  destruct (encode_skey logn f g F G tmp_u16 ltac:(lia) (proj1 Hf) (proj1 Hg) (proj1 HF))
    as (bf & bg & bF & Hsk & Hb & Hlen & Ff & Fg & FF).
  destruct (encode_keypair _ _ _ _ _ _) as [skey vkey]. cbn [fst snd] in Hvk, Hsk. subst skey vkey.
  destruct (sign_complete_solution logn f g F G tmp ltac:(lia) (Hsm f Hf) (Hsm g Hg) HF HG He Ht Hinv) as [Hh Hc].
  set (h := mqpoly_int_to_ext _ _) in *. eexists h, _. split; [|split; [|split; [reflexivity|split]]].
  - unfold sign_load. change (length (?x :: ?l) =? 0)%nat with false. cbv iota.
    change ((?x :: _).[0]) with x. destruct (header_bits 80 logn ltac:(lia) ltac:(auto)) as [-> ->].
    cbn [negb Z.eqb Pos.eqb]. cbv zeta.
    rewrite (proj2 (Nat.ltb_ge _ _)), (proj2 (Nat.ltb_ge _ _)) by lia. cbn [orb].
    assert (1 <= SigningKeySize logn)%nat by (unfold SigningKeySize; lia).
    cbn [length]. rewrite Hlen. rewrite (proj2 (Nat.eqb_eq _ _)) by lia. cbn [negb].
    assert (forall nb p bs rest, (nb = 8 \/ nb = nbits_fg logn)%nat -> poly logn (trim_range nb) p ->
      Forall is_byte (bs ++ rest) -> bytes_bits bs = fields nb p ->
      trim_i8_decode logn (bs ++ rest) (replicate (degree logn) 0) nb = Ok (length bs, p)) as Hld.
    { intros nb p bs rest Hn8 [Lp Fp] Bb Eb. apply trim_decode_prefix; try done; [lia| |].
      - apply degree_bytes; [lia|done].
      - by rewrite length_replicate. }
    change (drop 1 (?x :: ?l)) with l. rewrite (Hld _ f bf) by auto. cbn [mbind result_bind].
    change (drop (1 + ?k) (?x :: ?l)) with (drop k l). rewrite drop_app_length.
    apply Forall_app in Hb as [_ Hb]. rewrite (Hld _ g bg) by auto. cbn [mbind result_bind].
    change (drop (1 + ?k + ?m) (?x :: ?l)) with (drop (k + m) l).
    rewrite <- drop_drop, !drop_app_length. apply Forall_app in Hb as [_ Hb].
    rewrite <- (app_nil_r bF). rewrite (Hld 8%nat F bF) by (rewrite ?app_nil_r; auto). cbn [mbind result_bind].
    exact Hc.
  - done.
  - cbn [length]. rewrite Hlen. unfold SigningKeySize. lia.
  - destruct (modq_encode_spec logn h (replicate (VerifyingKeySize logn - 1) 0) ltac:(lia) (proj1 Hh) (proj2 Hh))
      as (bs & -> & Hlb & _).
    { rewrite length_replicate. unfold VerifyingKeySize. lia. }
    cbn [fst length]. rewrite length_app, length_drop, length_replicate, Hlb. unfold VerifyingKeySize. lia.
Qed.

(** ** What [keygen_inner] delivers *)

Section Delivered.
Context `{Hsh : Shake}.

(** A candidate that passed every test, with its solution. *)
Definition delivered (logn : nat) (f g F G : list Z) : Prop :=
  let ok := poly logn (fun x => Z.abs x <= Z.min 127 (gauss_max logn)) in
  ok f /\ ok g /\ mqpoly_is_invertible logn f (replicate (degree logn) 0) = true /\ ntru_solution logn f g F G.

Lemma keygen_screen_invertible logn f g tmp :
  (degree logn <= length tmp)%nat -> keygen_screen logn f g tmp = true ->
  mqpoly_is_invertible logn f (take (degree logn) tmp) = true.
Proof using.
  intros Ht. unfold keygen_screen. cbv zeta. destruct (_ <=? _); [done|].
  rewrite mqpoly_is_invertible_take by done. by destruct (mqpoly_is_invertible _ _ _).
Qed.

Lemma keygen_inner_spec turns fuel logn f0 g0 F0 G0 tmp fx tmp16 r f g F G r' :
  (2 <= logn <= 10)%nat -> length tmp = (6 * degree logn)%nat ->
  Forall (fun l => length l = degree logn) [f0; g0; F0; G0] -> tmp16 = replicate (2 * degree logn) 0 ->
  keygen_inner turns fuel logn f0 g0 F0 G0 tmp fx tmp16 r = Some ((f, g, F, G), r') -> delivered logn f g F G.
Proof using.
  intros Hl. revert f0 g0 F0 G0 tmp r. induction turns as [|turns IH]; intros f0 g0 F0 G0 tmp r Lt HL E16; [done|].
  cbn [keygen_inner]. unfold mbind, M_bind.
  pose proof HL as HL0. rewrite !Forall_cons in HL0. destruct HL0 as (Lf0 & Lg0 & LF0 & LG0 & _).
  destruct (sample_f fuel logn f0 r) as [[f1 r1]|] eqn:Ef; [|done]. apply sample_f_spec in Ef as (Lf & Rf & _); [|lia|done].
  destruct (sample_f fuel logn g0 r1) as [[g1 r2]|] eqn:Eg; [|done]. apply sample_f_spec in Eg as (Lg & Rg & _); [|lia|done].
  assert (Forall (fun l => length l = degree logn) [f1; g1; F0; G0]) as HL1 by (repeat (constructor; [congruence|]); constructor).
  destruct (keygen_screen logn f1 g1 tmp16) eqn:Es; cbn [negb]; [|by apply IH].
  destruct (check_ortho_norm logn f1 g1 fx); cbn [negb]; [|by apply IH].
  assert (forall h, Forall (fun x => Z.abs x <= Z.min 127 (gauss_max logn)) h -> Forall (fun x => -128 <= x < 128) h) as Hs.
  { intros h Hh. eapply Forall_impl; [exact Hh|]. intros x Hx. cbv beta in *. lia. }
  destruct (solve_NTRU fuel logn f1 g1 F0 G0 tmp fx) as [[[[ok F1] G1] t1]|] eqn:E; [|done]. destruct ok.
  - unfold mret, M_ret. intros [= <- <- <- <- _]. apply solve_NTRU_spec in E; try done; [|lia|by apply Hs..].
    split; [done|]. split; [done|]. split; [|done].
    apply keygen_screen_invertible in Es; [|rewrite E16, length_replicate; lia].
    rewrite E16, take_replicate in Es. by rewrite Nat.min_l in Es by lia.
  - apply solve_NTRU_lengths in E as (Lt1 & LF1 & LG1); [|done..]. apply IH; [lia| |done]. repeat (constructor; [congruence|]). constructor.
Qed.
End Delivered.

Lemma keygen_delivers `{Shake} lmin lmax fuel logn rng skey vkey :
  (2 <= lmin <= logn)%nat -> (logn <= lmax)%nat -> (lmax <= 10)%nat ->
  KeyGen fuel logn rng = Some (Ok (skey, vkey)) ->
  exists f g F G, ntru_solution logn f g F G /\ length f = degree logn /\ (logn <> 6%nat -> fits logn f g) /\ Forall is_byte skey /\
    (fits logn f g -> exists h hvk,
      sign_load lmin lmax skey = Ok (SigningKey logn f g F G h hvk) /\
      vkey = key_of (SigningKey logn f g F G h hvk) /\ hvk = hash_verifying_key vkey /\
      length skey = SigningKeySize logn /\ length vkey = VerifyingKeySize logn).
Proof.
  intros Hlmin Hle Hlmax. unfold KeyGen. destruct (_ || _); [done|]. destruct rng as [seed|e]; [|done]. cbv zeta.
  destruct (keygen_inner _ _ _ _ _ _ _ _ _ _ _) as [[[[[f g] F] G] r]|] eqn:E; [|done].
  intros He0. assert (encode_keypair logn f g F G (replicate (2 * degree logn) 0) = (skey, vkey)) as He by congruence. clear He0.
  apply keygen_inner_spec in E as ([Lf Hf] & [Lg Hg] & Hinv & HS);
    [|lia|apply length_replicate|repeat (constructor; [apply length_replicate|]); constructor|done].
  exists f, g, F, G. split; [exact HS|]. split; [exact Lf|]. split.
  - intros H6. assert (forall h, length h = degree logn -> Forall (fun x => Z.abs x <= Z.min 127 (gauss_max logn)) h ->
      poly logn (trim_range (nbits_fg logn)) h) as Ht; [|by split; apply Ht].
    intros h Lh Hh. split; [done|]. eapply Forall_impl; [exact Hh|]. intros x Hx. by apply sampled_encodable; [lia|..].
  - destruct HS as (HF & HG & Heq). split.
    { destruct (encode_skey logn f g F G (replicate (2 * degree logn) 0) ltac:(lia) Lf Lg (proj1 HF)) as (bf & bg & bF & Hsk & Hb & _).
      rewrite He in Hsk. cbn [fst] in Hsk. rewrite Hsk. constructor; [unfold is_byte; lia|done]. }
    intros [Tf Tg].
    assert (forall h, length h = (2 ^ logn)%nat /\ Forall (fun x => -127 <= x <= 127) h -> poly logn is_small h) as Hs.
    { intros h [Lh Hh]. split; [done|]. eapply Forall_impl; [exact Hh|]. intros x Hx. cbv beta in *. unfold is_small. lia. }
    pose proof (key_pair_loads lmin lmax logn f g F G (replicate (2 * degree logn) 0) (replicate (degree logn) 0)
      Hlmin Hle Hlmax Tf Tg (Hs F HF) (Hs G HG) Heq (length_replicate _ _) Hinv (length_replicate _ _)) as HK.
    by rewrite He in HK.
Qed.


(** (C35) Whatever the generator delivers, a sampled polynomial has odd parity and
    coefficients within the table's width and the int8 range; at every degree
    but 64 they fit the field width the private key gives them. *)
Theorem sample_f_valid `{Shake} fuel logn f r f' r' :
  (2 <= logn <= 10)%nat -> length f = degree logn -> sample_f fuel logn f r = Some (f', r') ->
  poly logn is_small f' /\ Z.odd (zsum (degree logn) (get f')) = true /\
  Forall (fun x => Z.abs x <= gauss_max logn) f' /\
  (logn <> 6%nat -> poly logn (trim_range (nbits_fg logn)) f').
Proof.
  intros Hl Hf Hs. apply sample_f_spec in Hs as (L & F & P); [|lia|done].
  split; [|split; [done|split]].
  - split; [done|]. eapply Forall_impl; [exact F|]. intros x Hx. cbv beta in *. unfold is_small. lia.
  - eapply Forall_impl; [exact F|]. intros x Hx. cbv beta in *. lia.
  - intros H6. split; [done|]. eapply Forall_impl; [exact F|]. intros x. by apply sampled_encodable.
Qed.

(** An output of SHAKE256 made of the 16-bit words 65400 (four times), 36000 and
    then 32768, repeated every 256 words. *)
Definition word_shake : Shake := fun _ i =>
  let w := (Z.of_nat i / 2) mod 256 in
  let y := if w <? 4 then 65400 else if w =? 4 then 36000 else 32768 in
  if Z.even (Z.of_nat i) then y mod 256 else y / 256.
#[export] Instance word_shake_laws : @ShakeLaws word_shake.
Proof.
  intros m i. unfold shake, word_shake. cbv zeta.
  destruct (_ <? 4); [|destruct (_ =? 4)]; destruct (Z.even _); vm_compute; split; congruence.
Qed.

(** At degree 64 the field is too narrow for what the table of the sampler allows:
    on this stream the sampler returns a polynomial with a coefficient 64, which
    passes the tests of [keygen_screen] (as f and as g) and whose field in the
    private key does not decode. *)
Lemma sampled_too_wide :
  exists f r e,
    @sample_f word_shake 64 6 (replicate 64 0) (newSHAKE256prng []) = Some (f, r) /\
    keygen_screen 6 f f (replicate 64 0) = true /\ f.[0] = 64 /\
    trim_i8_decode 6 (fst (trim_i8_encode 6 f (nbits_fg 6) (replicate 56 0))) (replicate 64 0) (nbits_fg 6) = Err e.
Proof.
  assert (exists r, @sample_f word_shake 64 6 (replicate 64 0) (newSHAKE256prng []) =
    Some (64 :: 1 :: replicate 62 0, r)) as [r Hr] by (eexists; vm_compute; reflexivity).
  exists (64 :: 1 :: replicate 62 0), r, "Invalid coefficient value"%string.
  split; [exact Hr|]. repeat split; vm_compute; reflexivity.
Qed.

(** ** At concrete inputs *)

Lemma sample_f_valid_witness :
  exists f r, @sample_f demo_shake 2000 6 (replicate 64 0) (newSHAKE256prng [1]) = Some (f, r) /\
    poly 6 is_small f /\ Z.odd (zsum 64 (get f)) = true /\
    Forall (fun x => Z.abs x <= gauss_max 6) f /\ (6%nat <> 6%nat -> poly 6 (trim_range (nbits_fg 6)) f).
Proof.
  assert (is_Some (@sample_f demo_shake 2000 6 (replicate 64 0) (newSHAKE256prng [1]))) as [[f r] Hf]
    by (vm_compute; eexists; reflexivity).
  exists f, r. split; [exact Hf|].
  apply (@sample_f_valid demo_shake 2000 6 (replicate 64 0) (newSHAKE256prng [1]) f r); [lia|reflexivity|exact Hf].
Defined.

(** A stream that makes the sampler draw given coefficients of degree 4: 64 words
    a coefficient, as many of them one step away from the middle as it says. *)
Definition coeff_shake (cs : list Z) : Shake := fun _ i =>
  let w := Z.of_nat i / 2 in
  let c := cs.[Z.to_nat (w / 64)] in
  let y := if w mod 64 <? Z.abs c then (if 0 <? c then 36000 else 30000) else 32768 in
  if Z.even (Z.of_nat i) then y mod 256 else y / 256.
Definition small_f : list Z := [-49; 15; 40; -21].
Definition small_g : list Z := [-53; -3; 19; 44].

