(* ===== verification/Text.v ===== *)
(** Go strings: bytes, UTF-8, base64url and decimal numbers.

    A Go [string], and a [[]byte] of the JWT code, is the Coq [string] of its
    bytes.  The file holds what the JWT packages use of the standard library's
    [strings], [unicode/utf8], [strconv] and [encoding/base64], with the round
    trips those uses rely on. *)
From Stdlib Require Import ZArith Lia Ascii String.
From stdpp Require Import base numbers list strings option.
From S2P Require Import Prelude.
Local Open Scope Z_scope.

(** * Bytes *)

Definition byte_of (c : ascii) : Z := Z.of_N (N_of_ascii c).
Definition chr (z : Z) : ascii := ascii_of_N (Z.to_N z).

Lemma byte_of_range c : 0 <= byte_of c < 256.
Proof. unfold byte_of. pose proof (N_ascii_bounded c). lia. Qed.

Lemma chr_byte_of c : chr (byte_of c) = c.
Proof. unfold chr, byte_of. rewrite N2Z.id. apply ascii_N_embedding. Qed.

Lemma byte_of_chr z : 0 <= z < 256 -> byte_of (chr z) = z.
Proof. intros. unfold chr, byte_of. rewrite N_ascii_embedding by lia. lia. Qed.

Lemma byte_of_inj c d : byte_of c = byte_of d -> c = d.
Proof. intros H. by rewrite <- (chr_byte_of c), <- (chr_byte_of d), H. Qed.

(** The byte slice of a string and back. *)
Fixpoint to_bytes (s : string) : list Z :=
  match s with EmptyString => [] | String c s' => byte_of c :: to_bytes s' end.
Fixpoint of_bytes (l : list Z) : string :=
  match l with [] => EmptyString | b :: l' => String (chr b) (of_bytes l') end.

Lemma of_to_bytes s : of_bytes (to_bytes s) = s.
Proof. induction s as [|c s IH]; [done|]. cbn. by rewrite chr_byte_of, IH. Qed.

Lemma to_of_bytes l : Forall (fun b => 0 <= b < 256) l -> to_bytes (of_bytes l) = l.
Proof. induction 1 as [|b l Hb Hl IH]; [done|]. cbn. by rewrite byte_of_chr, IH. Qed.

Lemma to_bytes_range s : Forall (fun b => 0 <= b < 256) (to_bytes s).
Proof. induction s; constructor; auto using byte_of_range. Qed.

Definition quote : ascii := chr 34.
Definition backslash : ascii := chr 92.

#[global] Arguments String.append !_ _ / : simpl nomatch.

Lemma append_assoc (a b c : string) : ((a ++ b) ++ c = a ++ (b ++ c))%string.
Proof. induction a as [|x a IH]; [done|]. cbn. by rewrite IH. Qed.

Lemma append_nil_r (a : string) : (a ++ "" = a)%string.
Proof. induction a as [|x a IH]; [done|]. cbn. by rewrite IH. Qed.

Lemma length_append (a b : string) : String.length (a ++ b) = (String.length a + String.length b)%nat.
Proof. induction a as [|x a IH]; [done|]. cbn. by rewrite IH. Qed.

(** [P] holds of every byte of a string. *)
Fixpoint string_all (P : ascii -> bool) (s : string) : bool :=
  match s with EmptyString => true | String c s' => P c && string_all P s' end.

Lemma string_all_append P a b : string_all P (a ++ b) = string_all P a && string_all P b.
Proof. induction a as [|x a IH]; [done|]. cbn. by rewrite IH, andb_assoc. Qed.

Lemma string_all_impl (P Q : ascii -> bool) s :
  (forall c, P c = true -> Q c = true) -> string_all P s = true -> string_all Q s = true.
Proof.
  intros HPQ. induction s as [|c s IH]; [done|]. cbn. intros [Hc Hs]%andb_prop.
  by rewrite (HPQ c Hc), IH.
Qed.

(** A property of all 256 bytes is decided by trying them. *)
Definition all_bytes (P : ascii -> bool) : bool := forallb (fun n => P (ascii_of_nat n)) (List.seq 0 256).

Lemma all_bytes_spec P c : all_bytes P = true -> P c = true.
Proof.
  unfold all_bytes. rewrite forallb_forall. intros H. rewrite <- (ascii_nat_embedding c). apply H.
  apply in_seq. pose proof (nat_ascii_bounded c). lia.
Qed.

(** ** strings.Cut with a one-byte separator *)

Fixpoint cut (sep : ascii) (s : string) : option (string * string) :=
  match s with
  | EmptyString => None
  | String c s' =>
      if Ascii.eqb c sep then Some (EmptyString, s')
      else match cut sep s' with
           | Some (before, after) => Some (String c before, after)
           | None => None
           end
  end.

Definition free_of (sep : ascii) (s : string) : bool := string_all (fun c => negb (Ascii.eqb c sep)) s.

Lemma cut_spec sep s a b : cut sep s = Some (a, b) <-> s = (a ++ String sep b)%string /\ free_of sep a = true.
Proof.
  unfold free_of. revert a b. induction s as [|c s IH]; intros a b; cbn [cut].
  { split; [done|]. intros [H _]. by destruct a. }
  destruct (Ascii.eqb_spec c sep) as [->|Hne].
  - split; [by intros [= <- <-]|]. destruct a as [|x a]; cbn; [by intros [[= ->] _]|].
    intros [[= <- _] Hf]. by rewrite Ascii.eqb_refl in Hf.
  - assert (forall a' b', cut sep s = Some (a', b') <->
      String c s = (String c a' ++ String sep b')%string /\ free_of sep (String c a') = true) as Hc.
    { intros a' b'. rewrite IH. cbn. unfold free_of. cbn. rewrite (proj2 (Ascii.eqb_neq _ _) Hne). cbn.
      split; [by intros [-> ?]|]. by intros [[= ->] ?]. }
    destruct a as [|x a].
    + split; [by destruct (cut sep s) as [[]|]|]. cbn. by intros [[= -> _] _].
    + split.
      * destruct (cut sep s) as [[a' b']|] eqn:E; [|done]. intros [= <- <- <-]. by apply Hc.
      * intros [Hs Ha]. pose proof Hs as [= <- _]. by rewrite (proj2 (Hc a b) (conj Hs Ha)).
Qed.

Lemma cut_none sep s : cut sep s = None <-> free_of sep s = true.
Proof.
  induction s as [|c s IH]; [done|]. cbn. destruct (Ascii.eqb c sep); [done|].
  destruct (cut sep s) as [[]|]; cbn; intuition congruence.
Qed.

(** * Base64, URL alphabet *)

Definition b64_char (v : Z) : ascii :=
  chr (if v <? 26 then 65 + v else if v <? 52 then 71 + v else if v <? 62 then v - 4
       else if v =? 62 then 45 else 95).

Definition b64_val (c : ascii) : option Z :=
  let b := byte_of c in
  if (65 <=? b) && (b <=? 90) then Some (b - 65)
  else if (97 <=? b) && (b <=? 122) then Some (b - 71)
  else if (48 <=? b) && (b <=? 57) then Some (b + 4)
  else if b =? 45 then Some 62 else if b =? 95 then Some 63 else None.

(** [base64.RawURLEncoding.EncodeToString] *)
Fixpoint b64_encode (s : string) : string :=
  match s with
  | EmptyString => EmptyString
  | String a EmptyString =>
      let x := byte_of a in
      String (b64_char (x / 4)) (String (b64_char (x mod 4 * 16)) EmptyString)
  | String a (String b EmptyString) =>
      let x := byte_of a in let y := byte_of b in
      String (b64_char (x / 4)) (String (b64_char (x mod 4 * 16 + y / 16))
        (String (b64_char (y mod 16 * 4)) EmptyString))
  | String a (String b (String c s')) =>
      let x := byte_of a in let y := byte_of b in let z := byte_of c in
      String (b64_char (x / 4)) (String (b64_char (x mod 4 * 16 + y / 16))
        (String (b64_char (y mod 16 * 4 + z / 64)) (String (b64_char (z mod 64)) (b64_encode s'))))
  end.

(** The decoder ignores carriage returns and line feeds everywhere. *)
Fixpoint strip_newlines (s : string) : string :=
  match s with
  | EmptyString => EmptyString
  | String c s' =>
      if (byte_of c =? 10) || (byte_of c =? 13) then strip_newlines s' else String c (strip_newlines s')
  end.

(** The quanta of four characters; [pad] selects the padded encoding and
    [strict] asks for zero trailing bits. *)
Fixpoint b64_quanta (pad strict : bool) (s : string) : option string :=
  let loose (bits : Z) := negb strict || (bits =? 0) in
  match s with
  | EmptyString => Some EmptyString
  | String a (String b (String c (String d s'))) =>
      va ← b64_val a; vb ← b64_val b;
      if pad && (byte_of c =? 61) then
        if (byte_of d =? 61) && String.eqb s' "" && loose (vb mod 16)
        then Some (String (chr (va * 4 + vb / 16)) "") else None
      else
        vc ← b64_val c;
        if pad && (byte_of d =? 61) then
          if String.eqb s' "" && loose (vc mod 4)
          then Some (String (chr (va * 4 + vb / 16)) (String (chr (vb mod 16 * 16 + vc / 4)) "")) else None
        else
          vd ← b64_val d; rest ← b64_quanta pad strict s';
          Some (String (chr (va * 4 + vb / 16)) (String (chr (vb mod 16 * 16 + vc / 4))
            (String (chr (vc mod 4 * 64 + vd)) rest)))
  | String a (String b (String c EmptyString)) =>
      if pad then None else
      va ← b64_val a; vb ← b64_val b; vc ← b64_val c;
      if loose (vc mod 4)
      then Some (String (chr (va * 4 + vb / 16)) (String (chr (vb mod 16 * 16 + vc / 4)) "")) else None
  | String a (String b EmptyString) =>
      if pad then None else
      va ← b64_val a; vb ← b64_val b;
      if loose (vb mod 16) then Some (String (chr (va * 4 + vb / 16)) "") else None
  | String _ EmptyString => None
  end.

Definition b64_decode (pad strict : bool) (s : string) : option string :=
  b64_quanta pad strict (strip_newlines s).

(** ** Facts on the alphabet *)

(** A statement on a 6-bit value is decided by trying the 64 of them. *)
Lemma sextet (P : Z -> bool) v :
  forallb (fun n => P (Z.of_nat n)) (List.seq 0 64) = true -> 0 <= v < 64 -> P v = true.
Proof.
  rewrite forallb_forall. intros H Hv. rewrite <- (Z2Nat.id v) by lia. apply H. apply in_seq. lia.
Qed.

Lemma b64_val_char v : 0 <= v < 64 -> b64_val (b64_char v) = Some v.
Proof.
  intros Hv.
  pose proof (sextet (fun v => match b64_val (b64_char v) with Some w => w =? v | None => false end) v
    ltac:(vm_compute; reflexivity) Hv) as H. cbv beta in H.
  destruct (b64_val (b64_char v)) as [w|]; [|done]. by apply Z.eqb_eq in H as ->.
Qed.

(** The characters of the alphabet: letters, digits, [-] and [_]. *)
Definition b64_alphabet (c : ascii) : bool := match b64_val c with Some _ => true | None => false end.

Lemma b64_char_alphabet v : 0 <= v < 64 -> b64_alphabet (b64_char v) = true.
Proof. intros. unfold b64_alphabet. by rewrite b64_val_char. Qed.

Lemma b64_alphabet_plain c :
  b64_alphabet c = true -> byte_of c <> 10 /\ byte_of c <> 13 /\ byte_of c <> 61 /\ byte_of c <> 46.
Proof.
  unfold b64_alphabet, b64_val. intros H.
  repeat split; intros Hb; rewrite Hb in H; vm_compute in H; discriminate.
Qed.

Lemma byte_split x : 0 <= x < 256 ->
  0 <= x / 4 < 64 /\ 0 <= x mod 4 * 16 < 64 /\ 0 <= x / 16 < 16 /\ 0 <= x mod 16 * 4 < 64 /\
  0 <= x / 64 < 4 /\ 0 <= x mod 64 < 64.
Proof. intros. Z.to_euclidean_division_equations. lia. Qed.

(** Induction three bytes at a time. *)
Lemma string_ind3 (P : string -> Prop) :
  P ""%string -> (forall a, P (String a "")) -> (forall a b, P (String a (String b ""))) ->
  (forall a b c s, P s -> P (String a (String b (String c s)))) -> forall s, P s.
Proof.
  intros H0 H1 H2 H3. fix F 1. intros [|a [|b [|c s]]]; [exact H0|exact (H1 a)|exact (H2 a b)|].
  exact (H3 a b c s (F s)).
Qed.

Ltac b64_bytes :=
  repeat match goal with
  | |- context [byte_of ?c] =>
      lazymatch goal with
      | _ : 0 <= byte_of c < 256 |- _ => fail
      | _ => pose proof (byte_of_range c); pose proof (byte_split _ (byte_of_range c))
      end
  end.

Lemma b64_encode_alphabet s : string_all b64_alphabet (b64_encode s) = true.
Proof.
  induction s as [|a|a b|a b c s IH] using string_ind3; cbn; [done|..]; b64_bytes;
    rewrite ?IH, !b64_char_alphabet by lia; done.
Qed.

Lemma b64_length s : String.length (b64_encode s) = ((4 * String.length s + 2) / 3)%nat.
Proof.
  induction s as [|a|a b|a b c s IH] using string_ind3; [done..|]. cbn [b64_encode String.length].
  rewrite IH. replace (4 * S (S (S (String.length s))) + 2)%nat with (4 * String.length s + 2 + 4 * 3)%nat by lia.
  rewrite Nat.div_add by lia. lia.
Qed.

Lemma strip_newlines_alphabet s :
  string_all b64_alphabet s = true -> strip_newlines s = s.
Proof.
  induction s as [|c s IH]; [done|]. cbn. intros [Hc Hs]%andb_prop.
  destruct (b64_alphabet_plain c Hc) as (H1 & H2 & _ & _).
  rewrite (proj2 (Z.eqb_neq _ _) H1), (proj2 (Z.eqb_neq _ _) H2). cbn. by rewrite IH.
Qed.

(** Putting the sextets of one, two or three bytes together again. *)
Lemma join1 x : 0 <= x < 256 -> x / 4 * 4 + x mod 4 * 16 / 16 = x.
Proof. intros. Z.to_euclidean_division_equations. lia. Qed.
Lemma join2 x y : 0 <= x < 256 -> 0 <= y < 256 ->
  x / 4 * 4 + (x mod 4 * 16 + y / 16) / 16 = x /\
  (x mod 4 * 16 + y / 16) mod 16 * 16 + y mod 16 * 4 / 4 = y.
Proof. intros. Z.to_euclidean_division_equations. lia. Qed.
Lemma join3 x y z : 0 <= x < 256 -> 0 <= y < 256 -> 0 <= z < 256 ->
  (x mod 4 * 16 + y / 16) mod 16 * 16 + (y mod 16 * 4 + z / 64) / 4 = y /\
  (y mod 16 * 4 + z / 64) mod 4 * 64 + z mod 64 = z.
Proof. intros. Z.to_euclidean_division_equations. lia. Qed.

Lemma b64_char_plain v : 0 <= v < 64 -> (byte_of (b64_char v) =? 61) = false.
Proof. intros Hv. apply Z.eqb_neq, b64_alphabet_plain, b64_char_alphabet, Hv. Qed.

(** Decoding the encoding gives the bytes back, padded ([=] characters
    appended) or not, strictly or not. *)
Definition b64_pad (s : string) : string :=
  let l := (String.length s mod 4)%nat in
  if (0 <? l)%nat then (s ++ of_bytes (replicate (4 - l) 61))%string else s.

Lemma b64_quanta_encode strict s : b64_quanta false strict (b64_encode s) = Some s.
Proof.
  induction s as [|a|a b|a b c s IH] using string_ind3; cbn [b64_encode]; cbv zeta; [done|..]; b64_bytes;
    cbn [b64_quanta andb]; rewrite !b64_val_char by lia; cbn [mbind option_bind].
  - rewrite Z_mod_mult, orb_true_r, join1 by lia. by rewrite chr_byte_of.
  - rewrite Z_mod_mult, orb_true_r. destruct (join2 (byte_of a) (byte_of b)) as [-> ->]; [lia..|].
    by rewrite !chr_byte_of.
  - rewrite IH. cbn [mbind option_bind]. destruct (join2 (byte_of a) (byte_of b)) as [-> _]; [lia..|].
    destruct (join3 (byte_of a) (byte_of b) (byte_of c)) as [-> ->]; [lia..|]. by rewrite !chr_byte_of.
Qed.

Lemma b64_pad_4 a b c d s :
  b64_pad (String a (String b (String c (String d s)))) = String a (String b (String c (String d (b64_pad s)))).
Proof.
  unfold b64_pad. cbn [String.length].
  replace (S (S (S (S (String.length s)))) mod 4)%nat with (String.length s mod 4)%nat.
  - by destruct (0 <? _)%nat.
  - replace (S (S (S (S (String.length s))))) with (String.length s + 1 * 4)%nat by lia.
    by rewrite Nat.Div0.mod_add.
Qed.

Lemma b64_quanta_padded strict s : b64_quanta true strict (b64_pad (b64_encode s)) = Some s.
Proof.
  induction s as [|a|a b|a b c s IH] using string_ind3; cbn [b64_encode]; cbv zeta; [done|..]; b64_bytes.
  - change (b64_pad (String ?x (String ?y ""))) with (String x (String y (String (chr 61) (String (chr 61) "")))).
    cbn [b64_quanta]. rewrite !b64_val_char by lia. cbn [mbind option_bind].
    rewrite Z_mod_mult, orb_true_r, join1 by lia. by rewrite chr_byte_of.
  - change (b64_pad (String ?x (String ?y (String ?z "")))) with (String x (String y (String z (String (chr 61) "")))).
    cbn [b64_quanta]. rewrite !b64_char_plain by lia. rewrite !b64_val_char by lia. cbn [mbind option_bind andb].
    rewrite Z_mod_mult, orb_true_r. destruct (join2 (byte_of a) (byte_of b)) as [-> ->]; [lia..|].
    by rewrite !chr_byte_of.
  - rewrite b64_pad_4. cbn [b64_quanta]. rewrite !b64_char_plain by lia.
    rewrite !b64_val_char by lia. cbn [mbind option_bind andb]. rewrite IH. cbn [mbind option_bind].
    destruct (join2 (byte_of a) (byte_of b)) as [-> _]; [lia..|].
    destruct (join3 (byte_of a) (byte_of b) (byte_of c)) as [-> ->]; [lia..|]. by rewrite !chr_byte_of.
Qed.

Lemma strip_newlines_pad s :
  string_all b64_alphabet s = true -> strip_newlines (b64_pad s) = b64_pad s.
Proof.
  intros Hs. unfold b64_pad. destruct (0 <? _)%nat; [|by apply strip_newlines_alphabet].
  revert Hs. generalize (4 - String.length s mod 4)%nat as n. intros n.
  induction s as [|c s IH]; cbn.
  - intros _. induction n as [|n IHn]; [done|]. cbn. by rewrite IHn.
  - intros [Hc Hs]%andb_prop. destruct (b64_alphabet_plain c Hc) as (H1 & H2 & _ & _).
    rewrite (proj2 (Z.eqb_neq _ _) H1), (proj2 (Z.eqb_neq _ _) H2). cbn. by rewrite IH.
Qed.

(** * UTF-8 *)

Definition cont (b : Z) : bool := (128 <=? b) && (b <=? 191).

(** [utf8.DecodeRune]: the first code point and its size, [None] for the
    ill-formed sequences (and for the empty string). *)
Definition decode_rune (s : string) : option (Z * nat) :=
  match s with
  | EmptyString => None
  | String c0 s1 =>
      let b0 := byte_of c0 in
      if b0 <? 128 then Some (b0, 1%nat) else
      match s1 with
      | EmptyString => None
      | String c1 s2 =>
          let b1 := byte_of c1 in
          if negb (cont b1) then None else
          if (194 <=? b0) && (b0 <=? 223) then Some ((b0 - 192) * 64 + (b1 - 128), 2%nat) else
          match s2 with
          | EmptyString => None
          | String c2 s3 =>
              let b2 := byte_of c2 in
              if negb (cont b2) then None else
              if (224 <=? b0) && (b0 <=? 239) then
                let r := (b0 - 224) * 4096 + (b1 - 128) * 64 + (b2 - 128) in
                if (r <? 2048) || ((55296 <=? r) && (r <=? 57343)) then None else Some (r, 3%nat)
              else
              match s3 with
              | EmptyString => None
              | String c3 _ =>
                  let b3 := byte_of c3 in
                  if negb (cont b3) then None else
                  if (240 <=? b0) && (b0 <=? 244) then
                    let r := (b0 - 240) * 262144 + (b1 - 128) * 4096 + (b2 - 128) * 64 + (b3 - 128) in
                    if (r <? 65536) || (1114111 <? r) then None else Some (r, 4%nat)
                  else None
              end
          end
      end
  end.

(** [utf8.EncodeRune]: surrogates and values out of range become U+FFFD. *)
Definition rune_error : string := of_bytes [239; 191; 189].
Definition encode_rune (r : Z) : string :=
  if (0 <=? r) && (r <? 128) then of_bytes [r]
  else if (0 <=? r) && (r <? 2048) then of_bytes [192 + r / 64; 128 + r mod 64]
  else if (r <? 0) || (1114111 <? r) || ((55296 <=? r) && (r <=? 57343)) then rune_error
  else if r <? 65536 then of_bytes [224 + r / 4096; 128 + r / 64 mod 64; 128 + r mod 64]
  else of_bytes [240 + r / 262144; 128 + r / 4096 mod 64; 128 + r / 64 mod 64; 128 + r mod 64].

(** Well-formed UTF-8; [k] counts the continuation bytes still to come. *)
Fixpoint valid_utf8_from (k : nat) (s : string) : bool :=
  match s with
  | EmptyString => (k =? 0)%nat
  | String c s' =>
      match k with
      | S k' => valid_utf8_from k' s'
      | O => match decode_rune s with
             | Some (_, n) => valid_utf8_from (n - 1) s'
             | None => false
             end
      end
  end.
Definition valid_utf8 (s : string) : bool := valid_utf8_from 0 s.

(** * Decimal integers *)

Fixpoint print_digits (fuel : nat) (n : Z) (acc : string) : string :=
  match fuel with
  | O => acc
  | S fuel' =>
      let acc' := String (chr (48 + n mod 10)) acc in
      if n <? 10 then acc' else print_digits fuel' (n / 10) acc'
  end.

(** [strconv.FormatInt(n, 10)] *)
Definition format_int (n : Z) : string :=
  let digits := print_digits (S (Z.to_nat (Z.log2 (Z.abs n)))) (Z.abs n) "" in
  if n <? 0 then String (chr 45) digits else digits.

Definition is_digit (c : ascii) : bool := (48 <=? byte_of c) && (byte_of c <=? 57).

(** The leading digits and the rest. *)
Fixpoint take_digits (s : string) : string * string :=
  match s with
  | EmptyString => (EmptyString, EmptyString)
  | String c s' =>
      if is_digit c then let '(d, rest) := take_digits s' in (String c d, rest) else (EmptyString, s)
  end.

Fixpoint digits_val (acc : Z) (s : string) : Z :=
  match s with EmptyString => acc | String c s' => digits_val (acc * 10 + (byte_of c - 48)) s' end.

Lemma byte_digit n : byte_of (chr (48 + n mod 10)) = 48 + n mod 10.
Proof. apply byte_of_chr. pose proof (Z.mod_pos_bound n 10). lia. Qed.

Lemma digit_is_digit n : is_digit (chr (48 + n mod 10)) = true.
Proof.
  unfold is_digit. rewrite byte_digit. pose proof (Z.mod_pos_bound n 10 ltac:(lia)).
  apply andb_true_iff. split; apply Z.leb_le; lia.
Qed.

(** With enough fuel the digits printed are those of [n], in front of [acc]. *)
Lemma print_digits_spec fuel n acc :
  0 <= n < 2 ^ Z.of_nat fuel -> (0 < fuel)%nat ->
  exists d, print_digits fuel n acc = (d ++ acc)%string /\ d <> ""%string /\
    string_all is_digit d = true /\ forall a, exists k, digits_val a d = a * 10 ^ k + n /\ 0 <= k.
Proof.
  revert n acc. induction fuel as [|fuel IH]; intros n acc Hn Hf; [lia|]. cbn [print_digits].
  destruct (Z.ltb_spec n 10) as [Hlt|Hge].
  - exists (String (chr (48 + n mod 10)) ""). split; [done|]. split; [done|]. split.
    + cbn. by rewrite digit_is_digit.
    + intros a. exists 1. cbn [digits_val]. rewrite byte_digit, Z.mod_small by lia. lia.
  - assert (0 < fuel)%nat by (destruct fuel; [change (2 ^ Z.of_nat 1) with 2 in Hn; lia|lia]).
    rewrite Nat2Z.inj_succ, Z.pow_succ_r in Hn by lia.
    destruct (IH (n / 10) (String (chr (48 + n mod 10)) acc)) as (d & -> & Hne & Hd & Hv).
    { split; [apply Z.div_pos; lia|]. apply Z.div_lt_upper_bound; lia. }
    { done. }
    exists (d ++ String (chr (48 + n mod 10)) "")%string.
    split; [by rewrite append_assoc|]. split; [by destruct d|]. split.
    + rewrite string_all_append, Hd. cbn. by rewrite digit_is_digit.
    + intros a. destruct (Hv a) as (k & Hk & Hk0). exists (k + 1). split; [|lia].
      assert (forall x y b, digits_val b (x ++ y) = digits_val (digits_val b x) y) as Happ.
      { intros x y. induction x as [|c x IHx]; intros b; [done|]. cbn. apply IHx. }
      rewrite Happ, Hk. cbn [digits_val]. rewrite byte_digit, Z.pow_add_r, Z.pow_1_r by lia.
      pose proof (Z.div_mod n 10 ltac:(lia)). lia.
Qed.

Lemma format_int_nonneg n : 0 <= n ->
  format_int n <> ""%string /\ string_all is_digit (format_int n) = true /\ digits_val 0 (format_int n) = n.
Proof.
  intros Hn. unfold format_int. rewrite (proj2 (Z.ltb_ge n 0)), Z.abs_eq by lia.
  destruct (print_digits_spec (S (Z.to_nat (Z.log2 n))) n "") as (d & -> & Hne & Hd & Hv).
  - split; [done|]. rewrite Nat2Z.inj_succ, Z2Nat.id by apply Z.log2_nonneg.
    destruct (decide (n = 0)) as [->|]; [done|]. apply Z.log2_spec. lia.
  - lia.
  - rewrite append_nil_r. split; [done|]. split; [done|]. destruct (Hv 0) as (k & -> & _). lia.
Qed.

(** A printed number does not start with a superfluous zero. *)
Lemma print_digits_lead fuel n acc :
  0 < n < 2 ^ Z.of_nat fuel -> exists c t, print_digits fuel n acc = String c t /\ byte_of c <> 48.
Proof.
  revert n acc. induction fuel as [|fuel IH]; intros n acc Hn; [lia|]. cbn [print_digits].
  destruct (Z.ltb_spec n 10) as [Hlt|Hge].
  - eexists _, _. split; [done|]. rewrite byte_digit, Z.mod_small by lia. lia.
  - rewrite Nat2Z.inj_succ, Z.pow_succ_r in Hn by lia. apply IH. split.
    + apply Z.div_str_pos. lia.
    + apply Z.div_lt_upper_bound; lia.
Qed.

Lemma format_int_lead n : 0 < n -> exists c t, format_int n = String c t /\ byte_of c <> 48.
Proof.
  intros Hn. unfold format_int. rewrite (proj2 (Z.ltb_ge n 0)), Z.abs_eq by lia.
  apply print_digits_lead. split; [done|]. rewrite Nat2Z.inj_succ, Z2Nat.id by apply Z.log2_nonneg.
  apply Z.log2_spec. lia.
Qed.

Lemma take_digits_all d rest :
  string_all is_digit d = true ->
  match rest with EmptyString => True | String c _ => is_digit c = false end ->
  take_digits (d ++ rest) = (d, rest).
Proof.
  intros Hd Hrest. induction d as [|c d IH]; cbn.
  - destruct rest as [|c rest]; [done|]. cbn. by rewrite Hrest.
  - cbn in Hd. apply andb_prop in Hd as [-> Hd]. by rewrite (IH Hd).
Qed.
