(* ===== verification/Json.v ===== *)
(** JSON as [encoding/json] reads and writes it.

    A document is parsed to a [json] value whose numbers are still lexemes
    ([unmarshal], and [decode_first] for a [json.Decoder], which leaves what
    follows the first value alone) and printed by [marshal].  The parser takes
    fuel; [document_fuel] characters of it are always enough
    ([value_fuel_enough]).  Numbers become float64 values in [parse_float]. *)
From Stdlib Require Import ZArith Lia Ascii String.
From stdpp Require Import base numbers list strings option.
From S2P Require Import Prelude Text.
Local Open Scope Z_scope.

(** * Values *)

Unset Elimination Schemes.
Inductive json :=
  | JNull
  | JBool (b : bool)
  | JNum (lexeme : string)
  | JStr (s : string)
  | JArr (vs : list json)
  | JObj (members : list (string * json)).
Set Elimination Schemes.

Section Induction.
Variable P : json -> Prop.
Hypothesis Hnull : P JNull.
Hypothesis Hbool : forall b, P (JBool b).
Hypothesis Hnum : forall l, P (JNum l).
Hypothesis Hstr : forall s, P (JStr s).
Hypothesis Harr : forall vs, Forall P vs -> P (JArr vs).
Hypothesis Hobj : forall ms, Forall (fun m => P (snd m)) ms -> P (JObj ms).

Definition json_ind : forall v, P v :=
  fix F v := match v with
  | JNull => Hnull
  | JBool b => Hbool b
  | JNum l => Hnum l
  | JStr s => Hstr s
  | JArr vs => Harr vs ((fix G (vs : list json) : Forall P vs := match vs return Forall P vs with
      | [] => @List.Forall_nil _ _
      | v :: vs' => @List.Forall_cons _ _ _ _ (F v) (G vs') end) vs)
  | JObj ms => Hobj ms ((fix G (ms : list (string * json)) : Forall (fun m => P (snd m)) ms := match ms return Forall (fun m => P (snd m)) ms with
      | [] => @List.Forall_nil _ _
      | m :: ms' => @List.Forall_cons _ _ _ _ (F (snd m)) (G ms') end) ms)
  end.
End Induction.

(** * Reading *)

Definition is_space (c : ascii) : bool :=
  let b := byte_of c in (b =? 32) || (b =? 9) || (b =? 10) || (b =? 13).

Fixpoint skip_ws (s : string) : string :=
  match s with String c s' => if is_space c then skip_ws s' else s | EmptyString => EmptyString end.

(** ** Numbers *)

Definition is_char (b : Z) (c : ascii) : bool := byte_of c =? b.

(** The longest number at the head of the input, and what follows it. *)
Definition scan_int (s : string) : option (string * string) :=
  match s with
  | String c s' =>
      if is_char 48 c then Some (String c "", s')
      else if is_digit c then Some (take_digits s) else None
  | EmptyString => None
  end.

Definition scan_frac (s : string) : option (string * string) :=
  match s with
  | String c s' =>
      if is_char 46 c then
        match take_digits s' with (EmptyString, _) => None | (d, r) => Some (d, r) end
      else Some (EmptyString, s)
  | EmptyString => Some (EmptyString, s)
  end.

Definition scan_exp (s : string) : option (Z * string * string) :=
  match s with
  | String c s' =>
      if is_char 101 c || is_char 69 c then
        let '(sign, lex, s'') := match s' with
          | String d r => if is_char 43 d then (1, String d "", r)
                          else if is_char 45 d then (-1, String d "", r) else (1, EmptyString, s')
          | EmptyString => (1, EmptyString, s') end in
        match take_digits s'' with
        | (EmptyString, _) => None
        | (d, r) => Some (sign * digits_val 0 d, String c (lex ++ d), r)
        end
      else Some (0, EmptyString, s)
  | EmptyString => Some (0, EmptyString, s)
  end.

(** A decimal: sign, digits and the power of ten they are scaled by. *)
Record decimal := Decimal { dec_neg : bool; dec_mant : Z; dec_exp : Z }.

Definition scan_number (s : string) : option (decimal * string * string) :=
  let '(neg, sign, s1) := match s with
    | String c s' => if is_char 45 c then (true, String c "", s') else (false, EmptyString, s)
    | EmptyString => (false, EmptyString, s) end in
  '(i, s2) ← scan_int s1;
  '(f, s3) ← scan_frac s2;
  '(e, elex, s4) ← scan_exp s3;
  let flex := match f with EmptyString => EmptyString | _ => String (chr 46) f end in
  Some (Decimal neg (digits_val 0 (i ++ f)) (e - Z.of_nat (String.length f)),
        (sign ++ i ++ flex ++ elex)%string, s4).

(** [isValidNumber] *)
Definition is_valid_number (s : string) : bool :=
  match scan_number s with Some (_, _, EmptyString) => true | _ => false end.

(** ** Strings *)

Definition hex_val (c : ascii) : option Z :=
  let b := byte_of c in
  if (48 <=? b) && (b <=? 57) then Some (b - 48)
  else if (97 <=? b) && (b <=? 102) then Some (b - 87)
  else if (65 <=? b) && (b <=? 70) then Some (b - 55) else None.

Definition hex4 (a b c d : ascii) : option Z :=
  va ← hex_val a; vb ← hex_val b; vc ← hex_val c; vd ← hex_val d;
  Some (((va * 16 + vb) * 16 + vc) * 16 + vd).

Definition is_surrogate (r : Z) : bool := (55296 <=? r) && (r <=? 57343).
(** [utf16.DecodeRune] on a high and a low half. *)
Definition join_surrogates (r1 r2 : Z) : option Z :=
  if ((55296 <=? r1) && (r1 <=? 56319)) && ((56320 <=? r2) && (r2 <=? 57343))
  then Some ((r1 - 55296) * 1024 + (r2 - 56320) + 65536) else None.

(** The one-character escapes. *)
Definition simple_escape (c : ascii) : option Z :=
  let b := byte_of c in
  if (b =? 34) || (b =? 92) || (b =? 47) then Some b
  else if b =? 98 then Some 8 else if b =? 102 then Some 12 else if b =? 110 then Some 10
  else if b =? 114 then Some 13 else if b =? 116 then Some 9 else None.

(** The string whose contents start the input, up to its closing quote: its
    decoded bytes and what follows.  [k] bytes of a UTF-8 sequence are still to
    be copied; ill-formed sequences are replaced, byte by byte. *)
Fixpoint scan_string (k : nat) (s : string) : option (string * string) :=
  match s with
  | EmptyString => None
  | String c s1 =>
      match k with
      | S k' => '(x, r) ← scan_string k' s1; Some (String c x, r)
      | O =>
          if is_char 34 c then Some (EmptyString, s1)
          else if is_char 92 c then
            match s1 with
            | String u s2 =>
                if is_char 117 u then
                  match s2 with
                  | String h1 (String h2 (String h3 (String h4 s3))) =>
                      rr ← hex4 h1 h2 h3 h4;
                      if is_surrogate rr then
                        let lone := '(x, r) ← scan_string 0 s3; Some ((rune_error ++ x)%string, r) in
                        match s3 with
                        | String b' (String u' (String g1 (String g2 (String g3 (String g4 s4))))) =>
                            if is_char 92 b' && is_char 117 u' then
                              match (lo ← hex4 g1 g2 g3 g4; join_surrogates rr lo) with
                              | Some dec => '(x, r) ← scan_string 0 s4; Some ((encode_rune dec ++ x)%string, r)
                              | None => lone
                              end
                            else lone
                        | _ => lone
                        end
                      else '(x, r) ← scan_string 0 s3; Some ((encode_rune rr ++ x)%string, r)
                  | _ => None
                  end
                else
                  b ← simple_escape u; '(x, r) ← scan_string 0 s2; Some (String (chr b) x, r)
            | EmptyString => None
            end
          else if byte_of c <? 32 then None
          else
            match decode_rune s with
            | Some (_, n) => '(x, r) ← scan_string (n - 1) s1; Some (String c x, r)
            | None => '(x, r) ← scan_string 0 s1; Some ((rune_error ++ x)%string, r)
            end
      end
  end.

(** ** Documents *)

Fixpoint strip_prefix (p s : string) : option string :=
  match p, s with
  | EmptyString, _ => Some s
  | String a p', String b s' => if Ascii.eqb a b then strip_prefix p' s' else None
  | String _ _, EmptyString => None
  end.

Definition scan_literal (s : string) : option (json * string) :=
  match strip_prefix "null" s with
  | Some r => Some (JNull, r)
  | None => match strip_prefix "true" s with
    | Some r => Some (JBool true, r)
    | None => match strip_prefix "false" s with
      | Some r => Some (JBool false, r)
      | None => None end end end.

(** [depth] is the nesting still allowed. *)
Fixpoint value (fuel : nat) (depth : Z) (s : string) : option (json * string) :=
  match fuel with
  | O => None
  | S fuel' =>
      match skip_ws s with
      | EmptyString => None
      | String c s1 as s0 =>
          if is_char 123 c then
            if depth <=? 0 then None else
            match skip_ws s1 with
            | String d r =>
                if is_char 125 d then Some (JObj [], r)
                else '(ms, r) ← members fuel' (depth - 1) s1; Some (JObj ms, r)
            | EmptyString => None
            end
          else if is_char 91 c then
            if depth <=? 0 then None else
            match skip_ws s1 with
            | String d r =>
                if is_char 93 d then Some (JArr [], r)
                else '(vs, r) ← elements fuel' (depth - 1) s1; Some (JArr vs, r)
            | EmptyString => None
            end
          else if is_char 34 c then '(x, r) ← scan_string 0 s1; Some (JStr x, r)
          else if is_char 45 c || is_digit c then '(_, lex, r) ← scan_number s0; Some (JNum lex, r)
          else scan_literal s0
      end
  end
with elements (fuel : nat) (depth : Z) (s : string) : option (list json * string) :=
  match fuel with
  | O => None
  | S fuel' =>
      '(v, r) ← value fuel' depth s;
      match skip_ws r with
      | String c r' =>
          if is_char 44 c then '(vs, r'') ← elements fuel' depth r'; Some (v :: vs, r'')
          else if is_char 93 c then Some ([v], r') else None
      | EmptyString => None
      end
  end
with members (fuel : nat) (depth : Z) (s : string) : option (list (string * json) * string) :=
  match fuel with
  | O => None
  | S fuel' =>
      match skip_ws s with
      | String q s1 =>
          if negb (is_char 34 q) then None else
          '(k, r) ← scan_string 0 s1;
          match skip_ws r with
          | String col r1 =>
              if negb (is_char 58 col) then None else
              '(v, r2) ← value fuel' depth r1;
              match skip_ws r2 with
              | String c r' =>
                  if is_char 44 c then '(ms, r'') ← members fuel' depth r'; Some ((k, v) :: ms, r'')
                  else if is_char 125 c then Some ([(k, v)], r') else None
              | EmptyString => None
              end
          | EmptyString => None
          end
      | EmptyString => None
      end
  end.

Definition max_depth : Z := 10000.
Definition document_fuel (s : string) : nat := (2 * String.length s + 2)%nat.

(** The first value of a stream ([Decoder.Decode]) and a whole document
    ([json.Unmarshal]), where only white space may follow. *)
Definition decode_first (s : string) : option (json * string) := value (document_fuel s) max_depth s.
Definition unmarshal (s : string) : option json :=
  '(v, r) ← decode_first s;
  match skip_ws r with EmptyString => Some v | String _ _ => None end.

(** * Writing *)

Definition hex_digit (v : Z) : ascii := chr (if v <? 10 then 48 + v else 87 + v).

(** The escape of a byte below 128, if it has one; HTML characters are
    escaped too. *)
Definition escape_byte (b : Z) : option string :=
  let esc (x : Z) := Some (String backslash (String (chr x) "")) in
  if (b =? 34) || (b =? 92) then esc b
  else if b =? 8 then esc 98 else if b =? 12 then esc 102 else if b =? 10 then esc 110
  else if b =? 13 then esc 114 else if b =? 9 then esc 116
  else if (b <? 32) || (b =? 60) || (b =? 62) || (b =? 38)
  then Some (String backslash ("u00" ++ String (hex_digit (b / 16)) (String (hex_digit (b mod 16)) "")))
  else None.

(** The contents of a string literal.  [k] bytes of a UTF-8 sequence are still
    to be copied ([copy]) or dropped because an escape stands for them. *)
Fixpoint escape (k : nat) (copy : bool) (s : string) : string :=
  match s with
  | EmptyString => EmptyString
  | String c s1 =>
      match k with
      | S k' => if copy then String c (escape k' copy s1) else escape k' copy s1
      | O =>
          if byte_of c <? 128 then
            match escape_byte (byte_of c) with
            | Some e => (e ++ escape 0 true s1)%string
            | None => String c (escape 0 true s1)
            end
          else
            match decode_rune s with
            | None => (String backslash "ufffd" ++ escape 0 true s1)%string
            | Some (r, n) =>
                if (r =? 8232) || (r =? 8233)
                then (String backslash "u202" ++ String (hex_digit (r mod 16)) (escape (n - 1) false s1))%string
                else String c (escape (n - 1) true s1)
            end
      end
  end.

Definition marshal_string (s : string) : string := String quote (escape 0 true s ++ String quote "")%string.

Definition separated (l : list string) : string := String.concat (String (chr 44) "") l.

Fixpoint marshal (v : json) : string :=
  match v with
  | JNull => "null"
  | JBool b => if b then "true" else "false"
  | JNum l => l
  | JStr s => marshal_string s
  | JArr vs => String (chr 91) (separated (marshal <$> vs) ++ String (chr 93) "")%string
  | JObj ms =>
      String (chr 123) (separated ((fun m => (marshal_string (fst m) ++ String (chr 58) (marshal (snd m)))%string) <$> ms)
        ++ String (chr 125) "")%string
  end.

(** What can be written and read back: valid UTF-8 and well-formed numbers. *)
Fixpoint writable (v : json) : bool :=
  match v with
  | JNum l => is_valid_number l
  | JStr s => valid_utf8 s
  | JArr vs => forallb writable vs
  | JObj ms => forallb (fun m => valid_utf8 (fst m) && writable (snd m)) ms
  | JNull | JBool _ => true
  end.

(** The nesting of a value. *)
Fixpoint depth_of (v : json) : Z :=
  match v with
  | JArr vs => 1 + foldr (fun v d => Z.max (depth_of v) d) 0 vs
  | JObj ms => 1 + foldr (fun m d => Z.max (depth_of (snd m)) d) 0 ms
  | _ => 0
  end.

(** * Numbers as float64

    A finite float64 is [m * 2^e]; the sign of a zero plays no part in the
    code. *)
Inductive float := Fin (m e : Z) | Inf (neg : bool) | NaN.

(** [n / d] rounded to the nearest integer, ties to even. *)
Definition round_ne (n d : Z) : Z :=
  let q := n / d in let r := n mod d in
  if 2 * r <? d then q else if d <? 2 * r then q + 1 else if Z.even q then q else q + 1.

(** The float64 nearest to [n / d], for [0 <= n] and [0 < d]. *)
Definition to_float (neg : bool) (n d : Z) : float :=
  if n =? 0 then Fin 0 0 else
  let k := Z.log2 n - Z.log2 d in
  let below := if 0 <=? k then n <? d * 2 ^ k else n * 2 ^ (- k) <? d in
  let e := Z.max ((if below then k - 1 else k) - 52) (-1074) in
  let m := if 0 <=? e then round_ne n (d * 2 ^ e) else round_ne (n * 2 ^ (- e)) d in
  if (0 <=? e) && (2 ^ 1024 <=? m * 2 ^ e) then Inf neg else Fin (if neg then - m else m) e.

(** [strconv.ParseFloat] on a number the scanner accepted: the flag reports a
    value out of range. *)
Definition float_of_decimal (x : decimal) : float * bool :=
  let f := if 0 <=? dec_exp x
           then to_float (dec_neg x) (dec_mant x * 10 ^ dec_exp x) 1
           else to_float (dec_neg x) (dec_mant x) (10 ^ (- dec_exp x)) in
  (f, match f with Inf _ => true | _ => false end).

Definition parse_float (lexeme : string) : option (float * bool) :=
  match scan_number lexeme with
  | Some (x, _, EmptyString) => Some (float_of_decimal x)
  | _ => None
  end.

Definition float_is_zero (f : float) : bool := match f with Fin m _ => m =? 0 | _ => false end.

(** The integral part of a finite value, and the fraction left. *)
Definition modf (f : float) : float * float :=
  match f with
  | Fin m e => if 0 <=? e then (f, Fin 0 0) else (Fin (Z.quot m (2 ^ (- e))) 0, Fin (Z.rem m (2 ^ (- e))) e)
  | Inf neg => (Inf neg, NaN)
  | NaN => (NaN, NaN)
  end.

(** The product with a positive integer constant. *)
Definition float_scale (f : float) (c : Z) : float :=
  match f with
  | Fin m e => if 0 <=? e then to_float (m <? 0) (Z.abs m * 2 ^ e * c) 1
               else to_float (m <? 0) (Z.abs m * c) (2 ^ (- e))
  | _ => f
  end.

(** Conversion to [int64] truncates; out of range the result depends on the
    platform, which the parameter stands for. *)
Class FloatConv := int64_overflow : float -> Z.
Definition int64_of_float `{FloatConv} (f : float) : Z :=
  match f with
  | Fin m e =>
      let t := if 0 <=? e then m * 2 ^ e else Z.quot m (2 ^ (- e)) in
      if (- 2 ^ 63 <=? t) && (t <? 2 ^ 63) then t else int64_overflow f
  | _ => int64_overflow f
  end.
