(* ===== verification/JsonFacts.v ===== *)
(** JSON round trips: what [marshal] writes [unmarshal] reads back, and whole
    numbers survive the passage through float64. *)
From Stdlib Require Import ZArith Lia Ascii String.
From stdpp Require Import base numbers list strings option.
From S2P Require Import Prelude Text Json.
Local Open Scope Z_scope.

(** * Scanning with something behind *)

(** [stops rest] - what follows cannot be part of a number. *)
Definition number_char (c : ascii) : bool :=
  is_digit c || is_char 46 c || is_char 101 c || is_char 69 c.
Definition stops (rest : string) : Prop :=
  match rest with EmptyString => True | String c _ => number_char c = false end.

Lemma stops_inv c rest :
  stops (String c rest) -> is_digit c = false /\ is_char 46 c = false /\ is_char 101 c = false /\ is_char 69 c = false.
Proof.
  unfold stops, number_char. destruct (is_digit c), (is_char 46 c), (is_char 101 c), (is_char 69 c); done.
Qed.

Lemma take_digits_app s rest d r :
  stops rest -> take_digits s = (d, r) -> take_digits (s ++ rest) = (d, (r ++ rest)%string) /\ s = (d ++ r)%string.
Proof.
  intros Hst. revert d r. induction s as [|c s IH]; intros d r; cbn.
  - intros [= <- <-]. split; [|done]. destruct rest as [|c rest]; [done|]. cbn.
    by destruct (stops_inv c rest Hst) as [-> _].
  - destruct (is_digit c); [|by intros [= <- <-]].
    destruct (take_digits s) as [d' r']. intros [= <- <-].
    destruct (IH d' r' eq_refl) as [-> ->]. done.
Qed.

Lemma scan_int_app s rest d r :
  stops rest -> scan_int s = Some (d, r) -> scan_int (s ++ rest) = Some (d, (r ++ rest)%string) /\ s = (d ++ r)%string.
Proof.
  intros Hst. destruct s as [|c s]; [done|]. cbn [scan_int String.append].
  destruct (is_char 48 c); [by intros [= <- <-]|]. destruct (is_digit c); [|done].
  intros [= H]. change (String c (s ++ rest)) with (String c s ++ rest)%string.
  destruct (take_digits_app (String c s) rest d r Hst H) as [-> ->]. done.
Qed.

Lemma scan_frac_app s rest d r :
  stops rest -> scan_frac s = Some (d, r) ->
  scan_frac (s ++ rest) = Some (d, (r ++ rest)%string) /\
  s = (match d with EmptyString => EmptyString | _ => String (chr 46) d end ++ r)%string.
Proof.
  intros Hst. destruct s as [|c s]; cbn.
  - intros [= <- <-]. split; [|done]. destruct rest as [|c rest]; [done|]. cbn.
    by destruct (stops_inv c rest Hst) as (_ & -> & _).
  - destruct (is_char 46 c) eqn:Ec; [|by intros [= <- <-]].
    destruct (take_digits s) as [d' r'] eqn:E. destruct d' as [|x d']; [done|].
    intros [= <- <-]. destruct (take_digits_app _ rest _ _ Hst E) as [-> ->]. split; [done|].
    apply Z.eqb_eq in Ec. rewrite <- (chr_byte_of c), Ec. done.
Qed.

Lemma scan_exp_app s rest e l r :
  stops rest -> scan_exp s = Some (e, l, r) ->
  scan_exp (s ++ rest) = Some (e, l, (r ++ rest)%string) /\ s = (l ++ r)%string.
Proof.
  intros Hst. destruct s as [|c s]; cbn.
  { intros [= <- <- <-]. split; [|done]. destruct rest as [|c rest]; [done|]. cbn.
    by destruct (stops_inv c rest Hst) as (_ & _ & -> & ->). }
  destruct (is_char 101 c || is_char 69 c); [|by intros [= <- <- <-]].
  assert (forall (sg : Z) sl s', match take_digits s' with
      | (EmptyString, _) => None
      | (String _ _ as d, r0) => Some (sg * digits_val 0 d, String c (sl ++ d)%string, r0) end = Some (e, l, r) ->
    match take_digits (s' ++ rest) with
      | (EmptyString, _) => None
      | (String _ _ as d, r0) => Some (sg * digits_val 0 d, String c (sl ++ d)%string, r0) end
      = Some (e, l, (r ++ rest)%string) /\ String c (sl ++ s')%string = (l ++ r)%string) as Hd.
  { intros sg sl s'. destruct (take_digits s') as [d' r'] eqn:E. destruct d' as [|x d']; [done|].
    intros [= <- <- <-]. destruct (take_digits_app _ rest _ _ Hst E) as [-> ->]. split; [done|].
    cbn. by rewrite append_assoc. }
  destruct s as [|d s]; cbn [String.append]; [intros H; discriminate H|].
  destruct (is_char 43 d); [apply (Hd 1 (String d "") s)|].
  destruct (is_char 45 d); [apply (Hd (-1) (String d "") s)|].
  intros H. apply (Hd 1 ""%string (String d s)) in H. exact H.
Qed.

Lemma scan_number_app s rest x l r :
  stops rest -> scan_number s = Some (x, l, r) ->
  scan_number (s ++ rest) = Some (x, l, (r ++ rest)%string) /\ s = (l ++ r)%string.
Proof.
  intros Hst. unfold scan_number.
  set (sg := match s with EmptyString => _ | String _ _ => _ end).
  assert (exists neg sign s1, sg = (neg, sign, s1) /\ s = (sign ++ s1)%string /\ (s1 <> ""%string ->
    match (s ++ rest)%string with
    | EmptyString => (false, EmptyString, (s ++ rest)%string)
    | String c s' => if is_char 45 c then (true, String c "", s') else (false, EmptyString, (s ++ rest)%string)
    end = (neg, sign, (s1 ++ rest)%string))) as (neg & sign & s1 & -> & Hs & Hsg).
  { subst sg. destruct s as [|c s]; [by eexists _, _, _|]. cbn [String.append].
    destruct (is_char 45 c); by eexists _, _, _. }
  destruct (scan_int s1) as [[i s2]|] eqn:E1; [|done]. cbn [mbind option_bind].
  rewrite Hsg by (by destruct s1).
  destruct (scan_int_app _ _ _ _ Hst E1) as [-> ->]. cbn [mbind option_bind].
  destruct (scan_frac s2) as [[f s3]|] eqn:E2; [|done]. cbn [mbind option_bind].
  destruct (scan_frac_app _ _ _ _ Hst E2) as [-> ->]. cbn [mbind option_bind].
  destruct (scan_exp s3) as [[[e el] s4]|] eqn:E3; [|done]. cbn [mbind option_bind].
  destruct (scan_exp_app _ _ _ _ _ Hst E3) as [-> ->]. cbn [mbind option_bind].
  intros [= <- <- <-]. split; [done|]. rewrite Hs. by rewrite !append_assoc.
Qed.

(** A well-formed lexeme is scanned whole. *)
Lemma scan_valid_number l rest :
  is_valid_number l = true -> stops rest -> exists x, scan_number (l ++ rest) = Some (x, l, rest).
Proof.
  unfold is_valid_number. destruct (scan_number l) as [[[x l'] r]|] eqn:E; [|done].
  destruct r; [|done]. intros _ Hst. destruct (scan_number_app _ rest _ _ _ Hst E) as [-> ->].
  exists x. by rewrite append_nil_r.
Qed.

(** A number starts with a minus sign or a digit. *)
Lemma valid_number_head l :
  is_valid_number l = true -> exists c t, l = String c t /\ (is_char 45 c || is_digit c) = true.
Proof.
  destruct l as [|c t]; [done|]. intros H. exists c, t. split; [done|].
  unfold is_valid_number, scan_number in H. destruct (is_char 45 c) eqn:E; [done|]. cbn.
  cbn [scan_int] in H. destruct (is_char 48 c) eqn:E0.
  - unfold is_char in E0. apply Z.eqb_eq in E0. unfold is_digit. by rewrite E0.
  - by destruct (is_digit c).
Qed.

(** * String literals *)

Ltac split_decode H :=
  cbn [decode_rune] in H;
  repeat match type of H with
  | (match ?s with EmptyString => _ | String _ _ => _ end) = _ => destruct s as [|? ?]; [discriminate H|]
  | (if ?b then _ else _) = _ => let E := fresh "E" in destruct b eqn:E; try discriminate H
  end.

(** The sequence is recognised from its copied bytes. *)
Lemma decode_rune_copy c s1 r n t :
  decode_rune (String c s1) = Some (r, n) ->
  decode_rune (String c (escape (n - 1) true s1 ++ t)) = Some (r, n).
Proof.
  intros H. pose proof H as Hd. split_decode H; injection H as <- <-; cbn [Nat.sub escape String.append decode_rune];
    repeat match goal with E : _ = _ |- _ => rewrite E end; reflexivity.
Qed.

Lemma decode_rune_size c s1 r n : decode_rune (String c s1) = Some (r, n) -> (1 <= n <= 4)%nat.
Proof. intros H. split_decode H; injection H as <- <-; lia. Qed.

(** The line and paragraph separators, escaped for JavaScript. *)
Lemma decode_separator c s1 r n :
  decode_rune (String c s1) = Some (r, n) -> (r = 8232 \/ r = 8233) ->
  n = 3%nat /\ exists c1 c2 s3, s1 = String c1 (String c2 s3) /\
    String c (String c1 (String c2 s3)) = (encode_rune r ++ s3)%string.
Proof.
  intros H Hr. pose proof (byte_of_range c). split_decode H; injection H as <- <-;
    rewrite ?negb_true_iff, ?negb_false_iff, ?andb_true_iff, ?andb_false_iff, ?Z.leb_le, ?Z.ltb_lt, ?Z.ltb_ge in *;
    unfold cont in *; rewrite ?andb_true_iff, ?Z.leb_le in *; [lia| |..].
  - lia.
  - split; [done|]. eexists _, _, _. split; [done|].
    match goal with |- String c (String ?c1 (String ?c2 ?s3)) = _ =>
      assert (byte_of c = 226 /\ byte_of c1 = 128 /\ (byte_of c2 = 168 \/ byte_of c2 = 169)) as (H1 & H2 & H3) by lia;
      rewrite <- (chr_byte_of c), <- (chr_byte_of c1), <- (chr_byte_of c2), H1, H2;
      destruct H3 as [-> | ->]; reflexivity end.
  - lia.
Qed.

Lemma escape_byte_spec c rest :
  (byte_of c <? 128) = true ->
  scan_string 0 (match escape_byte (byte_of c) with Some e => e ++ rest | None => String c rest end)%string =
  ('(x, r) ← scan_string 0 rest; Some (String c x, r)).
Proof.
  pose proof (byte_of_range c) as Hr. intros Hc%Z.ltb_lt.
  assert (c = ascii_of_nat (Z.to_nat (byte_of c))) as E.
  { unfold byte_of. rewrite <- (ascii_N_embedding c) at 1. unfold ascii_of_nat. f_equal. lia. }
  assert (Z.to_nat (byte_of c) < 128)%nat as Hn by lia. revert E Hn.
  generalize (Z.to_nat (byte_of c)) as n. intros n ->. clear.
  do 128 (destruct n as [|n]; [intros _; cbn -[scan_string]; destruct rest; reflexivity|]). lia.
Qed.

Lemma scan_separator_escape r rest :
  r = 8232 \/ r = 8233 ->
  scan_string 0 (String backslash "u202" ++ String (hex_digit (r mod 16)) rest) =
  ('(x, q) ← scan_string 0 rest; Some ((encode_rune r ++ x)%string, q)).
Proof. intros [-> | ->]; reflexivity. Qed.

Lemma scan_escape k s rest :
  valid_utf8_from k s = true ->
  scan_string k (escape k true s ++ String quote rest) = Some (s, rest).
Proof.
  enough (forall m k s, (String.length s <= m)%nat -> valid_utf8_from k s = true ->
    scan_string k (escape k true s ++ String quote rest) = Some (s, rest)) as H by (intros; eauto).
  clear. intros m. induction m as [|m IH]; intros k [|c s1] Hm; cbn [valid_utf8_from String.length] in *; try lia;
    try (intros Hk%Nat.eqb_eq; subst k; reflexivity).
  destruct k as [|k].
  2:{ intros Hv. cbn. rewrite IH by (done || lia). done. }
  cbn [escape]. intros Hv. destruct (byte_of c <? 128) eqn:E128.
  { pose proof (escape_byte_spec c (escape 0 true s1 ++ String quote rest) E128) as He.
    assert (valid_utf8_from 0 s1 = true) as Hv1.
    { cbn [decode_rune] in Hv. rewrite E128 in Hv. exact Hv. }
    rewrite IH in He by (done || lia).
    destruct (escape_byte (byte_of c)) as [e|]; [by rewrite append_assoc|exact He]. }
  destruct (decode_rune (String c s1)) as [[r n]|] eqn:Ed; [|done].
  pose proof (decode_rune_size _ _ _ _ Ed) as Hn.
  destruct ((r =? 8232) || (r =? 8233)) eqn:Er.
  - assert (r = 8232 \/ r = 8233) as Hr by (rewrite orb_true_iff, !Z.eqb_eq in Er; done).
    destruct (decode_separator _ _ _ _ Ed Hr) as (-> & c1 & c2 & s3 & -> & Hs).
    cbn in Hv, Hm. cbn [Nat.sub escape].
    assert (scan_string 0 (escape 0 true s3 ++ String quote rest) = Some (s3, rest)) as H3 by (apply IH; [lia|done]).
    rewrite Hs. pose proof (scan_separator_escape r (escape 0 true s3 ++ String quote rest) Hr) as H4.
    rewrite H3 in H4. replace (escape 0 false s3) with (escape 0 true s3) by (by destruct s3). exact H4.
  - cbn [String.append]. cbn [scan_string].
    apply Z.ltb_ge in E128.
    assert (is_char 34 c = false) as -> by (apply Z.eqb_neq; lia).
    assert (is_char 92 c = false) as -> by (apply Z.eqb_neq; lia).
    rewrite (proj2 (Z.ltb_ge (byte_of c) 32)) by lia.
    rewrite (decode_rune_copy _ _ _ _ _ Ed). rewrite IH by (done || lia). done.
Qed.

(** * Every scanner consumes input, and fuel is enough *)

#[local] Abbreviation len := String.length.

Lemma skip_ws_len s : (len (skip_ws s) <= len s)%nat.
Proof. induction s as [|c s IH]; cbn; [done|]. destruct (is_space c); cbn; lia. Qed.

(** Case analysis on the scrutinees of a partial computation. *)
Ltac inv_step H :=
  match type of H with
  | None = Some _ => discriminate H
  | (match ?x with _ => _ end) = Some _ => let E := fresh "E" in destruct x eqn:E
  | mbind _ ?x = Some _ => let E := fresh "E" in destruct x eqn:E; cbn [mbind option_bind] in H
  end.

Lemma scan_string_len k s x r : scan_string k s = Some (x, r) -> (len r < len s)%nat.
Proof.
  enough (forall m k s x r, (len s <= m)%nat -> scan_string k s = Some (x, r) -> (len r < len s)%nat) as H by eauto.
  clear. intros m. induction m as [|m IH]; intros k [|c s] x r Hm H; cbn [String.length] in *; try lia; try done.
  assert (forall k s' x r, scan_string k s' = Some (x, r) -> (len s' <= len s)%nat -> (len r < S (len s))%nat) as Hs
    by (intros k' s' x' r' H' Hl; apply IH in H'; lia). clear IH.
  destruct k; cbn [scan_string] in H; repeat inv_step H; simplify_eq; try done;
    try (eapply Hs; [eassumption|]; cbn [String.length]; lia); lia.
Qed.

Lemma scan_number_len s x l r : scan_number s = Some (x, l, r) -> (len r < len s)%nat.
Proof.
  intros H. destruct (scan_number_app s "" x l r I H) as [_ ->]. rewrite length_append.
  enough (l <> ""%string) by (destruct l; [done|cbn; lia]). intros ->.
  unfold scan_number in H. repeat inv_step H; simplify_eq; cbn in *; unfold scan_int, take_digits in *;
    repeat case_match; simplify_eq; try done.
Qed.

Lemma strip_prefix_len p s r : strip_prefix p s = Some r -> len s = (len p + len r)%nat.
Proof.
  revert s. induction p as [|a p IH]; intros s; cbn; [by intros [= ->]|].
  destruct s as [|b s]; [done|]. destruct (Ascii.eqb a b); [|done]. intros H. cbn. by rewrite (IH _ H).
Qed.

Lemma scan_literal_len s v r : scan_literal s = Some (v, r) -> (len r < len s)%nat.
Proof.
  unfold scan_literal. intros H. repeat inv_step H; simplify_eq;
    match goal with E : strip_prefix _ _ = Some _ |- _ => apply strip_prefix_len in E; cbn in E; lia end.
Qed.

Ltac len_facts :=
  repeat match goal with
  | E : skip_ws ?s = _ |- _ =>
      let H := fresh "Hl" in pose proof (skip_ws_len s) as H; rewrite E in H; clear E; cbn [String.length] in H
  | E : scan_string _ _ = Some _ |- _ => apply scan_string_len in E
  | E : scan_number _ = Some _ |- _ => apply scan_number_len in E; cbn [String.length] in E
  | E : scan_literal _ = Some _ |- _ => apply scan_literal_len in E; cbn [String.length] in E
  end.

Lemma value_len fuel :
  (forall d s v r, value fuel d s = Some (v, r) -> (len r < len s)%nat) /\
  (forall d s v r, elements fuel d s = Some (v, r) -> (len r < len s)%nat) /\
  (forall d s v r, members fuel d s = Some (v, r) -> (len r < len s)%nat).
Proof.
  induction fuel as [|fuel (IHv & IHe & IHm)]; [done|].
  split; [|split]; intros d s v r H; [cbn [value] in H|cbn [elements] in H|cbn [members] in H];
    repeat inv_step H; simplify_eq;
    repeat match goal with
    | E : value fuel _ _ = Some _ |- _ => apply IHv in E
    | E : elements fuel _ _ = Some _ |- _ => apply IHe in E
    | E : members fuel _ _ = Some _ |- _ => apply IHm in E
    end; len_facts; lia.
Qed.

Lemma value_fuel m :
  (forall f g d s, (len s <= m)%nat -> (2 * len s + 1 <= f)%nat -> (2 * len s + 1 <= g)%nat ->
    value f d s = value g d s) /\
  (forall f g d s, (len s <= m)%nat -> (2 * len s + 2 <= f)%nat -> (2 * len s + 2 <= g)%nat ->
    elements f d s = elements g d s) /\
  (forall f g d s, (len s <= m)%nat -> (2 * len s + 2 <= f)%nat -> (2 * len s + 2 <= g)%nat ->
    members f d s = members g d s).
Proof.
  induction m as [m IH] using lt_wf_ind.
  assert (forall f g d s, (len s <= m)%nat -> (2 * len s + 1 <= f)%nat -> (2 * len s + 1 <= g)%nat ->
    value f d s = value g d s) as Hv.
  { intros [|f] [|g] d s Hm Hf Hg; try lia. cbn [value].
    pose proof (skip_ws_len s) as Hl. destruct (skip_ws s) as [|c s1]; [done|]. cbn [String.length] in Hl.
    destruct (IH (len s1) ltac:(lia)) as (_ & IHe & IHm).
    rewrite (IHe f g (d - 1) s1), (IHm f g (d - 1) s1) by lia. done. }
  split; [done|]. split.
  - intros [|f] [|g] d s Hm Hf Hg; try lia. cbn [elements]. rewrite (Hv f g d s) by lia.
    destruct (value g d s) as [[v r]|] eqn:E; [|done]. cbn [mbind option_bind].
    apply (proj1 (value_len g)) in E. pose proof (skip_ws_len r) as Hl.
    destruct (skip_ws r) as [|c r']; [done|]. cbn [String.length] in Hl.
    destruct (IH (len r') ltac:(lia)) as (_ & IHe & _). by rewrite (IHe f g d r') by lia.
  - intros [|f] [|g] d s Hm Hf Hg; try lia. cbn [members].
    pose proof (skip_ws_len s) as Hl. destruct (skip_ws s) as [|q s1]; [done|]. cbn [String.length] in Hl.
    destruct (negb _); [done|]. destruct (scan_string 0 s1) as [[k r]|] eqn:E; [|done]. cbn [mbind option_bind].
    apply scan_string_len in E. pose proof (skip_ws_len r) as Hl2.
    destruct (skip_ws r) as [|col r1]; [done|]. cbn [String.length] in Hl2. destruct (negb _); [done|].
    destruct (IH (len r1) ltac:(lia)) as (IHv & _ & _). rewrite (IHv f g d r1) by lia.
    destruct (value g d r1) as [[v r2]|] eqn:E2; [|done]. cbn [mbind option_bind].
    apply (proj1 (value_len g)) in E2. pose proof (skip_ws_len r2) as Hl3.
    destruct (skip_ws r2) as [|c r']; [done|]. cbn [String.length] in Hl3.
    destruct (IH (len r') ltac:(lia)) as (_ & _ & IHm). by rewrite (IHm f g d r') by lia.
Qed.

Lemma value_fuel_enough f d s : (document_fuel s <= f)%nat -> value f d s = value (document_fuel s) d s.
Proof. intros Hf. unfold document_fuel in *. apply (proj1 (value_fuel (len s))); lia. Qed.

(** * What is written is read back *)

Definition reads (v : json) : Prop := forall d rest, depth_of v <= d -> stops rest ->
  exists f0, forall f, (f0 <= f)%nat -> value f d (marshal v ++ rest) = Some (v, rest).

(** Heads of written values: no white space, no closing bracket. *)
Lemma marshal_head v : writable v = true ->
  exists c t, marshal v = String c t /\ is_space c = false /\ is_char 93 c = false.
Proof.
  destruct v as [|b|l|s|vs|ms]; cbn; try (intros _; eexists _, _; split; [reflexivity|done]).
  - intros _. destruct b; eexists _, _; (split; [reflexivity|done]).
  - intros H. destruct (valid_number_head l H) as (c & t & -> & Hc). exists c, t. split; [done|].
    unfold is_char, is_digit, is_space in *. cbv zeta.
    rewrite orb_true_iff, andb_true_iff, Z.eqb_eq, !Z.leb_le in Hc.
    rewrite !orb_false_iff, !Z.eqb_neq. lia.
Qed.

Lemma skip_ws_marshal v rest : writable v = true -> skip_ws (marshal v ++ rest) = (marshal v ++ rest)%string.
Proof. intros H. destruct (marshal_head v H) as (c & t & -> & Hs & _). cbn. by rewrite Hs. Qed.

Lemma scan_marshal_string s rest :
  valid_utf8 s = true -> scan_string 0 (escape 0 true s ++ String quote rest) = Some (s, rest).
Proof. apply scan_escape. Qed.

Lemma marshal_string_app s rest :
  (marshal_string s ++ rest = String quote (escape 0 true s ++ String quote rest))%string.
Proof. unfold marshal_string. cbn. by rewrite append_assoc. Qed.

Lemma separated_cons x y l : separated (x :: y :: l) = (x ++ String (chr 44) (separated (y :: l)))%string.
Proof. reflexivity. Qed.

Lemma reads_elements vs d rest :
  vs <> [] -> Forall (fun v => reads v /\ writable v = true /\ depth_of v <= d) vs ->
  exists f0, forall f, (f0 <= f)%nat ->
    elements f d (separated (marshal <$> vs) ++ String (chr 93) rest) = Some (vs, rest).
Proof.
  induction vs as [|v vs IH]; [done|]. intros _ [(Hr & Hw & Hd) Hvs]%Forall_cons_1.
  destruct vs as [|w vs].
  - cbn [fmap list_fmap separated String.concat].
    destruct (Hr d (String (chr 93) rest) Hd eq_refl) as (f0 & Hf). exists (S f0).
    intros [|f] Hle; [lia|]. cbn [elements]. rewrite Hf by lia. reflexivity.
  - destruct (IH ltac:(done) Hvs) as (f1 & Hf1).
    rewrite !fmap_cons in *. rewrite separated_cons, append_assoc. cbn [String.append].
    destruct (Hr d (String (chr 44) (separated (marshal w :: (marshal <$> vs)) ++ String (chr 93) rest)) Hd eq_refl)
      as (f0 & Hf). exists (S (f0 + f1)).
    intros [|f] Hle; [lia|]. cbn [elements]. rewrite Hf by lia. cbn [mbind option_bind].
    change (skip_ws (String (chr 44) ?x)) with (String (chr 44) x). cbv iota.
    change (is_char 44 (chr 44)) with true. cbv iota. rewrite Hf1 by lia. reflexivity.
Qed.

Definition marshal_member (m : string * json) : string :=
  (marshal_string (fst m) ++ String (chr 58) (marshal (snd m)))%string.

Lemma reads_members ms d rest :
  ms <> [] ->
  Forall (fun m => reads (snd m) /\ valid_utf8 (fst m) = true /\ writable (snd m) = true /\ depth_of (snd m) <= d) ms ->
  exists f0, forall f, (f0 <= f)%nat ->
    members f d (separated (marshal_member <$> ms) ++ String (chr 125) rest) = Some (ms, rest).
Proof.
  assert (forall k v tl f0 f, reads v -> valid_utf8 k = true ->
    (forall f, (f0 <= f)%nat -> value f d (marshal v ++ tl) = Some (v, tl)) -> (f0 <= f)%nat ->
    members (S f) d (marshal_member (k, v) ++ tl) =
    match skip_ws tl with
    | String c r' =>
        if is_char 44 c then '(ms, r'') ← members f d r'; Some ((k, v) :: ms, r'')
        else if is_char 125 c then Some ([(k, v)], r') else None
    | EmptyString => None end) as Hone.
  { intros k v tl f0 f Hr Hk Hf Hle. unfold marshal_member. cbn [fst snd].
    rewrite append_assoc, marshal_string_app. cbn [String.append]. cbn [members].
    change (skip_ws (String quote ?x)) with (String quote x). cbn [is_char negb].
    change (negb (is_char 34 quote)) with false. cbv iota.
    rewrite scan_marshal_string by done. cbn [mbind option_bind].
    change (skip_ws (String (chr 58) ?x)) with (String (chr 58) x). cbv iota.
    change (negb (is_char 58 (chr 58))) with false. cbv iota. rewrite Hf by done. reflexivity. }
  induction ms as [|[k v] ms IH]; [done|]. intros _ [(Hr & Hk & Hw & Hd) Hms]%Forall_cons_1. cbn [fst snd] in *.
  destruct ms as [|m ms].
  - cbn [fmap list_fmap separated String.concat].
    destruct (Hr d (String (chr 125) rest) Hd eq_refl) as (f0 & Hf). exists (S f0).
    intros [|f] Hle; [lia|]. rewrite (Hone k v _ f0) by (done || lia). reflexivity.
  - destruct (IH ltac:(done) Hms) as (f1 & Hf1).
    rewrite !fmap_cons in *. rewrite separated_cons, append_assoc. cbn [String.append].
    destruct (Hr d (String (chr 44) (separated (marshal_member m :: (marshal_member <$> ms)) ++ String (chr 125) rest)) Hd eq_refl)
      as (f0 & Hf). exists (S (f0 + f1)).
    intros [|f] Hle; [lia|]. rewrite (Hone k v _ f0) by (done || lia).
    change (skip_ws (String (chr 44) ?x)) with (String (chr 44) x). cbv iota.
    change (is_char 44 (chr 44)) with true. cbv iota. rewrite Hf1 by lia. reflexivity.
Qed.

Lemma foldr_depth {A} (g : A -> Z) (l : list A) n :
  foldr (fun x d => Z.max (g x) d) 0 l <= n -> Forall (fun x => g x <= n) l /\ 0 <= n.
Proof. induction l as [|x l IH]; cbn; [auto|]. intros H. destruct IH as [? ?]; [lia|]. split; [constructor; [lia|done]|done]. Qed.

Lemma marshal_reads v : writable v = true -> reads v.
Proof.
  induction v as [|b|l|s|vs IH|ms IH] using json_ind; intros Hw d rest Hd Hst.
  - exists 1%nat. intros [|f] Hf; [lia|]. reflexivity.
  - exists 1%nat. intros [|f] Hf; [lia|]. destruct b; reflexivity.
  - exists 1%nat. intros [|f] Hf; [lia|]. cbn [value]. rewrite skip_ws_marshal by done. cbn [marshal].
    destruct (scan_valid_number l rest Hw Hst) as (x & Hx).
    destruct (valid_number_head l Hw) as (c & t & -> & Hc). cbn [String.append] in *.
    assert (is_char 123 c = false /\ is_char 91 c = false /\ is_char 34 c = false) as (-> & -> & ->).
    { unfold is_char, is_digit in *. rewrite orb_true_iff, andb_true_iff, Z.eqb_eq, !Z.leb_le in Hc.
      rewrite !Z.eqb_neq. lia. }
    by rewrite Hc, Hx.
  - exists 1%nat. intros [|f] Hf; [lia|]. cbn [marshal]. rewrite marshal_string_app. cbn [value].
    change (skip_ws (String quote ?x)) with (String quote x). cbv iota.
    change (is_char 123 quote) with false. change (is_char 91 quote) with false.
    change (is_char 34 quote) with true. cbv iota. by rewrite scan_marshal_string.
  - cbn [writable depth_of] in Hw, Hd. rewrite forallb_forall in Hw.
    destruct (foldr_depth depth_of vs (d - 1) ltac:(lia)) as [Hds H0].
    assert ((d <=? 0) = false) as Hd0 by (apply Z.leb_gt; lia).
    destruct vs as [|v vs]; [exists 1%nat; intros [|f] Hf; [lia|]; cbn; by rewrite Hd0|].
    destruct (reads_elements (v :: vs) (d - 1) rest) as (f0 & Hf); [done| |].
    { rewrite Forall_forall in *. intros x Hx. assert (writable x = true) by (apply Hw; first [done|by apply list_elem_of_In]).
      split; [by apply IH|]. split; [done|by apply Hds]. }
    exists (S f0). intros [|f] Hle; [lia|]. cbn [marshal String.append value].
    change (skip_ws (String (chr 91) ?x)) with (String (chr 91) x). cbv iota.
    change (is_char 123 (chr 91)) with false. change (is_char 91 (chr 91)) with true. cbv iota.
    rewrite Hd0. rewrite append_assoc. cbn [String.append]. specialize (Hf f ltac:(lia)).
    destruct (marshal_head v) as (c & t & Hc & Hs & H93); [apply Hw; by left|].
    assert (exists t', separated (marshal <$> v :: vs) = String c t') as (t' & Ht).
    { rewrite fmap_cons, Hc. destruct vs; eexists; reflexivity. }
    rewrite Ht in *. cbn [String.append skip_ws] in *. rewrite Hs, H93, Hf. reflexivity.
  - cbn [writable depth_of] in Hw, Hd. rewrite forallb_forall in Hw.
    pose proof (foldr_depth (fun m => depth_of (snd m)) ms (d - 1)) as Hfd. cbv beta in Hfd.
    destruct Hfd as [Hds H0]; [lia|].
    assert ((d <=? 0) = false) as Hd0 by (apply Z.leb_gt; lia).
    destruct ms as [|m ms]; [exists 1%nat; intros [|f] Hf; [lia|]; cbn; by rewrite Hd0|].
    destruct (reads_members (m :: ms) (d - 1) rest) as (f0 & Hf); [done| |].
    { rewrite Forall_forall in *. intros x Hx.
      assert (valid_utf8 (fst x) && writable (snd x) = true) as [? ?]%andb_prop by (apply Hw; first [done|by apply list_elem_of_In]).
      split; [by apply IH|]. split; [done|]. split; [done|]. by apply Hds. }
    exists (S f0). intros [|f] Hle; [lia|]. cbn [marshal String.append value].
    change (skip_ws (String (chr 123) ?x)) with (String (chr 123) x). cbv iota.
    change (is_char 123 (chr 123)) with true. cbv iota.
    rewrite Hd0, append_assoc. cbn [String.append]. specialize (Hf f ltac:(lia)).
    change ((fun m0 => _) <$> m :: ms) with (marshal_member <$> m :: ms).
    assert (exists t', separated (marshal_member <$> m :: ms) = String quote t') as (t' & Ht).
    { rewrite fmap_cons. destruct ms; eexists; reflexivity. }
    rewrite Ht in *. cbn [String.append] in *.
    change (skip_ws (String quote ?x)) with (String quote x). cbv iota.
    change (is_char 125 quote) with false. cbv iota. rewrite Hf. reflexivity.
Qed.

(** A value that can be written is the one read back. *)
Lemma unmarshal_marshal v : writable v = true -> depth_of v <= max_depth -> unmarshal (marshal v) = Some v.
Proof.
  intros Hw Hd. destruct (marshal_reads v Hw max_depth "" Hd I) as (f0 & Hf).
  unfold unmarshal, decode_first.
  rewrite <- (value_fuel_enough (document_fuel (marshal v) + f0)) by lia.
  rewrite append_nil_r in Hf. rewrite Hf by lia. reflexivity.
Qed.

(** * Whole numbers *)

Lemma format_int_number n :
  0 <= n -> scan_number (format_int n) = Some (Decimal false n 0, format_int n, ""%string).
Proof.
  intros Hn. destruct (format_int_nonneg n Hn) as (Hne & Hd & Hv).
  pose proof (take_digits_all (format_int n) "" Hd I) as Ht. rewrite append_nil_r in Ht.
  assert (scan_int (format_int n) = Some (format_int n, ""%string)) as Hi.
  { destruct (decide (n = 0)) as [->|]; [reflexivity|].
    destruct (format_int_lead n ltac:(lia)) as (c & t & Hc & H48). rewrite Hc in *. cbn [scan_int].
    assert (is_char 48 c = false) as -> by (by apply Z.eqb_neq).
    cbn in Hd. apply andb_prop in Hd as [-> _]. by rewrite Ht. }
  unfold scan_number. destruct (format_int n) as [|c t] eqn:E; [done|].
  assert (is_char 45 c = false) as ->.
  { cbn in Hd. apply andb_prop in Hd as [Hc _]. unfold is_digit, is_char in *.
    rewrite andb_true_iff, !Z.leb_le in Hc. apply Z.eqb_neq. lia. }
  rewrite Hi. cbn [mbind option_bind scan_frac scan_exp String.length String.append].
  rewrite !append_nil_r, Hv. done.
Qed.

Lemma format_int_valid n : 0 <= n -> is_valid_number (format_int n) = true.
Proof. intros Hn. unfold is_valid_number. by rewrite format_int_number. Qed.

(** A whole number below 2^53 is a float64, and truncating gives it back. *)
Lemma to_float_whole n :
  0 <= n < 2 ^ 53 ->
  exists m e, to_float false n 1 = Fin m e /\ e <= 0 /\ m = n * 2 ^ (- e).
Proof.
  intros Hn. unfold to_float. destruct (Z.eqb_spec n 0) as [->|Hn0]; [exists 0, 0; done|].
  pose proof (Z.log2_spec n ltac:(lia)) as Hlog. pose proof (Z.log2_nonneg n) as Hl0.
  assert (Z.log2 n < 53) as Hl by (apply Z.log2_lt_pow2; lia).
  change (Z.log2 1) with 0. rewrite Z.sub_0_r, Z.mul_1_l, (proj2 (Z.leb_le 0 (Z.log2 n))) by lia.
  rewrite (proj2 (Z.ltb_ge n (2 ^ Z.log2 n))) by lia. cbv zeta.
  rewrite Z.max_l by lia. set (e := Z.log2 n - 52). exists (n * 2 ^ (- e)), e.
  assert ((if 0 <=? e then round_ne n (1 * 2 ^ e) else round_ne (n * 2 ^ (- e)) 1) = n * 2 ^ (- e)) as ->.
  { assert (forall x, round_ne x 1 = x) as H1.
    { intros x. unfold round_ne. rewrite Z.div_1_r, Z.mod_1_r. reflexivity. }
    destruct (Z.leb_spec 0 e); [|apply H1].
    assert (e = 0) as -> by lia. rewrite Z.mul_1_l, Z.mul_1_r. apply H1. }
  destruct (Z.leb_spec 0 e) as [He|He]; [|split; [done|split; [lia|done]]].
  assert (e = 0) as -> by lia. rewrite !Z.mul_1_r.
  rewrite (proj2 (Z.leb_gt (2 ^ 1024) n)); [done|].
  pose proof (Z.pow_lt_mono_r 2 53 1024 ltac:(lia) ltac:(lia)). lia.
Qed.

Lemma parse_float_whole n :
  0 <= n < 2 ^ 53 ->
  exists m e, parse_float (format_int n) = Some (Fin m e, false) /\ e <= 0 /\ m = n * 2 ^ (- e).
Proof.
  intros Hn. unfold parse_float, float_of_decimal. rewrite format_int_number by lia.
  cbn [dec_exp dec_neg dec_mant]. change (0 <=? 0) with true. cbv iota.
  rewrite Z.mul_1_r. destruct (to_float_whole n Hn) as (m & e & -> & He & Hm). exists m, e. done.
Qed.

Lemma modf_whole n e :
  0 <= n -> e <= 0 -> modf (Fin (n * 2 ^ (- e)) e) = (Fin n 0, Fin 0 e).
Proof.
  intros Hn He. cbn [modf]. destruct (Z.leb_spec 0 e).
  - assert (e = 0) as -> by lia. by rewrite Z.mul_1_r.
  - assert (2 ^ (- e) <> 0) by (pose proof (Z.pow_pos_nonneg 2 (- e)); lia).
    by rewrite Z.quot_mul, Z.rem_mul by done.
Qed.
