(* ===== verification/Claims.v ===== *)
(** JWT claims and their validation: pkg/jwt/{errors,types,claims,map_claims,
    registered_claims,validator}.go.

    An [error] is a value of a tree, [None] being [nil]; an instant is the pair
    of counters a [time.Time] holds.  [Claims] is the code's interface, with its
    implementations [MapClaims] and [RegisteredClaims]; [Validate] is proved to
    accept exactly the claims [claims_acceptable] describes. *)
From Stdlib Require Import ZArith Lia Ascii String.
From stdpp Require Import base numbers list strings option gmap.
From S2P Require Import Prelude Text Json JsonFacts.
Local Open Scope Z_scope.

(** * Errors *)

Inductive sentinel :=
  | ErrInvalidKey | ErrInvalidKeyType | ErrHashUnavailable | ErrTokenMalformed | ErrTokenUnverifiable
  | ErrTokenSignatureInvalid | ErrTokenRequiredClaimMissing | ErrTokenInvalidAudience | ErrTokenExpired
  | ErrTokenUsedBeforeIssued | ErrTokenInvalidIssuer | ErrTokenInvalidSubject | ErrTokenNotValidYet
  | ErrTokenInvalidId | ErrTokenInvalidClaims | ErrInvalidType
  | ErrSignatureInvalid | ErrFNDSASignatureInvalid | ErrNoTokenInRequest.

#[export] Instance sentinel_eq_dec : EqDecision sentinel.
Proof. solve_decision. Defined.

(** [Library]: an error made by the standard library or a third-party package;
    [Message]: [errors.New] or [fmt.Errorf] without a wrapped error; [Wrapped]:
    an error that wraps others below a message; [joinedError]: several of them. *)
Unset Elimination Schemes.
Inductive error :=
  | Sentinel (s : sentinel)
  | Library
  | Message (msg : string)
  | Wrapped (msg : string) (errs : list error)
  | joinedError (errs : list error).
Set Elimination Schemes.

Definition joinErrors (errs : list error) : error := joinedError errs.
Definition newError (message : string) (err : error) (more : list error) : error := Wrapped message (err :: more).

(** [errors.Is] on a sentinel. *)
Fixpoint errors_is (e : error) (s : sentinel) : bool :=
  match e with
  | Sentinel s' => bool_decide (s' = s)
  | Library | Message _ => false
  | Wrapped _ es | joinedError es => existsb (fun e => errors_is e s) es
  end.

(** * Instants *)

(** Seconds since the year 1 (an [int64]) and nanoseconds below 10^9. *)
Record time := Time { t_sec : Z; t_nsec : Z }.
#[export] Instance time_eq_dec : EqDecision time.
Proof. solve_decision. Defined.

Definition second : Z := 1000000000.
Definition unix_to_internal : Z := 62135596800.

(** [time.Unix] *)
Definition time_unix (sec nsec : Z) : time :=
  let '(sec, nsec) :=
    if (nsec <? 0) || (second <=? nsec) then (sec + nsec / second, nsec mod second) else (sec, nsec) in
  Time (i64 (sec + unix_to_internal)) nsec.

Definition unix (t : time) : Z := i64 (t_sec t - unix_to_internal).

Definition before (t u : time) : bool :=
  (t_sec t <? t_sec u) || ((t_sec t =? t_sec u) && (t_nsec t <? t_nsec u)).

(** [Time.Add] saturates on overflow. *)
Definition time_add (t : time) (d : Z) : time :=
  let dsec := Z.quot d second in
  let nsec := t_nsec t + Z.rem d second in
  let '(dsec, nsec) := if second <=? nsec then (dsec + 1, nsec - second)
                       else if nsec <? 0 then (dsec - 1, nsec + second) else (dsec, nsec) in
  let sum := i64 (t_sec t + dsec) in
  Time (if Bool.eqb (t_sec t <? sum) (0 <? dsec) then sum
        else if 0 <? dsec then 2 ^ 63 - 1 else - (2 ^ 63 - 1)) nsec.

Definition truncate (t : time) (d : Z) : time :=
  if d <=? 0 then t else time_add t (- ((t_sec t * second + t_nsec t) mod d)).

(** * Numeric dates and audiences *)

Definition TimePrecision : Z := second.
Definition NumericDate := time.
Definition NewNumericDate (t : time) : NumericDate := truncate t TimePrecision.
Definition newNumericDateFromSeconds `{FloatConv} (f : float) : NumericDate :=
  let '(round, frac) := modf f in
  NewNumericDate (time_unix (int64_of_float round) (int64_of_float (float_scale frac 1000000000))).

(** With the precision of seconds there are no decimals to print. *)
Definition NumericDate_MarshalJSON (date : NumericDate) : json := JNum (format_int (unix (truncate date TimePrecision))).

(** A number, or a string that reads as a number. *)
Definition NumericDate_UnmarshalJSON `{FloatConv} (v : json) : option NumericDate :=
  let of_lexeme l := match parse_float l with
    | Some (f, false) => Some (newNumericDateFromSeconds f)
    | _ => None end in
  match v with
  | JNum l => of_lexeme l
  | JStr s => if is_valid_number s then of_lexeme s else None
  | _ => None
  end.

Definition ClaimStrings := list string.

Fixpoint strings_of (vs : list json) : option (list string) :=
  match vs with
  | [] => Some []
  | JStr s :: vs' => l ← strings_of vs'; Some (s :: l)
  | _ => None
  end.

(** The new value, given the old one. *)
Definition ClaimStrings_UnmarshalJSON (v : json) (old : ClaimStrings) : option ClaimStrings :=
  match v with
  | JStr s => Some [s]
  | JArr vs => strings_of vs
  | JNull => Some old
  | _ => None
  end.

(** [MarshalSingleStringAsArray] is true. *)
Definition ClaimStrings_MarshalJSON (s : ClaimStrings) : json := JArr (JStr <$> s).

(** * The interface *)

Class Claims (C : Type) := {
  GetExpirationTime : C -> result error (option NumericDate);
  GetIssuedAt : C -> result error (option NumericDate);
  GetNotBefore : C -> result error (option NumericDate);
  GetIssuer : C -> result error string;
  GetSubject : C -> result error string;
  GetAudience : C -> result error ClaimStrings;
  (** [ClaimsValidator]: the custom check, for the types that have one. *)
  claims_validator : option (C -> option error)
}.

(** ** Maps of decoded values *)

Unset Elimination Schemes.
Inductive any :=
  | ANil
  | ABool (b : bool)
  | AFloat (f : float)
  | ANumber (lexeme : string)
  | AString (s : string)
  | AArray (vs : list any)
  | AObject (members : list (string * any)).
Set Elimination Schemes.

Section Any.
Variable useJSONNumber : bool.

(** Decoding into an [any]; a number float64 cannot hold is an error. *)
Fixpoint any_of_json (v : json) : option any :=
  let list_of := fix F (vs : list json) := match vs with
    | [] => Some []
    | v :: vs' => a ← any_of_json v; l ← F vs'; Some (a :: l) end in
  let members_of := fix F (ms : list (string * json)) := match ms with
    | [] => Some []
    | (k, v) :: ms' => a ← any_of_json v; l ← F ms'; Some ((k, a) :: l) end in
  match v with
  | JNull => Some ANil
  | JBool b => Some (ABool b)
  | JNum l =>
      if useJSONNumber then Some (ANumber l)
      else match parse_float l with Some (f, false) => Some (AFloat f) | _ => None end
  | JStr s => Some (AString s)
  | JArr vs => AArray <$> list_of vs
  | JObj ms => AObject <$> members_of ms
  end.

(** Decoding the members of an object into a map: a later member replaces an
    earlier one of the same name. *)
Fixpoint decode_map (ms : list (string * json)) (m : gmap string any) : option (gmap string any) :=
  match ms with
  | [] => Some m
  | (k, v) :: ms' => a ← any_of_json v; decode_map ms' (<[k := a]> m)
  end.
End Any.

Definition MapClaims := gmap string any.

Definition parseNumericDate `{FloatConv} (m : MapClaims) (key : string) : result error (option NumericDate) :=
  match m !! key with
  | None => Ok None
  | Some (AFloat exp) => if float_is_zero exp then Ok None else Ok (Some (newNumericDateFromSeconds exp))
  | Some (ANumber l) =>
      match parse_float l with
      | Some (v, _) => Ok (Some (newNumericDateFromSeconds v))
      | None => Ok (Some (newNumericDateFromSeconds (Fin 0 0)))
      end
  | Some _ => Err (newError (key ++ " is invalid") (Sentinel ErrInvalidType) [])
  end.

Fixpoint any_strings (vs : list any) : option (list string) :=
  match vs with
  | [] => Some []
  | AString s :: vs' => l ← any_strings vs'; Some (s :: l)
  | _ => None
  end.

Definition parseClaimsString (m : MapClaims) (key : string) : result error ClaimStrings :=
  match m !! key with
  | Some (AString v) => Ok [v]
  | Some (AArray vs) =>
      match any_strings vs with
      | Some cs => Ok cs
      | None => Err (newError (key ++ " is invalid") (Sentinel ErrInvalidType) [])
      end
  | _ => Ok []
  end.

Definition parseString (m : MapClaims) (key : string) : result error string :=
  match m !! key with
  | None => Ok ""%string
  | Some (AString iss) => Ok iss
  | Some _ => Err (newError (key ++ " is invalid") (Sentinel ErrInvalidType) [])
  end.

#[export] Instance map_claims `{FloatConv} : Claims MapClaims := {
  GetExpirationTime m := parseNumericDate m "exp";
  GetNotBefore m := parseNumericDate m "nbf";
  GetIssuedAt m := parseNumericDate m "iat";
  GetAudience m := parseClaimsString m "aud";
  GetIssuer m := parseString m "iss";
  GetSubject m := parseString m "sub";
  claims_validator := None
}.

(** ** Registered claims *)

Record RegisteredClaims := Registered {
  Issuer : string;
  Subject : string;
  Audience : ClaimStrings;
  ExpiresAt : option NumericDate;
  NotBefore : option NumericDate;
  IssuedAt : option NumericDate;
  ID : string
}.

#[export] Instance registered_claims : Claims RegisteredClaims := {
  GetExpirationTime c := Ok (ExpiresAt c);
  GetNotBefore c := Ok (NotBefore c);
  GetIssuedAt c := Ok (IssuedAt c);
  GetAudience c := Ok (Audience c);
  GetIssuer c := Ok (Issuer c);
  GetSubject c := Ok (Subject c);
  claims_validator := None
}.

(** * The validator *)

Record Validator := MkValidator {
  leeway : Z;
  timeFunc : option time;
  requireExp : bool;
  requireNbf : bool;
  verifyIat : bool;
  expectedAud : list string;
  expectAllAud : bool;
  expectedIss : string;
  expectedSub : string
}.

Definition zero_validator : Validator := MkValidator 0 None false false false [] false "" "".

Definition errorIfFalse (value : bool) (err : error) : option error := if value then None else Some err.
Definition errorIfRequired (required : bool) (claim : string) : option error :=
  if required then Some (newError (claim ++ " claim is required") (Sentinel ErrTokenRequiredClaimMissing) []) else None.

Section Validate.
Context `{Claims C}.
Implicit Types (v : Validator) (claims : C) (cmp : time).

Definition verifyExpiresAt v claims cmp (required : bool) : option error :=
  match GetExpirationTime claims with
  | Err err => Some err
  | Ok None => errorIfRequired required "exp"
  | Ok (Some exp) => errorIfFalse (before cmp (time_add exp (leeway v))) (Sentinel ErrTokenExpired)
  end.

Definition verifyIssuedAt v claims cmp (required : bool) : option error :=
  match GetIssuedAt claims with
  | Err err => Some err
  | Ok None => errorIfRequired required "iat"
  | Ok (Some iat) => errorIfFalse (negb (before cmp (time_add iat (i64 (- leeway v))))) (Sentinel ErrTokenUsedBeforeIssued)
  end.

Definition verifyNotBefore v claims cmp (required : bool) : option error :=
  match GetNotBefore claims with
  | Err err => Some err
  | Ok None => errorIfRequired required "nbf"
  | Ok (Some nbf) => errorIfFalse (negb (before cmp (time_add nbf (i64 (- leeway v))))) (Sentinel ErrTokenNotValidYet)
  end.

Definition contains (l : list string) (a : string) : bool := existsb (String.eqb a) l.

Definition verifyAudience v claims (cmp : list string) (expectAllAud : bool) : option error :=
  match GetAudience claims with
  | Err err => Some err
  | Ok aud =>
      if match aud with [] => true | [a] => String.eqb a "" | _ => false end
      then errorIfRequired (0 <? length (expectedAud v))%nat "aud"
      else if negb expectAllAud then
        if existsb (contains cmp) aud then None else Some (Sentinel ErrTokenInvalidAudience)
      else if forallb (contains aud) cmp then None else Some (Sentinel ErrTokenInvalidAudience)
  end.

Definition verifyIssuer claims (cmp : string) (required : bool) : option error :=
  match GetIssuer claims with
  | Err err => Some err
  | Ok iss =>
      if String.eqb iss "" then errorIfRequired required "iss"
      else errorIfFalse (String.eqb iss cmp) (Sentinel ErrTokenInvalidIssuer)
  end.

Definition verifySubject claims (cmp : string) (required : bool) : option error :=
  match GetSubject claims with
  | Err err => Some err
  | Ok sub =>
      if String.eqb sub "" then errorIfRequired required "sub"
      else errorIfFalse (String.eqb sub cmp) (Sentinel ErrTokenInvalidSubject)
  end.

(** The checks in the order of the code, every failure collected; [clock] is
    [time.Now()]. *)
Definition Validate v (clock : time) claims : option error :=
  let now := default clock (timeFunc v) in
  let errs := omap id [
    verifyExpiresAt v claims now (requireExp v);
    verifyNotBefore v claims now (requireNbf v);
    (if verifyIat v then verifyIssuedAt v claims now false else None);
    (if (0 <? length (expectedAud v))%nat then verifyAudience v claims (expectedAud v) (expectAllAud v) else None);
    (if negb (String.eqb (expectedIss v) "") then verifyIssuer claims (expectedIss v) true else None);
    (if negb (String.eqb (expectedSub v) "") then verifySubject claims (expectedSub v) true else None);
    match claims_validator with Some custom => custom claims | None => None end ] in
  if (length errs =? 0)%nat then None else Some (joinErrors errs).
End Validate.

(** * What the validator accepts *)

Section Accepts.
Context `{Claims C}.

(** A date claim: absent when it may be, or a date with property [P]. *)
Definition date_ok (r : result error (option NumericDate)) (required : bool) (P : NumericDate -> Prop) : Prop :=
  match r with Ok None => required = false | Ok (Some d) => P d | Err _ => False end.

Record claims_acceptable (v : Validator) (now : time) (claims : C) : Prop := Acceptable {
  not_expired : date_ok (GetExpirationTime claims) (requireExp v) (fun d => before now (time_add d (leeway v)) = true);
  already_valid : date_ok (GetNotBefore claims) (requireNbf v)
    (fun d => before now (time_add d (i64 (- leeway v))) = false);
  issued_before : verifyIat v = true ->
    date_ok (GetIssuedAt claims) false (fun d => before now (time_add d (i64 (- leeway v))) = false);
  for_audience : expectedAud v <> [] ->
    exists aud, GetAudience claims = Ok aud /\ aud <> [] /\ aud <> [""%string] /\
      if expectAllAud v then forall a, In a (expectedAud v) -> In a aud
      else exists a, In a aud /\ In a (expectedAud v);
  by_issuer : expectedIss v <> ""%string -> GetIssuer claims = Ok (expectedIss v);
  on_subject : expectedSub v <> ""%string -> GetSubject claims = Ok (expectedSub v);
  custom_accepts : forall custom, claims_validator = Some custom -> custom claims = None
}.

Lemma contains_spec l a : contains l a = true <-> In a l.
Proof.
  unfold contains. rewrite existsb_exists. split.
  - intros (x & Hx & ->%String.eqb_eq). done.
  - intros Ha. exists a. by rewrite String.eqb_refl.
Qed.

Lemma errorIfFalse_none b e : errorIfFalse b e = None <-> b = true.
Proof. by destruct b. Qed.
Lemma errorIfRequired_none r c : errorIfRequired r c = None <-> r = false.
Proof. by destruct r. Qed.

Lemma verifyExpiresAt_none v claims now r :
  verifyExpiresAt v claims now r = None <->
  date_ok (GetExpirationTime claims) r (fun d => before now (time_add d (leeway v)) = true).
Proof.
  unfold verifyExpiresAt, date_ok. destruct (GetExpirationTime claims) as [[d|]|e];
    [apply errorIfFalse_none|apply errorIfRequired_none|done].
Qed.

Lemma verifyNotBefore_none v claims now r :
  verifyNotBefore v claims now r = None <->
  date_ok (GetNotBefore claims) r (fun d => before now (time_add d (i64 (- leeway v))) = false).
Proof.
  unfold verifyNotBefore, date_ok. destruct (GetNotBefore claims) as [[d|]|e];
    [rewrite errorIfFalse_none; apply negb_true_iff|apply errorIfRequired_none|done].
Qed.

Lemma verifyIssuedAt_none v claims now r :
  verifyIssuedAt v claims now r = None <->
  date_ok (GetIssuedAt claims) r (fun d => before now (time_add d (i64 (- leeway v))) = false).
Proof.
  unfold verifyIssuedAt, date_ok. destruct (GetIssuedAt claims) as [[d|]|e];
    [rewrite errorIfFalse_none; apply negb_true_iff|apply errorIfRequired_none|done].
Qed.

Lemma verifyAudience_none v claims :
  expectedAud v <> [] ->
  verifyAudience v claims (expectedAud v) (expectAllAud v) = None <->
  exists aud, GetAudience claims = Ok aud /\ aud <> [] /\ aud <> [""%string] /\
    if expectAllAud v then forall a, In a (expectedAud v) -> In a aud
    else exists a, In a aud /\ In a (expectedAud v).
Proof.
  intros Hv. unfold verifyAudience. destruct (GetAudience claims) as [aud|e].
  2:{ split; [done|]. by intros (? & [=] & _). }
  assert ((0 <? length (expectedAud v))%nat = true) as -> by (by destruct (expectedAud v)).
  destruct (match aud with [] => true | [a] => String.eqb a "" | _ => false end) eqn:E; cbn [errorIfRequired].
  { split; [done|]. intros (a & [= <-] & H1 & H2 & _). destruct aud as [|x [|]]; [done| |done].
    by apply String.eqb_eq in E as ->. }
  assert (aud <> [] /\ aud <> [""%string]) as [H1 H2] by (split; intros ->; done).
  assert (forall b (P : Prop), (b = true <-> P) ->
    ((if b then None else Some (Sentinel ErrTokenInvalidAudience)) = None <->
     exists aud', @Ok error _ aud = Ok aud' /\ aud' <> [] /\ aud' <> [""%string] /\ P)) as Hb.
  { intros b P HP. split.
    - destruct b; [|done]. intros _. exists aud. tauto.
    - intros (? & _ & _ & _ & Hp). apply HP in Hp as ->. done. }
  destruct (expectAllAud v); cbn [negb].
  - destruct (Hb (forallb (contains aud) (expectedAud v)) (forall a, In a (expectedAud v) -> In a aud)) as [Ha Hc].
    { rewrite forallb_forall. split; intros HP a Ha; apply contains_spec; [|apply contains_spec]; auto.
      apply contains_spec. auto. }
    split; [intros (a & [= <-] & ?)%Ha; by exists aud|]. intros (a & [= <-] & ?). apply Hc. by exists aud.
  - destruct (Hb (existsb (contains (expectedAud v)) aud) (exists a, In a aud /\ In a (expectedAud v))) as [Ha Hc].
    { rewrite existsb_exists. split; intros (a & Ha & Hc); exists a; (split; [done|]); by apply contains_spec. }
    split; [intros (a & [= <-] & ?)%Ha; by exists aud|]. intros (a & [= <-] & ?). apply Hc. by exists aud.
Qed.

Lemma verifyIssuer_none claims cmp :
  cmp <> ""%string -> verifyIssuer claims cmp true = None <-> GetIssuer claims = Ok cmp.
Proof.
  intros Hc. unfold verifyIssuer. destruct (GetIssuer claims) as [iss|e]; [|done].
  destruct (String.eqb_spec iss "") as [->|]; cbn [errorIfRequired].
  - split; [done|]. by intros [= <-].
  - rewrite errorIfFalse_none, String.eqb_eq. split; [by intros ->|by intros [= ->]].
Qed.

Lemma verifySubject_none claims cmp :
  cmp <> ""%string -> verifySubject claims cmp true = None <-> GetSubject claims = Ok cmp.
Proof.
  intros Hc. unfold verifySubject. destruct (GetSubject claims) as [sub|e]; [|done].
  destruct (String.eqb_spec sub "") as [->|]; cbn [errorIfRequired].
  - split; [done|]. by intros [= <-].
  - rewrite errorIfFalse_none, String.eqb_eq. split; [by intros ->|by intros [= ->]].
Qed.

Lemma omap_id_nil {A} (l : list (option A)) : omap id l = [] <-> Forall (fun x => x = None) l.
Proof.
  induction l as [|[x|] l IH]; cbn.
  - split; [by constructor|done].
  - split; [done|]. intros Hl. by apply Forall_cons_1 in Hl as [? _].
  - rewrite IH. split; [by constructor|]. intros Hl. by apply Forall_cons_1 in Hl as [_ ?].
Qed.

Lemma nonempty_spec {A} (l : list A) : (0 <? length l)%nat = true <-> l <> [].
Proof. by destruct l. Qed.
Lemma nonempty_string (s : string) : negb (String.eqb s "") = true <-> s <> ""%string.
Proof. by rewrite negb_true_iff, String.eqb_neq. Qed.

Lemma Validate_none v clock claims :
  Validate v clock claims = None <-> claims_acceptable v (default clock (timeFunc v)) claims.
Proof.
  unfold Validate. cbv zeta. set (now := default clock (timeFunc v)). clearbody now.
  assert (forall l : list error, (if (length l =? 0)%nat then None else Some (joinErrors l)) = None <-> l = []) as Hl
    by (intros [|]; done).
  rewrite Hl, omap_id_nil, !Forall_cons, verifyExpiresAt_none, verifyNotBefore_none.
  assert (forall (b : bool) (x : option error) (P Q : Prop), (b = true <-> P) -> (P -> x = None <-> Q) ->
    ((if b then x else None) = None <-> (P -> Q))) as Hif.
  { intros b x P Q HP HQ. destruct b; [destruct HP; tauto|]. split; [intros _ Hp; by apply HP in Hp|done]. }
  rewrite (Hif _ _ (verifyIat v = true) _ (iff_refl _) (fun _ => verifyIssuedAt_none v claims now false)).
  rewrite (Hif _ _ (expectedAud v <> []) _ (nonempty_spec (expectedAud v)) (verifyAudience_none v claims)).
  rewrite (Hif _ _ (expectedIss v <> ""%string) _ (nonempty_string _)
    (verifyIssuer_none claims (expectedIss v))).
  rewrite (Hif _ _ (expectedSub v <> ""%string) _ (nonempty_string _)
    (verifySubject_none claims (expectedSub v))).
  assert ((match claims_validator with Some custom => custom claims | None => None end = None) <->
    forall custom, claims_validator = Some custom -> custom claims = None) as ->.
  { destruct claims_validator; split; [by intros ? ? [= <-]|intros Hx; by apply Hx|done|done]. }
  split.
  - intros (? & ? & ? & ? & ? & ? & ? & _). by constructor.
  - intros []. repeat (split; [assumption|]). constructor.
Qed.
End Accepts.

(** * Dates *)

(** The instants the code reaches: nanoseconds below a second, and seconds
    that fit their counter. *)
Definition time_ok (t : time) : Prop := - 2 ^ 63 <= t_sec t < 2 ^ 63 /\ 0 <= t_nsec t < second.

Lemma truncate_second t : time_ok t -> truncate t second = Time (t_sec t) 0.
Proof.
  intros [Hs Hn]. unfold truncate. change (second <=? 0) with false. cbv iota.
  rewrite Z.add_comm, Z.mod_add, Z.mod_small by (unfold second in *; lia).
  unfold time_add. cbv zeta.
  rewrite Z.quot_opp_l, Z.rem_opp_l, Z.quot_small, Z.rem_small by (unfold second in *; lia).
  rewrite Z.add_opp_diag_r. change (second <=? 0) with false. change (0 <? 0) with false. cbv iota.
  change (- 0) with 0. rewrite Z.add_0_r, i64_small by done. by rewrite Z.ltb_irrefl.
Qed.

Lemma time_add_0 t : time_ok t -> time_add t 0 = t.
Proof.
  intros [Hs Hn]. unfold time_add. change (Z.quot 0 second) with 0. change (Z.rem 0 second) with 0.
  rewrite !Z.add_0_r. destruct (Z.leb_spec second (t_nsec t)); [lia|].
  destruct (Z.ltb_spec (t_nsec t) 0); [lia|]. rewrite Z.add_0_r, i64_small by done. rewrite Z.ltb_irrefl. by destruct t.
Qed.

(** What an issuer puts into a date claim is what a parser takes out of it. *)
Definition date_range (t : time) : Prop := unix_to_internal <= t_sec t < unix_to_internal + 2 ^ 53 /\ 0 <= t_nsec t < second.

Lemma date_range_ok t : date_range t -> time_ok t.
Proof. unfold date_range, time_ok, unix_to_internal. lia. Qed.

Lemma newNumericDateFromSeconds_whole `{FloatConv} n e :
  0 <= n < 2 ^ 53 -> e <= 0 ->
  newNumericDateFromSeconds (Fin (n * 2 ^ (- e)) e) = Time (n + unix_to_internal) 0.
Proof.
  intros Hn He. unfold newNumericDateFromSeconds. rewrite modf_whole by lia.
  assert (int64_of_float (Fin n 0) = n) as ->.
  { cbn [int64_of_float]. change (0 <=? 0) with true. cbv iota zeta. rewrite Z.mul_1_r.
    rewrite (proj2 (Z.leb_le _ _)), (proj2 (Z.ltb_lt _ _)) by lia. done. }
  assert (float_scale (Fin 0 e) 1000000000 = Fin 0 0) as ->.
  { cbn [float_scale]. destruct (0 <=? e); reflexivity. }
  change (int64_of_float (Fin 0 0)) with 0. unfold time_unix. cbn [Z.ltb Z.compare orb]. cbv iota.
  change (second <=? 0) with false. cbv iota.
  rewrite i64_small by (unfold unix_to_internal; lia).
  unfold NewNumericDate, TimePrecision. rewrite truncate_second; [done|].
  unfold time_ok, unix_to_internal, second. cbn. lia.
Qed.

Lemma NumericDate_roundtrip_whole `{FloatConv} t :
  date_range t -> NumericDate_UnmarshalJSON (NumericDate_MarshalJSON t) = Some (NewNumericDate t).
Proof.
  intros Ht. unfold NumericDate_MarshalJSON, NewNumericDate, TimePrecision.
  rewrite truncate_second by (by apply date_range_ok). destruct Ht as [Ht Hn].
  unfold unix. cbn [t_sec]. rewrite i64_small by (unfold unix_to_internal in *; lia).
  cbn [NumericDate_UnmarshalJSON].
  destruct (parse_float_whole (t_sec t - unix_to_internal)) as (m & e & -> & He & ->); [lia|].
  rewrite newNumericDateFromSeconds_whole by lia. do 2 f_equal. lia.
Qed.
