(* ===== verification/JwtParser.v ===== *)
(** JWT tokens and their parser: pkg/jwt/{token,signing_method,parser,
    parser_option}.go.

    Keys are an abstract type [K] here, the Go [any] a method receives; a
    signing method is the record of its operations.  [option] around a result
    is [None] when a signature primitive did not finish within its fuel.  The
    messages of errors keep their fixed text only; the partly filled token the
    code returns next to an error is not modelled. *)
From Stdlib Require Import ZArith Lia Ascii String.
From stdpp Require Import base numbers list strings option gmap.
From S2P Require Import Prelude Text Json JsonFacts Claims.
Local Open Scope Z_scope.

Notation "'want' x := m 'otherwise' e ; k" := (match m with Some x => k | None => Err e end)
  (at level 10, x pattern, m at level 99, e at level 99, k at level 200, only parsing) : go_scope.

(** What [rand.Reader] yields during a signature: a seed or an error. *)
Definition entropy : Type := result string (list Z).

(** The part of a claims type [encoding/json] uses: decoding a document into a
    value that is there already, and encoding. *)
Class ClaimsCodec (C : Type) := {
  decode_claims : bool -> json -> C -> option C;
  encode_claims : C -> option json
}.

Section Jwt.
Context {K : Type}.

(** * Signing methods and their registry *)

Record SigningMethod := Method {
  Alg : string;
  method_Verify : string -> string -> K -> option (option error);
  method_Sign : entropy -> string -> K -> option (result error string);
  SignPrecompute : bool
}.

Definition registry := gmap string SigningMethod.
Definition RegisterSigningMethod (alg : string) (m : SigningMethod) (signingMethods : registry) : registry :=
  <[alg := m]> signingMethods.
Definition GetSigningMethod (signingMethods : registry) (alg : string) : option SigningMethod :=
  signingMethods !! alg.
(** In the order of the keys, where Go's is unspecified. *)
Definition GetAlgorithms (signingMethods : registry) : list string := fst <$> map_to_list signingMethods.

(** A key function returns a key or a [VerificationKeySet]. *)
Inductive found_key := SingleKey (k : K) | VerificationKeySet (keys : list K).

Record Token (C : Type) := MkToken {
  Raw : string;
  token_Method : SigningMethod;
  Header : gmap string any;
  token_Claims : C;
  Signature : string;
  Valid : bool
}.
Arguments MkToken {C}. Arguments Raw {C}. Arguments token_Method {C}. Arguments Header {C}.
Arguments token_Claims {C}. Arguments Signature {C}. Arguments Valid {C}.

Definition NewWithClaims {C} (method : SigningMethod) (claims : C) : Token C :=
  MkToken "" method (<["typ" := AString "JWT"]> (<["alg" := AString (Alg method)]> ∅)) claims "" false.

Definition EncodeSegment (seg : string) : string := b64_encode seg.

(** ** Encoding a header *)

(** The formatting of a float64 in JSON, which fails on infinities and NaN, is
    left to the library. *)
Variable format_float : float -> option string.

Fixpoint any_json (a : any) : option json :=
  let list_of := fix F (vs : list any) := match vs with
    | [] => Some []
    | v :: vs' => j ← any_json v; l ← F vs'; Some (j :: l) end in
  let members_of := fix F (ms : list (string * any)) := match ms with
    | [] => Some []
    | (k, v) :: ms' => j ← any_json v; l ← F ms'; Some ((k, j) :: l) end in
  match a with
  | ANil => Some JNull
  | ABool b => Some (JBool b)
  | AFloat f => JNum <$> format_float f
  | ANumber l => Some (JNum l)
  | AString s => Some (JStr s)
  | AArray vs => JArr <$> list_of vs
  | AObject ms => JObj <$> members_of ms
  end.

(** Maps are written in the order of their keys. *)
Fixpoint insert_member (m : string * json) (l : list (string * json)) : list (string * json) :=
  match l with
  | [] => [m]
  | x :: l' => if String.leb (fst m) (fst x) then m :: l else x :: insert_member m l'
  end.

Fixpoint encode_members (l : list (string * any)) : option (list (string * json)) :=
  match l with
  | [] => Some []
  | (k, a) :: l' => j ← any_json a; ms ← encode_members l'; Some (insert_member (k, j) ms)
  end.

Definition encode_map (m : gmap string any) : option json := JObj <$> encode_members (map_to_list m).

Section Signing.
Context {C : Type} `{ClaimsCodec C}.

Definition SigningString (t : Token C) : result error string :=
  want h := encode_map (Header t) otherwise Library;
  want c := encode_claims (token_Claims t) otherwise Library;
  Ok (EncodeSegment (marshal h) ++ "." ++ EncodeSegment (marshal c))%string.

Definition SignedString (rng : entropy) (t : Token C) (key : K) : option (result error string) :=
  match SigningString t with
  | Err err => Some (Err err)
  | Ok sstr =>
      r ← method_Sign (token_Method t) rng sstr key;
      Some match r with
      | Err err => Err err
      | Ok sig => Ok (sstr ++ "." ++ EncodeSegment sig)%string
      end
  end.
End Signing.

(** * The parser *)

Record Parser := MkParser {
  validMethods : option (list string);
  useJSONNumber : bool;
  skipClaimsValidation : bool;
  validator : option Validator;
  decodeStrict : bool;
  decodePaddingAllowed : bool
}.

Definition ParserOption := Parser -> Parser.

Definition set_validator (f : Validator -> Validator) : ParserOption := fun p =>
  MkParser (validMethods p) (useJSONNumber p) (skipClaimsValidation p) (f <$> validator p)
    (decodeStrict p) (decodePaddingAllowed p).

Definition WithValidMethods (methods : option (list string)) : ParserOption := fun p =>
  MkParser methods (useJSONNumber p) (skipClaimsValidation p) (validator p) (decodeStrict p) (decodePaddingAllowed p).
Definition WithJSONNumber : ParserOption := fun p =>
  MkParser (validMethods p) true (skipClaimsValidation p) (validator p) (decodeStrict p) (decodePaddingAllowed p).
Definition WithoutClaimsValidation : ParserOption := fun p =>
  MkParser (validMethods p) (useJSONNumber p) true (validator p) (decodeStrict p) (decodePaddingAllowed p).
Definition WithPaddingAllowed : ParserOption := fun p =>
  MkParser (validMethods p) (useJSONNumber p) (skipClaimsValidation p) (validator p) (decodeStrict p) true.
Definition WithStrictDecoding : ParserOption := fun p =>
  MkParser (validMethods p) (useJSONNumber p) (skipClaimsValidation p) (validator p) true (decodePaddingAllowed p).

Definition WithLeeway (l : Z) : ParserOption := set_validator (fun v =>
  MkValidator l (timeFunc v) (requireExp v) (requireNbf v) (verifyIat v) (expectedAud v) (expectAllAud v)
    (expectedIss v) (expectedSub v)).
Definition WithTimeFunc (f : option time) : ParserOption := set_validator (fun v =>
  MkValidator (leeway v) f (requireExp v) (requireNbf v) (verifyIat v) (expectedAud v) (expectAllAud v)
    (expectedIss v) (expectedSub v)).
Definition WithIssuedAt : ParserOption := set_validator (fun v =>
  MkValidator (leeway v) (timeFunc v) (requireExp v) (requireNbf v) true (expectedAud v) (expectAllAud v)
    (expectedIss v) (expectedSub v)).
Definition WithExpirationRequired : ParserOption := set_validator (fun v =>
  MkValidator (leeway v) (timeFunc v) true (requireNbf v) (verifyIat v) (expectedAud v) (expectAllAud v)
    (expectedIss v) (expectedSub v)).
Definition WithNotBeforeRequired : ParserOption := set_validator (fun v =>
  MkValidator (leeway v) (timeFunc v) (requireExp v) true (verifyIat v) (expectedAud v) (expectAllAud v)
    (expectedIss v) (expectedSub v)).
Definition WithAudience (aud : list string) : ParserOption := set_validator (fun v =>
  MkValidator (leeway v) (timeFunc v) (requireExp v) (requireNbf v) (verifyIat v) aud (expectAllAud v)
    (expectedIss v) (expectedSub v)).
Definition WithAllAudiences (aud : list string) : ParserOption := set_validator (fun v =>
  MkValidator (leeway v) (timeFunc v) (requireExp v) (requireNbf v) (verifyIat v) aud true
    (expectedIss v) (expectedSub v)).
Definition WithIssuer (iss : string) : ParserOption := set_validator (fun v =>
  MkValidator (leeway v) (timeFunc v) (requireExp v) (requireNbf v) (verifyIat v) (expectedAud v) (expectAllAud v)
    iss (expectedSub v)).
Definition WithSubject (sub : string) : ParserOption := set_validator (fun v =>
  MkValidator (leeway v) (timeFunc v) (requireExp v) (requireNbf v) (verifyIat v) (expectedAud v) (expectAllAud v)
    (expectedIss v) sub).

Definition NewParser (options : list ParserOption) : Parser :=
  foldl (fun p option => option p) (MkParser None false false (Some zero_validator) false false) options.

Definition NewValidator (opts : list ParserOption) : option Validator := validator (NewParser opts).

(** ** Segments *)

Definition tokenDelimiter : ascii := "."%char.

Definition splitToken (token : string) : option (string * string * string) :=
  match cut tokenDelimiter token with
  | None => None
  | Some (header, remain) =>
      match cut tokenDelimiter remain with
      | None => None
      | Some (claims, remain) =>
          match cut tokenDelimiter remain with
          | Some _ => None
          | None => Some (header, claims, remain)
          end
      end
  end.

Definition DecodeSegment (p : Parser) (seg : string) : option string :=
  let seg := if decodePaddingAllowed p then b64_pad seg else seg in
  b64_decode (decodePaddingAllowed p) (decodeStrict p) seg.

(** ** Duplicate members *)

(** The token loop after the opening brace: [first] before the first member.
    [More] is false at a closing bracket and at the end of the input, and then
    only a brace is a token. *)
Fixpoint reject_members (fuel : nat) (first : bool) (seen : list string) (s : string) : option error :=
  match fuel with
  | O => Some Library
  | S fuel' =>
      match skip_ws s with
      | EmptyString => Some Library
      | String c s1 as s0 =>
          if is_char 125 c then None
          else if is_char 93 c then Some Library
          else
            let key_at := if first then Some s0
                          else if is_char 44 c then Some (skip_ws s1) else None in
            match key_at with
            | Some (String q s2) =>
                if negb (is_char 34 q) then Some Library else
                match scan_string 0 s2 with
                | None => Some Library
                | Some (key, r) =>
                    if contains seen key then Some (Message "duplicate JSON object key")
                    else
                      match skip_ws r with
                      | String col r1 =>
                          if negb (is_char 58 col) then Some Library else
                          match decode_first r1 with
                          | Some (_, r2) => reject_members fuel' false (key :: seen) r2
                          | None => Some Library
                          end
                      | EmptyString => Some Library
                      end
                end
            | _ => Some Library
            end
      end
  end.

Definition rejectDuplicateTopLevelJSONKeys (data : string) : option error :=
  match skip_ws data with
  | EmptyString => Some Library
  | String c s1 as s0 =>
      if is_char 123 c then reject_members (S (String.length data)) true [] s1
      else if is_char 91 c then None
      else match decode_first s0 with
      | Some (v, _) => match any_of_json false v with Some _ => None | None => Some Library end
      | None => Some Library
      end
  end.

(** ** Parsing *)

Definition decode_header (v : json) : option (gmap string any) :=
  match v with
  | JObj ms => decode_map false ms ∅
  | JNull => Some ∅
  | _ => None
  end.

Section Parsing.
Context {C : Type} `{Claims C} `{ClaimsCodec C}.
Variable signingMethods : registry.

Definition malformed (msg : string) : error := newError msg (Sentinel ErrTokenMalformed) [Library].
Definition unverifiable (msg : string) : error := newError msg (Sentinel ErrTokenUnverifiable) [].

Definition ParseUnverified (p : Parser) (tokenString : string) (claims : C)
    : result error (Token C * (string * string * string)) :=
  want ((h, c, s) as parts) := splitToken tokenString
    otherwise newError "token contains an invalid number of segments" (Sentinel ErrTokenMalformed) [];
  want headerBytes := DecodeSegment p h otherwise malformed "could not base64 decode header";
  match rejectDuplicateTopLevelJSONKeys headerBytes with
  | Some err => Err (newError "could not JSON decode header" (Sentinel ErrTokenMalformed) [err])
  | None =>
  want header := (v ← unmarshal headerBytes; decode_header v) otherwise malformed "could not JSON decode header";
  want claimBytes := DecodeSegment p c otherwise malformed "could not base64 decode claim";
  match rejectDuplicateTopLevelJSONKeys claimBytes with
  | Some err => Err (newError "could not JSON decode claim" (Sentinel ErrTokenMalformed) [err])
  | None =>
  want claims := (v ← (if useJSONNumber p then fst <$> decode_first claimBytes else unmarshal claimBytes);
              decode_claims (useJSONNumber p) v claims)
    otherwise malformed "could not JSON decode claim";
  match header !! "alg"%string with
  | Some (AString method) =>
      want m := GetSigningMethod signingMethods method otherwise unverifiable "signing method (alg) is unavailable";
      want sig := DecodeSegment p s otherwise malformed "could not base64 decode signature";
      Ok (MkToken tokenString m header claims sig false, parts)
  | _ => Err (unverifiable "signing method (alg) is unspecified")
  end end end.

(** The loop over a key set: the last error unless a key verifies. *)
Fixpoint verify_keys (m : SigningMethod) (text sig : string) (keys : list K) (err : option error)
    : option (option error) :=
  match keys with
  | [] => Some err
  | key :: keys' =>
      r ← method_Verify m text sig key;
      match r with None => Some None | Some e => verify_keys m text sig keys' (Some e) end
  end.

Definition verify_signature (t : Token C) (text : string) (got : found_key) : option (option error) :=
  match got with
  | VerificationKeySet keys => verify_keys (token_Method t) text (Signature t) keys None
  | SingleKey have => method_Verify (token_Method t) text (Signature t) have
  end.

Definition ParseWithClaims (p : Parser) (clock : time) (tokenString : string) (claims : C)
    (keyFunc : option (Token C -> result error found_key)) : option (result error (Token C)) :=
  match ParseUnverified p tokenString claims with
  | Err err => Some (Err err)
  | Ok (token, (h, c, _)) =>
      let alg := Alg (token_Method token) in
      if match validMethods p with Some ms => negb (contains ms alg) | None => false end
      then Some (Err (newError "signing method is invalid" (Sentinel ErrTokenSignatureInvalid) []))
      else
      match keyFunc with
      | None => Some (Err (unverifiable "no keyfunc was provided"))
      | Some keyFunc =>
          match keyFunc token with
          | Err err => Some (Err (newError "error while executing keyfunc" (Sentinel ErrTokenUnverifiable) [err]))
          | Ok (VerificationKeySet []) =>
              Some (Err (unverifiable "keyfunc returned empty verification key set"))
          | Ok got =>
              r ← verify_signature token (h ++ "." ++ c)%string got;
              Some match r with
              | Some err => Err (newError "" (Sentinel ErrTokenSignatureInvalid) [err])
              | None =>
                  match (if skipClaimsValidation p then None
                         else Validate (default zero_validator (validator p)) clock (token_Claims token)) with
                  | Some err => Err (newError "" (Sentinel ErrTokenInvalidClaims) [err])
                  | None => Ok (MkToken (Raw token) (token_Method token) (Header token) (token_Claims token)
                                  (Signature token) true)
                  end
              end
          end
      end
  end.
End Parsing.
End Jwt.

Arguments SigningMethod : clear implicits.
Arguments registry : clear implicits.
Arguments found_key : clear implicits.
Arguments Token : clear implicits.
Arguments MkToken {K C}. Arguments Raw {K C}. Arguments token_Method {K C}. Arguments Header {K C}.
Arguments token_Claims {K C}. Arguments Signature {K C}. Arguments Valid {K C}.

(** Claims kept as a map decode member by member into the map given. *)
#[export] Instance map_claims_codec (format_float : float -> option string) : ClaimsCodec MapClaims := {
  decode_claims useNumber v c := match v with
    | JObj ms => decode_map useNumber ms c
    | JNull => Some c
    | _ => None end;
  encode_claims c := encode_map format_float c
}.

(** [Parse] *)
Definition Parse {K} `{FloatConv} (format_float : float -> option string) (signingMethods : registry K) (p : Parser)
    (clock : time) (tokenString : string) (keyFunc : option (Token K MapClaims -> result error (found_key K)))
    : option (result error (Token K MapClaims)) :=
  ParseWithClaims (H0 := map_claims_codec format_float) signingMethods p clock tokenString (∅ : MapClaims) keyFunc.
