(* ===== verification/JwtFacts.v ===== *)
(** What the parser accepts: segments, duplicate members, and the conditions a
    token meets when [ParseWithClaims] returns it. *)
From Stdlib Require Import ZArith Lia Ascii String.
From stdpp Require Import base numbers list strings option gmap.
From S2P Require Import Prelude Text Json JsonFacts Claims JwtParser.
Local Open Scope Z_scope.

(** * Segments *)

Lemma decode_segment_encode p s : DecodeSegment p (EncodeSegment s) = Some s.
Proof.
  unfold DecodeSegment, EncodeSegment, b64_decode. pose proof (b64_encode_alphabet s) as Ha.
  destruct (decodePaddingAllowed p).
  - rewrite strip_newlines_pad by done. apply b64_quanta_padded.
  - rewrite strip_newlines_alphabet by done. apply b64_quanta_encode.
Qed.

Lemma encoded_free s : free_of tokenDelimiter (EncodeSegment s) = true.
Proof.
  apply (string_all_impl b64_alphabet); [|apply b64_encode_alphabet]. intros c Hc.
  apply negb_true_iff, Ascii.eqb_neq. intros ->. by apply b64_alphabet_plain in Hc as (_ & _ & _ & ?).
Qed.

Definition join3_segments (h c s : string) : string := (h ++ "." ++ c ++ "." ++ s)%string.

Lemma split_token_spec token h c s :
  splitToken token = Some (h, c, s) <->
  token = join3_segments h c s /\ free_of tokenDelimiter h = true /\ free_of tokenDelimiter c = true /\
  free_of tokenDelimiter s = true.
Proof.
  unfold splitToken, join3_segments. split.
  - destruct (cut _ token) as [[h' r]|] eqn:E1; [|done].
    destruct (cut _ r) as [[c' r']|] eqn:E2; [|done].
    destruct (cut _ r') as [[]|] eqn:E3; [done|]. intros [= <- <- <-].
    apply cut_spec in E1 as [-> ?]. apply cut_spec in E2 as [-> ?]. apply cut_none in E3. done.
  - intros (-> & Hh & Hc & Hs).
    rewrite (proj2 (cut_spec _ _ h (c ++ "." ++ s)%string)) by done.
    rewrite (proj2 (cut_spec _ _ c s)) by done. by rewrite (proj2 (cut_none _ s)).
Qed.

(** * Duplicate members *)

(** More nesting allowed changes nothing for a document that parses. *)
Lemma value_depth f :
  (forall d d' s r, d <= d' -> value f d s = Some r -> value f d' s = Some r) /\
  (forall d d' s r, d <= d' -> elements f d s = Some r -> elements f d' s = Some r) /\
  (forall d d' s r, d <= d' -> members f d s = Some r -> members f d' s = Some r).
Proof.
  induction f as [|f (IHv & IHe & IHm)]; [done|].
  assert (forall A B (x x' : option A) (k : A -> option B) r,
    (forall y, x = Some y -> x' = Some y) -> (x ≫= k) = Some r -> (x' ≫= k) = Some r) as Hb.
  { intros A B x x' k r Hx. destruct x as [y|]; [|done]. by rewrite (Hx y eq_refl). }
  split; [|split]; intros d d' s r Hd.
  - cbn [value]. destruct (skip_ws s) as [|c s1]; [done|].
    assert (forall A (k : Z -> option A) q, (forall q, k (d - 1) = Some q -> k (d' - 1) = Some q) ->
      (if d <=? 0 then None else k (d - 1)) = Some q -> (if d' <=? 0 then None else k (d' - 1)) = Some q) as Hk.
    { intros A k q Hkk. destruct (Z.leb_spec d 0), (Z.leb_spec d' 0); try done; [lia|apply Hkk]. }
    destruct (is_char 123 c).
    { apply (Hk _ (fun d => match skip_ws s1 with
        | EmptyString => None
        | String e r => if is_char 125 e then Some (JObj [], r) else '(ms, r) ← members f d s1; Some (JObj ms, r) end)).
      intros q. destruct (skip_ws s1) as [|e r']; [done|]. destruct (is_char 125 e); [done|].
      apply Hb. intros y. apply IHm. lia. }
    destruct (is_char 91 c).
    { apply (Hk _ (fun d => match skip_ws s1 with
        | EmptyString => None
        | String e r => if is_char 93 e then Some (JArr [], r) else '(vs, r) ← elements f d s1; Some (JArr vs, r) end)).
      intros q. destruct (skip_ws s1) as [|e r']; [done|]. destruct (is_char 93 e); [done|].
      apply Hb. intros y. apply IHe. lia. }
    done.
  - cbn [elements]. destruct (value f d s) as [[v r']|] eqn:E; [|done]. rewrite (IHv _ _ _ _ Hd E).
    cbn [mbind option_bind]. destruct (skip_ws r') as [|c t]; [done|]. destruct (is_char 44 c); [|done].
    apply Hb. intros y. by apply IHe.
  - cbn [members]. destruct (skip_ws s) as [|q s1]; [done|]. destruct (negb _); [done|].
    destruct (scan_string 0 s1) as [[k t]|]; [|done]. cbn [mbind option_bind].
    destruct (skip_ws t) as [|col r1]; [done|]. destruct (negb _); [done|].
    destruct (value f d r1) as [[v r']|] eqn:E; [|done]. rewrite (IHv _ _ _ _ Hd E).
    cbn [mbind option_bind]. destruct (skip_ws r') as [|c u]; [done|]. destruct (is_char 44 c); [|done].
    apply Hb. intros y. by apply IHm.
Qed.

Lemma decode_first_value f d s v r :
  d <= max_depth -> value f d s = Some (v, r) -> (2 * String.length s + 2 <= f)%nat -> decode_first s = Some (v, r).
Proof.
  intros Hd Hv Hf. unfold decode_first. rewrite <- (value_fuel_enough f) by done.
  by apply (proj1 (value_depth f) d).
Qed.

Lemma fresh_keys (key : string) seen ks :
  ~ In key seen ->
  (NoDup ks /\ Forall (fun k => ~ In k (key :: seen)) ks) <->
  ((key ∉ ks) /\ NoDup ks) /\ ~ In key seen /\ Forall (fun k => ~ In k seen) ks.
Proof.
  intros Hk. split.
  - intros [Hn Hf]. split; [split; [|done]|split; [done|]].
    + intros Hin. rewrite List.Forall_forall in Hf. apply list_elem_of_In in Hin. apply (Hf key Hin). by left.
    + eapply List.Forall_impl; [|exact Hf]. intros k Hin ?. apply Hin. by right.
  - intros [[Hni Hn] [_ Hf]]. split; [done|]. rewrite List.Forall_forall in *. intros k Hin [->|Hs].
    + apply Hni. by apply list_elem_of_In.
    + by apply (Hf k Hin).
Qed.

(** On the members of an object that parses, the loop finds the duplicates. *)
Lemma reject_members_spec m f d s ms r :
  (String.length s < m)%nat -> (2 * String.length s + 2 <= f)%nat -> d <= max_depth ->
  members f d s = Some (ms, r) ->
  forall (first : bool) (seen : list string) (s0 : string), (if first then s0 = s else exists c, s0 = String c s /\ is_char 44 c = true) ->
  reject_members m first seen s0 = None <-> NoDup (fst <$> ms) /\ Forall (fun k => ~ In k seen) (fst <$> ms).
Proof.
  revert f s ms r. induction m as [|m IH]; intros f s ms r Hm Hf Hd Hms first seen s0 Hs0; [lia|].
  destruct f as [|f]; [lia|]. cbn [members] in Hms.
  destruct (skip_ws s) as [|q s1] eqn:Ews; [done|].
  destruct (negb (is_char 34 q)) eqn:Eq; [done|].
  destruct (scan_string 0 s1) as [[key t]|] eqn:Ek; [|done]. cbn [mbind option_bind] in Hms.
  destruct (skip_ws t) as [|col r1] eqn:Et; [done|]. destruct (negb (is_char 58 col)) eqn:Ecol; [done|].
  destruct (value f d r1) as [[v r2]|] eqn:Ev; [|done]. cbn [mbind option_bind] in Hms.
  pose proof (skip_ws_len s) as L1. pose proof (scan_string_len _ _ _ _ Ek) as L2. pose proof (skip_ws_len t) as L3.
  rewrite Ews in L1. rewrite Et in L3. cbn [String.length] in L1, L3.
  pose proof (proj1 (value_len f) _ _ _ _ Ev) as L4.
  pose proof (decode_first_value f d r1 v r2 Hd Ev ltac:(lia)) as Hdf.
  (* the loop is at the key of the first member *)
  assert (reject_members (S m) first seen s0 =
    if contains seen key then Some (Message "duplicate JSON object key")
    else reject_members m false (key :: seen) r2) as ->.
  { destruct first; cbn [reject_members].
    - subst s0. rewrite Ews. apply negb_false_iff in Eq.
      assert (is_char 125 q = false /\ is_char 93 q = false) as [-> ->].
      { unfold is_char in *. apply Z.eqb_eq in Eq. rewrite Eq. done. }
      rewrite Eq. cbn [negb]. rewrite Ek. destruct (contains seen key); [done|]. rewrite Et, Ecol, Hdf. done.
    - destruct Hs0 as (c & -> & Hc). cbn [skip_ws].
      assert (is_space c = false /\ is_char 125 c = false /\ is_char 93 c = false) as (-> & -> & ->).
      { unfold is_space, is_char in *. apply Z.eqb_eq in Hc. rewrite Hc. done. }
      rewrite Hc, Ews, Eq, Ek. destruct (contains seen key); [done|]. rewrite Et, Ecol, Hdf. done. }
  destruct (skip_ws r2) as [|c u] eqn:Er2; [done|].
  assert (contains seen key = true <-> In key seen) as Hseen by apply contains_spec.
  pose proof (skip_ws_len r2) as L5. rewrite Er2 in L5. cbn [String.length] in L5.
  assert (reject_members m false (key :: seen) r2 = reject_members m false (key :: seen) (String c u)) as Hskip.
  { destruct m; [done|]. cbn [reject_members]. rewrite Er2.
    assert (skip_ws (String c u) = String c u) as ->; [|done].
    clear - Er2. revert Er2. induction r2 as [|x r2 IH]; [done|]. cbn [skip_ws]. destruct (is_space x) eqn:Ex; [done|].
    intros [= -> ->]. cbn. by rewrite Ex. }
  destruct (is_char 44 c) eqn:Ec.
  - destruct (members f d u) as [[ms' r'']|] eqn:Em; [|done]. cbn [mbind option_bind] in Hms.
    injection Hms as <- <-. rewrite fmap_cons, NoDup_cons, Forall_cons. cbn [fst].
    destruct (contains seen key) eqn:Ecs.
    + split; [done|]. intros (_ & Hk & _). exfalso. by apply Hk, Hseen.
    + rewrite Hskip. rewrite (IH f u ms' r'' ltac:(lia) ltac:(lia) Hd Em false (key :: seen)) by (by exists c).
      assert (~ In key seen) by (intros ?%Hseen; congruence).
      by apply fresh_keys.
  - destruct (is_char 125 c) eqn:Ec2; [|done]. injection Hms as <- <-. rewrite fmap_cons. cbn [fst fmap list_fmap].
    destruct (contains seen key) eqn:Ecs.
    + split; [done|]. intros (_ & Hk). apply Forall_cons_1 in Hk as [Hk _]. exfalso. by apply Hk, Hseen.
    + rewrite Hskip. destruct m; [lia|]. cbn [reject_members skip_ws].
      assert (is_space c = false) as ->.
      { unfold is_space, is_char in *. apply Z.eqb_eq in Ec2. rewrite Ec2. done. }
      rewrite Ec2. split; [|done]. intros _. split; [apply NoDup_singleton|].
      constructor; [|constructor]. intros ?%Hseen. congruence.
Qed.

Lemma value_object f d s ms r :
  value f d s = Some (JObj ms, r) ->
  exists f' c s1, f = S f' /\ skip_ws s = String c s1 /\ is_char 123 c = true /\
    ((ms = [] /\ exists e, skip_ws s1 = String e r /\ is_char 125 e = true) \/
     members f' (d - 1) s1 = Some (ms, r)).
Proof.
  destruct f as [|f]; [done|]. cbn [value]. destruct (skip_ws s) as [|c s1] eqn:E; [done|].
  intros H. exists f, c, s1. split; [done|]. split; [done|].
  destruct (is_char 123 c); [|].
  - split; [done|]. destruct (d <=? 0); [done|]. destruct (skip_ws s1) as [|e r'] eqn:E1; [done|].
    destruct (is_char 125 e) eqn:Ee.
    + injection H as <- <-. left. split; [done|]. by exists e.
    + destruct (members f (d - 1) s1) as [[ms' r'']|]; [|done]. injection H as <- <-. by right.
  - exfalso. repeat inv_step H; simplify_eq; unfold scan_literal in *; repeat case_match; simplify_eq.
Qed.

(** The check passes an object exactly when its member names are distinct. *)
Lemma reject_duplicates_object data ms :
  unmarshal data = Some (JObj ms) ->
  rejectDuplicateTopLevelJSONKeys data = None <-> NoDup (fst <$> ms).
Proof.
  unfold unmarshal. destruct (decode_first data) as [[v r]|] eqn:E; [|done]. cbn [mbind option_bind].
  destruct (skip_ws r); [|done]. intros [= ->]. unfold decode_first in E.
  destruct (value_object _ _ _ _ _ E) as (f & c & s1 & Hf & Hs & Hc & Hms).
  pose proof (skip_ws_len data) as L. rewrite Hs in L. cbn [String.length] in L.
  unfold document_fuel in Hf. unfold rejectDuplicateTopLevelJSONKeys. rewrite Hs, Hc.
  destruct Hms as [(-> & e & He & Hec)|Hms].
  - cbn [reject_members]. rewrite He, Hec. split; [|done]. intros _. apply NoDup_nil_2.
  - rewrite (reject_members_spec _ f (max_depth - 1) s1 ms r) by (unfold max_depth in *; done || lia).
    split; [tauto|]. intros Hn. split; [done|]. apply List.Forall_forall. intros k _ [].
Qed.

Lemma reject_duplicates_other data v a :
  unmarshal data = Some v -> (forall ms, v <> JObj ms) -> any_of_json false v = Some a ->
  rejectDuplicateTopLevelJSONKeys data = None.
Proof.
  unfold unmarshal, rejectDuplicateTopLevelJSONKeys. intros Hu Hv Ha.
  destruct (decode_first data) as [[w r]|] eqn:E; [|done]. cbn [mbind option_bind] in Hu.
  destruct (skip_ws r); [|done]. injection Hu as ->. unfold decode_first, document_fuel in E.
  replace (2 * String.length data + 2)%nat with (S (2 * String.length data + 1)) in E by lia. cbn [value] in E.
  pose proof (skip_ws_len data) as L.
  destruct (skip_ws data) as [|c s1] eqn:Es; [done|]. cbn [String.length] in L.
  destruct (is_char 123 c) eqn:Ec.
  { exfalso. repeat inv_step E; simplify_eq; by eapply Hv. }
  destruct (is_char 91 c) eqn:E9; [done|].
  assert (decode_first (String c s1) = Some (v, r)) as ->; [|by rewrite Ha].
  unfold decode_first, document_fuel. replace (2 * String.length (String c s1) + 2)%nat with (S (2 * String.length s1 + 3))
    by (cbn [String.length]; lia). cbn [value].
  assert (skip_ws (String c s1) = String c s1) as ->.
  { clear - Es. revert Es. induction data as [|x data IH]; [done|]. cbn [skip_ws]. destruct (is_space x) eqn:Ex; [done|].
    intros [= -> ->]. cbn. by rewrite Ex. }
  by rewrite Ec, E9.
Qed.

(** * What the parser returns *)

Section Sound.
Context {K C : Type} `{Claims C} `{ClaimsCodec C} (signingMethods : registry K).
Implicit Types (t : Token K C).

(** A key, or a key of a set, verifies the text. *)
Definition verified_by (m : SigningMethod K) (text sig : string) (got : found_key K) : Prop :=
  match got with
  | SingleKey k => method_Verify m text sig k = Some None
  | VerificationKeySet keys => exists before k after, keys = before ++ k :: after /\
      Forall (fun k => exists e, method_Verify m text sig k = Some (Some e)) before /\
      method_Verify m text sig k = Some None
  end.

Lemma verify_keys_spec m text sig keys err :
  verify_keys m text sig keys err = Some None <->
  keys = [] /\ err = None \/ verified_by m text sig (VerificationKeySet keys).
Proof.
  revert err. induction keys as [|k keys IH]; intros err; cbn [verify_keys].
  { split.
    - intros [= ->]. by left.
    - intros [[_ ->]|(b & k & a & Hk & _)]; [done|]. by destruct b. }
  destruct (method_Verify m text sig k) as [[e|]|] eqn:E; cbn [mbind option_bind].
  - rewrite IH. split.
    + intros [[_ [=]]|(b & k' & a & -> & Hb & Hk')]. right. exists (k :: b), k', a. split; [done|].
      split; [|done]. constructor; [by exists e|done].
    + intros [[[=] _]|(b & k' & a & Hk & Hb & Hk')]. right. destruct b as [|x b].
      * injection Hk as <- <-. congruence.
      * injection Hk as <- ->. apply Forall_cons_1 in Hb as [_ Hb]. by exists b, k', a.
  - split; [|done]. intros _. right. exists [], k, keys. split; [done|]. split; [constructor|done].
  - split; [done|]. intros [[[=] _]|(b & k' & a & Hk & Hb & Hk')]. destruct b as [|x b].
    + injection Hk as <- <-. congruence.
    + injection Hk as <- ->. apply Forall_cons_1 in Hb as [(e & He) _]. congruence.
Qed.

(** What the three segments of a token decode to. *)
Record unverified (p : Parser) (token : string) (claims : C) (t : Token K C) (h c : string) : Prop := Unverified {
  un_split : exists s, splitToken token = Some (h, c, s) /\ DecodeSegment p s = Some (Signature t);
  un_header : exists bytes v, DecodeSegment p h = Some bytes /\ rejectDuplicateTopLevelJSONKeys bytes = None /\
    unmarshal bytes = Some v /\ decode_header v = Some (Header t);
  un_claims : exists bytes v, DecodeSegment p c = Some bytes /\ rejectDuplicateTopLevelJSONKeys bytes = None /\
    (if useJSONNumber p then fst <$> decode_first bytes else unmarshal bytes) = Some v /\
    decode_claims (useJSONNumber p) v claims = Some (token_Claims t);
  un_method : exists alg, Header t !! "alg"%string = Some (AString alg) /\
    GetSigningMethod signingMethods alg = Some (token_Method t);
  un_raw : Raw t = token
}.

Lemma ParseUnverified_ok p token claims t h c s :
  ParseUnverified signingMethods p token claims = Ok (t, (h, c, s)) <->
  unverified p token claims t h c /\ Valid t = false /\ splitToken token = Some (h, c, s).
Proof.
  unfold ParseUnverified. split.
  - destruct (splitToken token) as [[[h' c'] s']|] eqn:Es; [|done].
    destruct (DecodeSegment p h') as [hb|] eqn:Eh; [|done].
    destruct (rejectDuplicateTopLevelJSONKeys hb) eqn:Er; [done|].
    destruct (unmarshal hb) as [v|] eqn:Eu; [|done]. cbn [mbind option_bind].
    destruct (decode_header v) as [hd|] eqn:Ed; [|done].
    destruct (DecodeSegment p c') as [cb|] eqn:Ec; [|done].
    destruct (rejectDuplicateTopLevelJSONKeys cb) eqn:Er2; [done|].
    destruct (if useJSONNumber p then _ else _) as [w|] eqn:Ew; [|done]. cbn [mbind option_bind].
    destruct (decode_claims _ w claims) as [cl|] eqn:Ecl; [|done].
    destruct (hd !! "alg"%string) as [[| | | |alg| |]|] eqn:Ea; try done.
    destruct (GetSigningMethod signingMethods alg) as [m|] eqn:Em; [|done].
    destruct (DecodeSegment p s') as [sg|] eqn:Esg; [|done].
    intros [= <- <- <- <-]. split; [|done]. constructor; cbn; eauto 10.
  - intros ([(s' & Hs & Hsig) (hb & v & Hh & Hr & Hu & Hd) (cb & w & Hc & Hr2 & Hw & Hcl) (alg & Ha & Hm) Hraw] & Hv & Hsp).
    rewrite Hsp in *. injection Hs as <-. rewrite Hh, Hr, Hu. cbn [mbind option_bind]. rewrite Hd, Hc, Hr2, Hw.
    cbn [mbind option_bind]. rewrite Hcl, Ha, Hm, Hsig. destruct t; cbn in *. by subst.
Qed.

Definition validate_token t : Token K C :=
  MkToken (Raw t) (token_Method t) (Header t) (token_Claims t) (Signature t) true.

(** The conditions under which [ParseWithClaims] returns a token. *)
Record accepts (p : Parser) (clock : time) (token : string) (claims : C)
    (keyFunc : Token K C -> result error (found_key K)) (t : Token K C) : Prop := Accepts {
  ac_valid : Valid t = true;
  ac_verified : exists t0 h c got, t = validate_token t0 /\ Valid t0 = false /\ unverified p token claims t0 h c /\
    keyFunc t0 = Ok got /\ verified_by (token_Method t) (h ++ "." ++ c)%string (Signature t) got;
  ac_method : match validMethods p with Some ms => In (Alg (token_Method t)) ms | None => True end;
  ac_claims : skipClaimsValidation p = false ->
    let v := default zero_validator (validator p) in
    claims_acceptable v (default clock (timeFunc v)) (token_Claims t)
}.

Lemma ParseWithClaims_ok p clock token claims keyFunc t :
  ParseWithClaims signingMethods p clock token claims (Some keyFunc) = Some (Ok t) <->
  accepts p clock token claims keyFunc t.
Proof.
  unfold ParseWithClaims. cbv zeta.
  assert (forall m text sig got, verify_signature (MkToken "" m ∅ claims sig false) text got = Some None <->
    got = VerificationKeySet [] \/ verified_by m text sig got) as Hver.
  { intros m text sig [k|keys]; cbn [verify_signature token_Method Signature verified_by].
    - split; [by right|]. by intros [[=]|].
    - rewrite verify_keys_spec. cbn [verified_by]. split.
      + intros [[-> _]|]; [by left|by right].
      + intros [[= ->]|]; [by left|by right]. }
  split.
  - destruct (ParseUnverified signingMethods p token claims) as [[t0 [[h c] s]]|e] eqn:E; [|done].
    apply ParseUnverified_ok in E as (Hun & Hv & Hsp).
    destruct (match validMethods p with Some ms => _ | None => false end) eqn:Em; [done|].
    destruct (keyFunc t0) as [got|e] eqn:Ek; [|done].
    assert (match validMethods p with Some ms => In (Alg (token_Method t0)) ms | None => True end) as Hm.
    { destruct (validMethods p); [|done]. apply contains_spec. by apply negb_false_iff. }
    assert (forall r : option (option error), r = verify_signature t0 (h ++ "." ++ c)%string got ->
      (r' ← r; Some match r' with
        | Some err => Err (newError "" (Sentinel ErrTokenSignatureInvalid) [err])
        | None => match (if skipClaimsValidation p then None else
              Validate (default zero_validator (validator p)) clock (token_Claims t0)) with
            | Some err => Err (newError "" (Sentinel ErrTokenInvalidClaims) [err])
            | None => Ok (MkToken (Raw t0) (token_Method t0) (Header t0) (token_Claims t0) (Signature t0) true)
            end end) = Some (Ok t) -> got <> VerificationKeySet [] -> accepts p clock token claims keyFunc t) as Hr.
    { intros [[e|]|] Hr; cbn [mbind option_bind]; [done| |done]. intros Hok Hne.
      destruct (if skipClaimsValidation p then None else _) eqn:Ev; [done|]. injection Hok as <-.
      constructor; cbn [Valid token_Method Signature token_Claims]; [done| |done|].
      - exists t0, h, c, got. split; [done|]. split; [done|]. split; [done|]. split; [done|].
        assert (verify_signature (MkToken "" (token_Method t0) ∅ claims (Signature t0) false) (h ++ "." ++ c)%string got
          = Some None) as Hvs by (symmetry; etransitivity; [exact Hr|by destruct got]).
        apply Hver in Hvs as [?|?]; done.
      - intros Hsk. rewrite Hsk in Ev. by apply Validate_none. }
    destruct got as [k|[|k ks]]; [|done|]; intros Hok; eapply Hr; done.
  - intros [Hval (t0 & h & c & got & Ht & Hv0 & Hun & Hk & Hvb) Hm Hcl]. subst t. cbn [validate_token token_Method Signature token_Claims] in *.
    destruct (un_split _ _ _ _ _ _ Hun) as (s & Hsp & _).
    rewrite (proj2 (ParseUnverified_ok p token claims t0 h c s)) by done.
    assert ((match validMethods p with Some ms => negb (contains ms (Alg (token_Method t0))) | None => false end) = false) as ->.
    { destruct (validMethods p); [|done]. by apply negb_false_iff, contains_spec. }
    rewrite Hk. assert (verify_signature t0 (h ++ "." ++ c)%string got = Some None) as Hvs.
    { transitivity (verify_signature (MkToken "" (token_Method t0) ∅ claims (Signature t0) false) (h ++ "." ++ c)%string got);
        [by destruct got|]. apply Hver. by right. }
    assert ((if skipClaimsValidation p then None else
      Validate (default zero_validator (validator p)) clock (token_Claims t0)) = None) as ->.
    { destruct (skipClaimsValidation p); [done|]. apply Validate_none, Hcl. done. }
    destruct got as [k|[|k ks]]; [|by destruct Hvb as ([|] & ? & ? & [=] & _)|]; rewrite Hvs; done.
Qed.
End Sound.

(** * What is issued parses *)

(** Headers of strings, as the code makes them. *)
Definition string_entry (k : string) (a : any) : Prop :=
  exists s, a = AString s /\ valid_utf8 s = true /\ valid_utf8 k = true.

Definition json_of_entry (e : string * any) : string * json :=
  (fst e, match snd e with AString s => JStr s | _ => JNull end).

Lemma insert_member_perm m l : insert_member m l ≡ₚ m :: l.
Proof.
  induction l as [|x l IH]; cbn; [done|]. destruct (String.leb _ _); [done|]. rewrite IH. apply Permutation_swap.
Qed.

Lemma encode_members_strings ff l :
  Forall (fun e => string_entry (fst e) (snd e)) l ->
  exists ms, encode_members ff l = Some ms /\ ms ≡ₚ json_of_entry <$> l.
Proof.
  induction 1 as [|[k a] l (s & Ha & _) Hl (ms & Hms & Hp)]; [by exists []|]. cbn in Ha. subst a.
  exists (insert_member (k, JStr s) ms). cbn [encode_members any_json mbind option_bind]. rewrite Hms.
  split; [done|]. rewrite insert_member_perm. by rewrite Hp.
Qed.

Lemma decode_map_strings u (ms : list (string * json)) m0 :
  Forall (fun e => exists s, snd e = JStr s) ms -> NoDup (fst <$> ms) ->
  decode_map u ms m0 =
  Some (list_to_map ((fun e => (fst e, match snd e with JStr s => AString s | _ => ANil end)) <$> ms) ∪ m0).
Proof.
  intros Hf. revert m0. induction Hf as [|[k v] ms (s & Hv) Hms IH]; intros m0 Hnd.
  - cbn. by rewrite (left_id_L ∅ (∪)).
  - cbn in Hv. subst v. cbn [decode_map any_of_json mbind option_bind]. cbn in Hnd. apply NoDup_cons in Hnd as [Hk Hnd].
    rewrite IH by done. cbn. f_equal. rewrite <- insert_union_l. symmetry. apply insert_union_r, not_elem_of_list_to_map_1.
    intros Hin. apply Hk. rewrite <- list_fmap_compose in Hin. exact Hin.
Qed.

Lemma encode_string_map ff (m : gmap string any) :
  map_Forall string_entry m ->
  exists ms, encode_map ff m = Some (JObj ms) /\ NoDup (fst <$> ms) /\
    (forall u, decode_map u ms ∅ = Some m) /\ writable (JObj ms) = true /\ depth_of (JObj ms) <= 1.
Proof.
  intros Hm.
  assert (Forall (fun e => string_entry (fst e) (snd e)) (map_to_list m)) as Hl.
  { apply list.Forall_forall. intros [k a] Hin. apply elem_of_map_to_list in Hin. by apply (Hm k a). }
  destruct (encode_members_strings ff _ Hl) as (ms & Hms & Hp). exists ms.
  unfold encode_map. rewrite Hms. split; [done|].
  assert (Forall (fun e => (exists s, snd e = JStr s /\ valid_utf8 s = true) /\ valid_utf8 (fst e) = true) ms) as Hf.
  { rewrite Hp. apply list.Forall_forall. intros [k v] Hin. apply list_elem_of_fmap in Hin as ([k' a] & [= -> ->] & Hin).
    rewrite list.Forall_forall in Hl. destruct (Hl _ Hin) as (s & Ha & Hs & Hk). cbn in *. subst a. split; [by exists s|done]. }
  assert (NoDup (fst <$> ms)) as Hnd.
  { rewrite Hp, <- list_fmap_compose. apply NoDup_fst_map_to_list. }
  split; [done|]. split; [|split].
  - intros u. rewrite decode_map_strings; [|eapply list.Forall_impl; [exact Hf|]; intros e [(s & ? & _) _]; by exists s|done].
    rewrite (right_id_L ∅ (∪)). f_equal. rewrite <- (list_to_map_to_list m).
    apply list_to_map_proper.
    + rewrite <- list_fmap_compose. exact Hnd.
    + rewrite Hp, <- list_fmap_compose. rewrite <- (list_fmap_id (map_to_list m)) at 2.
      clear - Hl. induction Hl as [|[k a] l (s & Ha & _) Hl IH]; [done|]. cbn in Ha. subst a. cbn. by f_equiv.
  - cbn [writable]. apply forallb_forall. intros [k v] Hin. rewrite List.Forall_forall in Hf.
    destruct (Hf _ Hin) as ((s & Hv & Hs) & Hk). cbn in *. subst v. by rewrite Hk.
  - cbn [depth_of]. assert (foldr (fun (e : string * json) d => Z.max (depth_of (snd e)) d) 0 ms <= 0) as Hz; [|lia].
    clear - Hf. induction Hf as [|[k v] ms ((s & Hv & _) & _) Hms IH]; [done|]. cbn in *. subst v. cbn. lia.
Qed.

Section Issued.
Context {K C : Type} `{Claims C} `{ClaimsCodec C} (signingMethods : registry K) (ff : float -> option string).

(** An issued token parses to the header and the signature it was made with,
    and to what its claims decode to. *)
Lemma issued_parses p rng (t : Token K C) key s alg meth ms c0 cl :
  SignedString ff rng t key = Some (Ok s) ->
  map_Forall string_entry (Header t) ->
  Header t !! "alg"%string = Some (AString alg) -> GetSigningMethod signingMethods alg = Some meth ->
  encode_claims (token_Claims t) = Some (JObj ms) -> NoDup (fst <$> ms) ->
  writable (JObj ms) = true -> depth_of (JObj ms) <= max_depth ->
  decode_claims (useJSONNumber p) (JObj ms) c0 = Some cl ->
  exists h c sig, method_Sign (token_Method t) rng (h ++ "." ++ c)%string key = Some (Ok sig) /\
    s = join3_segments h c (EncodeSegment sig) /\
    unverified signingMethods p s c0 (MkToken s meth (Header t) cl sig false) h c.
Proof.
  unfold SignedString, SigningString. intros Hs Hh Halg Hm Hcl Hnd Hw Hd Hdec.
  destruct (encode_string_map ff _ Hh) as (hms & Hhe & Hhnd & Hhd & Hhw & Hhdep).
  rewrite Hhe, Hcl in Hs.
  set (h := EncodeSegment (marshal (JObj hms))) in *. set (c := EncodeSegment (marshal (JObj ms))) in *.
  destruct (method_Sign _ rng _ key) as [[sig|]|] eqn:Esig; [|done..]. cbn [mbind option_bind] in Hs. injection Hs as <-.
  exists h, c, sig. split; [done|]. split; [unfold join3_segments; by rewrite append_assoc|].
  assert (rejectDuplicateTopLevelJSONKeys (marshal (JObj ms)) = None) as Hrc
    by (by apply (reject_duplicates_object _ ms), Hnd; apply unmarshal_marshal).
  assert (rejectDuplicateTopLevelJSONKeys (marshal (JObj hms)) = None) as Hrh.
  { apply (reject_duplicates_object _ hms); [|done]. apply unmarshal_marshal; [done|unfold max_depth; lia]. }
  constructor; cbn [Signature Header token_Claims token_Method Raw].
  - exists (EncodeSegment sig). split; [|apply decode_segment_encode].
    apply split_token_spec. split; [unfold join3_segments; by rewrite append_assoc|].
    split; [apply encoded_free|split; apply encoded_free].
  - exists (marshal (JObj hms)), (JObj hms). split; [apply decode_segment_encode|]. split; [done|].
    split; [apply unmarshal_marshal; [done|unfold max_depth; lia]|]. apply Hhd.
  - exists (marshal (JObj ms)), (JObj ms). split; [apply decode_segment_encode|]. split; [done|]. split; [|done].
    pose proof (unmarshal_marshal _ Hw Hd) as Hu. destruct (useJSONNumber p); [|done].
    unfold unmarshal in Hu. destruct (decode_first _) as [[v r]|]; [|done]. cbn [mbind option_bind fmap option_fmap] in *.
    destruct (skip_ws r); [|done]. by injection Hu as ->.
  - by exists alg.
  - done.
Qed.
End Issued.
