(* ===== verification/JwtMethods.v ===== *)
(** Signing methods: pkg/jwt/{none,hmac,fndsa_alg,fndsa_original,
    fndsa_precomputed}.go, over the signature scheme of the other files.

    A [key] is the Go [any] a method receives, told apart as the methods do.
    HMAC is a parameter, [crypto/hmac] of the linked hash functions. *)
From Stdlib Require Import ZArith Lia Ascii String.
From stdpp Require Import base numbers list strings option gmap.
From S2P Require Import Prelude Bits Codec Util Verify Flr Sign Precomputed Text Json JsonFacts Claims JwtParser JwtFacts.
Local Open Scope Z_scope.

Class Hmac := {
  hash_available : Z -> bool;
  hmac_sum : Z -> string -> string -> string
}.

Definition AlgFNDSA512 : string := "FN-DSA-512".
Definition AlgFNDSA1024 : string := "FN-DSA-1024".
Definition LegacyAlgFNDSAPrecomputed512 : string := "FN-DSA-Precomputed-512".
Definition LegacyAlgFNDSAPrecomputed1024 : string := "FN-DSA-Precomputed-1024".

Section Methods.
Context `{HF : F64} `{Hsh : Shake} `{Hh : Hmac} (fuel : nat).

(** [KSigner None] is a nil pointer; [KOther] a value of any other type. *)
Inductive key :=
  | KNil
  | KBytes (k : string)
  | KSigner (signer : option PrecomputedSigner)
  | KUnsafeNone
  | KOther.

Definition invalid_key_type (msg : string) : error := newError msg (Sentinel ErrInvalidKeyType) [].

(** * none *)

Definition NoneSignatureTypeDisallowedError : error :=
  newError "'none' signature type is not allowed" (Sentinel ErrTokenUnverifiable) [].

Definition none_Verify (signingString sig : string) (k : key) : option error :=
  match k with
  | KUnsafeNone =>
      if negb (String.length sig =? 0)%nat
      then Some (newError "'none' signing method with non-empty signature" (Sentinel ErrTokenUnverifiable) [])
      else None
  | _ => Some NoneSignatureTypeDisallowedError
  end.

Definition none_Sign (signingString : string) (k : key) : result error string :=
  match k with KUnsafeNone => Ok ""%string | _ => Err NoneSignatureTypeDisallowedError end.

Definition SigningMethodNone : SigningMethod key :=
  Method "none" (fun text sig k => Some (none_Verify text sig k)) (fun _ text k => Some (none_Sign text k)) false.

(** * HMAC *)

Definition hmac_Verify (hash : Z) (signingString sig : string) (k : key) : option error :=
  match k with
  | KBytes keyBytes =>
      if negb (hash_available hash) then Some (Sentinel ErrHashUnavailable)
      else if negb (String.eqb sig (hmac_sum hash keyBytes signingString)) then Some (Sentinel ErrSignatureInvalid)
      else None
  | _ => Some (invalid_key_type "HMAC verify expects []byte")
  end.

Definition hmac_Sign (hash : Z) (signingString : string) (k : key) : result error string :=
  match k with
  | KBytes keyBytes =>
      if negb (hash_available hash) then Err (Sentinel ErrHashUnavailable)
      else Ok (hmac_sum hash keyBytes signingString)
  | _ => Err (invalid_key_type "HMAC sign expects []byte")
  end.

Definition SigningMethodHMAC (name : string) (hash : Z) : SigningMethod key :=
  Method name (fun text sig k => Some (hmac_Verify hash text sig k)) (fun _ text k => Some (hmac_Sign hash text k)) false.

Definition SigningMethodHS256 := SigningMethodHMAC "HS256" SHA256.
Definition SigningMethodHS384 := SigningMethodHMAC "HS384" SHA384.
Definition SigningMethodHS512 := SigningMethodHMAC "HS512" SHA512.

(** * FN-DSA *)

(** The call of [fndsa.Verify] with no context, the message named as hashed
    with SHA3-256. *)
Definition fndsa_check (fndsaKey signingString sig : string) (invalid : sentinel) : option (option error) :=
  isValid ← Verify.Verify fuel (to_bytes fndsaKey) [] SHA3_256 (to_bytes signingString) (to_bytes sig);
  Some (if negb isValid then Some (newError "oqs/FN-DSA: verification error" (Sentinel invalid) []) else None).

Definition signing_result (r : result string (list Z)) : result error string :=
  match r with
  | Err err => Err (newError "oqs/FN-DSA: signing error" (Message err) [])
  | Ok signature => Ok (of_bytes signature)
  end.

Definition fndsa_Verify (signingString sig : string) (k : key) : option (option error) :=
  match k with
  | KBytes fndsaKey => fndsa_check fndsaKey signingString sig ErrFNDSASignatureInvalid
  | _ => Some (Some (invalid_key_type "FN-DSA verify expects []byte"))
  end.

Definition fndsa_Sign (rng : entropy) (signingString : string) (k : key) : option (result error string) :=
  match k with
  | KBytes fndsaKey =>
      r ← Sign.Sign fuel rng (to_bytes fndsaKey) [] SHA3_256 (to_bytes signingString);
      Some (signing_result r)
  | _ => Some (Err (invalid_key_type "FN-DSA sign expects []byte"))
  end.

Definition SigningMethodFNDSA (name : string) : SigningMethod key := Method name fndsa_Verify fndsa_Sign false.
Definition SigningMethodFN512 := SigningMethodFNDSA AlgFNDSA512.
Definition SigningMethodFN1024 := SigningMethodFNDSA AlgFNDSA1024.

(** * FN-DSA with a precomputed signer *)

Definition invalid_key (msg : string) : error := newError msg (Sentinel ErrInvalidKey) [].

Definition expectedLogN (alg : string) : result error nat :=
  if String.eqb alg AlgFNDSA512 || String.eqb alg LegacyAlgFNDSAPrecomputed512 then Ok 9%nat
  else if String.eqb alg AlgFNDSA1024 || String.eqb alg LegacyAlgFNDSAPrecomputed1024 then Ok 10%nat
  else Err (invalid_key "unsupported FN-DSA precomputed algorithm").

Definition validatePublicKey (alg : string) (k : list Z) : option error :=
  match expectedLogN alg with
  | Err err => Some err
  | Ok logn =>
      if (length k =? 0)%nat || negb (k.[0] .& 240 =? 0) || negb (Z.to_nat (k.[0] .& 15) =? logn)%nat
      then Some (invalid_key "FN-DSA public key does not match") else None
  end.

Definition validateSigner (alg : string) (signer : PrecomputedSigner) : option error :=
  match expectedLogN alg with
  | Err err => Some err
  | Ok logn =>
      if negb (ps_logn signer =? logn)%nat
      then Some (invalid_key "FN-DSA precomputed signer degree does not match") else None
  end.

(** The signer a key stands for; [own] is the one set in the method. *)
Definition signerForKey (alg : string) (own : option PrecomputedSigner) (k : key) : result error PrecomputedSigner :=
  signer ← match k with
    | KNil => Ok own
    | KBytes k =>
        match NewPrecomputedSigner (to_bytes k) with
        | Ok signer => Ok (Some signer)
        | Err err => Err (newError "invalid FN-DSA private key" (Sentinel ErrInvalidKey) [Message err])
        end
    | KSigner signer => Ok signer
    | _ => Err (invalid_key_type "FN-DSA precomputed sign expects []byte or *fndsa.PrecomputedSigner")
    end;
  match signer with
  | None => Err (invalid_key_type "precomputed signer not set for FN-DSA")
  | Some signer =>
      match validateSigner alg signer with
      | Some err => Err err
      | None => Ok signer
      end
  end.

Definition precomputed_Verify (alg signingString sig : string) (k : key) : option (option error) :=
  match k with
  | KBytes fndsaKey =>
      match validatePublicKey alg (to_bytes fndsaKey) with
      | Some err => Some (Some err)
      | None => fndsa_check fndsaKey signingString sig ErrSignatureInvalid
      end
  | _ => Some (Some (invalid_key_type "FN-DSA verify expects []byte"))
  end.

Definition precomputed_Sign (alg : string) (own : option PrecomputedSigner) (rng : entropy)
    (signingString : string) (k : key) : option (result error string) :=
  match signerForKey alg own k with
  | Err err => Some (Err err)
  | Ok signer =>
      r ← Signer_Sign fuel signer rng [] SHA3_256 (to_bytes signingString);
      Some (signing_result r)
  end.

(** [SetPrecomputedSigner] replaces the signer of the method. *)
Definition SigningMethodFNDSAPrecomputed (name : string) (signer : option PrecomputedSigner) : SigningMethod key :=
  Method name (precomputed_Verify name) (precomputed_Sign name signer) true.
Definition SigningMethodFNP512 := SigningMethodFNDSAPrecomputed AlgFNDSA512 None.
Definition SigningMethodFNP1024 := SigningMethodFNDSAPrecomputed AlgFNDSA1024 None.

(** * The registry after the package's [init] functions

    The precomputed methods are not registered; [others] are the methods of the
    algorithms that are not modelled. *)
Definition init_registry (others : registry key) : registry key :=
  foldr (fun m r => RegisterSigningMethod (Alg m) m r) others
    [SigningMethodNone; SigningMethodHS256; SigningMethodHS384; SigningMethodHS512;
     SigningMethodFN512; SigningMethodFN1024].

Lemma init_registry_get others m :
  In m [SigningMethodNone; SigningMethodHS256; SigningMethodHS384; SigningMethodHS512;
        SigningMethodFN512; SigningMethodFN1024] ->
  GetSigningMethod (init_registry others) (Alg m) = Some m.
Proof.
  intros Hm. unfold GetSigningMethod, init_registry, RegisterSigningMethod, registry. cbn [foldr].
  repeat destruct Hm as [<-|Hm]; [..|done];
    repeat (rewrite lookup_insert_eq || rewrite lookup_insert_ne by discriminate); done.
Qed.

(** * What the methods accept *)

(** [none] verifies an empty signature under the unsafe constant only. *)
Lemma none_Verify_none text sig k : none_Verify text sig k = None <-> k = KUnsafeNone /\ sig = ""%string.
Proof.
  unfold none_Verify. destruct k; try by split; [|intros [[=] _]].
  destruct sig; cbn; split; [done|done|done|by intros [_ [=]]].
Qed.

Lemma hmac_Verify_none hash text sig k :
  hmac_Verify hash text sig k = None <->
  exists b, k = KBytes b /\ hash_available hash = true /\ sig = hmac_sum hash b text.
Proof.
  unfold hmac_Verify. destruct k as [|b| | |]; try by split; [|intros (? & [=] & _)].
  destruct (hash_available hash); cbn [negb]; [|by split; [|intros (? & _ & [=] & _)]].
  destruct (String.eqb_spec sig (hmac_sum hash b text)) as [->|Hne]; cbn [negb].
  - split; [|done]. intros _. by exists b.
  - split; [done|]. by intros (? & [= <-] & _ & ?).
Qed.

Lemma fndsa_check_none k text sig e :
  fndsa_check k text sig e = Some None <->
  Verify.Verify fuel (to_bytes k) [] SHA3_256 (to_bytes text) (to_bytes sig) = Some true.
Proof. unfold fndsa_check. by destruct (Verify.Verify _ _ _ _ _ _) as [[]|]. Qed.

Lemma fndsa_Verify_none text sig k :
  fndsa_Verify text sig k = Some None <->
  exists b, k = KBytes b /\ Verify.Verify fuel (to_bytes b) [] SHA3_256 (to_bytes text) (to_bytes sig) = Some true.
Proof.
  unfold fndsa_Verify. destruct k as [|b| | |]; try by split; [|intros (? & [=] & _)].
  rewrite fndsa_check_none. split; [by exists b|]. by intros (? & [= <-] & ?).
Qed.
End Methods.

Arguments key {HF}. Arguments KNil {HF}. Arguments KBytes {HF}. Arguments KSigner {HF}.
Arguments KUnsafeNone {HF}. Arguments KOther {HF}.

(** ** The precomputed method *)

Lemma to_bytes_is_byte s : Forall is_byte (to_bytes s).
Proof. apply to_bytes_range. Qed.

Section Precomputed.
Context `{HF : F64} `{Hsh : Shake} {Hlaws : ShakeLaws} (fuel : nat).

Lemma signerForKey_ok alg own (k : key) ps :
  signerForKey alg own k = Ok ps <->
  expectedLogN alg = Ok (ps_logn ps) /\
  (k = KNil /\ own = Some ps \/ k = KSigner (Some ps) \/
   exists sk, k = KBytes sk /\ NewPrecomputedSigner (to_bytes sk) = Ok ps).
Proof.
  unfold signerForKey.
  assert (forall signer : option PrecomputedSigner, match signer with
    | None => Err (invalid_key_type "precomputed signer not set for FN-DSA")
    | Some signer => match validateSigner alg signer with Some err => Err err | None => Ok signer end end = Ok ps <->
    expectedLogN alg = Ok (ps_logn ps) /\ signer = Some ps) as Hv.
  { intros [s|]; [|by split; [|intros [_ [=]]]]. unfold validateSigner. destruct (expectedLogN alg) as [l|e]; [|by split; [|intros [[=] _]]].
    destruct (Nat.eqb_spec (ps_logn s) l) as [<-|Hne]; cbn [negb].
    - split; [by intros [= ->]|]. by intros [_ [= ->]].
    - split; [done|]. by intros [[= ->] [= ->]]. }
  destruct k as [|sk|s| |]; cbn [mbind result_bind].
  - rewrite Hv. split; [intros [? ?]; split; [done|by left]|].
    intros [? [[_ ?]|[[=]|(? & [=] & _)]]]. done.
  - destruct (NewPrecomputedSigner (to_bytes sk)) as [ps'|e] eqn:E; cbn [mbind result_bind].
    + etransitivity; [apply (Hv (Some ps'))|]. split.
      * intros [? [= ->]]. split; [done|]. right. right. by exists sk.
      * intros [? [[[=] _]|[[=]|(? & [= <-] & Hn)]]]. rewrite E in Hn. by injection Hn as ->.
    + split; [done|]. intros [_ [[[=] _]|[[=]|(? & [= <-] & Hn)]]]. congruence.
  - rewrite Hv. split; [intros [? ->]; split; [done|right; by left]|].
    intros [? [[[=] _]|[[= ->]|(? & [=] & _)]]]. done.
  - split; [done|]. by intros [_ [[[=] _]|[[=]|(? & [=] & _)]]].
  - split; [done|]. by intros [_ [[[=] _]|[[=]|(? & [=] & _)]]].
Qed.

(** With a key of its degree, given or expanded beforehand, the precomputed
    method makes the signatures of the plain one. *)
Lemma precomputed_Sign_plain alg own k sk ps rng text :
  NewPrecomputedSigner (to_bytes sk) = Ok ps -> expectedLogN alg = Ok (ps_logn ps) ->
  k = KBytes sk \/ k = KSigner (Some ps) \/ k = KNil /\ own = Some ps ->
  precomputed_Sign fuel alg own rng text k = fndsa_Sign fuel rng text (KBytes sk).
Proof.
  intros Hps Hlog Hk. unfold precomputed_Sign.
  assert (signerForKey alg own k = Ok ps) as ->.
  { apply signerForKey_ok. split; [done|]. destruct Hk as [->|[->|[-> ->]]]; [right; right; by exists sk|right; by left|by left]. }
  destruct (constructor_ok _ _ _ _ Hps) as (k' & Hload & -> & Hval).
  cbn [fndsa_Sign]. unfold Signer_Sign, Sign.Sign, sign_inner. rewrite (valid_ready _ Hval). cbn [negb].
  destruct rng as [seed|e]; [|done].
  by rewrite (expanded_signs fuel 9 10 (to_bytes sk) k') by (lia || apply to_bytes_is_byte || done).
Qed.
End Precomputed.
