(* ===== verification/JwtUtil.v ===== *)
(** The tokens of the services: pkg/utils/jwtutils/jwt.go.

    [uuid] stands for github.com/google/uuid.  The current time, the fresh
    token identifier and the randomness of a signature are arguments, and so is
    the order in which Go happens to visit a map. *)
From Stdlib Require Import ZArith Lia Ascii String.
From stdpp Require Import base numbers list strings option gmap.
From S2P Require Import Prelude Text Json JsonFacts Claims JwtParser JwtFacts.
Local Open Scope Z_scope.

Class UUID := {
  uuid : Type;
  uuid_eq_dec :: EqDecision uuid;
  uuid_countable :: Countable uuid;
  uuid_Nil : uuid;
  uuid_String : uuid -> string;
  uuid_Parse : string -> option uuid;
  uuid_UnmarshalText : string -> option uuid
}.

(** The text of a UUID is ASCII, not empty, and reads back. *)
Class UUIDLaws `{UUID} := {
  uuid_String_utf8 u : valid_utf8 (uuid_String u) = true;
  uuid_String_nonempty u : uuid_String u <> ""%string;
  uuid_Parse_String u : uuid_Parse (uuid_String u) = Some u;
  uuid_Unmarshal_String u : uuid_UnmarshalText (uuid_String u) = Some u
}.

(** * Decoding into a struct *)

(** The folding of member names: ASCII letters to upper case, and the two
    other characters that fold to a letter, U+017F and U+212A. *)
Fixpoint fold_name (s : string) : string :=
  match s with
  | EmptyString => EmptyString
  | String c s1 =>
      let b := byte_of c in
      if (97 <=? b) && (b <=? 122) then String (chr (b - 32)) (fold_name s1)
      else match b, s1 with
      | 197, String d s2 => if is_char 191 d then String "S" (fold_name s2) else String c (fold_name s1)
      | 226, String d (String e s3) =>
          if is_char 132 d && is_char 170 e then String "K" (fold_name s3) else String c (fold_name s1)
      | _, _ => String c (fold_name s1)
      end
  end.

(** A struct type: its fields by name, each with the way a value is stored. *)
Definition fields (A : Type) := list (string * (json -> A -> option A)).

Definition find_field {A} (fs : fields A) (name : string) : option (json -> A -> option A) :=
  match find (fun f => String.eqb (fst f) name) fs with
  | Some (_, set) => Some set
  | None => snd <$> find (fun f => String.eqb (fold_name (fst f)) (fold_name name)) fs
  end.

(** Members without a field are ignored; a later member of a field overwrites. *)
Fixpoint decode_members {A} (fs : fields A) (ms : list (string * json)) (a : A) : option A :=
  match ms with
  | [] => Some a
  | (name, v) :: ms' =>
      a ← match find_field fs name with Some set => set v a | None => Some a end;
      decode_members fs ms' a
  end.

Definition decode_struct {A} (fs : fields A) (v : json) (a : A) : option A :=
  match v with JObj ms => decode_members fs ms a | JNull => Some a | _ => None end.

Definition set_string {A} (set : string -> A -> A) (v : json) (a : A) : option A :=
  match v with JStr s => Some (set s a) | JNull => Some a | _ => None end.

Definition set_date `{FloatConv} {A} (set : option NumericDate -> A -> A) (v : json) (a : A) : option A :=
  match v with
  | JNull => Some (set None a)
  | _ => d ← NumericDate_UnmarshalJSON v; Some (set (Some d) a)
  end.

(** * Claims *)

Definition TokenUseAccess : string := "access".
Definition TokenUseRefresh : string := "refresh".
Definition TokenTypeAccess : string := "at+jwt".
Definition TokenTypeRefresh : string := "rt+jwt".
Definition maxJWTCompactBytes : nat := 64 * 1024.

Section Util.
Context `{HU : UUID} `{HFc : FloatConv}.

Record JWTClaims := MkJWTClaims {
  registered : RegisteredClaims;
  UserID : uuid;
  Email : string;
  TokenUse : string
}.

Record JWTPayload := MkJWTPayload {
  p_UserID : uuid;
  p_Email : string;
  p_Algorithm : string;
  p_TokenUse : string
}.

Definition zero_claims : JWTClaims := MkJWTClaims (Registered "" "" [] None None None "") uuid_Nil "" "".

Definition JWTClaims_Validate (c : JWTClaims) : option error :=
  if decide (UserID c = uuid_Nil) then Some (Message "user_id claim is required")
  else if String.eqb (Email c) "" then Some (Message "email claim is required")
  else if negb (String.eqb (TokenUse c) TokenUseAccess) && negb (String.eqb (TokenUse c) TokenUseRefresh)
  then Some (Message "token_use claim is invalid")
  else if String.eqb (Subject (registered c)) "" then Some (Message "sub claim is required")
  else if negb (String.eqb (Subject (registered c)) (uuid_String (UserID c)))
  then Some (Message "sub claim must match user_id")
  else None.

#[export] Instance jwt_claims : Claims JWTClaims := {
  GetExpirationTime c := GetExpirationTime (registered c);
  GetNotBefore c := GetNotBefore (registered c);
  GetIssuedAt c := GetIssuedAt (registered c);
  GetAudience c := GetAudience (registered c);
  GetIssuer c := GetIssuer (registered c);
  GetSubject c := GetSubject (registered c);
  claims_validator := Some JWTClaims_Validate
}.

Definition on_registered (f : RegisteredClaims -> RegisteredClaims) (c : JWTClaims) : JWTClaims :=
  MkJWTClaims (f (registered c)) (UserID c) (Email c) (TokenUse c).

Definition jwt_fields : fields JWTClaims := [
  ("iss", set_string (fun x => on_registered (fun r =>
     Registered x (Subject r) (Audience r) (ExpiresAt r) (NotBefore r) (IssuedAt r) (ID r))));
  ("sub", set_string (fun x => on_registered (fun r =>
     Registered (Issuer r) x (Audience r) (ExpiresAt r) (NotBefore r) (IssuedAt r) (ID r))));
  ("aud", fun v c => x ← ClaimStrings_UnmarshalJSON v (Audience (registered c));
     Some (on_registered (fun r =>
       Registered (Issuer r) (Subject r) x (ExpiresAt r) (NotBefore r) (IssuedAt r) (ID r)) c));
  ("exp", set_date (fun x => on_registered (fun r =>
     Registered (Issuer r) (Subject r) (Audience r) x (NotBefore r) (IssuedAt r) (ID r))));
  ("nbf", set_date (fun x => on_registered (fun r =>
     Registered (Issuer r) (Subject r) (Audience r) (ExpiresAt r) x (IssuedAt r) (ID r))));
  ("iat", set_date (fun x => on_registered (fun r =>
     Registered (Issuer r) (Subject r) (Audience r) (ExpiresAt r) (NotBefore r) x (ID r))));
  ("jti", set_string (fun x => on_registered (fun r =>
     Registered (Issuer r) (Subject r) (Audience r) (ExpiresAt r) (NotBefore r) (IssuedAt r) x)));
  ("user_id", fun v c => match v with
     | JStr s => u ← uuid_UnmarshalText s; Some (MkJWTClaims (registered c) u (Email c) (TokenUse c))
     | JNull => Some c
     | _ => None end);
  ("email", set_string (fun x c => MkJWTClaims (registered c) (UserID c) x (TokenUse c)));
  ("token_use", set_string (fun x c => MkJWTClaims (registered c) (UserID c) (Email c) x))]%string.

Definition omit_empty (name s : string) : list (string * json) :=
  if String.eqb s "" then [] else [(name, JStr s)].
Definition omit_nil (name : string) (d : option NumericDate) : list (string * json) :=
  match d with Some d => [(name, NumericDate_MarshalJSON d)] | None => [] end.

Definition registered_members (r : RegisteredClaims) : list (string * json) :=
  omit_empty "iss" (Issuer r) ++ omit_empty "sub" (Subject r) ++
  (match Audience r with [] => [] | aud => [("aud"%string, ClaimStrings_MarshalJSON aud)] end) ++
  omit_nil "exp" (ExpiresAt r) ++ omit_nil "nbf" (NotBefore r) ++ omit_nil "iat" (IssuedAt r) ++
  omit_empty "jti" (ID r).

Definition jwt_members (c : JWTClaims) : list (string * json) :=
  registered_members (registered c) ++
  [("user_id"%string, JStr (uuid_String (UserID c))); ("email"%string, JStr (Email c))] ++
  omit_empty "token_use" (TokenUse c).

#[export] Instance jwt_claims_codec : ClaimsCodec JWTClaims := {
  decode_claims _ v c := decode_struct jwt_fields v c;
  encode_claims c := Some (JObj (jwt_members c))
}.

(** * Options and names *)

Definition audienceClaim (audience : string) : ClaimStrings := if String.eqb audience "" then [] else [audience].

Definition parserOptions (issuer audience : string) (algs : list string) : list ParserOption :=
  [WithValidMethods (Some algs); WithIssuer issuer; WithIssuedAt] ++
  if negb (String.eqb audience "") then [WithAudience [audience]] else [].

Definition TokenTypeForUse (tokenUse : string) : string :=
  if String.eqb tokenUse TokenUseRefresh then TokenTypeRefresh else TokenTypeAccess.

Definition HeaderAlgForConfigAlg (alg : string) : string :=
  if contains ["FN-DSA-512"; "FN-DSA-Precomputed-512"; "Falcon-512"; "Falcon-Precomputed-512"]%string alg
  then "FN-DSA-512" else alg.

Fixpoint normalize_from (seen algs : list string) : list string :=
  match algs with
  | [] => []
  | alg :: algs' =>
      let headerAlg := HeaderAlgForConfigAlg alg in
      if contains seen headerAlg then normalize_from seen algs'
      else headerAlg :: normalize_from (headerAlg :: seen) algs'
  end.
Definition normalizeAllowedAlgs (algs : list string) : list string := normalize_from [] algs.

Definition keyBearingHeaders : list string := ["jku"; "jwk"; "x5u"; "x5c"; "x5t"; "x5t#S256"]%string.

Section Keys.
Context {K : Type} (nil_key : K) (bytes_key : string -> K) (signingMethods : registry K)
  (format_float : float -> option string).

Definition has_header (t : Token K JWTClaims) (h : string) : bool :=
  match Header t !! h with Some _ => true | None => false end.

(** The expected type is never empty, so the comparison always takes place. *)
Definition validateTokenTypeHeader (t : Token K JWTClaims) (tokenUse : string) : option error :=
  if has_header t "crit" then Some (Message "crit header is not supported")
  else if has_header t "kid" then Some (Message "kid header is not supported")
  else if existsb (has_header t) keyBearingHeaders then Some (Message "header is not supported")
  else
    let expected := TokenTypeForUse tokenUse in
    if String.eqb expected "" then None
    else
      let got := match Header t !! "typ"%string with Some (AString s) => s | _ => ""%string end in
      if negb (String.eqb got expected) then Some (Message "token typ does not match token_use") else None.

(** The common part of the two issuers. *)
Definition new_token (method : SigningMethod K) (issuer audience : string) (duration : Z)
    (now : time) (jti : string) (payload : JWTPayload) : Token K JWTClaims :=
  let tokenUse := if String.eqb (p_TokenUse payload) "" then TokenUseAccess else p_TokenUse payload in
  let t := NewWithClaims method (MkJWTClaims
    (Registered issuer (uuid_String (p_UserID payload)) (audienceClaim audience)
      (Some (NewNumericDate (time_add now (i64 (duration * 60000000000))))) None
      (Some (NewNumericDate now)) jti)
    (p_UserID payload) (p_Email payload) tokenUse) in
  MkToken (Raw t) (token_Method t) (<["typ"%string := AString (TokenTypeForUse tokenUse)]> (Header t))
    (token_Claims t) (Signature t) (Valid t).

(** And of the two parsers. *)
Definition parse_token (issuer audience : string) (allowedAlgs : list string) (clock : time) (token : string)
    (keyFunc : Token K JWTClaims -> result error (found_key K)) : option (result error JWTClaims) :=
  if (maxJWTCompactBytes <? String.length token)%nat
  then Some (Err (Message "token exceeds maximum compact size"))
  else
    let parser := NewParser (parserOptions issuer audience allowedAlgs) in
    r ← ParseWithClaims signingMethods parser clock token zero_claims (Some keyFunc);
    Some match r with
    | Err err => Err err
    | Ok parsedToken =>
        if Valid parsedToken then
          match validateTokenTypeHeader parsedToken (TokenUse (token_Claims parsedToken)) with
          | Some err => Err err
          | None => Ok (token_Claims parsedToken)
          end
        else Err (Message "token is not valid")
    end.

(** ** One algorithm *)

Record jwtUtil := MkJwtUtil {
  allowedAlgs : list string;
  issuer : string;
  audience : string;
  verifyKey : string;
  method : option (SigningMethod K);
  duration : Z
}.

(** The values the configuration holds are arguments. *)
Definition NewJwtUtil (algs : list string) (issuer audience : string) (duration : Z) (verifyKey : string) : jwtUtil :=
  MkJwtUtil (normalizeAllowedAlgs algs) issuer audience verifyKey None duration.
Definition NewJwtUtilWithSigner (algs : list string) (issuer audience : string) (duration : Z)
    (method : SigningMethod K) (verifyKey : string) : jwtUtil :=
  MkJwtUtil (normalizeAllowedAlgs algs) issuer audience verifyKey (Some method) duration.

Definition jwtUtil_Sign (j : jwtUtil) (now : time) (jti : string) (rng : entropy) (payload : JWTPayload)
    : option (result error string) :=
  match method j with
  | None => Some (Err (Message "signing method not configured, use NewJwtUtilWithSigner for signing"))
  | Some m =>
      SignedString format_float rng (new_token m (issuer j) (audience j) (duration j) now jti payload) nil_key
  end.

Definition jwtUtil_Parse (j : jwtUtil) (clock : time) (token : string) : option (result error JWTClaims) :=
  parse_token (issuer j) (audience j) (allowedAlgs j) clock token
    (fun _ => Ok (SingleKey (bytes_key (verifyKey j)))).

(** ** Several algorithms

    A configuration and its method are never nil: [LoadAlgConfig] sets both. *)

Record AlgConfig := MkAlgConfig {
  cfg_Method : SigningMethod K;
  SignKey : K;
  VerifyKey : K
}.

Record multiAlgJwtUtil := MkMulti {
  m_issuer : string;
  m_audience : string;
  m_duration : Z;
  defaultAlg : string;
  configs : gmap string AlgConfig
}.

Definition NewMultiAlgJwtUtil (issuer audience : string) (duration : Z) (defaultAlg : string)
    (configs : gmap string AlgConfig) : multiAlgJwtUtil := MkMulti issuer audience duration defaultAlg configs.

(** A loop over the map visits its entries in some [order]. *)
Definition configForHeaderAlg (order : list (string * AlgConfig)) (headerAlg : string) : option AlgConfig :=
  snd <$> find (fun c => String.eqb (Alg (cfg_Method (snd c))) headerAlg) order.

Definition configForSignAlg (m : multiAlgJwtUtil) (order : list (string * AlgConfig)) (alg : string) : option AlgConfig :=
  match configs m !! alg with
  | Some cfg => Some cfg
  | None => if String.eqb alg (HeaderAlgForConfigAlg alg) then configForHeaderAlg order alg else None
  end.

Fixpoint header_algs (seen : list string) (order : list (string * AlgConfig)) : list string :=
  match order with
  | [] => []
  | (_, cfg) :: order' =>
      let alg := Alg (cfg_Method cfg) in
      if contains seen alg then header_algs seen order' else alg :: header_algs (alg :: seen) order'
  end.
Definition allowedHeaderAlgs (order : list (string * AlgConfig)) : list string := header_algs [] order.

Definition multi_Sign (m : multiAlgJwtUtil) (order : list (string * AlgConfig)) (now : time) (jti : string)
    (rng : entropy) (payload : JWTPayload) : option (result error string) :=
  let alg := if String.eqb (p_Algorithm payload) "" then defaultAlg m else p_Algorithm payload in
  match configForSignAlg m order alg with
  | None => Some (Err (Message "unsupported algorithm"))
  | Some cfg =>
      SignedString format_float rng
        (new_token (cfg_Method cfg) (m_issuer m) (m_audience m) (m_duration m) now jti payload) (SignKey cfg)
  end.

(** The parser collects the algorithms in one loop, [order], and looks for the
    key in another, [order']. *)
Definition multi_Parse (m : multiAlgJwtUtil) (order order' : list (string * AlgConfig)) (clock : time)
    (token : string) : option (result error JWTClaims) :=
  parse_token (m_issuer m) (m_audience m) (allowedHeaderAlgs order) clock token (fun t =>
    match configForHeaderAlg order' (Alg (token_Method t)) with
    | Some cfg => Ok (SingleKey (VerifyKey cfg))
    | None => Err (Message "no key configured for algorithm")
    end).

Definition AlgorithmFromToken (tokenStr : string) : result error string :=
  match ParseUnverified (C := MapClaims) (H0 := map_claims_codec format_float) signingMethods
          (NewParser []) tokenStr ∅ with
  | Err err => Err err
  | Ok (t, _) => Ok (Alg (token_Method t))
  end.
End Keys.
End Util.
