(* ===== verification/JwtUtilFacts.v ===== *)
(** The tokens of the services: exactly which are accepted, and that the issued
    ones are. *)
From Stdlib Require Import ZArith Lia Ascii String.
From stdpp Require Import base numbers list strings option gmap.
From S2P Require Import Prelude Text Json JsonFacts Claims JwtParser JwtFacts JwtUtil.
Local Open Scope Z_scope.

Section Facts.
Context `{HU : UUID} `{HFc : FloatConv}.

(** * Accepted tokens *)

(** The claims of an accepted token. *)
Record valid_claims (issuer audience : string) (clock : time) (c : JWTClaims) : Prop := ValidClaims {
  vc_user : UserID c <> uuid_Nil;
  vc_email : Email c <> ""%string;
  vc_use : TokenUse c = TokenUseAccess \/ TokenUse c = TokenUseRefresh;
  vc_subject : Subject (registered c) = uuid_String (UserID c) /\ Subject (registered c) <> ""%string;
  vc_expiry : forall d, ExpiresAt (registered c) = Some d -> before clock (time_add d 0) = true;
  vc_not_before : forall d, NotBefore (registered c) = Some d -> before clock (time_add d 0) = false;
  vc_issued : forall d, IssuedAt (registered c) = Some d -> before clock (time_add d 0) = false;
  vc_issuer : issuer <> ""%string -> Issuer (registered c) = issuer;
  vc_audience : audience <> ""%string -> In audience (Audience (registered c))
}.

Lemma JWTClaims_Validate_none c :
  JWTClaims_Validate c = None <->
  UserID c <> uuid_Nil /\ Email c <> ""%string /\ (TokenUse c = TokenUseAccess \/ TokenUse c = TokenUseRefresh) /\
  Subject (registered c) = uuid_String (UserID c) /\ Subject (registered c) <> ""%string.
Proof.
  unfold JWTClaims_Validate. destruct (decide _); [by split; [|intros [? _]]|].
  destruct (String.eqb_spec (Email c) ""); [by split; [|intros (_ & ? & _)]|].
  destruct (String.eqb_spec (TokenUse c) TokenUseAccess) as [Ha|Ha],
    (String.eqb_spec (TokenUse c) TokenUseRefresh) as [Hr|Hr]; cbn [negb andb];
    try (split; [done|by intros (_ & _ & [?|?] & _)]);
    (destruct (String.eqb_spec (Subject (registered c)) ""); [by split; [|intros (_ & _ & _ & _ & ?)]|];
     destruct (String.eqb_spec (Subject (registered c)) (uuid_String (UserID c))); cbn [negb];
       [by split; [auto 10|]|by split; [|intros (_ & _ & _ & ? & _)]]).
Qed.

Definition util_validator (issuer audience : string) : Validator :=
  MkValidator 0 None false false true (audienceClaim audience) false issuer "".

Lemma util_parser issuer audience algs :
  NewParser (parserOptions issuer audience algs) =
  MkParser (Some algs) false false (Some (util_validator issuer audience)) false false.
Proof. unfold parserOptions, util_validator, audienceClaim. by destruct (String.eqb audience ""). Qed.

Lemma before_whole t u : before t (time_add u 0) = before t (time_add u (i64 (- 0))).
Proof. done. Qed.

Lemma util_validate issuer audience clock (c : JWTClaims) :
  claims_acceptable (util_validator issuer audience) clock c <-> valid_claims issuer audience clock c.
Proof.
  assert (audienceClaim audience <> [] <-> audience <> ""%string) as Haud.
  { unfold audienceClaim. by destruct (String.eqb_spec audience ""). }
  split.
  - intros [He Hn Hi Ha His _ Hc].
    specialize (Hc _ eq_refl). apply JWTClaims_Validate_none in Hc as (H1 & H2 & H3 & H4 & H5).
    cbn in He, Hn, Hi, Ha, His. specialize (Hi eq_refl). constructor; try done.
    + intros d Hd. by rewrite Hd in He.
    + intros d Hd. by rewrite Hd in Hn.
    + intros d Hd. by rewrite Hd in Hi.
    + intros Hne. specialize (His Hne). by injection His.
    + intros Hne. apply Haud in Hne as Hne'. destruct (Ha Hne') as (aud & [= <-] & _ & _ & a & Hin & Hex).
      unfold audienceClaim in Hex. rewrite (proj2 (String.eqb_neq _ _) Hne) in Hex.
      by destruct Hex as [->|[]].
  - intros [H1 H2 H3 [H4 H5] He Hn Hi His Ha]. constructor; cbn.
    + destruct (ExpiresAt _) as [d|]; cbn; [by apply He|done].
    + destruct (NotBefore _) as [d|]; cbn; [by apply Hn|done].
    + intros _. destruct (IssuedAt _) as [d|]; cbn; [by apply Hi|done].
    + intros Hne. apply Haud in Hne. specialize (Ha Hne). exists (Audience (registered c)). split; [done|].
      split; [intros Hx; by rewrite Hx in Ha|]. split; [intros Hx; rewrite Hx in Ha; by destruct Ha as [<-|[]]|].
      exists audience. split; [done|]. unfold audienceClaim. rewrite (proj2 (String.eqb_neq _ _) Hne). by left.
    + intros Hne. by rewrite (His Hne).
    + done.
    + intros custom [= <-]. by apply JWTClaims_Validate_none.
Qed.

Section Parse.
Context {K : Type} (signingMethods : registry K).

Definition refused_headers : list string := "crit"%string :: "kid"%string :: keyBearingHeaders.

Lemma validateTokenTypeHeader_none (t : Token K JWTClaims) use :
  validateTokenTypeHeader t use = None <->
  (forall h, In h refused_headers -> Header t !! h = None) /\
  Header t !! "typ"%string = Some (AString (TokenTypeForUse use)).
Proof.
  unfold validateTokenTypeHeader, refused_headers.
  assert (forall h, has_header t h = false <-> Header t !! h = None) as Hh.
  { intros h. unfold has_header. by destruct (Header t !! h). }
  assert (existsb (has_header t) keyBearingHeaders = false <->
    forall h, In h keyBearingHeaders -> Header t !! h = None) as Hk.
  { rewrite <- not_true_iff_false, existsb_exists. split.
    - intros Hn h Hin. apply Hh. destruct (has_header t h) eqn:E; [|done]. exfalso. apply Hn. by exists h.
    - intros Hn (h & Hin & Ht). apply Hn, Hh in Hin. congruence. }
  destruct (has_header t "crit") eqn:E1.
  { split; [done|]. intros [Hn _]. specialize (Hn "crit"%string (or_introl eq_refl)). apply Hh in Hn. congruence. }
  destruct (has_header t "kid") eqn:E2.
  { split; [done|]. intros [Hn _]. specialize (Hn "kid"%string (or_intror (or_introl eq_refl))). apply Hh in Hn. congruence. }
  destruct (existsb (has_header t) keyBearingHeaders) eqn:E3.
  { split; [done|]. intros [Hn _]. assert (true = false) by (apply Hk; intros h Hin; apply Hn; by right; right). done. }
  assert (String.eqb (TokenTypeForUse use) "" = false) as -> by (unfold TokenTypeForUse; by destruct (String.eqb use _)).
  assert (TokenTypeForUse use <> ""%string) by (unfold TokenTypeForUse; by destruct (String.eqb use _)).
  assert (forall h, In h ("crit"%string :: "kid"%string :: keyBearingHeaders) -> Header t !! h = None) as Hall.
  { intros h [<-|[<-|Hin]]; [by apply Hh|by apply Hh|by apply Hk]. }
  destruct (Header t !! "typ"%string) as [[| | | |s| |]|]; cbv zeta iota.
  all: try (rewrite (proj2 (String.eqb_neq "" _)) by congruence; split; [done|by intros [_ [=]]]).
  destruct (String.eqb_spec s (TokenTypeForUse use)) as [->|Hne]; cbn [negb].
  - split; [done|]. done.
  - split; [done|]. intros [_ [= ->]]. done.
Qed.

(** The whole acceptance condition of a token for a choice of keys. *)
Record accepted (iss aud : string) (algs : list string) (clock : time) (token : string)
    (keyFunc : Token K JWTClaims -> result error (found_key K)) (claims : JWTClaims) : Prop := Accepted {
  acc_size : (String.length token <= maxJWTCompactBytes)%nat;
  acc_token : exists t h c got,
    unverified signingMethods (NewParser (parserOptions iss aud algs)) token zero_claims t h c /\ Valid t = false /\
    token_Claims t = claims /\ In (Alg (token_Method t)) algs /\
    keyFunc t = Ok got /\ verified_by (token_Method t) (h ++ "." ++ c)%string (Signature t) got /\
    (forall x, In x refused_headers -> Header t !! x = None) /\
    Header t !! "typ"%string = Some (AString (TokenTypeForUse (TokenUse claims)));
  acc_claims : valid_claims iss aud clock claims
}.

Lemma parse_token_ok iss aud algs clock token keyFunc claims :
  parse_token signingMethods iss aud algs clock token keyFunc = Some (Ok claims) <->
  accepted iss aud algs clock token keyFunc claims.
Proof.
  unfold parse_token. cbv zeta. split.
  - destruct (Nat.ltb_spec maxJWTCompactBytes (String.length token)) as [|Hlen]; [done|].
    destruct (ParseWithClaims _ _ _ _ _ _) as [[t|e]|] eqn:E; [|done..]. cbn [mbind option_bind].
    apply ParseWithClaims_ok in E as [Hv (t0 & h & c & got & -> & Hv0 & Hun & Hk & Hver) Hm Hcl].
    rewrite Hv. destruct (validateTokenTypeHeader _ _) eqn:Et; [done|]. intros [= <-].
    apply validateTokenTypeHeader_none in Et as [Hh Htyp]. constructor; [done| |].
    + exists t0, h, c, got. repeat (split; [done|]). split; [|done].
      rewrite util_parser in Hm. exact Hm.
    + apply util_validate. rewrite util_parser in Hcl. exact (Hcl eq_refl).
  - intros [Hlen (t & h & c & got & Hun & Hv & <- & Hm & Hk & Hver & Hh & Htyp) Hcl].
    rewrite (proj2 (Nat.ltb_ge _ _) Hlen).
    assert (ParseWithClaims signingMethods (NewParser (parserOptions iss aud algs)) clock token zero_claims (Some keyFunc)
      = Some (Ok (validate_token t))) as ->.
    { apply ParseWithClaims_ok. constructor; [done| | |].
      - by exists t, h, c, got.
      - rewrite util_parser. exact Hm.
      - rewrite util_parser. intros _. by apply util_validate. }
    cbn [mbind option_bind validate_token Valid token_Claims].
    by rewrite (proj2 (validateTokenTypeHeader_none (validate_token t) (TokenUse (token_Claims t)))).
Qed.
End Parse.

(** * Issued tokens *)

Lemma decode_members_seq {A} (fs : fields A) ms ms' a a' :
  decode_members fs ms a = Some a' -> decode_members fs (ms ++ ms') a = decode_members fs ms' a'.
Proof.
  revert a. induction ms as [|[n v] ms IH]; intros a; [by intros [= ->]|]. cbn [app decode_members].
  destruct (match find_field fs n with Some set => _ | None => _ end) as [b|]; [|done]. apply IH.
Qed.

Lemma decode_member {A} (fs : fields A) name v set a a' :
  find_field fs name = Some set -> set v a = Some a' -> decode_members fs [(name, v)] a = Some a'.
Proof. intros Hf Hs. cbn [decode_members]. by rewrite Hf, Hs. Qed.

(** A string left off because it is empty is the zero value. *)
Lemma decode_omit_empty {A} (fs : fields A) name s f a :
  find_field fs name = Some (set_string f) -> (s = ""%string -> f s a = a) ->
  decode_members fs (omit_empty name s) a = Some (f s a).
Proof.
  intros Hf Hs. unfold omit_empty. destruct (String.eqb_spec s "") as [->|].
  - cbn. by rewrite Hs.
  - by apply (decode_member _ _ _ _ _ _ Hf).
Qed.

(** Claims as the issuers make them: whole dates in range, printable strings. *)
Record issued (c : JWTClaims) : Prop := Issued {
  is_expiry : exists e, ExpiresAt (registered c) = Some (Time (t_sec e) 0) /\ date_range (Time (t_sec e) 0);
  is_issued_at : exists i, IssuedAt (registered c) = Some (Time (t_sec i) 0) /\ date_range (Time (t_sec i) 0);
  is_not_before : NotBefore (registered c) = None;
  is_audience : Audience (registered c) = [] \/ exists a, Audience (registered c) = [a] /\ valid_utf8 a = true;
  is_texts : Forall (fun s => valid_utf8 s = true)
    [Issuer (registered c); Subject (registered c); ID (registered c); Email c; TokenUse c]
}.

Lemma whole_date d : date_range (Time d 0) -> NumericDate_UnmarshalJSON (NumericDate_MarshalJSON (Time d 0)) = Some (Time d 0).
Proof.
  intros Hd. rewrite NumericDate_roundtrip_whole by done. unfold NewNumericDate, TimePrecision.
  by rewrite truncate_second by (by apply date_range_ok).
Qed.

Lemma set_whole_date {A} (f : option NumericDate -> A -> A) d a :
  date_range (Time d 0) -> set_date f (NumericDate_MarshalJSON (Time d 0)) a = Some (f (Some (Time d 0)) a).
Proof.
  intros Hd. unfold set_date. pose proof (whole_date d Hd) as Hw. rewrite Hw.
  unfold NumericDate_MarshalJSON. reflexivity.
Qed.

Lemma marshal_date_number d :
  date_range (Time d 0) -> exists n, NumericDate_MarshalJSON (Time d 0) = JNum (format_int n) /\ 0 <= n.
Proof.
  intros Hd. exists (d - unix_to_internal). unfold NumericDate_MarshalJSON, TimePrecision.
  rewrite truncate_second by (by apply date_range_ok). destruct Hd as [Hd _]. cbn [t_sec] in *. unfold unix. cbn [t_sec].
  rewrite i64_small by (unfold unix_to_internal in *; lia). split; [done|]. lia.
Qed.

Lemma issued_decodes `{!UUIDLaws} c :
  issued c -> decode_claims false (JObj (jwt_members c)) zero_claims = Some c.
Proof.
  intros [(e & He & Re) (i & Hi & Ri) Hn Ha _]. cbn [decode_claims jwt_claims_codec decode_struct].
  destruct c as [[iss sub aud exp nbf iat jti] u em use]. cbn [registered Issuer Subject Audience ExpiresAt NotBefore
    IssuedAt ID UserID Email TokenUse] in *. subst exp iat nbf.
  unfold jwt_members, registered_members. cbn [registered Issuer Subject Audience ExpiresAt NotBefore IssuedAt ID
    UserID Email TokenUse omit_nil].
  rewrite <- !app_assoc.
  erewrite decode_members_seq by (apply (decode_omit_empty jwt_fields "iss" iss); [reflexivity|by intros ->]).
  erewrite decode_members_seq by (apply (decode_omit_empty jwt_fields "sub" sub); [reflexivity|by intros ->]).
  rewrite (decode_members_seq _ _ _ _ (MkJWTClaims (Registered iss sub aud None None None "") uuid_Nil "" "")).
  2:{ destruct Ha as [->|(x & -> & _)]; reflexivity. }
  rewrite (decode_members_seq _ _ _ _ _ (decode_member jwt_fields "exp" _ _ _ _ eq_refl (set_whole_date _ _ _ Re))).
  rewrite app_nil_l.
  rewrite (decode_members_seq _ _ _ _ _ (decode_member jwt_fields "iat" _ _ _ _ eq_refl (set_whole_date _ _ _ Ri))).
  erewrite decode_members_seq by (apply (decode_omit_empty jwt_fields "jti" jti); [reflexivity|by intros ->]).
  rewrite (decode_members_seq _ _ _ _ (MkJWTClaims (Registered iss sub aud (Some (Time (t_sec e) 0)) None
    (Some (Time (t_sec i) 0)) jti) u em "")).
  2:{ change [?x; ?y] with ([x] ++ [y]). erewrite decode_members_seq.
      2:{ eapply decode_member; [reflexivity|]. cbv beta iota. rewrite uuid_Unmarshal_String. reflexivity. }
      eapply decode_member; reflexivity. }
  by erewrite (decode_omit_empty jwt_fields "token_use" use) by (reflexivity || by intros ->).
Qed.

(** The members written are printable, and their names distinct. *)
Lemma omit_empty_writable name s :
  valid_utf8 name = true -> valid_utf8 s = true ->
  Forall (fun m => (valid_utf8 (fst m) && writable (snd m)) = true /\ depth_of (snd m) <= 1) (omit_empty name s).
Proof.
  intros Hn Hs. unfold omit_empty. destruct (String.eqb s ""); [constructor|].
  constructor; [|constructor]. cbn [fst snd writable depth_of]. by rewrite Hn, Hs.
Qed.

Lemma omit_nil_writable name d :
  valid_utf8 name = true -> (forall e, d = Some e -> date_range (Time (t_sec e) 0) /\ e = Time (t_sec e) 0) ->
  Forall (fun m => (valid_utf8 (fst m) && writable (snd m)) = true /\ depth_of (snd m) <= 1) (omit_nil name d).
Proof.
  intros Hn Hd. destruct d as [e|]; [|constructor]. constructor; [|constructor]. cbn [fst snd].
  destruct (Hd e eq_refl) as [Hr ->]. destruct (marshal_date_number _ Hr) as (n & -> & H0). cbn [writable depth_of].
  by rewrite Hn, format_int_valid.
Qed.

Lemma issued_members `{!UUIDLaws} c :
  issued c -> Forall (fun m => (valid_utf8 (fst m) && writable (snd m)) = true /\ depth_of (snd m) <= 1) (jwt_members c).
Proof.
  intros [(e & He & Re) (i & Hi & Ri) Hn Ha Ht]. unfold jwt_members, registered_members.
  repeat (apply Forall_cons_1 in Ht as [? Ht]).
  rewrite He, Hi, Hn.
  repeat (apply Forall_app; split); try (by apply omit_empty_writable).
  - destruct Ha as [->|(a & -> & Hva)]; [constructor|]. constructor; [|constructor]. cbn [fst snd writable depth_of forallb fmap list_fmap ClaimStrings_MarshalJSON]. by rewrite Hva.
  - apply omit_nil_writable; [done|]. by intros ? [= <-].
  - constructor.
  - apply omit_nil_writable; [done|]. by intros ? [= <-].
  - repeat (constructor; [cbn [fst snd writable depth_of]; by rewrite ?uuid_String_utf8; split; [apply andb_true_iff|]|]).
    constructor.
Qed.

Definition claim_names : list string :=
  ["iss"; "sub"; "aud"; "exp"; "nbf"; "iat"; "jti"; "user_id"; "email"; "token_use"]%string.

Lemma jwt_members_names c : fst <$> jwt_members c `sublist_of` claim_names.
Proof.
  unfold jwt_members, registered_members, claim_names. rewrite !fmap_app.
  assert (forall n s, fst <$> omit_empty n s `sublist_of` [n]) as Hs.
  { intros n s. unfold omit_empty. destruct (String.eqb s ""); cbn; repeat constructor. }
  assert (forall n d, fst <$> omit_nil n d `sublist_of` [n]) as Hd.
  { intros n [d|]; cbn; repeat constructor. }
  assert (forall (l k ks : list string) n, l `sublist_of` [n] -> k `sublist_of` ks -> l ++ k `sublist_of` n :: ks) as Hc
    by (intros l k ks n H1 H2; by apply (sublist_app l [n] k ks)).
  rewrite <- !app_assoc.
  do 7 (apply Hc; [first [apply Hs|apply Hd|destruct (Audience (registered c)); repeat constructor]|]).
  apply (sublist_app _ ["user_id"; "email"]%string _ ["token_use"%string]); [done|apply Hs].
Qed.

Lemma jwt_members_nodup c : NoDup (fst <$> jwt_members c).
Proof.
  eapply sublist_NoDup; [|apply jwt_members_names]. unfold claim_names.
  repeat (apply NoDup_cons; split; [by rewrite list_elem_of_In; vm_compute; intuition discriminate|]). apply NoDup_nil_2.
Qed.

Section Sign.
Context {K : Type} (signingMethods : registry K) (ff : float -> option string).

(** The promise of a signing method to the method a verifier finds under its
    name: what the one signs the other verifies. *)
Class SignVerify (signer verifier : SigningMethod K) (skey vkey : K) : Prop := sign_verify rng text sig :
  method_Sign signer rng text skey = Some (Ok sig) -> method_Verify verifier text sig vkey = Some None.

(** The conditions on the configuration and on the payload. *)
Record issuable (iss aud : string) (duration : Z) (now : time) (jti : string) (p : JWTPayload) : Prop := Issuable {
  iu_user : p_UserID p <> uuid_Nil;
  iu_email : p_Email p <> ""%string /\ valid_utf8 (p_Email p) = true;
  iu_use : In (p_TokenUse p) [""%string; TokenUseAccess; TokenUseRefresh];
  iu_texts : valid_utf8 iss = true /\ valid_utf8 aud = true /\ valid_utf8 jti = true;
  iu_now : date_range now;
  iu_expiry : date_range (time_add now (i64 (duration * 60000000000)))
}.

Definition payload_use (p : JWTPayload) : string :=
  if String.eqb (p_TokenUse p) "" then TokenUseAccess else p_TokenUse p.

(** The claims of an issued token. *)
Definition issued_claims (iss aud : string) (duration : Z) (now : time) (jti : string) (p : JWTPayload) : JWTClaims :=
  MkJWTClaims (Registered iss (uuid_String (p_UserID p)) (audienceClaim aud)
    (Some (Time (t_sec (time_add now (i64 (duration * 60000000000)))) 0)) None (Some (Time (t_sec now) 0)) jti)
    (p_UserID p) (p_Email p) (payload_use p).

Lemma whole_NumericDate t : date_range t -> NewNumericDate t = Time (t_sec t) 0 /\ date_range (Time (t_sec t) 0).
Proof.
  intros Ht. unfold NewNumericDate, TimePrecision. rewrite truncate_second by (by apply date_range_ok).
  split; [done|]. destruct Ht as [Ht _]. split; [done|]. cbn. unfold second. lia.
Qed.

Lemma issuable_issued `{!UUIDLaws} iss aud duration now jti p :
  issuable iss aud duration now jti p -> issued (issued_claims iss aud duration now jti p).
Proof.
  intros [_ [_ He] Hu (Hi & Ha & Hj) Hn Hx]. constructor; cbn.
  - eexists. split; [reflexivity|]. by apply whole_NumericDate.
  - eexists. split; [reflexivity|]. by apply whole_NumericDate.
  - done.
  - unfold audienceClaim. destruct (String.eqb aud ""); [by left|]. right. by exists aud.
  - repeat (apply List.Forall_cons); try done; [apply uuid_String_utf8|].
    unfold payload_use. destruct (String.eqb_spec (p_TokenUse p) ""); [done|].
    by destruct Hu as [<-|[<-|[<-|[]]]].
Qed.

Lemma string_entry_intro k s : valid_utf8 k = true -> valid_utf8 s = true -> string_entry k (AString s).
Proof. by exists s. Qed.

Lemma new_token_header_strings (signer : SigningMethod K) iss aud duration now jti p :
  valid_utf8 (Alg signer) = true -> map_Forall string_entry (Header (new_token signer iss aud duration now jti p)).
Proof.
  intros Hutf. unfold new_token, NewWithClaims. cbn [Header].
  assert (forall u, valid_utf8 (TokenTypeForUse u) = true) as Ht
    by (intros u; unfold TokenTypeForUse; by destruct (String.eqb _ _)).
  repeat (apply map_Forall_insert_2; [by apply string_entry_intro|]). apply map_Forall_empty.
Qed.

(** From the second it was issued on and before it expires. *)
Definition live (duration : Z) (now clock : time) : Prop :=
  before clock (Time (t_sec now) 0) = false /\
  before clock (Time (t_sec (time_add now (i64 (duration * 60000000000)))) 0) = true.

Lemma issued_valid `{!UUIDLaws} iss aud duration now jti p clock :
  issuable iss aud duration now jti p -> live duration now clock ->
  valid_claims iss aud clock (issued_claims iss aud duration now jti p).
Proof.
  intros [Hu [He _] Huse _ Hn Hx] [Hafter Hbefore].
  constructor; cbn [issued_claims registered UserID Email TokenUse Subject ExpiresAt NotBefore IssuedAt Issuer Audience];
    try done.
  - unfold payload_use. destruct (String.eqb_spec (p_TokenUse p) ""); [by left|].
    destruct Huse as [?|[?|[?|[]]]]; [congruence|by left|by right].
  - split; [done|]. apply uuid_String_nonempty.
  - intros d [= <-]. rewrite time_add_0; [done|]. by apply date_range_ok, whole_NumericDate.
  - intros d [= <-]. rewrite time_add_0; [done|]. by apply date_range_ok, whole_NumericDate.
  - intros Hne. unfold audienceClaim. rewrite (proj2 (String.eqb_neq _ _) Hne). by left.
Qed.

Lemma refused_absent (a b c : any) x :
  In x refused_headers ->
  (<["typ"%string := a]> (<["typ"%string := b]> (<["alg"%string := c]> (∅ : gmap string any)))) !! x = None.
Proof.
  intros Hx. assert ("typ"%string <> x /\ "alg"%string <> x) as [H1 H2]
    by (split; intros <-; vm_compute in Hx; intuition discriminate).
  rewrite !lookup_insert_ne by done. apply lookup_empty.
Qed.

Lemma sign_parses `{!UUIDLaws} (signer verifier : SigningMethod K) skey vkey `{!SignVerify signer verifier skey vkey}
    iss aud duration now jti p algs clock rng s keyFunc :
  issuable iss aud duration now jti p ->
  SignedString ff rng (new_token signer iss aud duration now jti p) skey = Some (Ok s) ->
  GetSigningMethod signingMethods (Alg signer) = Some verifier ->
  In (Alg verifier) algs -> valid_utf8 (Alg signer) = true ->
  (forall t, token_Method t = verifier -> keyFunc t = Ok (SingleKey vkey)) ->
  (String.length s <= maxJWTCompactBytes)%nat ->
  live duration now clock ->
  parse_token signingMethods iss aud algs clock s keyFunc = Some (Ok (issued_claims iss aud duration now jti p)).
Proof.
  intros Hiss Hs Hreg Halg Hutf Hkey Hlen Hlive.
  pose proof (issuable_issued _ _ _ _ _ _ Hiss) as Hissued.
  set (c := issued_claims iss aud duration now jti p) in *.
  set (t := new_token signer iss aud duration now jti p) in *.
  assert (token_Claims t = c) as Htc.
  { subst t c. unfold new_token, issued_claims, NewWithClaims. cbn [token_Claims].
    by rewrite (proj1 (whole_NumericDate _ (iu_now _ _ _ _ _ _ Hiss))), (proj1 (whole_NumericDate _ (iu_expiry _ _ _ _ _ _ Hiss))). }
  assert (Header t = <["typ"%string := AString (TokenTypeForUse (payload_use p))]>
    (<["typ"%string := AString "JWT"]> (<["alg"%string := AString (Alg signer)]> ∅))) as Hh by reflexivity.
  assert (map_Forall string_entry (Header t)) as Hstr by (by apply new_token_header_strings).
  pose proof (issued_members c Hissued) as Hm.
  destruct (issued_parses signingMethods ff (NewParser (parserOptions iss aud algs)) rng t skey s (Alg signer) verifier
    (jwt_members c) zero_claims c) as (h & cl & sig & Hsig & Hsplit & Hun).
  - done.
  - done.
  - rewrite Hh. reflexivity.
  - done.
  - by rewrite Htc.
  - apply jwt_members_nodup.
  - cbn [writable]. apply forallb_forall. intros m Hin. rewrite List.Forall_forall in Hm. by apply Hm.
  - cbn [depth_of]. assert (foldr (fun (m : string * json) d => Z.max (depth_of (snd m)) d) 0 (jwt_members c) <= 1)
      by (clear - Hm; induction Hm as [|m ms [_ Hd] _ IH]; cbn; [lia|apply Z.max_lub; [exact Hd|exact IH]]).
    unfold max_depth. lia.
  - rewrite util_parser. cbn [useJSONNumber]. by apply issued_decodes.
  - apply parse_token_ok. constructor; [done| |].
    + eexists _, h, cl, _. split; [exact Hun|]. split; [done|]. split; [done|]. split; [done|].
      split; [by apply Hkey|]. split; [cbn; by eapply sign_verify|].
      cbn [Header token_Claims]. rewrite Hh. split.
      * apply refused_absent.
      * apply lookup_insert_eq.
    + by apply issued_valid.
Qed.
End Sign.
End Facts.
