(* ===== verification/Store.v ===== *)
(** The database as the repositories use it, and the status of a call.

    [Gorm] is the interface of gorm.io/gorm the repositories call; its [Where]
    conditions are predicates.  [GormLaws] states what the code relies on: a
    transaction sees the rows it started from, an operation that reports an
    error changes nothing, [First] and [Find] respect their condition, [Updates]
    writes the non-zero fields only, and a commit that reports an error leaves
    the database as it was.  A request is one step: requests that run at the
    same time are taken one after the other.  [Memory] is an instance. *)
From Stdlib Require Import ZArith Lia Ascii String.
From stdpp Require Import base numbers list strings option gmap.
From S2P Require Import Prelude Text Claims JwtUtil.
Local Open Scope Z_scope.

(** * gRPC status *)

Inductive code := InvalidArgument | NotFound | Internal | Unauthenticated.
#[export] Instance code_eq_dec : EqDecision code.
Proof. solve_decision. Defined.

(** [status.Error(code, message)] *)
Record status := Status { st_code : code; st_message : string }.

(** * Rows *)

(** What the gorm tags of an entity say: its primary key, the row stored for a
    new value (a generated key for a zero one, the clock in its time fields),
    and the row that results from writing the non-zero fields of a value. *)
Class Entity `{UUID} (row : Type) := {
  row_id : row -> uuid;
  on_create : row -> uuid -> Z -> row;
  on_update : row -> row -> Z -> row
}.

(** The laws of those three. *)
Class EntityLaws `{UUID} (row : Type) `{!Entity row} := {
  create_id r u now : row_id r = uuid_Nil -> row_id (on_create r u now) = u;
  update_id old r now : row_id r = row_id old -> row_id (on_update old r now) = row_id old
}.

Section Gorm.
Context `{HU : UUID} (row : Type) `{!Entity row}.

Class Gorm := {
  db : Type;
  tx : Type;
  WithContext : db -> tx;
  Begin : db -> tx;
  gorm_Create : row -> tx -> result error unit * tx;
  gorm_First : (row -> bool) -> tx -> result error row;
  gorm_Find : (row -> bool) -> tx -> result error (list row);
  gorm_Updates : (row -> bool) -> row -> tx -> result error unit * tx;
  gorm_Delete : (row -> bool) -> row -> tx -> result error unit * tx;
  Commit : tx -> db -> result error unit * db
}.

(** The rows matched by a condition and the primary key of a value. *)
Definition matches (cond : row -> bool) (r : row) (id : uuid) (old : row) : bool :=
  cond old && bool_decide (id = row_id r).

Class GormLaws `{Gorm} := {
  rows : db -> gmap uuid row;
  tx_rows : tx -> gmap uuid row;
  (** the session cannot answer: a lost connection, say *)
  broken : tx -> Prop;
  session_rows d : tx_rows (WithContext d) = rows d;
  begin_rows d : tx_rows (Begin d) = rows d;
  create_rows r t : row_id r = uuid_Nil -> match gorm_Create r t with
    | (Ok _, t') => exists id now, id <> uuid_Nil /\ tx_rows t !! id = None /\
        tx_rows t' = <[id := on_create r id now]> (tx_rows t)
    | (Err _, t') => tx_rows t' = tx_rows t end;
  first_row cond t : match gorm_First cond t with
    | Ok r => exists id, tx_rows t !! id = Some r /\ cond r = true
    | Err _ => broken t \/ forall id r, tx_rows t !! id = Some r -> cond r = false end;
  find_rows cond t : match gorm_Find cond t with
    | Ok l => l ≡ₚ List.filter cond (snd <$> map_to_list (tx_rows t))
    | Err _ => broken t end;
  updates_rows cond r t : match gorm_Updates cond r t with
    | (Ok _, t') => exists now, tx_rows t' =
        map_imap (fun id old => Some (if matches cond r id old then on_update old r now else old)) (tx_rows t)
    | (Err _, t') => tx_rows t' = tx_rows t end;
  delete_rows cond r t : match gorm_Delete cond r t with
    | (Ok _, t') => tx_rows t' =
        map_imap (fun id old => if matches cond r id old then None else Some old) (tx_rows t)
    | (Err _, t') => tx_rows t' = tx_rows t end;
  commit_rows t d : match Commit t d with
    | (Ok _, d') => rows d' = tx_rows t
    | (Err _, d') => rows d' = rows d end
}.

(** * Transactions

    The body runs on the transaction; the deferred rollback drops it unless the
    commit went through. *)
Definition in_tx `{Gorm} {A} (body : tx -> result status A * tx) (d : db) : result status A * db :=
  match body (Begin d) with
  | (Err e, _) => (Err e, d)
  | (Ok a, t) =>
      match Commit t d with
      | (Ok _, d') => (Ok a, d')
      | (Err _, d') => (Err (Status Internal "internal server error"), d')
      end
  end.

(** Every row is stored under its primary key, and none under the zero one. *)
Definition keyed (m : gmap uuid row) : Prop := forall id r, m !! id = Some r -> row_id r = id /\ id <> uuid_Nil.

Lemma in_tx_rows `{GormLaws} {A} (body : tx -> result status A * tx) d :
  rows (snd (in_tx body d)) = rows d \/
  exists a t, body (Begin d) = (Ok a, t) /\ rows (snd (in_tx body d)) = tx_rows t /\ fst (in_tx body d) = Ok a.
Proof.
  unfold in_tx. destruct (body (Begin d)) as [[a|e] t] eqn:E; [|by left].
  pose proof (commit_rows t d) as Hc. destruct (Commit t d) as [[u|e] d']; cbn; [|by left].
  right. exists a, t. done.
Qed.

Lemma in_tx_commit `{GormLaws} {A} (body : tx -> result status A * tx) d a d' :
  in_tx body d = (Ok a, d') -> exists t, body (Begin d) = (Ok a, t) /\ rows d' = tx_rows t.
Proof.
  unfold in_tx. destruct (body (Begin d)) as [[x|e] t] eqn:E; [|done].
  pose proof (commit_rows t d) as Hc. destruct (Commit t d) as [[u|e] d0]; [|done].
  intros [= -> ->]. by exists t.
Qed.
End Gorm.

(** * A table in memory *)

Section Memory.
Context `{HU : UUID} (row : Type) `{!Entity row} (fresh : gmap uuid row -> uuid).

(** The clock stands at 1; every operation succeeds. *)
Definition Memory : Gorm row := {|
  db := gmap uuid row;
  tx := gmap uuid row;
  WithContext m := m;
  Begin m := m;
  gorm_Create r m := (Ok tt, <[fresh m := on_create r (fresh m) 1]> m);
  gorm_First cond m := match List.filter cond (snd <$> map_to_list m) with
    | r :: _ => Ok r
    | [] => Err Library end;
  gorm_Find cond m := Ok (List.filter cond (snd <$> map_to_list m));
  gorm_Updates cond r m :=
    (Ok tt, map_imap (fun id old => Some (if matches row cond r id old then on_update old r 1 else old)) m);
  gorm_Delete cond r m :=
    (Ok tt, map_imap (fun id old => if matches row cond r id old then None else Some old) m);
  Commit m _ := (Ok tt, m)
|}.
End Memory.
