(* ===== verification/Tasks.v ===== *)
(** The task service, from the HTTP handler to the database: todo-service
    entity/task.go, repository/task_repository.go, service/task_service.go,
    delivery/grpc/server/task_server.go, interceptor/auth_interceptor.go, and
    gateway middleware/auth_middleware.go, handler/task_handler.go.

    Writing an HTTP response and logging are left out; a handler returns what it
    answers with.  Protobuf's [timestamppb] is a parameter. *)
From Stdlib Require Import ZArith Lia Ascii String.
From stdpp Require Import base numbers list strings option gmap.
From S2P Require Import Prelude Text Claims JwtParser JwtUtil Store.
Local Open Scope Z_scope.

(** * Times *)

Class Timestamps := {
  timestamp : Type;
  timestamppb_New : time -> timestamp;
  AsTime : timestamp -> time
}.
Class TimestampsLaws `{Timestamps} := AsTime_New t : AsTime (timestamppb_New t) = t.

Definition time_UnixMilli (ms : Z) : time := time_unix (Z.quot ms 1000) (Z.rem ms 1000 * 1000000).
Definition UnixMilli (t : time) : Z := i64 (unix t * 1000 + t_nsec t / 1000000).

Section Tasks.
Context `{HU : UUID} `{HT : Timestamps}.

(** * The entity and its table *)

Record Task := MkTask {
  Id : uuid;
  Title : string;
  Description : string;
  task_Status : string;
  DueDate : Z;
  UserId : uuid;
  CreatedAt : Z;
  UpdatedAt : Z
}.

Definition nonzero_string (new old : string) : string := if String.eqb new "" then old else new.
Definition nonzero_int (new old : Z) : Z := if new =? 0 then old else new.
Definition nonzero_uuid (new old : uuid) : uuid := if decide (new = uuid_Nil) then old else new.

#[export] Instance task_entity : Entity Task := {
  row_id := Id;
  on_create t u now := MkTask (nonzero_uuid (Id t) u) (Title t) (Description t) (task_Status t) (DueDate t) (UserId t)
    (nonzero_int (CreatedAt t) now) (nonzero_int (UpdatedAt t) now);
  on_update old t now := MkTask (Id old) (nonzero_string (Title t) (Title old))
    (nonzero_string (Description t) (Description old)) (nonzero_string (task_Status t) (task_Status old))
    (nonzero_int (DueDate t) (DueDate old)) (nonzero_uuid (UserId t) (UserId old))
    (nonzero_int (CreatedAt t) (CreatedAt old)) now
}.

Context `{HG : !Gorm Task}.

(** ** The repository *)

Definition owned (id userId : uuid) (t : Task) : bool := bool_decide (Id t = id) && bool_decide (UserId t = userId).

Definition repo_Create (t : Task) : tx Task -> result error unit * tx Task := gorm_Create Task t.
Definition repo_Update (t : Task) : tx Task -> result error unit * tx Task := gorm_Updates Task (owned (Id t) (UserId t)) t.
Definition repo_Delete (t : Task) : tx Task -> result error unit * tx Task := gorm_Delete Task (owned (Id t) (UserId t)) t.
Definition repo_GetById (id userId : uuid) (s : tx Task) : result error Task := gorm_First Task (owned id userId) s.
Definition repo_GetAll (userId : uuid) (s : tx Task) : result error (list Task) :=
  gorm_Find Task (fun t => bool_decide (UserId t = userId)) s.

(** * The service *)

Record CreateTaskRequest := MkCreate {
  c_UserId : string; c_Title : string; c_Description : string; c_Status : string; c_DueDate : option timestamp
}.
Record UpdateTaskRequest := MkUpdate {
  u_Id : string; u_UserId : string; u_Title : string; u_Description : string; u_Status : string;
  u_DueDate : option timestamp
}.

Record TaskModel := MkTaskModel {
  m_Id : string; m_Title : string; m_Description : string; m_Status : string; m_DueDate : option timestamp;
  m_UserId : string; m_CreatedAt : option timestamp; m_UpdatedAt : option timestamp
}.

Definition unixMilliThreshold : Z := 1000000000000.

Definition taskTimestamp (value : Z) : option timestamp :=
  if value <=? 0 then None
  else if value <? unixMilliThreshold then Some (timestamppb_New (time_unix value 0))
  else Some (timestamppb_New (time_UnixMilli value)).

Definition dueDateTimestamp (value : Z) : option timestamp :=
  if value <=? 0 then None else Some (timestamppb_New (time_UnixMilli value)).

Definition toTaskModel (t : Task) (userId : string) : TaskModel :=
  MkTaskModel (uuid_String (Id t)) (Title t) (Description t) (task_Status t) (dueDateTimestamp (DueDate t)) userId
    (taskTimestamp (CreatedAt t)) (taskTimestamp (UpdatedAt t)).

(** An identifier of a request, or the error for it. *)
Definition parse_id (s msg : string) : result status uuid :=
  match uuid_Parse s with Some u => Ok u | None => Err (Status InvalidArgument msg) end.

Definition internal_if {A} (msg : string) (r : result error A * tx Task) : result status A * tx Task :=
  match r with (Ok a, t) => (Ok a, t) | (Err _, t) => (Err (Status Internal msg), t) end.

Definition service_Create (request : CreateTaskRequest) : db Task -> result status unit * db Task :=
  in_tx Task (fun t =>
    match parse_id (c_UserId request) "invalid user id" with
    | Err e => (Err e, t)
    | Ok parsedUserId =>
        let task := MkTask uuid_Nil (c_Title request) (c_Description request) (c_Status request)
          (match c_DueDate request with Some d => UnixMilli (AsTime d) | None => 0 end) parsedUserId 0 0 in
        internal_if "failed to create task" (repo_Create task t)
    end).

Definition service_Update (request : UpdateTaskRequest) : db Task -> result status unit * db Task :=
  in_tx Task (fun t =>
    match parse_id (u_Id request) "invalid task id" with
    | Err e => (Err e, t)
    | Ok parsedTaskId =>
    match parse_id (u_UserId request) "invalid user id" with
    | Err e => (Err e, t)
    | Ok parsedUserId =>
    match repo_GetById parsedTaskId parsedUserId t with
    | Err _ => (Err (Status NotFound "task not found"), t)
    | Ok task =>
        let task := MkTask (Id task) (u_Title request) (u_Description request) (u_Status request)
          (match u_DueDate request with Some d => UnixMilli (AsTime d) | None => DueDate task end)
          (UserId task) (CreatedAt task) (UpdatedAt task) in
        internal_if "failed to update task" (repo_Update task t)
    end end end).

Definition service_Delete (id userId : string) : db Task -> result status unit * db Task :=
  in_tx Task (fun t =>
    match parse_id id "invalid task id" with
    | Err e => (Err e, t)
    | Ok parsedTaskId =>
    match parse_id userId "invalid user id" with
    | Err e => (Err e, t)
    | Ok parsedUserId =>
    match repo_GetById parsedTaskId parsedUserId t with
    | Err _ => (Err (Status NotFound "task not found"), t)
    | Ok task => internal_if "failed to delete task" (repo_Delete task t)
    end end end).

Definition service_GetById (taskId userId : string) (d : db Task) : result status TaskModel :=
  parsedTaskId ← parse_id taskId "invalid task id";
  parsedUserId ← parse_id userId "invalid user id";
  match repo_GetById parsedTaskId parsedUserId (WithContext Task d) with
  | Err _ => Err (Status NotFound "task not found")
  | Ok task => Ok (toTaskModel task userId)
  end.

Definition service_GetAll (userId : string) (d : db Task) : result status (list TaskModel) :=
  parsedUserId ← parse_id userId "invalid user id";
  match repo_GetAll parsedUserId (WithContext Task d) with
  | Err _ => Err (Status Internal "internal server error")
  | Ok tasks => Ok ((fun task => toTaskModel task userId) <$> tasks)
  end.

(** * The gRPC server

    A context holds the user the interceptor stored, if any. *)

Definition getUserID (ctx : option string) : result status string :=
  match ctx with
  | Some userID => if String.eqb userID "" then Err (Status Unauthenticated "user not authenticated") else Ok userID
  | None => Err (Status Unauthenticated "user not authenticated")
  end.

Inductive task_request :=
  | ReqCreate (r : CreateTaskRequest)
  | ReqUpdate (r : UpdateTaskRequest)
  | ReqDelete (id userId : string)
  | ReqGet (id userId : string)
  | ReqGetAll (userId : string).

Inductive task_response := RespEmpty | RespTask (t : TaskModel) | RespTasks (ts : list TaskModel).

(** The identity in the request is overwritten by the one in the context. *)
Definition server_Create (userID : string) (r : CreateTaskRequest) (d : db Task) : result status task_response * db Task :=
  let '(res, d') := service_Create (MkCreate userID (c_Title r) (c_Description r) (c_Status r) (c_DueDate r)) d in
  ((_ ← res; Ok RespEmpty), d').

Definition server_Update (userID : string) (r : UpdateTaskRequest) (d : db Task) : result status task_response * db Task :=
  let '(res, d') := service_Update
    (MkUpdate (u_Id r) userID (u_Title r) (u_Description r) (u_Status r) (u_DueDate r)) d in
  ((_ ← res; Ok RespEmpty), d').

Definition server_Delete (userID id : string) (d : db Task) : result status task_response * db Task :=
  let '(res, d') := service_Delete id userID d in ((_ ← res; Ok RespEmpty), d').

Definition server_Get (userID id : string) (d : db Task) : result status task_response :=
  t ← service_GetById id userID d; Ok (RespTask t).

Definition server_GetAll (userID : string) (d : db Task) : result status task_response :=
  ts ← service_GetAll userID d; Ok (RespTasks ts).

Definition TaskServer (ctx : option string) (req : task_request) (d : db Task) : result status task_response * db Task :=
  match getUserID ctx with
  | Err e => (Err e, d)
  | Ok userID =>
      match req with
      | ReqCreate r => server_Create userID r d
      | ReqUpdate r => server_Update userID r d
      | ReqDelete id _ => server_Delete userID id d
      | ReqGet id _ => (server_Get userID id d, d)
      | ReqGetAll _ => (server_GetAll userID d, d)
      end
  end.

(** [md]: the values of the [x-user-id] metadata, or no metadata at all. *)
Definition AuthInterceptor (md : option (list string)) (req : task_request) (d : db Task)
    : result status task_response * db Task :=
  match md with
  | None => (Err (Status Unauthenticated "metadata not provided"), d)
  | Some [] => (Err (Status Unauthenticated "x-user-id not provided"), d)
  | Some (userID :: _) =>
      match uuid_Parse userID with
      | None => (Err (Status Unauthenticated "invalid x-user-id"), d)
      | Some _ => TaskServer (Some userID) req d
      end
  end.

(** * The gateway *)

(** What a handler answers: an HTTP error, or a status with its data. *)
Record http_error := MkHttpError { http_status : Z; http_message : string }.
Inductive http_response (A : Type) := HttpError (e : http_error) | HttpOk (status : Z) (data : A).
Arguments HttpError {A}. Arguments HttpOk {A}.

(** [strings.TrimPrefix(header, prefix)] *)
Definition TrimPrefix (s prefix : string) : string := default s (Json.strip_prefix prefix s).

(** The middleware: the verified user and email for the handlers behind it. *)
Definition AuthMiddleware (jwt_Parse : string -> option (result error JWTClaims)) (authHeader : string)
    : option (result http_error (string * string)) :=
  if String.eqb authHeader "" then Some (Err (MkHttpError 401 "authorization header required"))
  else
    let tokenString := TrimPrefix authHeader "Bearer " in
    if String.eqb tokenString authHeader then Some (Err (MkHttpError 401 "invalid authorization format"))
    else
      r ← jwt_Parse tokenString;
      Some match r with
      | Err _ => Err (MkHttpError 401 "invalid or expired token")
      | Ok claims =>
          if negb (String.eqb (TokenUse claims) "") && negb (String.eqb (TokenUse claims) TokenUseAccess)
          then Err (MkHttpError 401 "invalid token type")
          else Ok (uuid_String (UserID claims), Email claims)
      end.

(** The body of a request, or an unreadable one. *)
Record TaskBody := MkBody { b_Title : string; b_Description : string; b_Status : string; b_DueDate : option Z }.

Inductive http_request :=
  | PostTask (body : option TaskBody)
  | PutTask (id : string) (body : option TaskBody)
  | DeleteTask (id : string)
  | GetTask (id : string)
  | GetTasks.

Record TaskResponse := MkTaskResponse {
  r_Id : string; r_Title : string; r_Description : string; r_Status : string; r_DueDate : Z; r_UserId : string;
  r_CreatedAt : Z; r_UpdatedAt : Z
}.

Definition toTaskResponse (t : TaskModel) : TaskResponse :=
  let ms (x : option timestamp) := match x with Some x => UnixMilli (AsTime x) | None => 0 end in
  MkTaskResponse (m_Id t) (m_Title t) (m_Description t) (m_Status t) (ms (m_DueDate t)) (m_UserId t)
    (ms (m_CreatedAt t)) (ms (m_UpdatedAt t)).

Definition grpcToHTTPError (e : status) : http_response (list TaskResponse) :=
  match st_code e with
  | InvalidArgument => HttpError (MkHttpError 400 (st_message e))
  | NotFound => HttpError (MkHttpError 404 (st_message e))
  | Unauthenticated => HttpError (MkHttpError 401 (st_message e))
  | Internal => HttpError (MkHttpError 500 (st_message e))
  end.

Definition bad_body : http_response (list TaskResponse) := HttpError (MkHttpError 400 "invalid request body").

(** [forwardContext]: the user travels as metadata. *)
Definition forwardContext (userID : string) : option (list string) := Some [userID].

(** A call of the task service by the gateway, and its answer. *)
Definition call_tasks (userID : string) (req : task_request) (ok_status : Z) (d : db Task)
    : http_response (list TaskResponse) * db Task :=
  match AuthInterceptor (forwardContext userID) req d with
  | (Err e, d') => (grpcToHTTPError e, d')
  | (Ok RespEmpty, d') => (HttpOk ok_status [], d')
  | (Ok (RespTask t), d') => (HttpOk ok_status [toTaskResponse t], d')
  | (Ok (RespTasks ts), d') => (HttpOk ok_status (toTaskResponse <$> ts), d')
  end.

Definition grpc_due (due : option Z) : option timestamp := (fun ms => timestamppb_New (time_UnixMilli ms)) <$> due.

Definition handler_Create (userID : string) (body : option TaskBody) (d : db Task) : http_response (list TaskResponse) * db Task :=
  match body with
  | None => (bad_body, d)
  | Some b => call_tasks userID
      (ReqCreate (MkCreate userID (b_Title b) (b_Description b) (b_Status b) (grpc_due (b_DueDate b)))) 201 d
  end.

Definition handler_Update (userID id : string) (body : option TaskBody) (d : db Task) : http_response (list TaskResponse) * db Task :=
  match body with
  | None => (bad_body, d)
  | Some b => call_tasks userID
      (ReqUpdate (MkUpdate id userID (b_Title b) (b_Description b) (b_Status b) (grpc_due (b_DueDate b)))) 200 d
  end.

Definition handler_Delete (userID id : string) (d : db Task) : http_response (list TaskResponse) * db Task :=
  call_tasks userID (ReqDelete id userID) 200 d.
Definition handler_GetById (userID id : string) (d : db Task) : http_response (list TaskResponse) * db Task :=
  call_tasks userID (ReqGet id userID) 200 d.
Definition handler_GetAll (userID : string) (d : db Task) : http_response (list TaskResponse) * db Task :=
  call_tasks userID (ReqGetAll userID) 200 d.

Definition task_handler (userID : string) (req : http_request) : db Task -> http_response (list TaskResponse) * db Task :=
  match req with
  | PostTask body => handler_Create userID body
  | PutTask id body => handler_Update userID id body
  | DeleteTask id => handler_Delete userID id
  | GetTask id => handler_GetById userID id
  | GetTasks => handler_GetAll userID
  end.

(** The routes below [/api/tasks]: the middleware, then the handler. *)
Definition tasks_route (jwt_Parse : string -> option (result error JWTClaims)) (authHeader : string)
    (req : http_request) (d : db Task) : option (http_response (list TaskResponse) * db Task) :=
  r ← AuthMiddleware jwt_Parse authHeader;
  Some match r with
  | Err e => (HttpError e, d)
  | Ok (userID, _) => task_handler userID req d
  end.
End Tasks.

Arguments HttpError {A}. Arguments HttpOk {A}.
