(* ===== verification/TasksFacts.v ===== *)
(** The tasks of a user are the user's own: what every request does to the
    table, for any database that keeps gorm's promises. *)
From Stdlib Require Import ZArith Lia Ascii String.
From stdpp Require Import base numbers list strings option gmap.
From S2P Require Import Prelude Text Claims JwtParser JwtUtil Store Tasks.
Local Open Scope Z_scope.

Section Facts.
Context `{HU : UUID} `{HUL : !UUIDLaws} `{HT : Timestamps} `{HTL : !TimestampsLaws}.
Context `{HG : !Gorm Task} `{HGL : !GormLaws Task}.
Implicit Types (m : gmap uuid Task).

#[export] Instance task_entity_laws : EntityLaws Task.
Proof.
  constructor; cbn.
  - intros r u now Hr. unfold nonzero_uuid. by destruct (decide _).
  - done.
Qed.

(** The tasks of one user. *)
Definition owned_by (u : uuid) m : gmap uuid Task := filter (fun e => UserId (snd e) = u) m.

Lemma owned_by_lookup u m id t : owned_by u m !! id = Some t <-> m !! id = Some t /\ UserId t = u.
Proof. unfold owned_by. by rewrite map_lookup_filter_Some. Qed.

(** ** Effects on the table *)

(** Nothing, one new task of the user, or changes to tasks the user owns and
    keeps; keys stay keys. *)
Inductive effect (u : uuid) m : gmap uuid Task -> Prop :=
  | effect_none : effect u m m
  | effect_new id t : m !! id = None -> UserId t = u -> Id t = id -> id <> uuid_Nil -> effect u m (<[id := t]> m)
  | effect_own (f : uuid -> Task -> option Task) :
      (forall id t, UserId t <> u -> f id t = Some t) ->
      (forall id t t', f id t = Some t' -> UserId t' = UserId t /\ Id t' = Id t) ->
      effect u m (map_imap f m).

Lemma effect_others u v m m' : effect u m m' -> v <> u -> owned_by v m' = owned_by v m.
Proof.
  intros He Hv. apply map_eq. intros k. apply option_eq. intros x. rewrite !owned_by_lookup.
  destruct He as [|id t Hid Hu _ _|f Hf Hk]; [done| |].
  - destruct (decide (id = k)) as [->|Hne].
    + rewrite lookup_insert_eq, Hid. split; [intros [[= <-] ?]; congruence|by intros [[=] _]].
    + by rewrite lookup_insert_ne.
  - rewrite map_lookup_imap. destruct (m !! k) as [t|]; cbn; [|by split; intros [[=] _]].
    split.
    + intros [Hx Hxv]. destruct (Hk k t x Hx) as [Hu _].
      rewrite Hf in Hx by congruence. injection Hx as <-. done.
    + intros [[= <-] Hxv]. by rewrite Hf by congruence.
Qed.

Lemma effect_keyed u m m' : effect u m m' -> keyed Task m -> keyed Task m'.
Proof.
  intros He Hm k x. destruct He as [|id t Hid Hu Hi Hn|f Hf Hk]; [apply Hm| |].
  - destruct (decide (id = k)) as [->|Hne].
    + rewrite lookup_insert_eq. by intros [= <-].
    + rewrite lookup_insert_ne by done. apply Hm.
  - rewrite map_lookup_imap. destruct (m !! k) as [t|] eqn:E; cbn; [|done].
    intros Hx. destruct (Hk _ _ _ Hx) as [_ Hi]. cbn in *. rewrite Hi. by apply Hm.
Qed.

(** A task keeps its owner. *)
Lemma effect_owner u m m' id t t' :
  effect u m m' -> m !! id = Some t -> m' !! id = Some t' -> UserId t' = UserId t.
Proof.
  intros He Ht. destruct He as [|k x Hk _ _ _|f Hf Hk]; [by rewrite Ht; intros [= <-]| |].
  - destruct (decide (k = id)) as [->|]; [congruence|]. rewrite lookup_insert_ne, Ht by done. by intros [= <-].
  - rewrite map_lookup_imap, Ht. cbn. intros Hx. by apply (Hk _ _ _ Hx).
Qed.

(** ** The repository *)

Lemma owned_spec id u t : owned id u t = true <-> Id t = id /\ UserId t = u.
Proof. unfold owned. by rewrite andb_true_iff, !bool_decide_eq_true. Qed.

Lemma repo_GetById_ok id u s t :
  repo_GetById id u s = Ok t -> exists k, tx_rows Task s !! k = Some t /\ Id t = id /\ UserId t = u.
Proof.
  unfold repo_GetById. pose proof (first_row Task (owned id u) s) as H.
  destruct (gorm_First Task (owned id u) s); [|done]. intros [= ->].
  destruct H as (k & Hk & Ho). apply owned_spec in Ho. by exists k.
Qed.

Lemma matches_owned t id u k old : Id t = id -> UserId t = u -> matches Task (owned id u) t k old = true -> UserId old = u.
Proof. unfold matches. by intros _ _ [[_ ?]%owned_spec _]%andb_prop. Qed.

(** A write that names a stored task by its owner touches its key only. *)
Lemma matches_key t x y :
  (x = Id t -> Id y = Id t /\ UserId y = UserId t) ->
  matches Task (owned (Id t) (UserId t)) t x y = bool_decide (x = Id t).
Proof.
  intros H. unfold matches. cbn [row_id task_entity]. destruct (decide (x = Id t)) as [Hx|Hx].
  - rewrite (proj2 (owned_spec _ _ _)) by (by apply H). done.
  - rewrite bool_decide_eq_false_2 by done. apply andb_false_r.
Qed.

Lemma repo_Create_effect t s s' :
  Id t = uuid_Nil -> repo_Create t s = (Ok tt, s') -> effect (UserId t) (tx_rows Task s) (tx_rows Task s').
Proof.
  intros Hid Hs. pose proof (create_rows Task t s Hid) as H. unfold repo_Create in Hs. rewrite Hs in H.
  destruct H as (id & now & Hn & Hf & ->). apply effect_new; [done|done| |done]. cbn. rewrite Hid. apply decide_True, eq_refl.
Qed.

Lemma repo_Update_effect t s s' :
  repo_Update t s = (Ok tt, s') -> effect (UserId t) (tx_rows Task s) (tx_rows Task s').
Proof.
  intros Hs. pose proof (updates_rows Task (owned (Id t) (UserId t)) t s) as H. unfold repo_Update in Hs. rewrite Hs in H.
  destruct H as (now & ->). apply effect_own.
  - intros k old Hu. destruct (matches Task _ t k old) eqn:E; [|done]. by apply matches_owned in E.
  - intros k old new. destruct (matches Task _ t k old) eqn:E; [|by intros [= <-]].
    apply matches_owned in E; [|done..]. intros [= <-]. cbn. split; [|done].
    unfold nonzero_uuid. destruct (decide _); congruence.
Qed.

Lemma repo_Delete_effect t s s' :
  repo_Delete t s = (Ok tt, s') -> effect (UserId t) (tx_rows Task s) (tx_rows Task s').
Proof.
  intros Hs. pose proof (delete_rows Task (owned (Id t) (UserId t)) t s) as H. unfold repo_Delete in Hs. rewrite Hs in H.
  rewrite H. apply effect_own.
  - intros k old Hu. destruct (matches Task _ t k old) eqn:E; [|done]. by apply matches_owned in E.
  - intros k old new. destruct (matches Task _ t k old) eqn:E; [done|]. by intros [= <-].
Qed.

(** ** The service and the layers above *)

Lemma internal_if_ok msg (r : result error unit * tx Task) a s :
  internal_if msg r = (Ok a, s) -> r = (Ok tt, s).
Proof. destruct r as [[[]|] ?]; cbn; [by intros [= _ <-]|done]. Qed.

Lemma in_tx_effect (body : tx Task -> result status unit * tx Task) u d :
  (forall s s', body s = (Ok tt, s') -> effect u (tx_rows Task s) (tx_rows Task s')) ->
  effect u (rows Task d) (rows Task (snd (in_tx Task body d))).
Proof.
  intros Hb. destruct (in_tx_rows Task body d) as [->|([] & s & E & -> & _)]; [apply effect_none|].
  apply Hb in E. by rewrite begin_rows in E.
Qed.

Lemma parse_id_ok s msg u : parse_id s msg = Ok u <-> uuid_Parse s = Some u.
Proof. unfold parse_id. destruct (uuid_Parse s); split; congruence. Qed.

Lemma service_Create_effect r u d :
  uuid_Parse (c_UserId r) = Some u -> effect u (rows Task d) (rows Task (snd (service_Create r d))).
Proof.
  intros Hu. apply in_tx_effect. intros s s'. rewrite (proj2 (parse_id_ok _ _ u) Hu).
  intros E%internal_if_ok. by apply repo_Create_effect in E.
Qed.

Lemma service_Update_effect r u d :
  uuid_Parse (u_UserId r) = Some u -> effect u (rows Task d) (rows Task (snd (service_Update r d))).
Proof.
  intros Hu. apply in_tx_effect. intros s s'. destruct (parse_id (u_Id r) _) as [id|e]; [|done].
  rewrite (proj2 (parse_id_ok _ _ u) Hu). destruct (repo_GetById id u s) as [t|e] eqn:E; [|done].
  apply repo_GetById_ok in E as (k & _ & _ & <-). intros E%internal_if_ok. by apply repo_Update_effect in E.
Qed.

Lemma service_Delete_effect id userId u d :
  uuid_Parse userId = Some u -> effect u (rows Task d) (rows Task (snd (service_Delete id userId d))).
Proof.
  intros Hu. apply in_tx_effect. intros s s'. destruct (parse_id id _) as [i|e]; [|done].
  rewrite (proj2 (parse_id_ok _ _ u) Hu). destruct (repo_GetById i u s) as [t|e] eqn:E; [|done].
  apply repo_GetById_ok in E as (k & _ & _ & <-). intros E%internal_if_ok. by apply repo_Delete_effect in E.
Qed.

Lemma interceptor_effect userID u req d :
  uuid_Parse userID = Some u ->
  effect u (rows Task d) (rows Task (snd (AuthInterceptor (Some [userID]) req d))).
Proof.
  intros Hu. unfold AuthInterceptor. rewrite Hu. unfold TaskServer, getUserID.
  destruct (String.eqb userID ""); [apply effect_none|].
  destruct req as [r|r|id ?|id ?|?].
  - unfold server_Create. pose proof (service_Create_effect
      (MkCreate userID (c_Title r) (c_Description r) (c_Status r) (c_DueDate r)) u d Hu) as H.
    by destruct (service_Create _ d).
  - unfold server_Update. pose proof (service_Update_effect
      (MkUpdate (u_Id r) userID (u_Title r) (u_Description r) (u_Status r) (u_DueDate r)) u d Hu) as H.
    by destruct (service_Update _ d).
  - unfold server_Delete. pose proof (service_Delete_effect id userID u d Hu) as H. by destruct (service_Delete _ _ d).
  - apply effect_none.
  - apply effect_none.
Qed.

Lemma call_tasks_db userID req st d :
  snd (call_tasks userID req st d) = snd (AuthInterceptor (Some [userID]) req d).
Proof.
  unfold call_tasks, forwardContext. by destruct (AuthInterceptor _ req d) as [[[]|] ?].
Qed.

Lemma handler_effect userID u req d :
  uuid_Parse userID = Some u -> effect u (rows Task d) (rows Task (snd (task_handler userID req d))).
Proof.
  intros Hu. destruct req as [[b|]|id [b|]|id|id|]; cbn [task_handler handler_Create handler_Update];
    try apply effect_none; unfold handler_Delete, handler_GetById, handler_GetAll;
    rewrite call_tasks_db; by apply interceptor_effect.
Qed.

(** ** What a request reads *)

Definition answers (u : uuid) (userID : string) m (r : TaskResponse) : Prop :=
  exists id t, m !! id = Some t /\ UserId t = u /\ r = toTaskResponse (toTaskModel t userID).

Lemma handler_answers userID u req d st rs r :
  uuid_Parse userID = Some u -> fst (task_handler userID req d) = HttpOk st rs -> In r rs ->
  answers u userID (rows Task d) r.
Proof.
  intros Hu. unfold answers.
  assert (forall req st0 st rs, (forall ts, fst (AuthInterceptor (Some [userID]) req d) = Ok (RespTasks ts) ->
      forall x, In x ts -> exists id t, rows Task d !! id = Some t /\ UserId t = u /\ x = toTaskModel t userID) ->
    (forall x, fst (AuthInterceptor (Some [userID]) req d) = Ok (RespTask x) ->
      exists id t, rows Task d !! id = Some t /\ UserId t = u /\ x = toTaskModel t userID) ->
    fst (call_tasks userID req st0 d) = HttpOk st rs -> In r rs ->
    exists id t, rows Task d !! id = Some t /\ UserId t = u /\ r = toTaskResponse (toTaskModel t userID)) as Hcall.
  { clear st rs. intros rq st0 st rs Hmany Hone. unfold call_tasks, forwardContext.
    destruct (AuthInterceptor _ rq d) as [[[|x|ts]|e] d']; cbn [fst] in *.
    - by intros [= <- <-] [].
    - intros [= <- <-] [<-|[]]. destruct (Hone x eq_refl) as (id & t & ? & ? & ->). by exists id, t.
    - intros [= <- <-] Hin. apply in_map_iff in Hin as (x & <- & Hx).
      destruct (Hmany ts eq_refl x Hx) as (id & t & ? & ? & ->). by exists id, t.
    - unfold grpcToHTTPError. by destruct (st_code e). }
  assert (forall rq, fst (AuthInterceptor (Some [userID]) rq d) = fst (TaskServer (Some userID) rq d)) as Hint
    by (intros rq; unfold AuthInterceptor; by rewrite Hu).
  unfold TaskServer, getUserID in Hint.
  destruct req as [[b|]|id [b|]|id|id|]; cbn [task_handler handler_Create handler_Update]; try done;
    unfold handler_Delete, handler_GetById, handler_GetAll; apply Hcall; intros x; rewrite Hint;
    destruct (String.eqb userID ""); try done.
  all: try (unfold server_Create; destruct (service_Create _ d) as [[]]; done).
  all: try (unfold server_Update; destruct (service_Update _ d) as [[]]; done).
  all: try (unfold server_Delete; destruct (service_Delete _ _ d) as [[]]; done).
  - cbn [fst]. unfold server_Get. by destruct (service_GetById id userID d).
  - cbn [fst]. unfold server_Get, service_GetById. destruct (parse_id id _) as [i|]; [|done]. cbn [mbind result_bind].
    rewrite (proj2 (parse_id_ok _ _ u) Hu). cbn [mbind result_bind].
    destruct (repo_GetById i u _) as [t|] eqn:E; [|done]. cbn [mbind result_bind]. intros [= <-].
    apply repo_GetById_ok in E as (k & Hk & _ & ?). rewrite session_rows in Hk. by exists k, t.
  - cbn [fst]. unfold server_GetAll, service_GetAll. rewrite (proj2 (parse_id_ok _ _ u) Hu). cbn [mbind result_bind].
    unfold repo_GetAll. pose proof (find_rows Task (fun t => bool_decide (UserId t = u)) (WithContext Task d)) as Hf.
    destruct (gorm_Find _ _ _) as [l|]; [|done]. cbn [mbind result_bind]. intros [= <-] y Hy.
    apply in_map_iff in Hy as (t & <- & Ht). apply (Permutation_in _ Hf) in Ht.
    apply filter_In in Ht as [Ht Hut]. apply bool_decide_eq_true_1 in Hut.
    apply in_map_iff in Ht as ([k t'] & <- & Hk). apply list_elem_of_In, elem_of_map_to_list in Hk.
    rewrite session_rows in Hk. by exists k, t'.
  - cbn [fst]. unfold server_GetAll. by destruct (service_GetAll userID d).
Qed.

(** ** Milliseconds *)

Lemma UnixMilli_time ms : - 2 ^ 62 <= ms < 2 ^ 62 -> UnixMilli (time_UnixMilli ms) = ms.
Proof.
  intros Hms. unfold UnixMilli, time_UnixMilli, time_unix.
  assert (exists s n, (if (Z.rem ms 1000 * 1000000 <? 0) || (second <=? Z.rem ms 1000 * 1000000)
      then (Z.quot ms 1000 + Z.rem ms 1000 * 1000000 / second, (Z.rem ms 1000 * 1000000) mod second)
      else (Z.quot ms 1000, Z.rem ms 1000 * 1000000)) = (s, n) /\
    n = 1000000 * (ms mod 1000) /\ s = ms / 1000) as (s & n & -> & Hn & Hs).
  { eexists _, _. split; [apply surjective_pairing|]. unfold second.
    destruct (Z.ltb_spec (Z.rem ms 1000 * 1000000) 0), (Z.leb_spec 1000000000 (Z.rem ms 1000 * 1000000));
      cbn [orb fst snd]; Z.to_euclidean_division_equations; lia. }
  subst. unfold unix. cbn [t_sec t_nsec].
  assert (- 2 ^ 62 <= ms / 1000 < 2 ^ 62) by (Z.to_euclidean_division_equations; lia).
  rewrite (i64_small (ms / 1000 + _)) by (unfold unix_to_internal; lia).
  rewrite Z.add_simpl_r, (i64_small (ms / 1000)) by lia.
  rewrite Z.mul_comm with (n := 1000000), Z.div_mul by lia.
  pose proof (Z.div_mod ms 1000 ltac:(lia)). rewrite i64_small by lia. lia.
Qed.

Definition due_range (due : option Z) : Prop := forall ms, due = Some ms -> - 2 ^ 62 <= ms < 2 ^ 62.

Lemma grpc_due_value due :
  due_range due -> match grpc_due due with Some x => UnixMilli (AsTime x) | None => 0 end = default 0 due.
Proof. intros H. destruct due as [ms|]; [|done]. cbn. rewrite AsTime_New. by apply UnixMilli_time, H. Qed.

(** The due date a client reads: dates before 1970 are not shown. *)
Lemma shown_due t userID :
  - 2 ^ 62 <= DueDate t < 2 ^ 62 ->
  r_DueDate (toTaskResponse (toTaskModel t userID)) = if DueDate t <=? 0 then 0 else DueDate t.
Proof.
  intros H. cbn. unfold dueDateTimestamp. destruct (DueDate t <=? 0); [done|]. rewrite AsTime_New. by apply UnixMilli_time.
Qed.

(** ** Creating *)

Lemma call_tasks_ok userID req st st' rs d d' :
  call_tasks userID req st d = (HttpOk st' rs, d') -> exists r, AuthInterceptor (Some [userID]) req d = (Ok r, d').
Proof.
  unfold call_tasks, forwardContext. destruct (AuthInterceptor _ req d) as [[r|e] d0].
  - intros H. exists r. destruct r; by injection H as _ _ <-.
  - unfold grpcToHTTPError. by destruct (st_code e).
Qed.

(** The row of a new task: the fields of the body, and one reading of the
    clock in both times. *)
Definition created (u id : uuid) (b : TaskBody) (now : Z) : Task :=
  MkTask id (b_Title b) (b_Description b) (b_Status b) (default 0 (b_DueDate b)) u now now.

Lemma handler_Create_ok userID u b d st rs d' :
  uuid_Parse userID = Some u -> due_range (b_DueDate b) ->
  handler_Create userID (Some b) d = (HttpOk st rs, d') ->
  exists id now, id <> uuid_Nil /\ rows Task d !! id = None /\
    rows Task d' = <[id := created u id b now]> (rows Task d).
Proof.
  intros Hu Hdue H. cbn [handler_Create] in H. apply call_tasks_ok in H as [r H].
  unfold AuthInterceptor in H. rewrite Hu in H. unfold TaskServer, getUserID in H.
  destruct (String.eqb userID ""); [done|]. unfold server_Create in H.
  destruct (service_Create _ d) as [[[]|e] d0] eqn:E; [|done]. injection H as _ <-.
  unfold service_Create in E. cbn [c_UserId c_Title c_Description c_Status c_DueDate] in E.
  match type of E with in_tx _ ?body _ = _ => pose proof (in_tx_commit Task body d tt d0 E) as (s & Hb & Hr) end.
  rewrite (proj2 (parse_id_ok _ _ u) Hu) in Hb. apply internal_if_ok in Hb. unfold repo_Create in Hb.
  rewrite grpc_due_value in Hb by done.
  match type of Hb with gorm_Create _ ?t _ = _ => pose proof (create_rows Task t (Begin Task d) eq_refl) as Hc end.
  rewrite Hb in Hc. destruct Hc as (id & now & Hn & Hf & Hs). rewrite begin_rows in Hf, Hs.
  exists id, now. split; [done|]. split; [done|]. rewrite Hr, Hs. unfold created. cbn.
  unfold nonzero_uuid. by rewrite decide_True.
Qed.

Lemma handler_GetAll_ok userID u d st rs d' :
  uuid_Parse userID = Some u -> handler_GetAll userID d = (HttpOk st rs, d') ->
  forall id t, rows Task d !! id = Some t -> UserId t = u -> In (toTaskResponse (toTaskModel t userID)) rs.
Proof.
  intros Hu H id t Ht Hut. unfold handler_GetAll, call_tasks, forwardContext, AuthInterceptor in H. rewrite Hu in H.
  unfold TaskServer, getUserID in H. destruct (String.eqb userID ""); [done|]. unfold server_GetAll, service_GetAll in H.
  rewrite (proj2 (parse_id_ok _ _ u) Hu) in H. cbn [mbind result_bind] in H. unfold repo_GetAll in H.
  pose proof (find_rows Task (fun t => bool_decide (UserId t = u)) (WithContext Task d)) as Hf.
  destruct (gorm_Find _ _ _) as [l|]; [|done]. cbn [mbind result_bind] in H. injection H as _ <- _.
  apply in_map. apply (in_map (fun task => toTaskModel task userID)).
  apply (Permutation_in _ (Permutation_sym Hf)), filter_In.
  split; [|by apply bool_decide_eq_true_2]. apply in_map_iff. exists (id, t). split; [done|].
  apply list_elem_of_In, elem_of_map_to_list. by rewrite session_rows.
Qed.

(** ** Updating *)

(** What an update leaves in the row: empty texts and a zero due date do not
    replace what is there, the identifier, the owner and the time of creation
    stay, and the time of the update is the clock's. *)
Definition updated (old : Task) (b : TaskBody) (now : Z) : Task :=
  MkTask (Id old) (nonzero_string (b_Title b) (Title old)) (nonzero_string (b_Description b) (Description old))
    (nonzero_string (b_Status b) (task_Status old))
    (nonzero_int (default (DueDate old) (b_DueDate b)) (DueDate old)) (UserId old) (CreatedAt old) now.

Lemma nonzero_uuid_same x : nonzero_uuid x x = x.
Proof. unfold nonzero_uuid. by destruct (decide _). Qed.
Lemma nonzero_int_same x : nonzero_int x x = x.
Proof. unfold nonzero_int. by destruct (x =? 0). Qed.

Lemma handler_Update_ok userID u id i b d st rs d' :
  uuid_Parse userID = Some u -> uuid_Parse id = Some i -> due_range (b_DueDate b) -> keyed Task (rows Task d) ->
  handler_Update userID id (Some b) d = (HttpOk st rs, d') ->
  exists old now, rows Task d !! i = Some old /\ UserId old = u /\ rows Task d' = <[i := updated old b now]> (rows Task d).
Proof.
  intros Hu Hi Hdue Hkey H. cbn [handler_Update] in H. apply call_tasks_ok in H as [r H].
  unfold AuthInterceptor in H. rewrite Hu in H. unfold TaskServer, getUserID in H.
  destruct (String.eqb userID ""); [done|]. unfold server_Update in H.
  destruct (service_Update _ d) as [[[]|e] d0] eqn:E; [|done]. injection H as _ <-.
  unfold service_Update in E. cbn [u_Id u_UserId u_Title u_Description u_Status u_DueDate] in E.
  match type of E with in_tx _ ?body _ = _ => pose proof (in_tx_commit Task body d tt d0 E) as (s & Hb & Hr) end.
  rewrite (proj2 (parse_id_ok _ _ i) Hi), (proj2 (parse_id_ok _ _ u) Hu) in Hb.
  destruct (repo_GetById i u _) as [old|] eqn:Eg; [|done]. apply internal_if_ok in Hb.
  apply repo_GetById_ok in Eg as (k & Hk & Hid & Huo). rewrite begin_rows in Hk.
  destruct (Hkey _ _ Hk) as [Hki _]. cbn in Hki. assert (k = i) as -> by congruence.
  set (new := MkTask _ _ _ _ _ _ _ _) in Hb.
  pose proof (updates_rows Task (owned (Id new) (UserId new)) new (Begin Task d)) as Hup.
  unfold repo_Update in Hb. rewrite Hb in Hup. destruct Hup as (now & Hs). rewrite begin_rows in Hs.
  exists old, now. split; [done|]. split; [done|]. replace (updated old b now) with (on_update old new now).
  - rewrite Hr, Hs. apply map_eq. intros x. rewrite map_lookup_imap.
    destruct (decide (i = x)) as [<-|Hne].
    + rewrite lookup_insert_eq, Hk. cbn [mbind option_bind]. f_equal. rewrite matches_key by done.
      by rewrite bool_decide_eq_true_2.
    + rewrite lookup_insert_ne by done. destruct (rows Task d !! x) as [y|] eqn:Ey; [|done]. cbn [mbind option_bind].
      rewrite matches_key by (cbn; congruence). rewrite bool_decide_eq_false_2; [done|cbn; congruence].
  - unfold updated. cbn. rewrite nonzero_uuid_same, nonzero_int_same. f_equal.
    destruct (b_DueDate b) as [ms|] eqn:Eb; [|done]. cbn. rewrite AsTime_New. f_equal. by apply UnixMilli_time, Hdue.
Qed.

(** ** The call of a service method, and what a refused one leaves *)

Lemma uuid_text_nonempty u : String.eqb (uuid_String u) "" = false.
Proof. apply String.eqb_neq, uuid_String_nonempty. Qed.

Lemma interceptor_server u req d :
  AuthInterceptor (Some [uuid_String u]) req d = TaskServer (Some (uuid_String u)) req d.
Proof. unfold AuthInterceptor. by rewrite uuid_Parse_String. Qed.

Lemma in_tx_error {A} (body : tx Task -> result status A * tx Task) d e s :
  body (Begin Task d) = (Err e, s) -> in_tx Task body d = (Err e, d).
Proof. unfold in_tx. by intros ->. Qed.

(** A user owns no task with this identifier. *)
Definition not_owned (u : uuid) (id : string) m : Prop :=
  forall i k t, uuid_Parse id = Some i -> m !! k = Some t -> Id t = i -> UserId t <> u.

Definition refusal (id : string) : status :=
  match uuid_Parse id with
  | Some _ => Status NotFound "task not found"
  | None => Status InvalidArgument "invalid task id"
  end.

Lemma not_owned_GetById u id i s :
  not_owned u id (tx_rows Task s) -> uuid_Parse id = Some i -> exists e, repo_GetById i u s = Err e.
Proof.
  intros Hn Hi. destruct (repo_GetById i u s) as [t|e] eqn:E; [|by exists e]. exfalso.
  apply repo_GetById_ok in E as (k & Hk & Hid & Hu). by apply (Hn i k t Hi Hk Hid).
Qed.

(** The three methods look the task up the same way. *)
Lemma lookup_refused {A} u id s (k : Task -> result status A * tx Task) :
  not_owned u id (tx_rows Task s) ->
  exists s', match parse_id id "invalid task id" with
  | Err e => (Err e, s)
  | Ok i => match parse_id (uuid_String u) "invalid user id" with
    | Err e => (Err e, s)
    | Ok v => match repo_GetById i v s with
      | Err _ => (Err (Status NotFound "task not found"), s)
      | Ok task => k task end end end = (Err (refusal id), s').
Proof.
  intros Hn. exists s. unfold refusal, parse_id at 1. destruct (uuid_Parse id) as [i|] eqn:Ei; [|done].
  rewrite (proj2 (parse_id_ok _ _ u)) by apply uuid_Parse_String.
  by destruct (not_owned_GetById u id i s Hn Ei) as (e & ->).
Qed.

Lemma begin_not_owned u id d : not_owned u id (rows Task d) -> not_owned u id (tx_rows Task (Begin Task d)).
Proof. by rewrite begin_rows. Qed.

Lemma service_Update_refused r u d :
  u_UserId r = uuid_String u -> not_owned u (u_Id r) (rows Task d) -> service_Update r d = (Err (refusal (u_Id r)), d).
Proof.
  intros Hu Hn. unfold service_Update. rewrite Hu.
  destruct (lookup_refused u (u_Id r) (Begin Task d) (fun task => internal_if "failed to update task" (repo_Update
    (MkTask (Id task) (u_Title r) (u_Description r) (u_Status r)
       (match u_DueDate r with Some d => UnixMilli (AsTime d) | None => DueDate task end)
       (UserId task) (CreatedAt task) (UpdatedAt task)) (Begin Task d))) (begin_not_owned _ _ _ Hn)) as (s & Hs).
  eapply in_tx_error, Hs.
Qed.

Lemma service_Delete_refused id u d :
  not_owned u id (rows Task d) -> service_Delete id (uuid_String u) d = (Err (refusal id), d).
Proof.
  intros Hn. destruct (lookup_refused u id (Begin Task d)
    (fun task => internal_if "failed to delete task" (repo_Delete task (Begin Task d))) (begin_not_owned _ _ _ Hn)) as (s & Hs).
  eapply in_tx_error, Hs.
Qed.

Lemma service_GetById_refused id u d :
  not_owned u id (rows Task d) -> service_GetById id (uuid_String u) d = Err (refusal id).
Proof.
  intros Hn. unfold service_GetById, refusal, parse_id. destruct (uuid_Parse id) as [i|] eqn:Ei; [|reflexivity].
  cbn [mbind result_bind]. rewrite uuid_Parse_String. cbn [mbind result_bind].
  destruct (not_owned_GetById u id i (WithContext Task d)) as (e & ->); [by rewrite session_rows|done|done].
Qed.

Definition refused_http (id : string) : http_response (list TaskResponse) := grpcToHTTPError (refusal id).

Lemma handler_refused u id b req d :
  not_owned u id (rows Task d) -> In req [PutTask id (Some b); DeleteTask id; GetTask id] ->
  task_handler (uuid_String u) req d = (refused_http id, d).
Proof.
  intros Hn Hreq. repeat destruct Hreq as [<-|Hreq]; [..|done];
    cbn [task_handler handler_Update]; unfold handler_Delete, handler_GetById, call_tasks, forwardContext;
    rewrite interceptor_server; unfold TaskServer, getUserID; rewrite uuid_text_nonempty.
  - unfold server_Update. rewrite (service_Update_refused (MkUpdate _ _ _ _ _ _) u) by done. done.
  - unfold server_Delete. rewrite service_Delete_refused by done. done.
  - unfold server_Get. rewrite service_GetById_refused by done. done.
Qed.

Lemma not_owned_unparsed u id m : uuid_Parse id = None -> not_owned u id m.
Proof. intros H i k t Hi. congruence. Qed.

(** ** Deleting *)

Lemma handler_Delete_ok u id i d st rs d' :
  uuid_Parse id = Some i -> keyed Task (rows Task d) ->
  handler_Delete (uuid_String u) id d = (HttpOk st rs, d') ->
  exists old, rows Task d !! i = Some old /\ UserId old = u /\ rows Task d' = delete i (rows Task d).
Proof.
  intros Hi Hkey H. apply call_tasks_ok in H as [r H]. rewrite interceptor_server in H.
  unfold TaskServer, getUserID in H. rewrite uuid_text_nonempty in H. unfold server_Delete in H.
  destruct (service_Delete _ _ d) as [[[]|e] d0] eqn:E; [|done]. injection H as _ <-. unfold service_Delete in E.
  match type of E with in_tx _ ?body _ = _ => pose proof (in_tx_commit Task body d tt d0 E) as (s & Hb & Hr) end.
  rewrite (proj2 (parse_id_ok _ _ i) Hi), (proj2 (parse_id_ok _ _ u)) in Hb by apply uuid_Parse_String.
  destruct (repo_GetById i u _) as [old|] eqn:Eg; [|done]. apply internal_if_ok in Hb.
  apply repo_GetById_ok in Eg as (k & Hk & Hid & Huo). rewrite begin_rows in Hk.
  destruct (Hkey _ _ Hk) as [Hki _]. cbn in Hki. assert (k = i) as -> by congruence.
  pose proof (delete_rows Task (owned (Id old) (UserId old)) old (Begin Task d)) as Hdel.
  unfold repo_Delete in Hb. rewrite Hb, begin_rows in Hdel. exists old. split; [done|]. split; [done|].
  rewrite Hr, Hdel. apply map_eq. intros x. rewrite map_lookup_imap. destruct (decide (i = x)) as [<-|Hne].
  - rewrite lookup_delete_eq, Hk. cbn [mbind option_bind]. rewrite matches_key by done.
    by rewrite bool_decide_eq_true_2.
  - rewrite lookup_delete_ne by done. destruct (rows Task d !! x) as [y|] eqn:Ey; [|done]. cbn [mbind option_bind].
    rewrite matches_key by congruence. rewrite bool_decide_eq_false_2; [done|congruence].
Qed.
End Facts.

Lemma strip_prefix_some p s r : Json.strip_prefix p s = Some r <-> s = (p ++ r)%string.
Proof.
  revert s. induction p as [|c p IH]; intros [|d s]; cbn.
  - split; congruence.
  - split; congruence.
  - by split.
  - destruct (Ascii.eqb_spec c d) as [->|Hne].
    + rewrite IH. split; congruence.
    + split; [done|]. congruence.
Qed.
