(* ===== verification/Users.v ===== *)
(** The auth service: auth-service entity/user.go, repository/user_repository.go,
    service/user_service.go, service/auth_service.go, delivery/grpc/server, and
    gateway handler/auth_handler.go, handler/user_handler.go.

    bcrypt is a parameter.  The measurements that travel with the tokens (the
    timings, the runtime statistics and their trailers) are left out. *)
From Stdlib Require Import ZArith Lia Ascii String.
From stdpp Require Import base numbers list strings option gmap.
From S2P Require Import Prelude Text Claims JwtParser JwtFacts JwtUtil JwtUtilFacts Store Tasks.
Local Open Scope Z_scope.

Class Bcrypt := {
  (** the first argument is the salt drawn *)
  GenerateFromPassword : string -> string -> result error string;
  CompareHashAndPassword : string -> string -> option error
}.
Class BcryptLaws `{Bcrypt} :=
  bcrypt_accepts salt pw h : GenerateFromPassword salt pw = Ok h -> CompareHashAndPassword h pw = None.

(** What a signature draws: the time, a token identifier and a seed. *)
Record sign_env := SignEnv { env_now : time; env_jti : string; env_rng : entropy }.

(** The interface [jwtutils.JwtUtil]. *)
Record JwtUtil `{UUID} := MkJwt {
  jwt_Sign : sign_env -> JWTPayload -> option (result error string);
  jwt_Parse : time -> string -> option (result error JWTClaims);
  jwt_Algorithm : string -> result error string
}.

Section Users.
Context `{HU : UUID} `{HT : Timestamps} `{HB : Bcrypt}.

(** * The entity and its table *)

Record User := MkUser {
  user_Id : uuid;
  Name : string;
  user_Email : string;
  Password : string;
  user_CreatedAt : Z;
  user_UpdatedAt : Z
}.

(** The clock of these columns counts seconds. *)
#[export] Instance user_entity : Entity User := {
  row_id := user_Id;
  on_create x u now := MkUser (nonzero_uuid (user_Id x) u) (Name x) (user_Email x) (Password x)
    (nonzero_int (user_CreatedAt x) now) (nonzero_int (user_UpdatedAt x) now);
  on_update old x now := MkUser (user_Id old) (nonzero_string (Name x) (Name old))
    (nonzero_string (user_Email x) (user_Email old)) (nonzero_string (Password x) (Password old))
    (nonzero_int (user_CreatedAt x) (user_CreatedAt old)) now
}.

Context `{HG : !Gorm User}.

Definition has_id (id : uuid) (x : User) : bool := bool_decide (user_Id x = id).

Definition users_Create (x : User) : tx User -> result error unit * tx User := gorm_Create User x.
Definition users_Update (x : User) : tx User -> result error unit * tx User := gorm_Updates User (has_id (user_Id x)) x.
Definition users_Delete (x : User) : tx User -> result error unit * tx User := gorm_Delete User (has_id (user_Id x)) x.
Definition users_GetById (id : uuid) (s : tx User) : result error User := gorm_First User (has_id id) s.
Definition users_GetByEmail (email : string) (s : tx User) : result error User :=
  gorm_First User (fun x => String.eqb (user_Email x) email) s.
Definition users_GetAll (s : tx User) : result error (list User) := gorm_Find User (fun _ => true) s.

(** * The user service *)

Record CreateUserRequest := MkCreateUser { cu_Name : string; cu_Email : string; cu_Password : string }.
Record UpdateUserRequest := MkUpdateUser { uu_Id : string; uu_Name : string; uu_Email : string; uu_Password : string }.

Definition user_internal {A} (msg : string) (r : result error A * tx User) : result status A * tx User :=
  match r with (Ok a, t) => (Ok a, t) | (Err _, t) => (Err (Status Internal msg), t) end.

Definition users_service_Create (salt : string) (request : CreateUserRequest) : db User -> result status unit * db User :=
  in_tx User (fun t =>
    match GenerateFromPassword salt (cu_Password request) with
    | Err _ => (Err (Status Internal "internal server error"), t)
    | Ok hashedPassword =>
        let user := MkUser uuid_Nil (cu_Name request) (cu_Email request) hashedPassword 0 0 in
        user_internal "failed to create user" (users_Create user t)
    end).

Definition users_service_Update (salt : string) (request : UpdateUserRequest) : db User -> result status unit * db User :=
  in_tx User (fun t =>
    match parse_id (uu_Id request) "invalid user id" with
    | Err e => (Err e, t)
    | Ok parsedId =>
    match users_GetById parsedId t with
    | Err _ => (Err (Status NotFound "user not found"), t)
    | Ok user =>
        match (if String.eqb (uu_Password request) "" then Ok (Password user)
               else GenerateFromPassword salt (uu_Password request)) with
        | Err _ => (Err (Status Internal "internal server error"), t)
        | Ok password =>
            let user := MkUser (user_Id user) (uu_Name request) (uu_Email request) password
              (user_CreatedAt user) (user_UpdatedAt user) in
            user_internal "failed to update user" (users_Update user t)
        end
    end end).

Definition users_service_Delete (id : string) : db User -> result status unit * db User :=
  in_tx User (fun t =>
    match parse_id id "invalid user id" with
    | Err e => (Err e, t)
    | Ok parsedId =>
    match users_GetById parsedId t with
    | Err _ => (Err (Status NotFound "user not found"), t)
    | Ok user => user_internal "failed to delete user" (users_Delete user t)
    end end).

Definition users_service_Get (id : string) (d : db User) : result status User :=
  parsedId ← parse_id id "invalid user id";
  match users_GetById parsedId (WithContext User d) with
  | Err _ => Err (Status NotFound "user not found")
  | Ok user => Ok user
  end.

Definition users_service_GetAll (d : db User) : result status (list User) :=
  match users_GetAll (WithContext User d) with
  | Err _ => Err (Status Internal "internal server error")
  | Ok users => Ok users
  end.

(** ** The user server *)

Record UserModel := MkUserModel {
  um_Id : string; um_Name : string; um_Email : string; um_CreatedAt : timestamp; um_UpdatedAt : timestamp
}.

Definition toUserModel (x : User) : UserModel :=
  MkUserModel (uuid_String (user_Id x)) (Name x) (user_Email x)
    (timestamppb_New (time_UnixMilli (user_CreatedAt x))) (timestamppb_New (time_UnixMilli (user_UpdatedAt x))).

Definition UserServer_Create (salt : string) (request : CreateUserRequest) : db User -> result status unit * db User :=
  users_service_Create salt request.
Definition UserServer_Update (salt : string) (request : UpdateUserRequest) : db User -> result status unit * db User :=
  users_service_Update salt request.
Definition UserServer_Delete (id : string) : db User -> result status unit * db User := users_service_Delete id.
Definition UserServer_Get (id : string) (d : db User) : result status UserModel :=
  user ← users_service_Get id d; Ok (toUserModel user).
Definition UserServer_GetAll (d : db User) : result status (list UserModel) :=
  users ← users_service_GetAll d; Ok (map toUserModel users).

(** * The auth service *)

Section Auth.
Variable jwt : JwtUtil.

Definition payload_for (user : User) (algorithm use : string) : JWTPayload :=
  MkJWTPayload (user_Id user) (user_Email user) algorithm use.

(** The access token, then the refresh token. *)
Definition signTokenPair (e1 e2 : sign_env) (user : User) (algorithm : string) : option (result error (string * string)) :=
  r ← jwt_Sign jwt e1 (payload_for user algorithm TokenUseAccess);
  match r with
  | Err err => Some (Err (Wrapped "sign access token" [err]))
  | Ok accessToken =>
      r ← jwt_Sign jwt e2 (payload_for user algorithm TokenUseRefresh);
      match r with
      | Err err => Some (Err (Wrapped "sign refresh token" [err]))
      | Ok refreshToken => Some (Ok (accessToken, refreshToken))
      end
  end.

Definition SignIn (e1 e2 : sign_env) (email password algorithm : string) (d : db User)
    : option (result status (string * string)) :=
  match users_GetByEmail email (WithContext User d) with
  | Err _ => Some (Err (Status Unauthenticated "invalid email or password"))
  | Ok user =>
      match CompareHashAndPassword (Password user) password with
      | Some _ => Some (Err (Status Unauthenticated "invalid email or password"))
      | None =>
          r ← signTokenPair e1 e2 user algorithm;
          Some match r with
          | Err _ => Err (Status Internal "failed to generate token")
          | Ok tokens => Ok tokens
          end
      end
  end.

Definition RefreshToken (clock : time) (e1 e2 : sign_env) (userID refreshToken : string) (d : db User)
    : option (result status (string * string)) :=
  if String.eqb refreshToken "" then Some (Err (Status InvalidArgument "refresh token required"))
  else
    r ← jwt_Parse jwt clock refreshToken;
    match r with
    | Err _ => Some (Err (Status Unauthenticated "invalid refresh token"))
    | Ok claims =>
        if negb (String.eqb (TokenUse claims) TokenUseRefresh)
        then Some (Err (Status Unauthenticated "invalid refresh token"))
        else
        match (if negb (String.eqb userID "") then
                 parsedID ← parse_id userID "invalid user id";
                 if decide (parsedID = UserID claims) then Ok tt
                 else Err (Status Unauthenticated "refresh token user mismatch")
               else Ok tt) with
        | Err e => Some (Err e)
        | Ok _ =>
            match users_GetById (UserID claims) (WithContext User d) with
            | Err _ => Some (Err (Status Unauthenticated "invalid refresh token"))
            | Ok user =>
                match jwt_Algorithm jwt refreshToken with
                | Err _ => Some (Err (Status Unauthenticated "invalid refresh token"))
                | Ok algorithm =>
                    r ← signTokenPair e1 e2 user algorithm;
                    Some match r with
                    | Err _ => Err (Status Internal "failed to generate token")
                    | Ok tokens => Ok tokens
                    end
                end
            end
        end
    end.

Definition auth_Verify (clock : time) (token : string) : option (result status unit) :=
  r ← jwt_Parse jwt clock token;
  Some match r with
  | Err _ => Err (Status Unauthenticated "invalid token")
  | Ok _ => Ok tt
  end.

(** ** The servers and the gateway's handlers *)

Record Auth := MkAuth { TokenType : string; AccessToken : string; au_RefreshToken : string }.

Definition AuthServer_answer (r : result status (string * string)) : result status Auth :=
  '(accessToken, refreshToken) ← r; Ok (MkAuth "Bearer" accessToken refreshToken).

Definition AuthServer_SignIn (e1 e2 : sign_env) (email password algorithm : string) (d : db User) : option (result status Auth) :=
  r ← SignIn e1 e2 email password algorithm d; Some (AuthServer_answer r).
Definition AuthServer_RefreshToken (clock : time) (e1 e2 : sign_env) (userID refreshToken : string) (d : db User)
    : option (result status Auth) :=
  r ← RefreshToken clock e1 e2 userID refreshToken d; Some (AuthServer_answer r).

Definition AuthServer_Verify (clock : time) (token : string) : option (result status unit) := auth_Verify clock token.

Definition httpStatusFromGRPCCode (c : code) : Z :=
  match c with InvalidArgument => 400 | Unauthenticated => 401 | NotFound => 404 | Internal => 500 end.

Definition auth_answer (r : result status Auth) : http_response Auth :=
  match r with
  | Err e => HttpError (MkHttpError (httpStatusFromGRPCCode (st_code e)) (st_message e))
  | Ok a => HttpOk 200 a
  end.

(** [body] is [None] when it cannot be read. *)
Definition AuthHandler_SignIn (e1 e2 : sign_env) (body : option (string * string * string)) (d : db User)
    : option (http_response Auth) :=
  match body with
  | None => Some (HttpError (MkHttpError 400 "invalid request body"))
  | Some (email, password, algorithm) =>
      r ← AuthServer_SignIn e1 e2 email password algorithm d; Some (auth_answer r)
  end.

Definition AuthHandler_RefreshToken (clock : time) (e1 e2 : sign_env) (body : option (string * string)) (d : db User)
    : option (http_response Auth) :=
  match body with
  | None => Some (HttpError (MkHttpError 400 "invalid request body"))
  | Some (userID, refreshToken) =>
      r ← AuthServer_RefreshToken clock e1 e2 userID refreshToken d; Some (auth_answer r)
  end.

Definition UserHandler_Register (salt : string) (body : option CreateUserRequest) (d : db User)
    : http_response unit * db User :=
  match body with
  | None => (HttpError (MkHttpError 400 "invalid request body"), d)
  | Some b =>
      match UserServer_Create salt b d with
      | (Err e, d') => (HttpError (MkHttpError 400 (st_message e)), d')
      | (Ok _, d') => (HttpOk 201 tt, d')
      end
  end.

Definition UserHandler_GetProfile (userID : string) (d : db User) : http_response (string * string * string) :=
  match UserServer_Get userID d with
  | Err e => HttpError (MkHttpError 404 (st_message e))
  | Ok u => HttpOk 200 (um_Id u, um_Name u, um_Email u)
  end.
End Auth.
End Users.
