(* ===== verification/Demo.v ===== *)
(** A small world to evaluate the services in: identifiers that are numbers,
    a keyed checksum for HMAC, tables in memory, and a configuration with two
    algorithms. *)
From Stdlib Require Import ZArith Lia Ascii String.
From stdpp Require Import base numbers list strings option gmap.
From S2P Require Import Prelude Text Json JsonFacts Claims JwtParser JwtFacts JwtUtil JwtUtilFacts Store Tasks Users.
Local Open Scope Z_scope.

(** * Identifiers *)

Fixpoint marks (n : nat) : string := match n with O => "u" | S n' => String "x" (marks n') end.
Fixpoint count_marks (s : string) : option nat :=
  match s with
  | String "u" EmptyString => Some 0%nat
  | String "x" s' => S <$> count_marks s'
  | _ => None
  end.

Lemma count_marks_marks n : count_marks (marks n) = Some n.
Proof. induction n as [|n IH]; [done|]. cbn. by rewrite IH. Qed.

#[export] Instance demo_uuid : UUID := {|
  uuid := nat; uuid_Nil := 0%nat; uuid_String := marks; uuid_Parse := count_marks; uuid_UnmarshalText := count_marks
|}.

#[export] Instance demo_uuid_laws : UUIDLaws.
Proof.
  split; cbn.
  - intros n. unfold valid_utf8. induction n as [|n IH]; [reflexivity|]. exact IH.
  - by intros [].
  - exact count_marks_marks.
  - exact count_marks_marks.
Qed.

#[export] Instance demo_timestamps : Timestamps := {| timestamp := time; timestamppb_New t := t; AsTime t := t |}.
#[export] Instance demo_timestamps_laws : TimestampsLaws.
Proof. by intros t. Qed.

#[export] Instance demo_floats : FloatConv := fun _ => - 2 ^ 63.

(** * Tables *)

Section Tables.
Context (row : Type) `{!Entity row}.

Definition next_id (m : gmap uuid row) : uuid := S (foldr Nat.max 0%nat (fst <$> map_to_list m)).

Lemma next_id_fresh m : m !! next_id m = None.
Proof.
  destruct (m !! next_id m) as [r|] eqn:E; [|done]. exfalso.
  apply elem_of_map_to_list in E. apply (list_elem_of_fmap_2 fst) in E. cbn in E.
  enough (forall l, next_id m ∈ l -> (next_id m <= foldr Nat.max 0%nat l)%nat) as H
    by (apply H in E; exact (Nat.nle_succ_diag_l _ E)).
  clear. intros l. induction l as [|x l IH]; intros Hin; [by apply not_elem_of_nil in Hin|].
  cbn. apply elem_of_cons in Hin as [->|Hin]; [lia|]. specialize (IH Hin). lia.
Qed.

#[export] Instance demo_gorm : Gorm row := Memory row next_id.

#[export] Instance demo_gorm_laws : GormLaws row.
Proof.
  refine {| rows := fun d : db row => (d : gmap uuid row); tx_rows := fun t : tx row => (t : gmap uuid row);
            broken := fun _ => False |}; cbn; try done.
  - intros r t _. exists (next_id t), 1. split; [done|]. split; [apply next_id_fresh|done].
  - intros cond t. destruct (List.filter cond (snd <$> map_to_list t)) as [|r l] eqn:E.
    + right. intros id r Hr. destruct (cond r) eqn:Ec; [|done]. exfalso.
      assert (In r []) as []. rewrite <- E. apply filter_In. split; [|done].
      apply in_map_iff. exists (id, r). split; [done|]. apply list_elem_of_In. by apply elem_of_map_to_list.
    + assert (In r (List.filter cond (snd <$> map_to_list t))) as Hr by (rewrite E; by left).
      apply filter_In in Hr as [Hr Hc]. apply in_map_iff in Hr as ([id r'] & <- & Hin).
      apply list_elem_of_In, elem_of_map_to_list in Hin. by exists id.
  - intros cond r t. by exists 1.
Defined.
End Tables.

(** * Passwords *)

#[export] Instance demo_bcrypt : Bcrypt := {|
  GenerateFromPassword salt pw := Ok pw;
  CompareHashAndPassword h pw := if String.eqb h pw then None else Some Library
|}.
#[export] Instance demo_bcrypt_laws : BcryptLaws.
Proof. intros salt pw h [= <-]. cbn. by rewrite String.eqb_refl. Qed.

(** * Signatures

    The signature of a text under a key is both their lengths and the key. *)

Inductive demo_key := NoKey | Secret (k : string).

Definition checksum (k text : string) : string := of_bytes [Z.of_nat (String.length text) mod 251; 7] ++ k.

Definition demo_method (name : string) : SigningMethod demo_key := Method name
  (fun text sig k => Some match k with
     | Secret k => if String.eqb sig (checksum k text) then None else Some (Sentinel ErrSignatureInvalid)
     | NoKey => Some (Sentinel ErrInvalidKeyType) end)
  (fun _ text k => Some match k with
     | Secret k => Ok (checksum k text)
     | NoKey => Ok (checksum "k1" text) end) false.

Definition demo_methods : registry demo_key :=
  <["A1"%string := demo_method "A1"]> (<["A2"%string := demo_method "A2"]> ∅).

Definition no_float (f : float) : option string := None.

Definition demo_now : time := Time (unix_to_internal + 1735689600) 5.
Definition demo_clock : time := Time (unix_to_internal + 1735689660) 0.
Definition demo_rng : entropy := Ok [].
Definition demo_payload (use : string) : JWTPayload := MkJWTPayload (3%nat : uuid) "a@b" "" use.

Definition demo_util : jwtUtil (K := demo_key) :=
  NewJwtUtilWithSigner ["A1"; "A2"; "A1"]%string "tasktify" "api" 15 (demo_method "A1") "k1".

Definition demo_token (use : string) : string :=
  match jwtUtil_Sign NoKey no_float demo_util demo_now "jti" demo_rng (demo_payload use) with
  | Some (Ok s) => s
  | _ => ""
  end.

Definition demo_parse (clock : time) (token : string) : option (result error JWTClaims) :=
  jwtUtil_Parse Secret demo_methods demo_util clock token.

Example demo_access :
  match demo_parse demo_clock (demo_token "") with
  | Some (Ok c) => UserID c = (3%nat : uuid) /\ TokenUse c = TokenUseAccess
  | _ => False end.
Proof. vm_compute. done. Qed.
