(* ===== verification/JwtProps.v ===== *)
(** Properties of the token library and of the services' tokens. *)
From Stdlib Require Import ZArith Lia Ascii String.
From stdpp Require Import base numbers list strings option gmap.
From S2P Require Import Prelude Text Json JsonFacts Claims JwtParser JwtFacts JwtUtil JwtUtilFacts Store Tasks Users Demo.
Local Open Scope Z_scope.

(** The parser returns a token, for any key function, exactly when the
    token has three base64url segments, its header and claims are JSON objects
    without duplicate members, the header names a registered method that is
    allowed, the key function finds keys of which one verifies the first two
    segments, and the claims are acceptable; the token returned is the decoded
    one, marked valid. *)
Theorem parser_accepts_iff {K C} `{Claims C} `{ClaimsCodec C} (methods : registry K) p clock token (claims : C) keyFunc t :
  ParseWithClaims methods p clock token claims (Some keyFunc) = Some (Ok t) <->
  accepts methods p clock token claims keyFunc t.
Proof. apply ParseWithClaims_ok. Qed.

(** (C24) The validator accepts exactly the claims it is configured for: expiry,
    not-before and issued-at dates on the right side of the clock, the audience,
    issuer and subject it expects, and the custom check of the claims. *)
Theorem validator_accepts_iff `{Claims C} v clock (claims : C) :
  Validate v clock claims = None <-> claims_acceptable v (default clock (timeFunc v)) claims.
Proof. apply Validate_none. Qed.

(** A segment decodes to what was encoded, with any parser options, and
    contains no delimiter: three encoded segments split as they were joined. *)
Theorem segments_roundtrip p h c s :
  splitToken (join3_segments (EncodeSegment h) (EncodeSegment c) (EncodeSegment s)) =
    Some (EncodeSegment h, EncodeSegment c, EncodeSegment s) /\
  DecodeSegment p (EncodeSegment h) = Some h /\ DecodeSegment p (EncodeSegment c) = Some c /\
  DecodeSegment p (EncodeSegment s) = Some s.
Proof.
  split; [|repeat split; apply decode_segment_encode]. apply split_token_spec.
  split; [done|]. split; [apply encoded_free|split; apply encoded_free].
Qed.

(** The check for duplicate members passes a document exactly when it is
    not an object or its member names are distinct. *)
Theorem duplicates_rejected_iff data v a :
  unmarshal data = Some v -> any_of_json false v = Some a ->
  rejectDuplicateTopLevelJSONKeys data = None <-> (forall ms, v = JObj ms -> NoDup (fst <$> ms)).
Proof.
  intros Hu Ha. destruct v as [|b|l|s|vs|ms].
  6:{ rewrite (reject_duplicates_object data ms Hu). split; [by intros Hn ? [= <-]|intros Hn; by apply Hn]. }
  all: split; [done|intros _; by eapply reject_duplicates_other].
Qed.

Lemma duplicates_rejected_iff_witness :
  rejectDuplicateTopLevelJSONKeys (marshal (JObj [("a", JNull); ("b", JBool true)])) = None.
Proof.
  refine (proj2 (duplicates_rejected_iff _ (JObj [("a", JNull); ("b", JBool true)]%string)
    (AObject [("a", ANil); ("b", ABool true)]%string) _ _) _); [vm_compute; reflexivity..|].
  intros ms [= <-]. repeat (apply NoDup_cons; split; [rewrite list_elem_of_In; vm_compute; intuition discriminate|]).
  apply NoDup_nil_2.
Defined.

(** The loop of the duplicate check ends on every input: one turn per byte
    is enough, and more change nothing. *)
Theorem duplicate_check_terminates fuel first seen s :
  (String.length s < fuel)%nat ->
  reject_members fuel first seen s = reject_members (S (String.length s)) first seen s.
Proof.
  assert (forall m f g first seen s, (String.length s < m)%nat -> (String.length s < f)%nat -> (String.length s < g)%nat ->
    reject_members f first seen s = reject_members g first seen s) as H; [|intros Hf; apply (H (S (String.length s))); lia].
  clear. intros m. induction m as [|m IH]; intros [|f] [|g] first seen s Hm Hf Hg; try lia.
  cbn [reject_members]. pose proof (skip_ws_len s) as L1. destruct (skip_ws s) as [|c s1] eqn:E; [done|].
  cbn [String.length] in L1. destruct (is_char 125 c); [done|]. destruct (is_char 93 c); [done|].
  assert (forall k, (if first then Some (String c s1) else if is_char 44 c then Some (skip_ws s1) else None) = Some k ->
    (String.length k <= S (String.length s1))%nat) as Hk.
  { intros k. destruct first; [intros [= <-]; cbn; lia|]. destruct (is_char 44 c); [|done].
    intros [= <-]. pose proof (skip_ws_len s1). lia. }
  destruct (if first then _ else _) as [[|q s2]|]; [done| |done]. specialize (Hk _ eq_refl). cbn [String.length] in Hk.
  destruct (negb (is_char 34 q)); [done|]. destruct (scan_string 0 s2) as [[key r]|] eqn:E2; [|done].
  apply scan_string_len in E2. destruct (contains seen key); [done|].
  pose proof (skip_ws_len r) as L3. destruct (skip_ws r) as [|col r1]; [done|]. cbn [String.length] in L3.
  destruct (negb (is_char 58 col)); [done|]. destruct (decode_first r1) as [[v r2]|] eqn:E3; [|done].
  apply (proj1 (value_len _)) in E3. apply IH; lia.
Qed.

Lemma duplicate_check_terminates_witness :
  reject_members 20 true [] "}" = reject_members 2 true [] "}".
Proof. apply (duplicate_check_terminates 20 true [] "}"). cbn. lia. Defined.

(** A date claim in the range of float64's exact seconds is read back as
    the date that was written, to the second. *)
Theorem numeric_date_roundtrip `{FloatConv} t :
  date_range t -> NumericDate_UnmarshalJSON (NumericDate_MarshalJSON t) = Some (NewNumericDate t).
Proof. apply NumericDate_roundtrip_whole. Qed.

Lemma numeric_date_roundtrip_witness :
  NumericDate_UnmarshalJSON (NumericDate_MarshalJSON demo_now) = Some (Time (unix_to_internal + 1735689600) 0).
Proof.
  etransitivity; [apply (numeric_date_roundtrip demo_now)|reflexivity].
  split; cbn; unfold second, unix_to_internal; lia.
Defined.

Section Tokens.
Context `{HU : UUID} `{HUL : !UUIDLaws} `{HFc : FloatConv} {K : Type}.
Context (nil_key : K) (bytes_key : string -> K) (methods : registry K) (ff : float -> option string).

(** (C17) A token the issuer signs is accepted by its parser while it is live,
    whatever the clock, and yields the claims of the payload: the user, the
    email, the use, and the subject, dates, issuer, audience and identifier the
    issuer adds. *)
Theorem issued_token_accepted (j : jwtUtil) signer verifier now jti rng p s clock
    `{!SignVerify signer verifier nil_key (bytes_key (verifyKey j))} :
  method j = Some signer -> GetSigningMethod methods (Alg signer) = Some verifier ->
  In (Alg verifier) (allowedAlgs j) -> valid_utf8 (Alg signer) = true ->
  issuable (issuer j) (audience j) (duration j) now jti p -> live (duration j) now clock ->
  jwtUtil_Sign nil_key ff j now jti rng p = Some (Ok s) -> (String.length s <= maxJWTCompactBytes)%nat ->
  jwtUtil_Parse bytes_key methods j clock s =
    Some (Ok (issued_claims (issuer j) (audience j) (duration j) now jti p)).
Proof.
  intros Hm Hg Hin Hu Hi Hl Hs Hlen. unfold jwtUtil_Sign in Hs. rewrite Hm in Hs. unfold jwtUtil_Parse.
  by apply (sign_parses methods ff signer verifier nil_key (bytes_key (verifyKey j)) _ _ _ now jti p _ clock rng).
Qed.

(** (C14) The tokens the parser of the services accepts are exactly those of at
    most 64 KiB that an allowed method verifies with the configured key over
    their own first two segments, whose header carries the type of their use and
    none of the refused members, and whose claims name a user, an email, a use
    and the matching subject, within their dates, issuer and audience. *)
Theorem util_accepts_iff (j : jwtUtil) clock token claims :
  jwtUtil_Parse bytes_key methods j clock token = Some (Ok claims) <->
  accepted methods (issuer j) (audience j) (allowedAlgs j) clock token
    (fun _ => Ok (SingleKey (bytes_key (verifyKey j)))) claims.
Proof. apply parse_token_ok. Qed.

Lemma contains_iff l l' : (forall a : string, In a l <-> In a l') -> forall a, contains l a = contains l' a.
Proof. intros H a. apply eq_true_iff_eq. by rewrite !contains_spec. Qed.

(** Only the set of allowed algorithms and the keys found matter. *)
Lemma parse_token_ext iss aud algs algs' clock token keyFunc keyFunc' :
  (forall a, contains algs a = contains algs' a) -> (forall t, keyFunc t = keyFunc' t) ->
  parse_token methods iss aud algs clock token keyFunc = parse_token methods iss aud algs' clock token keyFunc'.
Proof.
  clear nil_key bytes_key ff. intros Ha Hk. unfold parse_token. destruct (_ <? _)%nat; [done|]. cbv zeta. rewrite !util_parser.
  assert (ParseWithClaims methods
      (MkParser (Some algs) false false (Some (util_validator iss aud)) false false) clock token zero_claims (Some keyFunc) =
    ParseWithClaims methods
      (MkParser (Some algs') false false (Some (util_validator iss aud)) false false) clock token zero_claims (Some keyFunc')) as ->;
    [|done].
  unfold ParseWithClaims. cbn [validMethods skipClaimsValidation validator].
  assert (ParseUnverified methods (MkParser (Some algs) false false (Some (util_validator iss aud)) false false) token zero_claims =
    ParseUnverified methods (MkParser (Some algs') false false (Some (util_validator iss aud)) false false) token zero_claims) as ->
    by reflexivity.
  destruct (ParseUnverified _ _ _ _) as [[t [[h c] s]]|e]; [|done]. cbv zeta. by rewrite Ha, Hk.
Qed.

Lemma header_algs_spec seen (order : list (string * AlgConfig (K := K))) a :
  In a (header_algs seen order) <-> ~ In a seen /\ exists e, In e order /\ Alg (cfg_Method (snd e)) = a.
Proof.
  clear nil_key bytes_key methods ff. revert seen. induction order as [|[k cfg] order IH]; intros seen; cbn [header_algs].
  { cbn. split; [done|]. by intros (_ & e & [] & _). }
  destruct (contains seen (Alg (cfg_Method cfg))) eqn:E.
  - apply contains_spec in E. rewrite IH. split; intros [Hs (e & He & Ha)]; (split; [done|]).
    + exists e. by split; [right|].
    + destruct He as [<-|He]; [cbn in Ha; congruence|by exists e].
  - assert (~ In (Alg (cfg_Method cfg)) seen) as Hn by (intros Hx%contains_spec; congruence).
    cbn [In]. rewrite IH. cbn [In]. split.
    + intros [<-|[Hs (e & He & Ha)]].
      * split; [done|]. exists (k, cfg). by split; [left|].
      * split; [tauto|]. exists e. by split; [right|].
    + intros [Hs (e & [<-|He] & Ha)]; [by left|]. destruct (decide (Alg (cfg_Method cfg) = a)); [by left|].
      right. split; [tauto|]. by exists e.
Qed.

(** Configurations of one algorithm share their verification key. *)
Definition one_key_per_alg (m : multiAlgJwtUtil (K := K)) : Prop := forall n n' c c',
  configs m !! n = Some c -> configs m !! n' = Some c' -> Alg (cfg_Method c) = Alg (cfg_Method c') ->
  VerifyKey c = VerifyKey c'.

Lemma configForHeaderAlg_some (m : multiAlgJwtUtil (K := K)) o a c :
  o ≡ₚ map_to_list (configs m) -> configForHeaderAlg o a = Some c ->
  exists n, configs m !! n = Some c /\ Alg (cfg_Method c) = a.
Proof.
  clear nil_key bytes_key methods ff. intros Ho. unfold configForHeaderAlg. destruct (find _ o) as [[n c']|] eqn:E; [|done]. intros [= ->].
  apply find_some in E as [Hin Ha%String.eqb_eq]. exists n. split; [|done].
  apply elem_of_map_to_list. rewrite <- Ho. by apply list_elem_of_In.
Qed.

(** With one verification key per algorithm, the order in which Go visits
    the configurations plays no part: every order gives the same answer, errors
    included. *)
Theorem multi_order_irrelevant (m : multiAlgJwtUtil (K := K)) o1 o1' o2 o2' clock token :
  one_key_per_alg m ->
  Forall (fun o => o ≡ₚ map_to_list (configs m)) [o1; o1'; o2; o2'] ->
  multi_Parse methods m o1 o1' clock token = multi_Parse methods m o2 o2' clock token.
Proof.
  clear nil_key bytes_key ff. intros Hone Ho. repeat (apply Forall_cons_1 in Ho as [? Ho]). unfold multi_Parse. apply parse_token_ext.
  - apply contains_iff. intros a. unfold allowedHeaderAlgs. rewrite !header_algs_spec.
    assert (forall e, In e o1 <-> In e o2) as He by (intros e; rewrite <- !list_elem_of_In; by rewrite H, H1).
    by setoid_rewrite He.
  - intros t. set (a := Alg (token_Method t)).
    assert (forall o o' c, o ≡ₚ map_to_list (configs m) -> o' ≡ₚ map_to_list (configs m) ->
      configForHeaderAlg o a = Some c -> exists c', configForHeaderAlg o' a = Some c' /\ VerifyKey c' = VerifyKey c) as Hf.
    { intros o o' c Hp Hp' Hc. pose proof (configForHeaderAlg_some m o a c Hp Hc) as (n & Hn & Ha).
      destruct (configForHeaderAlg o' a) as [c'|] eqn:E.
      - exists c'. split; [done|]. destruct (configForHeaderAlg_some m o' a c' Hp' E) as (n' & Hn' & Ha').
        eapply Hone; [exact Hn'|exact Hn|congruence].
      - exfalso. unfold configForHeaderAlg in E. destruct (find _ o') as [|] eqn:Ef; [done|].
        apply elem_of_map_to_list in Hn. rewrite <- Hp' in Hn. apply list_elem_of_In in Hn.
        apply (find_none _ _ Ef) in Hn. cbn in Hn. rewrite Ha in Hn. by rewrite String.eqb_refl in Hn. }
    destruct (configForHeaderAlg o1' a) as [c|] eqn:E1.
    + destruct (Hf o1' o2' c) as (c' & -> & ->); [done..|]. done.
    + destruct (configForHeaderAlg o2' a) as [c|] eqn:E2; [|done].
      destruct (Hf o2' o1' c) as (c' & Hc' & _); [done..|]. congruence.
Qed.
End Tokens.

(** * Witnesses *)

Lemma demo_sign_verify (m : SigningMethod demo_key) :
  m = demo_method "A1" -> SignVerify m m NoKey (Secret "k1").
Proof.
  intros -> rng text sig H. assert (sig = checksum "k1" text) as -> by (by injection H).
  cbn [demo_method method_Verify]. by rewrite String.eqb_refl.
Qed.

(** The duplicate check compares names as they are written, and the decoder
    ignores their case: a document with both [sub] and [SUB] passes the check,
    and the second one is the subject. *)
Theorem folded_duplicates_pass :
  let doc := marshal (JObj [("sub", JStr "a"); ("SUB", JStr "b")]) in
  rejectDuplicateTopLevelJSONKeys doc = None /\
  (v ← unmarshal doc; c ← decode_claims false v zero_claims; Some (Subject (registered c))) = Some "b"%string.
Proof. split; vm_compute; reflexivity. Qed.

Lemma demo_issuable use :
  In use [""%string; TokenUseAccess; TokenUseRefresh] -> issuable "tasktify" "api" 15 demo_now "jti" (demo_payload use).
Proof. intros Hu. constructor; cbn; try done; unfold second, unix_to_internal; (split; cbn; lia). Qed.

Lemma issued_token_accepted_witness :
  demo_parse demo_clock (demo_token TokenUseRefresh) =
  Some (Ok (issued_claims "tasktify" "api" 15 demo_now "jti" (demo_payload TokenUseRefresh))).
Proof.
  refine (@issued_token_accepted _ _ _ _ NoKey Secret demo_methods no_float demo_util (demo_method "A1") (demo_method "A1")
    demo_now "jti" demo_rng (demo_payload TokenUseRefresh) (demo_token TokenUseRefresh) demo_clock
    (demo_sign_verify _ eq_refl) eq_refl eq_refl _ eq_refl (demo_issuable _ _) _ _ _).
  - vm_compute. by left.
  - right. right. by left.
  - split; vm_compute; reflexivity.
  - vm_compute. reflexivity.
  - apply Nat.leb_le. vm_compute. reflexivity.
Defined.

Definition demo_multi : multiAlgJwtUtil (K := demo_key) := MkMulti "tasktify" "api" 15 "A1"
  (<["A1"%string := MkAlgConfig (demo_method "A1") (Secret "k1") (Secret "k1")]>
   (<["A2"%string := MkAlgConfig (demo_method "A2") (Secret "k2") (Secret "k2")]> ∅)).

Lemma demo_one_key : one_key_per_alg demo_multi.
Proof.
  intros n n' c c' Hn Hn' Ha. unfold demo_multi in Hn, Hn'. cbn [configs] in Hn, Hn'.
  rewrite lookup_insert_Some in Hn, Hn'. rewrite lookup_insert_Some, lookup_empty in Hn, Hn'.
  destruct Hn as [[_ <-]|[_ [[_ <-]|[_ [=]]]]], Hn' as [[_ <-]|[_ [[_ <-]|[_ [=]]]]]; first [reflexivity|discriminate Ha].
Qed.

Lemma multi_order_irrelevant_witness :
  let o := map_to_list (configs demo_multi) in
  multi_Parse demo_methods demo_multi o o demo_clock (demo_token "") =
  multi_Parse demo_methods demo_multi (reverse o) o demo_clock (demo_token "").
Proof.
  cbv zeta. apply (multi_order_irrelevant demo_methods demo_multi).
  - apply demo_one_key.
  - do 4 (apply Forall_cons; split; [first [reflexivity|apply reverse_Permutation]|]). apply Forall_nil_2.
Defined.
