(* ===== verification/CryptoMethods.v ===== *)
(** The signing methods over cryptographic libraries: pkg/jwt/{ecdsa,ed25519,
    rsa,rsa_pss,mldsa,slhdsa}.go, and the registry of all methods.

    The keys and the primitives of crypto/* and of circl are parameters
    ([KeyTypes], [Crypto]); [CryptoLaws] is what their documentation promises: a
    signature verifies under the public key of its private key.  [anykey] is the
    Go [any] a method receives, with the key types of these libraries besides
    those of [JwtMethods.key]. *)
From Stdlib Require Import ZArith Lia Ascii String.
From stdpp Require Import base numbers list strings option gmap.
From S2P Require Import Prelude Bits Codec Util Verify Flr Sign Precomputed Text Json JsonFacts Claims JwtParser JwtFacts JwtMethods JwtUtil JwtUtilFacts.
Local Open Scope Z_scope.

(** * Big-endian numbers of math/big *)

(** [FillBytes] panics, here [None], when the number needs more bytes. *)
Fixpoint be_bytes (k : nat) (n : Z) : list Z :=
  match k with O => [] | S k' => be_bytes k' (n / 256) ++ [n mod 256] end.
Definition FillBytes (n : Z) (k : nat) : option (list Z) :=
  if Z.abs n <? 256 ^ Z.of_nat k then Some (be_bytes k (Z.abs n)) else None.
Definition SetBytes (l : list Z) : Z := fold_left (fun acc b => acc * 256 + b) l 0.

Lemma length_be_bytes k n : length (be_bytes k n) = k.
Proof. revert n. induction k as [|k IH]; intros n; [done|]. cbn. rewrite length_app, IH. cbn. lia. Qed.

Lemma be_bytes_range k n : Forall (fun b => 0 <= b < 256) (be_bytes k n).
Proof.
  revert n. induction k as [|k IH]; intros n; [constructor|]. cbn. apply Forall_app. split; [apply IH|].
  constructor; [|constructor]. by apply Z.mod_pos_bound.
Qed.

Lemma SetBytes_be_bytes k n : 0 <= n < 256 ^ Z.of_nat k -> SetBytes (be_bytes k n) = n.
Proof.
  revert n. induction k as [|k IH]; intros n Hn; [cbn in *; lia|]. cbn [be_bytes]. unfold SetBytes. rewrite fold_left_app.
  change (fold_left _ (be_bytes k (n / 256)) 0) with (SetBytes (be_bytes k (n / 256))).
  rewrite IH; [cbn; pose proof (Z.div_mod n 256); lia|].
  rewrite Nat2Z.inj_succ, Z.pow_succ_r in Hn by lia. split; [apply Z.div_pos; lia|]. apply Z.div_lt_upper_bound; lia.
Qed.

(** * Keys and primitives *)

(** The packages of ML-DSA in circl. *)
Inductive mldsa := mldsa44 | mldsa65 | mldsa87.

Class KeyTypes := {
  ecdsa_PublicKey : Type; ecdsa_PrivateKey : Type;
  rsa_PublicKey : Type; rsa_PrivateKey : Type;
  mldsa_PublicKey : mldsa -> Type; mldsa_PrivateKey : mldsa -> Type;
  slhdsa_PublicKey : Type; slhdsa_PrivateKey : Type
}.

(** [KCore KOther] is a value of any type not listed. *)
Inductive anykey `{F64, KeyTypes} :=
  | KCore (k : key)
  | KEcdsaPublic (k : ecdsa_PublicKey)
  | KEcdsaPrivate (k : ecdsa_PrivateKey)
  | KEd25519Public (k : string)
  | KEd25519Private (k : string)
  | KRsaPublic (k : rsa_PublicKey)
  | KRsaPrivate (k : rsa_PrivateKey)
  | KMldsaPublic (p : mldsa) (k : mldsa_PublicKey p)
  | KMldsaPrivate (p : mldsa) (k : mldsa_PrivateKey p)
  | KSlhdsaPublic (k : slhdsa_PublicKey)
  | KSlhdsaPrivate (k : slhdsa_PrivateKey).

(** A [crypto.Signer]; the last argument of [Sign] is the hash in the options.
    [None]: the method panics, as those of an [ed25519.PrivateKey] do whose length
    is wrong. *)
Record signer `{F64, KeyTypes} := MkSigner {
  signer_Public : option anykey;
  signer_Sign : entropy -> string -> Z -> option (result error string)
}.

Class Crypto `{F64, KeyTypes} := {
  hash_sum : Z -> string -> string;
  ecdsa_Verify : ecdsa_PublicKey -> string -> Z -> Z -> bool;
  ecdsa_Sign : entropy -> ecdsa_PrivateKey -> string -> result error (Z * Z);
  ecdsa_BitSize : ecdsa_PrivateKey -> Z;
  crypto_Signer : anykey -> option signer;
  ed25519_Verify : string -> string -> string -> bool;
  rsa_VerifyPKCS1v15 : rsa_PublicKey -> Z -> string -> string -> option error;
  rsa_SignPKCS1v15 : entropy -> rsa_PrivateKey -> Z -> string -> result error string;
  rsa_VerifyPSS : rsa_PublicKey -> Z -> string -> string -> Z -> option error;
  rsa_SignPSS : entropy -> rsa_PrivateKey -> Z -> string -> Z -> result error string;
  mldsa_Verify p : mldsa_PublicKey p -> string -> string -> bool;
  mldsa_SignTo p : mldsa_PrivateKey p -> string -> result error string;
  slhdsa_Verify : slhdsa_PublicKey -> string -> string -> bool;
  slhdsa_SignDeterministic : slhdsa_PrivateKey -> string -> result error string;
  ecdsa_Public : ecdsa_PrivateKey -> ecdsa_PublicKey;
  ed25519_Public : string -> string;
  rsa_Public : rsa_PrivateKey -> rsa_PublicKey;
  mldsa_Public p : mldsa_PrivateKey p -> mldsa_PublicKey p;
  slhdsa_Public : slhdsa_PrivateKey -> slhdsa_PublicKey
}.

Definition ed25519_PublicKeySize : nat := 32.
Definition ed25519_PrivateKeySize : nat := 64.
Definition PSSSaltLengthAuto : Z := 0.
Definition PSSSaltLengthEqualsHash : Z := -1.

Section Methods.
Context `{HF : F64} `{Hsh : Shake} `{Hh : Hmac} `{HKT : !KeyTypes} `{HC : !Crypto} (fuel : nat).

(** A method of [JwtMethods] takes these keys for values of another type. *)
Definition core_key (k : anykey) : key := match k with KCore k => k | _ => KOther end.
Definition lift_method (m : SigningMethod key) : SigningMethod anykey :=
  Method (Alg m) (fun text sig k => method_Verify m text sig (core_key k))
    (fun rng text k => method_Sign m rng text (core_key k)) (SignPrecompute m).

(** * ECDSA *)

Record SigningMethodECDSA := MkECDSA { ec_Name : string; ec_Hash : Z; KeySize : nat; CurveBits : Z }.

Definition ErrECDSAVerification : error := Message "crypto/ecdsa: verification error".

Definition ecdsa_method_Verify (m : SigningMethodECDSA) (signingString sig : string) (k : anykey) : option error :=
  match k with
  | KEcdsaPublic ecdsaKey =>
      if negb (String.length sig =? 2 * KeySize m)%nat then Some ErrECDSAVerification
      else
        let r := SetBytes (take (KeySize m) (to_bytes sig)) in
        let s := SetBytes (drop (KeySize m) (to_bytes sig)) in
        if negb (hash_available (ec_Hash m)) then Some (Sentinel ErrHashUnavailable)
        else if ecdsa_Verify ecdsaKey (hash_sum (ec_Hash m) signingString) r s then None
        else Some ErrECDSAVerification
  | _ => Some (invalid_key_type "ECDSA verify expects *ecdsa.PublicKey")
  end.

(** [None] where [FillBytes] panics. *)
Definition ecdsa_method_Sign (m : SigningMethodECDSA) (rng : entropy) (signingString : string) (k : anykey)
    : option (result error string) :=
  match k with
  | KEcdsaPrivate ecdsaKey =>
      if negb (hash_available (ec_Hash m)) then Some (Err (Sentinel ErrHashUnavailable))
      else
        match ecdsa_Sign rng ecdsaKey (hash_sum (ec_Hash m) signingString) with
        | Err err => Some (Err err)
        | Ok (r, s) =>
            let curveBits := ecdsa_BitSize ecdsaKey in
            if negb (CurveBits m =? curveBits) then Some (Err (Sentinel ErrInvalidKey))
            else
              let keyBytes := curveBits / 8 in
              let keyBytes := Z.to_nat (if 0 <? curveBits mod 8 then keyBytes + 1 else keyBytes) in
              r ← FillBytes r keyBytes;
              s ← FillBytes s keyBytes;
              Some (Ok (of_bytes (r ++ s)))
        end
  | _ => Some (Err (invalid_key_type "ECDSA sign expects *ecdsa.PrivateKey"))
  end.

Definition method_of_ecdsa (m : SigningMethodECDSA) : SigningMethod anykey :=
  Method (ec_Name m) (fun text sig k => Some (ecdsa_method_Verify m text sig k)) (ecdsa_method_Sign m) false.

Definition SigningMethodES256 := MkECDSA "ES256" SHA256 32 256.
Definition SigningMethodES384 := MkECDSA "ES384" SHA384 48 384.
Definition SigningMethodES512 := MkECDSA "ES512" SHA512 66 521.

(** * Ed25519 *)

Definition ErrEd25519Verification : error := Message "ed25519: verification error".

Definition ed25519_method_Verify (signingString sig : string) (k : anykey) : option error :=
  match k with
  | KEd25519Public ed25519Key =>
      if negb (String.length ed25519Key =? ed25519_PublicKeySize)%nat then Some (Sentinel ErrInvalidKey)
      else if negb (ed25519_Verify ed25519Key signingString sig) then Some ErrEd25519Verification
      else None
  | _ => Some (invalid_key_type "Ed25519 verify expects ed25519.PublicKey")
  end.

Definition ed25519_method_Sign (rng : entropy) (signingString : string) (k : anykey) : option (result error string) :=
  match crypto_Signer k with
  | Some ed25519Key =>
      public ← signer_Public ed25519Key;
      match public with
      | KEd25519Public _ => signer_Sign ed25519Key rng signingString 0
      | _ => Some (Err (Sentinel ErrInvalidKey))
      end
  | None => Some (Err (invalid_key_type "Ed25519 sign expects crypto.Signer"))
  end.

Definition SigningMethodEdDSA : SigningMethod anykey :=
  Method "EdDSA" (fun text sig k => Some (ed25519_method_Verify text sig k))
    ed25519_method_Sign false.

(** * RSA *)

Record SigningMethodRSA := MkRSA { rsa_Name : string; rsa_Hash : Z }.

Definition rsa_method_Verify (m : SigningMethodRSA) (signingString sig : string) (k : anykey) : option error :=
  match k with
  | KRsaPublic rsaKey =>
      if negb (hash_available (rsa_Hash m)) then Some (Sentinel ErrHashUnavailable)
      else rsa_VerifyPKCS1v15 rsaKey (rsa_Hash m) (hash_sum (rsa_Hash m) signingString) sig
  | _ => Some (invalid_key_type "RSA verify expects *rsa.PublicKey")
  end.

Definition rsa_method_Sign (m : SigningMethodRSA) (rng : entropy) (signingString : string) (k : anykey)
    : result error string :=
  match k with
  | KRsaPrivate rsaKey =>
      if negb (hash_available (rsa_Hash m)) then Err (Sentinel ErrHashUnavailable)
      else rsa_SignPKCS1v15 rng rsaKey (rsa_Hash m) (hash_sum (rsa_Hash m) signingString)
  | _ => Err (invalid_key_type "RSA sign expects *rsa.PrivateKey")
  end.

Definition method_of_rsa (m : SigningMethodRSA) : SigningMethod anykey :=
  Method (rsa_Name m) (fun text sig k => Some (rsa_method_Verify m text sig k))
    (fun rng text k => Some (rsa_method_Sign m rng text k)) false.

Definition SigningMethodRS256 := MkRSA "RS256" SHA256.
Definition SigningMethodRS384 := MkRSA "RS384" SHA384.
Definition SigningMethodRS512 := MkRSA "RS512" SHA512.

(** The options are the salt length they hold. *)
Record SigningMethodRSAPSS := MkRSAPSS { pss_rsa : SigningMethodRSA; Options : Z; VerifyOptions : option Z }.

Definition pss_method_Verify (m : SigningMethodRSAPSS) (signingString sig : string) (k : anykey) : option error :=
  match k with
  | KRsaPublic rsaKey =>
      let hash := rsa_Hash (pss_rsa m) in
      if negb (hash_available hash) then Some (Sentinel ErrHashUnavailable)
      else rsa_VerifyPSS rsaKey hash (hash_sum hash signingString) sig (default (Options m) (VerifyOptions m))
  | _ => Some (invalid_key_type "RSA-PSS verify expects *rsa.PublicKey")
  end.

Definition pss_method_Sign (m : SigningMethodRSAPSS) (rng : entropy) (signingString : string) (k : anykey)
    : result error string :=
  match k with
  | KRsaPrivate rsaKey =>
      let hash := rsa_Hash (pss_rsa m) in
      if negb (hash_available hash) then Err (Sentinel ErrHashUnavailable)
      else rsa_SignPSS rng rsaKey hash (hash_sum hash signingString) (Options m)
  | _ => Err (invalid_key_type "RSA-PSS sign expects *rsa.PrivateKey")
  end.

Definition method_of_pss (m : SigningMethodRSAPSS) : SigningMethod anykey :=
  Method (rsa_Name (pss_rsa m)) (fun text sig k => Some (pss_method_Verify m text sig k))
    (fun rng text k => Some (pss_method_Sign m rng text k)) false.

Definition SigningMethodPS256 := MkRSAPSS (MkRSA "PS256" SHA256) PSSSaltLengthEqualsHash (Some PSSSaltLengthAuto).
Definition SigningMethodPS384 := MkRSAPSS (MkRSA "PS384" SHA384) PSSSaltLengthEqualsHash (Some PSSSaltLengthAuto).
Definition SigningMethodPS512 := MkRSAPSS (MkRSA "PS512" SHA512) PSSSaltLengthEqualsHash (Some PSSSaltLengthAuto).

(** * ML-DSA *)

(** The type assertions on a key. *)
Definition as_mldsa_public (p : mldsa) (k : anykey) : option (mldsa_PublicKey p) :=
  match p with
  | mldsa44 => match k with KMldsaPublic mldsa44 pk => Some pk | _ => None end
  | mldsa65 => match k with KMldsaPublic mldsa65 pk => Some pk | _ => None end
  | mldsa87 => match k with KMldsaPublic mldsa87 pk => Some pk | _ => None end
  end.
Definition as_mldsa_private (p : mldsa) (k : anykey) : option (mldsa_PrivateKey p) :=
  match p with
  | mldsa44 => match k with KMldsaPrivate mldsa44 sk => Some sk | _ => None end
  | mldsa65 => match k with KMldsaPrivate mldsa65 sk => Some sk | _ => None end
  | mldsa87 => match k with KMldsaPrivate mldsa87 sk => Some sk | _ => None end
  end.

(** The package the switch on the name goes to. *)
Definition mldsa_package (name : string) : option mldsa :=
  if String.eqb name "ML-DSA-44" then Some mldsa44
  else if String.eqb name "ML-DSA-65" then Some mldsa65
  else if String.eqb name "ML-DSA-87" then Some mldsa87 else None.

Definition mldsa_package_name (p : mldsa) : string :=
  match p with mldsa44 => "mldsa44" | mldsa65 => "mldsa65" | mldsa87 => "mldsa87" end.

Definition mldsa_method_Verify (name : string) (msg sig : string) (k : anykey) : option error :=
  match mldsa_package name with
  | Some p =>
      match as_mldsa_public p k with
      | None => Some (invalid_key_type (name ++ " verify expects *" ++ mldsa_package_name p ++ ".PublicKey"))
      | Some pk =>
          if negb (mldsa_Verify p pk msg sig)
          then Some (newError (name ++ " verify failed") (Sentinel ErrSignatureInvalid) []) else None
      end
  | None => Some (Message "unsupported signing method")
  end.

Definition mldsa_method_Sign (name : string) (msg : string) (k : anykey) : result error string :=
  match mldsa_package name with
  | Some p =>
      match as_mldsa_private p k with
      | None => Err (invalid_key_type (name ++ " sign expects *" ++ mldsa_package_name p ++ ".PrivateKey"))
      | Some sk =>
          match mldsa_SignTo p sk msg with
          | Err err => Err (newError (name ++ " sign failed: ") (Sentinel ErrSignatureInvalid) [])
          | Ok sig => Ok sig
          end
      end
  | None => Err (Message "unsupported signing method")
  end.

Definition SigningMethodMLDSA (name : string) : SigningMethod anykey :=
  Method name (fun text sig k => Some (mldsa_method_Verify name text sig k))
    (fun _ text k => Some (mldsa_method_Sign name text k)) false.

(** * SLH-DSA: the name is not compared with the parameters of the key *)

Definition slhdsa_method_Verify (signingString sig : string) (k : anykey) : option error :=
  match k with
  | KSlhdsaPublic pk =>
      if negb (slhdsa_Verify pk signingString sig)
      then Some (newError "SLH-DSA verify failed" (Sentinel ErrSignatureInvalid) []) else None
  | _ => Some (invalid_key_type "SLH-DSA verify expects slhdsa.PublicKey key")
  end.

Definition slhdsa_method_Sign (signingString : string) (k : anykey) : result error string :=
  match k with
  | KSlhdsaPrivate sk => slhdsa_SignDeterministic sk signingString
  | _ => Err (invalid_key_type "SLH-DSA sign expects slhdsa.PrivateKey key")
  end.

Definition SigningMethodSLHDSA (name : string) : SigningMethod anykey :=
  Method name (fun text sig k => Some (slhdsa_method_Verify text sig k))
    (fun _ text k => Some (slhdsa_method_Sign text k)) false.

Definition slhdsa_names : list string :=
  ["SLH-DSA-SHA2-128f"; "SLH-DSA-SHA2-128s"; "SLH-DSA-SHA2-192f"; "SLH-DSA-SHA2-192s"; "SLH-DSA-SHA2-256f";
   "SLH-DSA-SHA2-256s"; "SLH-DSA-SHAKE-128f"; "SLH-DSA-SHAKE-128s"; "SLH-DSA-SHAKE-192f"; "SLH-DSA-SHAKE-192s";
   "SLH-DSA-SHAKE-256f"; "SLH-DSA-SHAKE-256s"]%string.

(** * The registry after every [init] function of the package *)

Definition fndsa_methods : list (SigningMethod anykey) :=
  lift_method <$> [SigningMethodFN512 fuel; SigningMethodFN1024 fuel].

Definition library_methods : list (SigningMethod anykey) :=
  (method_of_ecdsa <$> [SigningMethodES256; SigningMethodES384; SigningMethodES512]) ++ [SigningMethodEdDSA] ++
  (lift_method <$> [SigningMethodHS256; SigningMethodHS384; SigningMethodHS512]) ++
  (SigningMethodMLDSA <$> ["ML-DSA-44"; "ML-DSA-65"; "ML-DSA-87"]%string) ++ [lift_method SigningMethodNone] ++
  (method_of_rsa <$> [SigningMethodRS256; SigningMethodRS384; SigningMethodRS512]) ++
  (method_of_pss <$> [SigningMethodPS256; SigningMethodPS384; SigningMethodPS512]) ++
  (SigningMethodSLHDSA <$> slhdsa_names).

Definition registered_methods : list (SigningMethod anykey) := library_methods ++ fndsa_methods.

Definition signingMethods : registry anykey :=
  foldr (fun m r => RegisterSigningMethod (Alg m) m r) ∅ registered_methods.

(** ** Looking a method up *)

Lemma registered_names_nodup : NoDup (Alg <$> registered_methods).
Proof. apply (@bool_decide_unpack _ (NoDup_dec _)). vm_compute. exact I. Qed.

Lemma registered_get n m : GetSigningMethod signingMethods n = Some m <-> In m registered_methods /\ Alg m = n.
Proof.
  unfold GetSigningMethod, signingMethods. pose proof registered_names_nodup as Hn. revert Hn.
  generalize registered_methods as ms. induction ms as [|m0 ms IH]; intros Hn.
  - split; [|intros [[] _]]. intros H. assert (GetSigningMethod (∅ : registry anykey) n = None) as E by reflexivity.
    unfold GetSigningMethod in E. cbn [foldr] in H. rewrite E in H. discriminate H.
  - apply NoDup_cons in Hn as [H0 Hn]. cbn [foldr]. unfold RegisterSigningMethod at 1, registry. rewrite lookup_insert_Some.
    unfold registry in IH. rewrite (IH Hn). split.
    + intros [[<- <-]|[_ [Hin Ha]]]; [by split; [left|]|by split; [right|]].
    + intros [[<-|Hin] Ha]; [by left|right]. split; [|done]. intros E. apply H0. rewrite E, <- Ha.
      by apply list_elem_of_fmap_2, list_elem_of_In.
Qed.
End Methods.
