(* ===== verification/KeyLoad.v ===== *)
(** Loading keys: the PEM readers pkg/jwt/{fndsa,ecdsa,ed25519,rsa,mldsa,slhdsa}_utils.go,
    pkg/utils/jwtutils/loader.go, and the configurations the two services build
    from it (internal/config/app.go).

    The files, the PEM decoder and the key parsers of crypto/x509 and of circl are
    parameters ([KeyFiles], [Pem], [KeyParsers]). *)
From Stdlib Require Import ZArith Lia Ascii String.
From stdpp Require Import base numbers list strings option gmap.
From S2P Require Import Prelude Util Verify Flr Sign Precomputed Text Json JsonFacts Claims JwtParser JwtFacts JwtMethods JwtUtil JwtUtilFacts CryptoMethods.
Local Open Scope Z_scope.

(** [os.ReadFile] of a name in a directory. *)
Class KeyFiles := ReadFile : string -> string -> option string.

Class Pem := {
  pem_Block : Type;
  pem_Decode : string -> option pem_Block;
  pem_Bytes : pem_Block -> string;
  DecryptPEMBlock : pem_Block -> string -> option string
}.

(** Each gives [None] for its error; the SLH-DSA schemes go by their names. *)
Class KeyParsers `{F64, KeyTypes} := {
  ParseECPrivateKey : string -> option ecdsa_PrivateKey;
  ParsePKCS1PrivateKey : string -> option rsa_PrivateKey;
  ParsePKCS1PublicKey : string -> option rsa_PublicKey;
  ParsePKCS8PrivateKey : string -> option anykey;
  ParsePKIXPublicKey : string -> option anykey;
  Certificate_PublicKey : string -> option anykey;
  mldsa_UnmarshalBinaryPrivateKey : mldsa -> string -> option anykey;
  mldsa_UnmarshalBinaryPublicKey : mldsa -> string -> option anykey;
  slhdsa_UnmarshalBinaryPrivateKey : string -> string -> option anykey;
  slhdsa_UnmarshalBinaryPublicKey : string -> string -> option anykey
}.

Definition supportedAlgorithms : list string :=
  ["FN-DSA-512"; "FN-DSA-Precomputed-512"; "Falcon-512"; "Falcon-Precomputed-512"; "HS256"; "RS256"; "ES256"; "EdDSA"]%string.

Section Load.
Context `{HF : F64} `{Hsh : Shake} `{Hh : Hmac} `{HKT : !KeyTypes} `{HC : !Crypto} `{HP : Pem} `{HKP : !KeyParsers}.
Context (fuel : nat).

(** * PEM readers *)

Definition ErrKeyMustBePEMEncoded : error :=
  Message "invalid key: Key must be a PEM encoded PKCS1 or PKCS8 key".

Definition pem_block (key : string) : result error pem_Block :=
  match pem_Decode key with Some block => Ok block | None => Err ErrKeyMustBePEMEncoded end.

(** A parser of a library, and another when it fails. *)
Definition parsed {A} (r : option A) : result error A := match r with Some k => Ok k | None => Err Library end.
Definition or_parsed {A} (r : option A) (r' : result error A) : result error A :=
  match r with Some k => Ok k | None => r' end.

Definition ParseFNDSAPrivateKeyFromPEM (key : string) : result error string :=
  block ← pem_block key; Ok (pem_Bytes block).
Definition ParseFNDSAPublicKeyFromPEM (key : string) : result error string :=
  block ← pem_block key; Ok (pem_Bytes block).

Definition ParseECPrivateKeyFromPEM (key : string) : result error ecdsa_PrivateKey :=
  block ← pem_block key;
  parsedKey ← or_parsed (KEcdsaPrivate <$> ParseECPrivateKey (pem_Bytes block))
    (parsed (ParsePKCS8PrivateKey (pem_Bytes block)));
  match parsedKey with
  | KEcdsaPrivate pkey => Ok pkey
  | _ => Err (Message "key is not a valid ECDSA private key")
  end.

Definition ParseECPublicKeyFromPEM (key : string) : result error ecdsa_PublicKey :=
  block ← pem_block key;
  parsedKey ← or_parsed (ParsePKIXPublicKey (pem_Bytes block)) (parsed (Certificate_PublicKey (pem_Bytes block)));
  match parsedKey with
  | KEcdsaPublic pkey => Ok pkey
  | _ => Err (Message "key is not a valid ECDSA public key")
  end.

Definition ParseEdPrivateKeyFromPEM (key : string) : result error anykey :=
  block ← pem_block key;
  parsedKey ← parsed (ParsePKCS8PrivateKey (pem_Bytes block));
  match parsedKey with
  | KEd25519Private pkey => Ok (KEd25519Private pkey)
  | _ => Err (Message "key is not a valid Ed25519 private key")
  end.

Definition ParseEdPublicKeyFromPEM (key : string) : result error anykey :=
  block ← pem_block key;
  parsedKey ← parsed (ParsePKIXPublicKey (pem_Bytes block));
  match parsedKey with
  | KEd25519Public pkey => Ok (KEd25519Public pkey)
  | _ => Err (Message "key is not a valid Ed25519 public key")
  end.

(** The private key in a block, decrypted or not. *)
Definition rsa_private (bytes : string) : result error rsa_PrivateKey :=
  parsedKey ← or_parsed (KRsaPrivate <$> ParsePKCS1PrivateKey bytes) (parsed (ParsePKCS8PrivateKey bytes));
  match parsedKey with
  | KRsaPrivate pkey => Ok pkey
  | _ => Err (Message "key is not a valid RSA private key")
  end.

Definition ParseRSAPrivateKeyFromPEM (key : string) : result error rsa_PrivateKey :=
  block ← pem_block key; rsa_private (pem_Bytes block).

Definition ParseRSAPrivateKeyFromPEMWithPassword (key password : string) : result error rsa_PrivateKey :=
  block ← pem_block key;
  blockDecrypted ← parsed (DecryptPEMBlock block password);
  rsa_private blockDecrypted.

Definition ParseRSAPublicKeyFromPEM (key : string) : result error rsa_PublicKey :=
  block ← pem_block key;
  let bytes := pem_Bytes block in
  parsedKey ← or_parsed (ParsePKIXPublicKey bytes)
    (or_parsed (Certificate_PublicKey bytes) (parsed (KRsaPublic <$> ParsePKCS1PublicKey bytes)));
  match parsedKey with
  | KRsaPublic pkey => Ok pkey
  | _ => Err (Message "key is not a valid RSA public key")
  end.

Definition ErrNotMLDSAPrivateKey : error := invalid_key_type "key is not a valid ML-DSA private key".
Definition ErrNotMLDSAPublicKey : error := invalid_key_type "key is not a valid ML-DSA public key".

Definition ParseMLDSAPrivateKeyFromPEM (alg key : string) : result error anykey :=
  block ← pem_block key;
  match mldsa_package alg with
  | None => Err (Sentinel ErrInvalidKeyType)
  | Some p =>
      match skSign ← mldsa_UnmarshalBinaryPrivateKey p (pem_Bytes block); as_mldsa_private p skSign with
      | Some mldsaSk => Ok (KMldsaPrivate p mldsaSk)
      | None => Err ErrNotMLDSAPrivateKey
      end
  end.

Definition ParseMLDSAPublicKeyFromPEM (alg key : string) : result error anykey :=
  block ← pem_block key;
  match mldsa_package alg with
  | None => Err (Sentinel ErrInvalidKeyType)
  | Some p =>
      match pkSign ← mldsa_UnmarshalBinaryPublicKey p (pem_Bytes block); as_mldsa_public p pkSign with
      | Some mldsaPk => Ok (KMldsaPublic p mldsaPk)
      | None => Err ErrNotMLDSAPublicKey
      end
  end.

Definition ErrNotSLHDSAPrivateKey : error := invalid_key_type "key is not a valid SLH-DSA private key".
Definition ErrNotSLHDSAPublicKey : error := invalid_key_type "key is not a valid SLH-DSA public key".

Definition ParseSLHDSAPrivateKeyFromPEM (alg key : string) : result error anykey :=
  block ← pem_block key;
  if contains slhdsa_names alg then
    match slhdsa_UnmarshalBinaryPrivateKey alg (pem_Bytes block) with
    | Some (KSlhdsaPrivate slhdsaSk) => Ok (KSlhdsaPrivate slhdsaSk)
    | _ => Err ErrNotSLHDSAPrivateKey
    end
  else Err (Sentinel ErrInvalidKeyType).

Definition ParseSLHDSAPublicKeyFromPEM (alg key : string) : result error anykey :=
  block ← pem_block key;
  if contains slhdsa_names alg then
    match slhdsa_UnmarshalBinaryPublicKey alg (pem_Bytes block) with
    | Some (KSlhdsaPublic slhdsaPk) => Ok (KSlhdsaPublic slhdsaPk)
    | _ => Err ErrNotSLHDSAPublicKey
    end
  else Err (Sentinel ErrInvalidKeyType).

(** * The loader *)

Context `{HFS : KeyFiles}.

Definition readFile (keysDir name : string) : result error string :=
  match ReadFile keysDir name with Some data => Ok data | None => Err (Wrapped "read" [Library]) end.

(** The parts the loaders have in common: a public key, and with [signMode] a
    private one. *)
Definition load_key {A} (keysDir name : string) (parse : string -> result error A) : result error A :=
  bytes ← readFile keysDir name; parse bytes.
Definition load_config (method : SigningMethod anykey) (VerifyKey : result error anykey) (signMode : bool)
    (SignKey : result error anykey) : result error (AlgConfig (K := anykey)) :=
  vk ← VerifyKey;
  if signMode then sk ← SignKey; Ok (MkAlgConfig method sk vk)
  else Ok (MkAlgConfig method (KCore KNil) vk).

Definition raw_key (k : string) : anykey := KCore (KBytes k).
Definition result_map {A B} (f : A -> B) (r : result error A) : result error B := a ← r; Ok (f a).

Definition loadFNDSAOriginal (keysDir : string) (signMode : bool) : result error AlgConfig :=
  load_config (lift_method (SigningMethodFN512 fuel))
    (result_map raw_key (load_key keysDir "FNDSA-512_pk.pem" ParseFNDSAPublicKeyFromPEM)) signMode
    (result_map raw_key (load_key keysDir "FNDSA-512_sk.pem" ParseFNDSAPrivateKeyFromPEM)).

(** The signer goes into the method; no key is set for signing. *)
Definition loadFNDSAPrecomputed (keysDir : string) (signMode : bool) : result error AlgConfig :=
  vk ← load_key keysDir "FNDSA-512_pk.pem" ParseFNDSAPublicKeyFromPEM;
  signer ← if signMode then
      sk ← load_key keysDir "FNDSA-512_sk.pem" ParseFNDSAPrivateKeyFromPEM;
      match NewPrecomputedSigner (to_bytes sk) with
      | Ok signer => Ok (Some signer)
      | Err err => Err (Wrapped "precomputed signer" [Message err])
      end
    else Ok None;
  Ok (MkAlgConfig (lift_method (SigningMethodFNDSAPrecomputed fuel AlgFNDSA512 signer)) (KCore KNil) (raw_key vk)).

Definition loadMLDSA (keysDir alg : string) (signMode : bool) : result error AlgConfig :=
  load_config (SigningMethodMLDSA alg)
    (load_key keysDir (alg ++ "_pk.pem") (ParseMLDSAPublicKeyFromPEM alg)) signMode
    (load_key keysDir (alg ++ "_sk.pem") (ParseMLDSAPrivateKeyFromPEM alg)).

Definition loadSLHDSA (keysDir alg : string) (signMode : bool) : result error AlgConfig :=
  if contains ["SLH-DSA-SHA2-128f"; "SLH-DSA-SHA2-128s"; "SLH-DSA-SHAKE-128f"; "SLH-DSA-SHAKE-128s"]%string alg then
    load_config (SigningMethodSLHDSA alg)
      (load_key keysDir (alg ++ "_pk.pem") (ParseSLHDSAPublicKeyFromPEM alg)) signMode
      (load_key keysDir (alg ++ "_sk.pem") (ParseSLHDSAPrivateKeyFromPEM alg))
  else Err (Message "unsupported SLH-DSA variant").

Definition loadECDSA (keysDir : string) (signMode : bool) : result error AlgConfig :=
  load_config (method_of_ecdsa SigningMethodES256)
    (result_map KEcdsaPublic (load_key keysDir "ES256_pk.pem" ParseECPublicKeyFromPEM)) signMode
    (result_map KEcdsaPrivate (load_key keysDir "ES256_sk.pem" ParseECPrivateKeyFromPEM)).

Definition loadRSA (keysDir : string) (signMode : bool) : result error AlgConfig :=
  load_config (method_of_rsa SigningMethodRS256)
    (result_map KRsaPublic (load_key keysDir "RS256_pk.pem" ParseRSAPublicKeyFromPEM)) signMode
    (result_map KRsaPrivate (load_key keysDir "RS256_sk.pem" ParseRSAPrivateKeyFromPEM)).

Definition loadHMAC (keysDir : string) (signMode : bool) : result error AlgConfig :=
  secret ← load_key keysDir "HS256_secret.pem" ParseFNDSAPrivateKeyFromPEM;
  Ok (MkAlgConfig (lift_method SigningMethodHS256) (if signMode then raw_key secret else KCore KNil) (raw_key secret)).

Definition loadEdDSA (keysDir : string) (signMode : bool) : result error AlgConfig :=
  load_config SigningMethodEdDSA
    (load_key keysDir "EdDSA_pk.pem" ParseEdPublicKeyFromPEM) signMode
    (load_key keysDir "EdDSA_sk.pem" ParseEdPrivateKeyFromPEM).

Definition LoadAlgConfig (keysDir alg : string) (signMode : bool) : result error AlgConfig :=
  if contains ["FN-DSA-512"; "Falcon-512"]%string alg then loadFNDSAOriginal keysDir signMode
  else if contains ["FN-DSA-Precomputed-512"; "Falcon-Precomputed-512"]%string alg then loadFNDSAPrecomputed keysDir signMode
  else if contains ["ML-DSA-44"; "ML-DSA-65"; "ML-DSA-87"]%string alg then loadMLDSA keysDir alg signMode
  else if contains ["SLH-DSA-SHA2-128f"; "SLH-DSA-SHA2-128s"; "SLH-DSA-SHAKE-128f"; "SLH-DSA-SHAKE-128s"]%string alg
  then loadSLHDSA keysDir alg signMode
  else if String.eqb alg "ES256" then loadECDSA keysDir signMode
  else if String.eqb alg "RS256" then loadRSA keysDir signMode
  else if String.eqb alg "HS256" then loadHMAC keysDir signMode
  else if String.eqb alg "EdDSA" then loadEdDSA keysDir signMode
  else Err (Message "unsupported algorithm").

Fixpoint load_into (keysDir : string) (algs : list string) (signMode : bool) (configs : gmap string AlgConfig)
    : result error (gmap string (AlgConfig (K := anykey))) :=
  match algs with
  | [] => Ok configs
  | alg :: algs' =>
      match LoadAlgConfig keysDir alg signMode with
      | Err err => Err (Wrapped "loading" [err])
      | Ok cfg => load_into keysDir algs' signMode (<[alg := cfg]> configs)
      end
  end.
Definition LoadAllAlgConfigs (keysDir : string) (algs : list string) (signMode : bool)
    : result error (gmap string (AlgConfig (K := anykey))) := load_into keysDir algs signMode ∅.

(** ** The services' configurations

    [algsToLoad] is the list the environment narrows down, or
    [supportedAlgorithms]. *)
Definition or_default (value dflt : string) : string := if String.eqb value "" then dflt else value.

(** The verifier of the gateway: the half of its [Bootstrap] that loads the public
    keys.  The whole, with the signer of the benchmarks whose failure stops the
    gateway too, is [Startup.gateway_Bootstrap]. *)
Definition gateway_jwt (keysDir defaultAlg issuer audience : string) (duration : Z) (algsToLoad : list string)
    : result error (multiAlgJwtUtil (K := anykey)) :=
  configs ← LoadAllAlgConfigs (or_default keysDir "./keys") algsToLoad false;
  Ok (NewMultiAlgJwtUtil issuer audience duration (or_default defaultAlg "FN-DSA-Precomputed-512") configs).

(** The signer of the auth service ([Startup.auth_Bootstrap]), and of the gateway's
    benchmarks. *)
Definition auth_jwt (keysDir defaultAlg issuer audience : string) (duration : Z) (algsToLoad : list string)
    : result error (multiAlgJwtUtil (K := anykey)) :=
  configs ← LoadAllAlgConfigs (or_default keysDir "./keys") algsToLoad true;
  Ok (NewMultiAlgJwtUtil issuer audience duration (or_default defaultAlg "FN-DSA-Precomputed-512") configs).
End Load.
