(* ===== verification/Startup.v ===== *)
(** How the services start ([internal/config/app.go] of the gateway and of the auth
    service): the algorithms each loads, and the error handler of the gateway
    ([internal/exception/exception.go]). *)
From Stdlib Require Import ZArith Lia Ascii String.
From stdpp Require Import base numbers list strings option gmap.
From S2P Require Import Prelude Util Verify Flr Sign Precomputed Text Json JsonFacts Claims JwtParser JwtFacts JwtMethods JwtUtil JwtUtilFacts JwtProps CryptoMethods KeyLoad.
Local Open Scope Z_scope.

(** * Lists in environment variables *)

(** [strings.Split(s, ",")] *)
Fixpoint split_commas (s : string) : list string :=
  match s with
  | EmptyString => [EmptyString]
  | String "," s' => EmptyString :: split_commas s'
  | String c s' => match split_commas s' with part :: parts => String c part :: parts | [] => [] end
  end.

(** The encodings of the characters [unicode.IsSpace] is true of. *)
Definition spaces : list string :=
  of_bytes <$> (((fun c => [c]) <$> [9; 10; 11; 12; 13; 32]) ++ [[0xC2; 0x85]; [0xC2; 0xA0]; [0xE1; 0x9A; 0x80]] ++
    ((fun c => [0xE2; 0x80; c]) <$> [0x80; 0x81; 0x82; 0x83; 0x84; 0x85; 0x86; 0x87; 0x88; 0x89; 0x8A; 0xA8; 0xA9; 0xAF]) ++
    [[0xE2; 0x81; 0x9F]; [0xE3; 0x80; 0x80]]).

Definition has_suffix (suf s : string) : bool := String.eqb (substring (String.length s - String.length suf) (String.length suf) s) suf.

(** [strings.TrimSpace]; each turn takes a character off. *)
Fixpoint trim_left (fuel : nat) (s : string) : string :=
  match fuel with
  | O => s
  | S fuel => match find (fun sp => String.prefix sp s) spaces with
      | Some sp => trim_left fuel (substring (String.length sp) (String.length s - String.length sp) s)
      | None => s
      end
  end.
Fixpoint trim_right (fuel : nat) (s : string) : string :=
  match fuel with
  | O => s
  | S fuel => match find (fun sp => has_suffix sp s) spaces with
      | Some sp => trim_right fuel (substring 0 (String.length s - String.length sp) s)
      | None => s
      end
  end.
Definition TrimSpace (s : string) : string := trim_right (String.length s) (trim_left (String.length s) s).

(** [JWT_ALLOWED_ALGS], as the gateway reads it and as the auth service does. *)
Definition gateway_algs (raw : string) : list string :=
  let algsToLoad := filter (fun t => t <> ""%string) (TrimSpace <$> split_commas raw) in
  match algsToLoad with [] => supportedAlgorithms | _ => algsToLoad end.

Definition auth_algs (raw : string) : list string :=
  let algsToLoad := if String.eqb raw "" then [] else split_commas raw in
  match algsToLoad with [] => supportedAlgorithms | _ => algsToLoad end.

Example trim_examples : TrimSpace (of_bytes [32; 9; 65; 32; 66; 0xC2; 0xA0; 10]) = "A B"%string /\ TrimSpace "  " = ""%string /\ TrimSpace "HS256" = "HS256"%string.
Proof. vm_compute. auto. Qed.

Example algs_examples : gateway_algs "ES256, HS256,," = ["ES256"; "HS256"]%string /\ gateway_algs " , " = supportedAlgorithms /\
  gateway_algs "" = supportedAlgorithms /\ auth_algs "" = supportedAlgorithms /\ auth_algs "ES256, HS256" = ["ES256"; " HS256"]%string.
Proof. vm_compute. auto. Qed.

Lemma split_commas_nonempty s : split_commas s <> [].
Proof. induction s as [|c s IH]; cbn [split_commas]; [done|]. destruct c as [[] [] [] [] [] [] [] []]; try done; by destruct (split_commas s). Qed.

(** The two readings are the same when no part has blanks and none is empty. *)
Lemma same_algs raw : Forall (fun t => t <> ""%string /\ TrimSpace t = t) (split_commas raw) -> gateway_algs raw = auth_algs raw.
Proof.
  intros H. unfold gateway_algs, auth_algs. assert (TrimSpace <$> split_commas raw = split_commas raw) as ->.
  { clear -H. induction H as [|t l [_ Ht] Hl IH]; [done|]. cbn. by rewrite Ht, IH. }
  assert (filter (fun t => t <> ""%string) (split_commas raw) = split_commas raw) as ->.
  { clear -H. induction H as [|t l [Ht _] Hl IH]; [done|]. rewrite filter_cons_True by done. by rewrite IH. }
  destruct (String.eqb_spec raw "") as [->|Hn]; [|done]. exfalso. cbn in H. by apply Forall_cons_1 in H as [[] _].
Qed.

(** * Start-up *)

Section Services.
Context `{HF : F64} `{Hsh : Shake} `{Hh : Hmac} `{HKT : !KeyTypes} `{HC : !Crypto} `{HP : Pem} `{HKP : !KeyParsers} `{HFS : KeyFiles}.
Context (fuel : nat).

(** The JWT part of [Bootstrap]; the gateway has a second set, with the private
    keys of all algorithms, for its benchmark. *)
Definition gateway_Bootstrap (keysDir defaultAlg issuer audience : string) (duration : Z) (allowed : string)
    : result error (multiAlgJwtUtil (K := anykey) * multiAlgJwtUtil (K := anykey)) :=
  jwtUtil ← gateway_jwt fuel keysDir defaultAlg issuer audience duration (gateway_algs allowed);
  benchmarkJWT ← auth_jwt fuel keysDir defaultAlg issuer audience duration supportedAlgorithms;
  Ok (jwtUtil, benchmarkJWT).

Definition auth_Bootstrap (keysDir defaultAlg issuer audience : string) (duration : Z) (allowed : string)
    : result error (multiAlgJwtUtil (K := anykey)) :=
  auth_jwt fuel keysDir defaultAlg issuer audience duration (auth_algs allowed).

(** A list with a blank in it stops the auth service, whatever the files are. *)
Lemma blank_stops_auth keysDir defaultAlg issuer audience duration :
  exists err, auth_Bootstrap keysDir defaultAlg issuer audience duration "ES256, HS256" = Err err.
Proof.
  unfold auth_Bootstrap, auth_jwt, LoadAllAlgConfigs. change (auth_algs "ES256, HS256") with ["ES256"; " HS256"]%string. cbn [load_into].
  destruct (LoadAlgConfig fuel _ "ES256" true) as [cfg|e]; [|by eexists].
  change (LoadAlgConfig fuel ?d " HS256" true) with (Err (A := AlgConfig (K := anykey)) (Message "unsupported algorithm")). by eexists.
Qed.
End Services.

(** * The error handler of the gateway *)

Inductive handler_error :=
  | FiberError (Code : Z) (Message : string)
  | ValidationErrors (fields : list string)
  | OtherError (text : string).

Inductive error_body := ErrorText (text : string) | ErrorFields (fields : list string).

(** The status and the [error] member of the response.  The loop over the
    validation errors assigns [append(validationErrors, validationError)] anew in
    each turn. *)
Definition NewErrorHandler (err : handler_error) : Z * error_body :=
  let errors := ErrorText "Internal Server Error" in
  let code := 500 in
  let '(code, errors) := match err with FiberError c m => (c, ErrorText m) | _ => (code, errors) end in
  match err with
  | ValidationErrors l => (400, fold_left (fun _ v => ErrorFields (l ++ [v])) l errors)
  | _ => (code, errors)
  end.

(** The text of an error that is neither of fiber nor of the validator does not
    leave the gateway. *)
Lemma other_error_hidden t t' : NewErrorHandler (OtherError t) = NewErrorHandler (OtherError t') /\ (NewErrorHandler (OtherError t)).1 = 500.
Proof. done. Qed.

(** A response to invalid input has the last field twice. *)
Lemma validation_repeats_last l v : NewErrorHandler (ValidationErrors (l ++ [v])) = (400, ErrorFields ((l ++ [v]) ++ [v])).
Proof. unfold NewErrorHandler. cbn. by rewrite fold_left_app. Qed.
