(* ===== verification/MethodProps.v ===== *)
(** Properties of the signing methods and of the keys the services load: which
    keys a method looks at, that what it signs it verifies, and what stands behind
    a token the gateway accepts. *)
From Stdlib Require Import ZArith Lia Ascii String.
From stdpp Require Import base numbers list strings option gmap.
From S2P Require Import Prelude Bits Codec Util Verify Flr Sign Precomputed Text Json JsonFacts Claims JwtParser JwtFacts JwtMethods JwtUtil JwtUtilFacts CryptoMethods KeyLoad.
Local Open Scope Z_scope.

(** What the cryptographic libraries promise. *)
Class CryptoLaws `{Crypto} := {
  ecdsa_sign_verify rng sk digest r s :
    ecdsa_Sign rng sk digest = Ok (r, s) ->
    0 <= r < 2 ^ ecdsa_BitSize sk /\ 0 <= s < 2 ^ ecdsa_BitSize sk /\ ecdsa_Verify (ecdsa_Public sk) digest r s = true;
  rsa_sign_verify rng sk hash digest sig :
    rsa_SignPKCS1v15 rng sk hash digest = Ok sig -> rsa_VerifyPKCS1v15 (rsa_Public sk) hash digest sig = None;
  pss_sign_verify rng sk hash digest salt sig :
    rsa_SignPSS rng sk hash digest salt = Ok sig -> rsa_VerifyPSS (rsa_Public sk) hash digest sig PSSSaltLengthAuto = None;
  mldsa_sign_verify p sk msg sig : mldsa_SignTo p sk msg = Ok sig -> mldsa_Verify p (mldsa_Public p sk) msg sig = true;
  slhdsa_sign_verify sk msg sig :
    slhdsa_SignDeterministic sk msg = Ok sig -> slhdsa_Verify (slhdsa_Public sk) msg sig = true;
  ed25519_sign_verify sk s rng msg sig :
    crypto_Signer (KEd25519Private sk) = Some s ->
    (forall pk, signer_Public s = Some pk -> pk = KEd25519Public (ed25519_Public sk) /\ String.length (ed25519_Public sk) = ed25519_PublicKeySize) /\
    (signer_Sign s rng msg 0 = Some (Ok sig) -> ed25519_Verify (ed25519_Public sk) msg sig = true);
  ed25519_sized sk s : String.length sk = ed25519_PrivateKeySize -> crypto_Signer (KEd25519Private sk) = Some s ->
    is_Some (signer_Public s) /\ forall rng msg, is_Some (signer_Sign s rng msg 0);
  other_signers k s pk : crypto_Signer k = Some s -> signer_Public s = Some (KEd25519Public pk) ->
    match k with KCore KOther | KEd25519Private _ => True | _ => False end
}.

Section Methods.
Context `{HF : F64} `{Hsh : Shake} `{Hh : Hmac} `{HKT : !KeyTypes} `{HC : !Crypto} (fuel : nat).
Implicit Types k : anykey.

(** * Keys and algorithms *)

(** The algorithms whose methods accept a key for verification. *)
Definition family (k : anykey) : list string :=
  match k with
  | KCore (KBytes _) => ["HS256"; "HS384"; "HS512"; AlgFNDSA512; AlgFNDSA1024]
  | KCore KUnsafeNone => ["none"]
  | KEcdsaPublic _ => ["ES256"; "ES384"; "ES512"]
  | KEd25519Public _ => ["EdDSA"]
  | KRsaPublic _ => ["RS256"; "RS384"; "RS512"; "PS256"; "PS384"; "PS512"]
  | KMldsaPublic mldsa44 _ => ["ML-DSA-44"]
  | KMldsaPublic mldsa65 _ => ["ML-DSA-65"]
  | KMldsaPublic mldsa87 _ => ["ML-DSA-87"]
  | KSlhdsaPublic _ => slhdsa_names
  | _ => []
  end%string.

(** (C12) A key verifies under the algorithms of its own type only: no registered
    method accepts a signature with a private key, with the key of another family
    or with a value of another type.  (Byte slices are the keys of HMAC and of
    FN-DSA alike.) *)
Theorem keys_verify_in_family m text sig k :
  In m (registered_methods fuel) -> method_Verify m text sig k = Some None -> In (Alg m) (family k).
Proof.
  intros Hm Hv. repeat (destruct Hm as [<-|Hm]; [destruct k as [[]| | | | | | |[]|[]| |]; try discriminate Hv; cbn; tauto|]).
  destruct Hm.
Qed.

(** * Signing and verifying *)

(** The key that verifies what a key signs. *)
Definition public_of (k : anykey) : option anykey :=
  match k with
  | KCore (KBytes b) => Some (KCore (KBytes b))
  | KCore KUnsafeNone => Some (KCore KUnsafeNone)
  | KEcdsaPrivate sk => Some (KEcdsaPublic (ecdsa_Public sk))
  | KEd25519Private sk => Some (KEd25519Public (ed25519_Public sk))
  | KRsaPrivate sk => Some (KRsaPublic (rsa_Public sk))
  | KMldsaPrivate p sk => Some (KMldsaPublic p (mldsa_Public p sk))
  | KSlhdsaPrivate sk => Some (KSlhdsaPublic (slhdsa_Public sk))
  | _ => None
  end.

Lemma byte_range_app l1 l2 : Forall (fun b => 0 <= b < 256) l1 -> Forall (fun b => 0 <= b < 256) l2 ->
  to_bytes (of_bytes (l1 ++ l2)) = l1 ++ l2.
Proof. intros H1 H2. apply to_of_bytes, Forall_app. done. Qed.

Lemma length_of_bytes l : String.length (of_bytes l) = length l.
Proof. induction l as [|b l IH]; [done|]. cbn. by rewrite IH. Qed.

Lemma FillBytes_some n (k : nat) l : 0 <= n -> FillBytes n k = Some l ->
  length l = k /\ Forall (fun b => 0 <= b < 256) l /\ SetBytes l = n.
Proof.
  intros Hn. unfold FillBytes. rewrite Z.abs_eq by done. destruct (Z.ltb_spec n (256 ^ Z.of_nat k)); [|done].
  intros [= <-]. split; [apply length_be_bytes|]. split; [apply be_bytes_range|]. by apply SetBytes_be_bytes.
Qed.

(** The sizes of the three ECDSA methods are those of their curves. *)
Definition curve_sized (m : SigningMethodECDSA) : Prop :=
  0 <= CurveBits m <= 8 * Z.of_nat (KeySize m) /\
  Z.to_nat (if 0 <? CurveBits m mod 8 then CurveBits m / 8 + 1 else CurveBits m / 8) = KeySize m.

Context `{HL : !CryptoLaws}.

(** What [Sign] writes is two numbers of the key size, which [Verify] reads back. *)
Lemma ecdsa_method_sign_verify m rng text sk sig :
  curve_sized m -> ecdsa_method_Sign m rng text (KEcdsaPrivate sk) = Some (Ok sig) ->
  String.length sig = (2 * KeySize m)%nat /\ ecdsa_method_Verify m text sig (KEcdsaPublic (ecdsa_Public sk)) = None.
Proof.
  intros [Hb Hk]. cbn [ecdsa_method_Sign ecdsa_method_Verify]. destruct (hash_available (ec_Hash m)); [|done]. cbn [negb].
  destruct (ecdsa_Sign rng sk _) as [[r s]|e] eqn:E; [|done]. apply ecdsa_sign_verify in E as (Hr & Hs & Hv).
  destruct (Z.eqb_spec (CurveBits m) (ecdsa_BitSize sk)) as [Hc|]; [|done]. cbn [negb]. cbv zeta. rewrite <- Hc, Hk.
  destruct (FillBytes r _) as [lr|] eqn:Er; [|done]. cbn [mbind option_bind].
  destruct (FillBytes s _) as [ls|] eqn:Es; [|done]. cbn [mbind option_bind]. intros [= <-].
  apply FillBytes_some in Er as (Lr & Fr & <-); [|lia]. apply FillBytes_some in Es as (Ls & Fs & <-); [|lia].
  rewrite length_of_bytes, length_app, byte_range_app by done. split; [lia|].
  rewrite (proj2 (Nat.eqb_eq _ _)) by lia. cbn [negb]. rewrite take_app_length', drop_app_length' by done. by rewrite Hv.
Qed.

(** The numbers fit the bytes they are written to: [FillBytes] does not panic. *)
Lemma ecdsa_method_Sign_total m rng text (k : anykey) : curve_sized m -> is_Some (ecdsa_method_Sign m rng text k).
Proof.
  intros [Hb Hk]. destruct k as [| |sk| | | | | | | |]; try by eexists. cbn [ecdsa_method_Sign].
  destruct (hash_available _); [|by eexists]. cbn [negb].
  destruct (ecdsa_Sign rng sk _) as [[r s]|e] eqn:E; [|by eexists]. apply ecdsa_sign_verify in E as (Hr & Hs & _).
  destruct (Z.eqb_spec (CurveBits m) (ecdsa_BitSize sk)) as [Hc|]; [|by eexists]. cbn [negb]. cbv zeta. rewrite <- Hc, Hk.
  rewrite <- Hc in Hr, Hs.
  assert (forall n, 0 <= n < 2 ^ CurveBits m -> FillBytes n (KeySize m) = Some (be_bytes (KeySize m) n)) as HF1.
  { intros n Hn. unfold FillBytes. rewrite Z.abs_eq by lia. rewrite (proj2 (Z.ltb_lt _ _)); [done|].
    change 256 with (2 ^ 8). rewrite <- Z.pow_mul_r by lia.
    eapply Z.lt_le_trans; [apply Hn|]. apply Z.pow_le_mono_r; lia. }
  rewrite (HF1 r Hr), (HF1 s Hs). by eexists.
Qed.

Lemma ecdsa_sized (m : SigningMethod anykey) :
  In m (method_of_ecdsa <$> [SigningMethodES256; SigningMethodES384; SigningMethodES512]) ->
  exists e, m = method_of_ecdsa e /\ curve_sized e.
Proof. clear. intros [<-|[<-|[<-|[]]]]; eexists; (split; [reflexivity|]); (split; [vm_compute; split; congruence|reflexivity]). Qed.

Lemma hmac_lifted (m : SigningMethod anykey) :
  In m (lift_method <$> [SigningMethodHS256; SigningMethodHS384; SigningMethodHS512]) ->
  exists name hash, m = lift_method (SigningMethodHMAC name hash).
Proof. clear. intros [<-|[<-|[<-|[]]]]; eexists _, _; reflexivity. Qed.

Lemma pss_auto (m : SigningMethod anykey) :
  In m (method_of_pss <$> [SigningMethodPS256; SigningMethodPS384; SigningMethodPS512]) ->
  exists r, m = method_of_pss r /\ VerifyOptions r = Some PSSSaltLengthAuto.
Proof. clear. intros [<-|[<-|[<-|[]]]]; eexists; (split; [reflexivity|done]). Qed.

Lemma library_sign_verify m sk vk :
  In m library_methods -> public_of sk = Some vk -> SignVerify m m sk vk.
Proof.
  intros Hm Hpub rng text sig Hs. unfold library_methods in Hm. rewrite !in_app_iff in Hm.
  destruct Hm as [Hm|[Hm|[Hm|[Hm|[Hm|[Hm|[Hm|Hm]]]]]]].
  - destruct (ecdsa_sized m Hm) as (e & -> & Hsz). cbn [method_Sign method_Verify method_of_ecdsa] in *.
    destruct sk; try discriminate Hs. injection Hpub as <-. f_equal. by apply (ecdsa_method_sign_verify e rng).
  - destruct Hm as [<-|[]]. cbn [method_Sign method_Verify SigningMethodEdDSA] in *.
    unfold ed25519_method_Sign in Hs. destruct (crypto_Signer sk) as [s|] eqn:E; [|done].
    destruct (signer_Public s) as [pk|] eqn:Es; [|done]. cbn [mbind option_bind] in Hs. destruct pk as [| | |pk| | | | | | |]; try done.
    pose proof (other_signers sk s pk E Es) as Ho. destruct sk as [[]| | | |sk| | | | | |]; try done. injection Hpub as <-.
    destruct (ed25519_sign_verify sk s rng text sig E) as (Hpk & Hv). destruct (Hpk _ Es) as [_ Hlen].
    cbn [ed25519_method_Verify]. rewrite Hlen, Nat.eqb_refl. cbn [negb]. by rewrite Hv.
  - apply hmac_lifted in Hm as (name & hash & ->). cbn [method_Sign method_Verify lift_method SigningMethodHMAC] in *.
    injection Hs as Hs. destruct sk as [[| | | |]| | | | | | | | | |]; try discriminate Hs; injection Hpub as <-.
    cbn [core_key hmac_Sign hmac_Verify] in *. destruct (hash_available hash); [|done]. cbn [negb] in *. injection Hs as <-.
    by rewrite String.eqb_refl.
  - apply in_map_iff in Hm as (name & <- & _). cbn [method_Sign method_Verify SigningMethodMLDSA] in *. injection Hs as Hs.
    unfold mldsa_method_Sign in Hs. unfold mldsa_method_Verify. destruct (mldsa_package name) as [p|]; [|done].
    destruct (as_mldsa_private p sk) as [sk'|] eqn:E; [|done].
    destruct (mldsa_SignTo p sk' text) as [sig'|] eqn:E2; [|done]. injection Hs as ->. apply mldsa_sign_verify in E2.
    assert (vk = KMldsaPublic p (mldsa_Public p sk')) as ->.
    { destruct p, sk as [| | | | | | | |[] sk| |]; try discriminate E; injection E as <-; by injection Hpub as <-. }
    assert (forall q pk, as_mldsa_public q (KMldsaPublic q pk) = Some pk) as -> by (by intros []).
    by rewrite E2.
  - destruct Hm as [<-|[]]. cbn [method_Sign method_Verify lift_method SigningMethodNone] in *. injection Hs as Hs.
    destruct sk as [[| | | |]| | | | | | | | | |]; try discriminate Hs; injection Hpub as <-. by injection Hs as <-.
  - apply in_map_iff in Hm as (r & <- & _). cbn [method_Sign method_Verify method_of_rsa] in *. injection Hs as Hs.
    destruct sk; try discriminate Hs. injection Hpub as <-. cbn [rsa_method_Sign rsa_method_Verify] in *.
    destruct (hash_available _); [|done]. cbn [negb] in *. f_equal. by apply (rsa_sign_verify rng).
  - destruct (pss_auto m Hm) as (r & -> & Hr). cbn [method_Sign method_Verify method_of_pss] in *. injection Hs as Hs.
    destruct sk; try discriminate Hs. injection Hpub as <-. cbn [pss_method_Sign pss_method_Verify] in *. rewrite Hr.
    destruct (hash_available _); [|done]. cbn [negb default] in *. f_equal. by eapply pss_sign_verify.
  - apply in_map_iff in Hm as (name & <- & _). cbn [method_Sign method_Verify SigningMethodSLHDSA] in *. injection Hs as Hs.
    destruct sk; try discriminate Hs. injection Hpub as <-. cbn [slhdsa_method_Sign slhdsa_method_Verify] in *.
    apply slhdsa_sign_verify in Hs. by rewrite Hs.
Qed.

Lemma ed25519_method_Sign_total rng text sk :
  String.length sk = ed25519_PrivateKeySize -> is_Some (ed25519_method_Sign rng text (KEd25519Private sk)).
Proof.
  intros Hl. unfold ed25519_method_Sign. destruct (crypto_Signer _) as [s|] eqn:E; [|by eexists].
  destruct (ed25519_sized sk s Hl E) as [[pk ->] Hs]. cbn [mbind option_bind]. destruct pk; try (by eexists); apply Hs.
Qed.

(** (C13) What a method signs it verifies under the public key, for every method of
    the registry but the FN-DSA ones: ECDSA writes the two numbers so that they are
    read back, RSA-PSS verifies with another salt option than it signs with, and the
    type assertions of the two directions fit together.  ECDSA signing never panics
    on a number that is too long for its bytes, with any key, and Ed25519 signing
    does not panic with a private key of 64 bytes. *)
Theorem library_method_verifies m sk :
  In m library_methods ->
  (forall vk, public_of sk = Some vk -> SignVerify m m sk vk) /\
  (In m (method_of_ecdsa <$> [SigningMethodES256; SigningMethodES384; SigningMethodES512]) ->
   forall rng text, is_Some (method_Sign m rng text sk)) /\
  (m = SigningMethodEdDSA -> forall key, sk = KEd25519Private key -> String.length key = ed25519_PrivateKeySize ->
   forall rng text, is_Some (method_Sign m rng text sk)).
Proof.
  intros Hm. split; [intros vk; by apply library_sign_verify|]. split.
  - intros He rng text. destruct (ecdsa_sized m He) as (e & -> & Hsz). by apply ecdsa_method_Sign_total.
  - intros -> key -> Hl rng text. by apply ed25519_method_Sign_total.
Qed.
End Methods.
