(* ===== verification/KeyProps.v ===== *)
(** Properties of the keys the services load: each algorithm gets a key of its
    own family from its own file, and a token the gateway accepts is signed under
    the key of the algorithm its header names. *)
From Stdlib Require Import ZArith Lia Ascii String.
From stdpp Require Import base numbers list strings option gmap.
From S2P Require Import Prelude Bits Codec Util Verify Flr Sign Precomputed Text Json JsonFacts Claims JwtParser JwtFacts JwtMethods JwtUtil JwtUtilFacts JwtProps CryptoMethods KeyLoad MethodProps.
Local Open Scope Z_scope.

Section Keys.
Context `{HF : F64} `{Hsh : Shake} `{Hh : Hmac} `{HKT : !KeyTypes} `{HC : !Crypto} `{HP : Pem} `{HKP : !KeyParsers} `{HFS : KeyFiles}.
Context (fuel : nat).

Definition mldsa_names : list string := ["ML-DSA-44"; "ML-DSA-65"; "ML-DSA-87"]%string.
Definition slhdsa_loaded : list string :=
  ["SLH-DSA-SHA2-128f"; "SLH-DSA-SHA2-128s"; "SLH-DSA-SHAKE-128f"; "SLH-DSA-SHAKE-128s"]%string.

Definition header_names : list string :=
  [AlgFNDSA512; "HS256"; "RS256"; "ES256"; "EdDSA"]%string ++ mldsa_names ++ slhdsa_loaded.

(** The public key of a header algorithm in a directory. *)
Definition header_key (keysDir alg : string) : result error anykey :=
  if String.eqb alg AlgFNDSA512 then result_map raw_key (load_key keysDir "FNDSA-512_pk.pem" ParseFNDSAPublicKeyFromPEM)
  else if String.eqb alg "HS256" then result_map raw_key (load_key keysDir "HS256_secret.pem" ParseFNDSAPrivateKeyFromPEM)
  else if String.eqb alg "RS256" then result_map KRsaPublic (load_key keysDir "RS256_pk.pem" ParseRSAPublicKeyFromPEM)
  else if String.eqb alg "ES256" then result_map KEcdsaPublic (load_key keysDir "ES256_pk.pem" ParseECPublicKeyFromPEM)
  else if String.eqb alg "EdDSA" then load_key keysDir "EdDSA_pk.pem" ParseEdPublicKeyFromPEM
  else if contains mldsa_names alg then load_key keysDir (alg ++ "_pk.pem") (ParseMLDSAPublicKeyFromPEM alg)
  else load_key keysDir (alg ++ "_pk.pem") (ParseSLHDSAPublicKeyFromPEM alg).

(** What a configuration of [alg] is. *)
Record loaded (keysDir alg : string) (signMode : bool) (cfg : AlgConfig (K := anykey)) : Prop := Loaded {
  ld_alg : Alg (cfg_Method cfg) = HeaderAlgForConfigAlg alg;
  ld_key : header_key keysDir (Alg (cfg_Method cfg)) = Ok (VerifyKey cfg);
  ld_family : In (Alg (cfg_Method cfg)) (family (VerifyKey cfg));
  ld_registered : exists m, GetSigningMethod (signingMethods fuel) (Alg (cfg_Method cfg)) = Some m /\
    (m = cfg_Method cfg \/ m = lift_method (SigningMethodFN512 fuel));
  ld_names : In (Alg (cfg_Method cfg)) header_names;
  ld_utf8 : valid_utf8 (Alg (cfg_Method cfg)) = true;
  ld_verify_only : signMode = false -> SignKey cfg = KCore KNil
}.

Lemma load_config_ok (m : SigningMethod anykey) vk signMode sk cfg :
  load_config m vk signMode sk = Ok cfg ->
  cfg_Method cfg = m /\ vk = Ok (VerifyKey cfg) /\ (signMode = false -> SignKey cfg = KCore KNil).
Proof.
  clear. unfold load_config. destruct vk as [vk|e]; [|done]. cbn [mbind result_bind].
  destruct signMode; [destruct sk; [|done]|]; cbn [mbind result_bind]; intros [= <-]; done.
Qed.

Lemma result_map_ok {A B} (f : A -> B) r b : result_map f r = Ok b -> exists a, r = Ok a /\ b = f a.
Proof. clear. destruct r as [a|e]; [|done]. cbn. intros [= <-]. by exists a. Qed.

(** The method of a name in the registry. *)
Lemma registered_here m : In m (registered_methods fuel) -> GetSigningMethod (signingMethods fuel) (Alg m) = Some m.
Proof. intros Hm. by apply registered_get. Qed.

(** A registered method with a key it can verify with makes a loaded configuration. *)
Lemma load_config_loaded dir alg m vk signMode sk cfg :
  In m (registered_methods fuel) -> Alg m = HeaderAlgForConfigAlg alg -> header_key dir (Alg m) = vk ->
  (forall k, vk = Ok k -> In (Alg m) (family k)) -> valid_utf8 (Alg m) = true -> In (Alg m) header_names ->
  load_config m vk signMode sk = Ok cfg -> loaded dir alg signMode cfg.
Proof.
  intros Hin Ha Hk Hf Hu Hn (E1 & E2 & Hs)%load_config_ok. rewrite E2 in Hk, Hf. constructor; rewrite ?E1; try done.
  - by apply Hf.
  - exists m. split; [by apply registered_here|by left].
Qed.

Lemma mldsa_public_family alg dir k :
  In alg mldsa_names -> load_key dir (alg ++ "_pk.pem") (ParseMLDSAPublicKeyFromPEM alg) = Ok k -> In alg (family k).
Proof.
  intros Hin. unfold load_key. destruct (readFile _ _) as [b|e]; [|done]. cbn [mbind result_bind].
  unfold ParseMLDSAPublicKeyFromPEM. destruct (pem_block b) as [bl|e]; [|done]. cbn [mbind result_bind].
  destruct Hin as [<-|[<-|[<-|[]]]]; cbn [mldsa_package String.eqb Ascii.eqb Bool.eqb];
    destruct (_ ← mldsa_UnmarshalBinaryPublicKey _ _; _); [|done| |done| |done]; intros [= <-]; by left.
Qed.

Lemma slhdsa_public_family alg dir k :
  In alg slhdsa_names -> load_key dir (alg ++ "_pk.pem") (ParseSLHDSAPublicKeyFromPEM alg) = Ok k -> In alg (family k).
Proof.
  intros Hin. unfold load_key. destruct (readFile _ _) as [b|e]; [|done]. cbn [mbind result_bind].
  unfold ParseSLHDSAPublicKeyFromPEM. destruct (pem_block b) as [bl|e]; [|done]. cbn [mbind result_bind].
  destruct (contains _ _); [|done]. destruct (slhdsa_UnmarshalBinaryPublicKey _ _) as [[]|]; try done. by intros [= <-].
Qed.

Lemma ed_public_family dir k : load_key dir "EdDSA_pk.pem" ParseEdPublicKeyFromPEM = Ok k -> In "EdDSA"%string (family k).
Proof.
  unfold load_key. destruct (readFile _ _) as [b|e]; [|done]. cbn [mbind result_bind].
  unfold ParseEdPublicKeyFromPEM. destruct (pem_block b) as [bl|e]; [|done]. cbn [mbind result_bind].
  destruct (parsed _) as [[]|]; try done. intros [= <-]. by left.
Qed.

Lemma mapped_family {A} (f : A -> anykey) alg r k :
  (forall a, In alg (family (f a))) -> result_map f r = Ok k -> In alg (family k).
Proof. intros Hf (a & _ & ->)%result_map_ok. apply Hf. Qed.

Lemma loadFNDSAPrecomputed_loaded dir alg signMode cfg :
  HeaderAlgForConfigAlg alg = AlgFNDSA512 -> loadFNDSAPrecomputed fuel dir signMode = Ok cfg -> loaded dir alg signMode cfg.
Proof.
  intros Ha. unfold loadFNDSAPrecomputed.
  destruct (load_key dir "FNDSA-512_pk.pem" ParseFNDSAPublicKeyFromPEM) as [vk|e] eqn:E; [|done]. cbn [mbind result_bind].
  destruct (if signMode then _ else _) as [signer|e]; [|done]. cbn [mbind result_bind]. intros [= <-].
  constructor; cbn [cfg_Method VerifyKey SignKey]; try done.
  - unfold header_key. cbn [lift_method Alg SigningMethodFNDSAPrecomputed]. rewrite String.eqb_refl, E. done.
  - cbn. tauto.
  - exists (lift_method (SigningMethodFN512 fuel)). split; [|by right].
    refine (registered_here (lift_method (SigningMethodFN512 fuel)) _). cbn. tauto.
  - cbn. tauto.
Qed.

Lemma contains_In l a : contains l a = true -> In a l.
Proof. unfold contains. rewrite existsb_exists. by intros (x & Hx & ->%String.eqb_eq). Qed.

Lemma LoadAlgConfig_loaded dir alg signMode cfg :
  LoadAlgConfig fuel dir alg signMode = Ok cfg -> loaded dir alg signMode cfg.
Proof.
  unfold LoadAlgConfig.
  destruct (contains ["FN-DSA-512"; "Falcon-512"]%string alg) eqn:E1.
  { apply contains_In in E1. apply load_config_loaded; [cbn; tauto|by destruct E1 as [<-|[<-|[]]]|done| |done|cbn; tauto].
    intros k; apply mapped_family; intros a; cbn; tauto. }
  destruct (contains ["FN-DSA-Precomputed-512"; "Falcon-Precomputed-512"]%string alg) eqn:E2.
  { apply contains_In in E2. apply loadFNDSAPrecomputed_loaded. by destruct E2 as [<-|[<-|[]]]. }
  destruct (contains ["ML-DSA-44"; "ML-DSA-65"; "ML-DSA-87"]%string alg) eqn:E3.
  { apply contains_In in E3. unfold loadMLDSA. pose proof (fun k => mldsa_public_family alg dir k E3) as Hf.
    apply load_config_loaded; destruct E3 as [<-|[<-|[<-|[]]]]; first [done|exact Hf|cbn; tauto]. }
  destruct (contains ["SLH-DSA-SHA2-128f"; _; _; _]%string alg) eqn:E4.
  { unfold loadSLHDSA. rewrite E4. apply contains_In in E4.
    assert (In alg slhdsa_names) as E5 by (destruct E4 as [<-|[<-|[<-|[<-|[]]]]]; cbn; tauto).
    pose proof (fun k => slhdsa_public_family alg dir k E5) as Hf.
    apply load_config_loaded; destruct E4 as [<-|[<-|[<-|[<-|[]]]]]; first [done|exact Hf|cbn; tauto]. }
  clear E1 E2 E3 E4.
  destruct (String.eqb_spec alg "ES256") as [->|_].
  { apply load_config_loaded; [cbn; tauto|done|done| |done|cbn; tauto]. intros k; apply mapped_family; intros a; cbn; tauto. }
  destruct (String.eqb_spec alg "RS256") as [->|_].
  { apply load_config_loaded; [cbn; tauto|done|done| |done|cbn; tauto]. intros k; apply mapped_family; intros a; cbn; tauto. }
  destruct (String.eqb_spec alg "HS256") as [->|_].
  { unfold loadHMAC. destruct (load_key _ _ _) as [s|e] eqn:E; [|done]. cbn [mbind result_bind]. intros [= <-].
    constructor; cbn [cfg_Method VerifyKey SignKey]; try done.
    - change (result_map raw_key (load_key dir "HS256_secret.pem" ParseFNDSAPrivateKeyFromPEM) = Ok (raw_key s)). by rewrite E.
    - cbn. tauto.
    - exists (lift_method SigningMethodHS256). split; [|by left]. apply registered_here. cbn. tauto.
    - cbn. tauto.
    - by intros ->. }
  destruct (String.eqb_spec alg "EdDSA") as [->|_]; [|done].
  apply load_config_loaded; [cbn; tauto|done|done| |done|cbn; tauto]. apply ed_public_family.
Qed.

(** ** All configurations *)

Lemma load_into_ok dir algs signMode cs out :
  load_into fuel dir algs signMode cs = Ok out ->
  (forall n cfg, out !! n = Some cfg -> cs !! n = Some cfg \/ In n algs /\ LoadAlgConfig fuel dir n signMode = Ok cfg) /\
  (forall n, In n algs \/ is_Some (cs !! n) -> is_Some (out !! n)).
Proof.
  revert cs. induction algs as [|a algs IH]; intros cs; cbn [load_into].
  - intros [= ->]. split; [by left|]. by intros n [[]|].
  - destruct (LoadAlgConfig fuel dir a signMode) as [cfg|e] eqn:E; [|done]. intros [H1 H2]%IH. split.
    + intros n c Hn. apply H1 in Hn as [Hn|[Hin Hl]]; [|right; split; [by right|done]].
      apply lookup_insert_Some in Hn as [[<- <-]|[_ Hn]]; [right; split; [by left|done]|by left].
    + intros n Hn. apply H2. destruct (decide (a = n)) as [->|Hne]; [right; rewrite lookup_insert_eq; by eexists|].
      rewrite lookup_insert_ne by done. destruct Hn as [[?|?]|?]; [done|by left|by right].
Qed.

Lemma LoadAllAlgConfigs_ok dir algs signMode out n :
  LoadAllAlgConfigs fuel dir algs signMode = Ok out ->
  (forall cfg, out !! n = Some cfg -> In n algs /\ LoadAlgConfig fuel dir n signMode = Ok cfg) /\
  (In n algs -> is_Some (out !! n)).
Proof.
  intros [H1 H2]%load_into_ok. split; [|by eauto]. intros cfg Hn. apply H1 in Hn as [Hn|?]; [|done].
  assert ((∅ : gmap string (AlgConfig (K := anykey))) !! n = None) as E by reflexivity. congruence.
Qed.

(** ** Signatures behind tokens *)

Inductive signed_by (dir text sig : string) : string -> Prop :=
  | by_FNDSA pk : load_key dir "FNDSA-512_pk.pem" ParseFNDSAPublicKeyFromPEM = Ok pk ->
      Verify.Verify fuel (to_bytes pk) [] SHA3_256 (to_bytes text) (to_bytes sig) = Some true ->
      signed_by dir text sig AlgFNDSA512
  | by_HMAC secret : load_key dir "HS256_secret.pem" ParseFNDSAPrivateKeyFromPEM = Ok secret ->
      sig = hmac_sum SHA256 secret text -> signed_by dir text sig "HS256"
  | by_RSA pk : load_key dir "RS256_pk.pem" ParseRSAPublicKeyFromPEM = Ok pk ->
      rsa_VerifyPKCS1v15 pk SHA256 (hash_sum SHA256 text) sig = None -> signed_by dir text sig "RS256"
  | by_ECDSA pk : load_key dir "ES256_pk.pem" ParseECPublicKeyFromPEM = Ok pk -> String.length sig = 64%nat ->
      ecdsa_Verify pk (hash_sum SHA256 text) (SetBytes (take 32 (to_bytes sig))) (SetBytes (drop 32 (to_bytes sig))) = true ->
      signed_by dir text sig "ES256"
  | by_EdDSA pk : load_key dir "EdDSA_pk.pem" ParseEdPublicKeyFromPEM = Ok (KEd25519Public pk) ->
      ed25519_Verify pk text sig = true -> signed_by dir text sig "EdDSA"
  | by_MLDSA alg p pk : mldsa_package alg = Some p ->
      load_key dir (alg ++ "_pk.pem") (ParseMLDSAPublicKeyFromPEM alg) = Ok (KMldsaPublic p pk) ->
      mldsa_Verify p pk text sig = true -> signed_by dir text sig alg
  | by_SLHDSA alg pk : In alg slhdsa_loaded ->
      load_key dir (alg ++ "_pk.pem") (ParseSLHDSAPublicKeyFromPEM alg) = Ok (KSlhdsaPublic pk) ->
      slhdsa_Verify pk text sig = true -> signed_by dir text sig alg.

(** The method found under a name is the one registered under it. *)
Lemma found_method n m m' :
  GetSigningMethod (signingMethods fuel) n = Some m -> In m' (registered_methods fuel) -> Alg m' = n -> m = m'.
Proof. intros Hm Hin <-. rewrite registered_here in Hm by done. by injection Hm. Qed.

Ltac found_as H m' := apply (found_method _ _ m') in H as ->; [|cbn; tauto|reflexivity].

Lemma verified_signed_by dir text sig n m k :
  In n header_names -> header_key dir n = Ok k -> GetSigningMethod (signingMethods fuel) n = Some m ->
  method_Verify m text sig k = Some None -> signed_by dir text sig n.
Proof.
  intros Hn Hk Hm Hv. unfold header_names in Hn. rewrite !in_app_iff in Hn. destruct Hn as [Hn|[Hn|Hn]].
  - destruct Hn as [<-|[<-|[<-|[<-|[<-|[]]]]]].
    + found_as Hm (lift_method (SigningMethodFN512 fuel)). apply result_map_ok in Hk as (pk & Hl & ->).
      apply fndsa_Verify_none in Hv as (b & [= <-] & Hv). by econstructor.
    + found_as Hm (lift_method SigningMethodHS256). apply result_map_ok in Hk as (pk & Hl & ->).
      injection Hv as Hv. apply (hmac_Verify_none SHA256 text sig (KBytes pk)) in Hv as (b & [= <-] & _ & Hv). by econstructor.
    + found_as Hm (method_of_rsa SigningMethodRS256). apply result_map_ok in Hk as (pk & Hl & ->).
      injection Hv as Hv. cbn [rsa_method_Verify] in Hv. destruct (negb _); [done|]. by econstructor.
    + found_as Hm (method_of_ecdsa SigningMethodES256). apply result_map_ok in Hk as (pk & Hl & ->).
      change (Some (ecdsa_method_Verify SigningMethodES256 text sig (KEcdsaPublic pk)) = Some None) in Hv.
      apply (inj Some) in Hv. cbn [ecdsa_method_Verify] in Hv.
      destruct (Nat.eqb_spec (String.length sig) (2 * KeySize SigningMethodES256)); [|done]. cbn [negb] in Hv. destruct (negb _); [done|]. destruct (ecdsa_Verify _ _ _ _) eqn:E; [|done]. by econstructor.
    + found_as Hm SigningMethodEdDSA. injection Hv as Hv. unfold ed25519_method_Verify in Hv. destruct k; try done.
      destruct (negb _); [done|]. destruct (ed25519_Verify _ _ _) eqn:E; [|done]. by econstructor.
  - assert (m = SigningMethodMLDSA n) as ->
      by (destruct Hn as [<-|[<-|[<-|[]]]]; eapply found_method; [exact Hm|cbn; tauto|done|exact Hm|cbn; tauto|done|exact Hm|cbn; tauto|done]).
    clear Hm. assert (load_key dir (n ++ "_pk.pem") (ParseMLDSAPublicKeyFromPEM n) = Ok k) as Hl
      by (by destruct Hn as [<-|[<-|[<-|[]]]]).
    injection Hv as Hv. unfold mldsa_method_Verify in Hv. destruct (mldsa_package n) as [p|] eqn:Ep; [|done].
    destruct (as_mldsa_public p k) as [pk|] eqn:Ek; [|done]. destruct (mldsa_Verify p pk text sig) eqn:E; [|done].
    apply (by_MLDSA _ _ _ n p pk); [done| |done]. rewrite Hl. f_equal. clear - Ek.
    destruct p, k as [| | | | | | |[] k| | |]; try discriminate Ek; by injection Ek as ->.
  - assert (m = SigningMethodSLHDSA n) as ->
      by (destruct Hn as [<-|[<-|[<-|[<-|[]]]]]; eapply found_method;
          [exact Hm|cbn; tauto|done|exact Hm|cbn; tauto|done|exact Hm|cbn; tauto|done|exact Hm|cbn; tauto|done]).
    clear Hm. assert (load_key dir (n ++ "_pk.pem") (ParseSLHDSAPublicKeyFromPEM n) = Ok k) as Hl
      by (by destruct Hn as [<-|[<-|[<-|[<-|[]]]]]).
    injection Hv as Hv. destruct k; try done. cbn [slhdsa_method_Verify] in Hv. destruct (slhdsa_Verify _ _ _) eqn:E; [|done].
    by apply (by_SLHDSA _ _ _ n k).
Qed.

(** (C32) A configuration the loader returns fits together: its method has the name
    of the algorithm in token headers, its verification key is the one of that
    name, which no other algorithm shares a file with, and is of a type the method
    of the registry accepts; without signing mode it holds no signing key. *)
Theorem loaded_config_fits dir alg signMode cfg :
  LoadAlgConfig fuel dir alg signMode = Ok cfg ->
  Alg (cfg_Method cfg) = HeaderAlgForConfigAlg alg /\
  header_key dir (HeaderAlgForConfigAlg alg) = Ok (VerifyKey cfg) /\
  In (HeaderAlgForConfigAlg alg) (family (VerifyKey cfg)) /\
  (exists m, GetSigningMethod (signingMethods fuel) (HeaderAlgForConfigAlg alg) = Some m) /\
  (signMode = false -> SignKey cfg = KCore KNil).
Proof.
  intros [Ha Hk Hf (m & Hm & _) _ _ Hv]%LoadAlgConfig_loaded. rewrite Ha in *.
  split; [done|]. split; [done|]. split; [done|]. split; [by exists m|done].
Qed.

(** ** The gateway *)

Context `{HU : UUID} `{HFc : FloatConv}.

(** The configurations of a parser that were loaded from a directory. *)
Definition loaded_from (dir : string) (signMode : bool) (m : multiAlgJwtUtil (K := anykey)) : Prop :=
  forall n cfg, configs m !! n = Some cfg -> loaded dir n signMode cfg.

Lemma gateway_loaded keysDir dflt iss aud dur algs m :
  gateway_jwt fuel keysDir dflt iss aud dur algs = Ok m ->
  loaded_from (or_default keysDir "./keys") false m /\ m_issuer m = iss /\ m_audience m = aud /\
  forall n, In n algs -> is_Some (configs m !! n).
Proof.
  unfold gateway_jwt. destruct (LoadAllAlgConfigs _ _ _ _) as [cs|e] eqn:E; [|done]. cbn [mbind result_bind]. intros [= <-].
  split; [|split; [done|split; [done|]]].
  - intros n cfg Hn. destruct (LoadAllAlgConfigs_ok _ _ _ _ n E) as [E' _]. by apply LoadAlgConfig_loaded, E'.
  - intros n Hn. by apply (LoadAllAlgConfigs_ok _ _ _ _ n E).
Qed.

Lemma auth_loaded keysDir dflt iss aud dur algs m :
  auth_jwt fuel keysDir dflt iss aud dur algs = Ok m ->
  loaded_from (or_default keysDir "./keys") true m /\ m_issuer m = iss /\ m_audience m = aud /\ m_duration m = dur /\
  forall n, In n algs <-> is_Some (configs m !! n).
Proof.
  unfold auth_jwt. destruct (LoadAllAlgConfigs _ _ _ _) as [cs|e] eqn:E; [|done]. cbn [mbind result_bind]. intros [= <-].
  split; [|split; [done|split; [done|split; [done|]]]].
  - intros n cfg Hn. destruct (LoadAllAlgConfigs_ok _ _ _ _ n E) as [E' _]. by apply LoadAlgConfig_loaded, E'.
  - intros n. destruct (LoadAllAlgConfigs_ok _ _ _ _ n E) as [E' E2]. split; [exact E2|]. intros [cfg Hn]. by apply (E' cfg).
Qed.

(** Keys of one algorithm come from one file. *)
Lemma loaded_one_key dir signMode m : loaded_from dir signMode m -> one_key_per_alg m.
Proof.
  intros Hl n n' c c' Hn Hn' Ha. apply Hl, ld_key in Hn. apply Hl, ld_key in Hn'. rewrite Ha, Hn' in Hn. by injection Hn as ->.
Qed.

(** (C7) The keys behind a token: whatever algorithms the gateway is configured
    with, a token it accepts carries a signature that verifies, under the algorithm
    its header names, with the public key in the file of that algorithm.  A token
    cannot choose the key, and no key serves another algorithm: the FN-DSA public
    key, a byte slice like the HMAC secret, is never the secret of an HMAC. *)
Theorem gateway_token_is_signed keysDir dflt iss aud dur algs m o o' clock token claims :
  gateway_jwt fuel keysDir dflt iss aud dur algs = Ok m -> o' ≡ₚ map_to_list (configs m) ->
  multi_Parse (signingMethods fuel) m o o' clock token = Some (Ok claims) ->
  exists t h c s alg,
    ParseUnverified (signingMethods fuel) (NewParser (parserOptions iss aud (allowedHeaderAlgs o))) token zero_claims
      = Ok (t, (h, c, s)) /\
    Header t !! "alg"%string = Some (AString alg) /\ In alg (HeaderAlgForConfigAlg <$> algs) /\
    signed_by (or_default keysDir "./keys") (h ++ "." ++ c) (Signature t) alg.
Proof.
  intros Hm Ho Hp. pose proof (gateway_loaded _ _ _ _ _ _ _ Hm) as (Hl & Hi & Ha & _). unfold multi_Parse in Hp.
  apply parse_token_ok in Hp as [_ (t & h & c & got & Hun & Hv & _ & _ & Hk & Hver & _) _].
  destruct (configForHeaderAlg o' (Alg (token_Method t))) as [cfg|] eqn:Ec; [|done]. injection Hk as <-.
  apply (configForHeaderAlg_some m) in Ec as (n & Hn & Halg); [|done].
  destruct (un_method _ _ _ _ _ _ _ Hun) as (alg & Hhd & Hg).
  destruct (un_split _ _ _ _ _ _ _ Hun) as (s & Hs & _).
  assert (Alg (token_Method t) = alg) as Hname by (exact (proj2 (proj1 (registered_get _ _ _) Hg))).
  exists t, h, c, s, alg. rewrite Hi, Ha in Hun. split; [apply ParseUnverified_ok; exact (conj Hun (conj Hv Hs))|]. split; [exact Hhd|].
  pose proof (Hl n cfg Hn) as HL. split.
  - unfold gateway_jwt in Hm. destruct (LoadAllAlgConfigs _ _ _ _) as [cs|e] eqn:E; [|discriminate Hm].
    cbn [mbind result_bind] in Hm. injection Hm as <-. cbn [configs NewMultiAlgJwtUtil] in Hn.
    destruct (LoadAllAlgConfigs_ok _ _ _ _ n E) as [E' _]. apply E' in Hn as [Hin _].
    rewrite <- Hname, <- Halg, (ld_alg _ _ _ _ HL). by apply in_map.
  - rewrite Hname in Halg. rewrite <- Halg. eapply verified_signed_by; [apply HL|apply HL| |exact Hver]. by rewrite Halg.
Qed.

(** ** Signing in one service, verifying in the other *)

(** What the pairs of key files have to satisfy: a verification key matches its
    signing key.  HMAC has one file for both; for FN-DSA the promise is that of
    the signature scheme, whose signer may sit in the method. *)
Definition keys_match (cfg : AlgConfig (K := anykey)) : Prop :=
  if String.eqb (Alg (cfg_Method cfg)) AlgFNDSA512
  then SignVerify (cfg_Method cfg) (lift_method (SigningMethodFN512 fuel)) (SignKey cfg) (VerifyKey cfg)
  else public_of (SignKey cfg) = Some (VerifyKey cfg).

Lemma loaded_sign_verify `{!CryptoLaws} dir n signMode cfg m :
  loaded dir n signMode cfg -> keys_match cfg -> GetSigningMethod (signingMethods fuel) (Alg (cfg_Method cfg)) = Some m ->
  SignVerify (cfg_Method cfg) m (SignKey cfg) (VerifyKey cfg).
Proof.
  intros HL Hm Hg. unfold keys_match in Hm. destruct (String.eqb_spec (Alg (cfg_Method cfg)) AlgFNDSA512) as [E|E].
  - rewrite E in Hg. by found_as Hg (lift_method (SigningMethodFN512 fuel)).
  - destruct (ld_registered _ _ _ _ HL) as (m' & Hg' & Hor). rewrite Hg in Hg'. injection Hg' as <-.
    pose proof (proj1 (registered_get _ _ _) Hg) as [Hin Ha].
    assert (m = cfg_Method cfg) as -> by (clear Hg; destruct Hor as [|Ef]; [done|]; rewrite Ef in Ha; by rewrite <- Ha in E).
    apply library_sign_verify; [|done]. unfold registered_methods in Hin. apply in_app_iff in Hin as [|Hin]; [done|].
    destruct Hin as [Hin|[Hin|[]]]; rewrite <- Hin in *; [by destruct E|].
    pose proof (ld_names _ _ _ _ HL) as Hn. rewrite <- Hin in Hn. vm_compute in Hn. intuition discriminate.
Qed.

Lemma configForSignAlg_some (m : multiAlgJwtUtil (K := anykey)) o a c :
  o ≡ₚ map_to_list (configs m) -> configForSignAlg m o a = Some c -> exists n, configs m !! n = Some c.
Proof.
  intros Ho. unfold configForSignAlg. destruct (configs m !! a) as [c'|] eqn:E; [intros [= <-]; by exists a|].
  destruct (String.eqb a _); [|done]. intros H. apply (configForHeaderAlg_some m) in H as (n & Hn & _); [|done]. by exists n.
Qed.

(** The algorithm a payload asks for. *)
Definition requested (m : multiAlgJwtUtil (K := anykey)) (alg : string) : string :=
  if String.eqb alg "" then defaultAlg m else alg.

Lemma cross_service_at `{!UUIDLaws} `{!CryptoLaws} keysDir dfltA dfltG iss aud dur algsA algsG ma mg oa og og' ff now jti rng p s clock :
  auth_jwt fuel keysDir dfltA iss aud dur algsA = Ok ma ->
  gateway_jwt fuel keysDir dfltG iss aud dur algsG = Ok mg -> incl algsA algsG ->
  oa ≡ₚ map_to_list (configs ma) -> og ≡ₚ map_to_list (configs mg) -> og' ≡ₚ map_to_list (configs mg) ->
  (forall cfg, configForSignAlg ma oa (requested ma (p_Algorithm p)) = Some cfg -> keys_match cfg) ->
  issuable iss aud dur now jti p -> live dur now clock ->
  multi_Sign ff ma oa now jti rng p = Some (Ok s) -> (String.length s <= maxJWTCompactBytes)%nat ->
  multi_Parse (signingMethods fuel) mg og og' clock s = Some (Ok (issued_claims iss aud dur now jti p)).
Proof.
  intros Ea Eg Hincl Hoa Hog Hog' Hkeys Hiss Hlive Hs Hlen.
  apply auth_loaded in Ea as (Hla & Hai & Haa & Had & Hin). apply gateway_loaded in Eg as (Hlg & Hgi & Hga & Hall).
  unfold multi_Sign in Hs. cbv zeta in Hs. rewrite Hai, Haa, Had in Hs. change (if String.eqb _ _ then _ else _) with (requested ma (p_Algorithm p)) in Hs.
  destruct (configForSignAlg ma oa _) as [cfg|] eqn:Ec; [|done]. specialize (Hkeys cfg eq_refl).
  apply configForSignAlg_some in Ec as [n Hn]; [|done].
  pose proof (Hla n cfg Hn) as HL. destruct (ld_registered _ _ _ _ HL) as (v & Hg & _).
  assert (Alg v = Alg (cfg_Method cfg)) as Hav by (by apply registered_get in Hg as [_ ?]).
  destruct (Hall n (Hincl _ (proj2 (Hin n) (ex_intro _ cfg Hn)))) as [cg Hcg]. pose proof (Hlg n cg Hcg) as HG.
  assert (Alg (cfg_Method cg) = Alg v) as Hcv by (by rewrite Hav, (ld_alg _ _ _ _ HL), (ld_alg _ _ _ _ HG)).
  pose proof (loaded_sign_verify _ _ _ _ v HL Hkeys Hg) as Hsv.
  unfold multi_Parse. rewrite Hgi, Hga.
  apply (sign_parses (signingMethods fuel) ff (cfg_Method cfg) v (SignKey cfg) (VerifyKey cfg) _ _ _ now jti p _ clock rng);
    [exact Hiss|exact Hs|exact Hg| | | |exact Hlen|exact Hlive].
  - unfold allowedHeaderAlgs. rewrite header_algs_spec. split; [by intros []|]. exists (n, cg). split; [|done].
    apply list_elem_of_In. rewrite Hog. by apply elem_of_map_to_list.
  - by apply (ld_utf8 _ _ _ _ HL).
  - intros t Ht. rewrite Ht. destruct (configForHeaderAlg og' (Alg v)) as [c'|] eqn:E'.
    + apply (configForHeaderAlg_some mg) in E' as (n' & Hn' & Ha'); [|done]. apply Hlg, ld_key in Hn'.
      pose proof (ld_key _ _ _ _ HL) as Hkey. rewrite Ha', Hav, Hkey in Hn'. by injection Hn' as ->.
    + exfalso. unfold configForHeaderAlg in E'. destruct (find _ og') eqn:Ef; [done|].
      apply elem_of_map_to_list in Hcg. rewrite <- Hog' in Hcg. apply list_elem_of_In in Hcg.
      apply (find_none _ _ Ef) in Hcg. cbn in Hcg. rewrite Hcv in Hcg. by rewrite String.eqb_refl in Hcg.
Qed.

Lemma cross_service `{!UUIDLaws} `{!CryptoLaws} keysDir dfltA dfltG iss aud dur algsA algsG ma mg oa og og' ff now jti rng p s clock :
  auth_jwt fuel keysDir dfltA iss aud dur algsA = Ok ma ->
  gateway_jwt fuel keysDir dfltG iss aud dur algsG = Ok mg -> incl algsA algsG ->
  oa ≡ₚ map_to_list (configs ma) -> og ≡ₚ map_to_list (configs mg) -> og' ≡ₚ map_to_list (configs mg) ->
  map_Forall (fun _ => keys_match) (configs ma) ->
  issuable iss aud dur now jti p -> live dur now clock ->
  multi_Sign ff ma oa now jti rng p = Some (Ok s) -> (String.length s <= maxJWTCompactBytes)%nat ->
  multi_Parse (signingMethods fuel) mg og og' clock s = Some (Ok (issued_claims iss aud dur now jti p)).
Proof.
  intros Ea Eg Hincl Hoa Hog Hog' Hkeys. eapply cross_service_at; [done..|].
  intros cfg (n & Hn)%configForSignAlg_some; [by apply (Hkeys n)|done].
Qed.

(** What a set of algorithms can be asked for: one of them, or the name in
    headers of one of them. *)
Definition offers (algs : list string) (alg : string) : Prop :=
  In alg algs \/ HeaderAlgForConfigAlg alg = alg /\ In alg (HeaderAlgForConfigAlg <$> algs).

Lemma offers_config dir signMode algs (m : multiAlgJwtUtil (K := anykey)) o a :
  loaded_from dir signMode m -> (forall n, In n algs <-> is_Some (configs m !! n)) -> o ≡ₚ map_to_list (configs m) ->
  offers algs a <-> is_Some (configForSignAlg m o a).
Proof.
  intros Hl Hd Ho. unfold offers, configForSignAlg. rewrite (Hd a). destruct (configs m !! a) as [c|] eqn:E.
  { split; intros _; [by eexists|left; by eexists]. }
  destruct (String.eqb_spec a (HeaderAlgForConfigAlg a)) as [Ha|Ha]; [|split; [|by intros [? [=]]]; intros [[? [=]]|[? _]]; congruence].
  split.
  - intros [[? [=]]|[_ Hin]]. apply list_elem_of_In, list_elem_of_fmap in Hin as (n & -> & Hn). apply list_elem_of_In, Hd in Hn as [c Hn].
    unfold configForHeaderAlg. destruct (find _ o) as [[n' c']|] eqn:Ef; [by eexists|]. exfalso.
    assert (In (n, c) o) as Hin by (apply list_elem_of_In; rewrite Ho; by apply elem_of_map_to_list).
    apply (find_none _ _ Ef) in Hin. cbn in Hin. rewrite (ld_alg _ _ _ _ (Hl _ _ Hn)) in Hin. by rewrite String.eqb_refl in Hin.
  - intros [c Hc]. right. split; [done|]. apply (configForHeaderAlg_some m) in Hc as (n & Hn & Halg); [|done].
    rewrite <- Halg, (ld_alg _ _ _ _ (Hl _ _ Hn)). apply list_elem_of_In, list_elem_of_fmap. exists n. split; [done|].
    apply list_elem_of_In, Hd. by eexists.
Qed.

(** The configuration found under a name is for the header of that name. *)
Lemma configForSignAlg_header dir signMode (m : multiAlgJwtUtil (K := anykey)) o a c :
  loaded_from dir signMode m -> o ≡ₚ map_to_list (configs m) -> configForSignAlg m o a = Some c ->
  exists n, configs m !! n = Some c /\ HeaderAlgForConfigAlg n = HeaderAlgForConfigAlg a.
Proof.
  intros Hl Ho. unfold configForSignAlg. destruct (configs m !! a) as [c'|] eqn:E; [intros [= <-]; by exists a|].
  destruct (String.eqb_spec a (HeaderAlgForConfigAlg a)) as [Ha|]; [|done]. intros H.
  apply (configForHeaderAlg_some m) in H as (n & Hn & Hc); [|done]. exists n. split; [done|].
  by rewrite <- (ld_alg _ _ _ _ (Hl _ _ Hn)), Hc.
Qed.

(** (C8) The two services agree: a token the auth service issues, whatever
    algorithm it is asked for, is accepted by a gateway that loads the same
    directory and at least the same algorithms, while it is live, in any order of
    the maps, with the claims it was issued for. *)
Theorem services_agree `{!UUIDLaws} `{!CryptoLaws} keysDir dfltA dfltG iss aud dur algsA algsG ma mg oa og og' ff now jti rng p s clock :
  auth_jwt fuel keysDir dfltA iss aud dur algsA = Ok ma ->
  gateway_jwt fuel keysDir dfltG iss aud dur algsG = Ok mg -> incl algsA algsG ->
  oa ≡ₚ map_to_list (configs ma) -> og ≡ₚ map_to_list (configs mg) -> og' ≡ₚ map_to_list (configs mg) ->
  map_Forall (fun _ => keys_match) (configs ma) ->
  issuable iss aud dur now jti p -> live dur now clock ->
  multi_Sign ff ma oa now jti rng p = Some (Ok s) -> (String.length s <= maxJWTCompactBytes)%nat ->
  multi_Parse (signingMethods fuel) mg og og' clock s = Some (Ok (issued_claims iss aud dur now jti p)).
Proof. apply cross_service. Qed.
End Keys.
