(* ===== verification/GenFndsa.v ===== *)
(** The FN-DSA pair as key files: what a pair of byte strings has to satisfy so
    that the signing methods built on the private half are checked by the public
    half, and which part of it every pair of [KeyGen] has. *)
From Stdlib Require Import ZArith Lia Ascii String.
From stdpp Require Import base numbers list strings option gmap.
From S2P Require Import Prelude Bits Codec Util Verify Flr Sign Signature Precomputed KeyGen Text Claims JwtParser JwtFacts JwtMethods JwtUtil JwtUtilFacts CryptoMethods KeyLoad.
Local Open Scope Z_scope.

Section Pair.
Context `{HF : F64} `{Hsh : Shake} {Hlaws : ShakeLaws} `{Hh : Hmac} `{HKT : !KeyTypes} `{HC : !Crypto}.
Context (fuel : nat).

(** The accuracy asked of the floating-point code ([sign_then_verify]), for every
    message of the signing methods. *)
Definition samples_lattice (k : signing_key) : Prop := forall seed counter data c z0 z1,
  hash_to_point fuel (sk_logn k) (fst (sign_seeds seed counter)) (sk_hashed_vk k) [] SHA3_256 data
    (replicate (degree (sk_logn k)) 0) = Some (Ok c) ->
  sign_point fuel k c (snd (sign_seeds seed counter)) = Some (z0, z1) ->
  on_lattice (sk_logn k) (sk_h k) z0 z1 /\ exists i, (i < degree (sk_logn k))%nat /\ z1.[i] <> 0.

(** A private half a service starts with. *)
Record fndsa_starts (skey : list Z) : Prop := Starts {
  fs_bytes : Forall is_byte skey;
  fs_signer : exists ps, NewPrecomputedSigner skey = Ok ps
}.

(** A pair whose signatures are accepted. *)
Record fndsa_ready (skey vkey : list Z) : Prop := Ready {
  fr_bytes : Forall is_byte skey;
  fr_key : exists k, sign_load 9 10 skey = Ok k /\ vkey = key_of k /\ samples_lattice k
}.

Lemma emitted_bytes k ctx id data seed counter sig :
  (sk_logn k <= 10)%nat -> emitted fuel k ctx id data seed counter sig -> Forall is_byte sig.
Proof using Hlaws.
  intros Hl (c & z0 & z1 & s2 & e & _ & _ & _ & _ & _ & -> & _ & Hb & _). pose proof (sign_seeds_spec seed counter) as Hs.
  destruct (sign_seeds seed counter) as [nonce sub]. destruct Hs. constructor; [unfold is_byte; lia|]. by apply Forall_app_2.
Qed.

(** A signature passes through the strings of the methods. *)
Lemma ready_checks skey vkey seed data sig : fndsa_ready skey vkey ->
  sign_inner_seeded fuel 9 10 seed skey [] SHA3_256 data = Some (Ok sig) ->
  Verify.Verify fuel (to_bytes (of_bytes vkey)) [] SHA3_256 data (to_bytes (of_bytes sig)) = Some true.
Proof using Hlaws.
  intros [Hb (k & El & -> & Hacc)] Hs. apply sign_inner_emitted in Hs as (k' & counter & Ek & Hl & Hk & _ & He); [|lia|lia|done].
  rewrite El in Ek. injection Ek as <-. pose proof (ko_h _ _ _ _ _ Hk) as Hh'.
  rewrite !to_of_bytes; [|by apply (emitted_bytes k) in He; [|lia]|apply key_of_bytes; [lia|done]].
  apply (emitted_verifies fuel 9 10) in He as (c & z0 & z1 & Hc & Hp & Hv); [|lia|lia|done|done].
  by apply Hv; apply (Hacc _ _ _ _ _ _ Hc Hp).
Qed.

(** Both methods sign for the one that verifies. *)
Lemma ready_plain skey vkey : fndsa_ready skey vkey ->
  SignVerify (lift_method (SigningMethodFN512 fuel)) (lift_method (SigningMethodFN512 fuel)) (raw_key (of_bytes skey)) (raw_key (of_bytes vkey)).
Proof using Hlaws.
  intros Hr rng text sig. cbn. rewrite (to_of_bytes skey) by apply Hr. unfold Sign.Sign, sign_inner.
  destruct rng as [seed|e]; [|done]. cbn [mbind option_bind].
  destruct (sign_inner_seeded _ _ _ _ _ _ _ _) as [[s|e]|] eqn:E; [|done..]. intros [= <-].
  unfold fndsa_check. by rewrite (ready_checks skey vkey seed _ s Hr E).
Qed.

Lemma ready_precomputed skey vkey ps : fndsa_ready skey vkey -> NewPrecomputedSigner skey = Ok ps ->
  SignVerify (lift_method (SigningMethodFNDSAPrecomputed fuel AlgFNDSA512 (Some ps))) (lift_method (SigningMethodFN512 fuel)) (KCore KNil) (raw_key (of_bytes vkey)).
Proof using Hlaws.
  intros Hr Hps rng text sig.
  change (method_Sign _ rng text _) with (precomputed_Sign fuel AlgFNDSA512 (Some ps) rng text KNil).
  change (method_Verify _ text sig _) with (fndsa_check fuel (of_bytes vkey) text sig ErrFNDSASignatureInvalid).
  unfold precomputed_Sign. destruct (signerForKey _ _ _) as [ps'|e] eqn:Es; [|intros H; discriminate H].
  assert (ps' = ps) as ->.
  { unfold signerForKey in Es. cbn [mbind result_bind] in Es. destruct (validateSigner _ _); congruence. }
  clear Es. unfold Signer_Sign. destruct (negb _); [intros H; discriminate H|].
  destruct rng as [seed|e]; [|intros H; discriminate H]. apply constructor_ok in Hps as (k & El & -> & _).
  rewrite (expanded_signs fuel 9 10 skey k) by (first [lia|apply Hr|exact El]).
  destruct (sign_inner_seeded _ _ _ _ _ _ _ _) as [[s|e]|] eqn:E; [|intros H; discriminate H..]. intros [= <-].
  unfold fndsa_check. by rewrite (ready_checks skey vkey seed _ s Hr E).
Qed.

(** A pair of [KeyGen] is ready once its points are accurate, and lets a service
    start once no leaf of its tree is zero. *)
Lemma keygen_ready rng skey vkey : KeyGen fuel 9 rng = Some (Ok (skey, vkey)) ->
  exists k, sign_load 9 10 skey = Ok k /\ (samples_lattice k -> fndsa_ready skey vkey) /\
    (isValid (precomputed_expand k) = true -> fndsa_starts skey).
Proof using Hlaws.
  intros HK. apply (keygen_delivers 9 10) in HK as (f & g & F & G & _ & _ & Hfit & Hb & Hload); [|lia..].
  destruct (Hload (Hfit ltac:(lia))) as (h & hvk & El & Ev & _). eexists. split; [exact El|]. split.
  - intros Ha. constructor; [exact Hb|]. eexists. split; [exact El|]. by split.
  - intros Hv. constructor; [exact Hb|]. unfold NewPrecomputedSigner. rewrite constructor_load, El. cbv zeta. rewrite Hv. by eexists.
Qed.
End Pair.
