(* ===== verification/GenKeys.v ===== *)
(** The tool that makes the keys of the services ([cmd/keygen/main.go]), and what
    the loader then finds.

    A file is its content and its permission bits.  The key generators and the
    encoders of Go's crypto libraries are parameters ([KeyMakers]), with the round
    trips of their documentation ([KeyMakersLaws]); the FN-DSA pair is the one of
    [KeyGen]. *)
From Stdlib Require Import ZArith Lia Ascii String.
From stdpp Require Import base numbers list strings option gmap.
From S2P Require Import Prelude Util Verify Flr Sign Precomputed KeyGen Text Json JsonFacts Claims JwtParser JwtFacts JwtMethods JwtUtil JwtUtilFacts JwtProps CryptoMethods KeyLoad Startup MethodProps KeyProps GenFndsa.
Local Open Scope Z_scope.

Class KeyMakers `{F64, KeyTypes} := {
  rsa_GenerateKey : entropy -> Z -> option rsa_PrivateKey;
  ecdsa_GenerateKey : entropy -> Z -> option ecdsa_PrivateKey;
  ed25519_GenerateKey : entropy -> option (string * string);
  rand_Read : entropy -> nat -> option string;
  MarshalPKCS1PrivateKey : rsa_PrivateKey -> string;
  MarshalECPrivateKey : ecdsa_PrivateKey -> option string;
  MarshalPKCS8PrivateKey : anykey -> option string;
  MarshalPKIXPublicKey : anykey -> option string;
  pem_EncodeToMemory : string -> string -> string
}.

Class KeyMakersLaws `{HF : F64, HKT : !KeyTypes, HC : !Crypto, HP : Pem, HKP : !KeyParsers, HM : !KeyMakers} := {
  pem_round : forall ty b, exists blk, pem_Decode (pem_EncodeToMemory ty b) = Some blk /\ pem_Bytes blk = b;
  pkcs1_round : forall sk, ParsePKCS1PrivateKey (MarshalPKCS1PrivateKey sk) = Some sk;
  ec_round : forall sk b, MarshalECPrivateKey sk = Some b -> ParseECPrivateKey b = Some sk;
  pkcs8_round : forall k b, MarshalPKCS8PrivateKey k = Some b -> ParsePKCS8PrivateKey b = Some k;
  pkix_round : forall k b, MarshalPKIXPublicKey k = Some b -> ParsePKIXPublicKey b = Some k;
  ed25519_pair : forall r pk sk, ed25519_GenerateKey r = Some (pk, sk) -> ed25519_Public sk = pk
}.

(** * The tool *)

#[global] Abbreviation filesystem := (gmap string (string * Z)).

Section Keygen.
Context `{HF : F64} `{Hsh : Shake} `{Hh : Hmac} `{HKT : !KeyTypes} `{HC : !Crypto} `{HP : Pem} `{HKP : !KeyParsers} `{HM : !KeyMakers}.
Context (fuel : nat) (writable : string -> bool).

(** 0600 and 0644. *)
Definition owner_only : Z := 384.
Definition everyone : Z := 420.

(** A step that stops the program or goes on, with the files it leaves. *)
Definition gen : Type := filesystem -> bool * filesystem.
Definition gseq (a b : gen) : gen := fun fs => let '(ok, fs) := a fs in if ok then b fs else (false, fs).
Definition fatal : gen := fun fs => (false, fs).

(** [os.WriteFile]: the permission bits are those of a new file only. *)
Definition WriteFile (path data : string) (mode : Z) (fs : filesystem) : option filesystem :=
  if writable path
  then Some (<[path := (data, match fs !! path with Some (_, old) => old | None => mode end)]> fs)
  else None.

Definition writePEM (path pemType data : string) (mode : Z) : gen := fun fs =>
  match WriteFile path (pem_EncodeToMemory pemType data) mode fs with
  | None => fatal fs
  | Some fs => (true, fs)
  end.

Definition writeKeyPair (dir alg pk sk : string) : gen :=
  gseq (writePEM (dir ++ "/" ++ alg ++ "_pk.pem") (alg ++ " PUBLIC KEY") pk everyone)
       (writePEM (dir ++ "/" ++ alg ++ "_sk.pem") (alg ++ " PRIVATE KEY") sk owner_only).

Definition genRS256 (rng : entropy) (outDir : string) : gen :=
  match rsa_GenerateKey rng 2048 with
  | None => fatal
  | Some sk =>
      let skBytes := MarshalPKCS1PrivateKey sk in
      match MarshalPKIXPublicKey (KRsaPublic (rsa_Public sk)) with
      | None => fatal
      | Some pkBytes =>
          gseq (writePEM (outDir ++ "/RS256_sk.pem") "RSA PRIVATE KEY" skBytes owner_only)
               (writePEM (outDir ++ "/RS256_pk.pem") "RSA PUBLIC KEY" pkBytes everyone)
      end
  end.

Definition genES256 (rng : entropy) (outDir : string) : gen :=
  match ecdsa_GenerateKey rng 256 with
  | None => fatal
  | Some sk =>
      match MarshalECPrivateKey sk with
      | None => fatal
      | Some skBytes =>
          match MarshalPKIXPublicKey (KEcdsaPublic (ecdsa_Public sk)) with
          | None => fatal
          | Some pkBytes =>
              gseq (writePEM (outDir ++ "/ES256_sk.pem") "EC PRIVATE KEY" skBytes owner_only)
                   (writePEM (outDir ++ "/ES256_pk.pem") "EC PUBLIC KEY" pkBytes everyone)
          end
      end
  end.

Definition genHS256 (rng : entropy) (outDir : string) : gen :=
  match rand_Read rng 32 with
  | None => fatal
  | Some secret => writePEM (outDir ++ "/HS256_secret.pem") "HMAC SECRET" secret owner_only
  end.

Definition genEdDSA (rng : entropy) (outDir : string) : gen :=
  match ed25519_GenerateKey rng with
  | None => fatal
  | Some (pk, sk) =>
      match MarshalPKCS8PrivateKey (KEd25519Private sk) with
      | None => fatal
      | Some skBytes =>
          match MarshalPKIXPublicKey (KEd25519Public pk) with
          | None => fatal
          | Some pkBytes =>
              gseq (writePEM (outDir ++ "/EdDSA_sk.pem") "PRIVATE KEY" skBytes owner_only)
                   (writePEM (outDir ++ "/EdDSA_pk.pem") "PUBLIC KEY" pkBytes everyone)
          end
      end
  end.

(** What [main] writes once it has an FN-DSA pair; the entropy is what each
    generator reads. *)
Definition write_keys (outDir : string) (fnVk fnSk : list Z) (r_rs r_es r_hs r_ed : entropy) : gen :=
  gseq (writeKeyPair outDir "FNDSA-512" (of_bytes fnVk) (of_bytes fnSk))
    (gseq (genRS256 r_rs outDir) (gseq (genES256 r_es outDir) (gseq (genHS256 r_hs outDir) (genEdDSA r_ed outDir)))).

(** The first argument of the command names the directory; [mkdir] is what
    [os.MkdirAll] says.  [None] when the fuel of [KeyGen] runs out. *)
Definition keygen_main (args : list string) (mkdir : bool) (r_fn r_rs r_es r_hs r_ed : entropy) (fs : filesystem)
    : option (bool * filesystem) :=
  let outDir := match args with dir :: _ => dir | [] => "./keys"%string end in
  if negb mkdir then Some (fatal fs)
  else match KeyGen fuel 9 r_fn with
  | None => None
  | Some (Err _) => Some (fatal fs)
  | Some (Ok (fnSk, fnVk)) => Some (write_keys outDir fnVk fnSk r_rs r_es r_hs r_ed fs)
  end.

(** * Reading the files back *)

(** The file of a name in a directory ([filepath.Join]). *)
Definition files_at (fs : filesystem) : KeyFiles := fun dir name => fst <$> fs !! (dir ++ "/" ++ name)%string.

Lemma gseq_ok a b fs fs' : gseq a b fs = (true, fs') -> exists fs1, a fs = (true, fs1) /\ b fs1 = (true, fs').
Proof. unfold gseq. destruct (a fs) as [[] fs1]; [|done]. by exists fs1. Qed.

Lemma path_inj dir a b : (dir ++ a)%string = (dir ++ b)%string -> a = b.
Proof. intros H. induction dir as [|c dir IH]; [exact H|]. apply IH. by injection H. Qed.

(** A write: one file changes. *)
Lemma writePEM_ok dir name ty data mode fs fs' :
  writePEM (dir ++ "/" ++ name) ty data mode fs = (true, fs') ->
  (forall n, files_at fs' dir n = if String.eqb name n then Some (pem_EncodeToMemory ty data) else files_at fs dir n) /\
  (fs !! (dir ++ "/" ++ name)%string = None -> snd <$> fs' !! (dir ++ "/" ++ name)%string = Some mode) /\
  (forall p, p <> (dir ++ "/" ++ name)%string -> fs' !! p = fs !! p).
Proof.
  unfold writePEM, WriteFile. destruct (writable _); [|done]. intros [= <-]. unfold files_at. split; [|split].
  - intros n. destruct (String.eqb_spec name n) as [<-|Hn]; [by rewrite lookup_insert_eq|].
    rewrite lookup_insert_ne; [done|]. intros H. apply path_inj in H. by injection H.
  - intros H. change (fs !! (dir ++ String "/" name)%string = None) in H. by rewrite lookup_insert_eq, H.
  - intros p Hp. by rewrite lookup_insert_ne.
Qed.

(** What a completed run leaves: a pair for each algorithm, in the files the loader
    looks for. *)
Record generated (r_rs r_es r_hs r_ed : entropy) (dir : string) (fs : filesystem) (fnSk fnVk : list Z) (rs : rsa_PrivateKey)
    (es : ecdsa_PrivateKey) (hs ed_pk ed_sk : string) : Prop := Generated {
  gn_rs : rsa_GenerateKey r_rs 2048 = Some rs;
  gn_es : ecdsa_GenerateKey r_es 256 = Some es;
  gn_hs : rand_Read r_hs 32 = Some hs;
  gn_ed : ed25519_GenerateKey r_ed = Some (ed_pk, ed_sk);
  gn_fn_pk : exists ty, files_at fs dir "FNDSA-512_pk.pem" = Some (pem_EncodeToMemory ty (of_bytes fnVk));
  gn_fn_sk : exists ty, files_at fs dir "FNDSA-512_sk.pem" = Some (pem_EncodeToMemory ty (of_bytes fnSk));
  gn_rs_sk : exists ty, files_at fs dir "RS256_sk.pem" = Some (pem_EncodeToMemory ty (MarshalPKCS1PrivateKey rs));
  gn_rs_pk : exists ty b, MarshalPKIXPublicKey (KRsaPublic (rsa_Public rs)) = Some b /\ files_at fs dir "RS256_pk.pem" = Some (pem_EncodeToMemory ty b);
  gn_es_sk : exists ty b, MarshalECPrivateKey es = Some b /\ files_at fs dir "ES256_sk.pem" = Some (pem_EncodeToMemory ty b);
  gn_es_pk : exists ty b, MarshalPKIXPublicKey (KEcdsaPublic (ecdsa_Public es)) = Some b /\ files_at fs dir "ES256_pk.pem" = Some (pem_EncodeToMemory ty b);
  gn_hs_file : exists ty, files_at fs dir "HS256_secret.pem" = Some (pem_EncodeToMemory ty hs);
  gn_ed_sk : exists ty b, MarshalPKCS8PrivateKey (KEd25519Private ed_sk) = Some b /\ files_at fs dir "EdDSA_sk.pem" = Some (pem_EncodeToMemory ty b);
  gn_ed_pk : exists ty b, MarshalPKIXPublicKey (KEd25519Public ed_pk) = Some b /\ files_at fs dir "EdDSA_pk.pem" = Some (pem_EncodeToMemory ty b)
}.

(** The contents of the files after one more write. *)
Ltac wrote H E := apply writePEM_ok in H as (E & _ & _).

Lemma writeKeyPair_ok dir pk sk fs fs' : writeKeyPair dir "FNDSA-512" pk sk fs = (true, fs') ->
  forall n, files_at fs' dir n =
    if String.eqb "FNDSA-512_sk.pem" n then Some (pem_EncodeToMemory "FNDSA-512 PRIVATE KEY" sk)
    else if String.eqb "FNDSA-512_pk.pem" n then Some (pem_EncodeToMemory "FNDSA-512 PUBLIC KEY" pk) else files_at fs dir n.
Proof. intros (fs1 & H1 & H2)%gseq_ok n. wrote H1 E1. wrote H2 E2. by rewrite E2, E1. Qed.

Lemma genRS256_ok rng dir fs fs' : genRS256 rng dir fs = (true, fs') -> exists sk b,
  rsa_GenerateKey rng 2048 = Some sk /\ MarshalPKIXPublicKey (KRsaPublic (rsa_Public sk)) = Some b /\
  forall n, files_at fs' dir n =
    if String.eqb "RS256_pk.pem" n then Some (pem_EncodeToMemory "RSA PUBLIC KEY" b)
    else if String.eqb "RS256_sk.pem" n then Some (pem_EncodeToMemory "RSA PRIVATE KEY" (MarshalPKCS1PrivateKey sk)) else files_at fs dir n.
Proof.
  unfold genRS256. destruct (rsa_GenerateKey rng 2048) as [sk|]; [|done]. destruct (MarshalPKIXPublicKey _) as [b|] eqn:Eb; [|done].
  intros (fs1 & H1 & H2)%gseq_ok. exists sk, b. split; [done|]. split; [done|]. intros n.
  apply (writePEM_ok dir "RS256_sk.pem") in H1 as (E1 & _). apply (writePEM_ok dir "RS256_pk.pem") in H2 as (E2 & _). by rewrite E2, E1.
Qed.

Lemma genES256_ok rng dir fs fs' : genES256 rng dir fs = (true, fs') -> exists sk b b',
  ecdsa_GenerateKey rng 256 = Some sk /\ MarshalECPrivateKey sk = Some b /\ MarshalPKIXPublicKey (KEcdsaPublic (ecdsa_Public sk)) = Some b' /\
  forall n, files_at fs' dir n =
    if String.eqb "ES256_pk.pem" n then Some (pem_EncodeToMemory "EC PUBLIC KEY" b')
    else if String.eqb "ES256_sk.pem" n then Some (pem_EncodeToMemory "EC PRIVATE KEY" b) else files_at fs dir n.
Proof.
  unfold genES256. destruct (ecdsa_GenerateKey rng 256) as [sk|]; [|done]. destruct (MarshalECPrivateKey sk) as [b|] eqn:Eb; [|done].
  destruct (MarshalPKIXPublicKey _) as [b'|] eqn:Eb'; [|done].
  intros (fs1 & H1 & H2)%gseq_ok. exists sk, b, b'. do 3 (split; [done|]). intros n.
  apply (writePEM_ok dir "ES256_sk.pem") in H1 as (E1 & _). apply (writePEM_ok dir "ES256_pk.pem") in H2 as (E2 & _). by rewrite E2, E1.
Qed.

Lemma genHS256_ok rng dir fs fs' : genHS256 rng dir fs = (true, fs') -> exists secret, rand_Read rng 32 = Some secret /\
  forall n, files_at fs' dir n = if String.eqb "HS256_secret.pem" n then Some (pem_EncodeToMemory "HMAC SECRET" secret) else files_at fs dir n.
Proof.
  unfold genHS256. destruct (rand_Read rng 32) as [s|]; [|done]. intros H. exists s. split; [done|].
  by apply (writePEM_ok dir "HS256_secret.pem") in H as (E & _).
Qed.

Lemma genEdDSA_ok rng dir fs fs' : genEdDSA rng dir fs = (true, fs') -> exists pk sk b b',
  ed25519_GenerateKey rng = Some (pk, sk) /\ MarshalPKCS8PrivateKey (KEd25519Private sk) = Some b /\ MarshalPKIXPublicKey (KEd25519Public pk) = Some b' /\
  forall n, files_at fs' dir n =
    if String.eqb "EdDSA_pk.pem" n then Some (pem_EncodeToMemory "PUBLIC KEY" b')
    else if String.eqb "EdDSA_sk.pem" n then Some (pem_EncodeToMemory "PRIVATE KEY" b) else files_at fs dir n.
Proof.
  unfold genEdDSA. destruct (ed25519_GenerateKey rng) as [[pk sk]|]; [|done]. destruct (MarshalPKCS8PrivateKey _) as [b|] eqn:Eb; [|done].
  destruct (MarshalPKIXPublicKey _) as [b'|] eqn:Eb'; [|done].
  intros (fs1 & H1 & H2)%gseq_ok. exists pk, sk, b, b'. do 3 (split; [done|]). intros n.
  apply (writePEM_ok dir "EdDSA_sk.pem") in H1 as (E1 & _). apply (writePEM_ok dir "EdDSA_pk.pem") in H2 as (E2 & _). by rewrite E2, E1.
Qed.

Lemma keys_generated dir fnVk fnSk r_rs r_es r_hs r_ed fs fs' :
  write_keys dir fnVk fnSk r_rs r_es r_hs r_ed fs = (true, fs') ->
  exists rs es hs ed_pk ed_sk, generated r_rs r_es r_hs r_ed dir fs' fnSk fnVk rs es hs ed_pk ed_sk.
Proof.
  intros H. apply gseq_ok in H as (fs1 & H1 & (fs2 & H2 & (fs3 & H3 & (fs4 & H4 & H5)%gseq_ok)%gseq_ok)%gseq_ok).
  pose proof (writeKeyPair_ok _ _ _ _ _ H1) as E1. apply genRS256_ok in H2 as (rs & rb & R1 & R2 & E2).
  apply genES256_ok in H3 as (es & eb & eb' & S1 & S2 & S3 & E3). apply genHS256_ok in H4 as (hs & T1 & E4).
  apply genEdDSA_ok in H5 as (pk & sk & b & b' & D1 & D2 & D3 & E5). exists rs, es, hs, pk, sk.
  assert (forall n v, (if String.eqb "EdDSA_pk.pem" n then Some (pem_EncodeToMemory "PUBLIC KEY" b')
    else if String.eqb "EdDSA_sk.pem" n then Some (pem_EncodeToMemory "PRIVATE KEY" b)
    else if String.eqb "HS256_secret.pem" n then Some (pem_EncodeToMemory "HMAC SECRET" hs)
    else if String.eqb "ES256_pk.pem" n then Some (pem_EncodeToMemory "EC PUBLIC KEY" eb')
    else if String.eqb "ES256_sk.pem" n then Some (pem_EncodeToMemory "EC PRIVATE KEY" eb)
    else if String.eqb "RS256_pk.pem" n then Some (pem_EncodeToMemory "RSA PUBLIC KEY" rb)
    else if String.eqb "RS256_sk.pem" n then Some (pem_EncodeToMemory "RSA PRIVATE KEY" (MarshalPKCS1PrivateKey rs))
    else if String.eqb "FNDSA-512_sk.pem" n then Some (pem_EncodeToMemory "FNDSA-512 PRIVATE KEY" (of_bytes fnSk))
    else if String.eqb "FNDSA-512_pk.pem" n then Some (pem_EncodeToMemory "FNDSA-512 PUBLIC KEY" (of_bytes fnVk))
    else files_at fs dir n) = v -> files_at fs' dir n = v) as E by (intros n v <-; by rewrite E5, E4, E3, E2, E1).
  clear E1 E2 E3 E4 E5.
  constructor; try done; repeat eexists; first [eassumption|apply E; reflexivity].
Qed.

(** * The loader on these files *)

Section Loading.
Context `{HML : !KeyMakersLaws} {Hlaws : ShakeLaws}.

Lemma load_key_at {A} fs dir name ty b (parse : string -> result error A) :
  files_at fs dir name = Some (pem_EncodeToMemory ty b) ->
  load_key (HFS := files_at fs) dir name parse = parse (pem_EncodeToMemory ty b).
Proof. intros H. unfold load_key, readFile. change (ReadFile dir name) with (files_at fs dir name). by rewrite H. Qed.

Lemma pem_block_encode ty b : exists blk, pem_block (pem_EncodeToMemory ty b) = Ok blk /\ pem_Bytes blk = b.
Proof. destruct (pem_round ty b) as (blk & E & Eb). exists blk. split; [unfold pem_block; by rewrite E|done]. Qed.

Lemma parse_raw ty b : ParseFNDSAPublicKeyFromPEM (pem_EncodeToMemory ty b) = Ok b /\ ParseFNDSAPrivateKeyFromPEM (pem_EncodeToMemory ty b) = Ok b.
Proof. destruct (pem_block_encode ty b) as (blk & E & Eb). unfold ParseFNDSAPublicKeyFromPEM, ParseFNDSAPrivateKeyFromPEM. rewrite E. cbn [mbind result_bind]. by rewrite Eb. Qed.

Lemma parse_rsa ty ty' sk b : MarshalPKIXPublicKey (KRsaPublic (rsa_Public sk)) = Some b ->
  ParseRSAPublicKeyFromPEM (pem_EncodeToMemory ty b) = Ok (rsa_Public sk) /\
  ParseRSAPrivateKeyFromPEM (pem_EncodeToMemory ty' (MarshalPKCS1PrivateKey sk)) = Ok sk.
Proof.
  intros Hb. destruct (pem_block_encode ty b) as (blk & E & Eb). destruct (pem_block_encode ty' (MarshalPKCS1PrivateKey sk)) as (blk' & E' & Eb').
  unfold ParseRSAPublicKeyFromPEM, ParseRSAPrivateKeyFromPEM, rsa_private. rewrite E, E'. cbn [mbind result_bind].
  by rewrite Eb, Eb', (pkix_round _ _ Hb), pkcs1_round.
Qed.

Lemma parse_ec ty ty' sk b b' : MarshalPKIXPublicKey (KEcdsaPublic (ecdsa_Public sk)) = Some b -> MarshalECPrivateKey sk = Some b' ->
  ParseECPublicKeyFromPEM (pem_EncodeToMemory ty b) = Ok (ecdsa_Public sk) /\
  ParseECPrivateKeyFromPEM (pem_EncodeToMemory ty' b') = Ok sk.
Proof.
  intros Hb Hb'. destruct (pem_block_encode ty b) as (blk & E & Eb). destruct (pem_block_encode ty' b') as (blk' & E' & Eb').
  unfold ParseECPublicKeyFromPEM, ParseECPrivateKeyFromPEM. rewrite E, E'. cbn [mbind result_bind].
  by rewrite Eb, Eb', (pkix_round _ _ Hb), (ec_round _ _ Hb').
Qed.

Lemma parse_ed ty ty' pk sk b b' : MarshalPKIXPublicKey (KEd25519Public pk) = Some b -> MarshalPKCS8PrivateKey (KEd25519Private sk) = Some b' ->
  ParseEdPublicKeyFromPEM (pem_EncodeToMemory ty b) = Ok (KEd25519Public pk) /\
  ParseEdPrivateKeyFromPEM (pem_EncodeToMemory ty' b') = Ok (KEd25519Private sk).
Proof.
  intros Hb Hb'. destruct (pem_block_encode ty b) as (blk & E & Eb). destruct (pem_block_encode ty' b') as (blk' & E' & Eb').
  unfold ParseEdPublicKeyFromPEM, ParseEdPrivateKeyFromPEM. rewrite E, E'. cbn [mbind result_bind].
  by rewrite Eb, Eb', (pkix_round _ _ Hb), (pkcs8_round _ _ Hb').
Qed.

Lemma load_config_both m vk sk signMode :
  load_config m (Ok vk) signMode (Ok sk) = Ok (MkAlgConfig m (if signMode then sk else KCore KNil) vk).
Proof. by destruct signMode. Qed.

(** The keys of the generated files, as configurations; [ready] is asked of a pair
    for its signatures to be accepted. *)
Definition loads (dir : string) (fs : filesystem) (signMode : bool) (ready : Prop) (alg : string) : Prop :=
  exists cfg, LoadAlgConfig (HFS := files_at fs) fuel dir alg signMode = Ok cfg /\ (signMode = true -> ready -> keys_match fuel cfg).
Definition serves (dir : string) (fs : filesystem) (signMode : bool) (alg : string) : Prop := loads dir fs signMode True alg.

Lemma loads_fndsa {r1 r2 r3 r4 dir fs fnSk fnVk rs es hs ed_pk ed_sk signMode} alg :
  generated r1 r2 r3 r4 dir fs fnSk fnVk rs es hs ed_pk ed_sk -> In alg (take 4 supportedAlgorithms) ->
  (signMode = true -> fndsa_starts fnSk) -> loads dir fs signMode (fndsa_ready fuel fnSk fnVk) alg.
Proof using HML Hlaws.
  intros [_ _ _ _ [t1 F1] [t2 F2] _ _ _ _ _ _ _] Hin Hr.
  destruct (parse_raw t1 (of_bytes fnVk)) as [P1 _]. destruct (parse_raw t2 (of_bytes fnSk)) as [_ P2].
  assert (LoadAlgConfig (HFS := files_at fs) fuel dir alg signMode = loadFNDSAOriginal (HFS := files_at fs) fuel dir signMode \/
          LoadAlgConfig (HFS := files_at fs) fuel dir alg signMode = loadFNDSAPrecomputed (HFS := files_at fs) fuel dir signMode) as [E|E];
    [destruct Hin as [<-|[<-|[<-|[<-|[]]]]]; [left|right|left|right]; reflexivity|..]; unfold loads; rewrite E; clear E.
  - unfold loadFNDSAOriginal. rewrite (load_key_at _ _ _ _ _ _ F1), (load_key_at _ _ _ _ _ _ F2), P1, P2. cbn [result_map mbind result_bind].
    rewrite load_config_both. eexists. split; [reflexivity|]. intros Hs Hok. rewrite Hs. by apply ready_plain.
  - unfold loadFNDSAPrecomputed. rewrite (load_key_at _ _ _ _ _ _ F1), (load_key_at _ _ _ _ _ _ F2), P1, P2.
    destruct signMode; [|eexists; split; [reflexivity|discriminate]]. destruct (Hr eq_refl) as [Hb [ps Eps]].
    cbn [mbind result_bind]. rewrite to_of_bytes by exact Hb. rewrite Eps. eexists. split; [reflexivity|]. intros _ Hok. by apply (ready_precomputed fuel fnSk).
Qed.

Lemma loads_all {r1 r2 r3 r4 dir fs fnSk fnVk rs es hs ed_pk ed_sk signMode} alg :
  generated r1 r2 r3 r4 dir fs fnSk fnVk rs es hs ed_pk ed_sk -> In alg supportedAlgorithms ->
  (signMode = true -> fndsa_starts fnSk) ->
  loads dir fs signMode (HeaderAlgForConfigAlg alg = AlgFNDSA512 -> fndsa_ready fuel fnSk fnVk) alg.
Proof using HML Hlaws.
  intros Hg Halg Hr. assert (In alg (take 4 supportedAlgorithms) \/ In alg (drop 4 supportedAlgorithms)) as [Hin|Hin]
    by (rewrite <- (take_drop 4 supportedAlgorithms) in Halg; by apply in_app_iff).
  { destruct (loads_fndsa alg Hg Hin Hr) as (cfg & El & Hk). exists cfg. split; [exact El|]. intros Hs Hok. apply Hk; [exact Hs|].
    apply Hok. by destruct Hin as [<-|[<-|[<-|[<-|[]]]]]. }
  destruct Hg as [_ _ _ Ged _ _ [t3 F3] (t4 & b4 & M4 & F4) (t5 & b5 & M5 & F5) (t6 & b6 & M6 & F6) [t7 F7] (t8 & b8 & M8 & F8) (t9 & b9 & M9 & F9)].
  destruct (parse_rsa t4 t3 rs b4 M4) as [P4 P3]. destruct (parse_ec t6 t5 es b6 b5 M6 M5) as [P6 P5].
  destruct (parse_raw t7 hs) as [_ P7]. destruct (parse_ed t9 t8 ed_pk ed_sk b9 b8 M9 M8) as [P9 P8].
  apply ed25519_pair in Ged. destruct Hin as [<-|[<-|[<-|[<-|[]]]]].
  - eexists. split.
    { change (LoadAlgConfig _ _ _ _) with (loadHMAC (HFS := files_at fs) dir signMode). unfold loadHMAC.
      rewrite (load_key_at _ _ _ _ _ _ F7), P7. reflexivity. }
    by intros ->.
  - eexists. split.
    { change (LoadAlgConfig _ _ _ _) with (loadRSA (HFS := files_at fs) dir signMode). unfold loadRSA.
      rewrite (load_key_at _ _ _ _ _ _ F3), (load_key_at _ _ _ _ _ _ F4), P3, P4. cbn [result_map mbind result_bind]. rewrite load_config_both. reflexivity. }
    by intros ->.
  - eexists. split.
    { change (LoadAlgConfig _ _ _ _) with (loadECDSA (HFS := files_at fs) dir signMode). unfold loadECDSA.
      rewrite (load_key_at _ _ _ _ _ _ F5), (load_key_at _ _ _ _ _ _ F6), P5, P6. cbn [result_map mbind result_bind]. rewrite load_config_both. reflexivity. }
    by intros ->.
  - eexists. split.
    { change (LoadAlgConfig _ _ _ _) with (loadEdDSA (HFS := files_at fs) dir signMode). unfold loadEdDSA.
      rewrite (load_key_at _ _ _ _ _ _ F8), (load_key_at _ _ _ _ _ _ F9), P8, P9, load_config_both. reflexivity. }
    intros -> _. cbn. by rewrite Ged.
Qed.

(** ** The services on these files *)

Lemma load_into_all `{HFS : KeyFiles} dir algs signMode cs :
  (forall alg, In alg algs -> exists cfg, LoadAlgConfig fuel dir alg signMode = Ok cfg) ->
  exists out, load_into fuel dir algs signMode cs = Ok out.
Proof.
  revert cs. induction algs as [|a algs IH]; intros cs H; [by eexists|]. cbn [load_into].
  destruct (H a (or_introl eq_refl)) as [cfg ->]. apply IH. intros alg Hin. apply H. by right.
Qed.

Definition classical : list string := ["HS256"; "RS256"; "ES256"; "EdDSA"]%string.

Context `{HU : UUID} `{HFc : FloatConv}.

(** All algorithms of a list load, in a directory the tool has written. *)
Lemma loads_list {r1 r2 r3 r4 dir fs fnSk fnVk rs es hs ed_pk ed_sk} algs signMode :
  generated r1 r2 r3 r4 dir fs fnSk fnVk rs es hs ed_pk ed_sk -> incl algs supportedAlgorithms ->
  (signMode = true -> fndsa_starts fnSk) ->
  exists cs, LoadAllAlgConfigs (HFS := files_at fs) fuel dir algs signMode = Ok cs /\
    forall n cfg, cs !! n = Some cfg -> signMode = true ->
      (HeaderAlgForConfigAlg n = AlgFNDSA512 -> fndsa_ready fuel fnSk fnVk) -> keys_match fuel cfg.
Proof using HML Hlaws.
  intros Hg Hin Hr.
  assert (forall alg, In alg algs -> loads dir fs signMode (HeaderAlgForConfigAlg alg = AlgFNDSA512 -> fndsa_ready fuel fnSk fnVk) alg)
    as HA by (intros alg Ha; apply (loads_all alg Hg); [by apply Hin|exact Hr]).
  destruct (load_into_all (HFS := files_at fs) dir algs signMode ∅) as [cs E]; [intros alg Ha; by destruct (HA alg Ha) as (cfg & El & _); exists cfg|].
  exists cs. split; [exact E|]. intros n cfg Hn Hs Hok. apply (load_into_ok (HFS := files_at fs)) in E as [E _].
  destruct (E n cfg Hn) as [He|[Hna El]]; [by rewrite lookup_empty in He|].
  destruct (HA n Hna) as (cfg' & El' & Hk). rewrite El in El'. injection El' as <-. by apply Hk.
Qed.

(** (C9) The keys the tool writes serve.  Once it has run through, with an FN-DSA
    private half whose precomputed signer can be built, both services start on its
    directory: the auth service with any of the supported algorithms, and the
    gateway, which loads the public keys of its algorithms and, for its benchmark,
    the private keys of all.  The gateway then accepts every token the auth service
    issues, while it is live, with the claims it was issued for; for a token under
    FN-DSA this asks that the sampler be accurate on that key ([fndsa_ready], the
    condition of [sign_then_verify]). *)
Theorem generated_keys_serve `{!UUIDLaws} `{!CryptoLaws} dir fnVk fnSk r_rs r_es r_hs r_ed fs fs' dfltA dfltG iss aud dur allowedA allowedG :
  write_keys dir fnVk fnSk r_rs r_es r_hs r_ed fs = (true, fs') -> dir <> ""%string -> fndsa_starts fnSk ->
  incl (auth_algs allowedA) (gateway_algs allowedG) -> incl (gateway_algs allowedG) supportedAlgorithms ->
  exists ma mg mb,
    auth_Bootstrap (HFS := files_at fs') fuel dir dfltA iss aud dur allowedA = Ok ma /\
    gateway_Bootstrap (HFS := files_at fs') fuel dir dfltG iss aud dur allowedG = Ok (mg, mb) /\
    forall oa og og' ff now jti rng p s clock,
      oa ≡ₚ map_to_list (configs ma) -> og ≡ₚ map_to_list (configs mg) -> og' ≡ₚ map_to_list (configs mg) ->
      (HeaderAlgForConfigAlg (requested ma (p_Algorithm p)) = AlgFNDSA512 -> fndsa_ready fuel fnSk fnVk) ->
      issuable iss aud dur now jti p -> live dur now clock ->
      multi_Sign ff ma oa now jti rng p = Some (Ok s) -> (String.length s <= maxJWTCompactBytes)%nat ->
      multi_Parse (signingMethods fuel) mg og og' clock s = Some (Ok (issued_claims iss aud dur now jti p)).
Proof.
  intros (rs & es & hs & ed_pk & ed_sk & Hg)%keys_generated Hdir Hst HA HG.
  assert (or_default dir "./keys" = dir) as Edir by (unfold or_default; by destruct (String.eqb_spec dir "")).
  destruct (loads_list (auth_algs allowedA) true Hg) as (ca & Ea & Hka); [by eapply incl_tran|done|].
  destruct (loads_list (gateway_algs allowedG) false Hg HG) as (cg & Eg & _); [done|].
  destruct (loads_list supportedAlgorithms true Hg (incl_refl _)) as (cb & Eb & _); [done|].
  assert (auth_jwt (HFS := files_at fs') fuel dir dfltA iss aud dur (auth_algs allowedA) =
    Ok (NewMultiAlgJwtUtil iss aud dur (or_default dfltA "FN-DSA-Precomputed-512") ca)) as EA
    by (unfold auth_jwt; rewrite Edir, Ea; reflexivity).
  assert (gateway_jwt (HFS := files_at fs') fuel dir dfltG iss aud dur (gateway_algs allowedG) =
    Ok (NewMultiAlgJwtUtil iss aud dur (or_default dfltG "FN-DSA-Precomputed-512") cg)) as EG
    by (unfold gateway_jwt; rewrite Edir, Eg; reflexivity).
  eexists _, _, _. split; [exact EA|]. split.
  { unfold gateway_Bootstrap. rewrite EG. cbn [mbind result_bind]. unfold auth_jwt. rewrite Edir, Eb. reflexivity. }
  intros oa og og' ff now jti rng p s clock Hoa Hog Hog' Hok Hiss Hlive Hs Hlen.
  eapply (cross_service_at (HFS := files_at fs') fuel dir dfltA dfltG iss aud dur (auth_algs allowedA) (gateway_algs allowedG)); try eassumption.
  intros cfg Hc. pose proof (auth_loaded (HFS := files_at fs') _ _ _ _ _ _ _ _ EA) as (Hla & _).
  destruct (configForSignAlg_header (HFS := files_at fs') _ _ _ _ _ _ _ Hla Hoa Hc) as (n & Hn & Hhd).
  apply (Hka n cfg Hn eq_refl). by rewrite Hhd.
Qed.
End Loading.
End Keygen.
