(* ===== verification/GenPq.v ===== *)
(** The tool that makes the keys of the lattice and hash-based signatures
    ([keys/genkey.go]), and what the loader finds in its files.

    The libraries' generators and encoders are parameters ([PqMakers]), the
    generators as functions of what they read: the tool ignores their errors, and
    the system's source of randomness reports none. *)
From Stdlib Require Import ZArith Lia Ascii String.
From stdpp Require Import base numbers list strings option gmap.
From S2P Require Import Prelude Util Verify Flr Sign Precomputed Text Json JsonFacts Claims JwtParser JwtFacts JwtMethods JwtUtil JwtUtilFacts JwtProps CryptoMethods KeyLoad KeyProps GenKeys.
Local Open Scope Z_scope.

Class PqMakers `{F64, KeyTypes} := {
  mldsa_GenerateKey : forall p, entropy -> mldsa_PublicKey p * mldsa_PrivateKey p;
  mldsa_PublicBytes : forall p, mldsa_PublicKey p -> string;
  mldsa_PrivateBytes : forall p, mldsa_PrivateKey p -> string;
  lib_fndsa_KeyGen : Z -> entropy -> string * string;
  slhdsa_GenerateKey : entropy -> string -> slhdsa_PublicKey * slhdsa_PrivateKey;
  slhdsa_PublicMarshal : slhdsa_PublicKey -> string;
  slhdsa_PrivateMarshal : slhdsa_PrivateKey -> string
}.

Class PqLaws `{HF : F64, HKT : !KeyTypes, HC : !Crypto, HKP : !KeyParsers, HQ : !PqMakers} := {
  mldsa_pair : forall p r, mldsa_Public p (mldsa_GenerateKey p r).2 = (mldsa_GenerateKey p r).1;
  mldsa_public_round : forall p pk, mldsa_UnmarshalBinaryPublicKey p (mldsa_PublicBytes p pk) = Some (KMldsaPublic p pk);
  mldsa_private_round : forall p sk, mldsa_UnmarshalBinaryPrivateKey p (mldsa_PrivateBytes p sk) = Some (KMldsaPrivate p sk);
  slhdsa_pair : forall r n, slhdsa_Public (slhdsa_GenerateKey r n).2 = (slhdsa_GenerateKey r n).1;
  slhdsa_public_round : forall r n, slhdsa_UnmarshalBinaryPublicKey n (slhdsa_PublicMarshal (slhdsa_GenerateKey r n).1) = Some (KSlhdsaPublic (slhdsa_GenerateKey r n).1);
  slhdsa_private_round : forall r n, slhdsa_UnmarshalBinaryPrivateKey n (slhdsa_PrivateMarshal (slhdsa_GenerateKey r n).2) = Some (KSlhdsaPrivate (slhdsa_GenerateKey r n).2)
}.

Section Genkey.
Context `{HF : F64} `{Hsh : Shake} `{Hh : Hmac} `{HKT : !KeyTypes} `{HC : !Crypto} `{HP : Pem} `{HKP : !KeyParsers} `{HM : !KeyMakers} `{HQ : !PqMakers}.
Context (creatable storable : string -> bool).

Definition genkey_dir : string := "./keys/".

(** [os.Create]: mode 0666 for a new file, an old one is emptied. *)
Definition all_users : Z := 438.
Definition os_Create (path : string) (fs : filesystem) : option filesystem :=
  if creatable path
  then Some (<[path := (""%string, match fs !! path with Some (_, old) => old | None => all_users end)]> fs)
  else None.

Definition pem_Encode (path pemType data : string) (fs : filesystem) : option filesystem :=
  if storable path
  then Some (<[path := (pem_EncodeToMemory pemType data, match fs !! path with Some (_, old) => old | None => all_users end)]> fs)
  else None.

(** A file of [generateKeyfile]. *)
Definition create_encode (path pemType data : string) : gen := fun fs =>
  match os_Create path fs with
  | None => fatal fs
  | Some fs => match pem_Encode path pemType data fs with
      | None => fatal fs
      | Some fs => (true, fs)
      end
  end.

Definition generateKeyfile (alg pk sk : string) : gen :=
  gseq (create_encode (genkey_dir ++ (alg ++ "_pk.pem")) (alg ++ " PUBLIC KEY") pk)
       (create_encode (genkey_dir ++ (alg ++ "_sk.pem")) (alg ++ " PRIVATE KEY") sk).

Definition generateKeyfiles (l : list (string * (string * string))) : gen :=
  foldr (fun '(alg, (pk, sk)) rest => gseq (generateKeyfile alg pk sk) rest) (fun fs => (true, fs)) l.

(** The pairs of [main], in its order; [r alg] is what the generator of [alg] reads. *)
Definition mldsa_entry (r : string -> entropy) (alg : string) (p : mldsa) : string * (string * string) :=
  let '(pk, sk) := mldsa_GenerateKey p (r alg) in (alg, (mldsa_PublicBytes p pk, mldsa_PrivateBytes p sk)).
Definition fndsa_entry (r : string -> entropy) (alg : string) (logn : Z) : string * (string * string) :=
  let '(sk, pk) := lib_fndsa_KeyGen logn (r alg) in (alg, (pk, sk)).
Definition slhdsa_entry (r : string -> entropy) (alg : string) : string * (string * string) :=
  let '(pk, sk) := slhdsa_GenerateKey (r alg) alg in (alg, (slhdsa_PublicMarshal pk, slhdsa_PrivateMarshal sk)).

Definition genkey_pairs (r : string -> entropy) : list (string * (string * string)) :=
  [mldsa_entry r "ML-DSA-44" mldsa44; mldsa_entry r "ML-DSA-65" mldsa65; mldsa_entry r "ML-DSA-87" mldsa87;
   fndsa_entry r "FNDSA-512" 9; fndsa_entry r "FNDSA-1024" 10] ++ (slhdsa_entry r <$> slhdsa_names).

Definition genkey_main (r : string -> entropy) : gen := generateKeyfiles (genkey_pairs r).

(** * What it leaves *)

Lemma create_encode_ok path ty data fs fs' : create_encode path ty data fs = (true, fs') ->
  fs' !! path = Some (pem_EncodeToMemory ty data, match fs !! path with Some (_, old) => old | None => all_users end) /\
  (forall p, p <> path -> fs' !! p = fs !! p).
Proof.
  unfold create_encode, os_Create, pem_Encode. destruct (creatable path); [|done]. destruct (storable path); [|done].
  intros [= <-]. rewrite !lookup_insert_eq. split; [done|]. intros p Hp. by rewrite !lookup_insert_ne.
Qed.

Definition pair_files (alg : string) : list string := [alg ++ "_pk.pem"; alg ++ "_sk.pem"]%string.

(** Files of other algorithms are left alone. *)
Lemma generateKeyfiles_frame l fs fs' n : generateKeyfiles l fs = (true, fs') ->
  ~ In n (concat (pair_files <$> l.*1)) -> fs' !! (genkey_dir ++ n)%string = fs !! (genkey_dir ++ n)%string.
Proof.
  revert fs. induction l as [|[alg [pk sk]] l IH]; intros fs H Hn; [by injection H as ->|].
  apply gseq_ok in H as (fs2 & (fs1 & H1 & H2)%gseq_ok & H3).
  assert (~ In n (concat (pair_files <$> l.*1)) /\ n <> (alg ++ "_pk.pem")%string /\ n <> (alg ++ "_sk.pem")%string) as (Hl & N1 & N2)
    by (cbn in Hn; intuition).
  rewrite (IH _ H3 Hl), (proj2 (create_encode_ok _ _ _ _ _ H2)), (proj2 (create_encode_ok _ _ _ _ _ H1));
    [done|intros E%path_inj; by apply N1|intros E%path_inj; by apply N2].
Qed.

Lemma generateKeyfiles_ok l fs fs' alg pk sk : generateKeyfiles l fs = (true, fs') ->
  List.NoDup (concat (pair_files <$> l.*1)) -> In (alg, (pk, sk)) l ->
  files_at fs' "./keys" (alg ++ "_pk.pem")%string = Some (pem_EncodeToMemory (alg ++ " PUBLIC KEY") pk) /\
  files_at fs' "./keys" (alg ++ "_sk.pem")%string = Some (pem_EncodeToMemory (alg ++ " PRIVATE KEY") sk).
Proof.
  revert fs. induction l as [|[a [p s]] l IH]; intros fs H Hnd Hin; [done|].
  apply gseq_ok in H as (fs2 & (fs1 & H1 & H2)%gseq_ok & H3). cbn in Hnd.
  apply List.NoDup_cons_iff in Hnd as [Hp Hnd]. apply List.NoDup_cons_iff in Hnd as [Hs Hnd].
  destruct Hin as [[= -> -> ->]|Hin]; [|by apply (IH fs2)].
  unfold files_at. change ("./keys" ++ "/" ++ ?n)%string with (genkey_dir ++ n)%string.
  rewrite !(generateKeyfiles_frame _ _ _ _ H3) by (intros Hx; first [by apply Hs|apply Hp; by right]).
  apply create_encode_ok in H1 as [E1 _], H2 as [E2 F2].
  rewrite E2, F2, E1 by (intros E%path_inj; apply Hp; left; by rewrite E). done.
Qed.

Lemma genkey_names r : (genkey_pairs r).*1 = ["ML-DSA-44"; "ML-DSA-65"; "ML-DSA-87"; "FNDSA-512"; "FNDSA-1024"]%string ++ slhdsa_names.
Proof.
  unfold genkey_pairs, mldsa_entry, fndsa_entry. repeat destruct (mldsa_GenerateKey _ _). repeat destruct (lib_fndsa_KeyGen _ _).
  rewrite fmap_app. f_equal. rewrite <- list_fmap_compose. rewrite <- (list_fmap_id slhdsa_names) at 2.
  apply list_fmap_ext. intros i x _. cbn. unfold slhdsa_entry. by destruct (slhdsa_GenerateKey _ _).
Qed.

Lemma genkey_files r fs fs' alg pk sk : genkey_main r fs = (true, fs') -> In (alg, (pk, sk)) (genkey_pairs r) ->
  files_at fs' "./keys" (alg ++ "_pk.pem")%string = Some (pem_EncodeToMemory (alg ++ " PUBLIC KEY") pk) /\
  files_at fs' "./keys" (alg ++ "_sk.pem")%string = Some (pem_EncodeToMemory (alg ++ " PRIVATE KEY") sk).
Proof.
  intros H. apply (generateKeyfiles_ok _ _ _ _ _ _ H). rewrite genkey_names. apply NoDup_ListNoDup.
  apply (bool_decide_unpack _). vm_compute. exact I.
Qed.

(** A new file of a private key is readable by everybody the umask lets in. *)
Lemma private_key_mode alg pk sk fs fs' : generateKeyfile alg pk sk fs = (true, fs') ->
  fs !! (genkey_dir ++ (alg ++ "_sk.pem"))%string = None -> snd <$> fs' !! (genkey_dir ++ (alg ++ "_sk.pem"))%string = Some all_users.
Proof.
  intros (fs1 & H1 & H2)%gseq_ok Hn. apply create_encode_ok in H1 as [_ F1], H2 as [-> _]. cbn [fmap option_fmap option_map snd].
  rewrite F1; [by rewrite Hn|]. intros E%path_inj%path_inj. discriminate E.
Qed.

(** * The loader on these files *)

Context `{HML : !KeyMakersLaws} `{HL : !PqLaws} (fuel : nat).

Lemma as_mldsa_same p pk sk : as_mldsa_public p (KMldsaPublic p pk) = Some pk /\ as_mldsa_private p (KMldsaPrivate p sk) = Some sk.
Proof. by destruct p. Qed.

Lemma mldsa_package_named alg p : mldsa_package alg = Some p -> In alg mldsa_names.
Proof.
  unfold mldsa_package. destruct (String.eqb_spec alg "ML-DSA-44") as [->|_]; [by left|].
  destruct (String.eqb_spec alg "ML-DSA-65") as [->|_]; [by right; left|]. destruct (String.eqb_spec alg "ML-DSA-87") as [->|_]; [by do 2 right; left|done].
Qed.

Lemma mldsa_serves r fs fs' alg p : genkey_main r fs = (true, fs') -> In (mldsa_entry r alg p) (genkey_pairs r) ->
  mldsa_package alg = Some p -> serves fuel "./keys" fs' true alg.
Proof using HL HML.
  intros H Hin Hp. pose proof (mldsa_pair p (r alg)) as Hk. unfold mldsa_entry in Hin. destruct (mldsa_GenerateKey p (r alg)) as [pk sk].
  cbn [fst snd] in Hk. apply (genkey_files _ _ _ _ _ _ H) in Hin as [F1 F2].
  destruct (pem_block_encode (alg ++ " PUBLIC KEY") (mldsa_PublicBytes p pk)) as (b1 & B1 & C1).
  destruct (pem_block_encode (alg ++ " PRIVATE KEY") (mldsa_PrivateBytes p sk)) as (b2 & B2 & C2).
  destruct (as_mldsa_same p pk sk) as [A1 A2].
  exists (MkAlgConfig (SigningMethodMLDSA alg) (KMldsaPrivate p sk) (KMldsaPublic p pk)). split.
  - transitivity (loadMLDSA (HFS := files_at fs') "./keys" alg true).
    { apply mldsa_package_named in Hp as [<-|[<-|[<-|[]]]]; reflexivity. }
    unfold loadMLDSA. rewrite (load_key_at _ _ _ _ _ _ F1), (load_key_at _ _ _ _ _ _ F2).
    unfold ParseMLDSAPublicKeyFromPEM, ParseMLDSAPrivateKeyFromPEM. rewrite B1, B2. cbn [mbind result_bind].
    rewrite Hp, C1, C2, mldsa_public_round, mldsa_private_round. cbn [mbind option_bind]. by rewrite A1, A2.
  - intros _. unfold keys_match. assert (String.eqb alg AlgFNDSA512 = false) as E
      by (by apply mldsa_package_named in Hp as [<-|[<-|[<-|[]]]]).
    cbn [cfg_Method SigningMethodMLDSA Alg]. rewrite E. cbn. by rewrite Hk.
Qed.

Lemma slhdsa_serves r fs fs' alg : genkey_main r fs = (true, fs') -> In alg slhdsa_loaded -> serves fuel "./keys" fs' true alg.
Proof using HL HML.
  intros H Halg. assert (In alg slhdsa_names) as Hn by (cbn in *; tauto).
  assert (In (slhdsa_entry r alg) (genkey_pairs r)) as Hin by (apply in_app_iff; right; rewrite <- list_elem_of_In; apply list_elem_of_fmap_2; by apply list_elem_of_In).
  pose proof (slhdsa_pair (r alg) alg) as Hk. pose proof (slhdsa_public_round (r alg) alg) as R1. pose proof (slhdsa_private_round (r alg) alg) as R2.
  unfold slhdsa_entry in Hin. destruct (slhdsa_GenerateKey (r alg) alg) as [pk sk]. cbn [fst snd] in *.
  apply (genkey_files _ _ _ _ _ _ H) in Hin as [F1 F2].
  destruct (pem_block_encode (alg ++ " PUBLIC KEY") (slhdsa_PublicMarshal pk)) as (b1 & B1 & C1).
  destruct (pem_block_encode (alg ++ " PRIVATE KEY") (slhdsa_PrivateMarshal sk)) as (b2 & B2 & C2).
  exists (MkAlgConfig (SigningMethodSLHDSA alg) (KSlhdsaPrivate sk) (KSlhdsaPublic pk)). split.
  - transitivity (loadSLHDSA (HFS := files_at fs') "./keys" alg true); [by repeat destruct Halg as [<-|Halg]|].
    unfold loadSLHDSA. assert (contains ["SLH-DSA-SHA2-128f"; "SLH-DSA-SHA2-128s"; "SLH-DSA-SHAKE-128f"; "SLH-DSA-SHAKE-128s"]%string alg = true) as ->
      by (by repeat destruct Halg as [<-|Halg]).
    assert (contains slhdsa_names alg = true) as E by (by repeat destruct Halg as [<-|Halg]).
    rewrite (load_key_at _ _ _ _ _ _ F1), (load_key_at _ _ _ _ _ _ F2).
    unfold ParseSLHDSAPublicKeyFromPEM, ParseSLHDSAPrivateKeyFromPEM. rewrite B1, B2. cbn [mbind result_bind].
    by rewrite E, C1, C2, R1, R2.
  - intros _. unfold keys_match. assert (String.eqb alg AlgFNDSA512 = false) as E by (by repeat destruct Halg as [<-|Halg]).
    cbn [cfg_Method SigningMethodSLHDSA Alg]. rewrite E. cbn. by rewrite Hk.
Qed.

(** Every ML-DSA and SLH-DSA algorithm of the loader gets a pair that matches. *)
Lemma genkey_serves r fs fs' alg : genkey_main r fs = (true, fs') -> In alg (mldsa_names ++ slhdsa_loaded) -> serves fuel "./keys" fs' true alg.
Proof using HL HML.
  intros H [Halg|Halg]%in_app_iff; [|by apply (slhdsa_serves r fs)].
  destruct Halg as [<-|[<-|[<-|[]]]]; [apply (mldsa_serves r fs _ _ mldsa44)|apply (mldsa_serves r fs _ _ mldsa65)|apply (mldsa_serves r fs _ _ mldsa87)];
    first [exact H|reflexivity|cbn; tauto].
Qed.
End Genkey.
