(* ===== verification/KeyDemo.v ===== *)
(** A small world for the key files and the cryptographic libraries, and the
    properties of [MethodProps] and [KeyProps] in it: keys are strings, a signature
    is a checksum, and a PEM file is its own content. *)
From Stdlib Require Import ZArith Lia Ascii String.
From stdpp Require Import base numbers list strings option gmap.
From S2P Require Import Prelude Util Verify Flr Sign FlrEmu Text Json JsonFacts Claims JwtParser JwtFacts JwtMethods JwtUtil JwtUtilFacts Demo JwtProps CryptoMethods KeyLoad MethodProps KeyProps.
Local Open Scope Z_scope.

#[export] Instance key_hmac : Hmac := {| hash_available h := true; hmac_sum h k text := checksum k text |}.

#[export] Instance key_types : KeyTypes := {|
  ecdsa_PublicKey := string; ecdsa_PrivateKey := string; rsa_PublicKey := string; rsa_PrivateKey := string;
  mldsa_PublicKey _ := string; mldsa_PrivateKey _ := string; slhdsa_PublicKey := string; slhdsa_PrivateKey := string
|}.

Definition ed_public : string := of_bytes (replicate 32 1).
Definition passes (pk text sig : string) : bool := String.eqb sig (checksum pk text).
Definition verdict (pk text sig : string) : option error := if passes pk text sig then None else Some Library.

#[export] Instance key_crypto `{HF : F64} : @Crypto HF key_types := {|
  hash_sum h t := t;
  ecdsa_Verify pk d r s := (r =? Z.of_nat (String.length d) mod 251) && (s =? Z.of_nat (String.length pk) mod 251);
  ecdsa_Sign rng sk d := Ok (Z.of_nat (String.length d) mod 251, Z.of_nat (String.length sk) mod 251);
  ecdsa_BitSize sk := 256;
  crypto_Signer k := match k with
    | KEd25519Private sk => Some (MkSigner _ _ (Some (KEd25519Public ed_public))
        (fun _ msg _ => if (String.length sk =? ed25519_PrivateKeySize)%nat then Some (Ok (checksum ed_public msg)) else None))
    | _ => None end;
  ed25519_Verify := passes;
  rsa_VerifyPKCS1v15 pk h d sig := verdict pk d sig;
  rsa_SignPKCS1v15 rng sk h d := Ok (checksum sk d);
  rsa_VerifyPSS pk h d sig salt := verdict pk d sig;
  rsa_SignPSS rng sk h d salt := Ok (checksum sk d);
  mldsa_Verify p pk msg sig := passes pk msg sig;
  mldsa_SignTo p sk msg := Ok (checksum sk msg);
  slhdsa_Verify pk msg sig := passes pk msg sig;
  slhdsa_SignDeterministic sk msg := Ok (checksum sk msg);
  ecdsa_Public sk := sk;
  ed25519_Public sk := ed_public;
  rsa_Public sk := sk;
  mldsa_Public p sk := sk;
  slhdsa_Public sk := sk
|}.

Lemma passes_checksum pk text : passes pk text (checksum pk text) = true.
Proof. apply String.eqb_refl. Qed.

#[export] Instance key_crypto_laws `{HF : F64} : CryptoLaws (H1 := key_crypto).
Proof.
  constructor; cbn.
  - intros _ sk d r s [= <- <-]. rewrite !Z.eqb_refl.
    assert (forall n, 0 <= n mod 251 < 2 ^ 256) as Hn
      by (intros n; split; [by apply Z.mod_pos_bound|]; eapply Z.lt_trans; [by apply Z.mod_pos_bound|done]).
    split; [apply Hn|]. split; [apply Hn|done].
  - intros _ sk _ d sig [= <-]. unfold verdict. by rewrite passes_checksum.
  - intros _ sk _ d _ sig [= <-]. unfold verdict. by rewrite passes_checksum.
  - intros _ sk msg sig [= <-]. apply passes_checksum.
  - intros sk msg sig [= <-]. apply passes_checksum.
  - intros sk s rng msg sig [= <-]. cbn. split; [by intros pk [= <-]|]. destruct (_ =? _)%nat; [|done]. intros [= <-]. apply passes_checksum.
  - intros sk s Hl [= <-]. cbn. rewrite Hl. split; [by eexists|]. intros _ msg. by eexists.
  - by intros [] s pk.
Qed.

(** The files are two keys and a secret. *)
#[export] Instance key_files : KeyFiles := fun dir name =>
  if String.eqb name "ES256_pk.pem" || String.eqb name "ES256_sk.pem" then Some "curve"%string
  else if String.eqb name "HS256_secret.pem" then Some "secret"%string else None.
#[export] Instance key_pem : Pem := {|
  pem_Block := string; pem_Decode s := Some s; pem_Bytes b := b; DecryptPEMBlock b pw := Some b |}.
#[export] Instance key_parsers `{HF : F64} : @KeyParsers HF key_types := {|
  ParseECPrivateKey b := Some b; ParsePKCS1PrivateKey b := None; ParsePKCS1PublicKey b := None;
  ParsePKCS8PrivateKey b := None; ParsePKIXPublicKey b := Some (KEcdsaPublic b); Certificate_PublicKey b := None;
  mldsa_UnmarshalBinaryPrivateKey p b := None; mldsa_UnmarshalBinaryPublicKey p b := None;
  slhdsa_UnmarshalBinaryPrivateKey n b := None; slhdsa_UnmarshalBinaryPublicKey n b := None |}.

#[export] Existing Instance toy_shake0.

Definition key_algs : list string := ["ES256"; "HS256"]%string.
Definition key_auth := auth_jwt 600 "" "ES256" "tasktify" "api" 15 key_algs.
Definition key_gateway := gateway_jwt 600 "" "" "tasktify" "api" 15 key_algs.
Definition key_payload : JWTPayload := MkJWTPayload (3%nat : uuid) "a@b" "" "".
Definition key_ec_config (signMode : bool) : AlgConfig (K := anykey) := MkAlgConfig (method_of_ecdsa SigningMethodES256)
  (if signMode then KEcdsaPrivate ("curve"%string : ecdsa_PrivateKey) else KCore KNil) (KEcdsaPublic ("curve"%string : ecdsa_PublicKey)).
Definition key_hs_config (signMode : bool) : AlgConfig (K := anykey) := MkAlgConfig (lift_method SigningMethodHS256)
  (if signMode then raw_key "secret" else KCore KNil) (raw_key "secret").
Definition key_configs (signMode : bool) : gmap string (AlgConfig (K := anykey)) :=
  <["HS256"%string := key_hs_config signMode]> (<["ES256"%string := key_ec_config signMode]> ∅).
Definition key_multi (signMode : bool) : multiAlgJwtUtil (K := anykey) := MkMulti "tasktify" "api" 15
  (if signMode then "ES256" else "FN-DSA-Precomputed-512")%string (key_configs signMode).
Definition key_token : string :=
  match multi_Sign no_float (key_multi true) (map_to_list (key_configs true)) demo_now "jti" demo_rng key_payload with
  | Some (Ok s) => s
  | _ => ""
  end.

Lemma key_auth_ok : key_auth = Ok (key_multi true).
Proof. reflexivity. Qed.

Lemma key_gateway_ok : key_gateway = Ok (key_multi false).
Proof. reflexivity. Qed.

Lemma key_token_ok :
  multi_Sign no_float (key_multi true) (map_to_list (key_configs true)) demo_now "jti" demo_rng key_payload = Some (Ok key_token).
Proof. vm_compute. reflexivity. Qed.

Lemma key_pairs : map_Forall (fun _ => keys_match 600) (configs (key_multi true)).
Proof. apply map_Forall_insert_2; [reflexivity|]. apply map_Forall_insert_2; [reflexivity|]. apply map_Forall_empty. Qed.

Lemma key_issuable : issuable "tasktify" "api" 15 demo_now "jti" key_payload.
Proof.
  constructor; cbn; try done; [by left|..]; split; vm_compute; split; congruence.
Qed.

Lemma keys_verify_in_family_witness :
  let m := lift_method SigningMethodHS256 in let k := raw_key "secret" in
  method_Verify m "text" (checksum "secret" "text") k = Some None /\ In (Alg m) (family k).
Proof.
  split; [reflexivity|].
  apply (keys_verify_in_family 600 (lift_method SigningMethodHS256) "text" (checksum "secret" "text") (raw_key "secret")).
  - cbn. tauto.
  - reflexivity.
Defined.

Definition ed_private : string := of_bytes (replicate 64 2).
Definition ec_key : anykey := KEcdsaPrivate ("curve"%string : ecdsa_PrivateKey).

Lemma library_method_verifies_witness :
  let m := method_of_ecdsa SigningMethodES512 in let sk := ec_key in
  let m' := SigningMethodEdDSA in let sk' := KEd25519Private ed_private in
  (SignVerify m m sk (KEcdsaPublic ("curve"%string : ecdsa_PublicKey)) /\ forall rng text, is_Some (method_Sign m rng text sk)) /\
  SignVerify m' m' sk' (KEd25519Public ed_public) /\ forall rng text, is_Some (method_Sign m' rng text sk').
Proof.
  split.
  - destruct (library_method_verifies (method_of_ecdsa SigningMethodES512) ec_key) as (H1 & H2 & _);
      [cbn; tauto|]. split; [apply H1; reflexivity|apply H2; cbn; tauto].
  - destruct (library_method_verifies SigningMethodEdDSA (KEd25519Private ed_private)) as (H1 & _ & H3);
      [cbn; tauto|]. split; [apply H1; reflexivity|]. apply (H3 eq_refl ed_private); reflexivity.
Defined.

Lemma loaded_config_fits_witness :
  LoadAlgConfig 600 "keys" "HS256" false = Ok (key_hs_config false) /\
  Alg (cfg_Method (key_hs_config false)) = HeaderAlgForConfigAlg "HS256" /\
  header_key "keys" (HeaderAlgForConfigAlg "HS256") = Ok (VerifyKey (key_hs_config false)) /\
  In (HeaderAlgForConfigAlg "HS256") (family (VerifyKey (key_hs_config false))) /\
  (exists m, GetSigningMethod (signingMethods 600) (HeaderAlgForConfigAlg "HS256") = Some m) /\
  (false = false -> SignKey (key_hs_config false) = KCore KNil).
Proof.
  split; [reflexivity|]. apply (loaded_config_fits 600 "keys" "HS256" false (key_hs_config false)). reflexivity.
Defined.

Lemma services_agree_witness :
  let o := map_to_list (key_configs false) in
  multi_Parse (signingMethods 600) (key_multi false) o (reverse o) demo_clock key_token =
    Some (Ok (issued_claims "tasktify" "api" 15 demo_now "jti" key_payload)).
Proof.
  cbv zeta. apply (services_agree 600 "" "ES256" "" "tasktify" "api" 15 key_algs key_algs (key_multi true) (key_multi false)
    (map_to_list (key_configs true)) (map_to_list (key_configs false)) (reverse (map_to_list (key_configs false)))
    no_float demo_now "jti" demo_rng key_payload key_token demo_clock).
  - exact key_auth_ok.
  - exact key_gateway_ok.
  - apply incl_refl.
  - reflexivity.
  - reflexivity.
  - apply reverse_Permutation.
  - exact key_pairs.
  - exact key_issuable.
  - split; vm_compute; reflexivity.
  - exact key_token_ok.
  - apply Nat.leb_le. vm_compute. reflexivity.
Defined.

Lemma gateway_token_is_signed_witness :
  let o := map_to_list (key_configs false) in
  exists claims, multi_Parse (signingMethods 600) (key_multi false) o o demo_clock key_token = Some (Ok claims) /\
  exists t h c s alg,
    ParseUnverified (signingMethods 600) (NewParser (parserOptions "tasktify" "api" (allowedHeaderAlgs o))) key_token zero_claims
      = Ok (t, (h, c, s)) /\
    Header t !! "alg"%string = Some (AString alg) /\ In alg (HeaderAlgForConfigAlg <$> key_algs) /\
    signed_by 600 (or_default "" "./keys") (h ++ "." ++ c) (Signature t) alg.
Proof.
  cbv zeta. assert (exists claims, multi_Parse (signingMethods 600) (key_multi false) (map_to_list (key_configs false))
    (map_to_list (key_configs false)) demo_clock key_token = Some (Ok claims)) as [claims Hp] by (eexists; vm_compute; reflexivity).
  exists claims. split; [exact Hp|].
  exact (gateway_token_is_signed 600 "" "" "tasktify" "api" 15 key_algs (key_multi false) (map_to_list (key_configs false))
    (map_to_list (key_configs false)) demo_clock key_token claims key_gateway_ok (Permutation_refl _) Hp).
Defined.
