(* ===== verification/GenDemo.v ===== *)
(** The key tool run in the small world of [KeyDemo]: a marshalled key is a letter
    for its type and the key. *)
From Stdlib Require Import ZArith Lia Ascii String Uint63 PrimFloat.
From stdpp Require Import base numbers list strings option gmap.
From S2P Require Import Prelude Bits Codec Util Verify Flr Sign FlrEmu Precomputed KeyGen Text Json JsonFacts Claims JwtParser JwtFacts JwtMethods JwtUtil JwtUtilFacts Demo JwtProps CryptoMethods KeyLoad Startup MethodProps KeyProps KeyDemo GenFndsa GenKeys GenPq.
Local Open Scope Z_scope.

#[export] Instance gen_parsers `{HF : F64} : @KeyParsers HF key_types := {|
  ParseECPrivateKey b := Some b; ParsePKCS1PrivateKey b := Some b; ParsePKCS1PublicKey b := None;
  ParsePKCS8PrivateKey b := match b with String "D" k => Some (KEd25519Private k) | String "E" k => Some (KEcdsaPrivate k)
    | String "R" k => Some (KRsaPrivate k) | _ => None end;
  ParsePKIXPublicKey b := match b with String "D" k => Some (KEd25519Public k) | String "E" k => Some (KEcdsaPublic k)
    | String "R" k => Some (KRsaPublic k) | _ => None end;
  Certificate_PublicKey b := None;
  mldsa_UnmarshalBinaryPrivateKey p b := Some (KMldsaPrivate p (b : mldsa_PrivateKey p));
  mldsa_UnmarshalBinaryPublicKey p b := Some (KMldsaPublic p (b : mldsa_PublicKey p));
  slhdsa_UnmarshalBinaryPrivateKey n b := Some (KSlhdsaPrivate b); slhdsa_UnmarshalBinaryPublicKey n b := Some (KSlhdsaPublic b) |}.

#[export] Instance gen_makers `{HF : F64} : @KeyMakers HF key_types := {|
  rsa_GenerateKey _ _ := Some "prime"%string;
  ecdsa_GenerateKey _ _ := Some "curve"%string;
  ed25519_GenerateKey _ := Some (ed_public, "seed"%string);
  rand_Read _ n := Some (of_bytes (replicate n 7));
  MarshalPKCS1PrivateKey sk := sk;
  MarshalECPrivateKey sk := Some sk;
  MarshalPKCS8PrivateKey k := match k with KEd25519Private s => Some (String "D" s) | KEcdsaPrivate s => Some (String "E" s)
    | KRsaPrivate s => Some (String "R" s) | _ => None end;
  MarshalPKIXPublicKey k := match k with KEd25519Public s => Some (String "D" s) | KEcdsaPublic s => Some (String "E" s)
    | KRsaPublic s => Some (String "R" s) | _ => None end;
  pem_EncodeToMemory ty b := b |}.

#[export] Instance gen_laws `{HF : F64} : KeyMakersLaws (HC := key_crypto) (HKP := gen_parsers).
Proof.
  constructor; cbn.
  - intros _ b. by exists b.
  - done.
  - by intros sk b [= ->].
  - by intros [] b [= <-].
  - by intros [] b [= <-].
  - by intros _ pk sk [= <- <-].
Qed.

#[export] Existing Instance toy_shake0_laws.

(** ** Hardware floating point

    The operations of the signer on the kernel's 64-bit floats; a float is m 2^e,
    exactly. *)

Definition prim_of (z : Z) : PrimFloat.float :=
  if z <? 0 then PrimFloat.opp (PrimFloat.of_uint63 (Uint63.of_Z (- z))) else PrimFloat.of_uint63 (Uint63.of_Z z).
Definition prim_scale (x : PrimFloat.float) (e : Z) : PrimFloat.float := PrimFloat.ldshiftexp x (Uint63.of_Z (e + 2101)).
Definition prim_parts (x : PrimFloat.float) : Z * Z :=
  let '(m, e) := PrimFloat.frshiftexp (PrimFloat.abs x) in
  let m := Uint63.to_Z (PrimFloat.normfr_mantissa m) in
  ((if PrimFloat.get_sign x then - m else m), Uint63.to_Z e - 2101 - 53).
Definition prim_floor (x : PrimFloat.float) : Z := let '(m, e) := prim_parts x in Z.shiftl m e.
Definition prim_trunc (x : PrimFloat.float) : Z := let '(m, e) := prim_parts x in if e <? 0 then Z.quot m (2 ^ (- e)) else Z.shiftl m e.
Definition prim_rint (x : PrimFloat.float) : Z :=
  let big := prim_of (3 * 2 ^ 51) in prim_trunc (PrimFloat.sub (PrimFloat.add x big) big).

Definition prim : F64 := {|
  f64 := PrimFloat.float; f64_ZERO := prim_of 0; f64_NZERO := PrimFloat.opp (prim_of 0); f64_ONE := prim_of 1;
  f64mk i e := prim_scale (prim_of i) e; f64_of := prim_of; f64_of_i32 := prim_of;
  f64_rint := prim_rint; f64_floor := prim_floor; f64_trunc := prim_trunc;
  f64_mtwop63 x := let '(m, e) := prim_parts x in u64 (Z.shiftl m (e + 63));
  f64_add := PrimFloat.add; f64_sub := PrimFloat.sub; f64_neg := PrimFloat.opp;
  f64_half x := PrimFloat.mul x (prim_scale (prim_of 1) (-1)); f64_mul := PrimFloat.mul; f64_sqr x := PrimFloat.mul x x;
  f64_inv x := PrimFloat.div (prim_of 1) x; f64_sqrt := PrimFloat.sqrt; f64_div2e x e := prim_scale x (- e);
  f64_eqb := PrimFloat.eqb |}.

Example prim_examples : let h := PrimFloat.div (prim_of (-7)) (prim_of 2) in
  (prim_floor h, prim_trunc h, prim_rint h, prim_rint (PrimFloat.div (prim_of 5) (prim_of 2))) = (-4, -3, -4, 2).
Proof. vm_compute. reflexivity. Qed.

(** ** An FN-DSA-512 pair

    A solution of f G - g F = q at degree 8 solves it at degree 512 with X^64 for X. *)

Definition spread (l : list Z) : list Z := concat ((fun c => c :: replicate 63 0) <$> l).
Definition gen_pair : list Z * list Z := Eval vm_compute in
  encode_keypair 9 (spread [9; -2; -22; -22; -30; 25; -30; -17]) (spread [19; -17; -20; 25; -20; -12; -10; -18])
    (spread [-25; -47; -27; 0; -37; 54; -52; -1]) (spread [16; 39; 54; -74; 39; 57; 37; 18]) (replicate 1024 0).
Definition gen_sk : list Z := fst gen_pair.
Definition gen_vk : list Z := snd gen_pair.

Definition answers_ok {E A} (r : result E A) : bool := match r with Ok _ => true | Err _ => false end.
Lemma answers_ok_spec {E A} (r : result E A) : answers_ok r = true -> exists a, r = Ok a.
Proof. destruct r as [a|]; [by exists a|done]. Qed.

Lemma gen_sk_bytes : Forall is_byte gen_sk.
Proof. apply bytes_dec. vm_compute. reflexivity. Qed.

Lemma gen_signer_ok : answers_ok (NewPrecomputedSigner (HF := prim) gen_sk) = true.
Proof. vm_compute. reflexivity. Qed.

Lemma gen_starts : fndsa_starts (HF := prim) gen_sk.
Proof. exact (Starts _ gen_sk_bytes (answers_ok_spec _ gen_signer_ok)). Qed.

(** ** The tool and the services *)

Definition gen_run : bool * filesystem :=
  write_keys (HF := prim) (fun _ => true) "keys" gen_vk gen_sk (Ok []) (Ok []) (Ok []) (Ok []) ∅.

Definition gen_allowed : string := "HS256,RS256,ES256,EdDSA".
Definition gen_auth := auth_Bootstrap (HF := prim) (HFS := files_at gen_run.2) 600 "keys" "ES256" "tasktify" "api" 15 gen_allowed.

(** A token of that auth service, under its default algorithm. *)
Definition gen_signed : option (result error string) :=
  match gen_auth with
  | Ok m => multi_Sign no_float m (map_to_list (configs m)) demo_now "jti" demo_rng key_payload
  | Err _ => None
  end.
Definition gen_token : string := match gen_signed with Some (Ok s) => s | _ => "" end.

Lemma gen_token_ok : gen_signed = Some (Ok gen_token).
Proof. vm_compute. reflexivity. Qed.

Lemma surjective_pairing_true {A} (p : bool * A) : fst p = true -> p = (true, snd p).
Proof. by destruct p as [[] a]. Qed.

Lemma gen_run_ok : gen_run = (true, gen_run.2).
Proof. apply surjective_pairing_true. vm_compute. reflexivity. Qed.

Lemma gen_default : forall m, gen_auth = Ok m -> HeaderAlgForConfigAlg (requested m "") <> AlgFNDSA512.
Proof.
  unfold gen_auth, auth_Bootstrap, auth_jwt. intros m. destruct (LoadAllAlgConfigs _ _ _ _) as [cs|e]; [|discriminate].
  cbn [mbind result_bind]. intros [= <-]. discriminate.
Qed.

Lemma generated_keys_serve_witness : exists mg mb,
  gateway_Bootstrap (HF := prim) (HFS := files_at gen_run.2) 600 "keys" "" "tasktify" "api" 15 "" = Ok (mg, mb) /\
  multi_Parse (signingMethods 600) mg (map_to_list (configs mg)) (map_to_list (configs mg)) demo_clock gen_token =
    Some (Ok (issued_claims "tasktify" "api" 15 demo_now "jti" key_payload)).
Proof.
  destruct (generated_keys_serve (HF := prim) 600 (fun _ => true) "keys" gen_vk gen_sk (Ok []) (Ok []) (Ok []) (Ok []) ∅ gen_run.2
    "ES256" "" "tasktify" "api" 15 gen_allowed "") as (ma & mg & mb & Ha & Hg & Hserve).
  - exact gen_run_ok.
  - discriminate.
  - exact gen_starts.
  - intros a. vm_compute. tauto.
  - intros a. vm_compute. tauto.
  - exists mg, mb. split; [exact Hg|]. pose proof gen_token_ok as Ht. unfold gen_signed in Ht. fold gen_auth in Ha. rewrite Ha in Ht.
    apply (Hserve (map_to_list (configs ma)) _ _ no_float demo_now "jti" demo_rng key_payload);
      [reflexivity..|intros H; exact (False_ind _ (gen_default _ Ha H))|exact key_issuable|split; vm_compute; reflexivity|exact Ht|apply Nat.leb_le; vm_compute; reflexivity].
Defined.

#[export] Instance pq_makers `{HF : F64} : @PqMakers HF key_types := {|
  mldsa_GenerateKey p _ := ("module"%string : mldsa_PublicKey p, "module"%string : mldsa_PrivateKey p);
  mldsa_PublicBytes p k := k; mldsa_PrivateBytes p k := k;
  lib_fndsa_KeyGen _ _ := ("sk", "pk")%string;
  slhdsa_GenerateKey _ n := ("tree"%string : slhdsa_PublicKey, "tree"%string : slhdsa_PrivateKey);
  slhdsa_PublicMarshal k := k; slhdsa_PrivateMarshal k := k |}.

#[export] Instance pq_laws `{HF : F64} : PqLaws (HC := key_crypto) (HKP := gen_parsers).
Proof. by constructor. Qed.

Definition pq_run : bool * filesystem := genkey_main (fun _ => true) (fun _ => true) (fun _ => Ok []) ∅.

Example genkey_runs : pq_run.1 = true.
Proof. vm_compute. reflexivity. Qed.

Example genkey_demo fs : pq_run = (true, fs) -> serves 600 "./keys" fs true "ML-DSA-65".
Proof. unfold pq_run. intros H. apply (genkey_serves (fun _ => true) (fun _ => true) 600 (fun _ => Ok []) ∅ fs); [exact H|cbn; tauto]. Qed.
