(* ===== verification/Bench.v ===== *)
(** The benchmark endpoints: gateway/internal/delivery/http/handler/benchmark_handler.go
    and its types.

    What a run measures (the clock, the memory statistics, the counters of
    /proc/self) is an input of each operation, [op_env]; so are the time and the
    randomness of its signature.  float64 is a parameter with its operations,
    [Float64]. *)
From Stdlib Require Import ZArith Lia Ascii String.
From stdpp Require Import base numbers list strings option gmap.
From S2P Require Import Prelude Text Json JsonFacts Claims JwtParser JwtFacts JwtUtil JwtUtilFacts Store Tasks Users.
Local Open Scope Z_scope.

Class Float64 := {
  f64 : Type;
  fl_add : f64 -> f64 -> f64;
  fl_sub : f64 -> f64 -> f64;
  fl_mul : f64 -> f64 -> f64;
  fl_div : f64 -> f64 -> f64;
  fl_sqrt : f64 -> f64;
  fl_max : f64 -> f64 -> f64;
  fl_ltb : f64 -> f64 -> bool;
  fl_isNaN : f64 -> bool;
  fl_of_int : Z -> f64;
  fl_to_int : f64 -> Z
}.

(** [uuid.NewSHA1] of a name in the DNS namespace, and [strings.ToLower]. *)
Class BenchNames `{UUID} := { NewSHA1_DNS : string -> uuid; ToLower : string -> string }.

Section Bench.
Context `{HU : UUID} `{HFc : FloatConv} `{HN : !BenchNames} `{HFl : Float64} {K : Type}.

Local Abbreviation fl := fl_of_int.

(** * Measurements *)

Record MemStats := MkMemStats { HeapAlloc : Z; TotalAlloc : Z; Sys : Z; NumGC : Z }.

Record op_env := MkOp {
  oe_sign : sign_env;
  memBefore : MemStats;
  memAfter : MemStats;
  elapsed : Z;
  cpuOpBefore : Z;
  cpuOpAfter : Z;
  cpuMonitor_pct : f64;
  rssKB : f64;
  GOMAXPROCS : Z
}.

Record BenchmarkRuntimeStats := MkStats {
  MemoryAllocKB : f64; MemoryAllocDeltaKB : f64; MemorySysKB : f64; MemoryRSSKB : f64;
  CPUTimeMs : f64; CPUPct : f64; GCOccurred : bool
}.

Definition bytesPerKB : f64 := fl 1024.
Definition pureSigningInput : string := "tasktify-fndsa-pure-signing-benchmark-message-v1".

Definition durationToMs (d : Z) : f64 := fl_div (fl d) (fl 1000000).
Definition bytesToKB (v : Z) : f64 := fl_div (fl v) bytesPerKB.

Definition benchmarkRuntimeStats (e : op_env) (cpuDelta : Z) (usePerOpCPU : bool) : BenchmarkRuntimeStats :=
  let wallNs := elapsed e in
  let perOp := fl_div (fl_div (fl_mul (fl cpuDelta) (fl 1000000000)) (fl wallNs)) (fl (GOMAXPROCS e)) in
  let cpuPct :=
    if usePerOpCPU then
      if (0 <? wallNs) && (0 <=? cpuDelta) then perOp else fl 0
    else
      let pct := cpuMonitor_pct e in
      if negb (fl_ltb pct (fl 0) || fl_ltb (fl 0) pct || fl_isNaN pct) && (0 <? wallNs) && (0 <? cpuDelta) then perOp else pct in
  MkStats (bytesToKB (HeapAlloc (memAfter e)))
    (bytesToKB (u64 (TotalAlloc (memAfter e) - TotalAlloc (memBefore e))))
    (bytesToKB (Sys (memAfter e))) (rssKB e) (fl_mul (fl cpuDelta) (fl 10)) cpuPct
    (NumGC (memBefore e) <? NumGC (memAfter e)).

Definition combineBenchmarkStats (a r : BenchmarkRuntimeStats) : BenchmarkRuntimeStats :=
  MkStats (MemoryAllocKB r) (fl_add (MemoryAllocDeltaKB a) (MemoryAllocDeltaKB r)) (MemorySysKB r)
    (fl_max (MemoryRSSKB a) (MemoryRSSKB r)) (fl_add (CPUTimeMs a) (CPUTimeMs r))
    (if fl_ltb (CPUPct a) (CPUPct r) then CPUPct r else CPUPct a) (GCOccurred a || GCOccurred r).

(** * Statistics *)

Record TimingStats := MkTiming {
  MinMs : f64; MaxMs : f64; AvgMs : f64; P50Ms : f64; P95Ms : f64; P99Ms : f64; StdevMs : f64; SumMs : f64
}.

(** [sort.Float64s]: not-a-numbers first. *)
Definition float_less (a b : f64) : bool := fl_ltb a b || (fl_isNaN a && negb (fl_isNaN b)).
Fixpoint insert_float (x : f64) (l : list f64) : list f64 :=
  match l with
  | [] => [x]
  | y :: l' => if float_less x y then x :: l else y :: insert_float x l'
  end.
Definition Float64s (l : list f64) : list f64 := foldl (fun acc x => insert_float x acc) [] l.

Definition float_at (l : list f64) (i : Z) : f64 := nth (Z.to_nat i) l (fl 0).

Definition percentile (sorted : list f64) (p : Z) : f64 :=
  let n := Z.of_nat (length sorted) in
  if n =? 1 then float_at sorted 0
  else
    let idx := fl_mul (fl_div (fl p) (fl 100)) (fl (n - 1)) in
    let lo := fl_to_int idx in
    let hi := lo + 1 in
    if n <=? hi then float_at sorted (n - 1)
    else
      let frac := fl_sub idx (fl lo) in
      fl_add (fl_mul (float_at sorted lo) (fl_sub (fl 1) frac)) (fl_mul (float_at sorted hi) frac).

Definition computeTimingStats (timings : list f64) : TimingStats :=
  match timings with
  | [] => MkTiming (fl 0) (fl 0) (fl 0) (fl 0) (fl 0) (fl 0) (fl 0) (fl 0)
  | _ =>
      let sorted := Float64s timings in
      let n := Z.of_nat (length sorted) in
      let sum := foldl fl_add (fl 0) sorted in
      let avg := fl_div sum (fl n) in
      let variance := foldl (fun acc v => let d := fl_sub v avg in fl_add acc (fl_mul d d)) (fl 0) sorted in
      let variance := fl_div variance (fl n) in
      MkTiming (float_at sorted 0) (float_at sorted (n - 1)) avg (percentile sorted 50) (percentile sorted 95)
        (percentile sorted 99) (fl_sqrt variance) sum
  end.

(** The fields of [NumericStats] are those of [TimingStats] without the unit. *)
Definition computeNumericStats (values : list f64) : TimingStats := computeTimingStats values.
Definition scaleValues (values : list f64) (factor : f64) : list f64 := (fun value => fl_mul value factor) <$> values.

(** * Signing one token *)

Definition BenchJwt : Type := sign_env -> JWTPayload -> option (result error string).

(** [benchmarkJWT] is [None] for a nil interface. *)
Definition signBenchmarkToken (benchmarkJWT : option BenchJwt) (e : op_env) (algorithm email tokenUse : string)
    (usePerOpCPU : bool) : option (result error (string * f64 * BenchmarkRuntimeStats)) :=
  match benchmarkJWT with
  | None => Some (Err (Message "benchmark signer not configured"))
  | Some jwt =>
      let payload := MkJWTPayload (NewSHA1_DNS (ToLower email)) email algorithm tokenUse in
      r ← jwt (oe_sign e) payload;
      Some match r with
      | Err err => Err err
      | Ok token => Ok (token, durationToMs (elapsed e), benchmarkRuntimeStats e (i64 (cpuOpAfter e - cpuOpBefore e)) usePerOpCPU)
      end
  end.

Record BenchmarkTokenRequest := MkTokenRequest { bt_Algorithm : string; bt_Email : string }.

(** [POST /api/benchmark/token]: the token and the time of its signature. *)
Definition SignToken (benchmarkJWT : option BenchJwt) (e : op_env) (body : option BenchmarkTokenRequest)
    : option (http_response (string * f64)) :=
  match body with
  | None => Some (HttpError (MkHttpError 400 "invalid request body"))
  | Some req =>
      r ← signBenchmarkToken benchmarkJWT e (bt_Algorithm req) (bt_Email req) TokenUseAccess false;
      Some match r with
      | Err _ => HttpError (MkHttpError 500 "failed to generate benchmark token")
      | Ok (token, signMs, _) => HttpOk 200 (token, signMs)
      end
  end.

(** A signature alone. *)
Definition signPure (configs : gmap string (AlgConfig (K := K))) (e : op_env) (algorithm : string) (usePerOpCPU : bool)
    : option (result error (f64 * BenchmarkRuntimeStats)) :=
  if bool_decide (configs = ∅) then Some (Err (Message "benchmark signer configs not configured"))
  else
    match configs !! algorithm with
    | None => Some (Err (Message "benchmark algorithm not configured"))
    | Some cfg =>
        r ← method_Sign (cfg_Method cfg) (env_rng (oe_sign e)) pureSigningInput (SignKey cfg);
        Some match r with
        | Err err => Err err
        | Ok _ => Ok (durationToMs (elapsed e), benchmarkRuntimeStats e (i64 (cpuOpAfter e - cpuOpBefore e)) usePerOpCPU)
        end
    end.

(** * Runs

    The warm-up signatures are made and forgotten; they are left out. *)

Record resource_samples := MkResources {
  cpuSamples : list f64; cpuTimeSamples : list f64; memAllocSamples : list f64; memAllocDeltaSamples : list f64;
  memSysSamples : list f64; memRSSSamples : list f64
}.
Definition add_resources (s : BenchmarkRuntimeStats) (r : resource_samples) : resource_samples :=
  MkResources (cpuSamples r ++ [CPUPct s]) (cpuTimeSamples r ++ [CPUTimeMs s]) (memAllocSamples r ++ [MemoryAllocKB s])
    (memAllocDeltaSamples r ++ [MemoryAllocDeltaKB s]) (memSysSamples r ++ [MemorySysKB s]) (memRSSSamples r ++ [MemoryRSSKB s]).

Record BenchmarkSignRequest := MkSignRequest {
  bs_Algorithm : string; bs_Iterations : Z; bs_WarmupIterations : Z; bs_Email : string; bs_PayloadNote : string
}.

Record issuance := MkIssuance {
  signTimings : list f64; gcFreeSignTimings : list f64; refreshTokenTimings : list f64;
  gcFreeRefreshTokenTimings : list f64; totalTimings : list f64; is_resources : resource_samples;
  gcContaminatedCount : Z; firstErr : option error
}.

Definition failed_with (err : error) (s : issuance) : issuance :=
  MkIssuance (signTimings s) (gcFreeSignTimings s) (refreshTokenTimings s) (gcFreeRefreshTokenTimings s) (totalTimings s)
    (is_resources s) (gcContaminatedCount s) (match firstErr s with None => Some err | e => e end).

(** One iteration: an access token, then a refresh token. *)
Definition issuance_step (benchmarkJWT : option BenchJwt) (algorithm email : string) (e : op_env * op_env) (s : issuance)
    : option issuance :=
  access ← signBenchmarkToken benchmarkJWT (fst e) algorithm email TokenUseAccess true;
  match access with
  | Err err => Some (failed_with err s)
  | Ok (_, signMs, accessStats) =>
      refresh ← signBenchmarkToken benchmarkJWT (snd e) algorithm email TokenUseRefresh true;
      match refresh with
      | Err err => Some (failed_with err s)
      | Ok (_, refreshMs, refreshStats) =>
          let stats := combineBenchmarkStats accessStats refreshStats in
          let gc := GCOccurred stats in
          Some (MkIssuance (signTimings s ++ [signMs])
            (if gc then gcFreeSignTimings s else gcFreeSignTimings s ++ [signMs])
            (refreshTokenTimings s ++ [refreshMs])
            (if gc then gcFreeRefreshTokenTimings s else gcFreeRefreshTokenTimings s ++ [refreshMs])
            (totalTimings s ++ [fl_add signMs refreshMs]) (add_resources stats (is_resources s))
            (if gc then gcContaminatedCount s + 1 else gcContaminatedCount s) (firstErr s))
      end
  end.

Fixpoint issuance_loop (benchmarkJWT : option BenchJwt) (algorithm email : string) (envs : list (op_env * op_env))
    (s : issuance) : option issuance :=
  match envs with
  | [] => Some s
  | e :: envs' => s ← issuance_step benchmarkJWT algorithm email e s; issuance_loop benchmarkJWT algorithm email envs' s
  end.

Record resource_stats := MkResourceStats {
  CPUUtilization : TimingStats; st_CPUTimeMs : TimingStats; CPUTimePerTokenMs : TimingStats; st_MemoryAllocKB : TimingStats;
  st_MemoryAllocDeltaKB : TimingStats; st_MemorySysKB : TimingStats; st_MemoryRSSKB : TimingStats
}.
Definition resource_result (per_token : list f64 -> list f64) (r : resource_samples) : resource_stats :=
  MkResourceStats (computeNumericStats (cpuSamples r)) (computeNumericStats (cpuTimeSamples r))
    (computeNumericStats (per_token (cpuTimeSamples r))) (computeNumericStats (memAllocSamples r))
    (computeNumericStats (memAllocDeltaSamples r)) (computeNumericStats (memSysSamples r)) (computeNumericStats (memRSSSamples r)).

Record BenchmarkSignResult := MkSignResult {
  Endpoint : string; res_Algorithm : string; JWSAlgorithm : string; Iterations : Z; WarmupIterations : Z;
  SuccessCount : Z; GCContaminatedCount : Z; PayloadNote : string; samples : issuance;
  st_Sign : TimingStats; TokenGenerationGCFree : TimingStats; st_RefreshToken : TimingStats; RefreshTokenGCFree : TimingStats;
  st_Total : TimingStats; Resource : resource_stats
}.

Definition no_resources : resource_samples := MkResources [] [] [] [] [] [].
Definition no_issuance : issuance := MkIssuance [] [] [] [] [] no_resources 0 None.

(** [envs] has the measurements of the iterations asked for; 0.5 is 1/2. *)
Definition jwtIssuance (benchmarkJWT : option BenchJwt) (endpoint : string) (body : option BenchmarkSignRequest)
    (envs : Z -> list (op_env * op_env)) : option (http_response BenchmarkSignResult) :=
  match body with
  | None => Some (HttpError (MkHttpError 400 "invalid request body"))
  | Some req =>
      if bs_Iterations req <=? 0 then Some (HttpError (MkHttpError 400 "iterations must be positive"))
      else
        let warmupIterations := if bs_WarmupIterations req <? 0 then 0 else bs_WarmupIterations req in
        s ← issuance_loop benchmarkJWT (bs_Algorithm req) (bs_Email req) (envs (bs_Iterations req)) no_issuance;
        Some match signTimings s with
        | [] => HttpError (MkHttpError 500 "jwt issuance benchmark failed")
        | _ => HttpOk 200 (MkSignResult endpoint (bs_Algorithm req) (HeaderAlgForConfigAlg (bs_Algorithm req))
            (bs_Iterations req) warmupIterations (Z.of_nat (length (signTimings s))) (gcContaminatedCount s) (bs_PayloadNote req) s
            (computeTimingStats (signTimings s)) (computeTimingStats (gcFreeSignTimings s))
            (computeTimingStats (refreshTokenTimings s)) (computeTimingStats (gcFreeRefreshTokenTimings s))
            (computeTimingStats (totalTimings s))
            (resource_result (fun l => scaleValues l (fl_div (fl 1) (fl 2))) (is_resources s)))
        end
  end.

Definition JWTIssuance (benchmarkJWT : option BenchJwt) := jwtIssuance benchmarkJWT "/api/benchmark/jwt-issuance".
Definition SignLatency (benchmarkJWT : option BenchJwt) := jwtIssuance benchmarkJWT "/api/benchmark/sign".

(** ** Pure signing *)

Record pure_run := MkPure {
  pureSigningTimings : list f64; gcFreePureSigningTimings : list f64; pr_resources : resource_samples;
  pr_gcContaminatedCount : Z; pr_firstErr : option error
}.

Definition pure_step (configs : gmap string (AlgConfig (K := K))) (algorithm : string) (e : op_env) (s : pure_run) : option pure_run :=
  r ← signPure configs e algorithm true;
  Some match r with
  | Err err => MkPure (pureSigningTimings s) (gcFreePureSigningTimings s) (pr_resources s) (pr_gcContaminatedCount s)
      (match pr_firstErr s with None => Some err | e => e end)
  | Ok (signMs, stats) =>
      let gc := GCOccurred stats in
      MkPure (pureSigningTimings s ++ [signMs])
        (if gc then gcFreePureSigningTimings s else gcFreePureSigningTimings s ++ [signMs])
        (add_resources stats (pr_resources s)) (if gc then pr_gcContaminatedCount s + 1 else pr_gcContaminatedCount s)
        (pr_firstErr s)
  end.

Fixpoint pure_loop (configs : gmap string (AlgConfig (K := K))) (algorithm : string) (envs : list op_env) (s : pure_run)
    : option pure_run :=
  match envs with
  | [] => Some s
  | e :: envs' => s ← pure_step configs algorithm e s; pure_loop configs algorithm envs' s
  end.

Record BenchmarkPureSigningResult := MkPureResult {
  pu_Algorithm : string; pu_JWSAlgorithm : string; pu_Iterations : Z; pu_WarmupIterations : Z; pu_SuccessCount : Z;
  pu_GCContaminatedCount : Z; pu_PayloadNote : string; SigningInputBytes : Z; pu_samples : pure_run;
  PureSigning : TimingStats; PureSigningGCFree : TimingStats; pu_Resource : resource_stats
}.

Definition PureSigningHandler (configs : gmap string (AlgConfig (K := K))) (body : option BenchmarkSignRequest)
    (envs : Z -> list op_env) : option (http_response BenchmarkPureSigningResult) :=
  match body with
  | None => Some (HttpError (MkHttpError 400 "invalid request body"))
  | Some req =>
      if bs_Iterations req <=? 0 then Some (HttpError (MkHttpError 400 "iterations must be positive"))
      else
        let warmupIterations := if bs_WarmupIterations req <? 0 then 0 else bs_WarmupIterations req in
        s ← pure_loop configs (bs_Algorithm req) (envs (bs_Iterations req)) (MkPure [] [] no_resources 0 None);
        Some match pureSigningTimings s with
        | [] => HttpError (MkHttpError 500 "pure signing benchmark failed")
        | _ => HttpOk 200 (MkPureResult (bs_Algorithm req) (HeaderAlgForConfigAlg (bs_Algorithm req)) (bs_Iterations req)
            warmupIterations (Z.of_nat (length (pureSigningTimings s))) (pr_gcContaminatedCount s) (bs_PayloadNote req)
            (Z.of_nat (String.length pureSigningInput)) s (computeTimingStats (pureSigningTimings s))
            (computeTimingStats (gcFreePureSigningTimings s)) (resource_result (fun l => l) (pr_resources s)))
        end
  end.
End Bench.
