(* ===== verification/BenchProps.v ===== *)
(** Properties of the benchmark endpoints: what a run accounts for, and what a
    token of the public endpoint is good for. *)
From Stdlib Require Import ZArith Lia Ascii String.
From stdpp Require Import base numbers list strings option gmap.
From S2P Require Import Prelude Bits Codec Util Verify Flr Sign Precomputed FlrEmu Text Json JsonFacts Claims JwtParser JwtFacts JwtMethods JwtUtil JwtUtilFacts Store Tasks TasksFacts Users Demo JwtProps CryptoMethods KeyLoad MethodProps KeyProps KeyDemo Bench.
Local Open Scope Z_scope.

(** * Accounts *)

Section Runs.
Context `{HU : UUID} `{HN : !BenchNames} `{HFl : Float64}.

(** The lists of a run after [i] iterations. *)
Record accounted (i : nat) (s : issuance) : Prop := Accounted {
  ac_lists : length (refreshTokenTimings s) = length (signTimings s) /\ length (totalTimings s) = length (signTimings s) /\
    Forall (fun l : list f64 => length l = length (signTimings s))
      [cpuSamples (is_resources s); cpuTimeSamples (is_resources s); memAllocSamples (is_resources s);
       memAllocDeltaSamples (is_resources s); memSysSamples (is_resources s); memRSSSamples (is_resources s)];
  ac_gc : 0 <= gcContaminatedCount s /\
    Z.of_nat (length (gcFreeSignTimings s)) + gcContaminatedCount s = Z.of_nat (length (signTimings s)) /\
    length (gcFreeRefreshTokenTimings s) = length (gcFreeSignTimings s);
  ac_errors : (length (signTimings s) <= i)%nat /\ (firstErr s = None <-> length (signTimings s) = i)
}.

Lemma accounted_0 : accounted 0 no_issuance.
Proof. constructor; cbn; [|lia|done]. split; [done|]. split; [done|]. repeat constructor. Qed.

Lemma accounted_step jwt alg email e i s s' :
  accounted i s -> issuance_step jwt alg email e s = Some s' -> accounted (S i) s'.
Proof.
  intros [(H1 & H2 & H3) (G1 & G2 & G3) (E1 & E2)]. unfold issuance_step.
  destruct (signBenchmarkToken _ (fst e) _ _ _ _) as [[[[tok ms] st]|err]|]; [| |done]; cbn [mbind option_bind].
  2: { intros [= <-]. constructor; cbn; [done|done|]. split; [lia|]. destruct (firstErr s); (split; [done|intros ?; exfalso; lia]). }
  destruct (signBenchmarkToken _ (snd e) _ _ _ _) as [[[[tok' ms'] st']|err]|]; [| |done]; cbn [mbind option_bind].
  2: { intros [= <-]. constructor; cbn; [done|done|]. split; [lia|]. destruct (firstErr s); (split; [done|intros ?; exfalso; lia]). }
  cbv zeta. intros [= <-]. constructor; cbn [signTimings refreshTokenTimings totalTimings is_resources gcContaminatedCount
    gcFreeSignTimings gcFreeRefreshTokenTimings firstErr add_resources cpuSamples cpuTimeSamples memAllocSamples
    memAllocDeltaSamples memSysSamples memRSSSamples].
  - rewrite !length_app. split; [cbn; lia|]. split; [cbn; lia|].
    rewrite !Forall_cons in H3. destruct H3 as (R1 & R2 & R3 & R4 & R5 & R6 & _).
    repeat (constructor; [rewrite !length_app; cbn; lia|]). constructor.
  - destruct (GCOccurred st || GCOccurred st'); rewrite !length_app; cbn [length]; lia.
  - rewrite length_app. cbn [length]. split; [lia|]. rewrite E2. lia.
Qed.

Lemma accounted_loop jwt alg email envs i s s' :
  accounted i s -> issuance_loop jwt alg email envs s = Some s' -> accounted (i + length envs) s'.
Proof.
  revert i s. induction envs as [|e envs IH]; intros i s Hs; cbn [issuance_loop length].
  - intros [= <-]. by rewrite Nat.add_0_r.
  - destruct (issuance_step jwt alg email e s) as [s1|] eqn:E; [|done]. cbn [mbind option_bind]. intros H.
    rewrite Nat.add_succ_r, <- Nat.add_succ_l. eapply IH; [|exact H]. by eapply accounted_step.
Qed.

(** (C34) A run of the issuance benchmark accounts for its iterations: when it
    answers, every list has one sample for each success, the lists without garbage
    collection leave out exactly the iterations counted as contaminated, there is
    at least one success and at most as many as asked for, and an error was seen
    exactly if some iteration failed.  It answers 500 only when every one failed. *)
Theorem issuance_accounts jwt endpoint req envs answer :
  (forall n, 0 < n -> Z.of_nat (length (envs n)) = n) -> 0 < bs_Iterations req ->
  jwtIssuance jwt endpoint (Some req) envs = Some answer ->
  exists s, accounted (Z.to_nat (bs_Iterations req)) s /\
    match answer with
    | HttpError e => http_status e = 500 /\ signTimings s = [] /\ firstErr s <> None
    | HttpOk status r => status = 200 /\ samples r = s /\ 1 <= SuccessCount r <= Iterations r /\
        Iterations r = bs_Iterations req /\ SuccessCount r = Z.of_nat (length (signTimings s)) /\
        GCContaminatedCount r = gcContaminatedCount s /\ 0 <= WarmupIterations r
    end.
Proof.
  intros Hlen Hpos. unfold jwtIssuance. rewrite (proj2 (Z.leb_gt _ _)) by done. cbv zeta.
  destruct (issuance_loop _ _ _ _ _) as [s|] eqn:E; [|done]. cbn [mbind option_bind]. intros [= <-].
  apply (accounted_loop _ _ _ _ 0) in E; [|apply accounted_0]. pose proof (Hlen _ Hpos) as HL.
  rewrite Nat.add_0_l in E. replace (length (envs (bs_Iterations req))) with (Z.to_nat (bs_Iterations req)) in E by lia.
  exists s. split; [done|]. destruct (ac_errors _ _ E) as [Hle Hnone]. destruct (signTimings s) as [|x l] eqn:Es.
  - cbn [http_status length] in *. split; [done|]. split; [done|]. rewrite Hnone. lia.
  - cbn [samples SuccessCount Iterations GCContaminatedCount WarmupIterations]. rewrite ?Es. cbn [length] in *.
    repeat (split; [lia || done|]). destruct (bs_WarmupIterations req <? 0) eqn:Ew; [lia|]. apply Z.ltb_ge in Ew. lia.
Qed.
End Runs.

(** * The token endpoint *)

Section Token.
Context `{HF : F64} `{Hsh : Shake} `{Hh : Hmac} `{HKT : !KeyTypes} `{HC : !Crypto} `{HP : Pem} `{HKP : !KeyParsers} `{HFS : KeyFiles}.
Context `{HU : UUID} `{HUL : !UUIDLaws} `{HFc : FloatConv} `{HN : !BenchNames} `{HFl : Float64} `{HL : !CryptoLaws} (fuel : nat).

(** The signer of the endpoint, with the keys and the issuer of the services. *)
Definition bench_jwt ff (m : multiAlgJwtUtil (K := anykey)) (order : list (string * AlgConfig (K := anykey))) : BenchJwt :=
  fun e payload => multi_Sign ff m order (env_now e) (env_jti e) (env_rng e) payload.

Lemma bearer_accepted (parse : string -> option (result error JWTClaims)) token claims :
  parse token = Some (Ok claims) -> TokenUse claims = TokenUseAccess ->
  AuthMiddleware parse ("Bearer " ++ token) = Some (Ok (uuid_String (UserID claims), Email claims)).
Proof.
  clear - HU. intros Hp Hu. unfold AuthMiddleware, TrimPrefix.
  assert (String.eqb ("Bearer " ++ token) "" = false) as -> by reflexivity.
  rewrite (proj2 (strip_prefix_some "Bearer " _ token) eq_refl). cbn [from_option id].
  rewrite (proj2 (String.eqb_neq token _)).
  - rewrite Hp. cbn [mbind option_bind]. by rewrite Hu.
  - intros E. apply (f_equal String.length) in E. rewrite length_append in E. cbn in E. lia.
Qed.

(** (C33) Anybody can have an access token for any email: a token the public endpoint
    answers with, for whatever email and algorithm it was asked, is let through by
    the middleware of the protected routes while it is live, as the user whose
    identifier is the hash of the email.  No password is looked at. *)
Theorem benchmark_token_admits keysDir dfltB dfltG iss aud dur algsB algsG mb mg ob og og' ff e alg email token ms clock :
  auth_jwt fuel keysDir dfltB iss aud dur algsB = Ok mb ->
  gateway_jwt fuel keysDir dfltG iss aud dur algsG = Ok mg -> incl algsB algsG ->
  ob ≡ₚ map_to_list (configs mb) -> og ≡ₚ map_to_list (configs mg) -> og' ≡ₚ map_to_list (configs mg) ->
  map_Forall (fun _ => keys_match fuel) (configs mb) ->
  issuable iss aud dur (env_now (oe_sign e)) (env_jti (oe_sign e))
    (MkJWTPayload (NewSHA1_DNS (ToLower email)) email alg TokenUseAccess) ->
  live dur (env_now (oe_sign e)) clock ->
  SignToken (Some (bench_jwt ff mb ob)) e (Some (MkTokenRequest alg email)) = Some (HttpOk 200 (token, ms)) ->
  (String.length token <= maxJWTCompactBytes)%nat ->
  AuthMiddleware (multi_Parse (signingMethods fuel) mg og og' clock) ("Bearer " ++ token) =
    Some (Ok (uuid_String (NewSHA1_DNS (ToLower email)), email)).
Proof.
  intros Eb Eg Hincl Hob Hog Hog' Hk Hiss Hlive Hs Hlen. cbn [SignToken signBenchmarkToken bt_Algorithm bt_Email] in Hs.
  unfold bench_jwt in Hs. destruct (multi_Sign _ _ _ _ _ _ _) as [[s|err]|] eqn:E; [|discriminate Hs|discriminate Hs].
  cbn [mbind option_bind] in Hs. injection Hs as -> _.
  pose proof (cross_service fuel keysDir dfltB dfltG iss aud dur algsB algsG mb mg ob og og' ff _ _ _ _ _ clock
    Eb Eg Hincl Hob Hog Hog' Hk Hiss Hlive E Hlen) as Hp.
  by rewrite (bearer_accepted _ _ _ Hp).
Qed.
End Token.

(** * In the small world *)

#[local] Instance key_names : BenchNames := {| NewSHA1_DNS name := S (String.length name); ToLower s := s |}.
#[local] Instance int_floats : Float64 := {|
  f64 := Z; fl_add := Z.add; fl_sub := Z.sub; fl_mul := Z.mul; fl_div := Z.div; fl_sqrt := Z.sqrt; fl_max := Z.max;
  fl_ltb := Z.ltb; fl_isNaN x := false; fl_of_int x := x; fl_to_int x := x |}.

Definition bench_env (rng : entropy) (gc : Z) : op_env :=
  MkOp (SignEnv demo_now "jti" rng) (MkMemStats 10 2048 4096 0) (MkMemStats 20 4096 4096 gc) 3000000 1 2 0 100 1.

(** The middle of three iterations fails, the last one sees a collection. *)
Definition flaky_jwt : BenchJwt := fun e p => Some (if env_rng e is Ok _ then Ok "token"%string else Err Library).
Definition bench_envs (n : Z) : list (op_env * op_env) :=
  take (Z.to_nat n) [(bench_env (Ok []) 0, bench_env (Ok []) 0); (bench_env (Ok []) 0, bench_env (Err "no entropy") 0);
    (bench_env (Ok []) 0, bench_env (Ok []) 1)]%string ++ replicate (Z.to_nat n - 3) (bench_env (Ok []) 0, bench_env (Ok []) 0).

Lemma issuance_accounts_witness :
  exists r, JWTIssuance (Some flaky_jwt) (Some (MkSignRequest "ES256" 3 1 "a@b" "")) bench_envs = Some (HttpOk 200 r) /\
  SuccessCount r = 2 /\ GCContaminatedCount r = 1 /\
  exists s, accounted 3 s /\
    (200 = 200 /\ samples r = s /\ 1 <= SuccessCount r <= Iterations r /\ Iterations r = 3 /\
     SuccessCount r = Z.of_nat (length (signTimings s)) /\ GCContaminatedCount r = gcContaminatedCount s /\ 0 <= WarmupIterations r).
Proof.
  assert (exists r, JWTIssuance (Some flaky_jwt) (Some (MkSignRequest "ES256" 3 1 "a@b" "")) bench_envs = Some (HttpOk 200 r) /\
    SuccessCount r = 2 /\ GCContaminatedCount r = 1) as (r & E & H1 & H2)
    by (eexists; split; [vm_compute; reflexivity|split; reflexivity]).
  exists r. split; [exact E|]. split; [exact H1|]. split; [exact H2|].
  refine (issuance_accounts (Some flaky_jwt) _ (MkSignRequest "ES256" 3 1 "a@b" "") bench_envs (HttpOk 200 r) _ _ E).
  - intros n Hn. unfold bench_envs. rewrite length_app, length_take, length_replicate. cbn [length]. lia.
  - reflexivity.
Defined.

Lemma bench_issuable : issuable "tasktify" "api" 15 demo_now "jti"
  (MkJWTPayload (NewSHA1_DNS (ToLower "b@c")) "b@c" "ES256" TokenUseAccess).
Proof.
  constructor.
  - discriminate.
  - split; [discriminate|reflexivity].
  - right. by left.
  - split; [reflexivity|split; reflexivity].
  - split; vm_compute; split; congruence.
  - split; vm_compute; split; congruence.
Qed.

Lemma benchmark_token_admits_witness :
  exists token ms,
    SignToken (Some (bench_jwt no_float (key_multi true) (map_to_list (key_configs true)))) (bench_env demo_rng 0)
      (Some (MkTokenRequest "ES256" "b@c")) = Some (HttpOk 200 (token, ms)) /\
    AuthMiddleware (multi_Parse (signingMethods 600) (key_multi false) (map_to_list (key_configs false))
      (map_to_list (key_configs false)) demo_clock) ("Bearer " ++ token) = Some (Ok (uuid_String (4%nat : uuid), "b@c"%string)).
Proof.
  assert (exists token ms, SignToken (Some (bench_jwt no_float (key_multi true) (map_to_list (key_configs true)))) (bench_env demo_rng 0)
    (Some (MkTokenRequest "ES256" "b@c")) = Some (HttpOk 200 (token, ms)) /\ (String.length token <=? maxJWTCompactBytes)%nat = true)
    as (token & ms & E & Hlen) by (eexists _, _; split; [vm_compute; reflexivity|vm_compute; reflexivity]).
  exists token, ms. split; [exact E|].
  refine (eq_trans (benchmark_token_admits 600 "" "ES256" "" "tasktify" "api" 15 key_algs key_algs (key_multi true) (key_multi false)
    (map_to_list (key_configs true)) (map_to_list (key_configs false)) (map_to_list (key_configs false)) no_float
    (bench_env demo_rng 0) "ES256" "b@c" token ms demo_clock _ _ _ _ _ _ _ _ _ _ _) _).
  - exact key_auth_ok.
  - exact key_gateway_ok.
  - apply incl_refl.
  - reflexivity.
  - reflexivity.
  - reflexivity.
  - exact key_pairs.
  - exact bench_issuable.
  - split; vm_compute; reflexivity.
  - exact E.
  - apply Nat.leb_le. exact Hlen.
  - reflexivity.
Defined.
