(* ===== verification/Request.v ===== *)
(** Tokens in HTTP requests: pkg/jwt/request/{extractor,oauth2,request}.go.

    A request is what [Header.Get] and, once the form is parsed, [Form.Get] say of
    it: the empty string where there is no value. *)
From Stdlib Require Import ZArith Lia Ascii String.
From stdpp Require Import base numbers list strings option gmap.
From S2P Require Import Prelude Text Json JsonFacts Claims JwtParser JwtFacts.
Local Open Scope Z_scope.

Record request := MkRequest { header_Get : string -> string; form_Get : string -> string }.

(** Both values of a Go function that returns a token and an error count. *)
Definition extraction : Type := string * option error.

Definition no_token : extraction := (""%string, Some (Sentinel ErrNoTokenInRequest)).

(** [OtherExtractor] is any implementation outside of the package. *)
Unset Elimination Schemes.
Inductive Extractor :=
  | HeaderExtractor (e : list string)
  | ArgumentExtractor (e : list string)
  | MultiExtractor (e : list Extractor)
  | PostExtractionFilter (e : Extractor) (Filter : string -> extraction)
  | BearerExtractor
  | OtherExtractor (f : request -> extraction).
Set Elimination Schemes.

Fixpoint first_value (get : string -> string) (names : list string) : extraction :=
  match names with
  | [] => no_token
  | name :: names' =>
      let ah := get name in
      if negb (String.eqb ah "") then (ah, None) else first_value get names'
  end.

Fixpoint ascii_lower (s : string) : string :=
  match s with
  | EmptyString => EmptyString
  | String c s' =>
      let b := byte_of c in String (if (65 <=? b) && (b <=? 90) then chr (b + 32) else c) (ascii_lower s')
  end.

(** [strings.EqualFold(s, "bearer ")]: no character outside ASCII folds to one of
    these letters. *)
Definition equal_fold_bearer (s : string) : bool := String.eqb (ascii_lower s) "bearer ".

Definition str_take (n : nat) (s : string) : string := substring 0 n s.
Definition str_drop (n : nat) (s : string) : string := substring n (String.length s - n) s.

Fixpoint ExtractToken (e : Extractor) (req : request) : extraction :=
  match e with
  | HeaderExtractor names => first_value (header_Get req) names
  | ArgumentExtractor names => first_value (form_Get req) names
  | MultiExtractor es =>
      (fix go (es : list Extractor) : extraction :=
        match es with
        | [] => no_token
        | extractor :: es' =>
            let '(tok, err) := ExtractToken extractor req in
            if negb (String.eqb tok "") then (tok, None)
            else if negb (match err with Some e => errors_is e ErrNoTokenInRequest | None => false end)
            then (""%string, err)
            else go es'
        end) es
  | PostExtractionFilter extractor Filter =>
      let '(tok, err) := ExtractToken extractor req in
      if negb (String.eqb tok "") then Filter tok else (""%string, err)
  | BearerExtractor =>
      let tokenHeader := header_Get req "Authorization" in
      if (String.length tokenHeader <? 7)%nat || negb (equal_fold_bearer (str_take 7 tokenHeader)) then no_token
      else (str_drop 7 tokenHeader, None)
  | OtherExtractor f => f req
  end.

Definition stripBearerPrefixFromTokenString (tok : string) : extraction :=
  if (6 <? String.length tok)%nat && equal_fold_bearer (str_take 7 tok) then (str_drop 7 tok, None) else (tok, None).

Definition AuthorizationHeaderExtractor : Extractor :=
  PostExtractionFilter (HeaderExtractor ["Authorization"%string]) stripBearerPrefixFromTokenString.
Definition OAuth2Extractor : Extractor :=
  MultiExtractor [AuthorizationHeaderExtractor; ArgumentExtractor ["access_token"%string]].

(** * Parsing the token of a request

    The claims are those of [WithClaims], or a map. *)
Section Parse.
Context {K C : Type} `{FloatConv} `{Claims C} `{ClaimsCodec C}.
Context (format_float : float -> option string) (signingMethods : registry K).

Record fromRequestParser := MkFromRequest { fr_claims : option C; fr_parser : option Parser }.
Definition ParseFromRequestOption := fromRequestParser -> fromRequestParser.
Definition WithClaims (claims : C) : ParseFromRequestOption := fun p => MkFromRequest (Some claims) (fr_parser p).
Definition WithParser (parser : option Parser) : ParseFromRequestOption := fun p => MkFromRequest (fr_claims p) parser.

(** [&jwt.Parser{}] *)
Definition zero_parser : Parser := MkParser None false false None false false.

Definition ParseFromRequest (clock : time) (req : request) (extractor : Extractor)
    (keyFunc : Token K C + Token K MapClaims -> result error (found_key K)) (options : list ParseFromRequestOption)
    : option (result error (Token K C + Token K MapClaims)) :=
  let p := foldl (fun p option => option p) (MkFromRequest None None) options in
  let parser := default zero_parser (fr_parser p) in
  match ExtractToken extractor req with
  | (_, Some err) => Some (Err err)
  | (tokenString, None) =>
      match fr_claims p with
      | Some claims =>
          r ← ParseWithClaims signingMethods parser clock tokenString claims (Some (fun t => keyFunc (inl t)));
          Some (t ← r; Ok (inl t))
      | None =>
          r ← ParseWithClaims (H0 := map_claims_codec format_float) signingMethods parser clock tokenString (∅ : MapClaims)
                (Some (fun t => keyFunc (inr t)));
          Some (t ← r; Ok (inr t))
      end
  end.

Definition ParseFromRequestWithClaims (clock : time) (req : request) (extractor : Extractor) (claims : C)
    (keyFunc : Token K C + Token K MapClaims -> result error (found_key K)) :=
  ParseFromRequest clock req extractor keyFunc [WithClaims claims].
End Parse.

(** * What the extractors find *)

(** Where the token of an OAuth 2 request is: the [Authorization] header, without
    the prefix, and only if there is no such header the parameter. *)
Definition oauth2_token (req : request) : extraction :=
  let authorization := header_Get req "Authorization" in
  let access_token := form_Get req "access_token" in
  if String.eqb authorization "" then
    if String.eqb access_token "" then no_token else (access_token, None)
  else stripBearerPrefixFromTokenString authorization.

(** Prefixes are removed whatever their case is, and nothing but the prefix. *)
Lemma strip_bearer_spec tok :
  stripBearerPrefixFromTokenString tok =
    (if equal_fold_bearer (str_take 7 tok) then str_drop 7 tok else tok, None).
Proof.
  unfold stripBearerPrefixFromTokenString. destruct (equal_fold_bearer (str_take 7 tok)) eqn:E.
  - destruct (Nat.ltb_spec 6 (String.length tok)); [done|]. exfalso. revert E. unfold equal_fold_bearer.
    intros E%String.eqb_eq. do 7 (destruct tok as [|? tok]; [discriminate E|]). cbn in *. lia.
  - by rewrite andb_false_r.
Qed.

(** The search of [OAuth2Extractor] ends in the header whenever it has a value,
    even one that leaves an empty token: then there is no token and no error. *)
Theorem oauth2_extracts req : ExtractToken OAuth2Extractor req = oauth2_token req.
Proof.
  unfold oauth2_token. cbn [ExtractToken OAuth2Extractor AuthorizationHeaderExtractor first_value].
  rewrite strip_bearer_spec. destruct (String.eqb (header_Get req "Authorization") "") eqn:E; cbn [negb no_token].
  - cbn. rewrite bool_decide_eq_true_2 by done. cbn [negb].
    destruct (String.eqb (form_Get req "access_token") "") eqn:F; cbn; [by rewrite bool_decide_eq_true_2|by rewrite F].
  - rewrite E. cbn [negb]. rewrite strip_bearer_spec. by destruct (if equal_fold_bearer _ then _ else _).
Qed.

(** With the prefix, [BearerExtractor] and [OAuth2Extractor] find the same token. *)
Lemma bearer_oauth2 req tok :
  ExtractToken BearerExtractor req = (tok, None) -> ExtractToken OAuth2Extractor req = (tok, None).
Proof.
  rewrite oauth2_extracts. unfold oauth2_token. cbn [ExtractToken].
  destruct (Nat.ltb_spec (String.length (header_Get req "Authorization")) 7) as [|Hl]; [done|]. cbn [orb].
  destruct (equal_fold_bearer _) eqn:E; [|done]. cbn [negb]. intros [= <-].
  destruct (String.eqb_spec (header_Get req "Authorization") "") as [E0|_]; [rewrite E0 in Hl; cbn in Hl; lia|].
  by rewrite strip_bearer_spec, E.
Qed.

(** A header with the prefix alone hides the parameter. *)
Lemma empty_bearer_hides_parameter :
  let req := MkRequest (fun name => if String.eqb name "Authorization" then "Bearer " else "")%string
               (fun name => if String.eqb name "access_token" then "token" else "")%string in
  ExtractToken OAuth2Extractor req = (""%string, None).
Proof. reflexivity. Qed.
