(* ===== verification/TokenProps.v ===== *)
(** The token service over the signature scheme: which signature stands behind
    an accepted token. *)
From Stdlib Require Import ZArith Lia Ascii String.
From stdpp Require Import base numbers list strings option gmap.
From S2P Require Import Prelude Bits Codec Util Verify Flr Sign Precomputed FlrEmu Text Json JsonFacts Claims JwtParser JwtFacts JwtMethods JwtUtil JwtUtilFacts Store Tasks Users Demo.
Local Open Scope Z_scope.

Section Signed.
Context `{HF : F64} `{Hsh : Shake} `{Hh : Hmac} `{HU : UUID} `{HFc : FloatConv} (fuel : nat) (others : registry key).

(** Every method is registered under the name it gives itself. *)
Definition well_named (r : registry key) : Prop := forall n m, GetSigningMethod r n = Some m -> Alg m = n.

Lemma init_registry_named : well_named others -> well_named (init_registry fuel others).
Proof.
  intros Ho n m. unfold GetSigningMethod, init_registry, RegisterSigningMethod, registry. cbn [foldr].
  rewrite !lookup_insert_Some.
  intros H. repeat destruct H as [[<- <-]|[_ H]]; [reflexivity..|]. by apply Ho.
Qed.

Lemma registered_method n m :
  well_named others -> GetSigningMethod (init_registry fuel others) n = Some m ->
  forall m', In m' [SigningMethodNone; SigningMethodHS256; SigningMethodHS384; SigningMethodHS512;
    SigningMethodFN512 fuel; SigningMethodFN1024 fuel] -> Alg m = Alg m' -> m = m'.
Proof.
  intros Ho Hn m' Hin Ha. apply init_registry_named in Hn as Hname; [|done].
  pose proof (init_registry_get fuel others m' Hin) as Hg. rewrite <- Ha, Hname in Hg. congruence.
Qed.

(** The parts of an accepted token. *)
Lemma accepted_parts (j : jwtUtil) clock token claims :
  jwtUtil_Parse KBytes (init_registry fuel others) j clock token = Some (Ok claims) ->
  exists t h c s n, splitToken token = Some (h, c, s) /\ b64_decode false false s = Some (Signature t) /\
    ParseUnverified (init_registry fuel others) (NewParser (parserOptions (issuer j) (audience j) (allowedAlgs j)))
      token zero_claims = Ok (t, (h, c, s)) /\
    GetSigningMethod (init_registry fuel others) n = Some (token_Method t) /\ In (Alg (token_Method t)) (allowedAlgs j) /\
    method_Verify (token_Method t) (h ++ "." ++ c)%string (Signature t) (KBytes (verifyKey j)) = Some None.
Proof.
  intros [_ (t & h & c & got & Hun & Hv & _ & Hin & Hk & Hver & _) _]%parse_token_ok.
  injection Hk as <-. destruct (un_split _ _ _ _ _ _ _ Hun) as (s & Hs & Hsig).
  destruct (un_method _ _ _ _ _ _ _ Hun) as (n & _ & Hm).
  exists t, h, c, s, n. split; [done|]. split; [by rewrite util_parser in Hsig|]. split; [|done].
  apply ParseUnverified_ok. done.
Qed.

(** No algorithm confusion: a service configured for FN-DSA accepts a token
    only if FN-DSA verification under the configured public key accepts the
    token's signature on its first two segments; neither HMAC keyed with the
    public key nor any other registered method is ever tried. *)
Theorem accepted_token_is_signed (j : jwtUtil) clock token claims :
  well_named others -> incl (allowedAlgs j) [AlgFNDSA512; AlgFNDSA1024] ->
  jwtUtil_Parse KBytes (init_registry fuel others) j clock token = Some (Ok claims) ->
  exists h c s sig, splitToken token = Some (h, c, s) /\ b64_decode false false s = Some sig /\
    Verify.Verify fuel (to_bytes (verifyKey j)) [] SHA3_256 (to_bytes (h ++ "." ++ c)) (to_bytes sig) = Some true.
Proof.
  intros Ho Hincl (t & h & c & s & n & Hs & Hd & _ & Hm & Hin & Hver)%accepted_parts.
  exists h, c, s, (Signature t). split; [done|]. split; [done|].
  assert (token_Method t = SigningMethodFN512 fuel \/ token_Method t = SigningMethodFN1024 fuel) as Hfn.
  { apply Hincl in Hin as [Ha|[Ha|[]]]; [left|right]; eapply registered_method; try done; cbn; tauto. }
  assert (fndsa_Verify fuel (h ++ "." ++ c) (Signature t) (KBytes (verifyKey j)) = Some None) as Hf
    by (destruct Hfn as [E|E]; rewrite E in Hver; exact Hver).
  apply fndsa_Verify_none in Hf as (b & [= <-] & Hv). exact Hv.
Qed.

(** The method [none] never passes: a token whose header names it is refused
    whatever algorithms the configuration allows. *)
Theorem none_never_accepted (j : jwtUtil) clock token t parts claims :
  well_named others ->
  ParseUnverified (init_registry fuel others) (NewParser (parserOptions (issuer j) (audience j) (allowedAlgs j)))
    token zero_claims = Ok (t, parts) ->
  Alg (token_Method t) = "none"%string ->
  jwtUtil_Parse KBytes (init_registry fuel others) j clock token <> Some (Ok claims).
Proof.
  intros Ho Ht Hnone (t' & h & c & s & n & _ & _ & Ht' & Hm & _ & Hver)%accepted_parts.
  rewrite Ht in Ht'. injection Ht' as <- _.
  assert (token_Method t = SigningMethodNone) as E by (eapply registered_method; [done|done|by left|done]).
  rewrite E in Hver. discriminate Hver.
Qed.
End Signed.

(** * In a small world

    A generator of zeros, under which the unit key verifies the unit signature
    of any text, and a token that carries it. *)

Definition demo_hmac : Hmac := {| hash_available h := true; hmac_sum h k text := checksum k text |}.

Definition zero_registry : registry (@key emu) := @init_registry emu toy_shake0 demo_hmac 600 ∅.
Definition zero_signer (name sig : string) : SigningMethod (@key emu) :=
  Method name (fun _ _ _ => None) (fun _ _ _ => Some (Ok sig)) false.
Definition zero_util (name sig : string) : jwtUtil (K := @key emu) :=
  NewJwtUtilWithSigner [name] "tasktify" "api" 15 (zero_signer name sig) (of_bytes (unit_key 9)).
Definition zero_token (name sig : string) : string :=
  match jwtUtil_Sign KNil no_float (zero_util name sig) demo_now "jti" demo_rng (demo_payload "") with
  | Some (Ok s) => s
  | _ => ""
  end.
Definition zero_parse (name sig : string) : option (result error JWTClaims) :=
  jwtUtil_Parse KBytes zero_registry (zero_util name sig) demo_clock (zero_token name sig).
Lemma named_empty : @well_named emu (∅ : registry (@key emu)).
Proof. intros n m H. assert (GetSigningMethod (∅ : registry (@key emu)) n = None) as E by reflexivity. by rewrite H in E. Qed.

Lemma zero_parsed : exists c, zero_parse AlgFNDSA512 (of_bytes (unit_sig 9)) = Some (Ok c).
Proof. eexists. vm_compute. reflexivity. Qed.

Lemma accepted_token_is_signed_witness :
  exists h c s sig, splitToken (zero_token AlgFNDSA512 (of_bytes (unit_sig 9))) = Some (h, c, s) /\
    b64_decode false false s = Some sig /\
    @Verify.Verify toy_shake0 600 (to_bytes (of_bytes (unit_key 9))) [] SHA3_256
      (to_bytes (h ++ "." ++ c)) (to_bytes sig) = Some true.
Proof.
  destruct zero_parsed as [claims Hp].
  refine (@accepted_token_is_signed emu toy_shake0 demo_hmac demo_uuid demo_floats 600 ∅
    (zero_util AlgFNDSA512 (of_bytes (unit_sig 9))) demo_clock _ claims named_empty _ Hp).
  intros a [<-|[]]. left. reflexivity.
Defined.

(** A token that says [none], unsigned, with a configuration that allows it. *)
Definition none_parsed := ParseUnverified (C := JWTClaims) zero_registry
  (NewParser (parserOptions (issuer (zero_util "none" "")) (audience (zero_util "none" "")) (allowedAlgs (zero_util "none" ""))))
  (zero_token "none" "") zero_claims.

Lemma none_read : exists t parts, none_parsed = Ok (t, parts) /\ Alg (token_Method t) = "none"%string.
Proof.
  assert (match none_parsed with Ok (t, _) => Alg (token_Method t) | Err _ => "" end = "none"%string) as H
    by (vm_compute; reflexivity).
  destruct none_parsed as [[t parts]|e]; [by exists t, parts|discriminate H].
Qed.

Lemma none_never_accepted_witness :
  zero_parse "none" "" <> Some (Ok zero_claims) /\ exists t parts, none_parsed = Ok (t, parts) /\ Alg (token_Method t) = "none"%string.
Proof.
  destruct none_read as (t & parts & Ht & Ha). split; [|exact (ex_intro _ t (ex_intro _ parts (conj Ht Ha)))].
  unfold zero_parse. unfold none_parsed in Ht.
  exact (@none_never_accepted emu toy_shake0 demo_hmac demo_uuid demo_floats 600 ∅
    (zero_util "none" "") demo_clock (zero_token "none" "") t parts zero_claims named_empty Ht Ha).
Defined.
