(* ===== verification/TaskProps.v ===== *)
(** Properties of the task service behind the gateway: who reads and writes
    which task, what each request leaves in the table, and what it answers when
    it is refused. *)
From Stdlib Require Import ZArith Lia Ascii String.
From stdpp Require Import base numbers list strings option gmap.
From S2P Require Import Prelude Text Json JsonFacts Claims JwtParser JwtUtil JwtUtilFacts Store Tasks TasksFacts Demo.
Local Open Scope Z_scope.

Section Props.
Context `{HU : UUID} `{HUL : !UUIDLaws} `{HT : Timestamps} `{HTL : !TimestampsLaws}.
Context `{HG : !Gorm Task} `{HGL : !GormLaws Task}.

(** * The middleware *)

(** A bearer header with a token the parser accepts as an access token. *)
Definition authorises (jwt_Parse : string -> option (result error JWTClaims)) (authHeader : string) (claims : JWTClaims) : Prop :=
  exists token, authHeader = ("Bearer " ++ token)%string /\ jwt_Parse token = Some (Ok claims) /\
    (TokenUse claims = ""%string \/ TokenUse claims = TokenUseAccess).

Lemma append_neq c p s : (String c p ++ s)%string <> s.
Proof. intros H%(f_equal String.length). rewrite length_append in H. cbn [String.length] in H. lia. Qed.

Lemma AuthMiddleware_ok P hdr u e :
  AuthMiddleware P hdr = Some (Ok (u, e)) <->
  exists claims, authorises P hdr claims /\ u = uuid_String (UserID claims) /\ e = Email claims.
Proof.
  unfold AuthMiddleware, authorises, TrimPrefix. split.
  - destruct (String.eqb_spec hdr "") as [|Hne]; [done|].
    destruct (Json.strip_prefix "Bearer " hdr) as [tok|] eqn:E; cbn [from_option id]; [|by rewrite String.eqb_refl].
    apply strip_prefix_some in E. subst hdr.
    destruct (String.eqb_spec tok ("Bearer " ++ tok)) as [|_]; [done|].
    destruct (P tok) as [[claims|]|] eqn:Ep; [|done..]. cbn [mbind option_bind].
    destruct (String.eqb_spec (TokenUse claims) ""), (String.eqb_spec (TokenUse claims) TokenUseAccess);
      cbn [negb andb]; intros [= <- <-]; exists claims; (split; [exists tok|done]); auto.
  - intros (claims & (tok & -> & Hp & Huse) & -> & ->).
    rewrite (proj2 (strip_prefix_some "Bearer " _ tok) eq_refl). cbn [from_option id].
    assert (String.eqb ("Bearer " ++ tok) "" = false) as -> by reflexivity.
    assert (String.eqb tok ("Bearer " ++ tok) = false) as ->
      by (apply String.eqb_neq; intros H; symmetry in H; by apply append_neq in H).
    rewrite Hp. cbn [mbind option_bind]. by destruct Huse as [-> | ->].
Qed.

(** * One request *)

Lemma tasks_route_cases P hdr req d resp d' :
  tasks_route P hdr req d = Some (resp, d') ->
  (d' = d /\ exists e, resp = HttpError e) \/
  exists claims, authorises P hdr claims /\ task_handler (uuid_String (UserID claims)) req d = (resp, d').
Proof.
  unfold tasks_route. destruct (AuthMiddleware P hdr) as [[[u e]|e]|] eqn:E; [| |done]; cbn [mbind option_bind].
  - apply AuthMiddleware_ok in E as (claims & Ha & -> & _). intros [= <-]. right. by exists claims.
  - intros [= <- <-]. left. split; [done|]. by exists e.
Qed.

(** (C5) A request reads and writes the tasks of one user only: the one named by
    an access token the parser accepts, carried in a bearer header.  Without
    such a token nothing changes and the answer is an error; with it, the tasks
    of every other user stay as they are, and the tasks shown are stored tasks
    of that user. *)
Theorem tasks_isolated P hdr req d resp d' :
  tasks_route P hdr req d = Some (resp, d') ->
  (d' = d /\ exists e, resp = HttpError e) \/
  exists claims, authorises P hdr claims /\
    (forall v, v <> UserID claims -> owned_by v (rows Task d') = owned_by v (rows Task d)) /\
    (forall st rs r, resp = HttpOk st rs -> In r rs ->
       answers (UserID claims) (uuid_String (UserID claims)) (rows Task d) r).
Proof.
  intros [?|(claims & Ha & H)]%tasks_route_cases; [by left|]. right. exists claims. split; [done|].
  pose proof (uuid_Parse_String (UserID claims)) as Hu. split.
  - intros v Hv. apply effect_others with (u := UserID claims); [|done].
    pose proof (handler_effect _ _ req d Hu) as He. by rewrite H in He.
  - intros st rs r -> Hr. eapply handler_answers; [exact Hu| |exact Hr]. by rewrite H.
Qed.

(** * Sequences of requests *)

(** The table after the requests of a log, each with the time it came at and its
    header, in the order they were served. *)
Inductive served (P : time -> string -> option (result error JWTClaims)) :
    list (time * string * http_request) -> db Task -> db Task -> Prop :=
  | served_nil d : served P [] d d
  | served_cons clock hdr req resp log d d1 d2 :
      tasks_route (P clock) hdr req d = Some (resp, d1) -> served P log d1 d2 ->
      served P ((clock, hdr, req) :: log) d d2.

(** No request of the log is authorised for the user. *)
Definition silent P (v : uuid) (log : list (time * string * http_request)) : Prop :=
  Forall (fun '(clock, hdr, _) => forall claims, authorises (P clock) hdr claims -> UserID claims <> v) log.

Lemma served_silent P log d d' v :
  served P log d d' -> silent P v log -> owned_by v (rows Task d') = owned_by v (rows Task d).
Proof.
  induction 1 as [|clock hdr req resp log d d1 d2 Hr _ IH]; intros Hs; [done|].
  apply Forall_cons_1 in Hs as [H1 Hs]. rewrite IH by done.
  apply tasks_route_cases in Hr as [[-> _]|(claims & Ha & H)]; [done|].
  apply effect_others with (u := UserID claims); [|by apply not_eq_sym, H1].
  pose proof (handler_effect _ _ req d (uuid_Parse_String (UserID claims))) as He. by rewrite H in He.
Qed.

Lemma route_effect P hdr req d resp d' :
  tasks_route P hdr req d = Some (resp, d') -> exists u, effect u (rows Task d) (rows Task d').
Proof.
  intros [[-> _]|(claims & _ & H)]%tasks_route_cases; [exists uuid_Nil; constructor|].
  exists (UserID claims). pose proof (handler_effect _ _ req d (uuid_Parse_String (UserID claims))) as He.
  by rewrite H in He.
Qed.

Lemma served_keyed P log d d' : served P log d d' -> keyed Task (rows Task d) -> keyed Task (rows Task d').
Proof.
  induction 1 as [|clock hdr req resp log d d1 d2 Hr _ IH]; [done|]. intros Hk. apply IH.
  apply route_effect in Hr as (u & He). by apply (effect_keyed u (rows Task d)).
Qed.

(** (C15) Invariant of every history of requests: each task stays stored under
    its own identifier, which is never the zero one, and a user whose tokens
    never appear keeps exactly the tasks they had. *)
Theorem tasks_invariant P log d d' :
  served P log d d' -> keyed Task (rows Task d) ->
  keyed Task (rows Task d') /\
  forall v, silent P v log -> owned_by v (rows Task d') = owned_by v (rows Task d).
Proof. intros Hs Hk. split; [by eapply served_keyed|]. intros v. by eapply served_silent. Qed.

(** One request never gives a task to another user: a task that is there
    before and after has the same owner. *)
Theorem task_owner_kept P hdr req d resp d' id t t' :
  tasks_route P hdr req d = Some (resp, d') ->
  rows Task d !! id = Some t -> rows Task d' !! id = Some t' -> UserId t' = UserId t.
Proof. intros (u & He)%route_effect. by apply (effect_owner u). Qed.

(** * What a request leaves in the table *)

Lemma route_authorised P hdr claims req d :
  authorises P hdr claims -> tasks_route P hdr req d = Some (task_handler (uuid_String (UserID claims)) req d).
Proof.
  intros Ha. unfold tasks_route.
  by rewrite (proj2 (AuthMiddleware_ok P hdr _ (Email claims)) (ex_intro _ claims (conj Ha (conj eq_refl eq_refl)))).
Qed.

Definition body_of (req : http_request) : option TaskBody :=
  match req with PostTask b | PutTask _ b => b | _ => None end.

(** The table after a request of user [u] that was answered. *)
Definition wrote (u : uuid) (req : http_request) (m m' : gmap uuid Task) : Prop :=
  match req with
  | PostTask (Some b) => exists id now, id <> uuid_Nil /\ m !! id = None /\ m' = <[id := created u id b now]> m
  | PutTask id (Some b) => exists i old now, uuid_Parse id = Some i /\ m !! i = Some old /\ UserId old = u /\
      m' = <[i := updated old b now]> m
  | DeleteTask id => exists i old, uuid_Parse id = Some i /\ m !! i = Some old /\ UserId old = u /\ m' = delete i m
  | GetTask _ | GetTasks => m' = m
  | PostTask None | PutTask _ None => False
  end.

Lemma refused_not_ok id st rs : refused_http id <> HttpOk st rs.
Proof. unfold refused_http, refusal. by destruct (uuid_Parse id). Qed.

(** (C18) What an answered request leaves, row by row and nothing else: a new
    task under an unused identifier with the fields of the body and one clock
    reading in both times; the named task of the user with the non-empty texts
    and the non-zero due date of the body written over the old ones (an empty
    text or a zero date keeps what was there), the identifier, owner and time
    of creation kept and a new time of update; the table without the named task
    of the user; or the same table. *)
Theorem task_writes_exact P hdr claims req d st rs d' :
  authorises P hdr claims -> keyed Task (rows Task d) -> due_range (body_of req ≫= b_DueDate) ->
  tasks_route P hdr req d = Some (HttpOk st rs, d') ->
  wrote (UserID claims) req (rows Task d) (rows Task d').
Proof.
  intros Ha Hk Hdue H. rewrite (route_authorised _ _ claims) in H by done. injection H as H.
  pose proof (uuid_Parse_String (UserID claims)) as Hu.
  assert (forall id b, uuid_Parse id = None -> In req [PutTask id (Some b); DeleteTask id; GetTask id] -> False) as Hid.
  { intros id b Hn Hin. rewrite (handler_refused _ id b) in H by (done || by apply not_owned_unparsed).
    injection H as H _. by apply refused_not_ok in H. }
  destruct req as [[b|]|id [b|]|id|id|]; cbn [wrote task_handler] in *; try done.
  - by apply (handler_Create_ok _ _ _ _ st rs) with (1 := Hu).
  - destruct (uuid_Parse id) as [i|] eqn:Ei; [|exfalso; apply (Hid id b); [done|by left]].
    destruct (handler_Update_ok _ _ _ _ _ _ _ _ _ Hu Ei Hdue Hk H) as (old & now & ?). by exists i, old, now.
  - destruct (uuid_Parse id) as [i|] eqn:Ei; [|exfalso; apply (Hid id (MkBody "" "" "" None)); [done|by right; left]].
    destruct (handler_Delete_ok _ _ _ _ _ _ _ Ei Hk H) as (old & ?). by exists i, old.
  - unfold handler_GetById in H. apply call_tasks_ok in H as [r H]. rewrite interceptor_server in H.
    unfold TaskServer, getUserID in H. rewrite uuid_text_nonempty in H. by injection H as _ <-.
  - unfold handler_GetAll in H. apply call_tasks_ok in H as [r H]. rewrite interceptor_server in H.
    unfold TaskServer, getUserID in H. rewrite uuid_text_nonempty in H. by injection H as _ <-.
Qed.

(** A task that is not the caller's and a task that does not exist get the
    same answer, and nothing changes: 404 for an identifier that parses, 400 for
    one that does not. *)
Theorem foreign_task_refused P hdr claims id b req d :
  authorises P hdr claims -> not_owned (UserID claims) id (rows Task d) ->
  In req [PutTask id (Some b); DeleteTask id; GetTask id] ->
  tasks_route P hdr req d = Some (HttpError (match uuid_Parse id with
    | Some _ => MkHttpError 404 "task not found"
    | None => MkHttpError 400 "invalid task id" end), d).
Proof.
  intros Ha Hn Hr. rewrite (route_authorised _ _ claims) by done. rewrite (handler_refused _ id b) by done.
  unfold refused_http, refusal. by destruct (uuid_Parse id).
Qed.

(** A task that was created is listed: after any requests of other users,
    the list the user asks for holds a task with the title, description and
    status of the body and its due date, if that is after 1970. *)
Theorem created_task_listed P c1 h1 c2 h2 log d d1 d2 d3 st1 st2 rs1 rs2 b claims1 claims2 :
  authorises (P c1) h1 claims1 -> authorises (P c2) h2 claims2 -> UserID claims2 = UserID claims1 ->
  due_range (b_DueDate b) -> silent P (UserID claims1) log ->
  tasks_route (P c1) h1 (PostTask (Some b)) d = Some (HttpOk st1 rs1, d1) ->
  served P log d1 d2 ->
  tasks_route (P c2) h2 GetTasks d2 = Some (HttpOk st2 rs2, d3) ->
  exists r, In r rs2 /\ r_Title r = b_Title b /\ r_Description r = b_Description b /\ r_Status r = b_Status b /\
    r_UserId r = uuid_String (UserID claims1) /\
    r_DueDate r = (if default 0 (b_DueDate b) <=? 0 then 0 else default 0 (b_DueDate b)).
Proof.
  intros Ha1 Ha2 Hu Hdue Hs Hpost Hlog Hget.
  rewrite (route_authorised _ _ claims1) in Hpost by done. injection Hpost as Hpost.
  rewrite (route_authorised _ _ claims2), Hu in Hget by done. injection Hget as Hget.
  apply handler_Create_ok with (u := UserID claims1) in Hpost
    as (id & now & _ & _ & Hm); [|apply uuid_Parse_String|done].
  set (t := created (UserID claims1) id b now) in Hm. assert (rows Task d2 !! id = Some t) as Hin.
  { apply (owned_by_lookup (UserID claims1)). rewrite (served_silent _ _ _ _ _ Hlog Hs).
    apply owned_by_lookup. by rewrite Hm, lookup_insert_eq. }
  exists (toTaskResponse (toTaskModel t (uuid_String (UserID claims1)))). split.
  { by apply (handler_GetAll_ok _ (UserID claims1) _ _ _ _ (uuid_Parse_String _) Hget id). }
  rewrite shown_due; [done|]. cbn. destruct (b_DueDate b) as [ms|]; [by apply Hdue|cbn; lia].
Qed.
End Props.

(** * In a small world *)

Definition demo_task (id user : nat) (title : string) : Task :=
  MkTask (id : uuid) title "text" "todo" 1735689600000 (user : uuid) 7 7.
Definition demo_table : db Task :=
  (<[(5%nat : uuid) := demo_task 5 3 "mine"]> (<[(6%nat : uuid) := demo_task 6 4 "theirs"]> ∅) : gmap uuid Task).

Definition demo_header : string := "Bearer " ++ demo_token "".
Definition demo_claims : JWTClaims := issued_claims "tasktify" "api" 15 demo_now "jti" (demo_payload "").

Lemma demo_parsed : demo_parse demo_clock (demo_token "") = Some (Ok demo_claims).
Proof. vm_compute. reflexivity. Qed.

Lemma append_inj_prefix p a b : (p ++ a)%string = (p ++ b)%string -> a = b.
Proof. intros H. induction p as [|c p IH]; [exact H|]. apply IH. by injection H. Qed.

Lemma demo_authorised : authorises (demo_parse demo_clock) demo_header demo_claims.
Proof. exists (demo_token ""). split; [reflexivity|]. split; [exact demo_parsed|by right]. Qed.

Definition demo_route (req : http_request) (d : db Task) : option (http_response (list TaskResponse) * db Task) :=
  tasks_route (demo_parse demo_clock) demo_header req d.

Lemma demo_routed req d : demo_route req d = Some (task_handler (marks 3) req d).
Proof. unfold demo_route. rewrite (route_authorised _ _ demo_claims) by apply demo_authorised. done. Qed.

(** An update cannot clear a text: the route answers 200 to a body with an
    empty title and description, and the row keeps the old ones. *)
Theorem update_cannot_clear :
  exists d : db Task, demo_route (PutTask (marks 5) (Some (MkBody "" "" "done" None))) demo_table = Some (HttpOk 200 [], d) /\
    d !! (5%nat : uuid) = Some (MkTask (5%nat : uuid) "mine" "text" "done" 1735689600000 (3%nat : uuid) 7 1).
Proof. eexists. rewrite demo_routed. split; [vm_compute; reflexivity|reflexivity]. Qed.

Lemma demo_keyed : keyed Task (rows Task demo_table).
Proof.
  intros id r. cbn [rows demo_gorm_laws]. unfold demo_table. rewrite !lookup_insert_Some, lookup_empty.
  by intros [[<- <-]|[_ [[<- <-]|[_ [=]]]]].
Qed.

Lemma tasks_isolated_witness :
  exists d : db Task, demo_route (DeleteTask (marks 5)) demo_table = Some (HttpOk 200 [], d) /\
  ((d = demo_table /\ exists e, (HttpOk 200 [] : http_response (list TaskResponse)) = HttpError e) \/
   exists claims, authorises (demo_parse demo_clock) demo_header claims /\
    (forall v, v <> UserID claims -> owned_by v (rows Task d) = owned_by v (rows Task demo_table)) /\
    (forall st rs r, (HttpOk 200 [] : http_response (list TaskResponse)) = HttpOk st rs -> In r rs ->
       answers (UserID claims) (uuid_String (UserID claims)) (rows Task demo_table) r)).
Proof.
  eexists. split; [rewrite demo_routed; vm_compute; reflexivity|].
  apply (tasks_isolated (demo_parse demo_clock) demo_header (DeleteTask (marks 5))).
  etransitivity; [apply demo_routed|vm_compute; reflexivity].
Defined.

Lemma demo_served req r d d' :
  demo_route req d = Some (r, d') -> served demo_parse [(demo_clock, demo_header, req)] d d'.
Proof. intros H. eapply served_cons; [exact H|constructor]. Qed.

Lemma demo_silent v req : v <> (3%nat : uuid) -> silent demo_parse v [(demo_clock, demo_header, req)].
Proof.
  intros Hv. apply Forall_cons; split; [|apply Forall_nil_2]. intros claims (tok & Ht & Hp & _).
  apply append_inj_prefix in Ht. subst tok. rewrite demo_parsed in Hp. injection Hp as <-. exact (not_eq_sym Hv).
Qed.

Lemma tasks_invariant_witness :
  exists d : db Task, demo_route (DeleteTask (marks 5)) demo_table = Some (HttpOk 200 [], d) /\
    owned_by (4%nat : uuid) (rows Task d) = owned_by (4%nat : uuid) (rows Task demo_table).
Proof.
  eexists. split; [rewrite demo_routed; vm_compute; reflexivity|].
  apply (tasks_invariant demo_parse [(demo_clock, demo_header, DeleteTask (marks 5))]).
  - eapply demo_served. rewrite demo_routed. vm_compute. reflexivity.
  - apply demo_keyed.
  - by apply demo_silent.
Defined.

Lemma task_owner_kept_witness :
  exists d : db Task, demo_route (PutTask (marks 5) (Some (MkBody "new" "" "" None))) demo_table = Some (HttpOk 200 [], d) /\
    exists t, rows Task d !! (5%nat : uuid) = Some t /\ UserId t = (3%nat : uuid).
Proof.
  eexists. split; [rewrite demo_routed; vm_compute; reflexivity|]. eexists. split; [reflexivity|].
  refine (task_owner_kept (demo_parse demo_clock) demo_header (PutTask (marks 5) (Some (MkBody "new" "" "" None)))
    demo_table _ _ 5%nat (demo_task 5 3 "mine") _ _ _ _); [|reflexivity|].
  - etransitivity; [apply demo_routed|vm_compute; reflexivity].
  - reflexivity.
Defined.

Lemma task_writes_exact_witness :
  (exists d : db Task, demo_route (DeleteTask (marks 5)) demo_table = Some (HttpOk 200 [], d) /\
    wrote (3%nat : uuid) (DeleteTask (marks 5)) (rows Task demo_table) (rows Task d)) /\
  exists d : db Task, demo_route (PutTask (marks 5) (Some (MkBody "new" "" "" None))) demo_table = Some (HttpOk 200 [], d) /\
    wrote (3%nat : uuid) (PutTask (marks 5) (Some (MkBody "new" "" "" None))) (rows Task demo_table) (rows Task d).
Proof.
  split; eexists; (split; [rewrite demo_routed; vm_compute; reflexivity|]);
    eapply (task_writes_exact (demo_parse demo_clock) demo_header demo_claims _ demo_table 200 []);
    try apply demo_authorised; try apply demo_keyed; try (by intros ms);
    (etransitivity; [apply demo_routed|vm_compute; reflexivity]).
Defined.

Lemma foreign_task_refused_witness :
  demo_route (DeleteTask (marks 6)) demo_table = Some (HttpError (MkHttpError 404 "task not found"), demo_table).
Proof.
  apply (foreign_task_refused (demo_parse demo_clock) demo_header demo_claims (marks 6) (MkBody "" "" "" None)).
  - apply demo_authorised.
  - intros i k t Hi. cbn. unfold demo_table. rewrite !lookup_insert_Some, lookup_empty.
    intros [[_ <-]|[_ [[_ <-]|[_ [=]]]]]; [|done]. cbn. intros <-. by vm_compute in Hi.
  - right. by left.
Defined.

Definition demo_body : TaskBody := MkBody "write" "more" "todo" (Some 1735689600000).

Lemma created_task_listed_witness :
  exists (d1 d3 : db Task) rs1 rs2, demo_route (PostTask (Some demo_body)) demo_table = Some (HttpOk 201 rs1, d1) /\
    demo_route GetTasks d1 = Some (HttpOk 200 rs2, d3) /\
    exists r, In r rs2 /\ r_Title r = "write"%string /\ r_Description r = "more"%string /\ r_Status r = "todo"%string /\
      r_UserId r = marks 3 /\ r_DueDate r = 1735689600000.
Proof.
  eexists _, _, _, _. split; [rewrite demo_routed; vm_compute; reflexivity|].
  split; [rewrite demo_routed; vm_compute; reflexivity|].
  refine (created_task_listed demo_parse demo_clock demo_header demo_clock demo_header [] demo_table _ _ _ 201 200 _ _ demo_body
    demo_claims demo_claims demo_authorised demo_authorised eq_refl _ (Forall_nil_2 _) _ (served_nil _ _) _).
  - intros ms [= <-]. lia.
  - etransitivity; [apply demo_routed|vm_compute; reflexivity].
  - etransitivity; [apply demo_routed|vm_compute; reflexivity].
Defined.
