(* ===== verification/AuthProps.v ===== *)
(** Properties of signing in and of the two kinds of token, through the token
    library, the auth service and the gateway's middleware. *)
From Stdlib Require Import ZArith Lia Ascii String.
From stdpp Require Import base numbers list strings option gmap.
From S2P Require Import Prelude Text Json JsonFacts Claims JwtParser JwtFacts JwtUtil JwtUtilFacts Store Tasks TasksFacts TaskProps Users Demo.
Local Open Scope Z_scope.

Section Auth.
Context `{HU : UUID} `{HUL : !UUIDLaws} `{HFc : FloatConv} {K : Type}.
Context (nil_key : K) (bytes_key : string -> K) (methods : registry K) (ff : float -> option string).

(** The interface of the services over the utility with one algorithm
    ([NewJwtUtilWithSigner]).  The services are wired with the one for several
    algorithms, [ServiceProps.multi_jwt]. *)
Definition single_jwt (j : jwtUtil (K := K)) : JwtUtil := MkJwt _
  (fun e p => jwtUtil_Sign nil_key ff j (env_now e) (env_jti e) (env_rng e) p)
  (fun clock token => jwtUtil_Parse bytes_key methods j clock token)
  (fun token => AlgorithmFromToken methods ff token).

(** The claims of a token do not depend on when it is read. *)
Lemma parse_token_clock iss aud algs c1 c2 token keyFunc claims :
  parse_token methods iss aud algs c1 token keyFunc = Some (Ok claims) ->
  exists r, parse_token methods iss aud algs c2 token keyFunc = Some r /\ forall claims', r = Ok claims' -> claims' = claims.
Proof.
  clear nil_key bytes_key ff. unfold parse_token. destruct (_ <? _)%nat; [done|]. cbv zeta. rewrite util_parser. unfold ParseWithClaims.
  destruct (ParseUnverified _ _ _ _) as [[t [[h c] s]]|e]; [|done]. cbv zeta. cbn [validMethods skipClaimsValidation validator].
  destruct (negb _); [done|]. destruct (keyFunc t) as [got|]; [|done].
  destruct got as [k|[|k ks]]; [|done|]; cbv beta iota;
    (destruct (verify_signature _ _ _) as [[e|]|]; [done| |done]); cbn [mbind option_bind];
    (destruct (Validate _ c1 _); [done|]); cbn [mbind option_bind Valid token_Claims];
    (destruct (validateTokenTypeHeader _ _) eqn:Et; [done|]); intros [= <-];
    (destruct (Validate _ c2 _); cbn [mbind option_bind Valid token_Claims]; [by eexists|]);
    rewrite Et; eexists; (split; [done|]); by intros ? [= <-].
Qed.

Lemma single_parse_accepted j clock token claims :
  jwt_Parse (single_jwt j) clock token = Some (Ok claims) ->
  accepted methods (issuer j) (audience j) (allowedAlgs j) clock token
    (fun _ => Ok (SingleKey (bytes_key (verifyKey j)))) claims.
Proof. apply parse_token_ok. Qed.

Section Services.
Context `{HT : Timestamps} `{HB : Bcrypt} `{HG : !Gorm User}.

(** (C6) The two kinds of token cannot stand in for each other, with one algorithm
    ([ServiceProps.services_tokens_apart] has several).  A token the
    services accept is an access token, and then the refresh call refuses it,
    or a refresh token, and then the middleware of the task routes does: at any
    times, for any user and any state of the database. *)
Theorem token_separation j c1 c2 c3 e1 e2 userID token d claims :
  jwt_Parse (single_jwt j) c1 token = Some (Ok claims) ->
  TokenUse claims = TokenUseAccess /\
    (exists e, RefreshToken (single_jwt j) c2 e1 e2 userID token d = Some (Err e)) \/
  TokenUse claims = TokenUseRefresh /\
    (exists msg, AuthMiddleware (jwt_Parse (single_jwt j) c3) ("Bearer " ++ token) = Some (Err (MkHttpError 401 msg))).
Proof.
  intros Hp. pose proof (vc_use _ _ _ _ (acc_claims _ _ _ _ _ _ _ _ (single_parse_accepted _ _ _ _ Hp))) as Huse.
  destruct Huse as [Huse|Huse]; [left|right]; (split; [done|]).
  - unfold RefreshToken. destruct (String.eqb token ""); [by eexists|].
    destruct (parse_token_clock _ _ _ c1 c2 _ _ _ Hp) as (r & Hr & Hcl). cbn [jwt_Parse single_jwt].
    unfold jwtUtil_Parse. rewrite Hr. cbn [mbind option_bind].
    destruct r as [claims'|e]; [|by eexists]. rewrite (Hcl _ eq_refl), Huse. cbn. by eexists.
  - destruct (parse_token_clock _ _ _ c1 c3 _ _ _ Hp) as (r & Hr & Hcl). unfold AuthMiddleware, TrimPrefix.
    assert (String.eqb ("Bearer " ++ token) "" = false) as -> by reflexivity.
    rewrite (proj2 (strip_prefix_some "Bearer " _ token) eq_refl). cbn [from_option id].
    destruct (String.eqb token _); [by eexists|]. cbn [jwt_Parse single_jwt]. unfold jwtUtil_Parse. rewrite Hr.
    cbn [mbind option_bind]. destruct r as [claims'|e]; [|by eexists]. rewrite (Hcl _ eq_refl), Huse. cbn. by eexists.
Qed.

(** * Registering *)

Context `{HBL : !BcryptLaws} `{HGL : !GormLaws User}.

#[export] Instance user_entity_laws : EntityLaws User.
Proof.
  constructor; cbn; [|done]. intros r u now Hr. unfold nonzero_uuid. by destruct (decide _).
Qed.

Definition email_free (email : string) (m : gmap uuid User) : Prop :=
  forall id x, m !! id = Some x -> user_Email x <> email.

Lemma users_GetByEmail_only email s id x :
  ~ broken User s -> tx_rows User s !! id = Some x -> user_Email x = email ->
  (forall id' x', tx_rows User s !! id' = Some x' -> user_Email x' = email -> x' = x) ->
  users_GetByEmail email s = Ok x.
Proof.
  intros Hb Hx He Huniq. unfold users_GetByEmail.
  pose proof (first_row User (fun x => String.eqb (user_Email x) email) s) as H.
  destruct (gorm_First _ _ _) as [y|e].
  - destruct H as (id' & Hy & Hey%String.eqb_eq). by rewrite (Huniq _ _ Hy Hey).
  - destruct H as [|H]; [done|]. apply H in Hx. apply String.eqb_neq in Hx. congruence.
Qed.

(** The user a registration stores. *)
Lemma Register_ok salt b d d1 :
  UserHandler_Register salt (Some b) d = (HttpOk 201 tt, d1) ->
  exists id x, id <> uuid_Nil /\ rows User d !! id = None /\ rows User d1 = <[id := x]> (rows User d) /\
    user_Id x = id /\ Name x = cu_Name b /\ user_Email x = cu_Email b /\
    GenerateFromPassword salt (cu_Password b) = Ok (Password x).
Proof.
  unfold UserHandler_Register, UserServer_Create. destruct (users_service_Create salt b d) as [[[]|e] d0] eqn:E; [|done]. intros [= <-].
  unfold users_service_Create in E.
  match type of E with in_tx _ ?body _ = _ => pose proof (in_tx_commit User body d tt d0 E) as (s & Hb & Hr) end.
  destruct (GenerateFromPassword salt (cu_Password b)) as [h|e] eqn:Eh; [|done]. unfold users_Create in Hb.
  match type of Hb with context [gorm_Create _ ?x _] => pose proof (create_rows User x (Begin User d) eq_refl) as Hc end.
  destruct (gorm_Create _ _ _) as [[[]|e] s']; [|done]. injection Hb as <-.
  destruct Hc as (id & now & Hn & Hf & Hs). rewrite begin_rows in Hf, Hs.
  eexists id, _. split; [done|]. split; [done|]. split; [by rewrite Hr, Hs|].
  cbn. unfold nonzero_uuid. by rewrite decide_True.
Qed.

End Services.
End Auth.

(** * In a small world *)

Definition demo_jwt : JwtUtil := single_jwt NoKey Secret demo_methods no_float demo_util.
Definition no_users : db User := (∅ : gmap uuid User).
Definition demo_env : sign_env := SignEnv demo_now "jti" demo_rng.

Lemma demo_claims_access : TokenUse demo_claims <> TokenUseRefresh.
Proof. intros H. vm_compute in H. congruence. Qed.

Lemma demo_jwt_parsed :
  jwt_Parse (single_jwt NoKey Secret demo_methods no_float demo_util) demo_clock (demo_token "") = Some (Ok demo_claims).
Proof. cbn [jwt_Parse single_jwt]. fold (demo_parse demo_clock (demo_token "")). exact demo_parsed. Qed.

Lemma token_separation_witness :
  exists e, RefreshToken demo_jwt demo_clock demo_env demo_env "" (demo_token "") no_users = Some (Err e).
Proof.
  destruct (token_separation NoKey Secret demo_methods no_float demo_util demo_clock demo_clock demo_clock demo_env demo_env
    "" (demo_token "") no_users demo_claims demo_jwt_parsed) as [[_ H]|[H _]]; [exact H|exact (False_ind _ (demo_claims_access H))].
Defined.

(** The times of a profile are off by a factor of a thousand: a user created
    at second 1735689600, in 2025, is reported as created in January 1970. *)
Theorem profile_times_off x :
  user_CreatedAt x = 1735689600 -> unix (AsTime (um_CreatedAt (toUserModel x))) = 1735689.
Proof. intros Hx. cbn [toUserModel um_CreatedAt]. rewrite Hx. reflexivity. Qed.

Lemma profile_times_off_witness :
  unix (AsTime (um_CreatedAt (toUserModel (MkUser (3%nat : uuid) "ann" "a@b" "pw" 1735689600 1735689600)))) = 1735689.
Proof. apply profile_times_off. reflexivity. Defined.
