(* ===== verification/ServiceProps.v ===== *)
(** The auth service and the gateway as [Bootstrap] wires them, with the utility
    for several algorithms over the key files: a new user signs in, and the two
    kinds of token stay apart. *)
From Stdlib Require Import ZArith Lia Ascii String.
From stdpp Require Import base numbers list strings option gmap.
From S2P Require Import Prelude Util Verify Flr Sign FlrEmu Text Json JsonFacts Claims JwtParser JwtFacts JwtMethods JwtUtil JwtUtilFacts JwtProps CryptoMethods KeyLoad MethodProps KeyProps Store Tasks TasksFacts TaskProps Users Demo KeyDemo AuthProps.
Local Open Scope Z_scope.

Section Services.
Context `{HF : F64} `{Hsh : Shake} `{Hh : Hmac} `{HKT : !KeyTypes} `{HC : !Crypto} `{HP : Pem} `{HKP : !KeyParsers} `{HFS : KeyFiles}.
Context `{HU : UUID} `{HFc : FloatConv} (fuel : nat) (ff : float -> option string).

(** * The utility of the services *)

(** The orders in which loops over the map of configurations visit it: each call
    draws its own, the parser two. *)
Record orders := Orders {
  o_sign : sign_env -> list (string * AlgConfig (K := anykey));
  o_algs : time -> string -> list (string * AlgConfig (K := anykey));
  o_key : time -> string -> list (string * AlgConfig (K := anykey))
}.

Record visits (m : multiAlgJwtUtil (K := anykey)) (o : orders) : Prop := Visits {
  vi_sign : forall e, o_sign o e ≡ₚ map_to_list (configs m);
  vi_algs : forall c t, o_algs o c t ≡ₚ map_to_list (configs m);
  vi_key : forall c t, o_key o c t ≡ₚ map_to_list (configs m)
}.

(** [NewMultiAlgJwtUtil] as the interface [JwtUtil]. *)
Definition multi_jwt (m : multiAlgJwtUtil (K := anykey)) (o : orders) : JwtUtil := MkJwt _
  (fun e p => multi_Sign ff m (o_sign o e) (env_now e) (env_jti e) (env_rng e) p)
  (fun clock token => multi_Parse (signingMethods fuel) m (o_algs o clock token) (o_key o clock token) clock token)
  (fun token => AlgorithmFromToken (signingMethods fuel) ff token).

(** A configuration that signs every text with the seed of a call. *)
Definition can_sign (e : sign_env) (cfg : AlgConfig (K := anykey)) : Prop :=
  forall text, exists sig, method_Sign (cfg_Method cfg) (env_rng e) text (SignKey cfg) = Some (Ok sig).

Lemma new_token_signed (m : SigningMethod anykey) key iss aud dur now jti p rng :
  valid_utf8 (Alg m) = true -> (forall text, exists sig, method_Sign m rng text key = Some (Ok sig)) ->
  exists s, SignedString ff rng (new_token m iss aud dur now jti p) key = Some (Ok s).
Proof.
  intros Hu Hs. unfold SignedString, SigningString.
  destruct (encode_string_map ff (Header (new_token m iss aud dur now jti p))) as (ms & -> & _);
    [by apply new_token_header_strings|].
  destruct (Hs (EncodeSegment (marshal (JObj ms)) ++ "." ++
    EncodeSegment (marshal (JObj (jwt_members (token_Claims (new_token m iss aud dur now jti p))))))%string) as (sig & Hsig).
  eexists. cbn [encode_claims jwt_claims_codec]. etransitivity; [|reflexivity].
  replace (token_Method (new_token m iss aud dur now jti p)) with m by done. by rewrite Hsig.
Qed.

Lemma multi_jwt_signs dir m o e p :
  loaded_from fuel dir true m -> visits m o ->
  is_Some (configForSignAlg m (o_sign o e) (requested m (p_Algorithm p))) ->
  (forall cfg, configForSignAlg m (o_sign o e) (requested m (p_Algorithm p)) = Some cfg -> can_sign e cfg) ->
  exists s, jwt_Sign (multi_jwt m o) e p = Some (Ok s).
Proof.
  intros Hl Ho [cfg Hc] Hs. cbn [jwt_Sign multi_jwt]. unfold multi_Sign.
  change (if String.eqb _ _ then _ else _) with (requested m (p_Algorithm p)). cbv zeta. rewrite Hc.
  destruct (configForSignAlg_some m _ _ _ (vi_sign _ _ Ho e) Hc) as (n & Hn).
  apply new_token_signed; [by apply (ld_utf8 _ _ _ _ _ (Hl n cfg Hn))|by apply Hs].
Qed.

Lemma multi_jwt_refuses m o e p :
  configForSignAlg m (o_sign o e) (requested m (p_Algorithm p)) = None ->
  exists err, jwt_Sign (multi_jwt m o) e p = Some (Err err).
Proof.
  intros Hc. cbn [jwt_Sign multi_jwt]. unfold multi_Sign.
  change (if String.eqb _ _ then _ else _) with (requested m (p_Algorithm p)). cbv zeta. rewrite Hc. by eexists.
Qed.

(** * The two kinds of token *)

(** The claims of an accepted token are read from the token alone: who reads it,
    when and with which keys plays no part. *)
Lemma accepted_same iss aud algs c1 kf iss' aud' algs' c2 kf' token cl cl' :
  accepted (signingMethods fuel) iss aud algs c1 token kf cl ->
  accepted (signingMethods fuel) iss' aud' algs' c2 token kf' cl' -> cl = cl'.
Proof.
  intros [_ (t & h & c & got & Hun & Hv & <- & _) _] [_ (t' & h' & c' & got' & Hun' & Hv' & <- & _) _].
  destruct (un_split _ _ _ _ _ _ _ Hun) as (s & Hs & _). destruct (un_split _ _ _ _ _ _ _ Hun') as (s' & Hs' & _).
  pose proof (proj2 (ParseUnverified_ok _ _ _ _ _ _ _ _) (conj Hun (conj Hv Hs))) as E.
  pose proof (proj2 (ParseUnverified_ok _ _ _ _ _ _ _ _) (conj Hun' (conj Hv' Hs'))) as E'.
  rewrite util_parser in E, E'. change (ParseUnverified (signingMethods fuel) ?p token zero_claims)
    with (ParseUnverified (signingMethods fuel) (NewParser []) token zero_claims) in E, E'.
  rewrite E in E'. by injection E' as -> _ _ _.
Qed.

Lemma multi_jwt_accepted m o clock token claims :
  jwt_Parse (multi_jwt m o) clock token = Some (Ok claims) ->
  accepted (signingMethods fuel) (m_issuer m) (m_audience m) (allowedHeaderAlgs (o_algs o clock token)) clock token
    (fun t => match configForHeaderAlg (o_key o clock token) (Alg (token_Method t)) with
      | Some cfg => Ok (SingleKey (VerifyKey cfg)) | None => Err (Message "no key configured for algorithm") end) claims.
Proof. apply parse_token_ok. Qed.

Section Handlers.
Context `{!UUIDLaws} `{HT : Timestamps} `{HB : Bcrypt} `{HG : !Gorm User}.

(** (C36) A token that any of the services accepts is an access token, and then no
    service renews a session with it, or a refresh token, and then no service lets
    a request through on it: whatever keys and algorithms each has loaded, at any
    times and in any order of the maps. *)
Theorem services_tokens_apart m o c1 m' o' c2 e1 e2 userID token d claims :
  jwt_Parse (multi_jwt m o) c1 token = Some (Ok claims) ->
  TokenUse claims = TokenUseAccess /\
    (forall pair, RefreshToken (multi_jwt m' o') c2 e1 e2 userID token d <> Some (Ok pair)) \/
  TokenUse claims = TokenUseRefresh /\
    (forall caller, AuthMiddleware (jwt_Parse (multi_jwt m' o') c2) ("Bearer " ++ token) <> Some (Ok caller)).
Proof.
  intros Hp%multi_jwt_accepted. destruct (vc_use _ _ _ _ (acc_claims _ _ _ _ _ _ _ _ Hp)) as [Huse|Huse]; [left|right]; (split; [done|]).
  - intros pair. unfold RefreshToken. destruct (String.eqb token ""); [done|].
    destruct (jwt_Parse (multi_jwt m' o') c2 token) as [[cl|e]|] eqn:E; [|done..]. cbn [mbind option_bind].
    apply multi_jwt_accepted in E. by rewrite <- (accepted_same _ _ _ _ _ _ _ _ _ _ _ _ _ Hp E), Huse.
  - intros [u em] (cl & (tok & Htok & E%multi_jwt_accepted & Hcl) & _)%AuthMiddleware_ok.
    apply (proj2 (strip_prefix_some "Bearer " _ tok)) in Htok. rewrite (proj2 (strip_prefix_some "Bearer " _ token) eq_refl) in Htok.
    injection Htok as <-. rewrite <- (accepted_same _ _ _ _ _ _ _ _ _ _ _ _ _ Hp E), Huse in Hcl. by destruct Hcl.
Qed.

Context `{!CryptoLaws} `{HBL : !BcryptLaws} `{HGL : !GormLaws User}.

(** (C16) A new user signs in and is let through.  After an answered registration
    of a free email, on the services as [Bootstrap] wires them: signing in with
    that email and password under an algorithm the auth service has not loaded is
    answered 500; under one it has (the default one, if none is asked for), and
    whose configuration signs, it is answered 200, and the gateway's middleware
    accepts the access token in the answer while it is live, as that user. *)
Theorem registered_user_signs_in keysDir dfltA dfltG iss aud dur algsA algsG ma mg oa og
    salt name email password algorithm e1 e2 clock d d1 :
  auth_jwt fuel keysDir dfltA iss aud dur algsA = Ok ma ->
  gateway_jwt fuel keysDir dfltG iss aud dur algsG = Ok mg -> incl algsA algsG -> visits ma oa -> visits mg og ->
  email_free email (rows User d) -> ~ broken User (WithContext User d1) ->
  UserHandler_Register salt (Some (MkCreateUser name email password)) d = (HttpOk 201 tt, d1) ->
  exists id x, rows User d !! id = None /\ rows User d1 !! id = Some x /\ Name x = name /\
  let answer := AuthHandler_SignIn (multi_jwt ma oa) e1 e2 (Some (email, password, algorithm)) d1 in
  let config e := configForSignAlg ma (o_sign oa e) (requested ma algorithm) in
  (~ offers algsA (requested ma algorithm) -> answer = Some (HttpError (MkHttpError 500 "failed to generate token"))) /\
  (offers algsA (requested ma algorithm) -> (forall e cfg, In e [e1; e2] -> config e = Some cfg -> can_sign e cfg) ->
   exists auth, answer = Some (HttpOk 200 auth) /\
   ((forall cfg, config e1 = Some cfg -> keys_match fuel cfg) ->
    issuable iss aud dur (env_now e1) (env_jti e1) (MkJWTPayload id email algorithm TokenUseAccess) ->
    live dur (env_now e1) clock -> (String.length (AccessToken auth) <= maxJWTCompactBytes)%nat ->
    AuthMiddleware (jwt_Parse (multi_jwt mg og) clock) ("Bearer " ++ AccessToken auth) = Some (Ok (uuid_String id, email)))).
Proof.
  intros Ea Eg Hincl Hoa Hog Hfree Hbr Hreg. pose proof (auth_loaded _ _ _ _ _ _ _ _ Ea) as (Hla & _ & _ & _ & Hdom).
  destruct (Register_ok _ _ _ _ Hreg) as (id & x & Hn & Hnew & Hrows & Hid & Hname & Hem & Hpw). cbn [cu_Name cu_Email cu_Password] in *.
  assert (users_GetByEmail email (WithContext User d1) = Ok x) as Hget.
  { apply users_GetByEmail_only with (id := id); [exact Hbr| |exact Hem|].
    - by rewrite session_rows, Hrows, lookup_insert_eq.
    - intros id' x'. rewrite session_rows, Hrows, lookup_insert_Some. intros [[_ <-]|[_ Hx]] He; [reflexivity|].
      exfalso. exact (Hfree _ _ Hx He). }
  exists id, x. split; [exact Hnew|]. split; [by rewrite Hrows, lookup_insert_eq|]. split; [exact Hname|]. cbv zeta.
  assert (forall e, offers algsA (requested ma algorithm) <-> is_Some (configForSignAlg ma (o_sign oa e) (requested ma algorithm)))
    as Hoff by (intros e; apply (offers_config fuel (or_default keysDir "./keys") true); [done..|by apply vi_sign]).
  unfold AuthHandler_SignIn, AuthServer_SignIn, SignIn. rewrite Hget, (bcrypt_accepts _ _ _ Hpw). unfold signTokenPair. split.
  - intros Hno. destruct (configForSignAlg ma (o_sign oa e1) (requested ma algorithm)) eqn:Ec; [destruct Hno; apply (Hoff e1); rewrite Ec; by eexists|].
    destruct (multi_jwt_refuses ma oa e1 (payload_for x algorithm TokenUseAccess) Ec) as (err & ->). reflexivity.
  - intros Hyes Hsig.
    destruct (multi_jwt_signs _ ma oa e1 (payload_for x algorithm TokenUseAccess) Hla Hoa (proj1 (Hoff e1) Hyes)
      (fun cfg => Hsig e1 cfg (or_introl eq_refl))) as (acc & Hacc).
    destruct (multi_jwt_signs _ ma oa e2 (payload_for x algorithm TokenUseRefresh) Hla Hoa (proj1 (Hoff e2) Hyes)
      (fun cfg => Hsig e2 cfg (or_intror (or_introl eq_refl)))) as (ref & Href).
    rewrite Hacc. cbn [mbind option_bind]. rewrite Href. exists (MkAuth "Bearer" acc ref). split; [reflexivity|].
    intros Hkeys Hiss Hlive Hlen. cbn [AccessToken] in *. apply AuthMiddleware_ok.
    exists (issued_claims iss aud dur (env_now e1) (env_jti e1) (payload_for x algorithm TokenUseAccess)).
    split; [|cbn; rewrite Hid, Hem; by split]. exists acc. split; [reflexivity|]. split; [|right; reflexivity].
    cbn [jwt_Parse multi_jwt].
    apply (cross_service_at fuel keysDir dfltA dfltG iss aud dur algsA algsG ma mg (o_sign oa e1) _ _ ff _ _ (env_rng e1));
      try done; [by apply vi_sign|by apply vi_algs|by apply vi_key|].
    unfold payload_for. by rewrite Hid, Hem.
Qed.
End Handlers.
End Services.

(** * In a small world *)

Definition key_orders (signMode : bool) : orders :=
  Orders (fun _ => map_to_list (key_configs signMode)) (fun _ _ => map_to_list (key_configs signMode))
    (fun _ _ => reverse (map_to_list (key_configs signMode))).

Lemma key_visits signMode : visits (key_multi signMode) (key_orders signMode).
Proof. constructor; cbn; intros; [done..|apply reverse_Permutation]. Qed.

Definition key_jwt (signMode : bool) : JwtUtil := multi_jwt 600 no_float (key_multi signMode) (key_orders signMode).

Lemma services_tokens_apart_witness :
  exists claims, jwt_Parse (key_jwt false) demo_clock key_token = Some (Ok claims) /\
    forall pair, RefreshToken (key_jwt true) demo_clock demo_env demo_env "" key_token no_users <> Some (Ok pair).
Proof.
  assert (exists claims, jwt_Parse (key_jwt false) demo_clock key_token = Some (Ok claims) /\ TokenUse claims <> TokenUseRefresh)
    as (claims & Hp & Hu) by (eexists; split; [vm_compute; reflexivity|discriminate]).
  exists claims. split; [exact Hp|].
  destruct (services_tokens_apart 600 no_float (key_multi false) (key_orders false) demo_clock (key_multi true) (key_orders true)
    demo_clock demo_env demo_env "" key_token no_users claims Hp) as [[_ H]|[H _]]; [exact H|exact (False_ind _ (Hu H))].
Defined.

Lemma no_users_free email : email_free email (rows User no_users).
Proof. intros id x H. cbn [rows demo_gorm_laws] in H. unfold no_users in H. by rewrite lookup_empty in H. Qed.

Definition demo_register : http_response unit * db User :=
  UserHandler_Register "" (Some (MkCreateUser "ann" "a@b" "pw")) no_users.

Lemma demo_registered : demo_register = (HttpOk 201 tt, snd demo_register).
Proof. reflexivity. Qed.

Definition key_signin (algorithm : string) : option (http_response Auth) :=
  AuthHandler_SignIn (key_jwt true) demo_env demo_env (Some ("a@b", "pw", algorithm)%string) (snd demo_register).
Definition key_access : string :=
  match key_signin "HS256" with Some (HttpOk _ auth) => AccessToken auth | _ => "" end.

Lemma key_offers : offers key_algs "HS256" /\ ~ offers key_algs "RS256".
Proof. split; [right; split; [reflexivity|right; by left]|]. intros [[|[|[]]]|[_ [|[|[]]]]]; discriminate. Qed.

Lemma key_can_sign e cfg : configForSignAlg (key_multi true) (o_sign (key_orders true) e) "HS256" = Some cfg ->
  can_sign demo_env cfg /\ keys_match 600 cfg.
Proof.
  change (configForSignAlg (key_multi true) (o_sign (key_orders true) e) "HS256") with (Some (key_hs_config true)).
  intros [= <-]. split; [|reflexivity]. intros text. by eexists.
Qed.

Lemma key_user_issuable id : id <> uuid_Nil ->
  issuable "tasktify" "api" 15 demo_now "jti" (MkJWTPayload id "a@b" "HS256" TokenUseAccess).
Proof.
  intros Hid. constructor; cbn; try done; unfold second, unix_to_internal; try (split; cbn; lia). right. by left.
Qed.

Lemma registered_user_signs_in_witness :
  key_signin "RS256" = Some (HttpError (MkHttpError 500 "failed to generate token")) /\
  exists id auth, key_signin "HS256" = Some (HttpOk 200 auth) /\
    AuthMiddleware (jwt_Parse (key_jwt false) demo_clock) ("Bearer " ++ AccessToken auth) = Some (Ok (uuid_String id, "a@b"%string)).
Proof.
  pose proof (fun algorithm => registered_user_signs_in 600 no_float "" "ES256" "" "tasktify" "api" 15 key_algs key_algs
    (key_multi true) (key_multi false) (key_orders true) (key_orders false) "" "ann" "a@b" "pw" algorithm demo_env demo_env demo_clock
    no_users _ key_auth_ok key_gateway_ok (incl_refl _) (key_visits true) (key_visits false) (no_users_free "a@b") (fun H => H)
    demo_registered) as H. split.
  - destruct (H "RS256"%string) as (id & x & _ & _ & _ & H5 & _). exact (H5 (proj2 key_offers)).
  - destruct (H "HS256"%string) as (id & x & _ & Hx & _ & _ & H2). exists id.
    destruct (H2 (proj1 key_offers)) as (auth & Ha & Hm).
    { intros e cfg [<-|[<-|[]]] Hc; exact (proj1 (key_can_sign _ _ Hc)). }
    exists auth. split; [exact Ha|]. apply Hm.
    + intros cfg Hc. exact (proj2 (key_can_sign _ _ Hc)).
    + apply key_user_issuable. intros ->. vm_compute in Hx. discriminate Hx.
    + split; vm_compute; reflexivity.
    + assert (AccessToken auth = key_access) as -> by (unfold key_access, key_signin, key_jwt; by rewrite Ha).
      apply Nat.leb_le. vm_compute. reflexivity.
Defined.
